(* ===== verification/_CoqProject ===== *)
-Q . S2P
Prelude.v
CStr.v
Strutil.v
Gf256.v
Files.v
Fec.v
PageCache.v
Reqshare.v
TasfaCommon.v
RollingHash.v
SlotCache.v
Crypto.v
Session.v
Upload.v
Recover.v
Complete.v
Htp.v
Verify.v
Totp.v
TrafficGuard.v
Aho.v
SiteSettings.v
ModerationFilter.v
ForkGate.v
AntiEntropy.v
FlywireCluster.v
Flywire.v
AntiEntropyPeer.v
WritePolicy.v
SpamGuard.v
IpBan.v
Community.v
Auth.v
AuthSession.v
Middleware.v
Users.v
Login.v
Account.v
SigningKeys.v
Backup.v
Moderation.v
ModerationWire.v
Timestamps.v
Posts.v
