(* ===== verification/Prelude.v ===== *)
(** * fly.board: a verification of the core of the server

    fly.board (src/src) is a bulletin board and blog server in C: a supervisor and forked workers
    answer HTTP requests over SQLite, with a page cache, request coalescing and rate limits in shared
    memory; TASFA, its upload protocol, moves large files in chunks with erasure codes and tags;
    FlyWire replicates a site to others and moves the primary role between them.  This development
    models the parts that carry their own logic as executable functions and step relations, and proves
    what they promise.

    ** Files

    - Prelude: widths of machine integers, list, option and counting lemmas, loops with a control
      value, tactics and hint databases.  CStr: C strings and the parts of <string.h>, <ctype.h> and
      <stdlib.h> the source uses.  Files: a file system with [pread] and [pwrite].
    - Strutil (utils/strutil_pure.h): slugs, file names, HTML escaping, with the sizes of the buffers.
    - Uploads.  Gf256 and Fec: GF(2^8) and the two erasure codes of handlers/tasfa/htp.c and of the
      client (utils/client_core.h).  TasfaCommon and RollingHash (handlers/tasfa/common.c): the sizes
      and windows, and the hash that follows an upload.  SlotCache (cache.c, queue.c): session
      metadata, finalize slots, transfer slots.  Crypto (crypto.c): blocks of a stream.  Session
      (session.c): bitmaps, slices, the sweep.  Upload (upload.c): the requests that open and fill a
      session.  Recover, Htp, Verify and Complete (htp.c, upload.c): the completion: recovery of lost
      chunks, the tags of a group and their repair, the integrity check, the finalize slot.
    - Serving pages.  PageCache (utils/cache.c) and Reqshare (utils/reqshare.c): rendered pages, the
      coalescing of equal requests and the write locks of keys; ForkGate (engine/forkgate.c) keeps
      threads out of SQLite while a worker is forked.
    - Guards.  TrafficGuard (utils/traffic_guard.c): request rates; SpamGuard (utils/spam_guard.c): the
      tokens of forms and the rates of writers; IpBan (utils/ipban.c); Middleware (handlers/handlers.c):
      redirects, headers, and which requests a replica forwards.
    - Accounts.  SiteSettings and WritePolicy (config/write_policy.c), Community (engine/community.c):
      who may do what; Auth and AuthSession (auth/auth.c): passwords, the administrator, the account
      behind a request; Totp (auth/totp.c); Users (db/user.c): the table of accounts; Login and Account
      (handlers/auth.c): sign-in in two steps, recovery codes, registration, new passwords, removal.
    - Writing.  Aho and ModerationFilter (utils/aho_moderation.c, moderation_filter.c): forbidden words;
      Moderation (db/moderation.c, db/comment.c): the check of a submission and the approval queue;
      SigningKeys (crypto/fly_crypto.c, db/pqc_keys.c): signatures of posts and messages;
      ModerationWire (nats/moderation.c): the signed decisions of an external reviewer; Timestamps and
      Posts (handlers/post.c, db/post.c, db/board.c): publication times, boards, slugs, new and
      edited posts.
    - Backups.  Backup (tools/backup.c): the archive of a site, its check and its restoration.
    - Replication.  AntiEntropy (db/db_sync_anti_entropy.c): the mutation log two sites merge;
      FlywireCluster (engine/flywire_cluster.c): election, fencing and handover of the primary.
      Flywire (engine/flywire.c, db/db_sync.c): the journal, the feed, the replica's rounds and the
      queues of missing files.  AntiEntropyPeer (flywire.c): the pages two sites exchange.

    A C function is the definition of the same name; a part of a long function that is a loop or a
    phase has a definition of its own, composed the way the function composes it.  A global or a table
    in shared memory is a record passed through.  A critical section of a mutex is one step; where a
    function takes its lock several times, as the check of the filter does, or writes atomics one by one, as the
    cluster does, each section or store is a step of its own and others come in between.  Files and
    tables of the database are maps; the statements and writes of an operation succeed or fail as an
    argument says.

    ** What is shown

    - An upload delivers its file: chunks in any order, repeated or interleaved with other sessions,
      refine a map of chunks ([Upload.upload_refines_map]); completion then produces the file
      ([Complete.upload_delivers_file]), also when each group has lost what its code repairs
      ([Complete.finalize_recovers_file], [Fec.perform_rs_recovery_restores], [Gf256.gf_mul_reference]);
      a single wrong chunk is found and repaired ([Verify.finalize_verify_single_error]).
    - Sharing is safe: a page a reader holds is not freed, the byte account is right, a waiting request
      never touches a freed entry and is served a fresh page, write locks are a set, a finalize runs
      once, a fork happens with nobody inside SQLite and does happen.
    - Guards decide as announced: rate limits bound what a client gets; an address is banned only for
      failures of its own, and exactly as announced while its failures find a slot and no expired ban is
      evicted ahead of its entry ([IpBan.ipban_bans], with [IpBan.ipban_hole_frees] for the other case);
      under every interleaving of checks and changes the filter refuses exactly the texts that contain a rule of
      a policy that was in force, the one the check began under unless another thread reloads in between
      ([ModerationFilter.moderation_filter_exact]); the automaton counts the occurrences.
    - Only the right person signs in and is acted for: over every history of visits a session needs
      the password and, where it is on, the second factor ([Login.login_two_factors]); a request acts as
      the account of its first valid token and is refused exactly when it has none
      ([AuthSession.auth_session_exact]); recovery codes work once.  A registration waits for its link
      exactly when random bytes were had and the marking statement succeeded, and a link works once
      unless the statement that deletes it fails ([Account.registration_confirmed]).  An account is removed by an
      administrator or a session of its own, with the password on its page and without at POST
      /unregister ([Account.removal_authorized]).  The site admin's row is found again at every start
      and changes no other ([Users.site_admin_account]).
    - What is held back stays back: a decision of the reviewer is signed and applied once, a waiting
      comment is shown only after an approval of it, whole or half-way ([Moderation.moderation_shows_approved]),
      a post is public only by the check, a moderator or an approval - and which edits and failures get
      around that ([Posts.draft_publishes_unreviewed], [Moderation.half_approved_comment]).  A signature
      verifies on another host exactly when that host could take the key: its ring has 32 places
      ([SigningKeys.signature_survives_move]).
    - A backup comes back: a site whose paths and secrets the reader takes and whose documents are
      within its limits is restored on a fresh install byte for byte whenever the restoration reports success, whatever fails on the
      way ([Backup.backup_restores]); an archive from elsewhere changes nothing outside the places of a
      backup, and an upload with two dots in its name makes archives that cannot be restored.
    - Replicas agree: logs that saw the same mutations agree on every row, in any order; a replica's
      tables are those of the rows it replayed, in order and once each, and a row is left out only in a
      round in which its own statement fails for a passing reason ([Flywire.flywire_replica_converges]); up to
      four sites never have two primaries of one epoch, unless one acts on a status reply torn between
      two stores of a peer ([FlywireCluster.cluster_one_primary_per_epoch], with
      [FlywireCluster.torn_reply_two_primaries] for the other case).
    - Text is escaped reversibly, paths stay inside, buffers are large enough (or are shown not to be).

    Several theorems state what the code does where that is not what it means to do: a slug written
    past its buffer, the rolling hash of several ranges, readers of a replaced page, sites that are both
    primary of one epoch, and others; each says so in its comment.

    ** Bounds and fuel

    Loops over a counter are [for_loop] with the bound of the source, or structural.  Fuel appears where
    the source loops until a condition: one more than the length of the text or table that every round
    consumes or advances in (UTF-8 decoding, lines of rules, failure links, queues), and theorems say
    that it suffices: results are stated for the functions with their fuel fixed, not under the
    assumption that they return.  The table sizes are those of the source (1024 chains, 4096 buckets,
    256 rules, 2048 states, groups of six chunks).

    ** Outside code

    OpenSSL (SHA-256, HMAC, AES-GCM, PBKDF2, Argon2id, ML-DSA), cJSON, the tokens of cwist, zstd,
    brotli, zlib, SQLite and the cwist server are not in the repository.  Their functions are arguments of the definitions; what is relied on is a named
    hypothesis or the law of a class (decompression undoes compression, decryption undoes encryption,
    streaming equals one-shot hashing, a token that verifies has the claims it was signed with), and
    witnesses instantiate them with concrete functions.

    ** Not modelled

    Allocation failure, log output, JSON and HTTP syntax, and errors of a disk that works.  Of the
    transfer: downloads, media processing, publication of a finished file in the database.  Page
    rendering, markdown and themes, listings, search, the handlers of boards, mail and administration,
    the database schema, the export to Markdown and the other tools: they are text assembly and SQL
    around the parts above.
    The manifest lists every part with the reason.

    ** Plan

    What is left is around the parts above rather than in them: the handlers that read a form, call
    the database and render a page; the tree of boards (db/board_tree.c), tags and series; the timer
    of scheduled posts (utils/post_schedule.c) and realtime presence (realtime/realtime.c), whose
    difficulty is in threads and sockets; the search index, which is SQLite's; and the preprocessing
    of markdown (render/render_md.c), whose result is the renderer's. *)
From Stdlib Require Export ZArith Lia Bool String Ascii.
From stdpp Require Export base list gmap strings.

(* [String] and [Ascii] must not shadow the list functions. *)
Export List.ListNotations.
#[global] Open Scope Z_scope.
#[global] Set Default Goal Selector "!".
#[global] Arguments Z.testbit : simpl never.
#[global] Arguments Z.land : simpl never.
#[global] Arguments Z.lor : simpl never.
#[global] Arguments Z.lxor : simpl never.
#[global] Arguments Z.shiftl : simpl never.
#[global] Arguments Z.shiftr : simpl never.

(** ** Fixed-width integers *)

Definition u8 (z : Z) : Z := z `mod` 2 ^ 8.
Definition u32 (z : Z) : Z := z `mod` 2 ^ 32.
Definition u64 (z : Z) : Z := z `mod` 2 ^ 64.
(** Two's complement reading of the low 32 / 64 bits. *)
Definition i32 (z : Z) : Z := (z + 2 ^ 31) `mod` 2 ^ 32 - 2 ^ 31.
Definition i64 (z : Z) : Z := (z + 2 ^ 63) `mod` 2 ^ 64 - 2 ^ 63.
Definition i8 (z : Z) : Z := (z + 2 ^ 7) `mod` 2 ^ 8 - 2 ^ 7.

Section widths.
Implicit Types z : Z.

Lemma u8_range z : 0 <= u8 z < 2 ^ 8.
Proof. apply Z.mod_pos_bound; lia. Qed.
Lemma u32_range z : 0 <= u32 z < 2 ^ 32.
Proof. apply Z.mod_pos_bound; lia. Qed.
Lemma u64_range z : 0 <= u64 z < 2 ^ 64.
Proof. apply Z.mod_pos_bound; lia. Qed.
Lemma i32_range z : - 2 ^ 31 <= i32 z < 2 ^ 31.
Proof. unfold i32. pose proof (Z.mod_pos_bound (z + 2 ^ 31) (2 ^ 32)). lia. Qed.
Lemma i64_range z : - 2 ^ 63 <= i64 z < 2 ^ 63.
Proof. unfold i64. pose proof (Z.mod_pos_bound (z + 2 ^ 63) (2 ^ 64)). lia. Qed.

Lemma u8_small z : 0 <= z < 2 ^ 8 -> u8 z = z.
Proof. apply Z.mod_small. Qed.
Lemma u32_small z : 0 <= z < 2 ^ 32 -> u32 z = z.
Proof. apply Z.mod_small. Qed.
Lemma u64_small z : 0 <= z < 2 ^ 64 -> u64 z = z.
Proof. apply Z.mod_small. Qed.
Lemma i32_small z : - 2 ^ 31 <= z < 2 ^ 31 -> i32 z = z.
Proof. intros H. unfold i32. rewrite Z.mod_small; lia. Qed.
Lemma i64_small z : - 2 ^ 63 <= z < 2 ^ 63 -> i64 z = z.
Proof. intros H. unfold i64. rewrite Z.mod_small; lia. Qed.
Lemma u32_u32 z : u32 (u32 z) = u32 z.
Proof. apply u32_small, u32_range. Qed.
End widths.

Create HintDb width.
#[export] Hint Resolve u8_range u32_range u64_range i32_range i64_range : width.

(** [solve_width] closes a goal about a value known to fit its width. *)
Ltac solve_width :=
  repeat first
    [ rewrite u8_small by lia | rewrite u32_small by lia | rewrite u64_small by lia
    | rewrite i32_small by lia | rewrite i64_small by lia ];
  lia.

(** Bitwise equality of expressions built with [Z.lxor]. *)
Ltac lxor_bits :=
  apply Z.bits_inj'; intros ?n ?Hn; rewrite ?Z.lxor_spec, ?Z.bits_0;
  repeat match goal with |- context [Z.testbit ?a ?b] => destruct (Z.testbit a b) end;
  reflexivity.

(** ** Case analysis on boolean tests *)

(** Splits every boolean comparison of the goal and of the hypotheses. *)
Ltac bool_split :=
  repeat match goal with
  | H : (_ && _) = true |- _ => apply andb_true_iff in H as [? ?]
  | H : (_ || _) = false |- _ => apply orb_false_iff in H as [? ?]
  | H : negb _ = true |- _ => apply negb_true_iff in H
  | H : negb _ = false |- _ => apply negb_false_iff in H
  | H : (_ =? _) = true |- _ => apply Z.eqb_eq in H
  | H : (_ =? _) = false |- _ => apply Z.eqb_neq in H
  | H : (_ <? _) = true |- _ => apply Z.ltb_lt in H
  | H : (_ <? _) = false |- _ => apply Z.ltb_ge in H
  | H : (_ <=? _) = true |- _ => apply Z.leb_le in H
  | H : (_ <=? _) = false |- _ => apply Z.leb_gt in H
  | H : bool_decide _ = true |- _ => apply bool_decide_eq_true in H
  | H : bool_decide _ = false |- _ => apply bool_decide_eq_false in H
  end.

(** Case analysis on the first [if]/[match] scrutinee in the goal, then tidy. *)
Ltac split_if := case_match; bool_split; simplify_eq/=.

(** ** C loops with an early exit

    [for (i = i0; i < i0 + n; i++) body] over a local state [s]; the body either goes on
    with a new local state ([Next]) or leaves the loop with a result ([Stop]). *)

Inductive ctl (S R : Type) : Type :=
| Next (s : S)
| Stop (r : R).
Arguments Next {S R} s.
Arguments Stop {S R} r.

Fixpoint for_loop {S R : Type} (n i : nat) (body : nat -> S -> ctl S R) (s : S) : ctl S R :=
  match n with
  | O => Next s
  | Datatypes.S n' =>
      match body i s with
      | Next s' => for_loop n' (Datatypes.S i) body s'
      | Stop r => Stop r
      end
  end.

(** The invariant rule: [I] is kept by every [Next], and [Q] holds of every [Stop]. *)
Lemma for_loop_inv {S R : Type} (body : nat -> S -> ctl S R) (I : nat -> S -> Prop)
    (Q : R -> Prop) n i s :
  I i s ->
  (forall j s, (i <= j < i + n)%nat -> I j s ->
     match body j s with Next s' => I (Datatypes.S j) s' | Stop r => Q r end) ->
  match for_loop n i body s with Next s' => I (i + n)%nat s' | Stop r => Q r end.
Proof.
  revert i s. induction n as [|n IH]; intros i s Hs Hstep; simpl.
  - by rewrite Nat.add_0_r.
  - pose proof (Hstep i s ltac:(lia) Hs) as Hi.
    destruct (body i s) as [s'|r]; [|done].
    rewrite Nat.add_succ_r, <- Nat.add_succ_l.
    apply IH; [done|]. intros j t Hj. apply Hstep. lia.
Qed.

(** A loop whose body never stops runs to the end. *)
Lemma for_loop_total {S R : Type} (body : nat -> S -> ctl S R) (I : nat -> S -> Prop) n i s :
  I i s ->
  (forall j s, (i <= j < i + n)%nat -> I j s ->
     match body j s with Next s' => I (Datatypes.S j) s' | Stop _ => False end) ->
  exists s', for_loop n i body s = Next s' /\ I (i + n)%nat s'.
Proof.
  intros Hs Hstep. pose proof (for_loop_inv body I (fun _ => False) n i s Hs Hstep) as H.
  destruct (for_loop n i body s) as [s'|]; [eauto|done].
Qed.

Lemma for_loop_app {S R : Type} (body : nat -> S -> ctl S R) n m i s :
  for_loop (n + m) i body s =
  match for_loop n i body s with Next s' => for_loop m (i + n) body s' | Stop r => Stop r end.
Proof.
  revert i s. induction n as [|n IH]; intros i s; simpl.
  - by rewrite Nat.add_0_r.
  - destruct (body i s); [|done]. by rewrite IH, Nat.add_succ_r.
Qed.

(** ** Lists *)

Definition zsum (l : list Z) : Z := foldr Z.add 0 l.

Lemma zsum_app l k : zsum (l ++ k) = zsum l + zsum k.
Proof. induction l; simpl; lia. Qed.

Lemma zsum_nonneg l : Forall (fun x => 0 <= x) l -> 0 <= zsum l.
Proof. induction 1; simpl; lia. Qed.

#[export] Instance zsum_proper : Proper (Permutation ==> eq) zsum.
Proof. intros l k Hp. unfold zsum. induction Hp; simpl; lia. Qed.

Definition zlen {A} (l : list A) : Z := Z.of_nat (length l).

Lemma zlen_nonneg {A} (l : list A) : 0 <= zlen l.
Proof. unfold zlen; lia. Qed.
Lemma zlen_app {A} (l k : list A) : zlen (l ++ k) = zlen l + zlen k.
Proof. unfold zlen. rewrite length_app. lia. Qed.
Lemma zlen_cons {A} (x : A) l : zlen (x :: l) = 1 + zlen l.
Proof. unfold zlen. simpl. lia. Qed.
Lemma zlen_nil {A} : zlen (@nil A) = 0.
Proof. done. Qed.

Create Rewrite HintDb zlen.
#[export] Hint Rewrite @zlen_app @zlen_cons @zlen_nil : zlen.

(** Number of elements satisfying a boolean test. *)
Fixpoint countb {A} (P : A -> bool) (l : list A) : nat :=
  match l with
  | [] => 0
  | x :: l' => (if P x then 1 else 0) + countb P l'
  end%nat.

Lemma countb_le {A} (P : A -> bool) l : (countb P l <= length l)%nat.
Proof. induction l; simpl; [lia|]. destruct (P a); lia. Qed.

Lemma countb_app {A} (P : A -> bool) l k :
  countb P (l ++ k) = (countb P l + countb P k)%nat.
Proof. induction l; simpl; [done|]. destruct (P a); lia. Qed.

Lemma countb_full {A} (P : A -> bool) l :
  countb P l = length l <-> Forall (fun x => P x = true) l.
Proof.
  induction l as [|a l IH]; simpl; [split; [constructor|done]|].
  pose proof (countb_le P l). rewrite Forall_cons.
  destruct (P a); split; intros Hx; [|destruct Hx as [_ Hx]|lia|by destruct Hx].
  - split; [done|]. apply IH. lia.
  - apply IH in Hx. lia.
Qed.

Lemma countb_zero {A} (P : A -> bool) l : (forall x, x ∈ l -> P x = false) -> countb P l = 0%nat.
Proof.
  induction l as [|x l IH]; intros H; [done|]. cbn. rewrite (H x) by set_solver. apply IH. set_solver.
Qed.

Lemma countb_ext {A} (P Q : A -> bool) l : (forall x, x ∈ l -> P x = Q x) -> countb P l = countb Q l.
Proof. induction l as [|x l IH]; intros H; [done|]. cbn. rewrite (H x), IH by set_solver. done. Qed.

Lemma countb_pos {A} (P : A -> bool) l : (0 < countb P l)%nat <-> exists x, x ∈ l /\ P x = true.
Proof.
  induction l as [|y l IH]; cbn; [split; [lia|intros (x & Hx & _); by apply not_elem_of_nil in Hx]|].
  destruct (P y) eqn:E.
  - split; [|lia]. intros _. exists y. set_solver.
  - rewrite Nat.add_0_l, IH. split; intros (x & Hx & HP); exists x; [set_solver|].
    apply elem_of_cons in Hx as [-> |Hx]; [congruence|done].
Qed.

Lemma countb_insert {A} (P : A -> bool) (l : list A) i x y :
  l !! i = Some x ->
  (countb P (<[i:=y]> l) + (if P x then 1 else 0)
     = countb P l + (if P y then 1 else 0))%nat.
Proof.
  revert i. induction l as [|a l IH]; intros [|i] Hx; simplify_eq/=; [lia|].
  specialize (IH i Hx). lia.
Qed.

Lemma Forall_insert_1 {A} (P : A -> Prop) (l : list A) i x :
  Forall P l -> P x -> Forall P (<[i:=x]> l).
Proof. intros. by apply Forall_insert. Qed.

(** Rewriting one chain of a table of chains. *)
Lemma concat_insert {A} (bs : list (list A)) h b b' :
  bs !! h = Some b ->
  exists rest, concat bs ≡ₚ b ++ rest /\ concat (<[h := b']> bs) ≡ₚ b' ++ rest.
Proof.
  revert h. induction bs as [|a bs IH]; intros [|h] Hb; simplify_eq/=; [eauto|].
  destruct (IH h Hb) as (rest & H1 & H2). exists (a ++ rest). rewrite H1, H2. split; solve_Permutation.
Qed.

