(* ===== verification/CStr.v ===== *)
(** * C strings and the <ctype.h>/<string.h>/<stdlib.h> functions the source uses

    A NUL-terminated [char *] is the list of its bytes before the NUL, each a [Z] in
    1..255; a pointer that may be NULL is an [option].  The functions are those of the C
    standard library in the "C" locale, restricted to what the source calls. *)
From S2P Require Import Prelude.

Declare Scope cstr_scope.
Delimit Scope cstr_scope with cstr.

Abbreviation cstr := (list Z) (only parsing).

(** The code of a character, and the bytes of a string literal. *)
Definition chr (a : ascii) : Z := Z.of_N (N_of_ascii a).
Fixpoint cs (s : string) : cstr :=
  match s with
  | EmptyString => []
  | String a s' => chr a :: cs s'
  end.

Notation "'CH' a" := (ltac:(let x := eval vm_compute in (chr a%char) in exact x))
  (at level 10, a at level 0, only parsing) : cstr_scope.
Notation "'CS' s" := (ltac:(let x := eval vm_compute in (cs s%string) in exact x))
  (at level 10, s at level 0, only parsing) : cstr_scope.
#[global] Open Scope cstr_scope.

(** Every byte of a C string is a nonzero [unsigned char]. *)
Definition cstr_wf (s : cstr) : Prop := Forall (fun c => 1 <= c < 256) s.

(** ** <ctype.h> *)

Definition isdigit (c : Z) : bool := (48 <=? c) && (c <=? 57).
Definition isupper (c : Z) : bool := (65 <=? c) && (c <=? 90).
Definition islower (c : Z) : bool := (97 <=? c) && (c <=? 122).
Definition isalnum (c : Z) : bool := isdigit c || isupper c || islower c.
Definition isxdigit (c : Z) : bool :=
  isdigit c || ((65 <=? c) && (c <=? 70)) || ((97 <=? c) && (c <=? 102)).
Definition isspace (c : Z) : bool := (c =? 32) || ((9 <=? c) && (c <=? 13)).
Definition tolower (c : Z) : Z := if isupper c then c + 32 else c.

(** ** <string.h> *)

(** [strcmp(a, b) == 0]. *)
Definition streq (a b : cstr) : bool := bool_decide (a = b).

(** [strncmp(s, p, strlen(p)) == 0]. *)
Fixpoint starts_with (p s : cstr) : bool :=
  match p, s with
  | [], _ => true
  | a :: p', b :: s' => (a =? b) && starts_with p' s'
  | _ :: _, [] => false
  end.

(** [strchr(s, c)]: the bytes before the first [c] and the suffix from it on. *)
Fixpoint strchr (s : cstr) (c : Z) : option (cstr * cstr) :=
  match s with
  | [] => None
  | a :: s' =>
      if a =? c then Some ([], a :: s')
      else match strchr s' c with
           | Some (pre, suf) => Some (a :: pre, suf)
           | None => None
           end
  end.

(** The part of [s] after the last [c]: [strrchr(s, c) + 1], or [None]. *)
Fixpoint after_last (s : cstr) (c : Z) : option cstr :=
  match s with
  | [] => None
  | a :: s' =>
      match after_last s' c with
      | Some r => Some r
      | None => if a =? c then Some s' else None
      end
  end.

(** [snprintf(out, cap, "%s", s)] into a buffer of [cap > 0] bytes. *)
Definition snprintf_s (cap : nat) (s : cstr) : cstr := take (cap - 1) s.

(** ** <stdlib.h>: [strtol(s, &end, 10)] and [atoi], without overflow handling other than
    the saturation at the range of [long] that the standard prescribes. *)

Fixpoint skip_spaces (s : cstr) : cstr :=
  match s with
  | c :: s' => if isspace c then skip_spaces s' else s
  | [] => []
  end.

Fixpoint digits (s : cstr) (acc : Z) : Z * cstr :=
  match s with
  | c :: s' => if isdigit c then digits s' (10 * acc + (c - 48)) else (acc, s)
  | [] => (acc, [])
  end.

Definition long_max : Z := 2 ^ 63 - 1.
Definition long_min : Z := - 2 ^ 63.

(** The value and [end]; [end = s] when no digits were found. *)
Definition strtol10 (s : cstr) : Z * cstr :=
  let s1 := skip_spaces s in
  let '(neg, s2) :=
    match s1 with
    | 45 :: s' => (true, s')
    | 43 :: s' => (false, s')
    | _ => (false, s1)
    end in
  match s2 with
  | c :: _ =>
      if isdigit c then
        let '(v, e) := digits s2 0 in
        (if neg then Z.max long_min (- v) else Z.min long_max v, e)
      else (0, s)
  | [] => (0, s)
  end.

(** [atoi] is [(int)strtol(s, NULL, 10)] in the C library. *)
Definition atoi (s : cstr) : Z := i32 (fst (strtol10 s)).

(** Decimal printing of a nonnegative number, as printf's ["%u"]. *)
Fixpoint print_dec_aux (fuel : nat) (n : Z) (acc : cstr) : cstr :=
  match fuel with
  | O => acc
  | Datatypes.S f =>
      let acc' := (48 + n `mod` 10) :: acc in
      if n <? 10 then acc' else print_dec_aux f (n / 10) acc'
  end.
Definition print_dec (n : Z) : cstr := print_dec_aux 20 n [].
(** printf's ["%d"]. *)
Definition print_int (n : Z) : cstr :=
  if n <? 0 then 45 :: print_dec (- n) else print_dec n.

(** ** Cutting texts *)

(** The bytes up to the first NUL. *)
Fixpoint until_nul (l : list Z) : cstr :=
  match l with [] => [] | c :: l' => if c =? 0 then [] else c :: until_nul l' end.

(** The longest prefix of bytes with [p], and the rest. *)
Fixpoint span (p : Z -> bool) (s : cstr) : cstr * cstr :=
  match s with
  | c :: s' => if p c then let '(a, b) := span p s' in (c :: a, b) else ([], s)
  | [] => ([], [])
  end.
Definition skip (p : Z -> bool) (s : cstr) : cstr := snd (span p s).
Definition trim_end (p : Z -> bool) (s : cstr) : cstr := rev (skip p (rev s)).

(** [strcasecmp(a, b) == 0] *)
Definition strcaseeq (a b : cstr) : bool := streq (map tolower a) (map tolower b).

(** [fgets(line, cap, f)] on what is left of a text file; [None] at its end. *)
Fixpoint fgets_upto (n : nat) (s : cstr) : cstr * cstr :=
  match n, s with
  | S n, c :: s' => if c =? 10 then ([c], s') else let '(l, r) := fgets_upto n s' in (c :: l, r)
  | _, _ => ([], s)
  end.
Definition fgets (cap : nat) (s : cstr) : option (cstr * cstr) :=
  match s with [] => None | _ => Some (fgets_upto (cap - 1) s) end.

(** ** Hexadecimal digits *)
Definition hex_digit (n : Z) : Z := if n <? 10 then CH "0" + n else CH "a" + (n - 10).
(** [%02x] *)
Definition hex_byte (b : Z) : cstr := [hex_digit (b / 16); hex_digit (b `mod` 16)].

(** ** djb2, [h = ((h << 5) + h) + c] on 32 bits *)
Definition djb2_step (h c : Z) : Z := u32 (u32 (u32 (Z.shiftl h 5) + h) + c).
Definition djb2 (s : cstr) : Z := foldl djb2_step 5381 s.

(** ** Lemmas *)

Lemma streq_eq a b : streq a b = true <-> a = b.
Proof. apply bool_decide_eq_true. Qed.
Lemma streq_neq a b : streq a b = false <-> a <> b.
Proof. apply bool_decide_eq_false. Qed.
Lemma streq_refl a : streq a a = true.
Proof. by apply streq_eq. Qed.

Lemma starts_with_app p s : starts_with p (p ++ s) = true.
Proof. induction p as [|a p IH]; simpl; [done|]. by rewrite Z.eqb_refl, IH. Qed.

Lemma starts_with_spec p s : starts_with p s = true <-> exists r, s = p ++ r.
Proof.
  split; [|intros [r ->]; apply starts_with_app].
  revert s. induction p as [|a p IH]; intros [|b s] H; simplify_eq/=; eauto.
  bool_split. destruct (IH s) as [r ->]; [done|]. exists r. by subst.
Qed.

Lemma strchr_spec s c pre suf :
  strchr s c = Some (pre, suf) ->
  s = pre ++ suf /\ (c ∉ pre) /\ exists t, suf = c :: t.
Proof.
  revert pre suf. induction s as [|a s IH]; intros pre suf H; simplify_eq/=.
  destruct (a =? c) eqn:E; bool_split; simplify_eq/=.
  - split; [done|]. split; [apply not_elem_of_nil|]. by eexists.
  - destruct (strchr s c) as [[p f]|] eqn:E2; simplify_eq/=.
    destruct (IH p suf) as (-> & Hp & t & ->); [done|].
    split; [done|]. split; [|by eexists].
    apply not_elem_of_cons; split; [congruence|done].
Qed.

Lemma strchr_none s c : strchr s c = None <-> c ∉ s.
Proof.
  induction s as [|a s IH]; simpl.
  - split; [intros; apply not_elem_of_nil|done].
  - rewrite not_elem_of_cons. destruct (a =? c) eqn:E; bool_split; [naive_solver|].
    rewrite <- IH. destruct (strchr s c) as [[p f]|]; naive_solver.
Qed.

Lemma after_last_no_sep s c r : after_last s c = Some r -> c ∉ r.
Proof.
  revert r. induction s as [|a s IH]; intros r H; simplify_eq/=.
  destruct (after_last s c) as [q|] eqn:E; [naive_solver|].
  destruct (a =? c); simplify_eq/=. clear IH. revert E.
  induction r as [|b r IH]; intros E; [apply not_elem_of_nil|]. simpl in E.
  destruct (after_last r c) eqn:E2; simplify_eq.
  destruct (b =? c) eqn:E3; simplify_eq. bool_split.
  apply not_elem_of_cons; split; [congruence|by apply IH].
Qed.

Lemma after_last_none s c : after_last s c = None -> c ∉ s.
Proof.
  induction s as [|a s IH]; intros H; [apply not_elem_of_nil|]; simpl in H.
  destruct (after_last s c); simplify_eq. destruct (a =? c) eqn:E; simplify_eq. bool_split.
  apply not_elem_of_cons; split; [congruence|by apply IH].
Qed.

Lemma after_last_sublist s c r : after_last s c = Some r -> exists p, s = p ++ r.
Proof.
  revert r. induction s as [|a s IH]; intros r H; simplify_eq/=.
  destruct (after_last s c) as [q|] eqn:E; simplify_eq.
  - destruct (IH r) as [p ->]; [done|]. by exists (a :: p).
  - destruct (a =? c); simplify_eq. by exists [a].
Qed.

Lemma djb2_step_range h c : 0 <= djb2_step h c < 2 ^ 32.
Proof. apply u32_range. Qed.

Lemma djb2_range s : 0 <= djb2 s < 2 ^ 32.
Proof.
  unfold djb2. assert (H : 0 <= 5381 < 2 ^ 32) by lia.
  revert H. generalize 5381. induction s as [|c s IH]; intros h H; simpl; [done|].
  apply IH, djb2_step_range.
Qed.

Lemma snprintf_s_id cap s : (length s < cap)%nat -> snprintf_s cap s = s.
Proof. intros H. unfold snprintf_s. apply take_ge. lia. Qed.

Lemma tolower_range c : isalnum c = true ->
  isdigit (tolower c) = true \/ islower (tolower c) = true.
Proof.
  unfold isalnum, tolower, isdigit, isupper, islower. intros H.
  destruct (((65 <=? c) && (c <=? 90))) eqn:E; bool_split.
  - right. apply andb_true_iff. split; apply Z.leb_le; lia.
  - apply orb_true_iff in H as [H|H]; [|by right].
    apply orb_true_iff in H as [H|H]; [by left|congruence].
Qed.

(** ** Decimal numbers can be read back *)

Lemma isdigit_digit n : isdigit (48 + n `mod` 10) = true.
Proof.
  unfold isdigit. pose proof (Z.mod_pos_bound n 10 ltac:(lia)).
  apply andb_true_intro; split; apply Z.leb_le; lia.
Qed.

(** [digits] on the text of [n] in front of [acc], where [k] is the value read so far. *)
Lemma digits_print_dec_aux fuel : forall n acc k, 0 <= n < 10 ^ Z.of_nat fuel -> (0 < fuel)%nat ->
  exists w, 0 <= w /\ digits (print_dec_aux fuel n acc) k = digits acc (k * 10 ^ w + n).
Proof.
  induction fuel as [|f IH]; intros n acc k Hn Hf; [lia|]. cbn [print_dec_aux]. cbv zeta.
  assert (Hd : forall a m, digits ((48 + n `mod` 10) :: a) m = digits a (10 * m + n `mod` 10)).
  { intros a m. cbn [digits]. rewrite isdigit_digit. f_equal. lia. }
  destruct (Z.ltb_spec n 10).
  - exists 1. split; [lia|]. rewrite Hd. f_equal. rewrite Z.mod_small by lia. lia.
  - assert (Hf' : (0 < f)%nat).
    { destruct f; [|lia]. simpl in Hn. lia. }
    destruct (IH (n / 10) ((48 + n `mod` 10) :: acc) k) as (w & Hw & E); [|done|].
    { rewrite Nat2Z.inj_succ, Z.pow_succ_r in Hn by lia. split; [apply Z.div_pos; lia|].
      apply Z.div_lt_upper_bound; lia. }
    exists (w + 1). split; [lia|]. rewrite E, Hd. f_equal.
    rewrite Z.pow_add_r by lia. pose proof (Z.div_mod n 10 ltac:(lia)). lia.
Qed.

(** A text that does not go on with a digit. *)
Definition ends_number (r : cstr) : Prop := forall c r', r = c :: r' -> isdigit c = false.

Lemma digits_stop r k : ends_number r -> digits r k = (k, r).
Proof. intros H. destruct r as [|c r]; [done|]. cbn. by rewrite (H c r eq_refl). Qed.

Lemma print_dec_aux_app fuel n acc r : print_dec_aux fuel n acc ++ r = print_dec_aux fuel n (acc ++ r).
Proof.
  revert n acc. induction fuel as [|f IH]; intros n acc; [done|]. cbn [print_dec_aux]. cbv zeta.
  destruct (n <? 10); [done|]. by rewrite IH.
Qed.

Lemma digits_print_dec n r : 0 <= n < 10 ^ 20 -> ends_number r ->
  digits (print_dec n ++ r) 0 = (n, r).
Proof.
  intros Hn Hr. unfold print_dec. rewrite print_dec_aux_app.
  destruct (digits_print_dec_aux 20 n ([] ++ r) 0 Hn ltac:(lia)) as (w & _ & ->).
  rewrite Z.mul_0_l. by apply digits_stop.
Qed.

Lemma length_print_dec_aux fuel n acc :
  (length (print_dec_aux fuel n acc) <= fuel + length acc)%nat.
Proof.
  revert n acc. induction fuel as [|f IH]; intros n acc; [done|]. cbn [print_dec_aux]. cbv zeta.
  destruct (n <? 10); [cbn; lia|]. etrans; [apply IH|]. cbn. lia.
Qed.

Lemma length_print_int n : (length (print_int n) <= 21)%nat.
Proof.
  unfold print_int, print_dec. destruct (n <? 0); cbn [length].
  - pose proof (length_print_dec_aux 20 (- n) []). cbn [length] in *. lia.
  - pose proof (length_print_dec_aux 20 n []). cbn [length] in *. lia.
Qed.

(** The text of a nonnegative number determines it, whatever follows. *)
Lemma print_int_inj_app a b r r' : 0 <= a < 10 ^ 20 -> 0 <= b < 10 ^ 20 ->
  ends_number r -> ends_number r' -> print_int a ++ r = print_int b ++ r' -> a = b /\ r = r'.
Proof.
  intros Ha Hb Hr Hr'. unfold print_int.
  destruct (Z.ltb_spec a 0), (Z.ltb_spec b 0); try lia. intros E.
  pose proof (digits_print_dec a r Ha Hr) as Ea. rewrite E, digits_print_dec in Ea by done.
  by simplify_eq.
Qed.

Lemma strchr_app pre c x : c ∉ pre -> strchr (pre ++ c :: x) c = Some (pre, c :: x).
Proof.
  induction pre as [|a pre IH]; intros Hc; cbn.
  - by rewrite Z.eqb_refl.
  - apply not_elem_of_cons in Hc as [Hne Hc]. destruct (Z.eqb_spec a c); [congruence|].
    by rewrite IH.
Qed.

(** ** Printed numbers are read back *)

Lemma print_dec_aux_head fuel : forall n acc, (0 < fuel)%nat \/ (exists c r, acc = c :: r /\ isdigit c = true) ->
  exists c r, print_dec_aux fuel n acc = c :: r /\ isdigit c = true.
Proof.
  induction fuel as [|f IH]; intros n acc H; cbn [print_dec_aux].
  - destruct H as [H|H]; [lia|done].
  - assert (Hd : exists c r, (48 + n `mod` 10) :: acc = c :: r /\ isdigit c = true)
      by (eexists _, _; split; [done|apply isdigit_digit]).
    cbv zeta. destruct (n <? 10); [done|]. apply IH. by right.
Qed.

Lemma digit_not_prefix c : isdigit c = true -> isspace c = false /\ c <> 45 /\ c <> 43.
Proof. unfold isdigit, isspace. lia. Qed.

Lemma strtol10_print_int_app n r : 0 <= n <= long_max -> ends_number r -> strtol10 (print_int n ++ r) = (n, r).
Proof.
  intros Hn Hr. unfold print_int. replace (n <? 0) with false by lia.
  pose proof (digits_print_dec n r ltac:(unfold long_max in Hn; lia) Hr) as Hd.
  destruct (print_dec_aux_head 20 n [] ltac:(left; lia)) as (c & s & E & Hc). fold (print_dec n) in E. rewrite E in *.
  destruct (digit_not_prefix c Hc) as (Hs & H1 & H2). change ((c :: s) ++ r) with (c :: s ++ r) in *.
  unfold strtol10. cbn [skip_spaces]. rewrite Hs.
  replace (match c with 45 => (true, s ++ r) | 43 => (false, s ++ r) | _ => (false, c :: s ++ r) end) with (false, c :: s ++ r).
  - rewrite Hc, Hd. f_equal. lia.
  - clear - H1 H2. by repeat (destruct c as [|c|c]; try done); destruct H1 || destruct H2.
Qed.

Lemma strtol10_print_int n : 0 <= n <= long_max -> strtol10 (print_int n) = (n, []).
Proof. intros Hn. rewrite <- (app_nil_r (print_int n)). by apply strtol10_print_int_app. Qed.

(** ** Cutting texts *)

Lemma span_app p s : let '(a, b) := span p s in s = a ++ b.
Proof. induction s as [|c s IH]; [done|]. cbn. destruct (p c); [|done]. destruct (span p s). by rewrite IH. Qed.

Lemma span_stop p a s : forallb p a = true -> (forall c s', s = c :: s' -> p c = false) -> span p (a ++ s) = (a, s).
Proof.
  intros Ha Hs. induction a as [|c a IH]; cbn in *.
  - destruct s as [|c s]; [done|]. cbn. by rewrite (Hs c s).
  - apply andb_true_iff in Ha as [Hc Ha]. by rewrite Hc, (IH Ha).
Qed.

Lemma skip_none p s : (forall c s', s = c :: s' -> p c = false) -> skip p s = s.
Proof. intros Hs. unfold skip. rewrite <- (app_nil_l s) at 1. by rewrite span_stop. Qed.

Lemma trim_end_none p s c : p c = false -> trim_end p (s ++ [c]) = s ++ [c].
Proof.
  intros Hc. unfold trim_end. rewrite rev_app_distr. cbn [rev app]. rewrite skip_none by (by intros ? ? [= <- _]).
  cbn [rev]. by rewrite rev_involutive.
Qed.

Lemma trim_end_nil p : trim_end p [] = [].
Proof. done. Qed.

(** A line without a newline before its end is read as it is. *)
Lemma fgets_line cap line rest : 10 ∉ line -> (length line + 1 < cap)%nat -> fgets cap (line ++ 10 :: rest) = Some (line ++ [10], rest).
Proof.
  intros Hl Hcap. unfold fgets. assert (E : fgets_upto (cap - 1) (line ++ 10 :: rest) = (line ++ [10], rest)).
  { assert (Hn : (length line < cap - 1)%nat) by lia. revert Hn. generalize (cap - 1)%nat. clear Hcap. induction line as [|c line IH]; intros n Hn.
    - destruct n as [|n]; [cbn in Hn; lia|]. done.
    - destruct n as [|n]; [cbn in Hn; lia|]. cbn in *. apply not_elem_of_cons in Hl as [Hc Hl].
      rewrite (proj2 (Z.eqb_neq c 10)) by done. rewrite IH by (done || lia). done. }
  rewrite E. by destruct line.
Qed.

Lemma streq_case_refl a : strcaseeq a a = true.
Proof. apply streq_refl. Qed.
