(* ===== verification/Strutil.v ===== *)
(** * Pure string utilities (src/src/utils/strutil_pure.h)

    Slugs, UTF-8 truncation, the public-path whitelist, upload file names and the HTML
    escaping that every stored string goes through.  Buffers are the lists of the bytes
    written; the size passed to the allocator is modelled where the function computes it,
    so that the bound of every write is a theorem. *)
From S2P Require Import Prelude CStr.

(** ** Slugs: [fb_generate_slug] *)

(** One iteration of the scan; [cap = len * 3] guards the loop as in the source. *)
Definition slug_step (cap : nat) (slug : cstr) (c : Z) : cstr :=
  if (length slug <? cap)%nat then
    if isalnum c then slug ++ [tolower c]
    else if (c =? CH " ") || (c =? CH "-") || (c =? CH "_") then
      if (length slug =? 0)%nat || negb (bool_decide (last slug = Some (CH "-")))
      then slug ++ [CH "-"] else slug
    else slug
  else slug.

Definition drop_last_dash (slug : cstr) : cstr :=
  if (0 <? length slug)%nat && bool_decide (last slug = Some (CH "-"))
  then take (length slug - 1) slug else slug.

Definition fb_generate_slug (title : cstr) : cstr :=
  let slug := drop_last_dash (foldl (slug_step (length title * 3)) [] title) in
  if (length slug =? 0)%nat then CS "post" else slug.

(** ** [fb_utf8_truncate_len] *)

(** [(str[i] & 0xC0) == 0x80]: a UTF-8 continuation byte. *)
Definition utf8_cont (c : Z) : bool := Z.land c 192 =? 128.

Fixpoint utf8_back (str : cstr) (i : nat) : nat :=
  match i with
  | O => O
  | Datatypes.S i' => if utf8_cont (default 0 (str !! i)) then utf8_back str i' else i
  end.

Definition fb_utf8_truncate_len (str : option cstr) (max_bytes : nat) : nat :=
  match str with
  | None => 0%nat
  | Some s => if (length s <=? max_bytes)%nat then length s else utf8_back s max_bytes
  end.

(** ** [fb_is_safe_public_path] *)

Definition allowed_prefixes : list cstr :=
  [CS "public/uploads/"; CS "public/profile/"; CS "public/img/"; CS "public/media/";
   CS "data/tasfa/"].

(** [p[0] == '.' && p[1] == '.' && (p[2] == '/' || p[2] == '\0')]. *)
Definition dotdot_here (p : cstr) : bool :=
  match p with
  | [46; 46] => true
  | 46 :: 46 :: 47 :: _ => true
  | _ => false
  end.

(** The scan over the segments; [fuel] bounds the number of slashes. *)
Fixpoint no_dotdot_segment (fuel : nat) (p : cstr) : bool :=
  match fuel with
  | O => false
  | Datatypes.S f =>
      match p with
      | [] => true
      | _ :: _ =>
          if dotdot_here p then false
          else match strchr p (CH "/") with
               | None => true
               | Some (_, suf) => no_dotdot_segment f (drop 1 suf)
               end
      end
  end.

Definition fb_is_safe_public_path (path : option cstr) : bool :=
  match path with
  | None | Some [] => false
  | Some p =>
      if bool_decide (p !! 0%nat = Some (CH "/")) then false
      else if starts_with (CS "..") p then false
      else if negb (existsb (fun pre => starts_with pre p) allowed_prefixes) then false
      else no_dotdot_segment (Datatypes.S (length p)) p
  end.

(** ** [fb_sanitize_filename] *)

Definition filename_keep (c : Z) : bool :=
  negb ((c =? 0) || (c =? CH "/") || (c =? CH "\") || (c =? 13) || (c =? 10) || (c <? 32)).

Definition fb_sanitize_filename (filename : option cstr) : option cstr :=
  match filename with
  | None => None
  | Some f =>
      let base := default f (after_last f (CH "/")) in
      let base := default base (after_last base (CH "\")) in
      match base with
      | [] => None
      | _ :: _ =>
          match List.filter filename_keep (take 255 base) with
          | [] => None
          | out => Some out
          end
      end
  end.

(** ** [fb_sql_escape] / [fb_sql_unescape] *)

(** First pass: the extra bytes the replacement of [c] needs. *)
Definition escape_extra (c : Z) : nat :=
  if c =? CH "&" then 4
  else if c =? CH "<" then 3
  else if c =? CH ">" then 3
  else if c =? 34 then 5
  else if c =? 39 then 5
  else 0.

(** Second pass: the bytes written for [c]. *)
Definition escape_char (c : Z) : cstr :=
  if c =? CH "&" then CS "&amp;"
  else if c =? CH "<" then CS "&lt;"
  else if c =? CH ">" then CS "&gt;"
  else if c =? 34 then CS "&quot;"
  else if c =? 39 then CS "&#x27;"
  else [c].

(** [len + extra + 1] bytes are allocated. *)
Definition escape_alloc (src : cstr) : nat :=
  (length src + foldr (fun c n => escape_extra c + n) 0 src + 1)%nat.

Fixpoint escape_bytes (src : cstr) : cstr :=
  match src with
  | [] => []
  | c :: src' => escape_char c ++ escape_bytes src'
  end.

Definition fb_sql_escape (src : option cstr) : option cstr :=
  match src with
  | None => None
  | Some s => Some (escape_bytes s)
  end.

(** One position of the scan: the byte written and how many of the following bytes the
    entity consumes (the [i += n] of the source). *)
Definition unescape_at (s : cstr) (c : Z) : Z * nat :=
  if starts_with (CS "&amp;") s then (CH "&", 4%nat)
  else if starts_with (CS "&lt;") s then (CH "<", 3%nat)
  else if starts_with (CS "&gt;") s then (CH ">", 3%nat)
  else if starts_with (CS "&gtl") s then (CH ">", 3%nat)
  else if starts_with (CS "&quot;") s then (34, 5%nat)
  else if starts_with (CS "&#x27;") s then (39, 5%nat)
  else if starts_with (CS "&#39;") s then (39, 4%nat)
  else (c, 0%nat).

Fixpoint unescape_bytes (skip : nat) (s : cstr) : cstr :=
  match s with
  | [] => []
  | c :: s' =>
      match skip with
      | Datatypes.S k => unescape_bytes k s'
      | O => let '(out, k) := unescape_at s c in out :: unescape_bytes k s'
      end
  end.

Definition fb_sql_unescape (src : option cstr) : option cstr :=
  match src with
  | None => None
  | Some s => Some (unescape_bytes 0 s)
  end.

(** ** Slugs *)

Definition slug_char (c : Z) : bool := isdigit c || islower c || (c =? CH "-").

(** Bytes [fb_generate_slug] allocates: [len * 3 + 1]. *)
Definition slug_alloc (title : cstr) : nat := (length title * 3 + 1)%nat.

Fixpoint no_double_dash (s : cstr) : Prop :=
  match s with
  | a :: (b :: _) as t => ~ (a = 45 /\ b = 45) /\ no_double_dash t
  | _ => True
  end.

Lemma no_double_dash_snoc s c :
  no_double_dash (s ++ [c]) <->
  no_double_dash s /\ ~ (last s = Some 45 /\ c = 45).
Proof.
  induction s as [|a [|b s] IH].
  - simpl. naive_solver.
  - simpl. naive_solver.
  - cbn [app no_double_dash]. cbn [app] in IH. rewrite IH.
    change (last (a :: b :: s)) with (last (b :: s)). tauto.
Qed.

Record slug_inv (n : nat) (slug : cstr) : Prop := {
  slug_len : (length slug <= n)%nat;
  slug_chars : Forall (fun c => slug_char c = true) slug;
  slug_dashes : no_double_dash slug;
}.

Lemma slug_char_tolower c : isalnum c = true -> slug_char (tolower c) = true.
Proof.
  intros H. unfold slug_char. destruct (tolower_range c H) as [-> | ->]; [done|].
  by rewrite orb_true_r.
Qed.

Lemma tolower_not_dash c : isalnum c = true -> tolower c <> 45.
Proof.
  intros H E. destruct (tolower_range c H) as [H1|H1]; by rewrite E in H1.
Qed.

Lemma slug_step_inv cap n slug c :
  slug_inv n slug -> slug_inv (Datatypes.S n) (slug_step cap slug c).
Proof.
  intros [Hl Hc Hd]. unfold slug_step.
  assert (Hself : slug_inv (Datatypes.S n) slug) by (split; auto; lia).
  destruct (length slug <? cap)%nat; [|done].
  destruct (isalnum c) eqn:Ha.
  - split.
    + rewrite length_app. simpl. lia.
    + rewrite Forall_app, Forall_singleton. split; [done|]. by apply slug_char_tolower.
    + apply no_double_dash_snoc. split; [done|].
      intros [_ E]. by apply (tolower_not_dash c Ha).
  - destruct (_ || _ || _); [|done].
    destruct (_ || negb _) eqn:E; [|done]. split.
    + rewrite length_app. simpl. lia.
    + by rewrite Forall_app, Forall_singleton.
    + apply no_double_dash_snoc. split; [done|]. intros [E1 _].
      rewrite E1 in E. apply orb_true_iff in E as [E|E]; [|by rewrite bool_decide_true in E].
      apply Nat.eqb_eq, length_zero_iff_nil in E. subst. done.
Qed.

Lemma slug_scan_inv cap title slug n :
  slug_inv n slug -> slug_inv (n + length title) (foldl (slug_step cap) slug title).
Proof.
  revert slug n. induction title as [|c title IH]; intros slug n H; simpl.
  - by rewrite Nat.add_0_r.
  - rewrite Nat.add_succ_r. change (Datatypes.S (n + length title))
      with (Datatypes.S n + length title)%nat.
    by apply IH, slug_step_inv.
Qed.

Lemma no_double_dash_app_l s t : no_double_dash (s ++ t) -> no_double_dash s.
Proof.
  revert s. induction t as [|c t IH] using rev_ind; intros s; [by rewrite app_nil_r|].
  rewrite app_assoc. intros [H _]%no_double_dash_snoc. by apply IH.
Qed.

Lemma drop_last_dash_inv n slug : slug_inv n slug ->
  slug_inv n (drop_last_dash slug) /\ last (drop_last_dash slug) <> Some 45.
Proof.
  intros [Hl Hc Hd]. unfold drop_last_dash.
  destruct (_ && _) eqn:E.
  - apply andb_true_iff in E as [E1 E2]. apply bool_decide_eq_true, last_Some in E2 as [t ->].
    rewrite length_app, take_app_length' by (simpl; lia). simpl in *.
    rewrite length_app in Hl. simpl in Hl. apply Forall_app in Hc as [Hc _].
    apply no_double_dash_snoc in Hd as [Hd Hn].
    split; [split; [lia|done|done]|]. naive_solver.
  - split; [done|]. intros Hlast. rewrite Hlast in E.
    rewrite bool_decide_true, andb_true_r in E by done.
    destruct slug; [done|]. simpl in E. done.
Qed.

(** every slug is a non-empty string over [0-9a-z-] without two consecutive dashes and
    without a trailing dash, no longer than the title (or it is the four-byte fallback). *)
Theorem fb_generate_slug_wf title :
  let slug := fb_generate_slug title in
  slug <> [] /\ Forall (fun c => slug_char c = true) slug /\ no_double_dash slug /\
  last slug <> Some (CH "-") /\ (length slug <= Nat.max 4 (length title))%nat.
Proof.
  unfold fb_generate_slug. cbv zeta.
  assert (H0 : slug_inv 0 []) by (split; [done|constructor|done]).
  apply (slug_scan_inv (length title * 3) title) in H0. simpl in H0.
  apply drop_last_dash_inv in H0 as [[Hl Hc Hd] Hlast].
  destruct (drop_last_dash _) as [|c t]; simpl in *.
  - split; [done|]. split; [by repeat (apply Forall_cons; split)|].
    split; [naive_solver|]. split; [done|lia].
  - split; [done|]. split; [done|]. split; [done|]. split; [done|lia].
Qed.

(** the terminated slug fits the [len * 3 + 1] allocated bytes for every title except
    the empty one and the one-byte titles that are not alphanumeric: there the fallback
    "post" writes past the end of the buffer. *)
Theorem fb_generate_slug_buffer title :
  (length (fb_generate_slug title) + 1 <= slug_alloc title)%nat <->
  ~ (title = [] \/ exists c, title = [c] /\ isalnum c = false).
Proof.
  unfold slug_alloc. destruct title as [|c [|d t]].
  - split; [vm_compute; lia|]. intros []. by left.
  - destruct (isalnum c) eqn:E.
    + split; [|].
      * intros _ [?|(x & ? & ?)]; simplify_eq/=; congruence.
      * intros _. destruct (fb_generate_slug_wf [c]) as (_ & _ & _ & _ & H).
        unfold fb_generate_slug. cbn. unfold slug_step. cbn. rewrite E. cbn.
        unfold drop_last_dash. simpl. rewrite bool_decide_false; [simpl; lia|].
        intros [=]. by apply (tolower_not_dash c E).
    + split; [|intros []; right; eauto].
      unfold fb_generate_slug. cbn. unfold slug_step. cbn. rewrite E.
      destruct (_ || _ || _); vm_compute; lia.
  - split; [intros _ [?|(x & ? & ?)]; done|]. intros _.
    destruct (fb_generate_slug_wf (c :: d :: t)) as (_ & _ & _ & _ & H).
    simpl length in *. lia.
Qed.

(** ** UTF-8 truncation *)

Lemma utf8_back_spec s i :
  (utf8_back s i <= i)%nat /\
  (utf8_back s i = 0%nat \/ utf8_cont (default 0 (s !! utf8_back s i)) = false) /\
  (forall j, (utf8_back s i < j <= i)%nat -> utf8_cont (default 0 (s !! j)) = true).
Proof.
  induction i as [|i (IH1 & IH2 & IH3)]; simpl.
  - split; [lia|]. split; [by left|]. intros; lia.
  - destruct (utf8_cont (default 0 (s !! Datatypes.S i))) eqn:E.
    + split; [lia|]. split; [done|]. intros j Hj.
      destruct (decide (j = Datatypes.S i)) as [->|]; [done|]. apply IH3. lia.
    + split; [lia|]. split; [by right|]. intros; lia.
Qed.

(** Truncation keeps at most [max_bytes] bytes, keeps the whole string when it fits, and
    otherwise cuts at the last position not above [max_bytes] that starts a UTF-8 sequence
    (or at 0), never inside one. *)
Theorem fb_utf8_truncate_len_spec s max_bytes :
  let n := fb_utf8_truncate_len (Some s) max_bytes in
  (n <= max_bytes)%nat /\ (n <= length s)%nat /\
  ((length s <= max_bytes)%nat -> n = length s) /\
  ((max_bytes < length s)%nat ->
     (n = 0%nat \/ exists c, s !! n = Some c /\ utf8_cont c = false) /\
     forall j, (n < j <= max_bytes)%nat -> exists c, s !! j = Some c /\ utf8_cont c = true).
Proof.
  simpl. destruct (length s <=? max_bytes)%nat eqn:E.
  { apply Nat.leb_le in E. repeat split; lia. }
  apply Nat.leb_gt in E. destruct (utf8_back_spec s max_bytes) as (H1 & H2 & H3).
  repeat split; try lia.
  - destruct H2 as [H2|H2]; [by left|right].
    destruct (lookup_lt_is_Some_2 s (utf8_back s max_bytes) ltac:(lia)) as [c Hc].
    rewrite Hc in H2. eauto.
  - intros j Hj. destruct (lookup_lt_is_Some_2 s j ltac:(lia)) as [c Hc].
    specialize (H3 j Hj). rewrite Hc in H3. eauto.
Qed.

(** ** Public paths *)

Fixpoint segments (p : cstr) : list cstr :=
  match p with
  | [] => [[]]
  | c :: p' =>
      if c =? CH "/" then [] :: segments p'
      else match segments p' with
           | s :: r => (c :: s) :: r
           | [] => [[c]]
           end
  end.

Lemma segments_app_slash pre t :
  CH "/" ∉ pre -> segments (pre ++ CH "/" :: t) = pre :: segments t.
Proof.
  induction pre as [|c pre IH]; intros H; [done|].
  apply not_elem_of_cons in H as [H1 H2]. cbn [app segments].
  destruct (c =? CH "/") eqn:E; bool_split; [congruence|]. by rewrite IH.
Qed.

Lemma segments_no_slash p : CH "/" ∉ p -> segments p = [p].
Proof.
  induction p as [|c p IH]; intros H; [done|].
  apply not_elem_of_cons in H as [H1 H2]. cbn [segments].
  destruct (c =? CH "/") eqn:E; bool_split; [congruence|]. by rewrite IH.
Qed.

Lemma no_dotdot_segment_spec fuel p :
  no_dotdot_segment fuel p = true -> CS ".." ∉ segments p.
Proof.
  revert p. induction fuel as [|f IH]; intros p H; [done|].
  destruct p as [|c p]; [intros ?%list_elem_of_singleton; done|].
  cbn [no_dotdot_segment] in H.
  destruct (dotdot_here (c :: p)) eqn:E; [done|].
  destruct (strchr (c :: p) 47) as [[pre suf]|] eqn:E2.
  - apply strchr_spec in E2 as (Eq & Hpre & t & ->). rewrite Eq in E. rewrite Eq.
    rewrite segments_app_slash by done. apply not_elem_of_cons. split.
    + intros <-. done.
    + by apply IH.
  - apply strchr_none in E2. rewrite segments_no_slash by done.
    apply not_elem_of_cons. split; [|apply not_elem_of_nil].
    intros Heq. by rewrite <- Heq in E.
Qed.

Lemma no_dotdot_segment_complete fuel p :
  (length p < fuel)%nat -> CS ".." ∉ segments p -> no_dotdot_segment fuel p = true.
Proof.
  revert p. induction fuel as [|f IH]; intros p Hf H; [lia|].
  destruct p as [|c p]; [done|]. cbn [no_dotdot_segment].
  destruct (dotdot_here (c :: p)) eqn:E.
  { exfalso. apply H. unfold dotdot_here in E. repeat case_match; simplify_eq; cbn; set_solver. }
  destruct (strchr (c :: p) 47) as [[pre suf]|] eqn:E2; [|done].
  apply strchr_spec in E2 as (Eq & Hpre & t & ->). apply IH.
  - change (drop 1 (47 :: t)) with t. apply (f_equal length) in Eq.
    rewrite length_app in Eq. simpl in *. lia.
  - change (drop 1 (47 :: t)) with t. rewrite Eq, segments_app_slash in H by done.
    by apply not_elem_of_cons in H as [_ H].
Qed.

(** a path passes [fb_is_safe_public_path] exactly when it is below one of the allowed
    directories and none of its segments is "..". *)
Theorem fb_is_safe_public_path_spec p :
  fb_is_safe_public_path (Some p) = true <->
  (exists pre rest, pre ∈ allowed_prefixes /\ p = pre ++ rest) /\ CS ".." ∉ segments p.
Proof.
  split.
  - destruct p as [|c p]; [done|]. unfold fb_is_safe_public_path.
    case_bool_decide; [done|].
    destruct (starts_with (CS "..") (c :: p)); [done|].
    destruct (negb (existsb _ _)) eqn:E1; [done|]. intros H2. bool_split.
    apply List.existsb_exists in E1 as (pre & Hin & [rest Hp]%starts_with_spec).
    split; [|by eapply no_dotdot_segment_spec].
    exists pre, rest. split; [by apply list_elem_of_In|done].
  - intros [(pre & rest & Hin & ->) Hseg].
    assert (Hne : exists c t, pre ++ rest = c :: t /\ c <> 47 /\ c <> 46).
    { repeat (apply elem_of_cons in Hin as [->|Hin]; [repeat eexists; done|]). set_solver. }
    destruct Hne as (c & t & E & Hc1 & Hc2). unfold fb_is_safe_public_path. rewrite E.
    rewrite bool_decide_false by (simpl; congruence).
    replace (starts_with (CS "..") (c :: t)) with false; last first.
    { cbn [starts_with]. destruct (46 =? c) eqn:E3; bool_split; [congruence|done]. }
    replace (existsb _ _) with true; last first.
    { symmetry. apply List.existsb_exists. exists pre.
      split; [by apply list_elem_of_In|]. rewrite <- E. apply starts_with_app. }
    rewrite <- E. apply no_dotdot_segment_complete; [lia|done].
Qed.

(** ** Upload file names *)

(** a sanitised file name is a non-empty name of at most 255 bytes, all of them printable
    (no control byte), with neither slash nor backslash. *)
Theorem fb_sanitize_filename_safe f out :
  fb_sanitize_filename f = Some out ->
  out <> [] /\ (length out <= 255)%nat /\
  Forall (fun c => 32 <= c /\ c <> CH "/" /\ c <> CH "\") out.
Proof.
  destruct f as [f|]; [|done]. simpl. destruct (default (default f _) _) as [|c b]; [done|].
  destruct (List.filter _ _) as [|d o] eqn:E; [done|]. intros [= <-].
  split; [done|]. rewrite <- E. split.
  - pose proof (List.filter_length_le filename_keep (take 255 (c :: b))) as Hlen.
    rewrite length_take in Hlen. lia.
  - apply Forall_forall. intros x [_ Hx]%list_elem_of_In%List.filter_In.
    unfold filename_keep in Hx. bool_split. lia.
Qed.

Lemma fb_sanitize_filename_safe_witness :
  exists out, fb_sanitize_filename (Some (CS "../../etc/a b.txt")) = Some out /\
    Forall (fun c => 32 <= c /\ c <> CH "/" /\ c <> CH "\") out.
Proof.
  eexists. split; [reflexivity|].
  eapply (fb_sanitize_filename_safe (Some (CS "../../etc/a b.txt"))). reflexivity.
Defined.

(** ** HTML escaping *)

Lemma unescape_skip k s t : length t = k -> unescape_bytes k (t ++ s) = unescape_bytes 0 s.
Proof. revert k. induction t as [|c t IH]; intros [|k] H; simplify_eq/=; auto. Qed.

Lemma unescape_escape_char c s :
  unescape_bytes 0 (escape_char c ++ s) = c :: unescape_bytes 0 s.
Proof.
  unfold escape_char.
  repeat (destruct (c =? _) eqn:?; bool_split; [subst; reflexivity|]).
  cbn [app unescape_bytes]. unfold unescape_at. cbn [starts_with].
  replace (38 =? c) with false by (symmetry; apply Z.eqb_neq; congruence).
  reflexivity.
Qed.

(** unescaping an escaped string gives the original back, for every string. *)
Theorem fb_sql_unescape_escape src :
  fb_sql_unescape (fb_sql_escape src) = src.
Proof.
  destruct src as [s|]; [|done]. simpl. f_equal.
  induction s as [|c s IH]; [done|]. simpl escape_bytes.
  rewrite unescape_escape_char. by f_equal.
Qed.

Lemma escape_char_length c : length (escape_char c) = (1 + escape_extra c)%nat.
Proof. unfold escape_char, escape_extra. repeat (case_match; [done|]). done. Qed.

(** an escaped string fills the allocated buffer exactly (the terminating NUL is its last
    byte) and holds none of the bytes that end an attribute or open a tag. *)
Theorem fb_sql_escape_safe s out :
  fb_sql_escape (Some s) = Some out ->
  (length out + 1 = escape_alloc s)%nat /\
  Forall (fun c => c <> CH "<" /\ c <> CH ">" /\ c <> 34 /\ c <> 39) out.
Proof.
  intros [= <-]. unfold escape_alloc. split.
  - induction s as [|c s IH]; [done|]. simpl. rewrite length_app, escape_char_length. lia.
  - induction s as [|c s IH]; [constructor|]. simpl. apply Forall_app. split; [|done].
    unfold escape_char. repeat (case_match; bool_split; [by repeat constructor|]).
    apply Forall_singleton. naive_solver.
Qed.

Lemma fb_sql_escape_safe_witness :
  exists out, fb_sql_escape (Some (CS "<a href='x'>")) = Some out /\
    (length out + 1 = escape_alloc (CS "<a href='x'>"))%nat.
Proof.
  eexists. split; [reflexivity|].
  apply (fb_sql_escape_safe (CS "<a href='x'>")). reflexivity.
Defined.
