(* ===== verification/Gf256.v ===== *)
(** * GF(2^8) arithmetic of the transfer protocol's erasure code

    The server tables and operations of src/src/handlers/tasfa/htp.c and the client's of
    src/src/utils/client_core.h, both generated by x -> 2x modulo 0x11d.  The field laws the
    Reed-Solomon solver needs are proved from the generator, so that only facts about the
    255 table entries are computed. *)
From S2P Require Import Prelude.

(** ** Definitions *)

(** [a[i]] for an array read within its bounds. *)
Definition get (l : list Z) (i : nat) : Z := List.nth i l 0.

(** [x <<= 1; if (x & 0x100) x ^= 0x11d;] *)
Definition gf_double (x : Z) : Z :=
  let x := Z.shiftl x 1 in
  if Z.land x 256 =? 0 then x else Z.lxor x 285.

(** The first loop of [gf_init_tables]: [n] entries from index [i] on. *)
Fixpoint gf_fill (n i : nat) (x : Z) (log exp : list Z) : list Z * list Z :=
  match n with
  | O => (log, exp)
  | S n' =>
      gf_fill n' (S i) (gf_double x) (<[Z.to_nat x := u8 (Z.of_nat i)]> log) (<[i := u8 x]> exp)
  end.

(** The second loop: [gf_exp_tbl[i] = gf_exp_tbl[i - 255]]. *)
Fixpoint gf_double_exp (n i : nat) (exp : list Z) : list Z :=
  match n with
  | O => exp
  | S n' => gf_double_exp n' (S i) (<[i := get exp (i - 255)]> exp)
  end.

(** [(gf_log_tbl, gf_exp_tbl)] after initialisation. *)
Definition gf_init_tables : list Z * list Z :=
  let '(log, exp) := gf_fill 255 0 1 (replicate 256 0) (replicate 510 0) in
  (log, gf_double_exp 255 255 exp).

Definition gf_log_tbl : list Z := Eval vm_compute in fst gf_init_tables.
Definition gf_exp_tbl : list Z := Eval vm_compute in snd gf_init_tables.

Definition gf_mul (a b : Z) : Z :=
  if (a =? 0) || (b =? 0) then 0
  else get gf_exp_tbl (Z.to_nat (get gf_log_tbl (Z.to_nat a) + get gf_log_tbl (Z.to_nat b))).

Definition gf_div (a b : Z) : Z :=
  if a =? 0 then 0
  else get gf_exp_tbl
         (Z.to_nat (get gf_log_tbl (Z.to_nat a) + 255 - get gf_log_tbl (Z.to_nat b))).

(** The client's state: the same tables, and the two coefficient rows of each slot. *)
Record fb_gf_state := {
  fb_log : list Z;
  fb_exp : list Z;
  fb_row_a : list (list Z);
  fb_row_b : list (list Z);
}.

(** [row[v] = (c && v) ? exp[log[c] + log[v]] : 0] for v = 0..255. *)
Definition fb_gf_row (log exp : list Z) (c : Z) : list Z :=
  map (fun v => if (c =? 0) || (Z.of_nat v =? 0) then 0
                else get exp (Z.to_nat (get log (Z.to_nat c) + get log v)))
      (seq 0 256).

Definition fb_gf_init : fb_gf_state :=
  let '(log, exp) := gf_fill 255 0 1 (replicate 256 0) (replicate 510 0) in
  let exp := gf_double_exp 255 255 exp in
  let b_of xv := if xv =? 0 then 0
                 else get exp (Z.to_nat (get log (Z.to_nat xv) + get log (Z.to_nat xv))) in
  {| fb_log := log; fb_exp := exp;
     fb_row_a := map (fun pos => fb_gf_row log exp (u8 (Z.of_nat pos + 1))) (seq 0 6);
     fb_row_b := map (fun pos => fb_gf_row log exp (b_of (u8 (Z.of_nat pos + 1)))) (seq 0 6) |}.

Definition fb_gf_mul (st : fb_gf_state) (a b : Z) : Z :=
  if (a =? 0) || (b =? 0) then 0
  else get (fb_exp st) (Z.to_nat (get (fb_log st) (Z.to_nat a) + get (fb_log st) (Z.to_nat b))).

Definition fb_gf_div (st : fb_gf_state) (a b : Z) : Z :=
  if (a =? 0) || (b =? 0) then 0
  else get (fb_exp st)
         (Z.to_nat (get (fb_log st) (Z.to_nat a) + 255 - get (fb_log st) (Z.to_nat b))).

(** The reference: carry-less multiplication reduced modulo x^8+x^4+x^3+x^2+1, by Horner's
    rule over the bits of [a]. *)
Fixpoint clmul (n : nat) (a b : Z) : Z :=
  match n with
  | O => 0
  | S n' => Z.lxor (if Z.testbit a 0 then b else 0) (gf_double (clmul n' (Z.shiftr a 1) b))
  end.

(** ** The generator *)

Definition is_byte (z : Z) : Prop := 0 <= z < 256.

Definition gf_pow (i : nat) : Z := Nat.iter i gf_double 1.

Lemma is_byte_lxor a b : is_byte a -> is_byte b -> is_byte (Z.lxor a b).
Proof.
  unfold is_byte. intros Ha Hb.
  assert (H0 : 0 <= Z.lxor a b) by (apply Z.lxor_nonneg; lia).
  split; [done|]. destruct (decide (Z.lxor a b = 0)) as [->|Hn]; [lia|].
  change 256 with (2 ^ 8). apply Z.log2_lt_pow2; [lia|].
  eapply Z.le_lt_trans; [apply Z.log2_lxor; lia|].
  apply Z.max_lub_lt.
  - destruct (decide (a = 0)) as [->|]; [done|]. apply Z.log2_lt_pow2; lia.
  - destruct (decide (b = 0)) as [->|]; [done|]. apply Z.log2_lt_pow2; lia.
Qed.

Lemma gf_double_alt x : is_byte x ->
  gf_double x = Z.lxor (Z.shiftl x 1) (if Z.testbit x 7 then 285 else 0).
Proof.
  intros Hx. unfold gf_double. cbv zeta.
  assert (E : Z.land (Z.shiftl x 1) 256 = if Z.testbit x 7 then 256 else 0).
  { apply Z.bits_inj'. intros n Hn. rewrite Z.land_spec, Z.shiftl_spec by done.
    change 256 with (2 ^ 8). rewrite Z.pow2_bits_eqb by lia.
    destruct (8 =? n) eqn:E; bool_split; subst.
    - rewrite andb_true_r. change (8 - 1) with 7.
      destruct (Z.testbit x 7); [done|by rewrite Z.bits_0].
    - rewrite andb_false_r. destruct (Z.testbit x 7); [|by rewrite Z.bits_0].
      rewrite Z.pow2_bits_eqb by lia. symmetry. by apply Z.eqb_neq. }
  rewrite E. destruct (Z.testbit x 7); [done|]. by rewrite Z.lxor_0_r.
Qed.

Lemma gf_double_lxor x y : is_byte x -> is_byte y ->
  gf_double (Z.lxor x y) = Z.lxor (gf_double x) (gf_double y).
Proof.
  intros Hx Hy. rewrite !gf_double_alt by auto using is_byte_lxor.
  rewrite Z.shiftl_lxor, Z.lxor_spec.
  destruct (Z.testbit x 7), (Z.testbit y 7); simpl; lxor_bits.
Qed.

Lemma forall_bytes (f : Z -> bool) :
  forallb (fun n => f (Z.of_nat n)) (seq 0 256) = true -> forall x, is_byte x -> f x = true.
Proof.
  intros H x Hx. rewrite List.forallb_forall in H.
  rewrite <- (Z2Nat.id x) by (unfold is_byte in Hx; lia). apply H, List.in_seq.
  unfold is_byte in Hx. lia.
Qed.

Definition byteb (z : Z) : bool := (0 <=? z) && (z <? 256).

Lemma byteb_spec z : byteb z = true <-> is_byte z.
Proof. unfold byteb, is_byte. rewrite andb_true_iff, Z.leb_le, Z.ltb_lt. done. Qed.

Lemma gf_double_byte x : is_byte x -> is_byte (gf_double x).
Proof.
  intros Hx. apply byteb_spec. revert x Hx.
  apply (forall_bytes (fun x => byteb (gf_double x))). vm_compute. reflexivity.
Qed.

Lemma iter_double_byte n x : is_byte x -> is_byte (Nat.iter n gf_double x).
Proof. intros. induction n; simpl; auto using gf_double_byte. Qed.

Lemma iter_double_lxor n x y : is_byte x -> is_byte y ->
  Nat.iter n gf_double (Z.lxor x y) =
  Z.lxor (Nat.iter n gf_double x) (Nat.iter n gf_double y).
Proof.
  intros. induction n as [|n IH]; simpl; [done|]. rewrite IH.
  apply gf_double_lxor; by apply iter_double_byte.
Qed.

Lemma iter_double_0 n : Nat.iter n gf_double 0 = 0.
Proof. induction n as [|n IH]; simpl; [done|]. by rewrite IH. Qed.

(** ** The tables *)

Lemma gf_pow_byte i : is_byte (gf_pow i).
Proof. apply iter_double_byte. unfold is_byte; lia. Qed.

Lemma gf_pow_add i j : gf_pow (i + j) = Nat.iter i gf_double (gf_pow j).
Proof. unfold gf_pow. by rewrite Nat.iter_add. Qed.

Lemma gf_pow_period i : gf_pow (i + 255) = gf_pow i.
Proof.
  rewrite gf_pow_add. replace (gf_pow 255) with 1 by (vm_compute; reflexivity). done.
Qed.

Lemma forall_below n (f : nat -> bool) :
  forallb f (seq 0 n) = true -> forall i, (i < n)%nat -> f i = true.
Proof. intros H i Hi. rewrite List.forallb_forall in H. apply H, List.in_seq. lia. Qed.

Lemma gf_exp_tbl_spec i : (i < 510)%nat -> get gf_exp_tbl i = gf_pow i.
Proof.
  intros Hi. apply Z.eqb_eq. revert i Hi.
  apply (forall_below 510 (fun i => get gf_exp_tbl i =? gf_pow i)). vm_compute. reflexivity.
Qed.

Definition gf_log (a : Z) : nat := Z.to_nat (get gf_log_tbl (Z.to_nat a)).

Lemma gf_log_spec a : is_byte a -> a <> 0 ->
  0 <= get gf_log_tbl (Z.to_nat a) < 255 /\ gf_pow (gf_log a) = a.
Proof.
  intros Ha Hn.
  pose (f := fun a => (a =? 0) || ((0 <=? get gf_log_tbl (Z.to_nat a)) &&
     (get gf_log_tbl (Z.to_nat a) <? 255) && (gf_pow (gf_log a) =? a))).
  assert (H : f a = true).
  { clear Hn. revert a Ha. apply (forall_bytes f). vm_compute. reflexivity. }
  subst f. simpl in H. apply orb_true_iff in H as [H|H]; bool_split; [done|]. lia.
Qed.

Lemma gf_log_lt a : is_byte a -> a <> 0 -> (gf_log a < 255)%nat.
Proof. intros Ha Hn. destruct (gf_log_spec a Ha Hn) as [H _]. unfold gf_log. lia. Qed.

Lemma gf_pow_neq_0 i : gf_pow i <> 0.
Proof.
  assert (H : forall j, (j < 255)%nat -> gf_pow j <> 0).
  { intros j Hj. apply Z.eqb_neq, negb_true_iff. revert j Hj.
    apply (forall_below 255 (fun j => negb (gf_pow j =? 0))). vm_compute. reflexivity. }
  induction i as [i IH] using lt_wf_ind.
  destruct (decide (i < 255)%nat) as [|Hi]; [by apply H|].
  replace i with ((i - 255) + 255)%nat by lia. rewrite gf_pow_period. apply IH. lia.
Qed.

Lemma gf_log_pow i : gf_log (gf_pow i) = (i `mod` 255)%nat.
Proof.
  assert (H : forall j, (j < 255)%nat -> gf_log (gf_pow j) = j).
  { intros j Hj. apply Nat.eqb_eq. revert j Hj.
    apply (forall_below 255 (fun j => (gf_log (gf_pow j) =? j)%nat)). vm_compute. reflexivity. }
  induction i as [i IH] using lt_wf_ind.
  destruct (decide (i < 255)%nat) as [Hi|Hi].
  - rewrite H by done. by rewrite Nat.mod_small.
  - replace i with ((i - 255) + 1 * 255)%nat at 2 by lia.
    rewrite Nat.Div0.mod_add, <- IH by lia.
    replace i with ((i - 255) + 255)%nat at 1 by lia. by rewrite gf_pow_period.
Qed.

(** ** Field laws *)

Lemma gf_mul_0_l b : gf_mul 0 b = 0.
Proof. done. Qed.
Lemma gf_mul_0_r a : gf_mul a 0 = 0.
Proof. unfold gf_mul. by rewrite orb_true_r. Qed.

(** Multiplication is addition of logarithms. *)
Lemma gf_mul_log a b : is_byte a -> is_byte b -> a <> 0 -> b <> 0 ->
  gf_mul a b = gf_pow (gf_log a + gf_log b).
Proof.
  intros Ha Hb Hna Hnb. unfold gf_mul.
  apply Z.eqb_neq in Hna as Ea. apply Z.eqb_neq in Hnb as Eb. rewrite Ea, Eb. simpl orb.
  destruct (gf_log_spec a Ha Hna) as [H1 _]. destruct (gf_log_spec b Hb Hnb) as [H2 _].
  rewrite Z2Nat.inj_add by lia. rewrite gf_exp_tbl_spec; [done|]. lia.
Qed.

(** Multiplication by a nonzero constant is iterated doubling, hence linear. *)
Lemma gf_mul_iter a x : is_byte a -> is_byte x -> a <> 0 ->
  gf_mul a x = Nat.iter (gf_log a) gf_double x.
Proof.
  intros Ha Hx Hna. destruct (decide (x = 0)) as [->|Hnx].
  - by rewrite gf_mul_0_r, iter_double_0.
  - rewrite gf_mul_log, gf_pow_add by done. by destruct (gf_log_spec x Hx Hnx) as [_ ->].
Qed.

Lemma gf_mul_byte a b : is_byte a -> is_byte b -> is_byte (gf_mul a b).
Proof.
  intros Ha Hb. destruct (decide (a = 0)) as [->|Hn].
  - rewrite gf_mul_0_l. unfold is_byte; lia.
  - rewrite gf_mul_iter by done. by apply iter_double_byte.
Qed.

Lemma gf_mul_comm a b : gf_mul a b = gf_mul b a.
Proof. unfold gf_mul. by rewrite orb_comm, Z.add_comm. Qed.

Lemma gf_mul_lxor_r a x y : is_byte a -> is_byte x -> is_byte y ->
  gf_mul a (Z.lxor x y) = Z.lxor (gf_mul a x) (gf_mul a y).
Proof.
  intros Ha Hx Hy. destruct (decide (a = 0)) as [->|Hn]; [done|].
  rewrite !gf_mul_iter by auto using is_byte_lxor. by apply iter_double_lxor.
Qed.

Lemma gf_mul_lxor_l a x y : is_byte a -> is_byte x -> is_byte y ->
  gf_mul (Z.lxor x y) a = Z.lxor (gf_mul x a) (gf_mul y a).
Proof. intros. rewrite !(gf_mul_comm _ a). by apply gf_mul_lxor_r. Qed.

Lemma gf_mul_assoc a b c : is_byte a -> is_byte b -> is_byte c ->
  gf_mul (gf_mul a b) c = gf_mul a (gf_mul b c).
Proof.
  intros Ha Hb Hc. destruct (decide (a = 0)) as [->|Hna]; [done|].
  destruct (decide (b = 0)) as [->|Hnb]; [by rewrite gf_mul_0_l, !gf_mul_0_r|].
  rewrite (gf_mul_iter a b), (gf_mul_iter a (gf_mul b c)), (gf_mul_iter b c)
    by auto using gf_mul_byte.
  set (n := gf_log a). clearbody n. induction n as [|n IH]; simpl.
  - by rewrite gf_mul_iter.
  - rewrite <- IH. clear IH. set (x := Nat.iter n gf_double b).
    assert (Hx : is_byte x) by (by apply iter_double_byte). clearbody x.
    rewrite (gf_mul_comm _ c), (gf_mul_comm x c).
    destruct (decide (c = 0)) as [->|Hnc]; [done|].
    rewrite !gf_mul_iter by auto using gf_double_byte.
    by rewrite <- Nat.iter_succ_r.
Qed.

Lemma gf_mul_neq_0 a b : is_byte a -> is_byte b -> a <> 0 -> b <> 0 -> gf_mul a b <> 0.
Proof. intros. rewrite gf_mul_log by done. apply gf_pow_neq_0. Qed.

(** Division undoes multiplication by a nonzero byte. *)
Lemma gf_div_mul x a : is_byte x -> is_byte a -> a <> 0 -> gf_div (gf_mul a x) a = x.
Proof.
  intros Hx Ha Hna. unfold gf_div. destruct (decide (x = 0)) as [->|Hnx].
  { by rewrite gf_mul_0_r. }
  pose proof (gf_mul_neq_0 a x Ha Hx Hna Hnx) as Hne. apply Z.eqb_neq in Hne as E. rewrite E.
  destruct (gf_log_spec (gf_mul a x)) as [H1 _]; [by apply gf_mul_byte|done|].
  destruct (gf_log_spec a Ha Hna) as [H2 _]. destruct (gf_log_spec x Hx Hnx) as [H3 Hpx].
  replace (Z.to_nat _) with (gf_log (gf_mul a x) + 255 - gf_log a)%nat by (unfold gf_log; lia).
  rewrite gf_exp_tbl_spec by (unfold gf_log; lia).
  rewrite gf_mul_log, gf_log_pow by done.
  pose proof (gf_log_lt a Ha Hna) as Hla. pose proof (gf_log_lt x Hx Hnx) as Hlx.
  rewrite <- Hpx at 2. destruct (decide (gf_log a + gf_log x < 255)%nat) as [Hs|Hs].
  - rewrite Nat.mod_small by done.
    replace (gf_log a + gf_log x + 255 - gf_log a)%nat with (gf_log x + 255)%nat by lia.
    apply gf_pow_period.
  - replace (gf_log a + gf_log x)%nat with ((gf_log a + gf_log x - 255) + 1 * 255)%nat by lia.
    rewrite Nat.Div0.mod_add, Nat.mod_small by lia. f_equal. lia.
Qed.

Lemma gf_mul_double a b : is_byte a -> is_byte b ->
  gf_mul (gf_double a) b = gf_double (gf_mul a b).
Proof.
  intros Ha Hb. rewrite !(gf_mul_comm _ b).
  destruct (decide (b = 0)) as [->|Hn]; [done|].
  rewrite !gf_mul_iter by auto using gf_double_byte. by rewrite <- Nat.iter_succ_r.
Qed.

Lemma gf_mul_1_l b : is_byte b -> gf_mul 1 b = b.
Proof. intros. by rewrite gf_mul_iter. Qed.

Lemma gf_double_small x : 0 <= x < 128 -> gf_double x = 2 * x.
Proof.
  intros Hx. apply Z.eqb_eq.
  assert (H : (128 <=? x) || (gf_double x =? 2 * x) = true).
  { revert x Hx. enough (forall x, is_byte x -> (128 <=? x) || (gf_double x =? 2 * x) = true)
      by (intros x ?; apply H; unfold is_byte; lia).
    apply (forall_bytes (fun x => (128 <=? x) || (gf_double x =? 2 * x))).
    vm_compute. reflexivity. }
  apply orb_true_iff in H as [H|H]; bool_split; lia.
Qed.

Lemma clmul_gf_mul n a b : (n <= 8)%nat -> 0 <= a < 2 ^ Z.of_nat n -> is_byte b ->
  clmul n a b = gf_mul a b.
Proof.
  revert a. induction n as [|n IH]; intros a Hn Ha Hb.
  { replace a with 0 by (simpl in Ha; lia). by rewrite gf_mul_0_l. }
  cbn [clmul]. rewrite Nat2Z.inj_succ, Z.pow_succ_r in Ha by lia.
  assert (Hp : 2 ^ Z.of_nat n <= 2 ^ 7) by (apply Z.pow_le_mono_r; lia).
  assert (Hs : Z.shiftr a 1 = a / 2) by (rewrite Z.shiftr_div_pow2; [done|lia]).
  assert (Hq : 0 <= a / 2 < 2 ^ Z.of_nat n) by (Z.div_mod_to_equations; lia).
  rewrite Hs, IH by (done || lia).
  assert (Hqb : is_byte (a / 2)) by (unfold is_byte; lia).
  rewrite <- gf_mul_double, gf_double_small by (done || lia).
  assert (Ea : a = Z.lxor (if Z.testbit a 0 then 1 else 0) (2 * (a / 2))).
  { rewrite <- Z.add_nocarry_lxor.
    - rewrite Z.bit0_odd, (Z.div_mod a 2) at 1 by lia. rewrite Zmod_odd.
      destruct (Z.odd a); lia.
    - apply Z.bits_inj'. intros m Hm. rewrite Z.land_spec, Z.bits_0.
      destruct (Z.testbit a 0); [|by rewrite Z.bits_0].
      destruct (decide (m = 0)) as [->|]; [by rewrite Z.testbit_even_0, andb_false_r|].
      change 1 with (2 ^ 0). rewrite Z.pow2_bits_false; [done|lia]. }
  rewrite Ea at 3.
  rewrite gf_mul_lxor_l; [|done|destruct (Z.testbit a 0); unfold is_byte; lia
                         |unfold is_byte; lia].
  f_equal. destruct (Z.testbit a 0); [by rewrite gf_mul_1_l|by rewrite gf_mul_0_l].
Qed.

(** the table-driven product of the server is the carry-less product modulo
    x^8+x^4+x^3+x^2+1, and the client's product is the same function. *)
Theorem gf_mul_reference a b : is_byte a -> is_byte b ->
  gf_mul a b = clmul 8 a b /\ fb_gf_mul fb_gf_init a b = gf_mul a b.
Proof.
  intros Ha Hb. split.
  - symmetry. by apply clmul_gf_mul.
  - unfold fb_gf_mul. replace (fb_exp fb_gf_init) with gf_exp_tbl by (vm_compute; reflexivity).
    by replace (fb_log fb_gf_init) with gf_log_tbl by (vm_compute; reflexivity).
Qed.

Lemma gf_mul_reference_witness : gf_mul 87 131 = clmul 8 87 131.
Proof. apply gf_mul_reference; unfold is_byte; lia. Defined.

(** dividing by a nonzero byte undoes multiplying by it, on both sides of the wire. *)
Theorem gf_div_correct x a : is_byte x -> is_byte a -> a <> 0 ->
  gf_div (gf_mul a x) a = x /\ fb_gf_div fb_gf_init (gf_mul a x) a = x.
Proof.
  intros Hx Ha Hn. pose proof (gf_div_mul x a Hx Ha Hn) as H. split; [done|].
  unfold fb_gf_div. apply Z.eqb_neq in Hn as E. rewrite E, orb_false_r.
  replace (fb_exp fb_gf_init) with gf_exp_tbl by (vm_compute; reflexivity).
  by replace (fb_log fb_gf_init) with gf_log_tbl by (vm_compute; reflexivity).
Qed.

Lemma gf_div_correct_witness : gf_div (gf_mul 6 200) 6 = 200.
Proof. apply gf_div_correct; [unfold is_byte; lia|unfold is_byte; lia|done]. Defined.

(** The client's coefficient rows are multiplication by [slot + 1] and its square. *)
Lemma fb_rows s v : (s < 6)%nat -> is_byte v ->
  get (List.nth s (fb_row_a fb_gf_init) []) (Z.to_nat v) = gf_mul (Z.of_nat s + 1) v /\
  get (List.nth s (fb_row_b fb_gf_init) []) (Z.to_nat v)
    = gf_mul (gf_mul (Z.of_nat s + 1) (Z.of_nat s + 1)) v.
Proof.
  intros Hs Hv. rewrite <- !Z.eqb_eq, <- andb_true_iff.
  revert s Hs v Hv.
  pose (f := fun s v =>
    (get (List.nth s (fb_row_a fb_gf_init) []) (Z.to_nat v) =? gf_mul (Z.of_nat s + 1) v) &&
    (get (List.nth s (fb_row_b fb_gf_init) []) (Z.to_nat v)
       =? gf_mul (gf_mul (Z.of_nat s + 1) (Z.of_nat s + 1)) v)).
  intros s Hs. change (forall v, is_byte v -> f s v = true). apply forall_bytes.
  revert s Hs. apply (forall_below 6 (fun s => forallb (fun n => f s (Z.of_nat n)) (seq 0 256))).
  vm_compute. reflexivity.
Qed.
