(* ===== verification/Files.v ===== *)
(** * Files as the transfer code uses them

    A file system maps paths to contents.  [pread]/[pwrite] are the POSIX calls on a regular
    file: a read stops at the end of the file, a write past the end fills the gap with
    zeros.  Opening a missing file fails; I/O errors on an existing file and a full disk are
    not modelled. *)
From S2P Require Import Prelude CStr.

Abbreviation fs := (gmap (list Z) (list Z)).

Definition pread (data : list Z) (off n : nat) : list Z := take n (drop off data).

Definition pwrite (data : list Z) (off : nat) (buf : list Z) : list Z :=
  match buf with
  | [] => data
  | _ => let padded := data ++ replicate (off - length data) 0 in
         take off padded ++ buf ++ drop (off + length buf) padded
  end.

(** [memset(buf, 0, size)] followed by a read of [content] into its start. *)
Definition pad_to (size : nat) (content : list Z) : list Z :=
  content ++ replicate (size - length content) 0.

Lemma length_pread data off n : length (pread data off n) = Nat.min n (length data - off).
Proof. unfold pread. rewrite length_take, length_drop. lia. Qed.

Lemma lookup_pread data off n i : (i < n)%nat -> pread data off n !! i = data !! (off + i)%nat.
Proof. intros. unfold pread. rewrite lookup_take_lt, lookup_drop by lia. done. Qed.

Lemma length_pad_to size content : (length content <= size)%nat ->
  length (pad_to size content) = size.
Proof. intros. unfold pad_to. rewrite length_app, length_replicate. lia. Qed.

Lemma nth_pad_to size content i : List.nth i (pad_to size content) 0 = List.nth i content 0.
Proof.
  unfold pad_to. rewrite !nth_lookup.
  destruct (decide (i < length content)%nat).
  - by rewrite lookup_app_l by done.
  - rewrite lookup_app_r by lia. rewrite (lookup_ge_None_2 content) by lia.
    destruct (replicate _ _ !! _) eqn:E; [|done].
    by apply lookup_replicate in E as [-> _].
Qed.

(** A write inside the file replaces exactly its range. *)
Lemma length_pwrite data off buf : (off + length buf <= length data)%nat ->
  length (pwrite data off buf) = length data.
Proof.
  intros H. unfold pwrite. destruct buf as [|b buf]; [done|]. cbv zeta.
  replace (off - length data)%nat with 0%nat by (simpl in H; lia).
  cbn [replicate]. rewrite app_nil_r, !length_app, length_take, length_drop. lia.
Qed.

Lemma lookup_pwrite data off buf i : (off + length buf <= length data)%nat ->
  pwrite data off buf !! i =
  if decide (off <= i < off + length buf)%nat then buf !! (i - off)%nat else data !! i.
Proof.
  intros H. unfold pwrite. destruct buf as [|b buf].
  { case_decide; [simpl in *; lia|done]. }
  cbv zeta. replace (off - length data)%nat with 0%nat by (simpl in H; lia).
  cbn [replicate]. rewrite app_nil_r.
  assert (Ht : length (take off data) = off) by (rewrite length_take; simpl in H; lia).
  case_decide as Hd.
  - rewrite lookup_app_r by lia. rewrite Ht. rewrite lookup_app_l by lia. done.
  - destruct (decide (i < off)%nat).
    + rewrite lookup_app_l by lia. by rewrite lookup_take_lt by lia.
    + rewrite lookup_app_r by lia. rewrite Ht.
      rewrite lookup_app_r by lia. rewrite lookup_drop. f_equal. lia.
Qed.

(** ** Reads after writes *)

Lemma pread_pwrite_same data off buf : (off + length buf <= length data)%nat ->
  pread (pwrite data off buf) off (length buf) = buf.
Proof.
  intros H. apply list_eq. intros i. destruct (decide (i < length buf)%nat) as [Hi|Hi].
  - rewrite lookup_pread, lookup_pwrite by done. case_decide; [|lia]. f_equal. lia.
  - rewrite !lookup_ge_None_2; [done|lia|]. rewrite length_pread, length_pwrite by done. lia.
Qed.

Lemma pread_pwrite_disjoint data off buf off' n : (off + length buf <= length data)%nat ->
  (off' + n <= off \/ off + length buf <= off')%nat ->
  pread (pwrite data off buf) off' n = pread data off' n.
Proof.
  intros H Hd. apply list_eq. intros i. destruct (decide (i < n)%nat) as [Hi|Hi].
  - rewrite !lookup_pread, lookup_pwrite by done. case_decide; [lia|done].
  - rewrite !lookup_ge_None_2; [done|..]; rewrite length_pread; lia.
Qed.

(** A write to the end of an empty file is the buffer. *)
Lemma pwrite_nil buf : pwrite [] 0 buf = buf.
Proof. destruct buf; [done|]. cbn. by rewrite app_nil_r. Qed.

(** Two writes in a row are one. *)
Lemma pwrite_app data off a b : pwrite (pwrite data off a) (off + length a) b = pwrite data off (a ++ b).
Proof.
  destruct a as [|x a]; [by rewrite Nat.add_0_r|]. destruct b as [|y b]; [by rewrite app_nil_r|].
  set (a' := x :: a). set (b' := y :: b).
  assert (E : forall d o l, l <> [] -> pwrite d o l =
    take o (d ++ replicate (o - length d) 0) ++ l ++ drop (o + length l) (d ++ replicate (o - length d) 0))
    by (intros d o [|? ?] ?; done).
  rewrite (E data off a'), (E data off (a' ++ b')), E by done.
  set (p := data ++ replicate (off - length data) 0).
  assert (Hp : (off <= length p)%nat) by (unfold p; rewrite length_app, length_replicate; lia).
  set (q := take off p ++ a' ++ drop (off + length a') p).
  assert (Hq : (off + length a' <= length q)%nat).
  { unfold q. rewrite !length_app, length_take, length_drop. lia. }
  replace (off + length a' - length q)%nat with 0%nat by lia. cbn [replicate]. rewrite app_nil_r.
  assert (Hl : length (take off p ++ a') = (off + length a')%nat).
  { rewrite length_app, length_take. lia. }
  assert (Hqa : q = (take off p ++ a') ++ drop (off + length a') p) by (unfold q; by rewrite app_assoc).
  rewrite Hqa, take_app_length', (drop_app_ge (take off p ++ a')) by (rewrite Hl; lia).
  rewrite <- !app_assoc, drop_drop, Hl, (length_app a' b'). do 4 f_equal. lia.
Qed.
