(* ===== verification/Fec.v ===== *)
(** * Forward error correction of chunked uploads

    The client computes parity chunks per group of six data chunks (src/src/utils/
    client_core.h); the server rebuilds missing chunks of the temporary upload file from
    them (src/src/handlers/tasfa/htp.c).  Two codes: RS(6+2) over GF(2^8), which survives any
    two erasures of a group, and the older single XOR parity. *)
From S2P Require Import Prelude CStr Gf256 Files.

(** ** Paths and chunk geometry *)

Definition PATH_MAX : nat := 4096.
Definition TASFA_UPLOAD_DIR : cstr := cs "data/tasfa/uploads".

(** ["%s/%s/parity_%d.bin"]. *)
Definition parity_path (upload_id : cstr) (k : Z) : cstr :=
  snprintf_s PATH_MAX
    (TASFA_UPLOAD_DIR ++ [CH "/"] ++ upload_id ++ CS "/parity_" ++ print_int k ++ CS ".bin").

(** [current_chunk_size]: the bytes of chunk [ci] inside the file; not positive past the end. *)
Definition chunk_span (total_size chunk_size ci : Z) : Z :=
  let cur := total_size - ci * chunk_size in
  if chunk_size <? cur then chunk_size else cur.

(** [for (i < len) if (d[i]) p[i] ^= g(d[i])]. *)
Fixpoint xor_into (g : Z -> Z) (p d : list Z) : list Z :=
  match p, d with
  | x :: p', v :: d' => (if v =? 0 then x else Z.lxor x (g v)) :: xor_into g p' d'
  | _, _ => p
  end.

(** ** Client side *)

Definition fb_rs_accumulate_slice (st : fb_gf_state) (slot : Z) (data : option (list Z))
    (data_len : Z) (p0 p1 : list Z) : list Z * list Z :=
  match data with
  | None => (p0, p1)
  | Some d =>
      if (slot <? 0) || (6 <=? slot) || (data_len <=? 0) then (p0, p1)
      else
        let ta := List.nth (Z.to_nat slot) (fb_row_a st) [] in
        let tb := List.nth (Z.to_nat slot) (fb_row_b st) [] in
        let v := take (Z.to_nat data_len) d in
        (xor_into (fun v => get ta (Z.to_nat v)) p0 v, xor_into (fun v => get tb (Z.to_nat v)) p1 v)
  end.

Definition fb_xor_accumulate_slice (data : option (list Z)) (data_len : Z)
    (parity : option (list Z)) : option (list Z) :=
  match data, parity with
  | Some d, Some p =>
      if data_len <=? 0 then Some p
      else Some (xor_into (fun v => v) p (take (Z.to_nat data_len) d))
  | _, _ => parity
  end.

Definition fb_parity_chunk_count (data_chunks is_rs2 : Z) : Z :=
  if data_chunks <=? 0 then 0
  else let groups := Z.quot (data_chunks + 5) 6 in
       if is_rs2 =? 0 then groups else 2 * groups.

(** The two outputs [out_group] and [out_row]; C division and remainder truncate toward zero. *)
Definition fb_parity_group_row (chunk_index data_chunks is_rs2 : Z) : Z * Z :=
  let off := chunk_index - data_chunks in
  if is_rs2 =? 0 then (off, 0) else (Z.quot off 2, Z.rem off 2).

(** ** Server side *)

Section recovery.
Context (upload_id temp_path : cstr) (chunk_size group_start group_end : Z).
Context (data_chunks total_size : Z).

Let size : nat := Z.to_nat chunk_size.

(** Subtract one present data chunk from both parity rows. *)
Definition rs_subtract_step (file : list Z) (missing_a missing_b : Z) (k : nat)
    (st : list Z * list Z) : ctl (list Z * list Z) unit :=
  let '(p0, p1) := st in
  let ci := group_start + Z.of_nat k in
  if (ci =? missing_a) || (ci =? missing_b) then Next st
  else
    let cur := chunk_span total_size chunk_size ci in
    if cur <=? 0 then Next st
    else
      let data := pread file (Z.to_nat (ci * chunk_size)) (Z.to_nat cur) in
      if negb (zlen data =? cur) then Stop tt
      else
        let chunk_buf := pad_to size data in
        let a := u8 (ci - group_start + 1) in
        let b := gf_mul a a in
        Next (xor_into (gf_mul a) p0 chunk_buf, xor_into (gf_mul b) p1 chunk_buf).

(** [fopen], one [fread] into a zeroed buffer; nothing read is a failure. *)
Definition read_parity (f : fs) (k : Z) : option (list Z) :=
  match f !! parity_path upload_id k with
  | None => None
  | Some content =>
      match take size content with
      | [] => None
      | r => Some (pad_to size r)
      end
  end.

Definition write_chunk (file : list Z) (ci : Z) (buf : list Z) : list Z :=
  pwrite file (Z.to_nat (ci * chunk_size))
    (take (Z.to_nat (chunk_span total_size chunk_size ci)) buf).

Definition perform_rs_recovery (f : fs) (missing_a missing_b parity0_idx parity1_idx : Z)
  : bool * fs :=
  match read_parity f (parity0_idx - data_chunks) with
  | None => (false, f)
  | Some p0 =>
      match (if 0 <=? missing_b then read_parity f (parity1_idx - data_chunks)
             else Some (replicate size 0)) with
      | None => (false, f)
      | Some p1 =>
          match f !! temp_path with
          | None => (false, f)
          | Some file =>
              match for_loop (Z.to_nat (group_end - group_start)) 0
                      (rs_subtract_step file missing_a missing_b) (p0, p1) with
              | Stop _ => (false, f)
              | Next (p0, p1) =>
                  let a_u := u8 (missing_a - group_start + 1) in
                  if missing_b <? 0 then
                    let d := map (fun x => gf_div x a_u) p0 in
                    (true, <[temp_path := write_chunk file missing_a d]> f)
                  else
                    let b_u := gf_mul a_u a_u in
                    let a_v := u8 (missing_b - group_start + 1) in
                    let b_v := gf_mul a_v a_v in
                    let det := Z.lxor (gf_mul a_u b_v) (gf_mul a_v b_u) in
                    let d_u := zip_with (fun P0 P1 =>
                      gf_div (Z.lxor (gf_mul P0 b_v) (gf_mul P1 a_v)) det) p0 p1 in
                    let d_v := zip_with (fun P0 P1 =>
                      gf_div (Z.lxor (gf_mul a_u P1) (gf_mul b_u P0)) det) p0 p1 in
                    let file := write_chunk file missing_a d_u in
                    let file := write_chunk file missing_b d_v in
                    (true, <[temp_path := file]> f)
              end
          end
      end
  end.

Definition xor_subtract_step (file : list Z) (target_chunk : Z) (k : nat)
    (p : list Z) : ctl (list Z) unit :=
  let ci := group_start + Z.of_nat k in
  if ci =? target_chunk then Next p
  else
    let cur := chunk_span total_size chunk_size ci in
    if cur <=? 0 then Next p
    else
      let data := pread file (Z.to_nat (ci * chunk_size)) (Z.to_nat cur) in
      if negb (zlen data =? cur) then Stop tt
      else Next (xor_into (fun v => v) p (pad_to size data)).

Definition perform_xor_recovery (f : fs) (target_chunk parity_chunk_idx : Z) : bool * fs :=
  match read_parity f (parity_chunk_idx - data_chunks) with
  | None => (false, f)
  | Some p =>
      match f !! temp_path with
      | None => (false, f)
      | Some file =>
          match for_loop (Z.to_nat (group_end - group_start)) 0
                  (xor_subtract_step file target_chunk) p with
          | Stop _ => (false, f)
          | Next p => (true, <[temp_path := write_chunk file target_chunk p]> f)
          end
      end
  end.
End recovery.

(** ** Byte columns *)

Definition xsum (f : nat -> Z) (l : list nat) : Z := foldr (fun s acc => Z.lxor (f s) acc) 0 l.

Lemma xsum_app f l k : xsum f (l ++ k) = Z.lxor (xsum f l) (xsum f k).
Proof. induction l as [|s l IH]; simpl; [done|]. by rewrite IH, Z.lxor_assoc. Qed.

Lemma xsum_byte f l : (forall s, s ∈ l -> is_byte (f s)) -> is_byte (xsum f l).
Proof.
  induction l as [|s l IH]; intros H; simpl; [unfold is_byte; lia|].
  apply is_byte_lxor; [apply H; set_solver|]. apply IH. set_solver.
Qed.

Lemma xsum_ext f g l : (forall s, s ∈ l -> f s = g s) -> xsum f l = xsum g l.
Proof.
  induction l as [|s l IH]; intros H; simpl; [done|].
  rewrite IH by set_solver. by rewrite H by set_solver.
Qed.

(** Selecting one index of a range. *)
Lemma xsum_single f u i n : (i <= u < i + n)%nat ->
  xsum (fun s => if (s =? u)%nat then f s else 0) (seq i n) = f u.
Proof.
  revert i. induction n as [|n IH]; intros i Hu; [lia|]. simpl.
  destruct (i =? u)%nat eqn:E.
  - apply Nat.eqb_eq in E as ->.
    rewrite (xsum_ext _ (fun _ => 0)); [|intros s Hs].
    + clear. replace (xsum (fun _ => 0) (seq (S u) n)) with 0; [apply Z.lxor_0_r|].
      generalize (S u). induction n as [|n IH]; intros j; simpl; [done|]. by rewrite <- IH.
    + apply elem_of_seq in Hs. destruct (s =? u)%nat eqn:E; [apply Nat.eqb_eq in E; lia|done].
  - apply Nat.eqb_neq in E. rewrite Z.lxor_0_l. apply IH. lia.
Qed.

(** Removing the contribution of the indices in [P] leaves that of the others. *)
Lemma xsum_split f (P : nat -> bool) l :
  Z.lxor (xsum f l) (xsum (fun s => if P s then 0 else f s) l)
  = xsum (fun s => if P s then f s else 0) l.
Proof.
  induction l as [|s l IH]; simpl; [done|]. rewrite <- IH.
  destruct (P s); lxor_bits.
Qed.

Lemma xsum_two f u v i n : u <> v -> (i <= u < i + n)%nat -> (i <= v < i + n)%nat ->
  xsum (fun s => if (s =? u)%nat || (s =? v)%nat then f s else 0) (seq i n)
  = Z.lxor (f u) (f v).
Proof.
  intros Hne Hu Hv. rewrite <- (xsum_single f u i n Hu), <- (xsum_single f v i n Hv).
  generalize (seq i n). intros l. induction l as [|s l IH]; simpl; [done|]. rewrite IH.
  destruct (s =? u)%nat eqn:E1, (s =? v)%nat eqn:E2; simpl; try lxor_bits.
  apply Nat.eqb_eq in E1, E2. congruence.
Qed.

Lemma length_xor_into g p d : length (xor_into g p d) = length p.
Proof. revert d. induction p as [|x p IH]; intros [|v d]; simpl; auto. Qed.

Lemma nth_xor_into g p d i : g 0 = 0 -> (i < length p)%nat ->
  List.nth i (xor_into g p d) 0 = Z.lxor (List.nth i p 0) (g (List.nth i d 0)).
Proof.
  intros Hg. revert d i. induction p as [|x p IH]; intros [|v d] i Hi; simpl in Hi; [lia|lia| |].
  - simpl xor_into. rewrite (List.nth_overflow []) by (simpl; lia). by rewrite Hg, Z.lxor_0_r.
  - destruct i as [|i]; simpl.
    + destruct (v =? 0) eqn:E; [|done]. bool_split. subst. by rewrite Hg, Z.lxor_0_r.
    + apply IH. lia.
Qed.

Lemma xor_into_ext g h p d : (forall v, v ∈ d -> v <> 0 -> g v = h v) ->
  xor_into g p d = xor_into h p d.
Proof.
  revert d. induction p as [|x p IH]; intros [|v d] H; simpl; [done..|].
  rewrite (IH d) by set_solver. destruct (v =? 0) eqn:E; [done|]. bool_split.
  by rewrite H by set_solver.
Qed.

Lemma nth_map_Z (g : Z -> Z) l i : (i < length l)%nat ->
  List.nth i (map g l) 0 = g (List.nth i l 0).
Proof. revert i. induction l as [|x l IH]; intros [|i] H; simpl in *; [lia..|]. apply IH. lia. Qed.

Lemma nth_ext_Z (a b : list Z) : length a = length b ->
  (forall i, (i < length a)%nat -> List.nth i a 0 = List.nth i b 0) -> a = b.
Proof. intros Hl H. by apply (List.nth_ext a b 0 0). Qed.

(** ** What the client sends for one group *)

Section group.
Context (orig : list Z) (chunk_size group_start : Z).
Let size : nat := Z.to_nat chunk_size.
Let total_size : Z := zlen orig.

(** The bytes of the group's chunk in slot [s], as the client reads them from the file. *)
Definition slot_data (s : nat) : list Z :=
  pread orig (Z.to_nat ((group_start + Z.of_nat s) * chunk_size))
    (Z.to_nat (chunk_span total_size chunk_size (group_start + Z.of_nat s))).

(** The client's driver: both rows start from zeros, one slice per data chunk. *)
Definition rs_encode (m : nat) : list Z * list Z :=
  foldl (fun pp s =>
      fb_rs_accumulate_slice fb_gf_init (Z.of_nat s) (Some (slot_data s))
        (zlen (slot_data s)) pp.1 pp.2)
    (replicate size 0, replicate size 0) (seq 0 m).

Definition xor_encode (m : nat) : option (list Z) :=
  foldl (fun p s => fb_xor_accumulate_slice (Some (slot_data s)) (zlen (slot_data s)) p)
    (Some (replicate size 0)) (seq 0 m).
End group.

(** ** Correctness of the recovery *)

#[local] Opaque fb_gf_init gf_mul gf_div.

Lemma chunk_span_le total cs ci : chunk_span total cs ci <= cs.
Proof. unfold chunk_span. case_match; bool_split; lia. Qed.

Section correct.
Context (orig : list Z) (chunk_size group_start : Z).
Context (Hcs : 0 < chunk_size) (Hgs : 0 <= group_start) (Hbytes : Forall is_byte orig).
#[local] Abbreviation size := (Z.to_nat chunk_size).
#[local] Abbreviation total_size := (zlen orig).
#[local] Abbreviation data := (slot_data orig chunk_size group_start).

Definition byte (i s : nat) : Z := List.nth i (data s) 0.

Lemma length_slot_data s : (length (data s) <= size)%nat.
Proof.
  unfold slot_data. rewrite length_pread.
  pose proof (chunk_span_le (zlen orig) chunk_size (group_start + Z.of_nat s)). lia.
Qed.

Lemma zlen_slot_data s : let span := chunk_span total_size chunk_size (group_start + Z.of_nat s) in
  zlen (data s) = Z.max 0 span.
Proof.
  unfold slot_data, zlen. rewrite length_pread.
  unfold chunk_span, zlen. case_match; bool_split; nia.
Qed.

Lemma slot_data_bytes s : Forall is_byte (data s).
Proof. unfold slot_data, pread. by apply Forall_take, Forall_drop. Qed.

Lemma byte_is_byte i s : is_byte (byte i s).
Proof.
  unfold byte. rewrite nth_lookup. destruct (data s !! i) as [x|] eqn:E.
  - pose proof (slot_data_bytes s) as H. rewrite Forall_lookup in H. by apply (H i).
  - unfold is_byte. simpl. lia.
Qed.

Definition coef_a (s : nat) : Z := Z.of_nat s + 1.
Definition coef_b (s : nat) : Z := gf_mul (coef_a s) (coef_a s).

Lemma coef_byte s : (s < 6)%nat -> is_byte (coef_a s) /\ is_byte (coef_b s).
Proof.
  intros Hs. assert (Ha : is_byte (coef_a s)) by (unfold coef_a, is_byte; lia).
  split; [done|]. by apply gf_mul_byte.
Qed.

Definition row (g : nat -> Z) (i : nat) (s : nat) : Z := gf_mul (g s) (byte i s).

Lemma row_byte g i s : is_byte (g s) -> is_byte (row g i s).
Proof. intros. apply gf_mul_byte; [done|apply byte_is_byte]. Qed.

Lemma row_nil g i s : data s = [] -> row g i s = 0.
Proof.
  intros E. unfold row, byte. rewrite E.
  replace (List.nth i [] 0) with 0 by (by destruct i). apply gf_mul_0_r.
Qed.

Lemma data_len_0 s : zlen (data s) <= 0 -> data s = [].
Proof. unfold zlen. destruct (data s); [done|]. simpl. lia. Qed.

Lemma rs_encode_spec m : (m <= 6)%nat ->
  let pp := rs_encode orig chunk_size group_start m in
  length pp.1 = size /\ length pp.2 = size /\
  forall i, (i < size)%nat ->
    List.nth i pp.1 0 = xsum (row coef_a i) (seq 0 m) /\
    List.nth i pp.2 0 = xsum (row coef_b i) (seq 0 m).
Proof.
  unfold rs_encode. induction m as [|m IH]; intros Hm.
  { simpl. rewrite length_replicate. split; [done|]. split; [done|].
    intros i Hi. by rewrite !nth_lookup, !lookup_replicate_2. }
  rewrite seq_S, foldl_app. cbv zeta in IH |- *. specialize (IH ltac:(lia)).
  destruct IH as (L1 & L2 & IH).
  set (pp := foldl _ _ (seq 0 m)) in *. clearbody pp. destruct pp as [p0 p1].
  cbn [foldl fst snd Nat.add] in *. unfold fb_rs_accumulate_slice.
  replace (Z.of_nat m <? 0) with false by (symmetry; apply Z.ltb_ge; lia).
  replace (6 <=? Z.of_nat m) with false by (symmetry; apply Z.leb_gt; lia).
  destruct (zlen (data m) <=? 0) eqn:E; simpl orb; cbn iota.
  - apply Z.leb_le, data_len_0 in E. simpl. split; [done|]. split; [done|].
    intros i Hi. rewrite !xsum_app. simpl.
    rewrite !row_nil, !Z.lxor_0_r by done. by apply IH.
  - rewrite Nat2Z.id, take_ge by (unfold zlen; lia). cbn [fst snd].
    rewrite !length_xor_into. split; [done|]. split; [done|].
    intros i Hi. rewrite !xsum_app. simpl. rewrite !Z.lxor_0_r.
    pose proof (IH i Hi) as [<- <-].
    assert (Hm6 : (m < 6)%nat) by lia.
    assert (Hb : forall v, v ∈ data m -> is_byte v).
    { intros v Hv. pose proof (slot_data_bytes m) as H. rewrite Forall_forall in H. auto. }
    match goal with |- List.nth i ?A 0 = _ /\ List.nth i ?B 0 = _ =>
      assert (EA : A = xor_into (gf_mul (coef_a m)) p0 (data m));
      [|assert (EB : B = xor_into (gf_mul (coef_b m)) p1 (data m))]
    end.
    { apply xor_into_ext. intros v Hv _. by destruct (fb_rows m v Hm6 (Hb v Hv)). }
    { apply xor_into_ext. intros v Hv _. by destruct (fb_rows m v Hm6 (Hb v Hv)). }
    rewrite EA, EB.
    rewrite !nth_xor_into by (lia || apply gf_mul_0_r). done.
Qed.

(** The file under repair: every chunk of the group except the missing ones is in place. *)
Definition present_ok (file : list Z) (missing : nat -> bool) (m : nat) : Prop :=
  forall s, (s < m)%nat -> missing s = false ->
    pread file (Z.to_nat ((group_start + Z.of_nat s) * chunk_size))
      (Z.to_nat (chunk_span total_size chunk_size (group_start + Z.of_nat s))) = data s.

Definition without (missing : nat -> bool) (f : nat -> Z) (s : nat) : Z :=
  if missing s then 0 else f s.

(** The rows after the first [j] slots: the parity minus the present chunks. *)
Definition sub_inv (p0 p1 : list Z) (missing : nat -> bool) (j : nat)
    (st : list Z * list Z) : Prop :=
  length st.1 = size /\ length st.2 = size /\
  forall i, (i < size)%nat ->
    List.nth i st.1 0
      = Z.lxor (List.nth i p0 0) (xsum (without missing (row coef_a i)) (seq 0 j)) /\
    List.nth i st.2 0
      = Z.lxor (List.nth i p1 0) (xsum (without missing (row coef_b i)) (seq 0 j)).

Lemma sub_inv_skip p0 p1 missing j st :
  (forall i, without missing (row coef_a i) j = 0) ->
  (forall i, without missing (row coef_b i) j = 0) ->
  sub_inv p0 p1 missing j st -> sub_inv p0 p1 missing (S j) st.
Proof.
  intros Ha Hb (L0 & L1 & H). split; [done|]. split; [done|]. intros i Hi.
  rewrite seq_S, !xsum_app. simpl. rewrite Ha, Hb, !Z.lxor_0_r. by apply H.
Qed.

Lemma coef_a_u8 k : (k < 6)%nat -> u8 (group_start + Z.of_nat k - group_start + 1) = coef_a k.
Proof. intros. unfold coef_a. rewrite u8_small; lia. Qed.

Lemma rs_subtract_step_inv file ma mb missing p0 p1 m j st :
  (m <= 6)%nat -> present_ok file missing m -> (j < m)%nat ->
  missing j = ((group_start + Z.of_nat j =? ma) || (group_start + Z.of_nat j =? mb)) ->
  sub_inv p0 p1 missing j st ->
  match rs_subtract_step chunk_size group_start total_size file ma mb j st with
  | Next st' => sub_inv p0 p1 missing (S j) st'
  | Stop _ => False
  end.
Proof.
  intros Hm Hp Hj Hmiss Hinv. destruct st as [a b]. unfold rs_subtract_step.
  rewrite <- Hmiss. destruct (missing j) eqn:Ej.
  { apply sub_inv_skip; [intros; unfold without; by rewrite Ej..|done]. }
  pose proof (zlen_slot_data j) as Hz. cbv zeta in Hz.
  destruct (_ <=? 0) eqn:E; bool_split.
  { assert (data j = []) by (apply data_len_0; lia).
    apply sub_inv_skip; [intros; unfold without; rewrite Ej; by apply row_nil..|done]. }
  cbv zeta. rewrite (Hp j Hj Ej). rewrite Hz, Z.max_r, Z.eqb_refl by lia. cbn [negb].
  destruct Hinv as (La & Lb & H). cbn [fst snd] in *.
  split; [cbn; by rewrite length_xor_into|]. split; [cbn; by rewrite length_xor_into|].
  intros i Hi. cbn [fst snd]. rewrite coef_a_u8 by lia.
  rewrite !nth_xor_into, !nth_pad_to by (lia || apply gf_mul_0_r).
  destruct (H i Hi) as [-> ->]. rewrite seq_S, !xsum_app. simpl.
  unfold without at 3 6. rewrite Ej, !Z.lxor_0_r, !Z.lxor_assoc. done.
Qed.

Lemma rs_subtract_spec file ma mb missing m p0 p1 :
  (m <= 6)%nat -> present_ok file missing m ->
  (forall s, (s < m)%nat -> missing s =
      ((group_start + Z.of_nat s =? ma) || (group_start + Z.of_nat s =? mb))) ->
  length p0 = size -> length p1 = size ->
  exists st,
    for_loop m 0 (rs_subtract_step chunk_size group_start total_size file ma mb) (p0, p1)
      = Next st /\ sub_inv p0 p1 missing m st.
Proof.
  intros Hm Hp Hmiss L0 L1.
  apply (for_loop_total _ (sub_inv p0 p1 missing) m 0 (p0, p1)).
  - split; [done|]. split; [done|]. intros. by rewrite !Z.lxor_0_r.
  - intros j st Hj. apply (rs_subtract_step_inv file ma mb missing p0 p1 m); auto; [lia|].
    apply Hmiss. lia.
Qed.

(** Writing the bytes of slot [u] back puts the original chunk in place. *)
Definition in_chunk (ci : Z) (i : nat) : Prop :=
  ci * chunk_size <= Z.of_nat i < ci * chunk_size + chunk_span total_size chunk_size ci.

#[global] Instance in_chunk_dec ci i : Decision (in_chunk ci i).
Proof. unfold in_chunk. apply _. Defined.

Lemma slot_data_lookup u k : 0 <= k < chunk_span total_size chunk_size (group_start + Z.of_nat u) ->
  data u !! Z.to_nat k
    = orig !! Z.to_nat ((group_start + Z.of_nat u) * chunk_size + k).
Proof.
  intros Hk. unfold slot_data. rewrite lookup_pread by lia. f_equal. nia.
Qed.

Lemma write_chunk_spec file u d :
  length file = length orig -> length d = size ->
  (forall i, (i < size)%nat -> List.nth i d 0 = byte i u) ->
  let ci := group_start + Z.of_nat u in
  0 < chunk_span total_size chunk_size ci ->
  let file' := write_chunk chunk_size total_size file ci d in
  length file' = length orig /\
  forall i, file' !! i = if decide (in_chunk ci i) then orig !! i else file !! i.
Proof.
  intros Hf Hd Hb ci Hspan. cbv zeta. unfold write_chunk.
  set (span := chunk_span total_size chunk_size ci) in *.
  assert (Hle : span <= chunk_size) by apply chunk_span_le.
  assert (Hend : ci * chunk_size + span <= zlen orig).
  { subst span. unfold chunk_span. case_match; bool_split; lia. }
  assert (Htl : length (take (Z.to_nat span) d) = Z.to_nat span)
    by (rewrite length_take; lia).
  assert (Hci : 0 <= ci * chunk_size) by (subst ci; nia).
  assert (Hfit : (Z.to_nat (ci * chunk_size) + length (take (Z.to_nat span) d) <= length file)%nat)
    by (rewrite Htl, Hf; unfold zlen in Hend; lia).
  split; [by rewrite length_pwrite|]. intros i. rewrite lookup_pwrite, Htl by done.
  destruct (decide (in_chunk ci i)) as [Hin|Hin].
  - rewrite decide_True by (unfold in_chunk in Hin; subst span; lia).
    unfold in_chunk in Hin. fold span in Hin.
    rewrite lookup_take_lt by lia.
    set (k := (i - Z.to_nat (ci * chunk_size))%nat).
    assert (Hk : data u !! k = orig !! i).
    { replace k with (Z.to_nat (Z.of_nat i - ci * chunk_size)) by lia.
      rewrite slot_data_lookup by (fold ci; fold span; lia). f_equal. fold ci. lia. }
    pose proof (Hb k ltac:(lia)) as E. unfold byte in E. rewrite !nth_lookup, Hk in E.
    destruct (lookup_lt_is_Some_2 d k ltac:(lia)) as [x Hx].
    destruct (lookup_lt_is_Some_2 orig i) as [y Hy]; [unfold zlen in Hend; lia|].
    rewrite Hx, Hy in E |- *. simpl in E. by subst.
  - rewrite decide_False; [done|]. unfold in_chunk in Hin. fold span in Hin. lia.
Qed.

(** The group's last chunk starts inside the file. *)
Lemma span_pos m u : (u < m)%nat ->
  (group_start + Z.of_nat m - 1) * chunk_size < total_size ->
  0 < chunk_span total_size chunk_size (group_start + Z.of_nat u).
Proof. intros Hu Hm. unfold chunk_span. case_match; bool_split; nia. Qed.

Lemma read_parity_ok upload_id f k p :
  f !! parity_path upload_id k = Some p -> length p = size ->
  read_parity upload_id chunk_size f k = Some p.
Proof.
  intros Hf Hl. unfold read_parity. rewrite Hf, take_ge by lia.
  destruct p as [|x p'] eqn:E; [simpl in Hl; lia|]. rewrite <- E in *.
  f_equal. unfold pad_to. replace (size - length p)%nat with 0%nat by lia.
  apply app_nil_r.
Qed.
End correct.

(** ** Solving for the missing bytes *)

Lemma coef_a_neq_0 s : coef_a s <> 0.
Proof. unfold coef_a. lia. Qed.

Lemma gf_mul_swap a d b : is_byte a -> is_byte d -> is_byte b ->
  gf_mul (gf_mul a d) b = gf_mul (gf_mul a b) d.
Proof. intros. rewrite !gf_mul_assoc by done. f_equal. apply gf_mul_comm. Qed.

Definition rs_det (u v : nat) : Z :=
  Z.lxor (gf_mul (coef_a u) (coef_b v)) (gf_mul (coef_a v) (coef_b u)).

Lemma rs_det_neq_0 u v : (u < 6)%nat -> (v < 6)%nat -> u <> v -> rs_det u v <> 0.
Proof.
  intros Hu Hv Hne. apply Z.eqb_neq, negb_true_iff.
  assert (H : (u =? v)%nat || negb (rs_det u v =? 0) = true).
  { clear Hne. revert v Hv. revert u Hu.
    enough (H : forall u, (u < 6)%nat -> forallb (fun v => (u =? v)%nat || negb (rs_det u v =? 0))
      (seq 0 6) = true).
    { intros u Hu v Hv. by apply (forall_below 6 (fun v => (u =? v)%nat || negb (rs_det u v =? 0)) (H u Hu)). }
    apply forall_below. vm_compute. reflexivity. }
  apply orb_true_iff in H as [H|H]; [apply Nat.eqb_eq in H; done|done].
Qed.

Section solve.
Context (u v : nat) (Hu : (u < 6)%nat) (Hv : (v < 6)%nat) (du dv : Z).
Context (Hdu : is_byte du) (Hdv : is_byte dv).
Let P0 := Z.lxor (gf_mul (coef_a u) du) (gf_mul (coef_a v) dv).
Let P1 := Z.lxor (gf_mul (coef_b u) du) (gf_mul (coef_b v) dv).

Lemma solve_u_num :
  Z.lxor (gf_mul P0 (coef_b v)) (gf_mul P1 (coef_a v)) = gf_mul (rs_det u v) du.
Proof.
  destruct (coef_byte u Hu) as [Hau Hbu]. destruct (coef_byte v Hv) as [Hav Hbv].
  subst P0 P1. unfold rs_det.
  rewrite !gf_mul_lxor_l by auto using gf_mul_byte.
  rewrite (gf_mul_swap (coef_a u) du), (gf_mul_swap (coef_a v) dv),
    (gf_mul_swap (coef_b u) du), (gf_mul_swap (coef_b v) dv) by done.
  rewrite (gf_mul_comm (coef_b v) (coef_a v)), (gf_mul_comm (coef_b u) (coef_a v)).
  lxor_bits.
Qed.

Lemma solve_v_num :
  Z.lxor (gf_mul (coef_a u) P1) (gf_mul (coef_b u) P0) = gf_mul (rs_det u v) dv.
Proof.
  destruct (coef_byte u Hu) as [Hau Hbu]. destruct (coef_byte v Hv) as [Hav Hbv].
  subst P0 P1. unfold rs_det.
  rewrite !gf_mul_lxor_r, gf_mul_lxor_l by auto using gf_mul_byte.
  rewrite <- !gf_mul_assoc by done.
  rewrite (gf_mul_comm (coef_b u) (coef_a u)), (gf_mul_comm (coef_b u) (coef_a v)).
  lxor_bits.
Qed.
End solve.

(** ** The recovery theorems *)

Lemma gf_div_num x num d : is_byte x -> is_byte d -> x <> 0 -> num = gf_mul x d -> gf_div num x = d.
Proof. intros Hx Hd Hn ->. by apply gf_div_mul. Qed.

Lemma rs_det_byte u v : (u < 6)%nat -> (v < 6)%nat -> is_byte (rs_det u v).
Proof.
  intros Hu Hv. destruct (coef_byte u Hu), (coef_byte v Hv).
  apply is_byte_lxor; by apply gf_mul_byte.
Qed.

Section theorems.
Context (orig : list Z) (chunk_size group_start : Z) (m : nat).
Context (Hcs : 0 < chunk_size) (Hgs : 0 <= group_start) (Hbytes : Forall is_byte orig).
Context (Hm : (m <= 6)%nat).
Context (Hlast : (group_start + Z.of_nat m - 1) * chunk_size < zlen orig).
Context (upload_id temp_path : cstr) (f : fs) (file : list Z) (data_chunks : Z).
Context (Htemp : f !! temp_path = Some file) (Hlen : length file = length orig).
#[local] Abbreviation size := (Z.to_nat chunk_size).

Definition parity_ok (k : Z) (row : list Z) : Prop :=
  f !! parity_path upload_id k = Some row.

(** Two equal descriptions of the missing slots. *)
Lemma missing_two u v s :
  ((s =? u)%nat || (s =? v)%nat) =
  ((group_start + Z.of_nat s =? group_start + Z.of_nat u) ||
   (group_start + Z.of_nat s =? group_start + Z.of_nat v)).
Proof.
  destruct (Nat.eqb_spec s u), (Nat.eqb_spec s v); simpl; symmetry;
    rewrite ?orb_true_iff, ?orb_false_iff, ?Z.eqb_eq, ?Z.eqb_neq; lia.
Qed.

Lemma missing_one u s mb : mb < 0 ->
  (s =? u)%nat =
  ((group_start + Z.of_nat s =? group_start + Z.of_nat u) || (group_start + Z.of_nat s =? mb)).
Proof.
  intros. destruct (Nat.eqb_spec s u); symmetry;
    rewrite ?orb_true_iff, ?orb_false_iff, ?Z.eqb_eq, ?Z.eqb_neq; lia.
Qed.

Lemma xsum_row_missing (missing : nat -> bool) g i :
  Z.lxor (xsum (row orig chunk_size group_start g i) (seq 0 m))
    (xsum (without missing (row orig chunk_size group_start g i)) (seq 0 m))
  = xsum (fun s => if missing s then row orig chunk_size group_start g i s else 0) (seq 0 m).
Proof. apply xsum_split. Qed.

Lemma group_size : Z.to_nat (group_start + Z.of_nat m - group_start) = m.
Proof. lia. Qed.

#[local] Abbreviation P := (rs_encode orig chunk_size group_start m).

(** What is left of the parity rows once the present chunks are subtracted. *)
Lemma rs_columns missing ma mb :
  present_ok orig chunk_size group_start file missing m ->
  (forall s, (s < m)%nat -> missing s =
      ((group_start + Z.of_nat s =? ma) || (group_start + Z.of_nat s =? mb))) ->
  forall p1, length p1 = size ->
  (forall i, (i < size)%nat -> mb < 0 \/ List.nth i p1 0 = List.nth i P.2 0) ->
  exists q0 q1,
    for_loop m 0 (rs_subtract_step chunk_size group_start (zlen orig) file ma mb) (P.1, p1)
      = Next (q0, q1) /\ length q0 = size /\ length q1 = size /\
    forall i, (i < size)%nat ->
      List.nth i q0 0 = xsum (fun s => if missing s
        then row orig chunk_size group_start coef_a i s else 0) (seq 0 m) /\
      (mb < 0 \/ List.nth i q1 0 = xsum (fun s => if missing s
        then row orig chunk_size group_start coef_b i s else 0) (seq 0 m)).
Proof.
  intros Hpres Hmiss p1 Hp1 Heq.
  edestruct (rs_encode_spec orig chunk_size group_start) as (L0 & L1 & Hrows); eauto.
  edestruct rs_subtract_spec with (orig := orig) (p0 := P.1) (p1 := p1)
    as ([q0 q1] & Hloop & Hq); eauto.
  destruct Hq as (Lq0 & Lq1 & Hq). exists q0, q1. do 3 (split; [done|]). intros i Hi.
  destruct (Hq i Hi) as [E0 E1]. destruct (Hrows i Hi) as [R0 R1]. cbn [fst snd] in *.
  rewrite E0, R0. split; [apply xsum_row_missing|].
  destruct (Heq i Hi) as [?|E2]; [by left|right].
  rewrite E1, E2, R1. apply xsum_row_missing.
Qed.

Lemma encode_lengths : length P.1 = size /\ length P.2 = size.
Proof. edestruct (rs_encode_spec orig chunk_size group_start) as (? & ? & _); eauto. Qed.

#[local] Abbreviation bt := (byte orig chunk_size group_start).

(** The two solved columns are the bytes of the missing slots. *)
Lemma solved_two u v q0 q1 : (u < m)%nat -> (v < m)%nat -> u <> v ->
  length q0 = size -> length q1 = size ->
  (forall i, (i < size)%nat ->
     List.nth i q0 0 = Z.lxor (gf_mul (coef_a u) (bt i u)) (gf_mul (coef_a v) (bt i v)) /\
     List.nth i q1 0 = Z.lxor (gf_mul (coef_b u) (bt i u)) (gf_mul (coef_b v) (bt i v))) ->
  forall i, (i < size)%nat ->
    List.nth i (zip_with (fun P0 P1 =>
      gf_div (Z.lxor (gf_mul P0 (coef_b v)) (gf_mul P1 (coef_a v))) (rs_det u v)) q0 q1) 0 = bt i u /\
    List.nth i (zip_with (fun P0 P1 =>
      gf_div (Z.lxor (gf_mul (coef_a u) P1) (gf_mul (coef_b u) P0)) (rs_det u v)) q0 q1) 0 = bt i v.
Proof.
  intros Hu Hv Hne L0 L1 H i Hi. destruct (H i Hi) as [E0 E1]. rewrite nth_lookup in E0, E1.
  destruct (lookup_lt_is_Some_2 q0 i ltac:(lia)) as [x Hx].
  destruct (lookup_lt_is_Some_2 q1 i ltac:(lia)) as [y Hy].
  rewrite Hx in E0. rewrite Hy in E1. simpl in E0, E1. subst x y.
  rewrite !nth_lookup, !lookup_zip_with, Hx, Hy. simpl.
  assert (Hbu : is_byte (bt i u)) by (by apply byte_is_byte).
  assert (Hbv : is_byte (bt i v)) by (by apply byte_is_byte).
  split; apply gf_div_num; auto using rs_det_neq_0.
  all: try (apply rs_det_byte; lia). all: try (apply rs_det_neq_0; lia).
  - apply solve_u_num; lia || done.
  - apply solve_v_num; lia || done.
Qed.

Lemma write_back file0 d u : length file0 = length orig -> length d = size ->
  (forall i, (i < size)%nat -> List.nth i d 0 = bt i u) -> (u < m)%nat ->
  let ci := group_start + Z.of_nat u in
  let file' := write_chunk chunk_size (zlen orig) file0 ci d in
  length file' = length orig /\
  forall i, file' !! i = if decide (in_chunk orig chunk_size ci i) then orig !! i else file0 !! i.
Proof.
  intros Hl Hd Hb Hu. apply write_chunk_spec; auto. eapply span_pos; eauto.
Qed.

(** With both parity rows any two missing chunks are rebuilt. *)
Lemma rs_recovery_two u v parity0_idx parity1_idx :
  (u < m)%nat -> (v < m)%nat -> u <> v ->
  parity_ok (parity0_idx - data_chunks) P.1 -> parity_ok (parity1_idx - data_chunks) P.2 ->
  present_ok orig chunk_size group_start file (fun s => (s =? u)%nat || (s =? v)%nat) m ->
  let ma := group_start + Z.of_nat u in
  let mb := group_start + Z.of_nat v in
  exists file',
    perform_rs_recovery upload_id temp_path chunk_size group_start (group_start + Z.of_nat m)
      data_chunks (zlen orig) f ma mb parity0_idx parity1_idx = (true, <[temp_path := file']> f) /\
    length file' = length orig /\
    forall i, file' !! i =
      if decide (in_chunk orig chunk_size ma i \/ in_chunk orig chunk_size mb i)
      then orig !! i else file !! i.
Proof.
  intros Hu Hv Hne HP0 HP1 Hpres ma mb. destruct encode_lengths as [L0 L1].
  destruct (rs_columns _ ma mb Hpres (fun s _ => missing_two u v s) P.2 L1)
    as (q0 & q1 & Hloop & Lq0 & Lq1 & Hq); [by right|].
  unfold perform_rs_recovery.
  rewrite (read_parity_ok _ Hcs _ _ _ _ HP0 L0), group_size.
  replace (0 <=? mb) with true by (symmetry; apply Z.leb_le; lia).
  rewrite (read_parity_ok _ Hcs _ _ _ _ HP1 L1), Htemp, Hloop.
  replace (mb <? 0) with false by (symmetry; apply Z.ltb_ge; lia). cbv zeta.
  replace (u8 (ma - group_start + 1)) with (coef_a u) by (symmetry; apply coef_a_u8; lia).
  replace (u8 (mb - group_start + 1)) with (coef_a v) by (symmetry; apply coef_a_u8; lia).
  change (gf_mul (coef_a u) (coef_a u)) with (coef_b u).
  change (gf_mul (coef_a v) (coef_a v)) with (coef_b v). fold (rs_det u v).
  pose proof (solved_two u v q0 q1 Hu Hv Hne Lq0 Lq1) as Hs.
  match type of Hs with ?A -> _ => assert (Hcol : A) end.
  { intros i Hi. destruct (Hq i Hi) as [-> [?| ->]]; [lia|].
    by rewrite !xsum_two by lia. }
  specialize (Hs Hcol). eexists. split; [done|].
  assert (Hz : forall h : Z -> Z -> Z, length (zip_with h q0 q1) = size)
    by (intros; rewrite length_zip_with; lia).
  destruct (write_back file _ u Hlen (Hz _) (fun i Hi => proj1 (Hs i Hi)) Hu) as [Hl1 H1].
  destruct (write_back _ _ v Hl1 (Hz _) (fun i Hi => proj2 (Hs i Hi)) Hv) as [Hl2 H2].
  split; [exact Hl2|]. intros i. rewrite H2, H1. fold ma mb.
  repeat case_decide; tauto.
Qed.

(** With one missing chunk, parity row 0 alone is enough. *)
Lemma rs_recovery_one u mb parity0_idx parity1_idx :
  (u < m)%nat -> mb < 0 ->
  parity_ok (parity0_idx - data_chunks) P.1 ->
  present_ok orig chunk_size group_start file (fun s => (s =? u)%nat) m ->
  let ma := group_start + Z.of_nat u in
  exists file',
    perform_rs_recovery upload_id temp_path chunk_size group_start (group_start + Z.of_nat m)
      data_chunks (zlen orig) f ma mb parity0_idx parity1_idx = (true, <[temp_path := file']> f) /\
    length file' = length orig /\
    forall i, file' !! i =
      if decide (in_chunk orig chunk_size ma i) then orig !! i else file !! i.
Proof.
  intros Hu Hmb HP0 Hpres ma. destruct encode_lengths as [L0 _].
  assert (Lz : length (replicate size 0) = size) by apply length_replicate.
  destruct (rs_columns _ ma mb Hpres (fun s _ => missing_one u s mb Hmb) _ Lz)
    as (q0 & q1 & Hloop & Lq0 & Lq1 & Hq); [by left|].
  unfold perform_rs_recovery.
  rewrite (read_parity_ok _ Hcs _ _ _ _ HP0 L0), group_size.
  replace (0 <=? mb) with false by (symmetry; apply Z.leb_gt; lia).
  rewrite Htemp, Hloop. replace (mb <? 0) with true by (symmetry; apply Z.ltb_lt; lia).
  cbv zeta. replace (u8 (ma - group_start + 1)) with (coef_a u)
    by (symmetry; apply coef_a_u8; lia).
  assert (Hs : forall i, (i < size)%nat ->
    List.nth i (map (fun x => gf_div x (coef_a u)) q0) 0 = bt i u).
  { intros i Hi. destruct (Hq i Hi) as [E _]. rewrite xsum_single in E by lia.
    rewrite nth_map_Z, E by lia. apply gf_div_mul; [by apply byte_is_byte| |apply coef_a_neq_0].
    apply coef_byte; lia. }
  destruct (write_back file (map (fun x => gf_div x (coef_a u)) q0) u Hlen) as [Hl1 H1];
    [by rewrite length_map|done|done|].
  eexists. split; [done|]. by split.
Qed.

Lemma xor_encode_spec n : (n <= m)%nat -> exists p,
  xor_encode orig chunk_size group_start n = Some p /\ length p = size /\
  forall i, (i < size)%nat -> List.nth i p 0 = xsum (bt i) (seq 0 n).
Proof.
  unfold xor_encode. induction n as [|n IH]; intros Hn.
  { eexists. split; [done|]. rewrite length_replicate. split; [done|].
    intros i Hi. by rewrite nth_lookup, lookup_replicate_2. }
  destruct (IH ltac:(lia)) as (p & Hp & Lp & H). rewrite seq_S, foldl_app, Hp.
  cbn [foldl Nat.add]. unfold fb_xor_accumulate_slice.
  set (d := slot_data orig chunk_size group_start n).
  assert (Ed : zlen d <= 0 -> d = []) by (unfold zlen; destruct d; simpl; [done|lia]).
  destruct (zlen d <=? 0) eqn:E; bool_split.
  - exists p. do 2 (split; [done|]). intros i Hi. rewrite H, xsum_app by done. simpl.
    unfold byte. fold d. rewrite (Ed E).
    replace (List.nth i [] 0) with 0 by (by destruct i). by rewrite !Z.lxor_0_r.
  - eexists. split; [done|]. rewrite length_xor_into. split; [done|]. intros i Hi.
    rewrite nth_xor_into, H, xsum_app, take_ge by (unfold zlen; lia || done).
    simpl. by rewrite Z.lxor_0_r.
Qed.

Lemma xor_subtract_spec u p : length p = size -> (u < m)%nat ->
  present_ok orig chunk_size group_start file (fun s => (s =? u)%nat) m ->
  exists q, for_loop m 0
      (xor_subtract_step chunk_size group_start (zlen orig) file (group_start + Z.of_nat u)) p
      = Next q /\ length q = size /\
    forall i, (i < size)%nat -> List.nth i q 0 =
      Z.lxor (List.nth i p 0) (xsum (without (fun s => (s =? u)%nat) (bt i)) (seq 0 m)).
Proof.
  intros Hp Hu Hpres.
  apply (for_loop_total _ (fun j q => length q = size /\ forall i, (i < size)%nat ->
    List.nth i q 0 = Z.lxor (List.nth i p 0)
      (xsum (without (fun s => (s =? u)%nat) (bt i)) (seq 0 j))) m 0 p).
  { split; [done|]. intros. by rewrite Z.lxor_0_r. }
  intros j q Hj [Lq Hq]. unfold xor_subtract_step.
  pose proof (zlen_slot_data orig chunk_size group_start) as Hz.
  assert (Hskip : (forall i, without (fun s => (s =? u)%nat) (bt i) j = 0) ->
    length q = size /\ forall i, (i < size)%nat -> List.nth i q 0 = Z.lxor (List.nth i p 0)
      (xsum (without (fun s => (s =? u)%nat) (bt i)) (seq 0 (S j)))).
  { intros H0. split; [done|]. intros i Hi. rewrite seq_S, xsum_app. simpl.
    rewrite H0, !Z.lxor_0_r. by apply Hq. }
  destruct (Nat.eqb_spec j u) as [->|Hne].
  { rewrite Z.eqb_refl. apply Hskip. intros. unfold without. by rewrite Nat.eqb_refl. }
  replace (_ =? _) with false by (symmetry; apply Z.eqb_neq; lia).
  assert (Hju : (j =? u)%nat = false) by (by apply Nat.eqb_neq).
  destruct (_ <=? 0) eqn:E; bool_split.
  { apply Hskip. intros i. unfold without. rewrite Hju. unfold byte.
    rewrite (data_len_0 orig chunk_size group_start j); [by destruct i|].
    specialize (Hz Hcs Hgs). rewrite Hz. lia. }
  cbv zeta. rewrite (Hpres j) by (done || lia).
  specialize (Hz Hcs Hgs j). cbv zeta in Hz. rewrite Hz, Z.max_r, Z.eqb_refl by lia.
  cbn [negb]. rewrite length_xor_into. split; [done|]. intros i Hi.
  rewrite nth_xor_into, nth_pad_to, Hq, seq_S, xsum_app by (done || lia). simpl.
  unfold without at 3. by rewrite Hju, Z.lxor_0_r, Z.lxor_assoc.
Qed.

(** The XOR parity rebuilds any single missing chunk of its group. *)
Lemma xor_recovery_one u parity_idx p :
  (u < m)%nat -> xor_encode orig chunk_size group_start m = Some p ->
  parity_ok (parity_idx - data_chunks) p ->
  present_ok orig chunk_size group_start file (fun s => (s =? u)%nat) m ->
  let target := group_start + Z.of_nat u in
  exists file',
    perform_xor_recovery upload_id temp_path chunk_size group_start (group_start + Z.of_nat m)
      data_chunks (zlen orig) f target parity_idx = (true, <[temp_path := file']> f) /\
    length file' = length orig /\
    forall i, file' !! i =
      if decide (in_chunk orig chunk_size target i) then orig !! i else file !! i.
Proof.
  intros Hu He HP Hpres target.
  destruct (xor_encode_spec m) as (p' & He' & Lp & Hcol); [done|]. simplify_eq.
  destruct (xor_subtract_spec u p Lp Hu Hpres) as (q & Hloop & Lq & Hq).
  fold target in Hloop. unfold perform_xor_recovery.
  rewrite (read_parity_ok _ Hcs _ _ _ _ HP Lp), group_size, Htemp, Hloop.
  destruct (write_back file q u Hlen Lq) as [Hl1 H1]; [|done|].
  { intros i Hi. rewrite Hq, Hcol by done. unfold without.
    rewrite (xsum_split (bt i) (fun s => (s =? u)%nat)). apply xsum_single. lia. }
  eexists. split; [done|]. by split.
Qed.
(** when any two data chunks of a group are missing and both parity rows the client
    computed have arrived, [perform_rs_recovery] succeeds, restores exactly the bytes of
    the two chunks and leaves every other byte of the file as it was; with a single missing
    chunk the first parity row alone is enough. *)
Theorem perform_rs_recovery_restores u v mb parity0_idx parity1_idx :
  (u < m)%nat -> (v < m)%nat -> u <> v -> mb < 0 ->
  parity_ok (parity0_idx - data_chunks) P.1 ->
  let recover := perform_rs_recovery upload_id temp_path chunk_size group_start
    (group_start + Z.of_nat m) data_chunks (zlen orig) f in
  let ma := group_start + Z.of_nat u in
  let mv := group_start + Z.of_nat v in
  let restored (chunks : nat -> Prop) file' := length file' = length orig /\
    forall i, (chunks i -> file' !! i = orig !! i) /\ (~ chunks i -> file' !! i = file !! i) in
  (parity_ok (parity1_idx - data_chunks) P.2 ->
   present_ok orig chunk_size group_start file (fun s => (s =? u)%nat || (s =? v)%nat) m ->
   exists file', recover ma mv parity0_idx parity1_idx = (true, <[temp_path := file']> f) /\
     restored (fun i => in_chunk orig chunk_size ma i \/ in_chunk orig chunk_size mv i) file') /\
  (present_ok orig chunk_size group_start file (fun s => (s =? u)%nat) m ->
   exists file', recover ma mb parity0_idx parity1_idx = (true, <[temp_path := file']> f) /\
     restored (in_chunk orig chunk_size ma) file').
Proof.
  intros Hu Hv Hne Hmb HP0 recover ma mv restored. split.
  - intros HP1 Hpres.
    destruct (rs_recovery_two u v parity0_idx parity1_idx) as (file' & H & Hl & Hb); try done.
    exists file'. split; [exact H|]. split; [done|]. intros i. rewrite Hb.
    fold ma mv. case_decide; split; tauto.
  - intros Hpres.
    destruct (rs_recovery_one u mb parity0_idx parity1_idx) as (file' & H & Hl & Hb); try done.
    exists file'. split; [exact H|]. split; [done|]. intros i. rewrite Hb.
    fold ma. case_decide; split; tauto.
Qed.
End theorems.

(** ** A concrete upload: seven bytes in chunks of two, one group of four chunks *)

Section example.
Definition ex_orig : list Z := [10; 20; 30; 40; 50; 60; 70].
Definition ex_damaged (missing : list nat) : list Z :=
  imap (fun i b => if bool_decide ((i / 2)%nat ∈ missing) then 0 else b) ex_orig.
Definition ex_fs (missing : list nat) : fs :=
  <[parity_path (cs "u1") 0 := (rs_encode ex_orig 2 0 4).1]>
  (<[parity_path (cs "u1") 1 := (rs_encode ex_orig 2 0 4).2]>
  {[cs "tmp" := ex_damaged missing]}).
Lemma ex_bytes : Forall is_byte ex_orig.
Proof. repeat (apply Forall_cons; split; [unfold is_byte; lia|]). constructor. Qed.
End example.

(** The slots below a bound, one by one. *)
Ltac each_slot := intros [|[|[|[|?]]]] ? ?; first [lia | vm_compute; reflexivity | done].

Lemma perform_rs_recovery_restores_witness :
  (perform_rs_recovery (cs "u1") (cs "tmp") 2 0 4 4 7 (ex_fs [1; 3]%nat) 1 3 4 5).1 = true /\
  (perform_rs_recovery (cs "u1") (cs "tmp") 2 0 4 4 7 (ex_fs [1%nat]) 1 (-1) 4 5).1 = true.
Proof.
  split.
  - destruct (perform_rs_recovery_restores ex_orig 2 0 4 ltac:(lia) ltac:(lia) ex_bytes ltac:(lia)
      ltac:(vm_compute; reflexivity) (cs "u1") (cs "tmp") (ex_fs [1; 3]%nat) (ex_damaged [1; 3]%nat)
      4 ltac:(vm_compute; reflexivity) ltac:(vm_compute; reflexivity) 1 3 (-1) 4 5) as [H _];
      [lia|lia|lia|lia|vm_compute; reflexivity|].
    destruct H as (file' & H & _); [vm_compute; reflexivity|each_slot|]. exact (f_equal fst H).
  - destruct (perform_rs_recovery_restores ex_orig 2 0 4 ltac:(lia) ltac:(lia) ex_bytes ltac:(lia)
      ltac:(vm_compute; reflexivity) (cs "u1") (cs "tmp") (ex_fs [1%nat]) (ex_damaged [1%nat])
      4 ltac:(vm_compute; reflexivity) ltac:(vm_compute; reflexivity) 1 3 (-1) 4 5) as [_ H];
      [lia|lia|lia|lia|vm_compute; reflexivity|].
    destruct H as (file' & H & _); [each_slot|]. exact (f_equal fst H).
Defined.
