(* ===== verification/PageCache.v ===== *)
(** * The page cache (src/src/utils/cache.c)

    Rendered pages live in 1024 hash chains under one mutex; every operation below is one
    critical section.  Readers pin an entry by [page_cache_get] and unpin it by key.  An entry
    carries the identity of its allocation, and the state logs the identities passed to
    [free_entry], so that use of freed memory can be stated.  Allocation failure is not
    modelled; the clock is an argument. *)
From S2P Require Import Prelude CStr.

Definition CACHE_BUCKETS : nat := 1024.

Record cache_entry := Entry {
  e_id : nat;            (* the allocation *)
  e_key : cstr;
  e_data : list Z;
  e_len : Z;
  e_expires_at : Z;
  e_pin_count : Z;
}.

Record cache := Cache {
  g_buckets : list (list cache_entry);
  g_retired : list cache_entry;
  g_total_bytes : Z;
  g_max_bytes : Z;
  g_swr_seconds : Z;
  g_generation : Z;
  next_id : nat;         (* the allocator *)
  freed : list nat;      (* log of [free_entry] *)
}.

(** ** Field updates *)

Definition set_expires (t : Z) (e : cache_entry) : cache_entry :=
  Entry (e_id e) (e_key e) (e_data e) (e_len e) t (e_pin_count e).
Definition set_pins (n : Z) (e : cache_entry) : cache_entry :=
  Entry (e_id e) (e_key e) (e_data e) (e_len e) (e_expires_at e) n.

Definition with_buckets (bs : list (list cache_entry)) (c : cache) : cache :=
  Cache bs (g_retired c) (g_total_bytes c) (g_max_bytes c) (g_swr_seconds c) (g_generation c)
    (next_id c) (freed c).
Definition with_bucket (h : nat) (b : list cache_entry) (c : cache) : cache :=
  with_buckets (<[h := b]> (g_buckets c)) c.
Definition with_retired (r : list cache_entry) (c : cache) : cache :=
  Cache (g_buckets c) r (g_total_bytes c) (g_max_bytes c) (g_swr_seconds c) (g_generation c)
    (next_id c) (freed c).
Definition with_total (n : Z) (c : cache) : cache :=
  Cache (g_buckets c) (g_retired c) n (g_max_bytes c) (g_swr_seconds c) (g_generation c)
    (next_id c) (freed c).
Definition bump_generation (c : cache) : cache :=
  Cache (g_buckets c) (g_retired c) (g_total_bytes c) (g_max_bytes c) (g_swr_seconds c)
    (u64 (g_generation c + 1)) (next_id c) (freed c).
Definition log_free (e : cache_entry) (c : cache) : cache :=
  Cache (g_buckets c) (g_retired c) (g_total_bytes c) (g_max_bytes c) (g_swr_seconds c)
    (g_generation c) (next_id c) (e_id e :: freed c).

(** ** Operations *)

Definition hash_bucket (key : cstr) : nat := Z.to_nat (djb2 key `mod` Z.of_nat CACHE_BUCKETS).

Definition bucket (c : cache) (h : nat) : list cache_entry := default [] (g_buckets c !! h).

(** [page_cache_init]: [env] and [swr] are the two environment variables. *)
Definition page_cache_init (env swr : option cstr) (max0 swr0 : Z) : cache :=
  let max_bytes :=
    match env with
    | Some s => let '(mb, rest) := strtol10 s in
                if negb (bool_decide (rest = s)) && bool_decide (rest = []) && (0 <? mb)
                   && (mb <=? 1024)
                then mb * 1024 * 1024 else max0
    | None => max0
    end in
  let swr_seconds :=
    match swr with
    | Some s => let '(sec, rest) := strtol10 s in
                if negb (bool_decide (rest = s)) && bool_decide (rest = []) && (0 <=? sec)
                   && (sec <=? 86400)
                then sec else swr0
    | None => swr0
    end in
  Cache (replicate CACHE_BUCKETS []) [] 0 max_bytes swr_seconds 1 0 [].

(** [free_entry]: the byte account never goes below zero. *)
Definition free_entry (e : cache_entry) (c : cache) : cache :=
  log_free e (with_total
    (if e_len e <=? g_total_bytes c then g_total_bytes c - e_len e else 0) c).

(** Unlink the first entry of a chain that satisfies a test. *)
Fixpoint unlink (P : cache_entry -> bool) (b : list cache_entry)
  : option (list cache_entry * cache_entry * list cache_entry) :=
  match b with
  | [] => None
  | e :: b' =>
      if P e then Some ([], e, b')
      else match unlink P b' with
           | Some (pre, x, post) => Some (e :: pre, x, post)
           | None => None
           end
  end.

Definition has_key (key : cstr) (e : cache_entry) : bool := streq (e_key e) key.

(** The last unpinned entry of a chain (the oldest one: insertion is at the head). *)
Fixpoint unlink_last_unpinned (b : list cache_entry)
  : option (list cache_entry * cache_entry * list cache_entry) :=
  match b with
  | [] => None
  | e :: b' =>
      match unlink_last_unpinned b' with
      | Some (pre, x, post) => Some (e :: pre, x, post)
      | None => if e_pin_count e =? 0 then Some ([], e, b') else None
      end
  end.

(** One pass over the buckets: the first bucket with an unpinned entry gives one up. *)
Fixpoint evict_one (i : nat) (bs : list (list cache_entry)) (c : cache) : option cache :=
  match bs with
  | [] => None
  | b :: bs' =>
      match unlink_last_unpinned b with
      | Some (pre, x, post) => Some (free_entry x (with_bucket i (pre ++ post) c))
      | None => evict_one (S i) bs' c
      end
  end.

Definition entry_count (c : cache) : nat := foldr (fun b n => (length b + n)%nat) O (g_buckets c).

(** The eviction [while]; one entry goes per round, so the entry count bounds the rounds. *)
Fixpoint evict (fuel : nat) (len : Z) (c : cache) : cache :=
  if (g_max_bytes c <? g_total_bytes c + len) && (0 <? g_total_bytes c) then
    match fuel with
    | O => c
    | S f => match evict_one 0 (g_buckets c) c with
             | Some c' => evict f len c'
             | None => c
             end
    end
  else c.

(** Take the current entry of [key] out of its chain: a pinned one is retired, an unpinned
    one freed. *)
Definition drop_old (h : nat) (key : cstr) (c : cache) : cache :=
  match unlink (has_key key) (bucket c h) with
  | None => c
  | Some (pre, old, post) =>
      let c := with_bucket h (pre ++ post) c in
      if 0 <? e_pin_count old then with_retired (set_expires 0 old :: g_retired c) c
      else free_entry old c
  end.

Definition insert_entry (h : nat) (key : cstr) (data : list Z) (len expires : Z) (c : cache)
  : cache :=
  let e := Entry (next_id c) key (take (Z.to_nat len) data) len expires 0 in
  Cache (<[h := e :: bucket c h]> (g_buckets c)) (g_retired c) (g_total_bytes c + len)
    (g_max_bytes c) (g_swr_seconds c) (g_generation c) (S (next_id c)) (freed c).

Definition page_cache_set_internal (now : Z) (key : option cstr) (data : option (list Z))
    (len ttl_sec expected_generation : Z) (c : cache) : bool * cache :=
  match key, data with
  | Some key, Some data =>
      if (len =? 0) || (ttl_sec =? 0) then (false, c)
      else if g_max_bytes c / 4 <? len then (false, c)
      else if negb (expected_generation =? 0) && negb (expected_generation =? g_generation c)
      then (false, c)
      else
        let h := hash_bucket key in
        let c := drop_old h key c in
        let c := evict (entry_count c) len c in
        if g_max_bytes c <? g_total_bytes c + len then (false, c)
        else (true, insert_entry h key data len (now + ttl_sec) c)
  | _, _ => (false, c)
  end.

Definition page_cache_set (now : Z) (key : option cstr) (data : option (list Z))
    (len ttl_sec : Z) (c : cache) : bool * cache :=
  page_cache_set_internal now key data len ttl_sec 0 c.

Definition page_cache_set_if_generation (now : Z) (key : option cstr) (data : option (list Z))
    (len ttl_sec generation : Z) (c : cache) : bool * cache :=
  page_cache_set_internal now key data len ttl_sec generation c.

Definition page_cache_generation (c : cache) : Z := g_generation c.

(** What a hit hands out: the entry's memory, its bytes, and the remaining time to live. *)
Record hit := Hit { hit_id : nat; hit_data : list Z; hit_len : Z; hit_ttl : Z }.

Definition page_cache_get_expired (now : Z) (key : option cstr) (stale : bool) (c : cache)
  : option hit * cache :=
  match key with
  | None => (None, c)
  | Some key =>
      let h := hash_bucket key in
      match unlink (has_key key) (bucket c h) with
      | None => (None, c)
      | Some (pre, e, post) =>
          if stale && (e_expires_at e =? 0) then (None, c)
          else
            let expired := e_expires_at e <=? now in
            if negb (Bool.eqb expired stale) then
              if expired && (e_pin_count e =? 0) && (g_swr_seconds c <=? now - e_expires_at e)
              then (None, free_entry e (with_bucket h (pre ++ post) c))
              else (None, c)
            else
              (Some (Hit (e_id e) (e_data e) (e_len e)
                       (if expired then 0 else u32 (e_expires_at e - now))),
               with_bucket h (pre ++ set_pins (e_pin_count e + 1) e :: post) c)
      end
  end.

Definition page_cache_get (now : Z) (key : option cstr) (c : cache) : option hit * cache :=
  page_cache_get_expired now key false c.

Definition page_cache_get_stale (now : Z) (key : option cstr) (c : cache) : option hit * cache :=
  if g_swr_seconds c <=? 0 then (None, c) else page_cache_get_expired now key true c.

Definition pinned_key (key : cstr) (e : cache_entry) : bool :=
  has_key key e && negb (e_pin_count e =? 0).

Definition page_cache_release (now : Z) (key : option cstr) (c : cache) : cache :=
  match key with
  | None => c
  | Some key =>
      let h := hash_bucket key in
      match unlink (pinned_key key) (bucket c h) with
      | Some (pre, e, post) =>
          let e' := set_pins (e_pin_count e - 1) e in
          let collect := (e_expires_at e =? 0) ||
            ((e_expires_at e <=? now) && (g_swr_seconds c <=? now - e_expires_at e)) in
          if (e_pin_count e' =? 0) && collect
          then free_entry e' (with_bucket h (pre ++ post) c)
          else with_bucket h (pre ++ e' :: post) c
      | None =>
          match unlink (pinned_key key) (g_retired c) with
          | Some (pre, e, post) =>
              let e' := set_pins (e_pin_count e - 1) e in
              if e_pin_count e' =? 0
              then free_entry e' (with_retired (pre ++ post) c)
              else with_retired (pre ++ e' :: post) c
          | None => c
          end
      end
  end.

(** Content-change notifications sent to the route cache (engine/bdr.h). *)
Inductive bdr_bump :=
| BumpAll
| BumpPost (slug : option cstr)
| BumpBoard (slug : option cstr)
| BumpListings.

Definition page_cache_delete (key : option cstr) (c : cache) : cache * list bdr_bump :=
  match key with
  | None => (c, [])
  | Some key =>
      let h := hash_bucket key in
      let c :=
        match unlink (has_key key) (bucket c h) with
        | None => c
        | Some (pre, old, post) =>
            if 0 <? e_pin_count old then with_bucket h (pre ++ set_expires 0 old :: post) c
            else free_entry old (with_bucket h (pre ++ post) c)
        end in
      (bump_generation c, [BumpAll])
  end.

(** One chain of [page_cache_clear]: what stays, the bytes that stay, what is freed. *)
Fixpoint clear_chain (b : list cache_entry) : list cache_entry * Z * list nat :=
  match b with
  | [] => ([], 0, [])
  | e :: b' =>
      let '(keep, remaining, gone) := clear_chain b' in
      if 0 <? e_pin_count e then (set_expires 0 e :: keep, e_len e + remaining, gone)
      else (keep, remaining, e_id e :: gone)
  end.

Definition page_cache_clear (c : cache) : cache * list bdr_bump :=
  let chains := map clear_chain (g_buckets c) in
  let remaining := zsum (map (fun x => snd (fst x)) chains)
                   + zsum (map e_len (g_retired c)) in
  let c' := Cache (map (fun x => fst (fst x)) chains) (g_retired c) remaining (g_max_bytes c)
              (g_swr_seconds c) (g_generation c) (next_id c)
              (concat (map snd chains) ++ freed c) in
  (bump_generation c', [BumpAll]).

Definition page_cache_cleanup (c : cache) : cache * list bdr_bump := page_cache_clear c.

(** One chain of the prefix scan. *)
Fixpoint prefix_chain (prefixes : list cstr) (b : list cache_entry) (c : cache)
  : list cache_entry * cache :=
  match b with
  | [] => ([], c)
  | e :: b' =>
      if existsb (fun p => starts_with p (e_key e)) prefixes then
        if 0 <? e_pin_count e then
          let '(keep, c) := prefix_chain prefixes b' c in (set_expires 0 e :: keep, c)
        else prefix_chain prefixes b' (free_entry e c)
      else let '(keep, c) := prefix_chain prefixes b' c in (e :: keep, c)
  end.

Fixpoint prefix_buckets (prefixes : list cstr) (bs : list (list cache_entry)) (c : cache)
  : list (list cache_entry) * cache :=
  match bs with
  | [] => ([], c)
  | b :: bs' =>
      let '(keep, c) := prefix_chain prefixes b c in
      let '(rest, c) := prefix_buckets prefixes bs' c in
      (keep :: rest, c)
  end.

(** At most eight prefixes are looked at; a NULL one cancels the call. *)
Definition page_cache_clear_prefixes_raw (prefixes : list (option cstr)) (c : cache) : cache :=
  match prefixes with
  | [] => c
  | _ =>
      match mapM (M := option) id (take 8 prefixes) with
      | None => c
      | Some ps =>
          let '(bs, c) := prefix_buckets ps (g_buckets c) c in
          bump_generation (with_buckets bs c)
      end
  end.

Definition page_cache_clear_prefix (prefix : option cstr) (c : cache) : cache * list bdr_bump :=
  match prefix with
  | None => (c, [])
  | Some _ => (page_cache_clear_prefixes_raw [prefix] c, [BumpAll])
  end.

Definition page_cache_invalidate_post (slug : option cstr) (c : cache) : cache * list bdr_bump :=
  match slug with
  | Some s =>
      let prefix := snprintf_s 256 (CS "post:" ++ s ++ CS ":") in
      (page_cache_clear_prefixes_raw
         [Some prefix; Some (CS "home:"); Some (CS "board:"); Some (CS "boards:")] c,
       [BumpPost slug])
  | None =>
      (page_cache_clear_prefixes_raw [Some (CS "home:"); Some (CS "board:"); Some (CS "boards:")] c,
       [BumpPost None])
  end.

Definition page_cache_invalidate_board (slug : option cstr) (c : cache) : cache * list bdr_bump :=
  match slug with
  | Some s =>
      let prefix := snprintf_s 256 (CS "board:" ++ s ++ CS ":") in
      (page_cache_clear_prefixes_raw
         [Some prefix; Some (CS "board:"); Some (CS "boards:"); Some (CS "home:")] c,
       [BumpBoard slug])
  | None =>
      (page_cache_clear_prefixes_raw [Some (CS "board:"); Some (CS "boards:"); Some (CS "home:")] c,
       [BumpBoard None])
  end.

Definition page_cache_invalidate_all (c : cache) : cache * list bdr_bump := page_cache_clear c.

Definition page_cache_invalidate_listings (c : cache) : cache * list bdr_bump :=
  (page_cache_clear_prefixes_raw [Some (CS "home:"); Some (CS "board:"); Some (CS "boards:")] c,
   [BumpListings]).

Definition page_cache_total_bytes (c : cache) : Z := g_total_bytes c.

(** ** Key builders; [gen] stands for the two generation counters of the policy and the post
    schedule that every key embeds. *)

Definition role_or_guest (role : option cstr) : cstr :=
  match role with Some (c :: r) => c :: r | _ => CS "guest" end.

Definition print_bool (b : bool) : cstr := if b then CS "1" else CS "0".

Definition key_tail (dark mobile : bool) (role : option cstr) (uid : Z) : cstr :=
  CS "d=" ++ print_bool dark ++ CS ":m=" ++ print_bool mobile ++ CS ":r=" ++ role_or_guest role
  ++ CS ":u=" ++ print_int uid.

Definition key_gens (w pg : Z) : cstr := CS ":w=" ++ print_dec w ++ CS ":pg=" ++ print_dec pg.

Definition page_cache_key_home (out_len : nat) (dark mobile : bool) (role : option cstr)
    (uid w pg : Z) : cstr :=
  snprintf_s out_len (CS "home:" ++ key_tail dark mobile role uid ++ key_gens w pg).

Definition page_cache_key_post (out_len : nat) (slug : option cstr) (dark mobile : bool)
    (role : option cstr) (uid w pg : Z) : cstr :=
  snprintf_s out_len (CS "post:" ++ default [] slug ++ CS ":" ++ key_tail dark mobile role uid
                      ++ key_gens w pg).

Definition page_cache_key_board_list (out_len : nat) (dark mobile : bool) (role : option cstr)
    (uid w pg : Z) : cstr :=
  snprintf_s out_len (CS "boards:" ++ key_tail dark mobile role uid ++ key_gens w pg).

(** [filters]: tag, series, from, to, each possibly NULL; a NULL filter record is four NULLs. *)
Definition page_cache_key_board (out_len : nat) (slug : option cstr) (page : Z)
    (dark mobile : bool) (role : option cstr) (uid : Z) (search search_type : option cstr)
    (tag series from_ to_ : option cstr) (w pg : Z) : cstr :=
  let s o := default [] o in
  snprintf_s out_len
    (CS "board:" ++ s slug ++ CS ":p=" ++ print_int page ++ CS ":" ++
     key_tail dark mobile role uid ++ CS ":s=" ++ s search ++ CS ":st=" ++ s search_type ++
     CS ":t=" ++ s tag ++ CS ":se=" ++ s series ++ CS ":f=" ++ s from_ ++ CS ":to=" ++ s to_ ++
     key_gens w pg).

(** ** The entries of a cache, and the transitions that only shrink it *)

Definition live (c : cache) : list cache_entry := concat (g_buckets c) ++ g_retired c.

(** The same allocation with the same contents. *)
Definition same (e e' : cache_entry) : Prop :=
  e_id e' = e_id e /\ e_key e' = e_key e /\ e_data e' = e_data e /\ e_len e' = e_len e.

(** Nobody loses a pin. *)
Definition same_pinned (e e' : cache_entry) : Prop :=
  same e e' /\ e_pin_count e <= e_pin_count e'.

Definition unpinned (e : cache_entry) : Prop := e_pin_count e = 0.

(** [thin R P b b' g]: [b'] is [b] with some entries changed by [R] and the entries [g],
    all of which satisfy [P], taken out. *)
Inductive thin (R : cache_entry -> cache_entry -> Prop) (P : cache_entry -> Prop)
  : list cache_entry -> list cache_entry -> list cache_entry -> Prop :=
| thin_nil : thin R P [] [] []
| thin_keep e e' b b' g : R e e' -> thin R P b b' g -> thin R P (e :: b) (e' :: b') g
| thin_drop e b b' g : P e -> thin R P b b' g -> thin R P (e :: b) b' (e :: g).

Inductive thins (R : cache_entry -> cache_entry -> Prop) (P : cache_entry -> Prop)
  : list (list cache_entry) -> list (list cache_entry) -> list cache_entry -> Prop :=
| thins_nil : thins R P [] [] []
| thins_cons b b' g bs bs' gs :
    thin R P b b' g -> thins R P bs bs' gs -> thins R P (b :: bs) (b' :: bs') (g ++ gs).

Section thin.
Context (R : cache_entry -> cache_entry -> Prop) (P : cache_entry -> Prop).
Context (Rrefl : forall e, R e e) (Rsame : forall e e', R e e' -> same e e').

Lemma thin_refl b : thin R P b b [].
Proof. induction b; constructor; auto. Qed.

Lemma thin_app b b' g k : thin R P b b' g -> thin R P (b ++ k) (b' ++ k) g.
Proof. induction 1; simpl; [apply thin_refl|by constructor|by constructor]. Qed.

Lemma thin_pre pre b b' g : thin R P b b' g -> thin R P (pre ++ b) (pre ++ b') g.
Proof. intros. induction pre; simpl; [done|by constructor]. Qed.

Lemma thin_remove pre x post : P x -> thin R P (pre ++ x :: post) (pre ++ post) [x].
Proof. intros. apply thin_pre. constructor; [done|apply thin_refl]. Qed.

Lemma thin_update pre x x' post :
  R x x' -> thin R P (pre ++ x :: post) (pre ++ x' :: post) [].
Proof. intros. apply thin_pre. constructor; [done|apply thin_refl]. Qed.

Lemma thins_refl bs : thins R P bs bs [].
Proof.
  induction bs; [constructor|]. change [] with (@nil cache_entry ++ []).
  constructor; [apply thin_refl|done].
Qed.

Lemma thins_insert bs h b b' g :
  bs !! h = Some b -> thin R P b b' g -> thins R P bs (<[h := b']> bs) g.
Proof.
  revert h. induction bs as [|a bs IH]; intros [|h] Hb Ht; simplify_eq/=.
  - rewrite <- (app_nil_r g). constructor; [done|apply thins_refl].
  - change g with ([] ++ g). constructor; [apply thin_refl|auto].
Qed.

Lemma thins_concat bs bs' g :
  thins R P bs bs' g -> thin R P (concat bs) (concat bs') g.
Proof.
  induction 1 as [|b b' g bs bs' gs Hb _ IH]; simpl; [constructor|].
  clear - Hb IH Rrefl. induction Hb; simpl; [done| |]; by constructor.
Qed.

Lemma thins_length bs bs' g : thins R P bs bs' g -> length bs' = length bs.
Proof. induction 1; simpl; lia. Qed.

Lemma thins_lookup bs bs' g h b' :
  thins R P bs bs' g -> bs' !! h = Some b' ->
  exists b g', bs !! h = Some b /\ thin R P b b' g'.
Proof.
  intros Ht. revert h. induction Ht; intros [|h] Hb; simplify_eq/=; eauto.
Qed.

(** Whatever [R] keeps is conserved between the chain and the entries taken out. *)
Lemma thin_perm {A} (f : cache_entry -> A) b b' g :
  (forall e e', same e e' -> f e' = f e) ->
  thin R P b b' g -> map f b ≡ₚ map f b' ++ map f g.
Proof.
  intros Hf. induction 1 as [|e e' b b' g He _ IH|e b b' g _ _ IH]; simpl; [done| |].
  - rewrite (Hf e e') by auto. by constructor.
  - rewrite IH. by rewrite Permutation_middle.
Qed.

Lemma thin_gone b b' g : thin R P b b' g -> Forall P g.
Proof. induction 1; auto. Qed.

Lemma thin_back b b' g e' :
  thin R P b b' g -> e' ∈ b' -> exists e, e ∈ b /\ R e e'.
Proof.
  clear Rrefl Rsame.
  induction 1 as [|a a' b b' g Ha _ IH|a b b' g _ _ IH]; intros Hin; [set_solver| |].
  - apply elem_of_cons in Hin as [->|Hin]; [set_solver|].
    destruct (IH Hin) as (x & ? & ?). set_solver.
  - destruct (IH Hin) as (x & ? & ?). set_solver.
Qed.

Lemma thin_forward b b' g e :
  thin R P b b' g -> e ∈ b -> ~ P e -> exists e', e' ∈ b' /\ R e e'.
Proof.
  clear Rrefl Rsame.
  induction 1 as [|a a' b b' g Ha _ IH|a b b' g Hp _ IH]; intros Hin Hn; [set_solver| |].
  - apply elem_of_cons in Hin as [->|Hin]; [set_solver|].
    destruct (IH Hin Hn) as (x & ? & ?). set_solver.
  - apply elem_of_cons in Hin as [->|Hin]; [done|].
    destruct (IH Hin Hn) as (x & ? & ?). set_solver.
Qed.

Lemma thin_keys b b' g : thin R P b b' g -> sublist (map e_key b') (map e_key b).
Proof.
  induction 1 as [|e e' b b' g He _ IH|]; simpl; [constructor| |by constructor].
  destruct (Rsame _ _ He) as (_ & -> & _). by constructor.
Qed.
End thin.

(** ** The invariant *)

Definition hash_ok (bs : list (list cache_entry)) : Prop :=
  forall h b e, bs !! h = Some b -> e ∈ b -> hash_bucket (e_key e) = h.

(** The chains are those of the keys' hashes and hold a key once; the byte account is exact and
    within the limit; no allocation is live twice, freed twice, or live after it was freed; a
    retired entry still has a reader. *)
Record Inv (c : cache) : Prop := {
  inv_len : length (g_buckets c) = CACHE_BUCKETS;
  inv_hash : hash_ok (g_buckets c);
  inv_keys : Forall (fun b => NoDup (map e_key b)) (g_buckets c);
  inv_total : g_total_bytes c = zsum (map e_len (live c));
  inv_entries : Forall (fun e => 0 < e_len e /\ 0 <= e_pin_count e) (live c);
  inv_retired : Forall (fun e => 0 < e_pin_count e) (g_retired c);
  inv_ids : NoDup (map e_id (live c) ++ freed c);
  inv_next : Forall (fun i => (i < next_id c)%nat) (map e_id (live c) ++ freed c);
  inv_max : 0 <= g_total_bytes c <= g_max_bytes c;
}.

(** A transition that frees [gone] and changes other entries at most by [R]. *)
Record shrink (R : cache_entry -> cache_entry -> Prop) (P : cache_entry -> Prop)
    (c c' : cache) (gone : list cache_entry) : Prop := {
  sh_parts : exists g1 g2, thins R P (g_buckets c) (g_buckets c') g1 /\
               thin R P (g_retired c) (g_retired c') g2 /\ gone ≡ₚ g1 ++ g2;
  sh_total : g_total_bytes c' = g_total_bytes c - zsum (map e_len gone);
  sh_freed : freed c' ≡ₚ map e_id gone ++ freed c;
  sh_retired : Forall (fun e => 0 < e_pin_count e) (g_retired c');
  sh_max : g_max_bytes c' = g_max_bytes c;
  sh_next : next_id c' = next_id c;
}.

Lemma zsum_lens_nonneg (l : list cache_entry) :
  Forall (fun e => 0 < e_len e /\ 0 <= e_pin_count e) l -> 0 <= zsum (map e_len l).
Proof. intros H. apply zsum_nonneg, Forall_map. eapply Forall_impl; [done|]. simpl. lia. Qed.

Section shrink.
Context (R : cache_entry -> cache_entry -> Prop) (P : cache_entry -> Prop).
Context (Rrefl : forall e, R e e) (Rsame : forall e e', R e e' -> same e e').
Context (Rpins : forall e e', R e e' -> 0 <= e_pin_count e -> 0 <= e_pin_count e').

Lemma shrink_thin c c' gone :
  shrink R P c c' gone -> exists g, thin R P (live c) (live c') g /\ gone ≡ₚ g.
Proof.
  intros [(g1 & g2 & H1 & H2 & Hg) _ _ _ _ _]. exists (g1 ++ g2). split; [|done].
  unfold live. apply thins_concat in H1.
  clear - H1 H2. induction H1; simpl; [done| |]; by constructor.
Qed.

(** Every shrinking transition keeps the invariant. *)
Lemma shrink_inv c c' gone : Inv c -> shrink R P c c' gone -> Inv c'.
Proof.
  intros HI Hs. destruct (shrink_thin _ _ _ Hs) as (g & Ht & Hg).
  assert (HE : Forall (fun e => 0 < e_len e /\ 0 <= e_pin_count e) (live c')).
  { apply Forall_forall. intros e' He'.
    destruct (thin_back R P _ _ _ _ Ht He') as (e & He & HR).
    pose proof (proj1 (Forall_forall _ _) (inv_entries _ HI) _ He) as [? ?].
    destruct (Rsame _ _ HR) as (_ & _ & _ & ->). split; [done|]. by eapply Rpins. }
  assert (Hsum : zsum (map e_len (live c)) = zsum (map e_len (live c')) + zsum (map e_len gone)).
  { rewrite (thin_perm R P Rsame e_len _ _ _ ltac:(by intros ?? (?&?&?&?)) Ht), Hg.
    by rewrite zsum_app. }
  assert (Hids : map e_id (live c') ++ freed c' ≡ₚ map e_id (live c) ++ freed c).
  { rewrite (sh_freed _ _ _ _ _ Hs), (thin_perm R P Rsame e_id _ _ _ ltac:(by intros ?? (?&?&?&?)) Ht).
    by rewrite <- app_assoc, Hg. }
  destruct Hs as [(g1 & g2 & H1 & H2 & _) Htot _ Hret Hmax Hnext].
  pose proof (zsum_lens_nonneg _ HE). pose proof (inv_max _ HI). pose proof (inv_total _ HI).
  assert (0 <= zsum (map e_len gone)).
  { apply zsum_lens_nonneg. rewrite Hg. clear - Ht HI.
    pose proof (inv_entries _ HI) as HE. induction Ht; inversion HE; auto. }
  constructor.
  - rewrite (thins_length _ _ _ _ _ H1). apply HI.
  - intros h b' e' Hb' He'. destruct (thins_lookup _ _ _ _ _ _ _ H1 Hb') as (b & g' & Hb & Hbt).
    destruct (thin_back R P _ _ _ _ Hbt He') as (e & He & HR).
    destruct (Rsame _ _ HR) as (_ & -> & _). by eapply (inv_hash _ HI).
  - apply Forall_lookup. intros h b' Hb'.
    destruct (thins_lookup _ _ _ _ _ _ _ H1 Hb') as (b & g' & Hb & Hbt).
    eapply sublist_NoDup; [|by eapply thin_keys].
    by apply (proj1 (Forall_lookup _ _) (inv_keys _ HI) h b).
  - lia.
  - done.
  - done.
  - rewrite Hids. apply HI.
  - rewrite Hids, Hnext. apply HI.
  - lia.
Qed.
End shrink.

(** ** Every operation against the invariant *)

(** Readers keep what they pinned: the allocation stays live, with its contents and pins. *)
Definition protects (c c' : cache) : Prop :=
  forall e, e ∈ live c -> 0 < e_pin_count e -> exists e', e' ∈ live c' /\ same_pinned e e'.

Definition good (c c' : cache) : Prop := Inv c' /\ protects c c'.

Lemma same_pinned_refl e : same_pinned e e.
Proof. split; [done|lia]. Qed.
Lemma same_pinned_same e e' : same_pinned e e' -> same e e'.
Proof. by intros []. Qed.
Lemma same_pinned_pins e e' : same_pinned e e' -> 0 <= e_pin_count e -> 0 <= e_pin_count e'.
Proof. intros []. lia. Qed.
#[local] Hint Resolve same_pinned_refl same_pinned_same same_pinned_pins : core.

#[export] Instance protects_preorder : PreOrder protects.
Proof.
  split.
  - intros c e ? ?. eauto.
  - intros a b c Hab Hbc e He Hp. destruct (Hab e He Hp) as (e' & He' & Hs & Hle).
    destruct (Hbc e' He') as (e'' & He'' & Hs' & ?); [lia|].
    exists e''. split; [done|]. unfold same_pinned, same in *. intuition (congruence || lia).
Qed.

Lemma good_refl c : Inv c -> good c c.
Proof. intros. split; [done|reflexivity]. Qed.

Lemma good_trans a b c : good a b -> (Inv b -> good b c) -> good a c.
Proof. intros [Hb Hab] H. destruct (H Hb) as [? ?]. split; [done|by transitivity b]. Qed.

Lemma shrink_good c c' gone : Inv c -> shrink same_pinned unpinned c c' gone -> good c c'.
Proof.
  intros HI Hs. split.
  - eapply (shrink_inv same_pinned unpinned); eauto.
  - intros e He Hp. destruct (shrink_thin _ _ _ _ _ Hs) as (g & Ht & _).
    eapply thin_forward; eauto. unfold unpinned. lia.
Qed.

Lemma unlink_some P b pre x post :
  unlink P b = Some (pre, x, post) ->
  b = pre ++ x :: post /\ P x = true /\ Forall (fun e => P e = false) pre.
Proof.
  revert pre. induction b as [|e b IH]; intros pre H; simplify_eq/=.
  destruct (P e) eqn:HP; simplify_eq/=; [done|].
  destruct (unlink P b) as [[[pre' x'] post']|]; simplify_eq/=.
  destruct (IH _ eq_refl) as (-> & ? & ?). auto.
Qed.

Lemma unlink_none P b : unlink P b = None -> Forall (fun e => P e = false) b.
Proof.
  induction b as [|e b IH]; intros H; simplify_eq/=; [done|].
  destruct (P e) eqn:HP; simplify_eq/=.
  destruct (unlink P b) as [[[? ?] ?]|]; simplify_eq/=. auto.
Qed.

Lemma unlink_last_some b pre x post :
  unlink_last_unpinned b = Some (pre, x, post) -> b = pre ++ x :: post /\ e_pin_count x = 0.
Proof.
  revert pre. induction b as [|e b IH]; intros pre H; simplify_eq/=.
  destruct (unlink_last_unpinned b) as [[[pre' x'] post']|] eqn:E.
  - simplify_eq. destruct (IH _ eq_refl) as [-> ?]. done.
  - split_if. done.
Qed.

Lemma bucket_cons c h pre x post :
  bucket c h = pre ++ x :: post -> g_buckets c !! h = Some (pre ++ x :: post).
Proof.
  unfold bucket. destruct (_ !! h) as [b|]; simpl; [by intros ->|by destruct pre].
Qed.

Lemma bucket_live c h x : x ∈ bucket c h -> x ∈ live c.
Proof.
  unfold bucket, live. destruct (_ !! h) as [b|] eqn:E; simpl; [|set_solver].
  intros Hx. apply elem_of_app. left. apply list_elem_of_In, in_concat.
  exists b. split; apply list_elem_of_In; [by eapply list_elem_of_lookup_2|done].
Qed.

Lemma live_len c x : Inv c -> x ∈ live c -> 0 < e_len x <= g_total_bytes c.
Proof.
  intros HI Hx. pose proof (inv_entries _ HI) as HE. rewrite (inv_total _ HI).
  apply list_elem_of_split in Hx as (l1 & l2 & Hl). rewrite Hl in *.
  apply Forall_app in HE as [H1 HE]. inversion HE as [|? ? [? ?] H2]; subst.
  apply zsum_lens_nonneg in H1, H2. rewrite map_app, zsum_app. simpl. lia.
Qed.

(** Shrinking by one update or removal in a chain or in the retired list. *)
Section primitives.
Context (R : cache_entry -> cache_entry -> Prop) (P : cache_entry -> Prop).
Context (Rrefl : forall e, R e e).
Variable c : cache.
Hypothesis HI : Inv c.

Lemma shrink_id : shrink R P c c [].
Proof.
  constructor; try done; simpl; [|lia|apply HI].
  exists [], []. split; [by apply thins_refl|]. split; [by apply thin_refl|done].
Qed.

Lemma free_entry_total x : x ∈ live c ->
  (if e_len x <=? g_total_bytes c then g_total_bytes c - e_len x else 0)
  = g_total_bytes c - e_len x.
Proof. intros Hx. apply live_len in Hx; [|done]. destruct (Z.leb_spec (e_len x) (g_total_bytes c)); lia. Qed.

Lemma shrink_bucket_update h pre x x' post :
  bucket c h = pre ++ x :: post -> R x x' ->
  shrink R P c (with_bucket h (pre ++ x' :: post) c) [].
Proof.
  intros Hb HR. apply bucket_cons in Hb. constructor; try done; simpl; [|lia|apply HI].
  exists [], []. split; [|split; [by apply thin_refl|done]].
  eapply thins_insert; [done..|]. by apply thin_update.
Qed.

Lemma shrink_bucket_remove h pre x x' post :
  bucket c h = pre ++ x :: post -> P x -> same x x' ->
  shrink R P c (free_entry x' (with_bucket h (pre ++ post) c)) [x].
Proof.
  intros Hb HP (Hi & _ & _ & Hl).
  assert (Hx : x ∈ live c) by (apply (bucket_live _ h); rewrite Hb; set_solver).
  apply bucket_cons in Hb. constructor; try done; simpl.
  - exists [x], []. split; [|split; [by apply thin_refl|done]].
    eapply thins_insert; [done..|]. by apply thin_remove.
  - rewrite Hl, free_entry_total by done. lia.
  - by rewrite Hi.
  - apply HI.
Qed.

Lemma shrink_retired_update pre x x' post :
  g_retired c = pre ++ x :: post -> R x x' -> 0 < e_pin_count x' ->
  shrink R P c (with_retired (pre ++ x' :: post) c) [].
Proof.
  intros Hb HR Hp. constructor; try done; simpl; [|lia|].
  - exists [], []. split; [by apply thins_refl|]. rewrite Hb. split; [by apply thin_update|done].
  - pose proof (inv_retired _ HI) as Hr. rewrite Hb in Hr. rewrite Forall_app, Forall_cons in *.
    tauto.
Qed.

Lemma shrink_retired_remove pre x x' post :
  g_retired c = pre ++ x :: post -> P x -> same x x' ->
  shrink R P c (free_entry x' (with_retired (pre ++ post) c)) [x].
Proof.
  intros Hb HP (Hi & _ & _ & Hl).
  assert (Hx : x ∈ live c) by (unfold live; rewrite Hb; set_solver).
  constructor; try done; simpl.
  - exists [], [x]. split; [by apply thins_refl|]. rewrite Hb. split; [by apply thin_remove|done].
  - rewrite Hl, free_entry_total by done. lia.
  - by rewrite Hi.
  - pose proof (inv_retired _ HI) as Hr. rewrite Hb in Hr. rewrite Forall_app, Forall_cons in *.
    tauto.
Qed.
End primitives.

Lemma shrink_bump R P c c' g : shrink R P c c' g -> shrink R P c (bump_generation c') g.
Proof. intros []. by constructor. Qed.

(** *** [page_cache_set_internal] *)

Definition absent (key : cstr) (c : cache) : Prop :=
  Forall (fun e => e_key e <> key) (bucket c (hash_bucket key)).

Lemma shrink_absent R P c c' g key :
  (forall e e', R e e' -> same e e') -> shrink R P c c' g -> absent key c -> absent key c'.
Proof.
  intros HR [(g1 & g2 & H1 & _) _ _ _ _ _] Ha. unfold absent, bucket in *.
  destruct (g_buckets c' !! _) as [b'|] eqn:E; [|done]. simpl.
  destruct (thins_lookup _ _ _ _ _ _ _ H1 E) as (b & g' & Hb & Ht). rewrite Hb in Ha. simpl in Ha.
  apply Forall_forall. intros e' He'. destruct (thin_back _ _ _ _ _ _ Ht He') as (e & He & Hee).
  destruct (HR _ _ Hee) as (_ & -> & _). by apply (proj1 (Forall_forall _ _) Ha).
Qed.

Lemma evict_one_shrink c i bs c' :
  Inv c -> (forall j b, bs !! j = Some b -> g_buckets c !! (i + j)%nat = Some b) ->
  evict_one i bs c = Some c' ->
  exists x, forall R, (forall e, R e e) -> shrink R unpinned c c' [x].
Proof.
  intros HI. revert i. induction bs as [|b bs IH]; intros i Hbs H; simplify_eq/=.
  pose proof (Hbs 0%nat b eq_refl) as Hb. rewrite Nat.add_0_r in Hb.
  destruct (unlink_last_unpinned b) as [[[pre x] post]|] eqn:E.
  - simplify_eq. apply unlink_last_some in E as [-> Hp]. exists x.
    intros R Rrefl. apply (shrink_bucket_remove _ _ Rrefl c HI i pre x x post); [|done|done].
    unfold bucket. by rewrite Hb.
  - apply (IH (S i)); [|done]. intros j b' Hj. rewrite <- (Hbs (S j) b' Hj). f_equal. lia.
Qed.

Lemma evict_good fuel len c key :
  Inv c -> good c (evict fuel len c) /\ (absent key c -> absent key (evict fuel len c)).
Proof.
  revert c. induction fuel as [|fuel IH]; intros c HI; simpl.
  { split_if; split; auto using good_refl. }
  destruct (_ && _); [|by split; [apply good_refl|]].
  destruct (evict_one 0 (g_buckets c) c) as [c'|] eqn:E; [|by split; [apply good_refl|]].
  apply evict_one_shrink in E as (x & Hs); [|done|done].
  specialize (Hs same_pinned same_pinned_refl). pose proof (shrink_good _ _ _ HI Hs) as Hg. destruct (IH c') as [Hg' Ha]; [apply Hg|].
  split; [eapply good_trans; eauto|]. intros. eapply Ha, (shrink_absent same_pinned unpinned); eauto.
Qed.

Lemma nodup_mid_key pre x post e :
  NoDup (map e_key (pre ++ x :: post)) -> e ∈ pre ++ post -> e_key e <> e_key x.
Proof.
  rewrite map_app. simpl. intros (H1 & H2 & H3)%NoDup_app He Heq.
  apply NoDup_cons in H3 as [H3 _].
  apply elem_of_app in He as [He|He]; apply (list_elem_of_fmap_2 e_key) in He; rewrite Heq in He.
  - apply (H2 _ He). set_solver.
  - done.
Qed.

Lemma remove_absent c key pre x post :
  Inv c -> e_key x = key -> bucket c (hash_bucket key) = pre ++ x :: post ->
  absent key (with_bucket (hash_bucket key) (pre ++ post) c).
Proof.
  intros HI Hk Hb. pose proof (bucket_cons _ _ _ _ _ Hb) as Hl. unfold absent, bucket. simpl.
  rewrite list_lookup_insert_eq by (by eapply lookup_lt_Some). simpl.
  apply Forall_forall. intros e He. rewrite <- Hk. apply (nodup_mid_key pre x post); [|done].
  by apply (proj1 (Forall_lookup _ _) (inv_keys _ HI) _ _ Hl).
Qed.

(** The static part of the invariant for one rewritten chain. *)
Lemma hash_ok_insert bs h b :
  hash_ok bs -> Forall (fun e => hash_bucket (e_key e) = h) b -> hash_ok (<[h := b]> bs).
Proof.
  intros Hok Hb i b' e Hi He. apply list_lookup_insert_Some in Hi as [(-> & <- & _)|[_ Hi]].
  - by apply (proj1 (Forall_forall _ _) Hb).
  - by eapply Hok.
Qed.

Lemma retire_good c h pre old post :
  Inv c -> bucket c h = pre ++ old :: post -> 0 < e_pin_count old ->
  good c (with_retired (set_expires 0 old :: g_retired c) (with_bucket h (pre ++ post) c)).
Proof.
  intros HI Hb Hp. apply bucket_cons in Hb.
  destruct (concat_insert _ h _ (pre ++ post) Hb) as (rest & H1 & H2).
  set (c' := with_retired _ _).
  assert (Hl : live c ≡ₚ old :: (pre ++ post) ++ rest ++ g_retired c).
  { unfold live. rewrite H1. solve_Permutation. }
  assert (Hl' : live c' ≡ₚ set_expires 0 old :: (pre ++ post) ++ rest ++ g_retired c).
  { unfold live, c'. simpl. rewrite H2. solve_Permutation. }
  assert (Hids : map e_id (live c') ≡ₚ map e_id (live c)) by (rewrite Hl, Hl'; done).
  assert (Hlens : zsum (map e_len (live c')) = zsum (map e_len (live c))) by (rewrite Hl, Hl'; done).
  split.
  - destruct HI as [Hlen Hhash Hkeys Htot Hent Hret Hnd Hnx Hmx]. constructor; simpl.
    + by rewrite length_insert.
    + apply hash_ok_insert; [done|]. apply Forall_forall. intros e He.
      eapply Hhash; [done|]. set_solver.
    + apply Forall_insert; [done|]. pose proof (proj1 (Forall_lookup _ _) Hkeys _ _ Hb) as Hk.
      eapply sublist_NoDup; [exact Hk|]. rewrite !map_app. simpl.
      apply sublist_app; [done|]. by constructor.
    + by rewrite Hlens.
    + rewrite Hl in Hent. rewrite Hl'. inversion Hent; subst. by constructor.
    + by constructor.
    + by rewrite Hids.
    + by rewrite Hids.
    + done.
  - intros e He Hpe. rewrite Hl in He. apply elem_of_cons in He as [->|He].
    + exists (set_expires 0 old). rewrite Hl'. split; [set_solver|]. split; [done|simpl; lia].
    + exists e. rewrite Hl'. split; [set_solver|auto].
Qed.

Lemma drop_old_good c key :
  Inv c -> good c (drop_old (hash_bucket key) key c) /\ absent key (drop_old (hash_bucket key) key c).
Proof.
  intros HI. unfold drop_old.
  destruct (unlink _ _) as [[[pre old] post]|] eqn:E.
  - apply unlink_some in E as (Hb & Hk & _). apply bool_decide_eq_true in Hk.
    pose proof (remove_absent c key pre old post HI Hk Hb) as Ha.
    split_if; split; [by apply retire_good|exact Ha| |exact Ha].
    eapply shrink_good; [done|].
    apply (shrink_bucket_remove _ _ same_pinned_refl c HI _ _ old old _ Hb); [|done].
    unfold unpinned. pose proof (proj1 (Forall_forall _ _) (inv_entries _ HI) old).
    assert (old ∈ live c) by (eapply bucket_live; rewrite Hb; set_solver).
    intuition lia.
  - apply unlink_none in E. split; [by apply good_refl|]. unfold absent.
    eapply Forall_impl; [exact E|]. intros e He. unfold has_key, streq in He. by bool_split.
Qed.

Lemma hash_bucket_range key : (hash_bucket key < CACHE_BUCKETS)%nat.
Proof. unfold hash_bucket, CACHE_BUCKETS. pose proof (Z.mod_pos_bound (djb2 key) 1024). lia. Qed.

Lemma insert_entry_good c key data len expires :
  Inv c -> absent key c -> 0 < len -> g_total_bytes c + len <= g_max_bytes c ->
  good c (insert_entry (hash_bucket key) key data len expires c).
Proof.
  intros HI Ha Hlen Hmax. pose proof (hash_bucket_range key) as Hr. rewrite <- (inv_len _ HI) in Hr.
  apply lookup_lt_is_Some in Hr as [b Hb]. unfold insert_entry. unfold bucket at 1. rewrite Hb.
  unfold absent, bucket in Ha. rewrite Hb in Ha. simpl in Ha |- *.
  set (e := Entry _ _ _ _ _ _). set (c' := Cache _ _ _ _ _ _ _ _).
  destruct (concat_insert _ _ _ (e :: b) Hb) as (rest & H1 & H2).
  assert (Hl : live c' ≡ₚ e :: live c).
  { unfold live, c'. simpl. rewrite H1, H2. done. }
  split.
  - destruct HI as [Hlen' Hhash Hkeys Htot Hent Hret Hnd Hnx Hmx]. constructor; simpl.
    + by rewrite length_insert.
    + apply hash_ok_insert; [done|]. constructor; [done|].
      apply Forall_forall. intros x Hx. by eapply Hhash.
    + apply Forall_insert; [done|]. simpl. apply NoDup_cons.
      split; [|by apply (proj1 (Forall_lookup _ _) Hkeys _ _ Hb)].
      intros (x & Hk & Hx)%list_elem_of_fmap. by apply (proj1 (Forall_forall _ _) Ha x).
    + rewrite Hl. simpl. lia.
    + rewrite Hl. constructor; [simpl; lia|done].
    + done.
    + rewrite Hl. simpl. apply NoDup_cons. split; [|done].
      intros Hin. apply (proj1 (Forall_forall _ _) Hnx) in Hin. lia.
    + rewrite Hl. simpl. constructor; [lia|]. eapply Forall_impl; [exact Hnx|]. simpl. lia.
    + lia.
  - intros x Hx _. exists x. rewrite Hl. split; [set_solver|auto].
Qed.

Lemma page_cache_set_internal_good now key data len ttl gen c :
  Inv c -> 0 <= len -> good c (page_cache_set_internal now key data len ttl gen c).2.
Proof.
  intros HI Hlen. unfold page_cache_set_internal.
  destruct key as [key|], data as [data|]; try by apply good_refl.
  destruct (_ || _) eqn:E1; [by apply good_refl|]. bool_split.
  destruct (_ <? len); [by apply good_refl|]. destruct (_ && _); [by apply good_refl|].
  destruct (drop_old_good c key HI) as [Hg Ha]. cbv zeta.
  set (c1 := drop_old _ _ _) in *.
  destruct (evict_good (entry_count c1) len c1 key (proj1 Hg)) as [Hg2 Ha2].
  set (c2 := evict _ _ _) in *.
  assert (Hg3 : good c c2) by (eapply good_trans; eauto).
  split_if; [done|]. eapply good_trans; [done|]. intros HI2. apply insert_entry_good; auto; lia.
Qed.

(** *** The other operations *)

Lemma page_cache_get_expired_good now key stale c :
  Inv c -> good c (page_cache_get_expired now key stale c).2.
Proof.
  intros HI. unfold page_cache_get_expired. destruct key as [key|]; [|by apply good_refl].
  cbv zeta. destruct (unlink _ _) as [[[pre e] post]|] eqn:E; [|by apply good_refl].
  apply unlink_some in E as (Hb & Hk & _).
  destruct (stale && _); [by apply good_refl|]. destruct (negb _).
  - destruct (_ && _) eqn:E2; [|by apply good_refl]. bool_split.
    eapply shrink_good; [done|]. simpl.
    by apply (shrink_bucket_remove _ _ same_pinned_refl c HI _ _ e e _ Hb).
  - eapply shrink_good; [done|]. simpl.
    apply (shrink_bucket_update _ _ same_pinned_refl c HI _ _ e _ _ Hb).
    split; [done|]. simpl. lia.
Qed.

(** Releasing may drop a pin, and then only the last one of an entry of that key. *)
Definition released (e e' : cache_entry) : Prop :=
  same e e' /\ (0 <= e_pin_count e -> 0 <= e_pin_count e').
Definition last_pin (key : cstr) (e : cache_entry) : Prop := e_key e = key /\ e_pin_count e = 1.

Lemma released_refl e : released e e.
Proof. by split. Qed.

Lemma pinned_key_spec key e :
  pinned_key key e = true -> 0 <= e_pin_count e -> e_key e = key /\ 0 < e_pin_count e.
Proof.
  unfold pinned_key, has_key, streq. intros H ?. bool_split. split; [done|lia].
Qed.

Lemma live_pins c x : Inv c -> x ∈ live c -> 0 <= e_pin_count x.
Proof. intros HI Hx. by apply (proj1 (Forall_forall _ _) (inv_entries _ HI)). Qed.

Lemma page_cache_release_shrink now key c :
  Inv c -> exists gone,
    shrink released (last_pin (default [] key)) c (page_cache_release now key c) gone.
Proof.
  intros HI. unfold page_cache_release.
  destruct key as [key|]; [|exists []; by apply (shrink_id _ _ released_refl)]. cbv zeta. simpl.
  destruct (unlink _ _) as [[[pre e] post]|] eqn:E.
  - apply unlink_some in E as (Hb & Hk & _).
    apply pinned_key_spec in Hk as [Hk Hp];
      [|apply (live_pins c); [done|]; eapply bucket_live; rewrite Hb; set_solver].
    destruct (_ && _) eqn:E2; simpl in E2; bool_split.
    + exists [e]. apply (shrink_bucket_remove _ _ released_refl c HI _ _ e _ _ Hb); [|done].
      split; [done|]. lia.
    + exists []. apply (shrink_bucket_update _ _ released_refl c HI _ _ e _ _ Hb).
      split; [done|]. simpl. lia.
  - clear E. destruct (unlink _ (g_retired c)) as [[[pre e] post]|] eqn:E.
    + apply unlink_some in E as (Hb & Hk & _).
      apply pinned_key_spec in Hk as [Hk Hp];
        [|apply (live_pins c); [done|]; unfold live; rewrite Hb; set_solver].
      destruct (_ =? 0) eqn:E2; simpl in E2; bool_split.
      * exists [e]. apply (shrink_retired_remove _ _ released_refl c HI _ e _ _ Hb); [|done].
        split; [done|]. lia.
      * exists []. apply (shrink_retired_update _ _ released_refl c HI _ e _ _ Hb).
        -- split; [done|]. simpl. lia.
        -- simpl. lia.
    + exists []. by apply (shrink_id _ _ released_refl).
Qed.

Lemma page_cache_delete_good key c : Inv c -> good c (page_cache_delete key c).1.
Proof.
  intros HI. unfold page_cache_delete. destruct key as [key|]; [|by apply good_refl]. cbv zeta.
  assert (Hs : forall c' g, shrink same_pinned unpinned c c' g -> good c (bump_generation c')).
  { intros c' g Hs. eapply shrink_good; [done|]. by apply shrink_bump. }
  simpl. destruct (unlink _ _) as [[[pre e] post]|] eqn:E.
  - apply unlink_some in E as (Hb & Hk & _). destruct (0 <? _) eqn:E2; bool_split; eapply Hs.
    + apply (shrink_bucket_update _ _ same_pinned_refl c HI _ _ e _ _ Hb). by split.
    + apply (shrink_bucket_remove _ _ same_pinned_refl c HI _ _ e e _ Hb); [|done].
      pose proof (live_pins c e HI). unfold unpinned.
      assert (e ∈ live c) by (eapply bucket_live; rewrite Hb; set_solver). intuition lia.
  - eapply Hs. by apply shrink_id.
Qed.

(** Scans over the whole table. *)
Definition nonneg_pins (b : list cache_entry) : Prop :=
  Forall (fun e => 0 < e_len e /\ 0 <= e_pin_count e) b.

Lemma clear_chain_thin b keep rem gone :
  nonneg_pins b -> clear_chain b = (keep, rem, gone) ->
  exists g, thin same_pinned unpinned b keep g /\ gone = map e_id g /\
            rem = zsum (map e_len keep).
Proof.
  intros Hb. revert keep rem gone. induction Hb as [|e b [Hl He] Hb IH]; intros keep rem gone H;
    simplify_eq/=.
  - exists []. split; [constructor|done].
  - destruct (clear_chain b) as [[k r] g0] eqn:E. destruct (IH _ _ _ eq_refl) as (g & Ht & -> & ->).
    split_if.
    + exists g. split; [|done]. by constructor.
    + exists (e :: g). split; [|done]. constructor; [unfold unpinned; lia|done].
Qed.

Lemma clear_chains_thins bs :
  Forall nonneg_pins bs ->
  exists gs, thins same_pinned unpinned bs (map (fun x => (clear_chain x).1.1) bs) gs /\
    concat (map (fun x => (clear_chain x).2) bs) = map e_id gs /\
    zsum (map (fun x => (clear_chain x).1.2) bs)
    = zsum (map e_len (concat (map (fun x => (clear_chain x).1.1) bs))).
Proof.
  induction 1 as [|b bs Hb _ (gs & Ht & Hg & Hr)]; simpl.
  { exists []. split; [constructor|done]. }
  destruct (clear_chain b) as [[k r] g0] eqn:E.
  destruct (clear_chain_thin _ _ _ _ Hb E) as (g & Htb & -> & ->).
  exists (g ++ gs). split; [by constructor|]. simpl.
  rewrite Hg, Hr, !map_app, zsum_app. done.
Qed.

Lemma buckets_pins c : Inv c -> Forall nonneg_pins (g_buckets c).
Proof.
  intros HI. apply Forall_forall. intros b Hb. apply Forall_forall. intros e He.
  apply (proj1 (Forall_forall _ _) (inv_entries _ HI)). unfold live. apply elem_of_app. left.
  apply list_elem_of_In, in_concat. exists b. split; by apply list_elem_of_In.
Qed.

Lemma page_cache_clear_good c : Inv c -> good c (page_cache_clear c).1.
Proof.
  intros HI. destruct (clear_chains_thins _ (buckets_pins c HI)) as (gs & Ht & Hg & Hr).
  eapply (shrink_good _ _ gs); [done|]. apply shrink_bump. rewrite !map_map, Hg. constructor; simpl.
  - exists gs, []. split; [done|]. split; [by apply thin_refl|by rewrite app_nil_r].
  - rewrite Hr, (inv_total _ HI). unfold live. rewrite map_app, zsum_app.
    rewrite (thin_perm same_pinned unpinned same_pinned_same e_len _ _ _
               ltac:(by intros ?? (?&?&?&?)) (thins_concat _ _ _ _ _ Ht)).
    rewrite zsum_app. lia.
  - done.
  - apply HI.
  - done.
  - done.
Qed.

Definition free_all (g : list cache_entry) (c : cache) : cache :=
  fold_left (fun c e => free_entry e c) g c.

Lemma free_all_app g1 g2 c : free_all (g1 ++ g2) c = free_all g2 (free_all g1 c).
Proof. apply fold_left_app. Qed.

(** Freeing entries the byte account covers subtracts exactly their lengths. *)
Lemma free_all_spec g c :
  Forall (fun e => 0 <= e_len e) g -> zsum (map e_len g) <= g_total_bytes c ->
  g_total_bytes (free_all g c) = g_total_bytes c - zsum (map e_len g) /\
  freed (free_all g c) ≡ₚ map e_id g ++ freed c /\
  g_buckets (free_all g c) = g_buckets c /\ g_retired (free_all g c) = g_retired c /\
  g_max_bytes (free_all g c) = g_max_bytes c /\ next_id (free_all g c) = next_id c /\
  g_generation (free_all g c) = g_generation c.
Proof.
  intros Hg. revert c. induction Hg as [|e g He Hg IH]; intros c Hle; simpl in *.
  { repeat split; try done. lia. }
  assert (Hnn : 0 <= zsum (map e_len g)) by (apply zsum_nonneg, Forall_map; done).
  assert (Ht : g_total_bytes (free_entry e c) = g_total_bytes c - e_len e).
  { simpl. destruct (Z.leb_spec (e_len e) (g_total_bytes c)); lia. }
  destruct (IH (free_entry e c)) as (H1 & H2 & H3 & H4 & H5 & H6 & H7); [lia|].
  split_and!; try done; [lia|]. rewrite H2. simpl. by rewrite Permutation_middle.
Qed.

Lemma thin_lens b b' g :
  thin same_pinned unpinned b b' g -> Forall (fun e => 0 <= e_len e) b ->
  Forall (fun e => 0 <= e_len e) b' /\ Forall (fun e => 0 <= e_len e) g.
Proof.
  induction 1 as [|e e' b b' g [(_ & _ & _ & He) _] _ IH|e b b' g _ _ IH]; [done| |];
    rewrite !Forall_cons; intros [? ?]; destruct IH; auto; rewrite ?He; auto.
Qed.

(** What one entry becomes: dropped, marked expired, or left alone. *)
Definition prefix_hit (ps : list cstr) (e : cache_entry) : bool :=
  existsb (fun p => starts_with p (e_key e)) ps.
Definition marked (ps : list cstr) (e : cache_entry) : Prop :=
  prefix_hit ps e = true -> e_expires_at e = 0 /\ 0 < e_pin_count e.

Lemma prefix_chain_thin ps b c :
  nonneg_pins b ->
  exists g, thin same_pinned unpinned b (prefix_chain ps b c).1 g /\
    (prefix_chain ps b c).2 = free_all g c /\ Forall (marked ps) (prefix_chain ps b c).1.
Proof.
  intros Hb. revert c. induction Hb as [|e b [Hl He] Hb IH]; intros c; simpl.
  { exists []. split; [constructor|done]. }
  fold (prefix_hit ps e). destruct (prefix_hit ps e) eqn:Eh; [destruct (0 <? _) eqn:E2; bool_split|].
  - destruct (IH c) as (g & Ht & Hc & Hm). destruct (prefix_chain ps b c) as [k c']; simpl in *.
    exists g. split; [by constructor|]. split; [done|]. by constructor.
  - destruct (IH (free_entry e c)) as (g & Ht & Hc & Hm). exists (e :: g).
    split; [|by split]. constructor; [unfold unpinned; lia|done].
  - destruct (IH c) as (g & Ht & Hc & Hm). destruct (prefix_chain ps b c) as [k c']; simpl in *.
    exists g. split; [constructor; auto|]. split; [done|].
    constructor; [|done]. intros ?; congruence.
Qed.

Lemma prefix_buckets_thins ps bs c :
  Forall nonneg_pins bs ->
  exists g, thins same_pinned unpinned bs (prefix_buckets ps bs c).1 g /\
    (prefix_buckets ps bs c).2 = free_all g c /\
    Forall (Forall (marked ps)) (prefix_buckets ps bs c).1.
Proof.
  intros Hb. revert c. induction Hb as [|b bs Hb _ IH]; intros c; simpl.
  { exists []. split; [constructor|done]. }
  destruct (prefix_chain_thin ps b c Hb) as (g & Ht & Hc & Hm).
  destruct (prefix_chain ps b c) as [k c1]; simpl in *.
  destruct (IH c1) as (gs & Hts & Hcs & Hms).
  destruct (prefix_buckets ps bs c1) as [ks c2]; simpl in *. subst.
  exists (g ++ gs). rewrite free_all_app. split; [by constructor|]. split; [done|by constructor].
Qed.

Definition prefix_list (prefixes : list (option cstr)) : option (list cstr) :=
  mapM (M := option) id (take 8 prefixes).

Lemma page_cache_clear_prefixes_raw_spec ps c :
  Inv c ->
  good c (page_cache_clear_prefixes_raw ps c) /\
  forall l, ps <> [] -> prefix_list ps = Some l ->
    Forall (Forall (marked l)) (g_buckets (page_cache_clear_prefixes_raw ps c)) /\
    g_generation (page_cache_clear_prefixes_raw ps c) = u64 (g_generation c + 1).
Proof.
  intros HI. unfold page_cache_clear_prefixes_raw, prefix_list.
  destruct ps as [|p0 ps]; [split; [by apply good_refl|done]|].
  destruct (mapM id _) as [l|]; [|split; [by apply good_refl|done]].
  destruct (prefix_buckets_thins l _ c (buckets_pins c HI)) as (g & Ht & Hc & Hm).
  destruct (prefix_buckets l (g_buckets c) c) as [bs c1]; simpl in *. subst c1.
  pose proof (thins_concat _ _ _ _ _ Ht) as Htc.
  pose proof (thin_perm same_pinned unpinned same_pinned_same e_len _ _ _
               ltac:(by intros ?? (?&?&?&?)) Htc) as Hperm.
  pose proof (inv_entries _ HI) as Hent. unfold live in Hent. apply Forall_app in Hent as [Hent Hret].
  destruct (thin_lens _ _ _ Htc) as [Hb' Hg'].
  { eapply Forall_impl; [exact Hent|]. simpl. lia. }
  assert (Hsum : g_total_bytes c = zsum (map e_len (concat bs)) + zsum (map e_len g)
                                   + zsum (map e_len (g_retired c))).
  { rewrite (inv_total _ HI). unfold live. rewrite map_app, zsum_app, Hperm, zsum_app. lia. }
  assert (0 <= zsum (map e_len (concat bs))) by (apply zsum_nonneg, Forall_map; done).
  pose proof (zsum_lens_nonneg _ Hret).
  destruct (free_all_spec g c Hg') as (H1 & H2 & H3 & H4 & H5 & H6 & H7); [lia|].
  split.
  - eapply (shrink_good _ _ g); [done|]. apply shrink_bump. constructor; simpl; try done.
    + exists g, []. rewrite H4, app_nil_r. split; [done|]. split; [by apply thin_refl|done].
    + rewrite H4. apply HI.
  - intros l' _ [= <-]. split; [done|]. by rewrite H7.
Qed.

(** ** Histories *)

(** The calls of the other modules, each one critical section. *)
Inductive call :=
| CallSet (now : Z) (key : option cstr) (data : option (list Z)) (len ttl gen : Z)
| CallGet (now : Z) (key : option cstr)
| CallGetStale (now : Z) (key : option cstr)
| CallRelease (now : Z) (key : option cstr)
| CallDelete (key : option cstr)
| CallClear
| CallClearPrefixes (prefixes : list (option cstr)).

Definition run_call (a : call) (c : cache) : cache :=
  match a with
  | CallSet now key data len ttl gen => snd (page_cache_set_internal now key data len ttl gen c)
  | CallGet now key => snd (page_cache_get now key c)
  | CallGetStale now key => snd (page_cache_get_stale now key c)
  | CallRelease now key => page_cache_release now key c
  | CallDelete key => fst (page_cache_delete key c)
  | CallClear => fst (page_cache_clear c)
  | CallClearPrefixes ps => page_cache_clear_prefixes_raw ps c
  end.

Definition run_calls (l : list call) (c : cache) : cache :=
  fold_left (fun c a => run_call a c) l c.

(** [len] is a [size_t]. *)
Definition call_ok (a : call) : Prop :=
  match a with CallSet _ _ _ len _ _ => 0 <= len | _ => True end.

Definition is_release (a : call) : bool := match a with CallRelease _ _ => true | _ => false end.

Lemma run_call_good a c : call_ok a -> is_release a = false -> Inv c -> good c (run_call a c).
Proof.
  destruct a; simpl; intros Hok Hr HI; try done.
  - by apply page_cache_set_internal_good.
  - by apply page_cache_get_expired_good.
  - unfold page_cache_get_stale. destruct (_ <=? _); [by apply good_refl|].
    by apply page_cache_get_expired_good.
  - by apply page_cache_delete_good.
  - by apply page_cache_clear_good.
  - by apply page_cache_clear_prefixes_raw_spec.
Qed.

Lemma run_call_inv a c : call_ok a -> Inv c -> Inv (run_call a c).
Proof.
  intros Hok HI. destruct (is_release a) eqn:Hr; [|by apply run_call_good].
  destruct a; simplify_eq/=. destruct (page_cache_release_shrink now key c HI) as (g & Hs).
  eapply (shrink_inv released); [..|exact Hs]; [by intros ?? []|by intros ?? []|done].
Qed.

Lemma run_calls_inv l c : Forall call_ok l -> Inv c -> Inv (run_calls l c).
Proof.
  intros Hl. revert c. unfold run_calls. induction Hl as [|a l Ha _ IH]; intros c HI; simpl; [done|].
  apply IH. by apply run_call_inv.
Qed.

Lemma concat_replicate_nil {A} n : concat (replicate n (@nil A)) = [].
Proof. by induction n. Qed.

Lemma page_cache_init_inv env swr max0 swr0 : 0 <= max0 -> Inv (page_cache_init env swr max0 swr0).
Proof.
  intros Hm. unfold page_cache_init. set (mb := match env with Some _ => _ | None => _ end).
  assert (0 <= mb).
  { unfold mb. destruct env as [s|]; [|done]. destruct (strtol10 s) as [v r]. split_if; lia. }
  set (ss := match swr with Some _ => _ | None => _ end).
  assert (Hb : forall h b, replicate CACHE_BUCKETS (@nil cache_entry) !! h = Some b -> b = []).
  { intros h b Hb. by apply lookup_replicate in Hb as [-> _]. }
  assert (Hl : live (Cache (replicate CACHE_BUCKETS []) [] 0 mb ss 1 0 []) = []).
  { unfold live. cbn [g_buckets g_retired]. by rewrite concat_replicate_nil. }
  constructor; rewrite ?Hl; cbn [g_buckets g_retired g_total_bytes g_max_bytes freed next_id].
  - apply length_replicate.
  - intros h b e Hh He. apply Hb in Hh as ->. by apply not_elem_of_nil in He.
  - apply Forall_lookup. intros h b Hh. apply Hb in Hh as ->. constructor.
  - done.
  - constructor.
  - constructor.
  - constructor.
  - constructor.
  - done.
Qed.

(** C38: whatever calls the page cache has served since [page_cache_init], its byte account is the
    sum of the lengths of the entries that exist and does not exceed the limit, every key sits
    once in the chain of its hash, and no entry was freed twice or is reachable after it was
    freed. *)
Theorem page_cache_account env swr max0 swr0 l :
  0 <= max0 -> Forall call_ok l ->
  let c := run_calls l (page_cache_init env swr max0 swr0) in
  g_total_bytes c = zsum (map e_len (live c)) /\ g_total_bytes c <= g_max_bytes c /\
  hash_ok (g_buckets c) /\ Forall (fun b => NoDup (map e_key b)) (g_buckets c) /\
  NoDup (map e_id (live c) ++ freed c).
Proof.
  intros Hm Hl. cbv zeta. assert (HI : Inv (run_calls l (page_cache_init env swr max0 swr0))).
  { apply run_calls_inv; [done|by apply page_cache_init_inv]. }
  destruct HI. split_and!; auto. lia.
Qed.

(** A concrete history used by the witnesses. *)
Definition demo_key : cstr := CS "post:a:d=0:m=0:r=guest:u=0:w=1:pg=1".
Definition demo_init : cache := page_cache_init None (Some (CS "30")) (64 * 1024 * 1024) 0.
Definition demo : cache :=
  run_calls [CallSet 100 (Some demo_key) (Some (CS "v1")) 2 10 0; CallGet 101 (Some demo_key)]
    demo_init.

Lemma demo_inv : Inv demo.
Proof.
  apply run_calls_inv; [|by apply page_cache_init_inv].
  constructor; [by vm_compute|]. constructor; [done|constructor].
Qed.

Lemma page_cache_account_witness :
  0 <= 64 * 1024 * 1024 /\
  g_total_bytes (run_calls [CallSet 100 (Some demo_key) (Some (CS "v1")) 2 10 0]
                   (page_cache_init None None (64 * 1024 * 1024) 0)) <= 64 * 1024 * 1024.
Proof.
  split; [lia|].
  apply (page_cache_account None None (64 * 1024 * 1024) 0
           [CallSet 100 (Some demo_key) (Some (CS "v1")) 2 10 0]); [lia|].
  constructor; [simpl; lia|constructor].
Defined.

(** no call other than a release frees, moves or changes an entry that a reader has
    pinned, and a release frees nothing except an entry of its own key with a single pin. *)
Theorem page_cache_readers_protected a c :
  Inv c -> call_ok a ->
  (is_release a = false -> protects c (run_call a c)) /\
  (forall now key e, a = CallRelease now key -> e ∈ live c ->
     ~ (e_key e = default [] key /\ e_pin_count e = 1) ->
     exists e', e' ∈ live (run_call a c) /\ same e e').
Proof.
  intros HI Hok. split.
  - intros Hr. by apply run_call_good.
  - intros now key e -> He Hn. simpl.
    destruct (page_cache_release_shrink now key c HI) as (g & Hs).
    destruct (shrink_thin _ _ _ _ _ Hs) as (g' & Ht & _).
    destruct (thin_forward _ _ _ _ _ _ Ht He Hn) as (e' & ? & []). eauto.
Qed.

Lemma page_cache_readers_protected_witness :
  Inv demo /\
  protects demo (run_call (CallSet 102 (Some demo_key) (Some (CS "v2")) 2 10 0) demo).
Proof.
  split; [exact demo_inv|].
  refine (proj1 (page_cache_readers_protected
    (CallSet 102 (Some demo_key) (Some (CS "v2")) 2 10 0) demo demo_inv _) eq_refl).
  simpl; lia.
Defined.

(** ** Hits after a set *)

Lemma unlink_head P e b : P e = true -> unlink P (e :: b) = Some ([], e, b).
Proof. simpl. by intros ->. Qed.

Lemma bucket_insert_entry c key data len expires :
  Inv c ->
  bucket (insert_entry (hash_bucket key) key data len expires c) (hash_bucket key)
  = Entry (next_id c) key (take (Z.to_nat len) data) len expires 0 :: bucket c (hash_bucket key).
Proof.
  intros HI. pose proof (hash_bucket_range key) as Hr. rewrite <- (inv_len _ HI) in Hr.
  unfold insert_entry, bucket at 1. cbn [g_buckets]. by rewrite list_lookup_insert_eq.
Qed.

Lemma evict_one_count i bs c c' :
  (forall j b, bs !! j = Some b -> g_buckets c !! (i + j)%nat = Some b) ->
  evict_one i bs c = Some c' -> entry_count c = S (entry_count c').
Proof.
  revert i. induction bs as [|b bs IH]; intros i Hbs H; simplify_eq/=.
  pose proof (Hbs 0%nat b eq_refl) as Hb. rewrite Nat.add_0_r in Hb.
  destruct (unlink_last_unpinned b) as [[[pre x] post]|] eqn:E.
  - simplify_eq. apply unlink_last_some in E as [-> _].
    unfold entry_count. simpl. clear - Hb. revert i Hb.
    generalize (g_buckets c). intros l. induction l as [|a l IH]; intros [|i] Hb; simplify_eq/=.
    + rewrite !length_app. simpl. lia.
    + rewrite (IH i Hb). lia.
  - apply (IH (S i)); [|done]. intros j b' Hj. rewrite <- (Hbs (S j) b' Hj). f_equal. lia.
Qed.

Lemma unlink_last_none b :
  unlink_last_unpinned b = None -> Forall (fun e => e_pin_count e <> 0) b.
Proof.
  induction b as [|e b IH]; intros H; simplify_eq/=; [done|].
  destruct (unlink_last_unpinned b) as [[[? ?] ?]|]; simplify_eq/=. split_if. auto.
Qed.

Lemma evict_one_none i bs c :
  evict_one i bs c = None -> Forall (Forall (fun e => e_pin_count e <> 0)) bs.
Proof.
  revert i. induction bs as [|b bs IH]; intros i H; simplify_eq/=; [done|].
  destruct (unlink_last_unpinned b) as [[[? ?] ?]|] eqn:E; simplify_eq/=.
  constructor; [by apply unlink_last_none|by eapply IH].
Qed.

Lemma entry_count_0 c : entry_count c = 0%nat -> concat (g_buckets c) = [].
Proof.
  unfold entry_count. induction (g_buckets c) as [|b bs IH]; simpl; [done|].
  intros H. destruct b; simpl in H; [|lia]. apply IH. lia.
Qed.

(** The eviction loop stops by itself: either there is room, or everything left is pinned. *)
Lemma evict_done fuel len c :
  Inv c -> (entry_count c <= fuel)%nat ->
  let c' := evict fuel len c in
  g_total_bytes c' + len <= g_max_bytes c' \/ Forall (fun e => e_pin_count e <> 0) (live c').
Proof.
  revert c. induction fuel as [|fuel IH]; intros c HI Hf; simpl.
  - assert (Hl : live c = g_retired c).
    { unfold live. by rewrite entry_count_0 by lia. }
    right. destruct (_ && _); rewrite Hl; eapply Forall_impl; try apply (inv_retired _ HI); simpl; lia.
  - destruct (_ && _) eqn:E.
    + bool_split. destruct (evict_one 0 (g_buckets c) c) as [c'|] eqn:E1.
      * pose proof (evict_one_count 0 _ _ _ ltac:(done) E1).
        apply evict_one_shrink in E1 as (x & Hs); [|done|done].
        specialize (Hs same_pinned same_pinned_refl). apply IH; [by eapply shrink_good|lia].
      * apply evict_one_none in E1. right. unfold live. apply Forall_app. split.
        -- by apply Forall_concat.
        -- eapply Forall_impl; [apply (inv_retired _ HI)|]. simpl. lia.
    + apply andb_false_iff in E as [E|E]; bool_split; [by left|].
      destruct (decide (live c = [])) as [Hl|Hl]; [right; by rewrite Hl|].
      destruct (live c) as [|x l] eqn:El; [done|].
      assert (Hx : x ∈ live c) by (rewrite El; set_solver). apply live_len in Hx; [lia|done].
Qed.

Lemma shrink_eq_forall P c c' g (Q : cache_entry -> Prop) :
  shrink eq P c c' g -> Forall Q (live c) -> Forall Q (live c').
Proof.
  intros Hs HQ. destruct (shrink_thin _ _ _ _ _ Hs) as (g' & Ht & _).
  apply Forall_forall. intros e' He'. destruct (thin_back _ _ _ _ _ _ Ht He') as (e & He & <-).
  by apply (proj1 (Forall_forall _ _) HQ).
Qed.

Lemma evict_forall fuel len c (Q : cache_entry -> Prop) :
  Inv c -> Forall Q (live c) -> Forall Q (live (evict fuel len c)).
Proof.
  revert c. induction fuel as [|fuel IH]; intros c HI HQ; simpl; [by destruct (_ && _)|].
  destruct (_ && _); [|done]. destruct (evict_one 0 (g_buckets c) c) as [c'|] eqn:E; [|done].
  apply evict_one_shrink in E as (x & Hs); [|done|done]. apply IH.
  - eapply (shrink_good _ _ [x]); [done|]. apply Hs. apply same_pinned_refl.
  - eapply (shrink_eq_forall unpinned); [by apply Hs|done].
Qed.

Lemma drop_old_unpinned c h key :
  Inv c -> Forall unpinned (live c) -> Forall unpinned (live (drop_old h key c)).
Proof.
  intros HI HQ. unfold drop_old. destruct (unlink _ _) as [[[pre old] post]|] eqn:E; [|done].
  apply unlink_some in E as (Hb & _ & _).
  assert (Hp : unpinned old).
  { apply (proj1 (Forall_forall _ _) HQ), (bucket_live _ h). rewrite Hb. set_solver. }
  split_if; [unfold unpinned in Hp; lia|].
  eapply (shrink_eq_forall unpinned); [|done].
  by apply (shrink_bucket_remove eq unpinned (@eq_refl _) c HI _ _ old old _ Hb).
Qed.

Lemma evict_one_params i bs c c' : evict_one i bs c = Some c' -> g_max_bytes c' = g_max_bytes c.
Proof.
  revert i. induction bs as [|b bs IH]; intros i E; simplify_eq/=.
  destruct (unlink_last_unpinned b) as [[[? ?] ?]|]; [by simplify_eq|eauto].
Qed.

Lemma evict_params fuel len c : g_max_bytes (evict fuel len c) = g_max_bytes c.
Proof.
  revert c. induction fuel as [|fuel IH]; intros c; simpl; [by destruct (_ && _)|].
  destruct (_ && _); [|done]. destruct (evict_one 0 (g_buckets c) c) as [c'|] eqn:E; [|done].
  rewrite IH. by eapply evict_one_params.
Qed.

Lemma drop_old_params h key c : g_max_bytes (drop_old h key c) = g_max_bytes c.
Proof. unfold drop_old. destruct (unlink _ _) as [[[? ?] ?]|]; [|done]. by destruct (0 <? _). Qed.

Lemma page_cache_get_head now key h e b c :
  h = hash_bucket key -> bucket c h = e :: b -> e_key e = key -> now < e_expires_at e ->
  fst (page_cache_get now (Some key) c)
  = Some (Hit (e_id e) (e_data e) (e_len e) (u32 (e_expires_at e - now))).
Proof.
  intros -> Hb Hk He. unfold page_cache_get, page_cache_get_expired. rewrite Hb, unlink_head.
  - destruct (Z.leb_spec (e_expires_at e) now); [lia|]. done.
  - unfold has_key, streq. by apply bool_decide_eq_true.
Qed.

(** a page of at most a quarter of the limit, stored while no reader holds a pin, always
    gets in (the eviction loop ends with enough room), the account stays within the limit, and
    until it expires a lookup of its key returns exactly its bytes and its remaining time. *)
Theorem page_cache_set_then_get now now' key data len ttl c :
  Inv c -> Forall unpinned (live c) ->
  0 < len <= g_max_bytes c / 4 -> 0 < ttl < 2 ^ 32 -> now <= now' < now + ttl ->
  exists c', page_cache_set now (Some key) (Some data) len ttl c = (true, c') /\
    g_total_bytes c' <= g_max_bytes c /\
    exists id, fst (page_cache_get now' (Some key) c')
               = Some (Hit id (take (Z.to_nat len) data) len (now + ttl - now')).
Proof.
  intros HI Hu Hlen Httl Hnow. unfold page_cache_set, page_cache_set_internal.
  replace (_ || _) with false by (destruct (Z.eqb_spec len 0), (Z.eqb_spec ttl 0); auto; lia).
  destruct (Z.ltb_spec (g_max_bytes c / 4) len); [lia|]. cbv zeta.
  destruct (drop_old_good c key HI) as [Hg Ha].
  pose proof (drop_old_unpinned c (hash_bucket key) key HI Hu) as Hu1.
  pose proof (drop_old_params (hash_bucket key) key c) as Hm1.
  set (c1 := drop_old _ _ _) in *. destruct Hg as [HI1 _].
  pose proof (evict_done (entry_count c1) len c1 HI1 ltac:(lia)) as Hd. cbv zeta in Hd.
  destruct (evict_good (entry_count c1) len c1 key HI1) as [[HI2 _] Ha2].
  pose proof (evict_forall (entry_count c1) len c1 unpinned HI1 Hu1) as Hu2.
  pose proof (evict_params (entry_count c1) len c1) as Hm2.
  set (c2 := evict _ _ _) in *. specialize (Ha2 Ha).
  assert (Hroom : g_total_bytes c2 + len <= g_max_bytes c2).
  { destruct Hd as [?|Hp]; [done|]. rewrite (inv_total _ HI2).
    assert (live c2 = []) as ->.
    { destruct (live c2) as [|x l]; [done|]. inversion Hp; inversion Hu2; subst. done. }
    simpl. pose proof (Z.mul_div_le (g_max_bytes c) 4). pose proof (inv_max _ HI). lia. }
  change (0 =? 0) with true. cbn [negb andb].
  destruct (Z.ltb_spec (g_max_bytes c2) (g_total_bytes c2 + len)); [lia|].
  eexists. split; [reflexivity|]. split; [simpl; lia|].
  eexists. erewrite page_cache_get_head; [|done|by apply bucket_insert_entry|done|].
  - simpl. repeat f_equal. apply u32_small. lia.
  - simpl. lia.
Qed.

Lemma page_cache_set_then_get_witness :
  Inv demo_init /\
  exists c', page_cache_set 100 (Some demo_key) (Some (CS "v1")) 2 10 demo_init = (true, c') /\
    g_total_bytes c' <= g_max_bytes demo_init /\
    exists id, fst (page_cache_get 105 (Some demo_key) c') = Some (Hit id (CS "v1") 2 5).
Proof.
  assert (HI : Inv demo_init) by (apply page_cache_init_inv; lia). split; [exact HI|].
  refine (page_cache_set_then_get 100 105 demo_key (CS "v1") 2 10 demo_init HI _ _ _ _);
    [|vm_compute; intuition congruence|lia|lia].
  replace (live demo_init) with (@nil cache_entry) by (vm_compute; reflexivity). constructor.
Defined.

(** ** Invalidation *)

Lemma starts_with_take n m x r : (n <= m)%nat -> starts_with (take n x) (take m (x ++ r)) = true.
Proof.
  intros Hle. apply starts_with_spec.
  exists (take (n - length x) r ++ drop n (take m (x ++ r))).
  rewrite app_assoc, <- take_app, <- (take_drop n (take m (x ++ r))) at 1.
  by rewrite take_take, Nat.min_l by done.
Qed.

(** An entry under a scanned prefix is no longer served, fresh or stale. *)
Lemma marked_miss ps c now key :
  Forall (Forall (marked ps)) (g_buckets c) -> 0 <= now ->
  existsb (fun p => starts_with p key) ps = true ->
  fst (page_cache_get now (Some key) c) = None /\ fst (page_cache_get_stale now (Some key) c) = None.
Proof.
  intros Hm Hnow Hk.
  assert (Hx : forall stale, fst (page_cache_get_expired now (Some key) stale c) = None).
  { intros stale. unfold page_cache_get_expired. cbv zeta.
    destruct (unlink _ _) as [[[pre e] post]|] eqn:E; [|done].
    apply unlink_some in E as (Hb & He & _). apply bool_decide_eq_true in He.
    apply bucket_cons in Hb. pose proof (proj1 (Forall_lookup _ _) Hm _ _ Hb) as Hme.
    apply Forall_app in Hme as [_ Hme]. inversion Hme as [|? ? H1 _]; subst.
    destruct (H1 Hk) as [H0 Hp]. rewrite H0. change (0 =? 0) with true.
    destruct stale; [done|]. simpl. replace (0 <=? now) with true by lia. simpl.
    by destruct (_ && _). }
  split; [apply Hx|]. unfold page_cache_get_stale. destruct (_ <=? _); [done|apply Hx].
Qed.

(** after the invalidation of a post, no key a reader can build for that post, for the home
    page or for the list of boards is served any more, fresh or stale, and a page that was
    rendered from the old content is refused by the conditional store. *)
Theorem page_cache_invalidate_post_spec c slug now out_len dark mobile role uid w pg data len ttl key' :
  Inv c -> 0 <= now -> (256 <= out_len)%nat -> 0 < page_cache_generation c < 2 ^ 64 ->
  let c' := fst (page_cache_invalidate_post (Some slug) c) in
  let miss key := fst (page_cache_get now (Some key) c') = None /\
                  fst (page_cache_get_stale now (Some key) c') = None in
  miss (page_cache_key_post out_len (Some slug) dark mobile role uid w pg) /\
  miss (page_cache_key_home out_len dark mobile role uid w pg) /\
  miss (page_cache_key_board_list out_len dark mobile role uid w pg) /\
  page_cache_set_if_generation now key' data len ttl (page_cache_generation c) c' = (false, c').
Proof.
  intros HI Hnow Hout Hgen. cbv zeta. unfold page_cache_invalidate_post. cbn [fst].
  set (prefix := snprintf_s 256 _).
  destruct (page_cache_clear_prefixes_raw_spec
              [Some prefix; Some (CS "home:"); Some (CS "board:"); Some (CS "boards:")] c HI)
    as [_ Hspec].
  destruct (Hspec [prefix; CS "home:"; CS "board:"; CS "boards:"] ltac:(done) eq_refl) as [Hm Hg].
  set (c' := page_cache_clear_prefixes_raw _ _) in *.
  split; [|split; [|split]].
  - apply (marked_miss _ _ _ _ Hm Hnow). cbn [existsb]. apply orb_true_iff. left.
    unfold page_cache_key_post, prefix, snprintf_s. cbn [default].
    assert (Hx : forall P C T : cstr, P ++ slug ++ C ++ T = (P ++ slug ++ C) ++ T)
      by (intros; by rewrite <- !app_assoc).
    rewrite Hx. apply starts_with_take. lia.
  - apply (marked_miss _ _ _ _ Hm Hnow). cbn [existsb]. rewrite !orb_true_iff. right; left.
    unfold page_cache_key_home, snprintf_s. apply (starts_with_take 5 _ (CS "home:")). lia.
  - apply (marked_miss _ _ _ _ Hm Hnow). cbn [existsb]. rewrite !orb_true_iff. right; right; right; left.
    unfold page_cache_key_board_list, snprintf_s. apply (starts_with_take 7 _ (CS "boards:")). lia.
  - unfold page_cache_set_if_generation, page_cache_set_internal, page_cache_generation in *.
    destruct key' as [k|], data as [d|]; try done. destruct (_ || _); [done|].
    destruct (_ <? _); [done|]. rewrite Hg.
    replace (negb (_ =? 0) && _) with true; [done|]. symmetry.
    apply andb_true_iff. unfold u64. split; [lia|].
    apply negb_true_iff, Z.eqb_neq. destruct (decide (g_generation c + 1 = 2 ^ 64)) as [->|].
    + rewrite Z_mod_same_full. lia.
    + rewrite Z.mod_small; lia.
Qed.

Lemma page_cache_invalidate_post_spec_witness :
  Inv demo /\
  fst (page_cache_get 101 (Some (page_cache_key_post 512 (Some (CS "a")) false false None 0 1 1))
         (fst (page_cache_invalidate_post (Some (CS "a")) demo))) = None.
Proof.
  split; [exact demo_inv|].
  refine (proj1 (proj1 (page_cache_invalidate_post_spec demo (CS "a") 101 512 false false None 0 1 1
    None 0 0 None demo_inv _ _ _))); [lia|lia|vm_compute; intuition congruence].
Defined.

(** releases go by key, so a reader of an old page takes the pin of the reader of its
    replacement: reader A pins version 1, version 2 replaces it, reader B pins version 2, A
    releases, and storing version 3 then frees version 2 while B still reads it; version 1
    stays allocated. *)
Theorem page_cache_release_frees_reader :
  let k := Some demo_key in
  let '(a, c1) := page_cache_get 101 k
    (run_calls [CallSet 100 k (Some (CS "v1")) 2 10 0] demo_init) in
  let '(b, c2) := page_cache_get 102 k (run_calls [CallSet 101 k (Some (CS "v2")) 2 10 0] c1) in
  let c3 := run_calls [CallRelease 103 k; CallSet 103 k (Some (CS "v3")) 2 10 0] c2 in
  exists ha hb, a = Some ha /\ b = Some hb /\ hit_data ha = CS "v1" /\ hit_data hb = CS "v2" /\
    hit_id hb ∈ freed c3 /\ hit_id ha ∉ freed c3.
Proof.
  vm_compute. do 2 eexists. split_and!; try reflexivity.
  - left.
  - intros H. inversion H as [|? ? ? H']. inversion H'.
Qed.
