(* ===== verification/Reqshare.v ===== *)
(** * Request coalescing and write locks (src/src/utils/reqshare.c)

    One mutex guards two hash tables: the coalescing table, where the first request of a key
    (the leader) renders and the others sleep until it publishes, and the set of keys being
    written.  A critical section is one transition.  A sleeping request holds a pointer to its
    entry across the sleep; entries therefore carry the identity of their allocation, unlinked
    entries that still have sleepers stay in [g_limbo], and the state logs what was freed, so
    that the recheck after a sleep can find its entry gone.  The clock does not advance inside
    a critical section; allocation failure is not modelled. *)
From S2P Require Import Prelude CStr.

Definition RS_BUCKETS : nat := 1024.
Definition RS_RESULT_TTL_SEC : Z := 2.
Definition RS_LEADER_TTL_SEC : Z := 5.

Inductive rs_state := RS_IN_PROGRESS | RS_DONE.
#[export] Instance rs_state_eq_dec : EqDecision rs_state.
Proof. solve_decision. Defined.

Record rs_entry := RsEntry {
  e_id : nat;
  e_key : cstr;
  e_state : rs_state;
  e_result : option cstr;
  e_expires_at : Z;
  e_waiters : Z;
  e_unlinked : bool;
}.

Record reqshare := Reqshare {
  g_buckets : list (list rs_entry);
  g_limbo : list rs_entry;       (* unlinked, kept alive by their sleepers *)
  next_id : nat;
  freed : list nat;
}.

Definition hash_bucket (key : cstr) : nat := Z.to_nat (djb2 key `mod` Z.of_nat RS_BUCKETS).
Definition bucket (h : nat) (s : reqshare) : list rs_entry := default [] (g_buckets s !! h).

(** ** Memory *)

Definition all (s : reqshare) : list rs_entry := concat (g_buckets s) ++ g_limbo s.

Definition on_id (i : nat) (f : rs_entry -> rs_entry) (e : rs_entry) : rs_entry :=
  if Nat.eqb (e_id e) i then f e else e.

(** A write through a pointer to entry [i]. *)
Definition update (i : nat) (f : rs_entry -> rs_entry) (s : reqshare) : reqshare :=
  Reqshare (map (map (on_id i f)) (g_buckets s)) (map (on_id i f) (g_limbo s)) (next_id s) (freed s).

Definition add_waiters (n : Z) (e : rs_entry) : rs_entry :=
  RsEntry (e_id e) (e_key e) (e_state e) (e_result e) (e_expires_at e) (e_waiters e + n)
    (e_unlinked e).
Definition finish_entry (r : option cstr) (t : Z) (e : rs_entry) : rs_entry :=
  RsEntry (e_id e) (e_key e) RS_DONE r t (e_waiters e) (e_unlinked e).
Definition mark_unlinked (e : rs_entry) : rs_entry :=
  RsEntry (e_id e) (e_key e) (e_state e) (e_result e) (e_expires_at e) (e_waiters e) true.

Definition not_id (i : nat) (e : rs_entry) : bool := negb (Nat.eqb (e_id e) i).

Definition copy_sstring (src : option cstr) : cstr := default [] src.

(** [free_entry] of an entry that is in no chain. *)
Definition free_entry (e : rs_entry) (s : reqshare) : reqshare :=
  Reqshare (g_buckets s) (List.filter (not_id (e_id e)) (g_limbo s)) (next_id s) (e_id e :: freed s).

Definition unlink_entry (h : nat) (e : rs_entry) (s : reqshare) : reqshare :=
  let bs := <[h := List.filter (not_id (e_id e)) (bucket h s)]> (g_buckets s) in
  if e_waiters e =? 0
  then free_entry e (Reqshare bs (g_limbo s) (next_id s) (freed s))
  else Reqshare bs (mark_unlinked e :: g_limbo s) (next_id s) (freed s).

Definition reqshare_init : reqshare := Reqshare (replicate RS_BUCKETS []) [] 0 [].

Definition reqshare_cleanup (s : reqshare) : reqshare :=
  Reqshare (replicate RS_BUCKETS []) (g_limbo s) (next_id s)
    (map e_id (concat (g_buckets s)) ++ freed s).

(** ** Operations *)

(** What a request learns: a copy of the shared page, that it must render the page itself, or
    that it has to sleep on an entry. *)
Inductive outcome :=
| Served (page : cstr)
| Leader
| Sleep (entry : nat).

Definition is_key (key : cstr) (e : rs_entry) : bool := streq (e_key e) key.

Definition new_entry (now : Z) (key : cstr) (s : reqshare) : reqshare :=
  let h := hash_bucket key in
  Reqshare
    (<[h := RsEntry (next_id s) key RS_IN_PROGRESS None (now + RS_LEADER_TTL_SEC) 0 false
            :: bucket h s]> (g_buckets s))
    (g_limbo s) (S (next_id s)) (freed s).

(** [reqshare_wait_or_start] up to its first sleep. *)
Definition reqshare_wait_or_start (now : Z) (key : cstr) (s : reqshare) : outcome * reqshare :=
  let h := hash_bucket key in
  match List.find (is_key key) (bucket h s) with
  | None => (Leader, new_entry now key s)
  | Some e =>
      match e_state e with
      | RS_DONE =>
          if now <? e_expires_at e then (Served (copy_sstring (e_result e)), s)
          else (Leader, new_entry now key (unlink_entry h e s))
      | RS_IN_PROGRESS => (Sleep (e_id e), update (e_id e) (add_waiters 1) s)
      end
  end.

Definition find_id (i : nat) (l : list rs_entry) : option rs_entry :=
  List.find (fun e => Nat.eqb (e_id e) i) l.

(** After the loop: the sleeper [key] leaves entry [e] (already rechecked). *)
Definition leave_entry (now : Z) (key : cstr) (e : rs_entry) (timed_out : bool) (s : reqshare)
  : outcome * reqshare :=
  let e := add_waiters (-1) e in
  let s := update (e_id e) (add_waiters (-1)) s in
  if e_unlinked e then
    (Leader, new_entry now key (if e_waiters e =? 0 then free_entry e s else s))
  else if negb timed_out && bool_decide (e_state e = RS_DONE) && (now <? e_expires_at e)
  then (Served (copy_sstring (e_result e)), s)
  else
    let h := hash_bucket key in
    let s := if existsb (fun x => Nat.eqb (e_id x) (e_id e)) (bucket h s)
             then unlink_entry h e s else s in
    (Leader, new_entry now key s).

(** One recheck after a one-second sleep; [None]: the entry was freed under the sleeper. *)
Definition reqshare_wake (now : Z) (key : cstr) (i : nat) (s : reqshare)
  : option (outcome * reqshare) :=
  match find_id i (all s) with
  | None => None
  | Some e =>
      if e_unlinked e || negb (bool_decide (e_state e = RS_IN_PROGRESS)) then
        Some (leave_entry now key e false s)
      else if e_expires_at e <? now then
        let f x := finish_entry (e_result x) now x in
        Some (leave_entry now key (f e) true (update i f s))
      else Some (Sleep i, s)
  end.

Definition reqshare_try_start (now : Z) (key : option cstr) (s : reqshare) : bool * reqshare :=
  match key with
  | None => (false, s)
  | Some key =>
      let h := hash_bucket key in
      match List.find (is_key key) (bucket h s) with
      | Some e =>
          if now <? e_expires_at e then (false, s)
          else (true, new_entry now key (unlink_entry h e s))
      | None => (true, new_entry now key s)
      end
  end.

Definition reqshare_finish (now : Z) (key : option cstr) (html : option cstr) (s : reqshare)
  : reqshare :=
  match key with
  | None => s
  | Some key =>
      match List.find (is_key key) (bucket (hash_bucket key) s) with
      | Some e =>
          match e_state e with
          | RS_IN_PROGRESS =>
              update (e_id e) (finish_entry (Some (copy_sstring html)) (now + RS_RESULT_TTL_SEC)) s
          | RS_DONE => s
          end
      | None => s
      end
  end.

(** ** Write locks *)

Definition WL_BUCKETS : nat := 256.
Abbreviation wl_table := (list (list cstr)) (only parsing).

Definition wl_hash (key : cstr) : nat := Z.to_nat (djb2 key `mod` Z.of_nat WL_BUCKETS).
Definition wl_bucket (key : cstr) (t : wl_table) : list cstr := default [] (t !! wl_hash key).

Definition wl_init : wl_table := replicate WL_BUCKETS [].

Definition reqshare_write_lock_try (key : option cstr) (t : wl_table) : bool * wl_table :=
  match key with
  | None => (true, t)
  | Some key =>
      if existsb (fun k => streq k key) (wl_bucket key t) then (false, t)
      else (true, <[wl_hash key := key :: wl_bucket key t]> t)
  end.

(** Remove the first entry of the chain with that key. *)
Fixpoint wl_remove (key : cstr) (b : list cstr) : list cstr :=
  match b with
  | [] => []
  | k :: b' => if streq k key then b' else k :: wl_remove key b'
  end.

Definition reqshare_write_lock_release (key : option cstr) (t : wl_table) : wl_table :=
  match key with
  | None => t
  | Some key => <[wl_hash key := wl_remove key (wl_bucket key t)]> t
  end.

(** ** Memory facts *)

Definition ids (s : reqshare) : list nat := map e_id (all s).

Lemma on_id_id i f e : (forall x, e_id (f x) = e_id x) -> e_id (on_id i f e) = e_id e.
Proof. intros Hf. unfold on_id. by destruct (Nat.eqb _ _). Qed.

Lemma all_update i f s : all (update i f s) = map (on_id i f) (all s).
Proof. unfold all, update. simpl. by rewrite map_app, concat_map. Qed.

Lemma ids_update i f s : (forall x, e_id (f x) = e_id x) -> ids (update i f s) = ids s.
Proof.
  intros Hf. unfold ids. rewrite all_update, map_map. apply map_ext. intros. by apply on_id_id.
Qed.

Lemma Forall_update i f s (Q Q' : rs_entry -> Prop) :
  Forall Q (all s) -> (forall e, Q e -> e_id e = i -> Q' (f e)) ->
  (forall e, Q e -> e_id e <> i -> Q' e) -> Forall Q' (all (update i f s)).
Proof.
  intros HQ H1 H2. rewrite all_update. apply Forall_map. eapply Forall_impl; [exact HQ|].
  intros e He. simpl. unfold on_id. destruct (Nat.eqb_spec (e_id e) i); auto.
Qed.

Lemma find_id_spec i l e : find_id i l = Some e -> e ∈ l /\ e_id e = i.
Proof.
  intros H. apply List.find_some in H as [H1 H2]. split; [by apply list_elem_of_In|].
  by apply Nat.eqb_eq.
Qed.

Lemma find_id_none i l : find_id i l = None -> i ∉ map e_id l.
Proof.
  intros H Hin. apply list_elem_of_fmap in Hin as (e & -> & He).
  pose proof (List.find_none _ _ H e ltac:(by apply list_elem_of_In)) as Hn. simpl in Hn.
  by rewrite Nat.eqb_refl in Hn.
Qed.

Lemma filter_not_id i (l : list rs_entry) e :
  NoDup (map e_id l) -> e ∈ l -> e_id e = i -> l ≡ₚ e :: List.filter (not_id i) l.
Proof.
  intros Hnd He <-. induction l as [|a l IH]; [set_solver|]. simpl in Hnd.
  apply NoDup_cons in Hnd as [Ha Hnd]. simpl. unfold not_id at 1.
  apply elem_of_cons in He as [->|He].
  - rewrite Nat.eqb_refl. simpl. constructor. clear - Ha.
    induction l as [|b l IH]; simpl; [done|]. unfold not_id at 1.
    destruct (Nat.eqb_spec (e_id b) (e_id a)); simpl in *; [set_solver|].
    constructor. apply IH. set_solver.
  - destruct (Nat.eqb_spec (e_id a) (e_id e)) as [Heq|]; simpl.
    + exfalso. apply Ha. rewrite Heq. by apply list_elem_of_fmap_2.
    + rewrite (IH Hnd He) at 1. apply Permutation_swap.
Qed.

Lemma filter_not_id_absent i (l : list rs_entry) :
  i ∉ map e_id l -> List.filter (not_id i) l = l.
Proof.
  induction l as [|a l IH]; simpl; [done|]. intros Hn. unfold not_id at 1.
  destruct (Nat.eqb_spec (e_id a) i); simpl; [set_solver|]. f_equal. apply IH. set_solver.
Qed.

Lemma bucket_lookup s h e : e ∈ bucket h s -> g_buckets s !! h = Some (bucket h s).
Proof. unfold bucket. destruct (_ !! h); simpl; [done|set_solver]. Qed.

(** Unlinking moves an entry to the limbo or to the freed ones. *)
Lemma unlink_all s h e :
  NoDup (ids s) -> e ∈ bucket h s ->
  if e_waiters e =? 0
  then all s ≡ₚ e :: all (unlink_entry h e s) /\ freed (unlink_entry h e s) = e_id e :: freed s
       /\ g_limbo (unlink_entry h e s) = g_limbo s
  else (exists rest, all s ≡ₚ e :: rest /\ all (unlink_entry h e s) ≡ₚ mark_unlinked e :: rest) /\
       freed (unlink_entry h e s) = freed s /\
       g_limbo (unlink_entry h e s) = mark_unlinked e :: g_limbo s.
Proof.
  intros Hnd He. pose proof (bucket_lookup _ _ _ He) as Hb.
  destruct (concat_insert _ h _ (List.filter (not_id (e_id e)) (bucket h s)) Hb) as (rest & H1 & H2).
  assert (Hall : all s ≡ₚ e :: (List.filter (not_id (e_id e)) (bucket h s) ++ rest) ++ g_limbo s).
  { unfold all. rewrite H1. rewrite (filter_not_id (e_id e) (bucket h s) e) at 1; [done| |done|done].
    unfold ids, all in Hnd. rewrite H1, !map_app in Hnd. by apply NoDup_app in Hnd as [[? _]%NoDup_app _]. }
  unfold unlink_entry. destruct (e_waiters e =? 0); simpl.
  - assert (Hl : List.filter (not_id (e_id e)) (g_limbo s) = g_limbo s).
    { apply filter_not_id_absent. unfold ids in Hnd. rewrite Hall in Hnd. simpl in Hnd.
      apply NoDup_cons in Hnd as [Hnd _]. rewrite map_app in Hnd. set_solver. }
    unfold all. simpl. rewrite Hl. split; [|done]. rewrite H2. by rewrite Hall.
  - split; [|done]. exists ((List.filter (not_id (e_id e)) (bucket h s) ++ rest) ++ g_limbo s).
    split; [done|]. unfold all. simpl. rewrite H2. by rewrite Permutation_middle.
Qed.

Lemma new_entry_all now key s :
  length (g_buckets s) = RS_BUCKETS ->
  all (new_entry now key s)
  ≡ₚ RsEntry (next_id s) key RS_IN_PROGRESS None (now + RS_LEADER_TTL_SEC) 0 false :: all s.
Proof.
  intros Hlen. unfold new_entry, all. simpl.
  assert (Hr : (hash_bucket key < length (g_buckets s))%nat).
  { rewrite Hlen. unfold hash_bucket, RS_BUCKETS. pose proof (Z.mod_pos_bound (djb2 key) 1024). lia. }
  apply lookup_lt_is_Some in Hr as [b Hb]. unfold bucket. rewrite Hb. simpl.
  destruct (concat_insert _ _ _ (RsEntry (next_id s) key RS_IN_PROGRESS None
              (now + RS_LEADER_TTL_SEC) 0 false :: b) Hb) as (rest & H1 & H2).
  by rewrite H1, H2.
Qed.

(** ** The memory invariant, for [w i] threads registered on entry [i] *)

Record Mem (s : reqshare) (w : nat -> Z) : Prop := {
  mem_len : length (g_buckets s) = RS_BUCKETS;
  mem_nodup : NoDup (ids s ++ freed s);
  mem_next : Forall (fun i => (i < next_id s)%nat) (ids s ++ freed s);
  mem_waiters : Forall (fun e => e_waiters e = w (e_id e)) (all s);
  mem_linked : Forall (Forall (fun e => e_unlinked e = false)) (g_buckets s);
  mem_limbo : Forall (fun e => e_unlinked e = true /\ 0 < w (e_id e)) (g_limbo s);
  mem_held : forall i, 0 < w i -> i ∈ ids s;
  mem_nonneg : forall i, 0 <= w i;
}.

Definition bump (i : nat) (n : Z) (w : nat -> Z) : nat -> Z :=
  fun j => if Nat.eqb j i then w j + n else w j.

Lemma bump_eq i n w : bump i n w i = w i + n.
Proof. unfold bump. by rewrite Nat.eqb_refl. Qed.
Lemma bump_ne i n w j : j <> i -> bump i n w j = w j.
Proof. intros H. unfold bump. destruct (Nat.eqb_spec j i); done. Qed.

Section mem.
Variables (s : reqshare) (w : nat -> Z).
Hypothesis HM : Mem s w.

Lemma mem_linked_bucket h e : e ∈ bucket h s -> e ∈ all s /\ e_unlinked e = false.
Proof.
  intros He. pose proof (bucket_lookup _ _ _ He) as Hb. split.
  - unfold all. apply elem_of_app. left. apply list_elem_of_In, in_concat. exists (bucket h s).
    split; apply list_elem_of_In; [by eapply list_elem_of_lookup_2|done].
  - pose proof (proj1 (Forall_lookup _ _) (mem_linked _ _ HM) _ _ Hb) as HF.
    by apply (proj1 (Forall_forall _ _) HF).
Qed.

Lemma mem_update i f :
  (forall x, e_id (f x) = e_id x) -> (forall x, e_unlinked (f x) = e_unlinked x) ->
  (forall x, e_waiters (f x) = e_waiters x) -> Mem (update i f s) w.
Proof.
  intros Hid Hun Hw. destruct HM as [H1 H2 H3 H4 H5 H6 H7 H8].
  constructor; rewrite ?(ids_update i f s Hid); try done.
  - simpl. by rewrite length_map.
  - eapply Forall_update; [exact H4|..]; simpl.
    + intros e He Hi. by rewrite Hw, Hid.
    + done.
  - simpl. apply Forall_map. eapply Forall_impl; [exact H5|]. intros b Hb. simpl.
    apply Forall_map. eapply Forall_impl; [exact Hb|]. intros e He. simpl.
    unfold on_id. destruct (Nat.eqb _ _); [by rewrite Hun|done].
  - simpl. apply Forall_map. eapply Forall_impl; [exact H6|]. intros e [He1 He2]. simpl.
    rewrite on_id_id by done. unfold on_id. destruct (Nat.eqb _ _); [by rewrite Hun|done].
Qed.

(** Registering and unregistering a sleeper. *)
Lemma mem_add_waiters i n :
  i ∈ ids s -> 0 <= w i + n -> (i ∈ map e_id (g_limbo s) -> 0 < w i + n) ->
  Mem (update i (add_waiters n) s) (bump i n w).
Proof.
  intros Hin Hn Hl. destruct HM as [H1 H2 H3 H4 H5 H6 H7 H8].
  assert (Hid : forall x, e_id (add_waiters n x) = e_id x) by done.
  constructor; rewrite ?(ids_update i _ s Hid); try done.
  - simpl. by rewrite length_map.
  - eapply Forall_update; [exact H4|..]; simpl.
    + intros e He <-. rewrite bump_eq. lia.
    + intros e He Hne. by rewrite bump_ne.
  - simpl. apply Forall_map. eapply Forall_impl; [exact H5|]. intros b Hb. simpl.
    apply Forall_map. eapply Forall_impl; [exact Hb|]. intros e He. simpl.
    unfold on_id. by destruct (Nat.eqb _ _).
  - simpl. apply Forall_map. apply Forall_forall. intros e He.
    pose proof (proj1 (Forall_forall _ _) H6 _ He) as [He1 He2]. simpl.
    rewrite on_id_id by done. split; [unfold on_id; by destruct (Nat.eqb _ _)|].
    destruct (decide (e_id e = i)) as [<-|]; [rewrite bump_eq|by rewrite bump_ne].
    apply Hl. by apply list_elem_of_fmap_2.
  - intros j Hj. destruct (decide (j = i)) as [->|]; [done|]. apply H7. by rewrite bump_ne in Hj.
  - intros j. destruct (decide (j = i)) as [->|]; [by rewrite bump_eq|by rewrite bump_ne].
Qed.

Lemma mem_unlink h e : e ∈ bucket h s -> Mem (unlink_entry h e s) w.
Proof.
  intros He. destruct (mem_linked_bucket _ _ He) as [Hall Hun].
  pose proof (bucket_lookup _ _ _ He) as Hb.
  destruct HM as [H1 H2 H3 H4 H5 H6 H7 H8].
  assert (Hnd : NoDup (ids s)) by (by apply NoDup_app in H2 as [? _]).
  pose proof (unlink_all s h e Hnd He) as Hu.
  assert (Hbs : length (g_buckets (unlink_entry h e s)) = RS_BUCKETS /\
                Forall (Forall (fun e => e_unlinked e = false)) (g_buckets (unlink_entry h e s))).
  { replace (g_buckets (unlink_entry h e s))
      with (<[h := List.filter (not_id (e_id e)) (bucket h s)]> (g_buckets s))
      by (unfold unlink_entry; by destruct (_ =? _)).
    rewrite length_insert. split; [done|]. apply Forall_insert; [done|].
    pose proof (proj1 (Forall_lookup _ _) H5 _ _ Hb) as HF. apply Forall_forall. intros x Hx.
    apply list_elem_of_In, filter_In in Hx as [Hx _].
    apply (proj1 (Forall_forall _ _) HF). by apply list_elem_of_In. }
  assert (Hnext : next_id (unlink_entry h e s) = next_id s).
  { unfold unlink_entry. by destruct (_ =? _). }
  pose proof (proj1 (Forall_forall _ _) H4 _ Hall) as Hwe. simpl in Hwe.
  destruct (e_waiters e =? 0) eqn:E; bool_split.
  - destruct Hu as (Hp & Hf & Hl).
    assert (Hids : ids (unlink_entry h e s) ++ freed (unlink_entry h e s) ≡ₚ ids s ++ freed s).
    { rewrite Hf. unfold ids. rewrite Hp. simpl. by rewrite Permutation_middle. }
    constructor; rewrite ?Hids, ?Hnext, ?Hl; try done; try apply Hbs.
    + rewrite Hp in H4. by inversion H4.
    + intros i Hi. apply H7 in Hi as Hin. unfold ids in Hin. rewrite Hp in Hin. simpl in Hin.
      apply elem_of_cons in Hin as [->|Hin]; [lia|done].
  - destruct Hu as ((rest & Hp & Hp') & Hf & Hl).
    assert (Hids : ids (unlink_entry h e s) ≡ₚ ids s).
    { unfold ids. by rewrite Hp, Hp'. }
    constructor; rewrite ?Hids, ?Hnext, ?Hl, ?Hf; try done; try apply Hbs.
    + rewrite Hp in H4. rewrite Hp'. inversion H4; subst. by constructor.
    + constructor; [|done]. split; [done|]. simpl. specialize (H8 (e_id e)). lia.
    + intros i Hi. rewrite Hids. by apply H7.
Qed.

Lemma mem_new now key : Mem (new_entry now key s) w.
Proof.
  destruct HM as [H1 H2 H3 H4 H5 H6 H7 H8].
  pose proof (new_entry_all now key s H1) as Hp.
  set (e := RsEntry _ _ _ _ _ _ _) in Hp.
  assert (Hids : ids (new_entry now key s) ≡ₚ next_id s :: ids s) by (unfold ids; by rewrite Hp).
  assert (Hfresh : next_id s ∉ ids s ++ freed s).
  { intros Hin. apply (proj1 (Forall_forall _ _) H3) in Hin. lia. }
  constructor; rewrite ?Hids; try done.
  - simpl. by rewrite length_insert.
  - simpl. by constructor.
  - simpl. constructor; [lia|]. eapply Forall_impl; [exact H3|]. simpl. lia.
  - rewrite Hp. constructor; [|done]. simpl.
    destruct (decide (w (next_id s) = 0)); [done|]. exfalso. apply Hfresh.
    apply elem_of_app. left. apply H7. specialize (H8 (next_id s)). lia.
  - simpl. apply Forall_insert; [done|]. constructor; [done|].
    unfold bucket. destruct (_ !! _) eqn:E; [|constructor]. simpl.
    by apply (proj1 (Forall_lookup _ _) H5 _ _ E).
  - intros i Hi. rewrite Hids. apply elem_of_cons. right. by apply H7.
Qed.

Lemma mem_unique e e' : e ∈ all s -> e' ∈ all s -> e_id e = e_id e' -> e = e'.
Proof.
  intros He He' Heq. pose proof (mem_nodup _ _ HM) as Hnd. apply NoDup_app in Hnd as [Hnd _].
  apply list_elem_of_lookup in He as [i Hi], He' as [j Hj].
  assert (Hx : forall k x, all s !! k = Some x -> ids s !! k = Some (e_id x)).
  { intros k x Hk. unfold ids. change (map e_id (all s)) with (e_id <$> all s).
    by rewrite list_lookup_fmap, Hk. }
  apply Hx in Hi as Hi'. apply Hx in Hj as Hj'. rewrite <- Heq in Hj'.
  pose proof (NoDup_lookup _ _ _ _ Hnd Hi' Hj'). congruence.
Qed.

Lemma mem_limbo_unlinked e : e ∈ all s -> e_unlinked e = true -> e ∈ g_limbo s.
Proof.
  intros He Hu. unfold all in He. apply elem_of_app in He as [He|He]; [|done].
  apply list_elem_of_In, in_concat in He as (b & Hb & He). exfalso.
  pose proof (proj1 (Forall_forall _ _) (mem_linked _ _ HM) b ltac:(by apply list_elem_of_In)) as HF.
  apply list_elem_of_In in He. apply (proj1 (Forall_forall _ _) HF) in He. simpl in He. congruence.
Qed.

(** The last sleeper of an unlinked entry frees it. *)
Lemma mem_last_sleeper e :
  e ∈ all s -> e_unlinked e = true -> w (e_id e) = 1 ->
  Mem (free_entry (add_waiters (-1) e) (update (e_id e) (add_waiters (-1)) s)) (bump (e_id e) (-1) w).
Proof.
  intros He Hu Hw. pose proof (mem_limbo_unlinked e He Hu) as Hl.
  set (i := e_id e) in *. set (s1 := update i (add_waiters (-1)) s).
  assert (Hids1 : ids s1 = ids s) by (by apply ids_update).
  pose proof (mem_nodup _ _ HM) as Hnd. apply NoDup_app in Hnd as (Hnd & _ & _).
  assert (He1 : add_waiters (-1) e ∈ g_limbo s1).
  { simpl. apply list_elem_of_fmap. exists e. split; [|done]. unfold on_id, i.
    by rewrite Nat.eqb_refl. }
  assert (Hlp : g_limbo s1 ≡ₚ add_waiters (-1) e :: List.filter (not_id i) (g_limbo s1)).
  { apply filter_not_id; [|done|done]. rewrite <- Hids1 in Hnd. unfold ids, all in Hnd.
    rewrite map_app in Hnd. by apply NoDup_app in Hnd as (_ & _ & ?). }
  set (s2 := free_entry _ s1).
  assert (Hall : all s1 ≡ₚ add_waiters (-1) e :: all s2).
  { unfold all at 1. rewrite Hlp. unfold s2, all. simpl. fold i. by rewrite Permutation_middle. }
  assert (Hids : ids s2 ++ freed s2 ≡ₚ ids s ++ freed s).
  { rewrite <- Hids1. unfold ids. rewrite Hall. simpl. by rewrite Permutation_middle. }
  assert (Hno : i ∉ ids s2).
  { rewrite <- Hids1 in Hnd. unfold ids in Hnd. rewrite Hall in Hnd. simpl in Hnd.
    by apply NoDup_cons in Hnd as [? _]. }
  assert (Hw2 : forall j, j ∈ ids s2 -> bump i (-1) w j = w j).
  { intros j Hj. apply bump_ne. congruence. }
  destruct HM as [H1 H2 H3 H4 H5 H6 H7 H8].
  assert (H4' : Forall (fun e => e_waiters e = bump i (-1) w (e_id e)) (all s1)).
  { eapply Forall_update; [exact H4|..]; simpl; intros x Hx Hxi.
    - rewrite Hxi, bump_eq. rewrite Hx, Hxi. lia.
    - by rewrite bump_ne. }
  constructor; rewrite ?Hids; try done.
  - simpl. by rewrite length_map.
  - rewrite Hall in H4'. by inversion H4'.
  - simpl. apply Forall_map. eapply Forall_impl; [exact H5|]. intros b Hb. simpl.
    apply Forall_map. eapply Forall_impl; [exact Hb|]. intros x Hx. simpl.
    unfold on_id. by destruct (Nat.eqb _ _).
  - apply Forall_forall. intros x Hx. simpl in Hx. apply list_elem_of_In, filter_In in Hx as [Hx Hne].
    apply list_elem_of_In, list_elem_of_fmap in Hx as (y & -> & Hy).
    rewrite on_id_id in * by done. fold i in Hne. unfold not_id in Hne. rewrite on_id_id in Hne by done.
    apply negb_true_iff, Nat.eqb_neq in Hne.
    pose proof (proj1 (Forall_forall _ _) H6 _ Hy) as [? ?].
    unfold on_id. destruct (Nat.eqb_spec (e_id y) i); [done|]. by rewrite bump_ne.
  - intros j Hj. destruct (decide (j = i)) as [->|]; [rewrite bump_eq in Hj; lia|].
    rewrite bump_ne in Hj by done. apply H7 in Hj. rewrite <- Hids1 in Hj.
    unfold ids in Hj. rewrite Hall in Hj. simpl in Hj. by apply elem_of_cons in Hj as [->|].
  - intros j. destruct (decide (j = i)) as [->|]; [rewrite bump_eq; lia|by rewrite bump_ne].
Qed.
End mem.

(** ** Properties of the entries that waiting and unlinking leave alone *)

Definition content_eq (e e' : rs_entry) : Prop :=
  e_id e' = e_id e /\ e_key e' = e_key e /\ e_state e' = e_state e /\ e_result e' = e_result e /\
  e_expires_at e' = e_expires_at e.

Section content.
Variable Q : rs_entry -> Prop.
Hypothesis HQ : forall e e', content_eq e e' -> Q e -> Q e'.

Lemma Forall_add_waiters i n s : Forall Q (all s) -> Forall Q (all (update i (add_waiters n) s)).
Proof. intros H. eapply Forall_update; [exact H|..]; intros e He _; [|done]. by apply (HQ e). Qed.

Lemma Forall_unlink s w h e :
  Mem s w -> e ∈ bucket h s -> Forall Q (all s) -> Forall Q (all (unlink_entry h e s)).
Proof.
  intros HM He H. pose proof (mem_nodup _ _ HM) as Hnd. apply NoDup_app in Hnd as [Hnd _].
  pose proof (unlink_all s h e Hnd He) as Hu. destruct (e_waiters e =? 0).
  - destruct Hu as (Hp & _). rewrite Hp in H. by inversion H.
  - destruct Hu as ((rest & Hp & Hp') & _). rewrite Hp in H. rewrite Hp'. inversion H; subst.
    constructor; [by apply (HQ e)|done].
Qed.

Lemma Forall_free e s : Forall Q (all s) -> Forall Q (all (free_entry e s)).
Proof.
  unfold all. simpl. rewrite !Forall_app. intros [? H]. split; [done|].
  apply Forall_forall. intros x Hx. apply list_elem_of_In, filter_In in Hx as [Hx _].
  apply (proj1 (Forall_forall _ _) H). by apply list_elem_of_In.
Qed.

Lemma Forall_new s w now key :
  Mem s w -> Forall Q (all s) ->
  Q (RsEntry (next_id s) key RS_IN_PROGRESS None (now + RS_LEADER_TTL_SEC) 0 false) ->
  Forall Q (all (new_entry now key s)).
Proof. intros HM H Hn. rewrite new_entry_all by apply HM. by constructor. Qed.

(** Leaving an entry after the last recheck. *)
Lemma leave_entry_spec now key e timed_out s w :
  Mem s w -> e ∈ all s -> 1 <= w (e_id e) -> Forall Q (all s) ->
  Q (RsEntry (next_id s) key RS_IN_PROGRESS None (now + RS_LEADER_TTL_SEC) 0 false) ->
  let '(o, s') := leave_entry now key e timed_out s in
  Mem s' (bump (e_id e) (-1) w) /\ Forall Q (all s') /\
  (o = Leader \/ o = Served (copy_sstring (e_result e)) /\ e_state e = RS_DONE /\
                 timed_out = false /\ now < e_expires_at e).
Proof.
  intros HM He Hw H Hn. unfold leave_entry. cbv zeta.
  cbn [e_id e_unlinked e_waiters e_state e_expires_at e_result add_waiters].
  pose proof (proj1 (Forall_forall _ _) (mem_waiters _ _ HM) _ He) as Hwe. simpl in Hwe.
  set (s1 := update (e_id e) (add_waiters (-1)) s).
  assert (H1 : Forall Q (all s1)) by (by apply Forall_add_waiters).
  assert (Hin : e_id e ∈ ids s) by (by apply list_elem_of_fmap_2).
  assert (HM1 : (e_unlinked e = true -> e_waiters e <> 1) -> Mem s1 (bump (e_id e) (-1) w)).
  { intros Hc. apply mem_add_waiters; [done|done|lia|]. intros Hl.
    apply list_elem_of_fmap in Hl as (x & Hid & Hx).
    pose proof (proj1 (Forall_forall _ _) (mem_limbo _ _ HM) _ Hx) as [Hux _].
    assert (e = x) as <-.
    { apply (mem_unique _ _ HM); [done| |done]. unfold all. apply elem_of_app. by right. }
    specialize (Hc Hux). lia. }
  destruct (e_unlinked e) eqn:Hun.
  - destruct (Z.eqb_spec (e_waiters e + -1) 0) as [Hz|Hz].
    + pose proof (mem_last_sleeper s w HM e He Hun ltac:(lia)) as HM2.
      split; [by apply mem_new|]. split; [|by left].
      eapply Forall_new; [exact HM2|by apply Forall_free|done].
    + specialize (HM1 ltac:(intros _; lia)). split; [by apply mem_new|]. split; [|by left].
      by eapply Forall_new.
  - specialize (HM1 ltac:(done)). destruct (_ && _) eqn:E.
    + bool_split. split; [done|]. split; [done|]. right. split; [done|]. cbn in *.
      split; [done|]. split; [by destruct timed_out|done].
    + destruct (existsb _ _) eqn:Ex.
      * apply existsb_exists in Ex as (x & Hx & Hxi). apply Nat.eqb_eq in Hxi.
        apply list_elem_of_In in Hx.
        assert (x = add_waiters (-1) e) as ->.
        { destruct (mem_linked_bucket _ _ HM1 _ _ Hx) as [Hxa _].
          apply (mem_unique _ _ HM1); [done| |done]. unfold s1. rewrite all_update.
          apply list_elem_of_fmap. exists e. split; [|done]. unfold on_id. by rewrite Nat.eqb_refl. }
        pose proof (mem_unlink _ _ HM1 _ _ Hx) as HM2.
        split; [by apply mem_new|]. split; [|by left].
        eapply Forall_new; [exact HM2|by eapply Forall_unlink|].
        eapply HQ; [|exact Hn]. unfold unlink_entry. by destruct (_ =? _).
      * split; [by apply mem_new|]. split; [|by left]. by eapply Forall_new.
Qed.
End content.

(** ** Histories of requests *)

Record sleeper := Sleeper { sl_key : cstr; sl_entry : nat; sl_since : Z }.

(** The published pages: key, page, time. *)
Record sys := Sys {
  sh : reqshare;
  sleepers : list sleeper;
  clock : Z;
  published : list (cstr * cstr * Z);
}.

Definition init_sys (t : Z) : sys := Sys reqshare_init [] t [].

Inductive step : sys -> sys -> Prop :=
| step_start y key o s' :
    reqshare_wait_or_start (clock y) key (sh y) = (o, s') ->
    step y (Sys s' (match o with
                    | Sleep i => Sleeper key i (clock y) :: sleepers y
                    | _ => sleepers y end) (clock y) (published y))
| step_wake y pre t post o s' :
    sleepers y = pre ++ t :: post ->
    reqshare_wake (clock y) (sl_key t) (sl_entry t) (sh y) = Some (o, s') ->
    step y (Sys s' (match o with Sleep _ => sleepers y | _ => pre ++ post end)
              (clock y) (published y))
| step_try y key :
    step y (Sys (snd (reqshare_try_start (clock y) key (sh y))) (sleepers y) (clock y) (published y))
| step_finish y key html :
    step y (Sys (reqshare_finish (clock y) (Some key) html (sh y)) (sleepers y) (clock y)
              ((key, copy_sstring html, clock y) :: published y))
| step_tick y t :
    clock y <= t -> step y (Sys (sh y) (sleepers y) t (published y)).

Definition reachable (y : sys) : Prop := exists t, rtc step (init_sys t) y.

Definition regs (sl : list sleeper) (i : nat) : Z :=
  Z.of_nat (countb (fun t => Nat.eqb (sl_entry t) i) sl).

(** An entry in progress times out within the leader's time; a finished one either has been
    published or is already stale; a sleeper sits on an entry of its key. *)
Definition entry_ok (y : sys) (e : rs_entry) : Prop :=
  match e_state e with
  | RS_IN_PROGRESS => e_expires_at e <= clock y + RS_LEADER_TTL_SEC
  | RS_DONE => e_expires_at e <= clock y \/
      exists r, e_result e = Some r /\
        (e_key e, r, e_expires_at e - RS_RESULT_TTL_SEC) ∈ published y
  end /\
  Forall (fun t => e_id e = sl_entry t ->
    e_key e = sl_key t /\
    (e_state e = RS_IN_PROGRESS -> e_expires_at e <= sl_since t + RS_LEADER_TTL_SEC)) (sleepers y).

Definition Inv (y : sys) : Prop :=
  Mem (sh y) (regs (sleepers y)) /\ Forall (entry_ok y) (all (sh y)).

Lemma entry_ok_content y e e' : content_eq e e' -> entry_ok y e -> entry_ok y e'.
Proof. intros (Hi & Hk & Hs & Hr & Hx). unfold entry_ok. by rewrite Hi, Hk, Hs, Hr, Hx. Qed.

Lemma mem_ext s w w' : (forall i, w i = w' i) -> Mem s w -> Mem s w'.
Proof.
  intros Hw [H1 H2 H3 H4 H5 H6 H7 H8]. constructor; try done.
  - eapply Forall_impl; [exact H4|]. intros e ->. apply Hw.
  - eapply Forall_impl; [exact H6|]. intros e. simpl. by rewrite Hw.
  - intros i. rewrite <- Hw. apply H7.
  - intros i. rewrite <- Hw. apply H8.
Qed.

Lemma regs_cons t sl i : bump (sl_entry t) 1 (regs sl) i = regs (t :: sl) i.
Proof.
  unfold bump, regs. simpl. rewrite (Nat.eqb_sym i). destruct (Nat.eqb (sl_entry t) i); lia.
Qed.

Lemma regs_remove t pre post i :
  bump (sl_entry t) (-1) (regs (pre ++ t :: post)) i = regs (pre ++ post) i.
Proof.
  unfold bump, regs. rewrite !countb_app. simpl. rewrite (Nat.eqb_sym i).
  destruct (Nat.eqb (sl_entry t) i); lia.
Qed.

Lemma regs_in t sl : t ∈ sl -> 1 <= regs sl (sl_entry t).
Proof.
  intros [pre [post ->]]%list_elem_of_split. unfold regs. rewrite countb_app. simpl.
  rewrite Nat.eqb_refl. lia.
Qed.

(** Fewer sleepers or a later clock ask less of an entry. *)
Lemma entry_ok_weaken y e s' sl t :
  clock y <= t -> (forall x, x ∈ sl -> x ∈ sleepers y) -> entry_ok y e ->
  entry_ok (Sys s' sl t (published y)) e.
Proof.
  intros Ht Hsl [H1 H2]. split; simpl.
  - destruct (e_state e); [lia|]. destruct H1 as [?|H1]; [left; lia|by right].
  - apply Forall_forall. intros x Hx. by apply (proj1 (Forall_forall _ _) H2), Hsl.
Qed.

Lemma entry_ok_new y key :
  Inv y ->
  entry_ok y (RsEntry (next_id (sh y)) key RS_IN_PROGRESS None (clock y + RS_LEADER_TTL_SEC) 0 false).
Proof.
  intros [HM _]. split; simpl; [lia|]. apply Forall_forall. intros t Ht Hid. exfalso.
  pose proof (mem_held _ _ HM (sl_entry t)) as Hin. apply regs_in in Ht.
  specialize (Hin ltac:(lia)). pose proof (mem_next _ _ HM) as Hn.
  pose proof (proj1 (Forall_forall _ _) Hn (sl_entry t) ltac:(set_solver)). simpl in *. lia.
Qed.

Lemma find_key_bucket key h s e :
  List.find (is_key key) (bucket h s) = Some e -> e ∈ bucket h s /\ e_key e = key.
Proof.
  intros H. apply List.find_some in H as [H1 H2]. split; [by apply list_elem_of_In|].
  unfold is_key, streq in H2. by bool_split.
Qed.

(** Dropping a stale entry of a chain and starting afresh. *)
Lemma replace_entry_inv y key h e :
  Inv y -> e ∈ bucket h (sh y) ->
  Inv (Sys (new_entry (clock y) key (unlink_entry h e (sh y))) (sleepers y) (clock y) (published y)).
Proof.
  intros HI He. destruct HI as [HM HE]. pose proof (mem_unlink _ _ HM _ _ He) as HM1. split.
  - by apply mem_new.
  - assert (HE' : Forall (entry_ok y) (all (new_entry (clock y) key (unlink_entry h e (sh y))))).
    { eapply Forall_new; [exact HM1|eapply Forall_unlink; eauto using entry_ok_content|].
      eapply entry_ok_content; [|by apply (entry_ok_new y key)].
      unfold unlink_entry. by destruct (_ =? _). }
    eapply Forall_impl; [exact HE'|]. intros x. apply entry_ok_weaken; [lia|done].
Qed.

Lemma new_entry_inv y key :
  Inv y -> Inv (Sys (new_entry (clock y) key (sh y)) (sleepers y) (clock y) (published y)).
Proof.
  intros HI. pose proof HI as [HM HE]. split; [by apply mem_new|].
  assert (HE' : Forall (entry_ok y) (all (new_entry (clock y) key (sh y)))).
  { eapply Forall_new; [exact HM|done|by apply entry_ok_new]. }
  eapply Forall_impl; [exact HE'|]. intros x. apply entry_ok_weaken; [lia|done].
Qed.

Lemma start_inv y key o s' :
  Inv y -> reqshare_wait_or_start (clock y) key (sh y) = (o, s') ->
  Inv (Sys s' (match o with Sleep i => Sleeper key i (clock y) :: sleepers y
                          | _ => sleepers y end) (clock y) (published y)).
Proof.
  intros HI H. unfold reqshare_wait_or_start in H.
  destruct (List.find _ _) as [e|] eqn:E; [|simplify_eq; by apply new_entry_inv].
  apply find_key_bucket in E as [He Hk]. pose proof HI as [HM HE].
  destruct (mem_linked_bucket _ _ HM _ _ He) as [Ha Hu].
  destruct (e_state e) eqn:Est; [|destruct (_ <? _); simplify_eq; [done|by apply replace_entry_inv]].
  simplify_eq. split; simpl.
  - eapply mem_ext; [intros i; apply (regs_cons (Sleeper (e_key e) (e_id e) (clock y)))|].
    simpl. pose proof (mem_nonneg _ _ HM (e_id e)). apply mem_add_waiters; [done| |lia|lia].
    by apply list_elem_of_fmap_2.
  - assert (HE1 : Forall (fun x => entry_ok y x /\ x ∈ all (sh y)) (all (sh y))).
    { apply Forall_forall. intros x Hx. by split; [apply (proj1 (Forall_forall _ _) HE)|]. }
    assert (Hout : forall x x', content_eq x x' -> entry_ok y x /\ x ∈ all (sh y) ->
      entry_ok (Sys (update (e_id e) (add_waiters 1) (sh y))
                  (Sleeper (e_key e) (e_id e) (clock y) :: sleepers y) (clock y) (published y)) x').
    { intros x x' Hc [Hx Hin]. eapply entry_ok_content; [exact Hc|]. destruct Hx as [Hx1 Hx2].
      split; [done|]. simpl. constructor; [|done]. simpl. intros Hid.
      pose proof (mem_unique _ _ HM x e Hin Ha Hid) as ->. split; [done|]. intros Hp.
      rewrite Hp in Hx1. done. }
    eapply Forall_update; [exact HE1|..]; intros x Hx _; by apply (Hout x).
Qed.

Lemma finish_inv y key html :
  Inv y ->
  Inv (Sys (reqshare_finish (clock y) (Some key) html (sh y)) (sleepers y) (clock y)
         ((key, copy_sstring html, clock y) :: published y)).
Proof.
  intros [HM HE]. simpl.
  assert (Hmono : forall x s', entry_ok y x ->
    entry_ok (Sys s' (sleepers y) (clock y) ((key, copy_sstring html, clock y) :: published y)) x).
  { intros x s' [H1 H2]. split; [|done]. destruct (e_state x); [done|]. simpl.
    destruct H1 as [?|(r & ? & ?)]; [by left|right]. exists r. set_solver. }
  assert (Hsame : Inv (Sys (sh y) (sleepers y) (clock y)
                         ((key, copy_sstring html, clock y) :: published y))).
  { split; [done|]. eapply Forall_impl; [exact HE|]. intros x. by apply Hmono. }
  destruct (List.find _ _) as [e|] eqn:E; [|done].
  apply find_key_bucket in E as [He Hk]. destruct (e_state e) eqn:Est; [|done].
  destruct (mem_linked_bucket _ _ HM _ _ He) as [Ha Hu]. split; [by apply mem_update|].
  assert (HE1 : Forall (fun x => entry_ok y x /\ x ∈ all (sh y)) (all (sh y))).
  { apply Forall_forall. intros x Hx. by split; [apply (proj1 (Forall_forall _ _) HE)|]. }
  simpl. eapply Forall_update; [exact HE1|..]; intros x [Hx Hin] Hid; [|by apply Hmono].
  pose proof (mem_unique _ _ HM x e Hin Ha Hid) as ->. destruct Hx as [_ Hx].
  split; simpl.
  - right. eexists. split; [done|]. rewrite Hk. apply elem_of_cons. left. f_equal. lia.
  - eapply Forall_impl; [exact Hx|]. intros t Ht Hi. by destruct (Ht Hi) as [? _].
Qed.

Lemma try_inv y key :
  Inv y ->
  Inv (Sys (snd (reqshare_try_start (clock y) key (sh y))) (sleepers y) (clock y) (published y)).
Proof.
  intros HI. assert (HI' : Inv (Sys (sh y) (sleepers y) (clock y) (published y))) by (by destruct y).
  unfold reqshare_try_start. destruct key as [key|]; [|done].
  destruct (List.find _ _) as [e|] eqn:E; [|by apply new_entry_inv].
  apply find_key_bucket in E as [He _]. destruct (_ <? _); [done|by apply replace_entry_inv].
Qed.

Lemma leave_inv y y1 pre t post e timed_out o s' :
  Inv y -> sleepers y = pre ++ t :: post -> Inv y1 -> clock y1 = clock y ->
  sleepers y1 = sleepers y -> published y1 = published y ->
  e ∈ all (sh y1) -> e_id e = sl_entry t ->
  leave_entry (clock y) (sl_key t) e timed_out (sh y1) = (o, s') ->
  (o = Leader \/ o = Served (copy_sstring (e_result e)) /\ e_state e = RS_DONE /\
                 timed_out = false /\ clock y < e_expires_at e) /\
  Inv (Sys s' (pre ++ post) (clock y) (published y)).
Proof.
  intros HI Hsl HI1 Hck Hsl1 Hpub He Hid Hl. pose proof HI1 as [HM1 HE1].
  pose proof (leave_entry_spec (entry_ok y1) (entry_ok_content y1) (clock y) (sl_key t) e timed_out
                (sh y1) _ HM1 He) as Hspec.
  rewrite Hl, Hid in Hspec. destruct Hspec as (HM' & HE' & Ho).
  - rewrite Hsl1, Hsl. apply regs_in. set_solver.
  - done.
  - rewrite <- Hck. by apply entry_ok_new.
  - split; [done|]. split; simpl.
    + eapply mem_ext; [|exact HM']. intros i. rewrite Hsl1, Hsl. apply regs_remove.
    + eapply Forall_impl; [exact HE'|]. intros x Hx. rewrite <- Hpub.
      apply (entry_ok_weaken y1); [lia| |done]. rewrite Hsl1, Hsl. set_solver.
Qed.

(** Publishing an immediately stale result for a leader that ran out of time. *)
Lemma time_out_inv y e :
  Inv y -> e ∈ all (sh y) ->
  Inv (Sys (update (e_id e) (fun x => finish_entry (e_result x) (clock y) x) (sh y)) (sleepers y)
         (clock y) (published y)).
Proof.
  intros [HM HE] He. split; [by apply mem_update|].
  simpl. eapply Forall_update; [exact HE|..]; intros x [Hx1 Hx2] Hid; [|by split].
  split; simpl; [left; lia|]. eapply Forall_impl; [exact Hx2|]. intros t Ht Hi.
  by destruct (Ht Hi) as [? _].
Qed.

(** One recheck of a sleeper: its entry is there, the invariant is kept, and what it learns. *)
Lemma wake_inv y pre t post :
  Inv y -> sleepers y = pre ++ t :: post ->
  exists e o s', find_id (sl_entry t) (all (sh y)) = Some e /\ e_key e = sl_key t /\
    reqshare_wake (clock y) (sl_key t) (sl_entry t) (sh y) = Some (o, s') /\
    Inv (Sys s' (match o with Sleep _ => sleepers y | _ => pre ++ post end) (clock y) (published y)) /\
    match o with
    | Sleep i => clock y <= sl_since t + RS_LEADER_TTL_SEC
    | Served p => exists t0, (sl_key t, p, t0) ∈ published y /\ clock y < t0 + RS_RESULT_TTL_SEC
    | Leader => True
    end.
Proof.
  intros HI Hsl. pose proof HI as [HM HE].
  assert (Ht : t ∈ sleepers y) by (rewrite Hsl; set_solver).
  unfold reqshare_wake. destruct (find_id _ _) as [e|] eqn:E; cycle 1.
  { exfalso. apply find_id_none in E. apply E. apply (mem_held _ _ HM). apply regs_in in Ht. lia. }
  apply find_id_spec in E as [He Hid].
  pose proof (proj1 (Forall_forall _ _) HE _ He) as [Hst Hok].
  destruct (proj1 (Forall_forall _ _) Hok _ Ht Hid) as [Hkey Hexp]. exists e.
  assert (Hy : Inv (Sys (sh y) (sleepers y) (clock y) (published y))) by (by destruct y).
  destruct (_ || _) eqn:Ecase; [|destruct (_ <? _) eqn:Eexp].
  - destruct (leave_entry _ _ _ _ _) as [o s'] eqn:El. exists o, s'.
    split; [done|]. split; [done|]. split; [done|].
    destruct (leave_inv y y pre t post e false o s') as [Ho HI']; auto.
    destruct Ho as [->|(-> & Hd & _ & Hlt)]; [by split|]. split; [done|].
    rewrite Hd in Hst. destruct Hst as [?|(r & Hr & Hp)]; [lia|]. rewrite Hr, <- Hkey. simpl.
    eexists. split; [exact Hp|]. unfold RS_RESULT_TTL_SEC in *. lia.
  - set (f := fun x => finish_entry (e_result x) (clock y) x).
    destruct (leave_entry _ _ _ _ _) as [o s'] eqn:El. exists o, s'.
    split; [done|]. split; [done|]. split; [done|].
    destruct (leave_inv y (Sys (update (sl_entry t) f (sh y)) (sleepers y) (clock y) (published y))
                pre t post (f e) true o s') as [Ho HI']; auto.
    + rewrite <- Hid. by apply time_out_inv.
    + simpl. rewrite all_update. apply list_elem_of_fmap. exists e. split; [|done].
      unfold on_id. by rewrite Hid, Nat.eqb_refl.
    + destruct Ho as [->|(_ & _ & ? & _)]; [by split|done].
  - bool_split. exists (Sleep (sl_entry t)), (sh y). split; [done|]. split; [done|].
    split; [done|]. split; [done|]. specialize (Hexp ltac:(done)). lia.
Qed.

Lemma step_inv y y' : Inv y -> step y y' -> Inv y'.
Proof.
  intros HI Hs. destruct Hs as [y key o s' H|y pre t post o s' Hsl H|y key|y key html|y t Ht].
  - by eapply start_inv.
  - destruct (wake_inv y pre t post HI Hsl) as (e & o' & s'' & _ & _ & Hw & HI' & _).
    rewrite Hw in H. by simplify_eq.
  - by apply try_inv.
  - by apply finish_inv.
  - destruct HI as [HM HE]. split; [done|]. eapply Forall_impl; [exact HE|]. intros x.
    apply entry_ok_weaken; auto.
Qed.

Lemma init_inv t : Inv (init_sys t).
Proof.
  assert (Ha : all reqshare_init = []).
  { unfold all, reqshare_init. cbn [g_buckets g_limbo]. by induction RS_BUCKETS. }
  split; cbn [sh init_sys]; [|by rewrite Ha].
  assert (Hi : ids reqshare_init ++ freed reqshare_init = []) by (unfold ids; by rewrite Ha).
  assert (Hlo : regs (sleepers (init_sys t)) = fun _ => 0) by done.
  assert (Hn : forall n, Forall (Forall (fun e => e_unlinked e = false)) (replicate n [])).
  { intros n. by apply Forall_replicate. }
  rewrite Hlo. split; rewrite ?Hi, ?Ha; try by constructor.
  - apply Hn.
  - intros i Hlt. lia.
  - intros _. lia.
Qed.

Lemma reachable_inv y : reachable y -> Inv y.
Proof.
  intros (t & Hr). remember (init_sys t) as y0 eqn:E. assert (HI : Inv y0) by (subst; apply init_inv).
  clear E. induction Hr as [|a b c Hs _ IH]; [done|]. apply IH. by eapply step_inv.
Qed.

(** C37: whatever requests start, sleep, publish and time out in whatever order, a sleeping
    request finds its entry still allocated at every recheck and nothing is freed twice; once
    the leader's five seconds are over the recheck ends the sleep. *)
Theorem reqshare_sleepers_safe y t :
  reachable y -> t ∈ sleepers y ->
  NoDup (map e_id (all (sh y)) ++ freed (sh y)) /\
  exists o s', reqshare_wake (clock y) (sl_key t) (sl_entry t) (sh y) = Some (o, s') /\
    (sl_since t + RS_LEADER_TTL_SEC < clock y -> forall i, o <> Sleep i).
Proof.
  intros Hr Ht. apply reachable_inv in Hr as HI. split; [apply (mem_nodup _ _ (proj1 HI))|].
  apply list_elem_of_split in Ht as (pre & post & Hsl).
  destruct (wake_inv y pre t post HI Hsl) as (e & o & s' & _ & _ & Hw & _ & Ho).
  exists o, s'. split; [done|]. intros Hlt i ->. lia.
Qed.

(** a page handed to a waiting request was published for its own key less than two
    seconds ago, whether the request found it at once or after sleeping. *)
Theorem reqshare_served_fresh y key p s' :
  reachable y ->
  (reqshare_wait_or_start (clock y) key (sh y) = (Served p, s') \/
   exists t, t ∈ sleepers y /\ sl_key t = key /\
     reqshare_wake (clock y) key (sl_entry t) (sh y) = Some (Served p, s')) ->
  exists t0, (key, p, t0) ∈ published y /\ clock y < t0 + RS_RESULT_TTL_SEC.
Proof.
  intros Hr [H|(t & Ht & <- & H)]; apply reachable_inv in Hr as HI.
  - unfold reqshare_wait_or_start in H.
    destruct (List.find _ _) as [e|] eqn:E; [|by simplify_eq].
    apply find_key_bucket in E as [He Hk]. destruct HI as [HM HE].
    destruct (mem_linked_bucket _ _ HM _ _ He) as [Ha _].
    destruct (proj1 (Forall_forall _ _) HE _ Ha) as [Hst _].
    destruct (e_state e); [done|]. destruct (_ <? _) eqn:Elt; simplify_eq. bool_split.
    destruct Hst as [?|(r & Hr' & Hp)]; [lia|]. rewrite Hr'. simpl. eexists.
    split; [exact Hp|]. unfold RS_RESULT_TTL_SEC in *. lia.
  - apply list_elem_of_split in Ht as (pre & post & Hsl).
    destruct (wake_inv y pre t post HI Hsl) as (e & o & s'' & _ & _ & Hw & _ & Ho).
    rewrite Hw in H. by simplify_eq.
Qed.

(** A history: one leader, one sleeper, a publication. *)
Definition demo_key : cstr := CS "post:a".
Definition demo1 : reqshare := snd (reqshare_wait_or_start 10 demo_key reqshare_init).
Definition demo2 : reqshare := snd (reqshare_wait_or_start 10 demo_key demo1).
Definition demo3 : reqshare := reqshare_finish 10 (Some demo_key) (Some (CS "page")) demo2.

Lemma demo_reachable :
  reachable (Sys demo3 [Sleeper demo_key 0 10] 10 [(demo_key, CS "page", 10)]).
Proof.
  exists 10. eapply rtc_l.
  { apply (step_start (init_sys 10) demo_key Leader demo1). vm_compute. reflexivity. }
  eapply rtc_l.
  { apply (step_start (Sys demo1 [] 10 []) demo_key (Sleep 0) demo2). vm_compute. reflexivity. }
  apply rtc_once. apply (step_finish (Sys demo2 [Sleeper demo_key 0 10] 10 []) demo_key (Some (CS "page"))).
Qed.

Lemma reqshare_sleepers_safe_witness :
  exists o s', reqshare_wake 10 demo_key 0 demo3 = Some (o, s').
Proof.
  destruct (reqshare_sleepers_safe _ (Sleeper demo_key 0 10) demo_reachable ltac:(left))
    as (_ & o & s' & H & _).
  exists o, s'. exact H.
Defined.

Lemma reqshare_served_fresh_witness :
  exists t0, (demo_key, CS "page", t0) ∈ [(demo_key, CS "page", 10)] /\ 10 < t0 + RS_RESULT_TTL_SEC.
Proof.
  refine (reqshare_served_fresh _ demo_key (CS "page")
            (snd (default (Leader, demo3) (reqshare_wake 10 demo_key 0 demo3))) demo_reachable _).
  right. exists (Sleeper demo_key 0 10). split; [left|]. split; [reflexivity|].
  vm_compute. reflexivity.
Defined.

(** ** Write locks as a set of keys *)

Definition wl_held (t : wl_table) : gset cstr := list_to_set (concat t).

Definition wl_ok (t : wl_table) : Prop :=
  length t = WL_BUCKETS /\ NoDup (concat t) /\
  forall h b k, t !! h = Some b -> k ∈ b -> wl_hash k = h.

Lemma wl_hash_bound key t : wl_ok t -> t !! wl_hash key = Some (wl_bucket key t).
Proof.
  intros [Hl _]. unfold wl_bucket. destruct (t !! wl_hash key) eqn:E; [done|].
  apply lookup_ge_None in E. rewrite Hl in E. unfold wl_hash, WL_BUCKETS in E.
  pose proof (Z.mod_pos_bound (djb2 key) 256). lia.
Qed.

Lemma wl_bucket_held key t : wl_ok t -> key ∈ wl_bucket key t <-> key ∈ wl_held t.
Proof.
  intros Hok. unfold wl_held. rewrite elem_of_list_to_set. split; intros H.
  - apply list_elem_of_In, in_concat. exists (wl_bucket key t). split; apply list_elem_of_In; [|done].
    eapply list_elem_of_lookup_2. by apply wl_hash_bound.
  - apply list_elem_of_In, in_concat in H as (b & Hb & H).
    apply list_elem_of_In, list_elem_of_lookup in Hb as [h Hb]. apply list_elem_of_In in H.
    pose proof (proj2 (proj2 Hok) _ _ _ Hb H) as Hh. rewrite <- Hh in Hb.
    rewrite (wl_hash_bound _ _ Hok) in Hb. by simplify_eq.
Qed.

Lemma wl_remove_perm key b : key ∈ b -> b ≡ₚ key :: wl_remove key b.
Proof.
  induction b as [|k b IH]; intros H; [set_solver|]. simpl. unfold streq.
  case_bool_decide as Hk; [by subst|]. apply elem_of_cons in H as [->|H]; [done|].
  rewrite (IH H) at 1. apply Permutation_swap.
Qed.

Lemma wl_remove_absent key b : key ∉ b -> wl_remove key b = b.
Proof.
  induction b as [|k b IH]; intros H; simpl; [done|]. unfold streq.
  case_bool_decide as Hk; [set_solver|]. f_equal. apply IH. set_solver.
Qed.

Lemma wl_ok_insert t h b :
  wl_ok t -> NoDup (concat (<[h := b]> t)) -> Forall (fun k => wl_hash k = h) b ->
  wl_ok (<[h := b]> t).
Proof.
  intros (H1 & H2 & H3) Hn Hb. split; [by rewrite length_insert|]. split; [done|].
  intros i b' k Hi Hk. apply list_lookup_insert_Some in Hi as [(-> & <- & _)|[_ Hi]].
  - by apply (proj1 (Forall_forall _ _) Hb).
  - by eapply H3.
Qed.

(** the write-lock table is a set of keys: a try succeeds exactly when the key is not held
    and then holds it, a release gives exactly that key back, and no key is held otherwise. *)
Theorem reqshare_write_lock_refines_set t key :
  wl_ok t ->
  let '(got, t1) := reqshare_write_lock_try (Some key) t in
  let t2 := reqshare_write_lock_release (Some key) t in
  wl_ok t1 /\ wl_ok t2 /\
  got = bool_decide (key ∉ wl_held t) /\ wl_held t1 = {[key]} ∪ wl_held t /\
  wl_held t2 = wl_held t ∖ {[key]}.
Proof.
  intros Hok. pose proof (wl_hash_bound key t Hok) as Hb.
  pose proof (wl_bucket_held key t Hok) as Hin.
  assert (Hh : Forall (fun k => wl_hash k = wl_hash key) (wl_bucket key t)).
  { apply Forall_forall. intros k Hk. by eapply (proj2 (proj2 Hok)). }
  pose proof (proj1 (proj2 Hok)) as Hnd.
  assert (H2 : wl_ok (reqshare_write_lock_release (Some key) t) /\
               wl_held (reqshare_write_lock_release (Some key) t) = wl_held t ∖ {[key]}).
  { simpl. destruct (concat_insert _ _ _ (wl_remove key (wl_bucket key t)) Hb) as (rest & P1 & P2).
    destruct (decide (key ∈ wl_bucket key t)) as [Hk|Hk].
    - assert (Hp : concat t ≡ₚ key :: concat (<[wl_hash key:=wl_remove key (wl_bucket key t)]> t)).
      { rewrite P1, P2. by rewrite (wl_remove_perm key (wl_bucket key t)) at 1. }
      rewrite Hp in Hnd. apply NoDup_cons in Hnd as [Hnk Hnd]. split.
      + apply wl_ok_insert; [done|done|]. rewrite (wl_remove_perm key (wl_bucket key t)) in Hh by done.
        by inversion Hh.
      + unfold wl_held. rewrite Hp. simpl. set_solver.
    - rewrite wl_remove_absent by done. rewrite list_insert_id by done. split; [done|].
      rewrite Hin in Hk. set_solver. }
  destruct (concat_insert _ _ _ (key :: wl_bucket key t) Hb) as (rest & P1 & P2).
  simpl. destruct (existsb _ _) eqn:E.
  - apply existsb_exists in E as (k & Hk & Hs). apply list_elem_of_In in Hk. unfold streq in Hs.
    bool_split. subst k. apply Hin in Hk. split_and!; [done|apply H2| |set_solver|apply H2].
    symmetry. apply bool_decide_eq_false. intros Hn. by apply Hn.
  - assert (Hk : key ∉ wl_bucket key t).
    { intros Hk. apply not_true_iff_false in E. apply E, existsb_exists. exists key.
      split; [by apply list_elem_of_In|]. unfold streq. by apply bool_decide_eq_true. }
    assert (Hp : concat (<[wl_hash key := key :: wl_bucket key t]> t) ≡ₚ key :: concat t).
    { rewrite P2, P1. done. }
    split_and!; [|apply H2| | |apply H2].
    + apply wl_ok_insert; [done| |by constructor]. rewrite Hp. apply NoDup_cons. split; [|done].
      rewrite <- (elem_of_list_to_set (C := gset cstr)). fold (wl_held t). by rewrite <- Hin.
    + symmetry. apply bool_decide_eq_true. by rewrite <- Hin.
    + unfold wl_held. by rewrite Hp.
Qed.

Lemma reqshare_write_lock_refines_set_witness :
  wl_ok wl_init /\ wl_held (snd (reqshare_write_lock_try (Some demo_key) wl_init)) = {[demo_key]} ∪ wl_held wl_init.
Proof.
  assert (Hok : wl_ok wl_init).
  { split; [reflexivity|]. split; [vm_compute; constructor|]. intros h b k Hh Hk.
    apply lookup_replicate in Hh as [-> _]. inversion Hk. }
  split; [exact Hok|].
  exact (proj1 (proj2 (proj2 (proj2 (reqshare_write_lock_refines_set wl_init demo_key Hok))))).
Defined.
