(* ===== verification/TasfaCommon.v ===== *)
(** * Shared policy of the TASFA transfer protocol (src/src/handlers/tasfa/common.c)

    Chunk sizes, session limits, transfer windows, name checks, percent decoding and the
    limiter of media jobs. *)
From S2P Require Import Prelude CStr.

(** ** Constants (tasfa_internal.h) *)

Definition MiB : Z := 1024 * 1024.
Definition TASFA_UPLOAD_CHUNK_SIZE_DEFAULT : Z := 9 * MiB.
Definition TASFA_UPLOAD_CHUNK_SIZE_MOBILE : Z := 8 * MiB.
Definition TASFA_UPLOAD_CHUNK_SIZE_MIN : Z := 2 * MiB.
Definition TASFA_UPLOAD_CHUNK_SIZE_MAX : Z := 9 * MiB.
Definition TASFA_UPLOAD_CHUNK_SIZE_MOBILE_MAX : Z := 8 * MiB.
Definition TASFA_DOWNLOAD_CHUNK_SIZE_DEFAULT : Z := 8 * MiB.
Definition TASFA_DOWNLOAD_CHUNK_SIZE_MOBILE : Z := 6 * MiB.
Definition TASFA_DOWNLOAD_CHUNK_SIZE_MIN : Z := 2 * MiB.
Definition TASFA_DOWNLOAD_CHUNK_SIZE_MAX : Z := 32 * MiB.
Definition TASFA_DOWNLOAD_CHUNK_SIZE_FAST_MAX : Z := 48 * MiB.
Definition TASFA_DOWNLOAD_CHUNK_SIZE_ULTRA_MAX : Z := 64 * MiB.
Definition TASFA_UPLOAD_DEFAULT_PARALLEL : Z := 16.
Definition TASFA_UPLOAD_MAX_PARALLEL : Z := 48.
Definition TASFA_DOWNLOAD_MAX_PARALLEL : Z := 48.
Definition TASFA_MAX_CONCURRENT_UPLOADS : Z := 512.
Definition TASFA_MAX_CONCURRENT_DOWNLOADS : Z := 512.
Definition TASFA_MAX_MEDIA_CONCURRENCY : Z := 8.

(** ** Chunk sizes.  An [int] has 31 bits and a sign, so 32 rounds of doubling or halving are
    enough for both loops. *)

Fixpoint double_while (fuel : nat) (min_value requested : Z) : Z :=
  match fuel with
  | O => requested
  | S f => if (requested <? min_value) && (0 <? requested)
           then double_while f min_value (i32 (requested * 2)) else requested
  end.

Fixpoint halve_while (fuel : nat) (max_value requested : Z) : Z :=
  match fuel with
  | O => requested
  | S f => if max_value <? requested then halve_while f max_value (Z.quot requested 2) else requested
  end.

Definition quantum : Z := 128 * 1024.

Definition normalize_chunk_size_hint (requested fallback min_value max_value : Z) : Z :=
  if requested <=? 0 then fallback
  else
    let requested := Z.quot requested quantum * quantum in
    let requested := if requested <? quantum then quantum else requested in
    let requested := if requested <? min_value then double_while 32 min_value requested else requested in
    let requested := if max_value <? requested then halve_while 32 max_value requested else requested in
    if requested <? min_value then min_value
    else if max_value <? requested then max_value
    else requested.

Definition choose_chunk_size_upload (mobile : bool) (requested : Z) : Z :=
  let fallback := if mobile then TASFA_UPLOAD_CHUNK_SIZE_MOBILE else TASFA_UPLOAD_CHUNK_SIZE_DEFAULT in
  let max_value := if mobile then TASFA_UPLOAD_CHUNK_SIZE_MOBILE_MAX else TASFA_UPLOAD_CHUNK_SIZE_MAX in
  normalize_chunk_size_hint requested fallback TASFA_UPLOAD_CHUNK_SIZE_MIN max_value.

Definition choose_chunk_size_download (mobile : bool) (requested total_size fast_link_max : Z) : Z :=
  let fallback := if mobile then TASFA_DOWNLOAD_CHUNK_SIZE_MOBILE else TASFA_DOWNLOAD_CHUNK_SIZE_DEFAULT in
  let max_value := if TASFA_DOWNLOAD_CHUNK_SIZE_MAX <? fast_link_max then fast_link_max
                   else TASFA_DOWNLOAD_CHUNK_SIZE_MAX in
  let fallback := if 100 * 1024 * 1024 <? total_size
                  then (if mobile then 10 * 1024 * 1024 else 16 * 1024 * 1024) else fallback in
  let fallback := if 1024 * 1024 * 1024 <? total_size
                  then (if TASFA_DOWNLOAD_CHUNK_SIZE_MAX <? max_value then max_value
                        else if mobile then 14 * 1024 * 1024 else 32 * 1024 * 1024)
                  else fallback in
  let requested := if (100 * 1024 * 1024 <? total_size) && (0 <? requested) && (requested <? fallback)
                   then fallback else requested in
  normalize_chunk_size_hint requested fallback TASFA_DOWNLOAD_CHUNK_SIZE_MIN max_value.

(** ** Limits and windows; the arguments are the fields of [g_config] *)

Definition tasfa_upload_session_limit (max_total_parallel_uploads : Z) : Z :=
  let limit := max_total_parallel_uploads in
  let limit := if limit <? 1 then 1 else limit in
  if TASFA_MAX_CONCURRENT_UPLOADS <? limit then TASFA_MAX_CONCURRENT_UPLOADS else limit.

Definition tasfa_download_session_limit (max_concurrent_downloads : Z) : Z :=
  let limit := max_concurrent_downloads in
  let limit := if limit <? 1 then 1 else limit in
  if TASFA_MAX_CONCURRENT_DOWNLOADS <? limit then TASFA_MAX_CONCURRENT_DOWNLOADS else limit.

Definition tasfa_upload_parallel_limit (max_upload_parallel_chunks : Z) : Z :=
  let limit := max_upload_parallel_chunks in
  let limit := if limit <? 1 then 1 else limit in
  if TASFA_UPLOAD_MAX_PARALLEL <? limit then TASFA_UPLOAD_MAX_PARALLEL else limit.

Record window := Window { w_initial : Z; w_max : Z; w_pacing_ms : Z }.

Definition choose_upload_window (max_upload_parallel_chunks : Z) (mobile : bool) (score : Z) : window :=
  let '(initial_value, max_value, pace) :=
    if 45 <=? score then (32, 48, 0)
    else if 25 <=? score then (24, 32, 0)
    else if 10 <=? score then (16, 24, 1)
    else (10, 16, 3) in
  let floor := if mobile then 4 else 8 in
  let initial_value := if initial_value <? floor then floor else initial_value in
  let configured_max := tasfa_upload_parallel_limit max_upload_parallel_chunks in
  let max_value := if configured_max <? max_value then configured_max else max_value in
  let initial_value := if max_value <? initial_value then max_value else initial_value in
  Window initial_value max_value pace.

Definition choose_download_profile (mobile : bool) (score : Z) : window * Z :=
  let '(initial_value, max_value, pace, coalesce) :=
    if score <? 25 then (10, 18, 4, 4)
    else if score <? 45 then (14, 28, 1, 8)
    else if score <? 65 then (18, 36, 0, 12)
    else (24, 48, 0, 16) in
  let '(initial_value, max_value, coalesce) :=
    if mobile then
      (if initial_value <? 14 then 14 else initial_value,
       if max_value <? 28 then 28 else max_value,
       if coalesce <? 8 then 8 else coalesce)
    else (initial_value, max_value, coalesce) in
  let max_value := if TASFA_DOWNLOAD_MAX_PARALLEL <? max_value then TASFA_DOWNLOAD_MAX_PARALLEL
                   else max_value in
  let initial_value := if max_value <? initial_value then max_value else initial_value in
  (Window initial_value max_value pace, coalesce).

(** One side of [normalize_tasfa_image_dimensions]. *)
Definition normalize_dimension (w : Z) : Z :=
  let w := if w <? 256 then 256 else w in
  let w := if 1920 <? w then 1920 else w in
  let w := Z.quot (w + 128 - 1) 128 * 128 in
  if 1920 <? w then 1920 else w.

Definition normalize_tasfa_image_dimensions (width height : option Z) : option Z * option Z :=
  (option_map (fun _ => normalize_dimension (default 0 width)) width,
   option_map (fun _ => normalize_dimension (default 0 height)) height).

Definition clamp_int (value min_value max_value : Z) : Z :=
  if value <? min_value then min_value else if max_value <? value then max_value else value.

(** ** Names *)

Definition seg_char (c : Z) : bool := isalnum c || (c =? CH "-") || (c =? CH "_") || (c =? CH ".").

Definition is_safe_segment (value : option cstr) : bool :=
  match value with
  | Some (c :: s) => forallb seg_char (c :: s)
  | _ => false
  end.

Definition no_slash (s : cstr) : bool := forallb (fun c => negb ((c =? CH "/") || (c =? 92))) s.

Definition is_safe_filename_simple (name : option cstr) : bool :=
  match name with
  | Some (c :: s) => no_slash (c :: s)
  | _ => false
  end.

Definition is_safe_upload_asset_name (name : option cstr) : bool :=
  if is_safe_filename_simple name then true
  else match name with
       | None => false
       | Some s =>
           if starts_with (CS ".thumbs/") s then is_safe_filename_simple (Some (drop 8 s))
           else if starts_with (CS ".previews/") s then is_safe_filename_simple (Some (drop 10 s))
           else false
       end.

(** The value of a hexadecimal digit. *)
Definition hex_val (c : Z) : Z :=
  if isdigit c then c - 48 else if (97 <=? c) then c - 97 + 10 else c - 65 + 10.

(** The bytes written by [decode_segment] (before the terminator). *)
Fixpoint decode_bytes (s : cstr) : list Z :=
  match s with
  | [] => []
  | 37 :: s1 =>
      match s1 with
      | a :: b :: s2 =>
          if isxdigit a && isxdigit b then (16 * hex_val a + hex_val b) :: decode_bytes s2
          else 37 :: decode_bytes s1
      | _ => 37 :: decode_bytes s1
      end
  | c :: s1 => c :: decode_bytes s1
  end.

Definition decode_segment (src : cstr) : cstr := until_nul (decode_bytes src).


Definition hex_encode_alloc (data : option (list Z)) : option cstr :=
  match data with
  | Some (b :: d) => Some (concat (map hex_byte (b :: d)))
  | _ => None
  end.

Fixpoint ci_prefix (needle p : cstr) : bool :=
  match needle, p with
  | [], _ => true
  | n :: needle', c :: p' => (tolower c =? tolower n) && ci_prefix needle' p'
  | _ :: _, [] => false
  end.

Fixpoint str_contains_ci_go (needle haystack : cstr) : bool :=
  match haystack with
  | [] => false
  | c :: h => ci_prefix needle (c :: h) || str_contains_ci_go needle h
  end.

Definition str_contains_ci_local (haystack needle : option cstr) : bool :=
  match haystack, needle with
  | Some h, Some (n :: ns) => str_contains_ci_go (n :: ns) h
  | _, _ => false
  end.

Definition http_status_text (code : Z) : cstr :=
  match code with
  | 200 => CS "OK" | 201 => CS "Created" | 202 => CS "Accepted" | 204 => CS "No Content"
  | 206 => CS "Partial Content" | 301 => CS "Moved Permanently" | 302 => CS "Found"
  | 304 => CS "Not Modified" | 400 => CS "Bad Request" | 401 => CS "Unauthorized"
  | 403 => CS "Forbidden" | 404 => CS "Not Found" | 405 => CS "Method Not Allowed"
  | 408 => CS "Request Timeout" | 410 => CS "Gone" | 413 => CS "Payload Too Large"
  | 429 => CS "Too Many Requests" | 500 => CS "Internal Server Error" | 502 => CS "Bad Gateway"
  | 503 => CS "Service Unavailable" | 504 => CS "Gateway Timeout" | _ => CS "Unknown"
  end.

(** The mobile test of the User-Agent: one scan, five patterns at each position. *)
Fixpoint is_mobile_ua (p : cstr) : bool :=
  match p with
  | [] => false
  | c :: p' =>
      ci_prefix (CS "Mobile") p || ci_prefix (CS "Android") p || ci_prefix (CS "iPhone") p
      || ci_prefix (CS "iPad") p || ci_prefix (CS "Mobi") p || is_mobile_ua p'
  end.
Definition is_mobile_request (ua : option cstr) : bool :=
  match ua with None => false | Some p => is_mobile_ua p end.

(** ** The limiter of media jobs: [g_media_concurrency]; [None] is a caller that has to wait *)

Definition tasfa_media_concurrency_acquire (n : Z) : option Z :=
  if TASFA_MAX_MEDIA_CONCURRENCY <=? n then None else Some (n + 1).
Definition tasfa_media_concurrency_release (n : Z) : Z := if 0 <? n then n - 1 else n.

(** ** Chunk sizes are in range whatever the client asks for *)

Lemma double_while_spec fuel m r :
  0 < r -> m <= 2 ^ 29 -> m <= r * 2 ^ Z.of_nat fuel ->
  r < m -> m <= double_while fuel m r < 2 * m.
Proof.
  revert r. induction fuel as [|fuel IH]; intros r Hr Hm Hf Hlt.
  { rewrite Z.pow_0_r in Hf. lia. }
  cbn [double_while]. replace ((r <? m) && (0 <? r)) with true by lia.
  rewrite i32_small by lia.
  destruct (Z.ltb_spec (r * 2) m) as [H2|H2].
  - apply IH; [lia|lia| |lia]. rewrite Nat2Z.inj_succ, Z.pow_succ_r in Hf by lia. lia.
  - assert (double_while fuel m (r * 2) = r * 2) as ->; [|lia].
    destruct fuel as [|f]; [done|]. cbn [double_while].
    by replace ((r * 2 <? m) && (0 <? r * 2)) with false by lia.
Qed.

Lemma halve_while_spec fuel m r :
  0 < m -> r < (m + 1) * 2 ^ Z.of_nat fuel -> m < r ->
  m / 2 <= halve_while fuel m r <= m.
Proof.
  intros Hm. revert r. induction fuel as [|fuel IH]; intros r Hf Hlt.
  { rewrite Z.pow_0_r in Hf. lia. }
  cbn [halve_while]. replace (m <? r) with true by lia.
  rewrite Z.quot_div_nonneg by lia.
  rewrite Nat2Z.inj_succ, Z.pow_succ_r in Hf by lia.
  destruct (decide (m < r / 2)) as [H2|H2].
  - apply IH; [|done]. apply Z.div_lt_upper_bound; lia.
  - assert (halve_while fuel m (r / 2) = r / 2) as ->.
    { destruct fuel as [|f]; [done|]. cbn [halve_while]. by replace (m <? r / 2) with false by lia. }
    split; [|lia]. apply Z.div_le_mono; lia.
Qed.

Lemma normalize_spec requested fallback lo hi :
  requested < 2 ^ 31 -> 2 * MiB <= lo -> 2 * lo <= hi -> hi <= 2 ^ 29 -> lo <= fallback <= hi ->
  let r := normalize_chunk_size_hint requested fallback lo hi in
  lo <= r <= hi /\
  (requested <= 0 -> r = fallback) /\
  (0 < requested < lo -> r < 2 * lo) /\
  (lo <= requested <= hi -> quantum <= lo -> (quantum | lo) -> r = requested / quantum * quantum) /\
  (hi + quantum <= requested -> hi / 2 <= r).
Proof.
  intros Hr Hlo Hhi Hmax Hfb. cbv zeta. unfold normalize_chunk_size_hint, quantum, MiB in *.
  destruct (Z.leb_spec requested 0) as [Hneg|Hpos]; [repeat split; lia|].
  rewrite Z.quot_div_nonneg by lia. change (128 * 1024) with 131072 in *.
  pose proof (Z.div_mod requested 131072 ltac:(lia)) as Hdm.
  pose proof (Z.mod_pos_bound requested 131072 ltac:(lia)) as Hmb.
  set (k := requested / 131072) in *. cbv zeta.
  set (q1 := if k * 131072 <? 131072 then 131072 else k * 131072).
  assert (Hq1 : 131072 <= q1 /\ (1 <= k -> q1 = k * 131072) /\ (k < 1 -> q1 = 131072)).
  { unfold q1. destruct (Z.ltb_spec (k * 131072) 131072); lia. }
  clearbody q1. destruct (Z.ltb_spec q1 lo) as [Hl|Hl].
  - pose proof (double_while_spec 32 lo q1 ltac:(lia) ltac:(lia) ltac:(lia) Hl) as Hd.
    set (d := double_while 32 lo q1) in *. clearbody d.
    destruct (Z.ltb_spec hi d); [lia|]. destruct (Z.ltb_spec d lo); [lia|].
    destruct (Z.ltb_spec hi d); [lia|].
    split; [lia|]. split; [lia|]. split; [lia|]. split; [|lia].
    intros Hin Hql [m Hm]. exfalso. assert (m <= k); [|lia]. apply Z.div_le_lower_bound; lia.
  - destruct (Z.ltb_spec hi q1) as [Hh|Hh].
    + pose proof (halve_while_spec 32 hi q1 ltac:(lia) ltac:(lia) Hh) as Hd.
      assert (lo <= hi / 2) by (apply Z.div_le_lower_bound; lia).
      set (d := halve_while 32 hi q1) in *. clearbody d.
      destruct (Z.ltb_spec d lo); [lia|]. destruct (Z.ltb_spec hi d); [lia|]. repeat split; lia.
    + destruct (Z.ltb_spec q1 lo); [lia|]. destruct (Z.ltb_spec hi q1); [lia|].
      split; [lia|]. split; [lia|]. split; [lia|]. split; [intros; lia|]. lia.
Qed.

Lemma upload_chunk_size_range mobile requested : - 2 ^ 31 <= requested < 2 ^ 31 ->
  2 * MiB <= choose_chunk_size_upload mobile requested <= 9 * MiB.
Proof.
  intros Hr. unfold choose_chunk_size_upload.
  assert (Hup : forall hi, 4 * MiB <= hi <= 9 * MiB ->
    2 * MiB <= normalize_chunk_size_hint requested hi TASFA_UPLOAD_CHUNK_SIZE_MIN hi <= 9 * MiB).
  { intros hi Hhi. unfold TASFA_UPLOAD_CHUNK_SIZE_MIN.
    destruct (normalize_spec requested hi (2 * MiB) hi) as (H1 & _);
      [unfold MiB in *; lia..|]. cbv zeta in H1. lia. }
  destruct mobile; apply Hup; unfold TASFA_UPLOAD_CHUNK_SIZE_MOBILE,
    TASFA_UPLOAD_CHUNK_SIZE_DEFAULT, TASFA_UPLOAD_CHUNK_SIZE_MOBILE_MAX, TASFA_UPLOAD_CHUNK_SIZE_MAX, MiB; lia.
Qed.

(** whatever chunk size a client requests, an upload chunk lies between 2 MiB and the limit
    of its device class (so a body never exceeds the server's cap), a download chunk between
    2 MiB and the larger of 32 MiB and the fast-link limit; a request in range is honoured up
    to rounding down to 128 KiB, and neither resizing loop overflows or runs on. *)
Theorem choose_chunk_size_bounds mobile requested total_size fast_link_max :
  - 2 ^ 31 <= requested < 2 ^ 31 ->
  TASFA_DOWNLOAD_CHUNK_SIZE_MAX <= fast_link_max <= TASFA_DOWNLOAD_CHUNK_SIZE_ULTRA_MAX ->
  let up := choose_chunk_size_upload mobile requested in
  let umax := if mobile then TASFA_UPLOAD_CHUNK_SIZE_MOBILE_MAX else TASFA_UPLOAD_CHUNK_SIZE_MAX in
  let down := choose_chunk_size_download mobile requested total_size fast_link_max in
  TASFA_UPLOAD_CHUNK_SIZE_MIN <= up <= umax /\
  (TASFA_UPLOAD_CHUNK_SIZE_MIN <= requested <= umax -> up = requested / quantum * quantum) /\
  TASFA_DOWNLOAD_CHUNK_SIZE_MIN <= down <= fast_link_max.
Proof.
  intros Hr Hf. cbv zeta. unfold choose_chunk_size_upload, choose_chunk_size_download.
  unfold TASFA_DOWNLOAD_CHUNK_SIZE_MAX, TASFA_DOWNLOAD_CHUNK_SIZE_ULTRA_MAX in *.
  assert (Hup : forall hi, 4 * MiB <= hi <= 16 * MiB ->
    TASFA_UPLOAD_CHUNK_SIZE_MIN <= normalize_chunk_size_hint requested hi TASFA_UPLOAD_CHUNK_SIZE_MIN hi <= hi /\
    (TASFA_UPLOAD_CHUNK_SIZE_MIN <= requested <= hi ->
     normalize_chunk_size_hint requested hi TASFA_UPLOAD_CHUNK_SIZE_MIN hi = requested / quantum * quantum)).
  { intros hi Hhi. unfold TASFA_UPLOAD_CHUNK_SIZE_MIN.
    destruct (normalize_spec requested hi (2 * MiB) hi) as (H1 & _ & _ & H2 & _);
      try (unfold MiB in *; lia).
    split; [exact H1|]. intros Hin. apply H2; [exact Hin|unfold quantum, MiB; lia|by exists 16]. }
  assert (Hm : 4 * MiB <= 8 * MiB <= 16 * MiB /\ 4 * MiB <= 9 * MiB <= 16 * MiB)
    by (unfold MiB; lia).
  split; [|split].
  - destruct mobile; [apply (proj1 (Hup (8 * MiB) (proj1 Hm)))|apply (proj1 (Hup (9 * MiB) (proj2 Hm)))].
  - destruct mobile; [apply (proj2 (Hup (8 * MiB) (proj1 Hm)))|apply (proj2 (Hup (9 * MiB) (proj2 Hm)))].
  - set (hi := if 32 * MiB <? fast_link_max then fast_link_max else 32 * MiB).
    assert (Hhi : hi = fast_link_max).
    { unfold hi. destruct (Z.ltb_spec (32 * MiB) fast_link_max); [done|lia]. }
    rewrite Hhi. set (fb := if 1024 * 1024 * 1024 <? total_size then _ else _).
    assert (Hfb : TASFA_DOWNLOAD_CHUNK_SIZE_MIN <= fb <= fast_link_max).
    { unfold fb, TASFA_DOWNLOAD_CHUNK_SIZE_MIN, TASFA_DOWNLOAD_CHUNK_SIZE_MOBILE,
        TASFA_DOWNLOAD_CHUNK_SIZE_DEFAULT, MiB in *. repeat case_match; lia. }
    set (rq := if _ && _ then fb else requested).
    assert (rq < 2 ^ 31).
    { unfold rq, MiB in *. case_match; lia. }
    clearbody rq fb. clear Hup.
    destruct (normalize_spec rq fb TASFA_DOWNLOAD_CHUNK_SIZE_MIN fast_link_max) as (H1 & _);
      [..|exact H1]; unfold TASFA_DOWNLOAD_CHUNK_SIZE_MIN, MiB in *; lia.
Qed.

Lemma choose_chunk_size_bounds_witness :
  choose_chunk_size_upload false (3 * 1024 * 1024 + 5) = 3 * 1024 * 1024 /\
  2 * 1024 * 1024 <= choose_chunk_size_download true 7 0 (32 * 1024 * 1024) <= 32 * 1024 * 1024.
Proof.
  split.
  - rewrite (proj1 (proj2 (choose_chunk_size_bounds false (3 * 1024 * 1024 + 5) 0
      TASFA_DOWNLOAD_CHUNK_SIZE_MAX ltac:(lia) ltac:(vm_compute; intuition congruence))));
      [reflexivity|vm_compute; intuition congruence].
  - exact (proj2 (proj2 (choose_chunk_size_bounds true 7 0 (32 * 1024 * 1024) ltac:(lia)
      ltac:(vm_compute; intuition congruence)))).
Defined.

(** ** Percent decoding *)

Definition unreserved (c : Z) : bool := isalnum c || (c =? CH "-") || (c =? CH "_") || (c =? CH ".").

(** The encoding a client applies to a path segment. *)
Definition percent_encode (s : cstr) : cstr :=
  concat (map (fun c => if unreserved c then [c] else 37 :: hex_byte c) s).

Lemma hex_digit_val v : 0 <= v < 16 -> isxdigit (hex_digit v) = true /\ hex_val (hex_digit v) = v.
Proof.
  intros H. unfold hex_digit, hex_val, isxdigit, isdigit. destruct (Z.ltb_spec v 10).
  - destruct (Z.leb_spec 48 (48 + v)), (Z.leb_spec (48 + v) 57); try lia.
    simpl. split; [done|lia].
  - destruct (Z.leb_spec 48 (97 + (v - 10))), (Z.leb_spec (97 + (v - 10)) 57),
      (Z.leb_spec 97 (97 + (v - 10))), (Z.leb_spec (97 + (v - 10)) 102),
      (Z.leb_spec 65 (97 + (v - 10))), (Z.leb_spec (97 + (v - 10)) 70);
      simpl; split; try done; lia.
Qed.

Lemma decode_plain c s : c <> 37 -> decode_bytes (c :: s) = c :: decode_bytes s.
Proof.
  intros Hc. simpl. destruct c as [|p|p]; try done.
  do 6 (destruct p as [p|p|]; try done).
Qed.

Lemma decode_bytes_length s : (length (decode_bytes s) <= length s)%nat.
Proof.
  assert (H : forall n s, (length s <= n)%nat -> (length (decode_bytes s) <= length s)%nat).
  2: by apply (H (length s)).
  clear s. induction n as [|n IH]; intros s Hs; destruct s as [|c s]; simpl in Hs; try lia; [done..|].
  destruct (decide (c = 37)) as [->|Hc].
  - pose proof (IH s ltac:(lia)) as IHs. destruct s as [|a [|b s]]; [simpl; lia| |].
    + change (decode_bytes [37; a]) with (37 :: decode_bytes [a]). simpl length in *. lia.
    + pose proof (IH s ltac:(simpl in *; lia)) as IHs2.
      change (decode_bytes (37 :: a :: b :: s)) with
        (if isxdigit a && isxdigit b then (16 * hex_val a + hex_val b) :: decode_bytes s
         else 37 :: decode_bytes (a :: b :: s)).
      case_match; cbn [length] in *; lia.
  - rewrite decode_plain by done. simpl. specialize (IH s ltac:(lia)). lia.
Qed.

Lemma until_nul_id s : cstr_wf s -> until_nul s = s.
Proof. induction 1 as [|c s Hc Hs IH]; simpl; [done|]. destruct (Z.eqb_spec c 0); [lia|]. by rewrite IH. Qed.

(** decoding a percent-encoded path segment gives the segment back, and decoding anything
    never writes more than the source length plus the terminator. *)
Theorem decode_segment_encode s t :
  cstr_wf s ->
  decode_segment (percent_encode s) = s /\ (length (decode_bytes t) + 1 <= length t + 1)%nat.
Proof.
  intros Hs. split; [|pose proof (decode_bytes_length t); lia].
  unfold decode_segment. replace (decode_bytes (percent_encode s)) with s; [by apply until_nul_id|].
  induction Hs as [|c s Hc _ IH]; [done|].
  change (percent_encode (c :: s)) with ((if unreserved c then [c] else 37 :: hex_byte c) ++ percent_encode s).
  destruct (unreserved c) eqn:Eu.
  - simpl app. rewrite decode_plain, <- IH; [done|]. intros ->. discriminate.
  - unfold hex_byte. cbn [app].
    pose proof (hex_digit_val (c / 16) ltac:(split; [apply Z.div_pos; lia|apply Z.div_lt_upper_bound; lia])) as [Hx1 Hv1].
    pose proof (hex_digit_val (c `mod` 16) ltac:(apply Z.mod_pos_bound; lia)) as [Hx2 Hv2].
    cbn [decode_bytes]. rewrite Hx1, Hx2, Hv1, Hv2. simpl. rewrite <- IH.
    by rewrite <- (Z.div_mod c 16) by lia.
Qed.

Lemma decode_segment_encode_witness :
  decode_segment (percent_encode (CS "a b/%")) = CS "a b/%".
Proof.
  refine (proj1 (decode_segment_encode (CS "a b/%") [] _)).
  repeat constructor; vm_compute; congruence.
Defined.

Lemma choose_upload_window_eq cfg mobile score :
  let '(i, m, pace) := if 45 <=? score then (32, 48, 0) else if 25 <=? score then (24, 32, 0)
                       else if 10 <=? score then (16, 24, 1) else (10, 16, 3) in
  let lim := Z.min 48 (Z.max 1 cfg) in
  choose_upload_window cfg mobile score = Window (Z.min (Z.min lim m) i) (Z.min lim m) pace.
Proof.
  unfold choose_upload_window.
  assert (Hl : tasfa_upload_parallel_limit cfg = Z.min 48 (Z.max 1 cfg)).
  { unfold tasfa_upload_parallel_limit, TASFA_UPLOAD_MAX_PARALLEL.
    destruct (Z.ltb_spec cfg 1); [simpl; lia|]. destruct (Z.ltb_spec 48 cfg); lia. }
  rewrite Hl. set (lim := Z.min 48 (Z.max 1 cfg)).
  assert (Hw : forall i m pace, 8 <= i ->
    Window (if (if lim <? m then lim else m) <? (if i <? (if mobile then 4 else 8) then if mobile then 4 else 8 else i)
            then if lim <? m then lim else m
            else if i <? (if mobile then 4 else 8) then if mobile then 4 else 8 else i)
      (if lim <? m then lim else m) pace = Window (Z.min (Z.min lim m) i) (Z.min lim m) pace).
  { intros i m pace Hi.
    assert ((if i <? (if mobile then 4 else 8) then if mobile then 4 else 8 else i) = i) as ->.
    { destruct mobile; [destruct (Z.ltb_spec i 4)|destruct (Z.ltb_spec i 8)]; lia. }
    assert ((if lim <? m then lim else m) = Z.min lim m) as ->.
    { destruct (Z.ltb_spec lim m); lia. }
    f_equal. destruct (Z.ltb_spec (Z.min lim m) i); lia. }
  destruct (45 <=? score); [by apply Hw|]. destruct (25 <=? score); [by apply Hw|].
  destruct (10 <=? score); by apply Hw.
Qed.

(** The upload window handed to a client starts with at least one chunk in flight, never
    exceeds the configured limit or 48, and a better link never gets a smaller window. *)
Theorem choose_upload_window_bounds cfg mobile score score' :
  score <= score' ->
  let w := choose_upload_window cfg mobile score in
  let w' := choose_upload_window cfg mobile score' in
  1 <= w_initial w <= w_max w /\ w_max w <= TASFA_UPLOAD_MAX_PARALLEL /\
  (1 <= cfg -> w_max w <= cfg) /\ 0 <= w_pacing_ms w <= 3 /\
  w_initial w <= w_initial w' /\ w_max w <= w_max w' /\ w_pacing_ms w' <= w_pacing_ms w.
Proof.
  intros Hle. cbv zeta. pose proof (choose_upload_window_eq cfg mobile score) as H.
  pose proof (choose_upload_window_eq cfg mobile score') as H'. unfold TASFA_UPLOAD_MAX_PARALLEL.
  destruct (Z.leb_spec 45 score), (Z.leb_spec 25 score), (Z.leb_spec 10 score),
    (Z.leb_spec 45 score'), (Z.leb_spec 25 score'), (Z.leb_spec 10 score'); try lia;
    rewrite H, H'; simpl; lia.
Qed.

Lemma choose_upload_window_bounds_witness :
  w_initial (choose_upload_window 20 false 5) <= w_initial (choose_upload_window 20 false 50).
Proof. apply (choose_upload_window_bounds 20 false 5 50). lia. Defined.
