(* ===== verification/RollingHash.v ===== *)
(** * The rolling SHA-256 of an upload (src/src/handlers/tasfa/common.c)

    A table of slots under one mutex follows the uploads in progress: every stored chunk is
    noted, and the contiguous prefix of chunks not hashed yet is read back from the temporary
    file, hashed outside the lock and committed.  SHA-256 is OpenSSL's: its streaming interface
    is a parameter of the section. *)
From S2P Require Import Prelude CStr Files.

Definition TASFA_ROLLING_HASH_SLOTS : nat := 256.

Section rolling.
Context {ctx digest : Type}.
Variables (SHA256_Init : ctx) (SHA256_Update : ctx -> list Z -> ctx) (SHA256_Final : ctx -> digest).

Record slot := Slot {
  upload_id : cstr;
  used : bool;
  total_size : Z;
  chunk_size : Z;
  data_chunks : Z;
  next_chunk : Z;      (* first data chunk not yet fed to the ctx *)
  consumed : Z;        (* bytes fed to the ctx *)
  received : list bool;
  sctx : ctx;
}.

(** [memset(slot, 0, sizeof *slot)]; the ctx of an unused slot is never read. *)
Definition empty_slot : slot := Slot [] false 0 0 0 0 0 [] SHA256_Init.

Definition same_id (id : cstr) (s : slot) : bool := used s && streq (upload_id s) id.

Fixpoint find_from {A} (P : A -> bool) (i : nat) (l : list A) : option nat :=
  match l with
  | [] => None
  | x :: l' => if P x then Some i else find_from P (S i) l'
  end.

Definition rolling_hash_find_locked (id : option cstr) (t : list slot) : option nat :=
  match id with
  | Some (c :: r) => find_from (same_id (c :: r)) 0 t
  | _ => None
  end.

Definition rolling_hash_drop_locked (i : nat) (t : list slot) : list slot := <[i := empty_slot]> t.

Definition tasfa_rolling_hash_reset (id : option cstr) (t : list slot) : list slot :=
  match rolling_hash_find_locked id t with
  | Some i => rolling_hash_drop_locked i t
  | None => t
  end.

Definition slot_at (i : nat) (t : list slot) : slot := default empty_slot (t !! i).

Definition tasfa_rolling_hash_notify_rewrite (id : option cstr) (chunk_index : Z) (t : list slot)
  : list slot :=
  match rolling_hash_find_locked id t with
  | Some i => if chunk_index <? next_chunk (slot_at i t) then rolling_hash_drop_locked i t else t
  | None => t
  end.

(** [while (end < data_chunks && received[end] == '1') end++]; [n] chunks are left. *)
Fixpoint scan_end (n : nat) (e : Z) (r : list bool) : Z :=
  match n with
  | O => e
  | S n' => if nth (Z.to_nat e) r false then scan_end n' (e + 1) r else e
  end.

(** [while (done < len)]: pieces of at most 64 KiB; [None] when the file ends early. *)
Fixpoint read_pieces (fuel : nat) (file : list Z) (off len : Z) (c : ctx) : option ctx :=
  match fuel with
  | O => None
  | S f =>
      if len <=? 0 then Some c
      else
        let want := if 65536 <? len then 65536 else len in
        let buf := pread file (Z.to_nat off) (Z.to_nat want) in
        match buf with
        | [] => None
        | _ => read_pieces f file (off + zlen buf) (len - zlen buf) (SHA256_Update c buf)
        end
  end.

(** The loop over the chunks [start..end): the digest context and the bytes consumed. *)
Fixpoint read_chunks (n : nat) (chunk : Z) (file : list Z) (chunk_size total_size : Z)
    (c : ctx) (consumed : Z) : option (ctx * Z) :=
  match n with
  | O => Some (c, consumed)
  | S n' =>
      let offset := chunk * chunk_size in
      let len := total_size - offset in
      let len := if chunk_size <? len then chunk_size else len in
      if len <=? 0 then Some (c, consumed)
      else match read_pieces (S (Z.to_nat len)) file offset len c with
           | None => None
           | Some c' => read_chunks n' (chunk + 1) file chunk_size total_size c' (consumed + len)
           end
  end.

(** The snapshot a consumer takes under the lock. *)
Record snapshot := Snapshot {
  sn_start : Z; sn_end : Z; sn_chunk_size : Z; sn_data_chunks : Z; sn_total_size : Z }.

Definition consume_snapshot (id : option cstr) (t : list slot) : option snapshot :=
  match rolling_hash_find_locked id t with
  | None => None
  | Some i =>
      let s := slot_at i t in
      let start := next_chunk s in
      Some (Snapshot start (scan_end (Z.to_nat (data_chunks s - start)) start (received s))
              (chunk_size s) (data_chunks s) (total_size s))
  end.

Definition consume_read (sn : snapshot) (file : option (list Z)) : option (ctx * Z) :=
  if sn_end sn <=? sn_start sn then None
  else match file with
       | None => None
       | Some f => read_chunks (Z.to_nat (sn_end sn - sn_start sn)) (sn_start sn) f
                     (sn_chunk_size sn) (sn_total_size sn) SHA256_Init 0
       end.

Definition consume_commit (id : option cstr) (sn : snapshot) (r : ctx * Z) (t : list slot)
  : list slot :=
  match rolling_hash_find_locked id t with
  | None => t
  | Some i =>
      let s := slot_at i t in
      if (next_chunk s =? sn_start sn) && (chunk_size s =? sn_chunk_size sn)
         && (data_chunks s =? sn_data_chunks sn) && (total_size s =? sn_total_size sn)
         && (sn_end sn <=? data_chunks s)
      then <[i := Slot (upload_id s) (used s) (total_size s) (chunk_size s) (data_chunks s)
                    (sn_end sn) (consumed s + snd r) (received s) (fst r)]> t
      else rolling_hash_drop_locked i t
  end.

(** [rolling_hash_consume] with no other consumer in between. *)
Definition rolling_hash_consume (id : option cstr) (path : option cstr) (files : fs) (t : list slot)
  : list slot :=
  match path with
  | Some (c :: p) =>
      match consume_snapshot id t with
      | None => t
      | Some sn => match consume_read sn (files !! (c :: p)) with
                   | None => t
                   | Some r => consume_commit id sn r t
                   end
      end
  | _ => t
  end.

Definition tasfa_rolling_hash_note_chunk (id : option cstr) (temp_path : option cstr)
    (chunk_index csize dchunks total : Z) (files : fs) (t : list slot) : bool * list slot :=
  match id with
  | None => (false, t)
  | Some ids =>
      if (chunk_index <? 0) || (dchunks <=? chunk_index) || (csize <=? 0) || (total <=? 0)
      then (false, t)
      else
        let found := rolling_hash_find_locked id t in
        let '(found, t) :=
          match found with
          | Some i =>
              let s := slot_at i t in
              if negb ((chunk_size s =? csize) && (data_chunks s =? dchunks)
                       && (total_size s =? total))
              then (None, rolling_hash_drop_locked i t) else (found, t)
          | None => (found, t)
          end in
        let '(found, t) :=
          match found with
          | Some i => (found, t)
          | None =>
              match find_from (fun s => negb (used s)) 0 t with
              | Some i =>
                  (Some i, <[i := Slot (snprintf_s 33 ids) true total csize dchunks 0 0
                                    (replicate (Z.to_nat dchunks + 1) false) SHA256_Init]> t)
              | None => (None, t)
              end
          end in
        match found with
        | None => (true, t)
        | Some i =>
            let s := slot_at i t in
            if chunk_index <? next_chunk s then (true, rolling_hash_drop_locked i t)
            else
              let t := <[i := Slot (upload_id s) (used s) (total_size s) (chunk_size s)
                                (data_chunks s) (next_chunk s) (consumed s)
                                (<[Z.to_nat chunk_index := true]> (received s)) (sctx s)]> t in
              (true, rolling_hash_consume id temp_path files t)
        end
  end.

Definition tasfa_rolling_hash_finish (id path : option cstr) (csize dchunks total : Z)
    (files : fs) (t : list slot) : option digest * list slot :=
  let '(geometry_ok, t) :=
    match rolling_hash_find_locked id t with
    | None => (false, t)
    | Some i =>
        let s := slot_at i t in
        if (chunk_size s =? csize) && (data_chunks s =? dchunks) && (total_size s =? total)
        then (true, t) else (false, rolling_hash_drop_locked i t)
    end in
  let t := if geometry_ok : bool then rolling_hash_consume id path files t else t in
  match rolling_hash_find_locked id t with
  | None => (None, t)
  | Some i =>
      let s := slot_at i t in
      (if (consumed s =? total_size s) && (data_chunks s <=? next_chunk s)
       then Some (SHA256_Final (sctx s)) else None,
       rolling_hash_drop_locked i t)
  end.

Definition rolling_init : list slot := replicate TASFA_ROLLING_HASH_SLOTS empty_slot.

(** Noting several chunks one after the other. *)
Definition note_all (id path : cstr) (l : list Z) (csize dchunks total : Z) (files : fs)
    (t : list slot) : list slot :=
  fold_left (fun t i => snd (tasfa_rolling_hash_note_chunk (Some id) (Some path) i csize dchunks total files t))
    l t.
End rolling.

(** ** What reading the chunks back hashes *)

Definition slice (data : list Z) (a b : Z) : list Z := pread data (Z.to_nat a) (Z.to_nat (b - a)).

Lemma slice_app data a b c :
  0 <= a <= b -> b <= c -> slice data a b ++ slice data b c = slice data a c.
Proof.
  intros Hab Hbc. unfold slice, pread.
  replace (Z.to_nat (c - a)) with (Z.to_nat (b - a) + Z.to_nat (c - b))%nat by lia.
  rewrite <- take_take_drop, drop_drop. repeat f_equal. lia.
Qed.

Lemma slice_len data a b : 0 <= a <= b -> b <= zlen data -> zlen (slice data a b) = b - a.
Proof. intros. unfold slice, zlen in *. rewrite length_pread. lia. Qed.

Lemma find_from_insert {A} (P : A -> bool) j (l : list A) i x :
  find_from P j l = Some i -> P x = true -> find_from P j (<[(i - j)%nat := x]> l) = Some i.
Proof.
  revert j. induction l as [|a l IH]; intros j H Hx; simplify_eq/=.
  destruct (P a) eqn:Ha.
  - simplify_eq. rewrite Nat.sub_diag. simpl. by rewrite Hx.
  - assert (Hle : (S j <= i)%nat).
    { clear - H. revert j H. induction l as [|b l IH]; intros j H; simplify_eq/=.
      destruct (P b); simplify_eq; [lia|]. apply IH in H. lia. }
    replace (i - j)%nat with (S (i - S j)) by lia. simpl. rewrite Ha. by apply IH.
Qed.

Section proofs.
Context {ctx digest : Type}.
Variables (SHA256_Init : ctx) (SHA256_Update : ctx -> list Z -> ctx) (SHA256_Final : ctx -> digest).

(** OpenSSL documents that data may be hashed in pieces. *)
Hypothesis sha_stream : forall c a b,
  SHA256_Update (SHA256_Update c a) b = SHA256_Update c (a ++ b).

Lemma read_pieces_spec data fuel off len c :
  0 <= off -> 0 < len -> off + len <= zlen data -> (Z.to_nat len < fuel)%nat ->
  read_pieces SHA256_Update fuel data off len c = Some (SHA256_Update c (slice data off (off + len))).
Proof.
  revert off len c. induction fuel as [|f IH]; intros off len c Ho Hl Hb Hf; [lia|].
  cbn [read_pieces]. destruct (Z.leb_spec len 0); [lia|]. cbv zeta.
  set (want := if 65536 <? len then 65536 else len).
  assert (Hw : 0 < want <= len) by (unfold want; destruct (Z.ltb_spec 65536 len); lia).
  assert (Hbuf : pread data (Z.to_nat off) (Z.to_nat want) = slice data off (off + want)).
  { unfold slice. do 2 f_equal. lia. }
  pose proof (slice_len data off (off + want) ltac:(lia) ltac:(lia)) as Hlen.
  rewrite Hbuf, Hlen. destruct (slice data off (off + want)) as [|b l] eqn:E;
    [unfold zlen in Hlen; simpl in Hlen; lia|]. rewrite <- E.
  replace (off + want - off) with want by lia.
  destruct (decide (want = len)) as [->|Hne].
  - replace (len - len) with 0 by lia. destruct f; [lia|]. done.
  - rewrite IH by lia. rewrite sha_stream. replace (off + want + (len - want)) with (off + len) by lia.
    by rewrite slice_app by lia.
Qed.

Section geometry.
Variables (data : list Z) (cs n : Z).
Hypothesis Hcs : 0 < cs.
Hypothesis Hn : (n - 1) * cs < zlen data <= n * cs.

(** The end of chunk [k - 1] in the file. *)
Definition upto (k : Z) : Z := Z.min (k * cs) (zlen data).

Lemma chunk_below k : 0 <= k < n -> k * cs < zlen data.
Proof. intros Hk. pose proof (proj1 Hn). nia. Qed.

Lemma read_chunks_spec m k c acc :
  0 <= k -> k + Z.of_nat m <= n -> (1 <= m)%nat ->
  read_chunks SHA256_Update m k data cs (zlen data) c acc
  = Some (SHA256_Update c (slice data (k * cs) (upto (k + Z.of_nat m))),
          acc + (upto (k + Z.of_nat m) - k * cs)).
Proof.
  intros Hk. revert k c acc Hk. induction m as [|m IH]; intros k c acc Hk Hkm Hm; [lia|].
  pose proof (chunk_below k ltac:(lia)) as Hb. cbn [read_chunks]. cbv zeta.
  assert (Hlen : (if cs <? zlen data - k * cs then cs else zlen data - k * cs) = upto (k + 1) - k * cs).
  { unfold upto. destruct (Z.ltb_spec cs (zlen data - k * cs)); lia. }
  rewrite Hlen.
  assert (Hpos : 0 < upto (k + 1) - k * cs) by (unfold upto; lia).
  destruct (Z.leb_spec (upto (k + 1) - k * cs) 0); [lia|].
  rewrite read_pieces_spec; [|nia|lia|unfold upto; lia|lia].
  replace (k * cs + (upto (k + 1) - k * cs)) with (upto (k + 1)) by lia.
  destruct m as [|m].
  - replace (k + Z.of_nat 1) with (k + 1) by lia. done.
  - rewrite IH by lia. rewrite sha_stream.
    pose proof (chunk_below (k + 1) ltac:(lia)).
    replace (upto (k + 1)) with ((k + 1) * cs) by (unfold upto; lia).
    assert (0 <= k * cs <= (k + 1) * cs) by nia.
    replace (k + 1 + Z.of_nat (S m)) with (k + Z.of_nat (S (S m))) by lia.
    assert ((k + 1) * cs <= upto (k + Z.of_nat (S (S m)))) by (unfold upto; nia).
    rewrite slice_app by lia. do 2 f_equal. lia.
Qed.

(** ** Tracking one upload *)

Variables (id path : cstr) (files : fs).
Hypothesis Hid : (0 < length id < 33)%nat.
Hypothesis Hpath : path <> [].
Hypothesis Hfile : files !! path = Some data.
Hypothesis Hn1 : 1 <= n.

Definition my_slot (k cons : Z) (r : list bool) (c : ctx) : slot :=
  Slot id true (zlen data) cs n k cons r c.

(** The table holds the upload in slot [i]; [R] is the set of chunks noted. *)
Definition tracks (i : nat) (t : list slot) (k cons : Z) (c : ctx) (R : Z -> bool) : Prop :=
  rolling_hash_find_locked (Some id) t = Some i /\
  exists r, t !! i = Some (my_slot k cons r c) /\ length r = S (Z.to_nat n) /\
    forall j, 0 <= j < n -> nth (Z.to_nat j) r false = R j.

Lemma find_insert (t : list (@slot ctx)) i s :
  rolling_hash_find_locked (Some id) t = Some i -> upload_id s = id -> used s = true ->
  rolling_hash_find_locked (Some id) (<[i := s]> t) = Some i.
Proof.
  intros Hf Hs Hu. unfold rolling_hash_find_locked in *. destruct id as [|a l] eqn:E; [simpl in Hid; lia|].
  rewrite <- (Nat.sub_0_r i) at 1. apply find_from_insert; [done|].
  unfold same_id. rewrite Hs, Hu. by apply streq_refl.
Qed.

Lemma scan_end_spec r R m k e :
  (forall j, 0 <= j < n -> nth (Z.to_nat j) r false = R j) ->
  0 <= k <= e -> e <= n -> n = k + Z.of_nat m ->
  (forall j, k <= j < e -> R j = true) -> (e = n \/ R e = false) ->
  scan_end m k r = e.
Proof.
  intros Hr. revert k. induction m as [|m IH]; intros k Hk He Hm Hall Hend; simpl; [lia|].
  rewrite Hr by lia. destruct (decide (k = e)) as [->|Hne].
  - destruct Hend as [Hend|Hend]; [lia|by rewrite Hend].
  - rewrite Hall by lia. apply IH; [lia|lia|lia| |done]. intros. apply Hall. lia.
Qed.

Lemma tracks_slot i t k cons c R :
  tracks i t k cons c R -> exists r, slot_at SHA256_Init i t = my_slot k cons r c /\
    t !! i = Some (my_slot k cons r c) /\
    length r = S (Z.to_nat n) /\ forall j, 0 <= j < n -> nth (Z.to_nat j) r false = R j.
Proof. intros (_ & r & Ht & Hl & Hr). exists r. unfold slot_at. by rewrite Ht. Qed.

Lemma consume_spec i t k cons c R e :
  tracks i t k cons c R -> 0 <= k <= e -> e <= n ->
  (forall j, k <= j < e -> R j = true) -> (e = n \/ R e = false) ->
  let t' := rolling_hash_consume SHA256_Init SHA256_Update (Some id) (Some path) files t in
  (k = e -> t' = t) /\
  (k < e -> tracks i t' e (cons + (upto e - k * cs)) (SHA256_Update SHA256_Init (slice data (k * cs) (upto e))) R).
Proof.
  intros Ht Hk He Hall Hend. pose proof Ht as [Hf _].
  destruct (tracks_slot _ _ _ _ _ _ Ht) as (r & Hs & Hti & Hl & Hr).
  cbv zeta. unfold rolling_hash_consume. destruct path as [|p0 p] eqn:Ep; [done|]. rewrite <- Ep in *.
  unfold consume_snapshot. rewrite Hf, Hs. cbn [next_chunk my_slot received chunk_size data_chunks total_size].
  rewrite (scan_end_spec r R _ k e Hr) by (try done; lia).
  unfold consume_read. cbn [sn_end sn_start sn_chunk_size sn_total_size]. rewrite Hfile. split.
  - intros ->. destruct (Z.leb_spec e e); [done|lia].
  - intros Hlt. destruct (Z.leb_spec e k); [lia|]. rewrite read_chunks_spec by lia.
    replace (k + Z.of_nat (Z.to_nat (e - k))) with e by lia. rewrite Z.add_0_l.
    unfold consume_commit. rewrite Hf, Hs.
    cbn [next_chunk my_slot received chunk_size data_chunks total_size sn_start sn_end sn_chunk_size
         sn_data_chunks sn_total_size upload_id used consumed sctx fst snd].
    rewrite !Z.eqb_refl. destruct (Z.leb_spec e n); [|lia]. cbn [andb]. split.
    + by apply find_insert.
    + exists r. split; [|done]. rewrite list_lookup_insert_eq; [done|]. by eapply lookup_lt_Some.
Qed.

(** Noting chunk [j] with the upload already in the table. *)
Lemma note_spec i t k cons c R j e :
  tracks i t k cons c R -> 0 <= k <= j -> j < n -> k <= e <= n ->
  let R' x := (x =? j) || R x in
  (forall x, k <= x < e -> R' x = true) -> (e = n \/ R' e = false) ->
  exists t', tasfa_rolling_hash_note_chunk SHA256_Init SHA256_Update (Some id) (Some path) j cs n (zlen data) files t
             = (true, t') /\
    (k = e -> tracks i t' k cons c R') /\
    (k < e -> tracks i t' e (cons + (upto e - k * cs))
                (SHA256_Update SHA256_Init (slice data (k * cs) (upto e))) R').
Proof.
  intros Ht Hk Hj He R' Hall Hend. pose proof Ht as [Hf _].
  destruct (tracks_slot _ _ _ _ _ _ Ht) as (r & Hs & Hti & Hl & Hr).
  unfold tasfa_rolling_hash_note_chunk.
  pose proof (chunk_below 0 ltac:(lia)) as Hpos.
  replace ((j <? 0) || (n <=? j) || (cs <=? 0) || (zlen data <=? 0)) with false by lia.
  rewrite Hf, Hs. cbn [chunk_size data_chunks total_size my_slot]. rewrite !Z.eqb_refl. cbn [andb negb].
  rewrite Hs. cbn [next_chunk my_slot upload_id used total_size chunk_size data_chunks consumed received sctx].
  destruct (Z.ltb_spec j k); [lia|]. eexists. split; [reflexivity|].
  set (t1 := <[i := _]> t).
  assert (Ht1 : tracks i t1 k cons c R').
  { split; [by apply find_insert|]. exists (<[Z.to_nat j := true]> r). split.
    - unfold t1. rewrite list_lookup_insert_eq; [done|]. by eapply lookup_lt_Some.
    - rewrite length_insert. split; [done|]. intros x Hx. rewrite !nth_lookup. unfold R'.
      destruct (Z.eqb_spec x j) as [->|Hne]; simpl.
      + rewrite list_lookup_insert_eq by lia. done.
      + rewrite list_lookup_insert_ne by lia. rewrite <- nth_lookup. by apply Hr. }
  destruct (consume_spec i t1 k cons c R' e Ht1) as [H1 H2]; [lia|lia|done|done|].
  split; [|done]. intros Heq. by rewrite H1.
Qed.

Lemma tracks_ext i t k cons c R R' :
  (forall x, 0 <= x < n -> R x = R' x) -> tracks i t k cons c R -> tracks i t k cons c R'.
Proof.
  intros HR (Hf & r & Ht & Hl & Hr). split; [done|]. exists r. split; [done|]. split; [done|].
  intros j Hj. rewrite <- HR by done. by apply Hr.
Qed.

Definition fresh_table : list (@slot ctx) :=
  <[0%nat := my_slot 0 0 (replicate (Z.to_nat n + 1) false) SHA256_Init]> (rolling_init SHA256_Init).

Lemma fresh_tracks : tracks 0 fresh_table 0 0 SHA256_Init (fun _ => false).
Proof.
  split.
  - unfold rolling_hash_find_locked, fresh_table. destruct id as [|a l] eqn:E; [simpl in Hid; lia|].
    unfold rolling_init. change TASFA_ROLLING_HASH_SLOTS with (S 255). cbn [replicate].
    simpl. unfold same_id. simpl. rewrite E. by rewrite streq_refl.
  - exists (replicate (Z.to_nat n + 1) false). split; [done|]. split; [rewrite length_replicate; lia|].
    intros j Hj. rewrite nth_lookup. destruct (replicate _ _ !! _) eqn:E; [|done].
    by apply lookup_replicate in E as [-> _].
Qed.

Lemma note_fresh j :
  0 <= j < n ->
  tasfa_rolling_hash_note_chunk SHA256_Init SHA256_Update (Some id) (Some path) j cs n (zlen data) files
    (rolling_init SHA256_Init)
  = tasfa_rolling_hash_note_chunk SHA256_Init SHA256_Update (Some id) (Some path) j cs n (zlen data) files
      fresh_table.
Proof.
  intros Hj. destruct fresh_tracks as [Hf (r & Ht & _)].
  pose proof (chunk_below 0 ltac:(lia)) as Hpos. unfold tasfa_rolling_hash_note_chunk.
  replace ((j <? 0) || (n <=? j) || (cs <=? 0) || (zlen data <=? 0)) with false by lia. cbv zeta.
  rewrite Hf. assert (Hnone : rolling_hash_find_locked (Some id) (rolling_init SHA256_Init) = None).
  { unfold rolling_hash_find_locked. destruct id as [|a l]; [done|]. unfold rolling_init.
    generalize 0%nat. induction TASFA_ROLLING_HASH_SLOTS as [|m IH]; intros i; simpl; [done|]. apply IH. }
  rewrite Hnone.
  change (find_from (fun s => negb (used s)) 0 (rolling_init SHA256_Init)) with (Some 0%nat).
  cbv iota beta. replace (snprintf_s 33 id) with id by (symmetry; apply snprintf_s_id; lia).
  fold (my_slot 0 0 (replicate (Z.to_nat n + 1) false) SHA256_Init). fold fresh_table.
  assert (Hs : slot_at SHA256_Init 0 fresh_table
               = my_slot 0 0 (replicate (Z.to_nat n + 1) false) SHA256_Init) by done.
  rewrite Hs. cbn [chunk_size data_chunks total_size my_slot]. rewrite !Z.eqb_refl. cbn [andb negb].
  by rewrite Hs.
Qed.

(** Every chunk but the first, from the last one down. *)
Lemma note_reverse len :
  (Z.of_nat len < n)%Z -> (0 < len)%nat ->
  tracks 0 (note_all SHA256_Init SHA256_Update id path (rev (map Z.of_nat (seq (Z.to_nat n - len) len))) cs n
              (zlen data) files (rolling_init SHA256_Init))
    0 0 SHA256_Init (fun x => n - Z.of_nat len <=? x).
Proof.
  induction len as [|len IH]; [lia|]. intros Hlen _.
  cbn [seq map rev]. unfold note_all. rewrite fold_left_app. cbn [fold_left].
  replace (S (Z.to_nat n - S len)) with (Z.to_nat n - len)%nat by lia.
  set (j := Z.of_nat (Z.to_nat n - S len)).
  assert (Hstep : forall t R, tracks 0 t 0 0 SHA256_Init R -> R 0 = false ->
    tracks 0 (tasfa_rolling_hash_note_chunk SHA256_Init SHA256_Update (Some id) (Some path) j cs n
                (zlen data) files t).2 0 0 SHA256_Init (fun x => (x =? j) || R x)).
  { intros t R Ht HR. destruct (note_spec 0 t 0 0 SHA256_Init R j 0 Ht) as (t' & -> & H0 & _);
      [lia|lia|lia|intros; lia| |by apply H0].
    right. rewrite HR. destruct (Z.eqb_spec 0 j); [lia|done]. }
  destruct len as [|len].
  - cbn [seq map rev fold_left]. rewrite note_fresh by lia. eapply tracks_ext; [|apply Hstep; [apply fresh_tracks|done]].
    intros x Hx. simpl. unfold j. rewrite orb_false_r.
    apply eq_true_iff_eq. rewrite Z.eqb_eq, Z.leb_le. lia.
  - eapply tracks_ext; [|apply Hstep; [apply IH; lia|]]; [intros x Hx|apply Z.leb_gt; lia].
    apply eq_true_iff_eq. unfold j. rewrite orb_true_iff, Z.eqb_eq, !Z.leb_le. lia.
Qed.

(** The chunks in order. *)
Lemma note_in_order k :
  (Z.of_nat (S k) <= n)%Z ->
  tracks 0 (note_all SHA256_Init SHA256_Update id path (map Z.of_nat (seq 0 (S k))) cs n
              (zlen data) files (rolling_init SHA256_Init))
    (Z.of_nat (S k)) (upto (Z.of_nat (S k)))
    (SHA256_Update SHA256_Init (slice data (Z.of_nat k * cs) (upto (Z.of_nat (S k)))))
    (fun x => x <=? Z.of_nat k).
Proof.
  induction k as [|k IH]; intros Hk.
  - cbn [seq map]. unfold note_all. cbn [fold_left]. change (Z.of_nat 0) with 0 in *.
    change (Z.of_nat 1) with 1 in *. rewrite note_fresh by lia.
    destruct (note_spec 0 fresh_table 0 0 SHA256_Init (fun _ => false) 0 1 fresh_tracks)
      as (t' & -> & _ & H1); [lia|lia|lia|intros; lia| |].
    { destruct (decide (n = 1)); [by left|right]. done. }
    simpl snd. specialize (H1 ltac:(lia)). rewrite Z.mul_0_l, Z.sub_0_r, Z.add_0_l in H1.
    eapply tracks_ext; [|exact H1]. intros x Hx.
    apply eq_true_iff_eq. rewrite orb_true_iff, Z.eqb_eq, Z.leb_le. intuition (lia || done).
  - rewrite seq_S, map_app. cbn [map Nat.add]. unfold note_all. rewrite fold_left_app. cbn [fold_left].
    specialize (IH ltac:(lia)). unfold note_all in IH. set (t := fold_left _ _ _) in *.
    destruct (note_spec 0 t (Z.of_nat (S k)) (upto (Z.of_nat (S k))) _ _ (Z.of_nat (S k))
                (Z.of_nat (S (S k))) IH) as (t' & -> & _ & H1); [lia|lia|lia| | |].
    { intros x Hx. apply orb_true_iff. left. apply Z.eqb_eq. lia. }
    { destruct (decide (n = Z.of_nat (S (S k)))); [by left|right]. apply orb_false_iff.
      split; [apply Z.eqb_neq|apply Z.leb_gt]; lia. }
    simpl snd. specialize (H1 ltac:(lia)).
    pose proof (chunk_below (Z.of_nat (S k)) ltac:(lia)).
    replace (upto (Z.of_nat (S k)) + (upto (Z.of_nat (S (S k))) - Z.of_nat (S k) * cs))
      with (upto (Z.of_nat (S (S k)))) in H1 by (unfold upto; lia).
    eapply tracks_ext; [|exact H1]. intros x Hx.
    apply eq_true_iff_eq. rewrite orb_true_iff, Z.eqb_eq, !Z.leb_le. lia.
Qed.

(** Finishing an upload whose chunks are all consumed. *)
Lemma finish_spec t c R :
  tracks 0 t n (zlen data) c R ->
  fst (tasfa_rolling_hash_finish SHA256_Init SHA256_Update SHA256_Final (Some id) (Some path) cs n
         (zlen data) files t) = Some (SHA256_Final c).
Proof.
  intros Ht. pose proof Ht as [Hf _]. destruct (tracks_slot _ _ _ _ _ _ Ht) as (r & Hs & _).
  unfold tasfa_rolling_hash_finish. rewrite Hf, Hs.
  cbn [chunk_size data_chunks total_size my_slot]. rewrite !Z.eqb_refl. cbn [andb].
  destruct (consume_spec 0 t n (zlen data) c R n Ht) as [H1 _]; [lia|lia|intros; lia|by left|].
  rewrite H1 by done. rewrite Hf, Hs. cbn [consumed total_size data_chunks next_chunk sctx my_slot].
  rewrite Z.eqb_refl. destruct (Z.leb_spec n n); [done|lia].
Qed.
End geometry.
End proofs.

(** the digest the finalizer takes for the digest of the whole file depends on the order in
    which the chunks arrived: when chunk 0 arrives last every byte is hashed once and in order,
    but when they arrive in order each chunk starts a new SHA-256 context that replaces the
    old one, and the digest is that of the last chunk alone. *)
Theorem tasfa_rolling_hash_order {ctx digest : Type} (init : ctx)
    (update : ctx -> list Z -> ctx) (final : ctx -> digest)
    (data : list Z) (cs n : Z) (id path : cstr) (files : fs) :
  (forall c a b, update (update c a) b = update c (a ++ b)) ->
  0 < cs -> (n - 1) * cs < zlen data <= n * cs -> 2 <= n ->
  (0 < length id < 33)%nat -> path <> [] -> files !! path = Some data ->
  let chunks := map Z.of_nat (seq 0 (Z.to_nat n)) in
  let digest_after l :=
    fst (tasfa_rolling_hash_finish init update final (Some id) (Some path) cs n (zlen data) files
           (note_all init update id path l cs n (zlen data) files (rolling_init init))) in
  digest_after (rev chunks) = Some (final (update init data)) /\
  digest_after chunks = Some (final (update init (drop (Z.to_nat ((n - 1) * cs)) data))).
Proof.
  intros Hstream Hcs Hn Hn2 Hid Hpath Hfile. cbv zeta. split.
  - destruct (Z.to_nat n) as [|m] eqn:Em; [lia|]. cbn [seq map rev]. unfold note_all.
    rewrite fold_left_app. cbn [fold_left].
    pose proof (note_reverse init update Hstream data cs n Hcs Hn id path files Hid Hpath Hfile
                  ltac:(lia) m ltac:(lia) ltac:(lia)) as Ht.
    unfold note_all in Ht. replace (Z.to_nat n - m)%nat with 1%nat in Ht by lia.
    set (t := fold_left _ _ _) in *.
    destruct (note_spec init update Hstream data cs n Hcs Hn id path files Hid Hpath Hfile ltac:(lia)
                0 t 0 0 init _ 0 n Ht) as (t' & H0 & _ & H1); [lia|lia|lia| |by left|].
    { intros x Hx. apply orb_true_iff. rewrite Z.eqb_eq, Z.leb_le. lia. }
    change (Z.of_nat 0) with 0. rewrite H0. simpl snd. specialize (H1 ltac:(lia)).
    replace (0 + (upto data cs n - 0 * cs)) with (zlen data) in H1 by (unfold upto; lia).
    rewrite (finish_spec init update final Hstream data cs n Hcs Hn id path files Hid Hpath Hfile
               ltac:(lia) _ _ _ H1). do 3 f_equal.
    unfold slice, pread. rewrite drop_0. apply take_ge. unfold upto, zlen in *. lia.
  - replace (Z.to_nat n) with (S (Z.to_nat (n - 1))) by lia.
    pose proof (note_in_order init update final Hstream data cs n Hcs Hn id path files Hid Hpath Hfile
                  ltac:(lia) (Z.to_nat (n - 1)) ltac:(lia)) as Ht.
    replace (Z.of_nat (S (Z.to_nat (n - 1)))) with n in Ht by lia.
    replace (upto data cs n) with (zlen data) in Ht by (unfold upto; lia).
    rewrite (finish_spec init update final Hstream data cs n Hcs Hn id path files Hid Hpath Hfile
               ltac:(lia) _ _ _ Ht). do 3 f_equal.
    unfold slice, pread. replace (Z.of_nat (Z.to_nat (n - 1))) with (n - 1) by lia.
    apply take_ge. rewrite length_drop. unfold zlen. lia.
Qed.

Lemma tasfa_rolling_hash_order_witness :
  fst (tasfa_rolling_hash_finish [] (@app Z) id (Some (CS "u1")) (Some (CS "f")) 2 2 3
         {[CS "f" := [1; 2; 3]]}
         (note_all [] (@app Z) (CS "u1") (CS "f") [0; 1] 2 2 3 {[CS "f" := [1; 2; 3]]} (rolling_init [])))
  = Some [3].
Proof.
  refine (proj2 (tasfa_rolling_hash_order [] (@app Z) id [1; 2; 3] 2 2 (CS "u1") (CS "f")
    {[CS "f" := [1; 2; 3]]} _ _ _ _ _ _ _));
    [intros; by rewrite app_assoc|lia|vm_compute; intuition congruence|lia|simpl; lia|done|].
  vm_compute. reflexivity.
Defined.
