(* ===== verification/SlotCache.v ===== *)
(** * Session caches, finalize slots and transfer queues
    (src/src/handlers/tasfa/cache.c and queue.c)

    Three fixed tables, each under its own mutex: the open-addressing cache of session
    metadata, the idempotence slots of finalize requests with their copy on disk, and the
    queue slots that bound the concurrent transfers.  The metadata read from disk on a miss
    comes from the caller; JSON text is kept as text. *)
From S2P Require Import Prelude CStr TasfaCommon.

Definition TASFA_CACHE_SLOTS : nat := 512.
Definition TASFA_UPLOAD_TTL : Z := 86400.
Definition TASFA_DOWNLOAD_TTL : Z := 86400.

(** ** The metadata cache *)

Section cache.
Context {A : Type}.

Record cache_slot := CacheSlot {
  cs_valid : bool;
  cs_type : Z;            (* 1: binary upload metadata, 3: serialized download session *)
  cs_key : cstr;
  cs_data : option A;
  cs_expires : Z;
}.

Definition free_slot : cache_slot := CacheSlot false 0 [] None 0.

(** [char] is signed: a byte above 127 is added as a negative number. *)
Definition cache_hash (str : cstr) : nat :=
  Z.to_nat (foldl (fun h c => u32 (u32 (u32 (Z.shiftl h 5) + h) + i8 c)) 5381 str
            `mod` Z.of_nat TASFA_CACHE_SLOTS).

Definition probe (idx i : nat) : nat := ((idx + i) mod TASFA_CACHE_SLOTS)%nat.
Definition slot_at (t : list cache_slot) (p : nat) : cache_slot := default free_slot (t !! p).

Definition cache_clear_slot (s : cache_slot) : cache_slot :=
  if cs_valid s
  then CacheSlot false (cs_type s) [] (if cs_type s =? 3 then None else cs_data s) (cs_expires s)
  else s.

(** One probe sequence: stop at the first free slot, or at the first one that passes [P]. *)
Fixpoint probe_find (P : cache_slot -> bool) (n i : nat) (idx : nat) (t : list cache_slot)
  : option nat :=
  match n with
  | O => None
  | S n' =>
      let p := probe idx i in
      if negb (cs_valid (slot_at t p)) then None
      else if P (slot_at t p) then Some p
      else probe_find P n' (S i) idx t
  end.

(** The first free slot. *)
Fixpoint probe_free (n i : nat) (idx : nat) (t : list cache_slot) : option nat :=
  match n with
  | O => None
  | S n' =>
      let p := probe idx i in
      if negb (cs_valid (slot_at t p)) then Some p else probe_free n' (S i) idx t
  end.

Definition cache_invalidate (key : cstr) (t : list cache_slot) : list cache_slot :=
  match probe_find (fun s => streq (cs_key s) key) TASFA_CACHE_SLOTS 0 (cache_hash key) t with
  | Some p => <[p := cache_clear_slot (slot_at t p)]> t
  | None => t
  end.

Definition cache_match (ty : Z) (key : cstr) (s : cache_slot) : bool :=
  (cs_type s =? ty) && streq (cs_key s) key.

(** The lookup under the lock: a fresh hit, or a miss that clears an expired entry. *)
Definition cache_lookup (now ty : Z) (key : cstr) (t : list cache_slot)
  : option (option A) * list cache_slot :=
  match probe_find (cache_match ty key) TASFA_CACHE_SLOTS 0 (cache_hash key) t with
  | None => (None, t)
  | Some p =>
      if now <=? cs_expires (slot_at t p) then (Some (cs_data (slot_at t p)), t)
      else (None, <[p := cache_clear_slot (slot_at t p)]> t)
  end.

(** The re-check and the insertion after the disk read. *)
Definition cache_insert (now ty ttl : Z) (key : cstr) (v : A) (t : list cache_slot)
  : option A * list cache_slot :=
  let '(hit, t) := cache_lookup now ty key t in
  match hit with
  | Some d => (d, t)
  | None =>
      match probe_free TASFA_CACHE_SLOTS 0 (cache_hash key) t with
      | Some p => (Some v, <[p := CacheSlot true ty (take 32 key) (Some v) (now + ttl)]> t)
      | None => (Some v, t)
      end
  end.

(** Lookup, disk, insertion, with no other thread in between. *)
Definition load_cached (now ty ttl : Z) (key : cstr) (disk : option A) (t : list cache_slot)
  : option A * list cache_slot :=
  let '(hit, t) := cache_lookup now ty key t in
  match hit with
  | Some d => (d, t)
  | None => match disk with
            | Some v => cache_insert now ty ttl key v t
            | None => (None, t)
            end
  end.

Definition load_upload_session_meta_bin_cached (now : Z) (upload_id : cstr) (disk : option A)
    (t : list cache_slot) : option A * list cache_slot :=
  load_cached now 1 TASFA_UPLOAD_TTL upload_id disk t.

Definition load_download_session_cached (now : Z) (session_id : cstr) (disk : option A)
    (t : list cache_slot) : option A * list cache_slot :=
  load_cached now 3 TASFA_DOWNLOAD_TTL session_id disk t.

Definition cache_init : list cache_slot := replicate TASFA_CACHE_SLOTS free_slot.
End cache.

(** ** Finalize slots *)

Definition TASFA_FINALIZE_CACHE_SLOTS : nat := 128.

Record finalize_slot := FinalizeSlot {
  fs_upload_id : cstr;
  fs_upload_token : cstr;
  fs_active : bool;
  fs_done : bool;
  fs_status_code : Z;
  fs_body : cstr;
  fs_expires : Z;
}.

Definition no_finalize : finalize_slot := FinalizeSlot [] [] false false 0 [] 0.

(** The JSON file of an upload, and its modification time. *)
Record finalize_file := FinalizeFile {
  ff_token : cstr;
  ff_status : Z;
  ff_body : cstr;
  ff_active : bool;
  ff_expires : Z;
  ff_mtime : Z;
}.

Record finalize := Finalize {
  g_finalize_slots : list finalize_slot;
  f_disk : gmap cstr finalize_file;
  f_last_sweep : Z;
}.

Definition with_slots (l : list finalize_slot) (f : finalize) : finalize :=
  Finalize l (f_disk f) (f_last_sweep f).

Definition secure_str_eq (a b : cstr) : bool := streq a b.

Definition finalize_disk_write (now : Z) (id token : cstr) (status : Z) (body : cstr)
    (active : bool) (f : finalize) : bool * finalize :=
  if is_safe_segment (Some id)
  then (true, Finalize (g_finalize_slots f)
                (<[id := FinalizeFile token status body active (now + 3600) now]> (f_disk f))
                (f_last_sweep f))
  else (false, f).

Definition finalize_disk_get (now : Z) (id token : cstr) (f : finalize)
  : option (Z * cstr * bool) :=
  if is_safe_segment (Some id) then
    match f_disk f !! id with
    | None => None
    | Some r => if (now <=? ff_expires r) && secure_str_eq token (ff_token r)
                then Some (ff_status r, ff_body r, ff_active r) else None
    end
  else None.

Definition finalize_disk_sweep (now : Z) (f : finalize) : finalize :=
  if negb (f_last_sweep f =? 0) && (now - f_last_sweep f <? 60) then f
  else Finalize (g_finalize_slots f)
         (filter (fun x => ~ (is_safe_segment (Some x.1) = true /\ ff_mtime x.2 + 3600 < now)) (f_disk f)) now.

Definition sweep_slot (now : Z) (s : finalize_slot) : finalize_slot :=
  match fs_upload_id s with
  | [] => s
  | _ => if (0 <? fs_expires s) && (fs_expires s <? now) then no_finalize else s
  end.

Definition finalize_cache_sweep_locked (now : Z) (f : finalize) : finalize :=
  with_slots (map (sweep_slot now) (g_finalize_slots f)) f.

Fixpoint find_index {A} (P : A -> bool) (l : list A) : option nat :=
  match l with
  | [] => None
  | x :: l' => if P x then Some O else option_map S (find_index P l')
  end.

Definition finalize_cache_find_locked (id : cstr) (f : finalize) : option nat :=
  match id with
  | [] => None
  | _ => find_index (fun s => streq (fs_upload_id s) id) (g_finalize_slots f)
  end.

Definition fin_slot (f : finalize) (i : nat) : finalize_slot :=
  default no_finalize (g_finalize_slots f !! i).

Definition finalize_cache_get (now : Z) (id token : cstr) (f : finalize)
  : option (Z * cstr * bool) * finalize :=
  let f := finalize_cache_sweep_locked now f in
  let found :=
    match finalize_cache_find_locked id f with
    | Some i => let s := fin_slot f i in
                if secure_str_eq token (fs_upload_token s)
                then Some (fs_status_code s, fs_body s, fs_active s && negb (fs_done s)) else None
    | None => None
    end in
  let f := finalize_disk_sweep now f in
  (match found with Some r => Some r | None => finalize_disk_get now id token f end, f).

(** {"ok":false,"processing":true} *)
Definition processing_body : cstr :=
  [123; 34] ++ CS "ok" ++ [34; 58] ++ CS "false," ++ [34] ++ CS "processing" ++ [34; 58] ++ CS "true}".

Definition finalize_cache_mark_started (now : Z) (id token : cstr) (f : finalize) : bool * finalize :=
  match finalize_disk_get now id token f with
  | Some _ => (false, f)
  | None =>
      let f := finalize_cache_sweep_locked now f in
      match finalize_cache_find_locked id f with
      | Some _ => (false, f)
      | None =>
          match find_index (fun s => bool_decide (fs_upload_id s = [])) (g_finalize_slots f) with
          | None => (false, f)
          | Some i =>
              let s := FinalizeSlot (snprintf_s 33 id) (snprintf_s 49 token) true false 202
                         processing_body (now + 3600) in
              let '(ok, f') := finalize_disk_write now id token 202 processing_body true
                                 (with_slots (<[i := s]> (g_finalize_slots f)) f) in
              if ok : bool then (true, f')
              else (false, with_slots (<[i := no_finalize]> (g_finalize_slots f)) f)
          end
      end
  end.

Definition finalize_cache_mark_done (now : Z) (id : cstr) (status : Z) (body : option cstr)
    (f : finalize) : finalize :=
  match finalize_cache_find_locked id f with
  | None => f
  | Some i =>
      let s := fin_slot f i in
      let body := default (CS "{}") body in
      let status := if 0 <? status then status else 500 in
      let s' := FinalizeSlot (fs_upload_id s) (fs_upload_token s) false true status body (now + 3600) in
      snd (finalize_disk_write now id (fs_upload_token s) status body false
             (with_slots (<[i := s']> (g_finalize_slots f)) f))
  end.

(** [obj] is the JSON text with the progress message. *)
Definition finalize_cache_update_status (now : Z) (id : cstr) (obj : cstr) (f : finalize) : finalize :=
  match finalize_cache_find_locked id f with
  | None => f
  | Some i =>
      let s := fin_slot f i in
      let s' := FinalizeSlot (fs_upload_id s) (fs_upload_token s) (fs_active s) (fs_done s)
                  (fs_status_code s) obj (fs_expires s) in
      snd (finalize_disk_write now id (fs_upload_token s) 202 obj true
             (with_slots (<[i := s']> (g_finalize_slots f)) f))
  end.

(** ** Queue slots: an empty id marks a free slot *)

Record queue_slot := QueueSlot { q_id : cstr; q_ts : Z }.
Definition no_slot : queue_slot := QueueSlot [] 0.

Definition tasfa_queue_try_enter (now : Z) (id : option cstr) (slots : list queue_slot)
  : bool * list queue_slot :=
  match find_index (fun s => bool_decide (q_id s = [])) slots with
  | None => (false, slots)
  | Some i => (true, <[i := QueueSlot (snprintf_s 64 (default [] id)) now]> slots)
  end.

Definition tasfa_queue_leave (id : option cstr) (slots : list queue_slot) : list queue_slot :=
  match id with
  | Some (c :: r) =>
      match find_index (fun s => streq (q_id s) (c :: r)) slots with
      | Some i => <[i := no_slot]> slots
      | None => slots
      end
  | _ => slots
  end.

Definition tasfa_queue_touch (now : Z) (id : option cstr) (slots : list queue_slot) : list queue_slot :=
  match id with
  | Some (c :: r) =>
      match find_index (fun s => streq (q_id s) (c :: r)) slots with
      | Some i => <[i := QueueSlot (c :: r) now]> slots
      | None => slots
      end
  | _ => slots
  end.

Definition tasfa_queue_sweep (now ttl : Z) (slots : list queue_slot) : list queue_slot :=
  map (fun s => if negb (bool_decide (q_id s = [])) && (ttl <? now - q_ts s) then no_slot else s) slots.

(** ** Lemmas *)

Lemma find_index_some {A} (P : A -> bool) l i :
  find_index P l = Some i -> exists x, l !! i = Some x /\ P x = true /\
    forall j y, (j < i)%nat -> l !! j = Some y -> P y = false.
Proof.
  revert i. induction l as [|a l IH]; intros i H; simplify_eq/=.
  destruct (P a) eqn:Ha; simplify_eq/=.
  - exists a. split; [done|]. split; [done|]. intros j y Hj. lia.
  - destruct (find_index P l) as [k|]; simplify_eq/=.
    destruct (IH k eq_refl) as (x & Hx & HP & Hb). exists x. split; [done|]. split; [done|].
    intros [|j] y Hj Hy; simplify_eq/=; [done|]. eapply Hb; [|done]. lia.
Qed.

Lemma find_index_none {A} (P : A -> bool) l :
  find_index P l = None <-> Forall (fun x => P x = false) l.
Proof.
  induction l as [|a l IH]; simpl; [by split|]. destruct (P a) eqn:Ha.
  - split; [done|]. inversion 1; congruence.
  - destruct (find_index P l); simpl; split; intros H; try done.
    + inversion H; subst. by apply IH in H3.
    + constructor; [done|]. by apply IH.
Qed.

Lemma find_index_insert {A} (P : A -> bool) l i x y :
  l !! i = Some x -> P y = true -> (forall j z, (j < i)%nat -> l !! j = Some z -> P z = false) ->
  find_index P (<[i := y]> l) = Some i.
Proof.
  revert i. induction l as [|a l IH]; intros [|i] Hx Hy Hb; simplify_eq/=; [by rewrite Hy|].
  rewrite (Hb 0%nat a) by (done || lia). rewrite IH; [done|done|done|].
  intros j z Hj Hz. apply (Hb (S j) z); [lia|done].
Qed.

(** *** The queue is a bounded bag of ids *)

Definition in_queue (slots : list queue_slot) : list cstr :=
  List.filter (fun id => negb (bool_decide (id = []))) (map q_id slots).

Lemma in_queue_insert slots i s s' :
  slots !! i = Some s ->
  (if bool_decide (q_id s = []) then [] else [q_id s]) ++ in_queue (<[i := s']> slots)
  ≡ₚ (if bool_decide (q_id s' = []) then [] else [q_id s']) ++ in_queue slots.
Proof.
  revert i. induction slots as [|a l IH]; intros [|i] Hs; simplify_eq/=.
  - unfold in_queue. simpl. do 2 case_bool_decide; simpl; try done. apply Permutation_swap.
  - specialize (IH i Hs). unfold in_queue in *. simpl.
    destruct (bool_decide (q_id a = [])); simpl; [exact IH|].
    rewrite <- !Permutation_middle. by rewrite IH.
Qed.

Lemma in_queue_length slots : (length (in_queue slots) <= length slots)%nat.
Proof. unfold in_queue. etrans; [apply List.filter_length_le|]. by rewrite length_map. Qed.

Lemma in_queue_full slots :
  Forall (fun s => bool_decide (q_id s = []) = false) slots <->
  length (in_queue slots) = length slots.
Proof.
  induction slots as [|s l IH]; [done|]. rewrite Forall_cons, IH. unfold in_queue in *. simpl.
  pose proof (in_queue_length l) as Hl. unfold in_queue in Hl.
  destruct (bool_decide (q_id s = [])); simpl; split; intros; try lia; intuition (done || lia).
Qed.

(** the queue slots are a bag of transfer ids of bounded size: an enter succeeds exactly
    when a slot is free and adds the id, a leave takes one occurrence of the id out and
    nothing else, and a sweep drops exactly the transfers not touched for longer than the
    time to live. *)
Theorem tasfa_queue_refines_bag slots id now ttl :
  (0 < length id < 64)%nat ->
  let '(ok, slots1) := tasfa_queue_try_enter now (Some id) slots in
  let slots2 := tasfa_queue_leave (Some id) slots in
  (ok = true <-> (length (in_queue slots) < length slots)%nat) /\
  (ok = true -> in_queue slots1 ≡ₚ id :: in_queue slots) /\ (ok = false -> slots1 = slots) /\
  (id ∈ in_queue slots -> in_queue slots ≡ₚ id :: in_queue slots2) /\
  (id ∉ in_queue slots -> slots2 = slots) /\
  in_queue (tasfa_queue_sweep now ttl slots)
    = in_queue (List.filter (fun s => now - q_ts s <=? ttl) slots).
Proof.
  intros Hid. assert (Hne : id <> []) by (destruct id; simpl in *; [lia|done]).
  assert (Hsweep : in_queue (tasfa_queue_sweep now ttl slots)
                   = in_queue (List.filter (fun s => now - q_ts s <=? ttl) slots)).
  { induction slots as [|s l IH]; [done|]. unfold in_queue, tasfa_queue_sweep in *. simpl.
    rewrite (Z.leb_antisym ttl (now - q_ts s)). destruct (bool_decide (q_id s = [])) eqn:Es; simpl.
    - rewrite Es. simpl. destruct (ttl <? now - q_ts s); simpl; [done|]. by rewrite Es.
    - destruct (ttl <? now - q_ts s); simpl; [done|]. rewrite Es. simpl. by rewrite IH. }
  assert (Hleave : (id ∈ in_queue slots -> in_queue slots ≡ₚ id :: in_queue (tasfa_queue_leave (Some id) slots)) /\
                   (id ∉ in_queue slots -> tasfa_queue_leave (Some id) slots = slots)).
  { unfold tasfa_queue_leave. destruct id as [|c r]; [done|].
    destruct (find_index _ slots) as [i|] eqn:E.
    - apply find_index_some in E as (s & Hs & Heq & _). unfold streq in Heq. bool_split.
      pose proof (in_queue_insert slots i s no_slot Hs) as Hp. rewrite Heq in Hp. simpl in Hp.
      split; [done|]. intros Hn. exfalso. apply Hn. rewrite <- Hp. set_solver.
    - apply find_index_none in E. split; [|done]. intros Hin. exfalso.
      unfold in_queue in Hin. apply list_elem_of_In, filter_In in Hin as [Hin _].
      apply in_map_iff in Hin as (s & Hs & Hin). apply list_elem_of_In in Hin.
      pose proof (proj1 (Forall_forall _ _) E _ Hin) as Hx. simpl in Hx. unfold streq in Hx.
      by bool_split. }
  destruct Hleave as [Hl1 Hl2]. unfold tasfa_queue_try_enter.
  change (default [] (Some id)) with id.
  destruct (find_index _ slots) as [i|] eqn:E.
  - apply find_index_some in E as (s & Hs & Heq & _).
    split_and!; try done.
    + split; [intros _|done]. pose proof (in_queue_length slots).
      destruct (decide (length (in_queue slots) = length slots)) as [Hf|]; [|lia].
      apply in_queue_full in Hf. pose proof (proj1 (Forall_lookup _ _) Hf i s Hs). simpl in *. congruence.
    + intros _. rewrite snprintf_s_id by lia.
      pose proof (in_queue_insert slots i s (QueueSlot id now) Hs) as Hp. rewrite Heq in Hp.
      simpl in Hp. rewrite (bool_decide_eq_false_2 _ Hne) in Hp. done.
  - apply find_index_none, in_queue_full in E. split_and!; try done. split; [done|intros; exfalso; lia].
Qed.

Lemma tasfa_queue_refines_bag_witness :
  in_queue (snd (tasfa_queue_try_enter 5 (Some (CS "u1")) [no_slot; no_slot])) ≡ₚ [CS "u1"].
Proof.
  exact (proj1 (proj2 (tasfa_queue_refines_bag [no_slot; no_slot] (CS "u1") 5 10
    ltac:(simpl; lia))) eq_refl).
Defined.

(** *** Finalize requests run once *)

Lemma streq_true a b : streq a b = true <-> a = b.
Proof. apply bool_decide_eq_true. Qed.

Lemma sweep_find now id f i s :
  finalize_cache_find_locked id f = Some i -> g_finalize_slots f !! i = Some s ->
  now <= fs_expires s ->
  (forall j x, (j < i)%nat -> g_finalize_slots f !! j = Some x -> fs_upload_id x <> id) ->
  finalize_cache_find_locked id (finalize_cache_sweep_locked now f) = Some i /\
  g_finalize_slots (finalize_cache_sweep_locked now f) !! i = Some s.
Proof.
  intros Hf Hs He Hb. unfold finalize_cache_find_locked in *. destruct id as [|c r]; [done|].
  apply find_index_some in Hf as (x & Hx & HP & _). rewrite Hs in Hx. simplify_eq.
  apply streq_true in HP. simpl.
  assert (Hsw : map (sweep_slot now) (g_finalize_slots f) !! i = Some x).
  { change (map (sweep_slot now) (g_finalize_slots f)) with (sweep_slot now <$> g_finalize_slots f).
    rewrite list_lookup_fmap, Hs. simpl. f_equal. unfold sweep_slot. rewrite HP.
    destruct (Z.ltb_spec (fs_expires x) now); [lia|]. by rewrite andb_false_r. }
  split; [|done].
  rewrite <- (list_insert_id (map (sweep_slot now) (g_finalize_slots f)) i x) by done.
  eapply find_index_insert; [exact Hsw|by apply streq_true|].
  intros j z Hj Hz. change (map (sweep_slot now) (g_finalize_slots f))
    with (sweep_slot now <$> g_finalize_slots f) in Hz.
  rewrite list_lookup_fmap in Hz. destruct (g_finalize_slots f !! j) as [y|] eqn:Ey; simplify_eq/=.
  apply bool_decide_eq_false. intros Hk. specialize (Hb j y Hj Ey). unfold sweep_slot in Hk.
  destruct (fs_upload_id y) eqn:Ei; [congruence|]. case_match; simpl in *; congruence.
Qed.

Lemma locate_spec id f i :
  finalize_cache_find_locked id f = Some i ->
  exists s, g_finalize_slots f !! i = Some s /\ fs_upload_id s = id /\
    forall j x, (j < i)%nat -> g_finalize_slots f !! j = Some x -> fs_upload_id x <> id.
Proof.
  unfold finalize_cache_find_locked. destruct id as [|c r] eqn:Ei; [done|]. intros H.
  apply find_index_some in H as (s & Hs & HP & Hb). apply streq_true in HP. exists s.
  split; [done|]. split; [done|]. intros j x Hj Hx Heq. specialize (Hb j x Hj Hx). simpl in Hb.
  rewrite Heq in Hb. unfold streq in Hb. by rewrite bool_decide_eq_true_2 in Hb.
Qed.

(** A finalize slot in a given state answers polls until it expires. *)
Lemma get_slot now id token f i s :
  finalize_cache_find_locked id f = Some i -> g_finalize_slots f !! i = Some s ->
  now <= fs_expires s -> fs_upload_token s = token ->
  fst (finalize_cache_get now id token f)
  = Some (fs_status_code s, fs_body s, fs_active s && negb (fs_done s)).
Proof.
  intros Hf Hs He Ht. destruct (locate_spec _ _ _ Hf) as (s' & Hs' & _ & Hb).
  destruct (sweep_find now id f i s Hf Hs He Hb) as [H1 H2].
  unfold finalize_cache_get. cbv zeta. rewrite H1. unfold fin_slot. rewrite H2. cbn [default from_option].
  unfold Datatypes.id, secure_str_eq. rewrite Ht. by rewrite streq_refl.
Qed.

(** The slot a successful start leaves behind. *)
Lemma mark_started_slot now id token f f' :
  (length id < 33)%nat -> (length token < 49)%nat ->
  finalize_cache_mark_started now id token f = (true, f') ->
  exists i, finalize_cache_find_locked id f' = Some i /\
    g_finalize_slots f' !! i = Some (FinalizeSlot id token true false 202 processing_body (now + 3600)) /\
    f_disk f' !! id = Some (FinalizeFile token 202 processing_body true (now + 3600) now) /\
    is_safe_segment (Some id) = true.
Proof.
  intros Hi Ht H. unfold finalize_cache_mark_started in H.
  destruct (finalize_disk_get _ _ _ _); [done|]. cbv zeta in H.
  set (f1 := finalize_cache_sweep_locked now f) in *.
  destruct (finalize_cache_find_locked id f1) eqn:El; [done|].
  destruct (find_index _ _) as [i|] eqn:E; [|done]. unfold finalize_disk_write in H.
  destruct (is_safe_segment (Some id)) eqn:Es; [|done]. simplify_eq. exists i.
  rewrite !snprintf_s_id by lia. cbn [g_finalize_slots f_disk with_slots].
  apply find_index_some in E as (s & Hs & _ & _).
  split; [|split; [|split; [by rewrite lookup_insert_eq|done]]].
  - unfold finalize_cache_find_locked in *. destruct id as [|c r]; [done|]. cbn [g_finalize_slots].
    eapply find_index_insert; [exact Hs|by apply streq_true|].
    intros j z Hj Hz. apply find_index_none in El. by apply (proj1 (Forall_lookup _ _) El j).
  - apply list_lookup_insert_eq. by eapply lookup_lt_Some.
Qed.

(** a finalize request that was started is not started again for an hour, whoever asks; a
    poll reports that it is running until it is done, and then exactly the status and body it
    ended with. *)
Theorem finalize_runs_once now id token f f' t1 t2 status body :
  (length id < 33)%nat -> (length token < 49)%nat ->
  finalize_cache_mark_started now id token f = (true, f') ->
  now <= t1 <= t2 -> t2 <= now + 3600 -> 0 < status ->
  let f2 := finalize_cache_mark_done t1 id status (Some body) f' in
  fst (finalize_cache_get t1 id token f') = Some (202, processing_body, true) /\
  fst (finalize_cache_mark_started t1 id token f') = false /\
  fst (finalize_cache_get t2 id token f2) = Some (status, body, false) /\
  fst (finalize_cache_mark_started t2 id token f2) = false.
Proof.
  intros Hi Ht H H1 H2 Hst. cbv zeta.
  destruct (mark_started_slot _ _ _ _ _ Hi Ht H) as (i & Hf & Hs & Hd & Hsafe).
  assert (Hnot : forall t g r, f_disk g !! id = Some r -> ff_token r = token -> t <= ff_expires r ->
    fst (finalize_cache_mark_started t id token g) = false).
  { intros t g r Hg Hr He. unfold finalize_cache_mark_started, finalize_disk_get. rewrite Hsafe, Hg.
    destruct (Z.leb_spec t (ff_expires r)); [|lia]. unfold secure_str_eq. by rewrite Hr, streq_refl. }
  split; [erewrite get_slot; [|exact Hf|exact Hs|simpl; lia|done]; done|].
  split; [eapply Hnot; [exact Hd|done|simpl; lia]|].
  destruct (locate_spec _ _ _ Hf) as (s' & Hs' & _ & Hb).
  unfold finalize_cache_mark_done, finalize_disk_write. rewrite Hf, Hsafe. unfold fin_slot. rewrite Hs.
  cbn [default from_option]. unfold Datatypes.id. destruct (Z.ltb_spec 0 status); [|lia].
  cbn [fs_upload_id fs_upload_token g_finalize_slots f_disk with_slots snd].
  split.
  - rewrite (get_slot t2 id token _ i (FinalizeSlot id token false true status body (t1 + 3600)));
      [reflexivity| | | |].
    + unfold finalize_cache_find_locked in *. destruct id as [|c r]; [done|]. cbn [g_finalize_slots].
      eapply find_index_insert; [exact Hs|by apply streq_true|].
      intros j z Hj Hz. apply bool_decide_eq_false. by eapply Hb.
    + cbn [g_finalize_slots]. apply list_lookup_insert_eq. by eapply lookup_lt_Some.
    + simpl. lia.
    + done.
  - eapply Hnot; cbn [f_disk]; [apply lookup_insert_eq|done|simpl; lia].
Qed.

Definition demo_finalize : finalize := Finalize (replicate TASFA_FINALIZE_CACHE_SLOTS no_finalize) ∅ 0.

Lemma finalize_runs_once_witness :
  let f1 := snd (finalize_cache_mark_started 100 (CS "u1") (CS "tok") demo_finalize) in
  fst (finalize_cache_get 160 (CS "u1") (CS "tok")
         (finalize_cache_mark_done 150 (CS "u1") 200 (Some (CS "{}")) f1)) = Some (200, CS "{}", false).
Proof.
  refine (proj1 (proj2 (proj2 (finalize_runs_once 100 (CS "u1") (CS "tok") demo_finalize _ 150 160 200
    (CS "{}") _ _ _ _ _ _)))); [simpl; lia|simpl; lia|vm_compute; reflexivity|lia|lia|lia].
Defined.

(** *** The metadata cache *)

Section cache_proofs.
Context {A : Type}.
Implicit Types (t : list (@cache_slot A)) (P : @cache_slot A -> bool).

Lemma slot_at_insert t p q s :
  (p < length t)%nat -> slot_at (<[p := s]> t) q = if decide (q = p) then s else slot_at t q.
Proof.
  intros Hp. unfold slot_at. case_decide as Hq.
  - subst. by rewrite list_lookup_insert_eq.
  - by rewrite list_lookup_insert_ne.
Qed.

Lemma slot_at_valid t p : cs_valid (slot_at t p) = true -> (p < length t)%nat.
Proof.
  unfold slot_at. destruct (t !! p) eqn:E; [|done]. intros _. by eapply lookup_lt_Some.
Qed.

Lemma probe_lt idx i : (probe idx i < TASFA_CACHE_SLOTS)%nat.
Proof. apply Nat.mod_upper_bound. done. Qed.

Lemma probe_free_spec n i idx t p :
  probe_free n i idx t = Some p -> (p < TASFA_CACHE_SLOTS)%nat /\ cs_valid (slot_at t p) = false.
Proof.
  revert i. induction n as [|n IH]; intros i H; simplify_eq/=. pose proof (probe_lt idx i).
  destruct (cs_valid (slot_at t (probe idx i))) eqn:E; simpl in H; simplify_eq; eauto.
Qed.

Lemma probe_find_match P n i idx t p :
  probe_find P n i idx t = Some p -> (p < TASFA_CACHE_SLOTS)%nat /\ P (slot_at t p) = true.
Proof.
  revert i. induction n as [|n IH]; intros i H; simplify_eq/=. pose proof (probe_lt idx i).
  destruct (negb _); [done|]. destruct (P (slot_at t (probe idx i))) eqn:E; simplify_eq; eauto.
Qed.

(** Filling the first free slot of a probe sequence without a match makes it the match. *)
Lemma probe_find_fill P n i idx t p s :
  length t = TASFA_CACHE_SLOTS -> probe_find P n i idx t = None -> probe_free n i idx t = Some p ->
  cs_valid s = true -> P s = true -> probe_find P n i idx (<[p := s]> t) = Some p.
Proof.
  intros Hl. revert i. induction n as [|n IH]; intros i Hf Hp Hv HP; simplify_eq/=.
  pose proof (probe_lt idx i). destruct (cs_valid (slot_at t (probe idx i))) eqn:Ev; simpl in *.
  - destruct (P (slot_at t (probe idx i))) eqn:EP; [done|].
    destruct (probe_free_spec _ _ _ _ _ Hp) as [Hpl Hpf]. rewrite <- Hl in Hpl.
    rewrite slot_at_insert by done. rewrite decide_False by congruence. rewrite Ev, EP. simpl. by apply IH.
  - simplify_eq. rewrite slot_at_insert by lia. rewrite decide_True by done. by rewrite Hv, HP.
Qed.

(** Clearing the match cuts the probe sequence there. *)
Lemma probe_find_cut P n i idx t p s :
  length t = TASFA_CACHE_SLOTS -> probe_find P n i idx t = Some p -> cs_valid s = false ->
  probe_find P n i idx (<[p := s]> t) = None.
Proof.
  intros Hl. revert i. induction n as [|n IH]; intros i Hf Hv; simplify_eq/=.
  pose proof (probe_lt idx i). destruct (cs_valid (slot_at t (probe idx i))) eqn:Ev; simpl in *; [|done].
  destruct (P (slot_at t (probe idx i))) eqn:EP.
  - simplify_eq. rewrite slot_at_insert by lia. rewrite decide_True by done. by rewrite Hv.
  - destruct (probe_find_match _ _ _ _ _ _ Hf) as [Hpl Hpp]. rewrite <- Hl in Hpl.
    rewrite slot_at_insert by done. rewrite decide_False by congruence.
    rewrite Ev, EP. simpl. by apply IH.
Qed.

Lemma probe_find_ext P Q n i idx t :
  (forall p, cs_valid (slot_at t p) = true -> P (slot_at t p) = Q (slot_at t p)) ->
  probe_find P n i idx t = probe_find Q n i idx t.
Proof.
  intros H. revert i. induction n as [|n IH]; intros i; simpl; [done|].
  destruct (cs_valid (slot_at t (probe idx i))) eqn:Ev; simpl; [|done]. rewrite (H _ Ev).
  by destruct (Q _).
Qed.

(** A table holds the entries of one key under one type. *)
Definition key_typed (key : cstr) (ty : Z) t : Prop :=
  forall p, cs_key (slot_at t p) = key -> cs_valid (slot_at t p) = true -> cs_type (slot_at t p) = ty.

Lemma clear_invalid (s : @cache_slot A) : cs_valid (cache_clear_slot s) = false.
Proof. unfold cache_clear_slot. destruct (cs_valid s) eqn:E; [done|exact E]. Qed.

Lemma cache_lookup_miss now ty key t t' :
  length t = TASFA_CACHE_SLOTS -> key <> [] -> key_typed key ty t ->
  cache_lookup now ty key t = (None, t') ->
  length t' = TASFA_CACHE_SLOTS /\ key_typed key ty t' /\
  probe_find (cache_match ty key) TASFA_CACHE_SLOTS 0 (cache_hash key) t' = None.
Proof.
  intros Hl Hk Ht H. unfold cache_lookup in H.
  destruct (probe_find _ _ _ _ t) as [p|] eqn:E; [|by simplify_eq].
  destruct (_ <=? _); simplify_eq. rewrite length_insert. split; [done|]. split.
  - intros q Hq Hv. destruct (decide (p < length t)%nat).
    + rewrite slot_at_insert in * by done. case_decide; [|by apply Ht].
      rewrite clear_invalid in Hv. done.
    + rewrite list_insert_ge in * by lia. by apply Ht.
  - eapply probe_find_cut; [done|exact E|apply clear_invalid].
Qed.

(** ** A cache in which the entries of a key agree with the disk *)

Definition all_hold (key : cstr) (ty : Z) (v : A) (t : list cache_slot) : Prop :=
  forall p sl, t !! p = Some sl -> cs_valid sl = true -> cs_type sl = ty -> cs_key sl = key ->
    cs_data sl = Some v.

Lemma probe_find_valid P n i idx t p :
  probe_find P n i idx t = Some p -> cs_valid (slot_at t p) = true.
Proof.
  revert i. induction n as [|n IH]; intros i H; simplify_eq/=.
  destruct (cs_valid (slot_at t (probe idx i))) eqn:Ev; [|done]. simpl in H.
  destruct (P (slot_at t (probe idx i))); simplify_eq; eauto.
Qed.

Lemma all_hold_insert key ty v t p sl : all_hold key ty v t ->
  (cs_valid sl = true -> cs_type sl = ty -> cs_key sl = key -> cs_data sl = Some v) ->
  all_hold key ty v (<[p := sl]> t).
Proof.
  intros H Hs q x Hq. destruct (decide (p = q)) as [->|Hne].
  - destruct (decide (q < length t)%nat).
    + rewrite list_lookup_insert_eq in Hq by done. by injection Hq as <-.
    + rewrite list_insert_ge in Hq by lia. by apply (H q).
  - rewrite list_lookup_insert_ne in Hq by done. by apply (H q).
Qed.

Lemma cache_lookup_hold now ty key v t : all_hold key ty v t ->
  ((cache_lookup now ty key t).1 = None \/ (cache_lookup now ty key t).1 = Some (Some v)) /\
  all_hold key ty v (cache_lookup now ty key t).2.
Proof.
  intros H. unfold cache_lookup. destruct (probe_find _ _ _ _ t) as [p|] eqn:E; [|by auto].
  destruct (_ <=? _); cbn [fst snd].
  - split; [|done]. right. f_equal. destruct (probe_find_match _ _ _ _ _ _ E) as [_ Hm].
    apply andb_prop in Hm as [Hty Hk]. apply Z.eqb_eq in Hty. apply streq_true in Hk.
    pose proof (probe_find_valid _ _ _ _ _ _ E) as Hv. pose proof (slot_at_valid _ _ Hv) as Hp.
    unfold slot_at in *. destruct (t !! p) as [sl|] eqn:El; [|by apply lookup_ge_None in El; lia].
    by apply (H p sl).
  - split; [by left|]. apply all_hold_insert; [done|]. rewrite clear_invalid. done.
Qed.

Lemma load_cached_hold now ty ttl key v t : all_hold key ty v t ->
  (load_cached now ty ttl key (Some v) t).1 = Some v /\
  all_hold key ty v (load_cached now ty ttl key (Some v) t).2.
Proof.
  intros H. unfold load_cached. destruct (cache_lookup_hold now ty key v t H) as [Hr Ht].
  destruct (cache_lookup now ty key t) as [hit t1]. cbn [fst snd] in *.
  destruct Hr as [-> | ->]; [|done]. unfold cache_insert.
  destruct (cache_lookup_hold now ty key v t1 Ht) as [Hr Ht'].
  destruct (cache_lookup now ty key t1) as [hit t2]. cbn [fst snd] in *.
  destruct Hr as [-> | ->]; [|done]. destruct (probe_free _ _ _ t2); [|done]. cbn [fst snd].
  split; [done|]. by apply all_hold_insert.
Qed.
End cache_proofs.

(** metadata read from disk on a miss is served for its time to live without looking at the
    disk again, and an invalidation of the key that follows makes the next load read the disk. *)
Theorem cache_load_then_invalidate {A} now now' ty ttl key (v : A) disk t t1 :
  length t = TASFA_CACHE_SLOTS -> (0 < length key <= 32)%nat -> key_typed key ty t ->
  fst (cache_lookup now ty key t) = None ->
  probe_free TASFA_CACHE_SLOTS 0 (cache_hash key) (snd (cache_lookup now ty key t)) <> None ->
  load_cached now ty ttl key (Some v) t = (Some v, t1) -> now' <= now + ttl ->
  load_cached now' ty ttl key disk t1 = (Some v, t1) /\
  fst (load_cached now' ty ttl key disk (cache_invalidate key t1)) = disk.
Proof.
  intros Hl Hk Hty Hmiss Hfree Hload Hnow.
  assert (Hne : key <> []) by (destruct key; simpl in *; [lia|done]).
  unfold load_cached in Hload. destruct (cache_lookup now ty key t) as [hit t'] eqn:E1.
  simpl in Hmiss, Hfree. subst hit.
  destruct (cache_lookup_miss _ _ _ _ _ Hl Hne Hty E1) as (Hl' & Hty' & Hnf).
  unfold cache_insert, cache_lookup in Hload. rewrite Hnf in Hload.
  destruct (probe_free _ _ _ t') as [p|] eqn:Ep; [|done]. simplify_eq.
  rewrite take_ge in * by lia. set (s := CacheSlot true ty key (Some v) (now + ttl)).
  assert (HP : cache_match ty key s = true).
  { unfold cache_match. simpl. rewrite Z.eqb_refl. by apply streq_true. }
  assert (Hfind : probe_find (cache_match ty key) TASFA_CACHE_SLOTS 0 (cache_hash key) (<[p := s]> t') = Some p)
    by (by apply probe_find_fill).
  destruct (probe_free_spec _ _ _ _ _ Ep) as [Hpl _]. rewrite <- Hl' in Hpl.
  assert (Hs : slot_at (<[p := s]> t') p = s) by (rewrite slot_at_insert by done; by rewrite decide_True).
  split.
  - unfold load_cached, cache_lookup. rewrite Hfind, Hs. simpl.
    destruct (Z.leb_spec now' (now + ttl)); [done|lia].
  - unfold cache_invalidate.
    rewrite (probe_find_ext _ (cache_match ty key)).
    + rewrite Hfind, Hs. rewrite list_insert_insert_eq.
      assert (Hcut : probe_find (cache_match ty key) TASFA_CACHE_SLOTS 0 (cache_hash key)
                       (<[p := cache_clear_slot s]> t') = None).
      { replace (<[p := cache_clear_slot s]> t')
          with (<[p := cache_clear_slot s]> (<[p := s]> t')) by (by rewrite list_insert_insert_eq).
        eapply probe_find_cut; [by rewrite length_insert|exact Hfind|done]. }
      unfold load_cached, cache_lookup. rewrite Hcut. destruct disk as [d|]; [|done].
      unfold cache_insert, cache_lookup. rewrite Hcut.
      by destruct (probe_free TASFA_CACHE_SLOTS 0 (cache_hash key) (<[p := cache_clear_slot s]> t')).
    + intros q Hv. unfold cache_match. rewrite slot_at_insert in * by done. case_decide.
      * simpl. by rewrite Z.eqb_refl.
      * destruct (streq (cs_key (slot_at t' q)) key) eqn:Eq; [|by rewrite andb_false_r].
        apply streq_true in Eq. rewrite (Hty' q Eq Hv). by rewrite Z.eqb_refl.
Qed.

Lemma cache_load_then_invalidate_witness :
  fst (load_cached 160 1 TASFA_UPLOAD_TTL (CS "u1") (Some 8)
    (snd (load_cached 100 1 TASFA_UPLOAD_TTL (CS "u1") (Some 7) cache_init))) = Some 7.
Proof.
  refine (f_equal fst (proj1 (cache_load_then_invalidate 100 160 1 TASFA_UPLOAD_TTL (CS "u1") 7 (Some 8)
    cache_init _ _ _ _ _ _ _ _)));
    [reflexivity|simpl; lia|intros p _ Hv|vm_compute; reflexivity|vm_compute; discriminate
    |vm_compute; reflexivity|unfold TASFA_UPLOAD_TTL; lia].
  exfalso. revert Hv. unfold slot_at, cache_init. destruct (replicate _ _ !! p) eqn:E; [|discriminate].
  apply lookup_replicate in E as [-> _]. discriminate.
Defined.

(** an invalidation stops at the first free slot, so clearing another key of the same chain
    hides an entry from it: keys "ab" and "bA" collide; after loading both, invalidating "ab"
    and then "bA", and loading "ab" again, a load of "bA" still returns the metadata that was
    cached before the invalidation and not what is on disk. *)
Theorem cache_invalidate_stale :
  let load k d t := load_upload_session_meta_bin_cached 100 k d t in
  let t1 := snd (load (CS "bA") (Some 2) (snd (load (CS "ab") (Some 1) cache_init))) in
  let t2 := cache_invalidate (CS "bA") (cache_invalidate (CS "ab") t1) in
  let t3 := snd (load (CS "ab") (Some 1) t2) in
  fst (load (CS "bA") (Some 3) t3) = Some 2.
Proof. vm_compute. reflexivity. Qed.
