(* ===== verification/Crypto.v ===== *)
(** * Stream encryption and compression of chunks (src/src/handlers/tasfa/crypto.c)

    AES-256-GCM is OpenSSL's and the codecs are those of zstd, brotli and zlib: both are records
    of functions, with the documented behaviour the code relies on as classes of laws.  What the
    code adds is modelled: the nonce and associated data of a chunk, the block layout, the
    length checks and the choice of the codec.  The opt-in WebAssembly backend is off, and
    buffers are never refused. *)
From S2P Require Import Prelude CStr.

(** ** The libraries *)

Record gcm := Gcm {
  gcm_seal : list Z -> list Z -> cstr -> list Z -> option (list Z * list Z);  (* ciphertext, tag *)
  gcm_open : list Z -> list Z -> cstr -> list Z -> list Z -> option (list Z);
}.

Class GcmLaws (G : gcm) : Prop := {
  seal_length key iv aad p c tag :
    gcm_seal G key iv aad p = Some (c, tag) -> length c = length p /\ length tag = 16%nat;
  open_seal key iv aad p c tag :
    gcm_seal G key iv aad p = Some (c, tag) -> gcm_open G key iv aad c tag = Some p;
  open_length key iv aad c tag p : gcm_open G key iv aad c tag = Some p -> length p = length c;
}.

(** A decompressor is given the size of its output buffer. *)
Record codec := Codec {
  c_compress : list Z -> option (list Z);
  c_decompress : Z -> list Z -> option (list Z);
}.

Class CodecLaws (C : codec) : Prop := {
  compress_nonempty d c : c_compress C d = Some c -> c <> [];
  decompress_compress d c n : c_compress C d = Some c -> zlen d <= n -> c_decompress C n c = Some d;
  decompress_length c n d : c_decompress C n c = Some d -> zlen d <= n;
}.

Record codecs := Codecs { zstd : codec; brotli : codec; gzip : codec }.

Class CodecsLaws (L : codecs) : Prop := {
  #[global] zstd_laws :: CodecLaws (zstd L);
  #[global] brotli_laws :: CodecLaws (brotli L);
  #[global] gzip_laws :: CodecLaws (gzip L);
}.

(** ** Encryption *)

(** Byte [k] of an [int], counted from the least significant. *)
Definition int_byte (i k : Z) : Z := Z.land (Z.shiftr i (8 * k)) 255.

Definition derive_stream_iv (seed : list Z) (chunk_index : Z) : list Z :=
  imap (fun p b => if (8 <=? p)%nat && (p <=? 11)%nat
                   then Z.lxor b (int_byte chunk_index (11 - Z.of_nat p)) else b) (take 12 seed).

(** Ids are names of session directories (at most 255 bytes), so the 512-byte buffer holds the text. *)
Definition build_stream_aad (id : cstr) (chunk_index : Z) : cstr :=
  id ++ CS ":" ++ print_int chunk_index.

Section encryption.
Context (G : gcm).

(** The block is the ciphertext followed by the 16-byte tag. *)
Definition encrypt_stream_block (key seed : list Z) (chunk_index : Z) (id : cstr)
    (plaintext : list Z) : option (list Z) :=
  match gcm_seal G key (derive_stream_iv seed chunk_index) (build_stream_aad id chunk_index) plaintext with
  | Some (c, tag) => Some (c ++ tag)
  | None => None
  end.

Definition decrypt_stream_block (key seed : list Z) (chunk_index : Z) (id : cstr)
    (ciphertext : list Z) (plaintext_len : Z) : option (list Z) :=
  if zlen ciphertext <? 16 then None
  else if negb (plaintext_len + 16 =? zlen ciphertext) then None
  else
    let n := Z.to_nat plaintext_len in
    gcm_open G key (derive_stream_iv seed chunk_index) (build_stream_aad id chunk_index)
      (take n ciphertext) (take 16 (drop n ciphertext)).
End encryption.

(** ** Compression *)

Inductive compress_type := COMPRESS_NONE | COMPRESS_ZSTD | COMPRESS_BROTLI | COMPRESS_GZIP.
#[export] Instance compress_type_eq_dec : EqDecision compress_type.
Proof. solve_decision. Defined.

Definition TASFA_COMPRESS_MIN_GAIN_BYTES : Z := 1024.

Section compression.
Context (L : codecs).

Definition tasfa_zstd_compress_alloc (input : list Z) : option (list Z) :=
  match input with [] => None | _ => c_compress (zstd L) input end.
Definition tasfa_brotli_compress_alloc (input : list Z) : option (list Z) :=
  match input with [] => None | _ => c_compress (brotli L) input end.
Definition tasfa_gzip_compress_alloc (input : list Z) : option (list Z) :=
  match input with [] => None | _ => c_compress (gzip L) input end.

(** Empty input fails, and so does output of another length than the expected one. *)
Definition exactly (expected_len : Z) (out : option (list Z)) : option (list Z) :=
  match out with
  | Some d => if zlen d =? expected_len then Some d else None
  | None => None
  end.

Definition tasfa_zstd_decompress_to (input : list Z) (expected_len : Z) : option (list Z) :=
  match input with [] => None | _ => exactly expected_len (c_decompress (zstd L) expected_len input) end.
Definition tasfa_brotli_decompress_to (input : list Z) (expected_len : Z) : option (list Z) :=
  match input with [] => None | _ => exactly expected_len (c_decompress (brotli L) expected_len input) end.
Definition tasfa_gzip_decompress_to (input : list Z) (expected_len : Z) : option (list Z) :=
  match input with [] => None | _ => exactly expected_len (c_decompress (gzip L) expected_len input) end.

Definition tasfa_compress_alloc (allow_zstd allow_brotli allow_gzip : bool) (input : list Z)
  : option (list Z * compress_type) :=
  if (zlen input <=? TASFA_COMPRESS_MIN_GAIN_BYTES)
     || (negb allow_brotli && negb allow_zstd && negb allow_gzip) then None
  else
    let '(type, out) :=
      if allow_zstd then (COMPRESS_ZSTD, tasfa_zstd_compress_alloc input)
      else if allow_brotli then (COMPRESS_BROTLI, tasfa_brotli_compress_alloc input)
      else (COMPRESS_GZIP, tasfa_gzip_compress_alloc input) in
    match out with
    | None => None
    | Some buf => if zlen input - TASFA_COMPRESS_MIN_GAIN_BYTES <=? zlen buf then None
                  else Some (buf, type)
    end.

Definition tasfa_decompress_to (input : list Z) (expected_len : Z) (type : compress_type)
  : option (list Z) :=
  match input with
  | [] => None
  | _ => match type with
         | COMPRESS_ZSTD => tasfa_zstd_decompress_to input expected_len
         | COMPRESS_BROTLI => tasfa_brotli_decompress_to input expected_len
         | COMPRESS_GZIP => tasfa_gzip_decompress_to input expected_len
         | COMPRESS_NONE => None
         end
  end.
End compression.

(** ** Encryption is inverted, and no nonce is used for two chunks *)

Lemma length_derive_stream_iv seed i : length (derive_stream_iv seed i) = Nat.min 12 (length seed).
Proof. unfold derive_stream_iv. by rewrite length_imap, length_take. Qed.

Lemma int_byte_mod i k : 0 <= k -> int_byte i k = (i / 2 ^ (8 * k)) `mod` 2 ^ 8.
Proof. intros. unfold int_byte. change 255 with (Z.ones 8). rewrite Z.land_ones, Z.shiftr_div_pow2 by lia. done. Qed.

(** The four bytes determine the 32-bit integer. *)
Lemma int_bytes_inj i j : - 2 ^ 31 <= i < 2 ^ 31 -> - 2 ^ 31 <= j < 2 ^ 31 ->
  (forall k, 0 <= k < 4 -> int_byte i k = int_byte j k) -> i = j.
Proof.
  intros Hi Hj H.
  assert (E : i `mod` 2 ^ 32 = j `mod` 2 ^ 32).
  { assert (S : forall x, x `mod` 2 ^ 32 = int_byte x 0 + 2 ^ 8 * int_byte x 1 + 2 ^ 16 * int_byte x 2
                                           + 2 ^ 24 * int_byte x 3).
    { intros x. rewrite !int_byte_mod by lia. change (8 * 0) with 0. change (8 * 1) with 8.
      change (8 * 2) with 16. change (8 * 3) with 24. simpl Z.pow. Z.div_mod_to_equations. lia. }
    rewrite !S. by rewrite !H by lia. }
  simpl Z.pow in *. Z.div_mod_to_equations. lia.
Qed.

Lemma lxor_cancel_l a b c : Z.lxor a b = Z.lxor a c -> b = c.
Proof.
  intros H. apply (f_equal (Z.lxor a)) in H.
  by rewrite <- !Z.lxor_assoc, !Z.lxor_nilpotent, !Z.lxor_0_l in H.
Qed.

Lemma derive_stream_iv_inj seed i j : (12 <= length seed)%nat ->
  - 2 ^ 31 <= i < 2 ^ 31 -> - 2 ^ 31 <= j < 2 ^ 31 ->
  derive_stream_iv seed i = derive_stream_iv seed j -> i = j.
Proof.
  intros Hs Hi Hj H. apply int_bytes_inj; [done|done|]. intros k Hk.
  set (p := Z.to_nat (11 - k)).
  destruct (lookup_lt_is_Some_2 (take 12 seed) p) as [b Hb];
    [rewrite length_take; unfold p; lia|].
  apply (f_equal (.!! p)) in H. unfold derive_stream_iv in H.
  rewrite !list_lookup_imap, Hb in H. cbn [fmap option_fmap option_map] in H.
  assert (Hin : ((8 <=? p)%nat && (p <=? 11)%nat) = true).
  { apply andb_true_intro; split; apply Nat.leb_le; unfold p; lia. }
  rewrite Hin in H. injection H as H. apply lxor_cancel_l in H.
  by replace (11 - Z.of_nat p) with k in H by (unfold p; lia).
Qed.

Lemma decrypt_encrypt (G : gcm) `{!GcmLaws G} key seed i id p c :
  encrypt_stream_block G key seed i id p = Some c ->
  zlen c = zlen p + 16 /\ decrypt_stream_block G key seed i id c (zlen p) = Some p.
Proof.
  unfold encrypt_stream_block, decrypt_stream_block. intros H.
  destruct (gcm_seal _ _ _ _ _) as [[ct tag]|] eqn:E; [|done]. injection H as <-.
  destruct (seal_length _ _ _ _ _ _ E) as [Hc Ht].
  assert (Hz : zlen (ct ++ tag) = zlen p + 16) by (rewrite zlen_app; unfold zlen; lia).
  split; [done|]. rewrite Hz. pose proof (zlen_nonneg p).
  destruct (Z.ltb_spec (zlen p + 16) 16); [lia|]. rewrite Z.eqb_refl. cbn [negb]. cbv zeta.
  unfold zlen. rewrite Nat2Z.id, <- Hc, take_app_length, drop_app_length.
  rewrite <- Ht, firstn_all. by eapply open_seal.
Qed.

(** The other direction: what decrypts has the length that was asked for. *)
Lemma decrypt_length (G : gcm) `{!GcmLaws G} key seed i id c n p :
  decrypt_stream_block G key seed i id c n = Some p -> zlen p = n /\ zlen c = n + 16.
Proof.
  unfold decrypt_stream_block. intros H. destruct (Z.ltb_spec (zlen c) 16); [done|].
  destruct (Z.eqb_spec (n + 16) (zlen c)); [|done]. cbn [negb] in H.
  apply open_length in H. rewrite length_take in H. unfold zlen in *. lia.
Qed.

(** a block is the plaintext's length plus the 16-byte tag and decrypts to the plaintext; a
    block decrypts only at its exact length; and two chunks of a session never share a
    nonce, whatever their 32-bit indices. *)
Theorem stream_block_roundtrip (G : gcm) `{!GcmLaws G} key seed id i j p c n :
  (12 <= length seed)%nat -> - 2 ^ 31 <= i < 2 ^ 31 -> - 2 ^ 31 <= j < 2 ^ 31 ->
  encrypt_stream_block G key seed i id p = Some c ->
  zlen c = zlen p + 16 /\
  decrypt_stream_block G key seed i id c (zlen p) = Some p /\
  (n <> zlen p -> decrypt_stream_block G key seed i id c n = None) /\
  (i <> j -> derive_stream_iv seed i <> derive_stream_iv seed j).
Proof.
  intros Hs Hi Hj H. destruct (decrypt_encrypt G key seed i id p c H) as [Hl Hd].
  split; [done|]. split; [done|]. split.
  - intros Hn. destruct (decrypt_stream_block _ _ _ _ _ _ n) as [q|] eqn:E; [|done].
    destruct (decrypt_length G _ _ _ _ _ _ _ E) as [_ E']. lia.
  - intros Hne E. apply Hne. by eapply derive_stream_iv_inj.
Qed.

(** A stand-in for the cipher: the tag is sixteen zeros. *)
Definition toy_gcm : gcm :=
  Gcm (fun _ _ _ p => Some (p, replicate 16 0)) (fun _ _ _ c _ => Some c).

#[export] Instance toy_gcm_laws : GcmLaws toy_gcm.
Proof. split; intros; simplify_eq/=; done. Qed.

Lemma stream_block_roundtrip_witness :
  decrypt_stream_block toy_gcm [] (replicate 12 7) 3 (CS "s") ([1; 2] ++ replicate 16 0) 2 = Some [1; 2] /\
  derive_stream_iv (replicate 12 7) 3 <> derive_stream_iv (replicate 12 7) 259.
Proof.
  destruct (stream_block_roundtrip toy_gcm [] (replicate 12 7) (CS "s") 3 259 [1; 2] ([1; 2] ++ replicate 16 0)
    5 ltac:(vm_compute; lia) ltac:(lia) ltac:(lia) eq_refl) as (_ & H1 & _ & H2).
  split; [exact H1|apply H2; lia].
Defined.

(** ** Compression is inverted *)

Lemma exactly_length n o d : exactly n o = Some d -> zlen d = n.
Proof. unfold exactly. destruct o; [|done]. destruct (Z.eqb_spec (zlen l) n); intros; simplify_eq; done. Qed.

Lemma decompress_to_length L c n t d : tasfa_decompress_to L c n t = Some d -> zlen d = n.
Proof.
  unfold tasfa_decompress_to, tasfa_zstd_decompress_to, tasfa_brotli_decompress_to,
    tasfa_gzip_decompress_to.
  destruct c; [done|]. destruct t; [done|..]; apply exactly_length.
Qed.

Lemma codec_roundtrip (C : codec) `{!CodecLaws C} d c :
  c_compress C d = Some c -> c <> [] /\ exactly (zlen d) (c_decompress C (zlen d) c) = Some d.
Proof.
  intros H. split; [by eapply compress_nonempty|].
  rewrite (decompress_compress _ _ _ H) by lia. unfold exactly. by rewrite Z.eqb_refl.
Qed.

(** What [tasfa_compress_alloc] returns saves more than the minimal gain, is made by a codec the
    caller allows, and decompresses to the input. *)
Lemma compress_alloc_spec (L : codecs) `{!CodecsLaws L} z b g d c t :
  tasfa_compress_alloc L z b g d = Some (c, t) ->
  zlen c + TASFA_COMPRESS_MIN_GAIN_BYTES < zlen d /\
  t = (if z then COMPRESS_ZSTD else if b then COMPRESS_BROTLI else COMPRESS_GZIP) /\
  tasfa_decompress_to L c (zlen d) t = Some d.
Proof.
  unfold tasfa_compress_alloc. intros H.
  destruct (_ || _) eqn:E; [done|]. apply orb_false_iff in E as [E1 E2]. apply Z.leb_gt in E1.
  destruct d as [|x d]; [done|]. set (d0 := x :: d) in *.
  assert (Hcodec : forall C, CodecLaws C -> c_compress C d0 = Some c ->
    exists y c', c = y :: c' /\ exactly (zlen d0) (c_decompress C (zlen d0) c) = Some d0).
  { intros C HC HE. destruct (codec_roundtrip C d0 c HE) as [Hne Hx].
    destruct c as [|y c']; [done|]. eauto. }
  destruct z; [|destruct b]; cbn [tasfa_zstd_compress_alloc tasfa_brotli_compress_alloc tasfa_gzip_compress_alloc d0] in H;
    fold d0 in H;
    (destruct (c_compress _ d0) as [buf|] eqn:Ec; [|done]);
    (destruct (Z.leb_spec (zlen d0 - TASFA_COMPRESS_MIN_GAIN_BYTES) (zlen buf)); [done|]);
    injection H as -> <-; (split; [lia|]); (split; [done|]);
    destruct (Hcodec _ _ Ec) as (y & c' & -> & Hx); exact Hx.
Qed.

(** A stand-in for the codecs: a run of zeros becomes its length, other data keep their bytes. *)
Definition toy_codec : codec :=
  Codec (fun d => if forallb (fun x => x =? 0) d then Some [2; zlen d] else Some (1 :: d))
    (fun n c => match c with
                | [2; len] => if (0 <=? len) && (len <=? n) then Some (replicate (Z.to_nat len) 0) else None
                | 1 :: d => if zlen d <=? n then Some d else None
                | _ => None
                end).

Lemma all_zero d : forallb (fun x => x =? 0) d = true -> replicate (length d) 0 = d.
Proof.
  induction d as [|x d IH]; intros H; [done|]. cbn [forallb] in H. apply andb_prop in H as [Hx Hd].
  apply Z.eqb_eq in Hx as ->. cbn. by rewrite IH.
Qed.

#[export] Instance toy_codec_laws : CodecLaws toy_codec.
Proof.
  split; cbn [c_compress c_decompress toy_codec].
  - intros d c H. destruct (forallb _ d); by simplify_eq.
  - intros d c n H Hn. destruct (forallb _ d) eqn:E; simplify_eq.
    + pose proof (zlen_nonneg d). destruct (Z.leb_spec 0 (zlen d)), (Z.leb_spec (zlen d) n); [|lia..].
      cbn [andb]. unfold zlen. rewrite Nat2Z.id. by rewrite all_zero.
    + by apply Z.leb_le in Hn as ->.
  - intros c n d H.
    assert (Hd : exists x, zlen d = x /\ x <= n); [|destruct Hd as (? & ? & ?); lia].
    repeat case_match; simplify_eq; eexists; (split; [reflexivity|]); unfold zlen in *;
      rewrite ?length_replicate; bool_split; cbn [length] in *; lia.
Qed.

Definition toy_codecs : codecs := Codecs toy_codec toy_codec toy_codec.

#[export] Instance toy_codecs_laws : CodecsLaws toy_codecs.
Proof. split; apply toy_codec_laws. Qed.
