(* ===== verification/Session.v ===== *)
(** * Sessions on disk (src/src/handlers/tasfa/session.c)

    Paths, the bitmap of received chunks, the status report, the slice response of downloads,
    asset scopes and the sweep of stale sessions.  The bitmap file has one byte '0' or '1' per
    chunk; JSON documents are records of the fields the code reads.  The libraries
    behind compression and encryption are those of Crypto.v. *)
From S2P Require Import Prelude CStr Files TasfaCommon SlotCache Crypto.

(** ** Paths; [PATH_MAX] is large enough for every path built here *)

Definition TASFA_UPLOAD_DIR : cstr := CS "data/tasfa/uploads".
Definition TASFA_DOWNLOAD_DIR : cstr := CS "data/tasfa/downloads".

Definition upload_session_dir (id : cstr) : cstr := TASFA_UPLOAD_DIR ++ CS "/" ++ id.
Definition upload_session_meta_path (id : cstr) : cstr := upload_session_dir id ++ CS "/meta.json".
Definition upload_session_state_path (id : cstr) : cstr := upload_session_dir id ++ CS "/state.json".
Definition upload_session_meta_bin_path (id : cstr) : cstr := upload_session_dir id ++ CS "/meta.bin".
Definition upload_session_state_bin_path (id : cstr) : cstr := upload_session_dir id ++ CS "/state.bin".
Definition upload_session_temp_path (id : cstr) : cstr := upload_session_dir id ++ CS "/upload.bin.part".
Definition download_session_dir (id : cstr) : cstr := TASFA_DOWNLOAD_DIR ++ CS "/" ++ id.
Definition download_session_meta_path (id : cstr) : cstr := download_session_dir id ++ CS "/meta.json".

(** ** Bitmaps *)

Definition one : Z := CH "1".
Definition zero : Z := CH "0".

(** A NULL bitmap counts nothing; [len] never exceeds the bitmap's length in the callers. *)
Definition bitmap_count_set (bitmap : option (list Z)) (len : Z) : Z :=
  match bitmap with
  | None => 0
  | Some b => if len <=? 0 then 0
              else Z.of_nat (countb (fun c => c =? one) (take (Z.to_nat len) b))
  end.

Definition bitmap_create (chunk_count : Z) : option (list Z) :=
  if chunk_count <=? 0 then None else Some (replicate (Z.to_nat chunk_count) zero).

Definition save_upload_session_state_bin (id : cstr) (chunk_count : Z) (bitmap : option (list Z))
    (files : fs) : bool * fs :=
  match bitmap with
  | None => (false, files)
  | Some b => (true, <[upload_session_state_bin_path id := take (Z.to_nat chunk_count) b]> files)
  end.

Definition load_upload_session_state_bin (id : cstr) (chunk_count : Z) (files : fs) : option (list Z) :=
  match files !! upload_session_state_bin_path id with
  | None => None
  | Some data =>
      let r := pread data 0 (Z.to_nat chunk_count) in
      if zlen r =? chunk_count then Some r else None
  end.

Definition mark_chunk_received_in_session_state (id : cstr) (chunk_index : Z) (files : fs) : bool * fs :=
  let path := upload_session_state_bin_path id in
  match files !! path with
  | None => (false, files)
  | Some data =>
      if chunk_index <? 0 then (false, files)
      else (true, <[path := pwrite data (Z.to_nat chunk_index) [one]]> files)
  end.

(** The locked read-modify-write: [Some was_already_received], or [None] on failure. *)
Definition mark_chunk_received_in_session_state_atomic (id : cstr) (chunk_index : Z) (files : fs)
  : option bool * fs :=
  let path := upload_session_state_bin_path id in
  match files !! path with
  | None => (None, files)
  | Some data =>
      if chunk_index <? 0 then (None, files)
      else match pread data (Z.to_nat chunk_index) 1 with
           | [val] =>
               if val =? one then (Some true, files)
               else (Some false, <[path := pwrite data (Z.to_nat chunk_index) [one]]> files)
           | _ => (None, files)
           end
  end.

Definition is_chunk_already_received (id : cstr) (chunk_index : Z) (files : fs) : bool :=
  match files !! upload_session_state_bin_path id with
  | None => false
  | Some data =>
      if chunk_index <? 0 then false
      else match pread data (Z.to_nat chunk_index) 1 with [val] => val =? one | _ => false end
  end.

(** ** The session document and its status report *)

Record upload_meta := UploadMeta {
  m_received_bitmap : list Z;
  m_received_chunks : option Z;
  m_chunk_count : Z;
  m_chunk_size : Z;
  m_total_size : Z;
  m_current_parallel : option Z;
  m_max_parallel : option Z;
  m_retry_targets : list Z;
}.

Record parallel_state := ParallelState { ps_current : option Z; ps_max : option Z }.

Definition or_else {A} (a b : option A) : option A := match a with Some _ => a | None => b end.

(** [load_upload_session] on a parsed meta.json and state.json. *)
Definition load_upload_session (id : cstr) (meta : option upload_meta) (state : option parallel_state)
    (files : fs) : option upload_meta :=
  match meta with
  | None => None
  | Some m =>
      let m :=
        match load_upload_session_state_bin id (m_chunk_count m) files with
        | Some b => UploadMeta b (Some (bitmap_count_set (Some b) (m_chunk_count m)))
                      (m_chunk_count m) (m_chunk_size m) (m_total_size m) (m_current_parallel m)
                      (m_max_parallel m) (m_retry_targets m)
        | None => m
        end in
      Some match state with
           | Some s => UploadMeta (m_received_bitmap m) (m_received_chunks m) (m_chunk_count m)
                         (m_chunk_size m) (m_total_size m)
                         (or_else (ps_current s) (m_current_parallel m))
                         (or_else (ps_max s) (m_max_parallel m)) (m_retry_targets m)
           | None => m
           end
  end.

Record missing_vertex := MissingVertex { mv_group : Z; mv_vertex : Z; mv_chunk : Z }.

Record upload_status := UploadStatus {
  st_received_chunks : Z;
  st_chunk_count : Z;
  st_current_parallel : Z;
  st_max_parallel : Z;
  st_complete : bool;             (* topology_closure_complete *)
  st_percent : Z;
  st_missing : list missing_vertex;
  st_needs_retry : bool;
}.

(** The numeric part of [build_upload_status_json]. *)
Definition build_upload_status_json (m : upload_meta) : upload_status :=
  let bitmap := m_received_bitmap m in
  let chunk_count := m_chunk_count m in
  let received := default (bitmap_count_set (Some bitmap) chunk_count) (m_received_chunks m) in
  UploadStatus received chunk_count (default 6 (m_current_parallel m)) (default 6 (m_max_parallel m))
    ((0 <? chunk_count) && (received =? chunk_count))
    (if 0 <? chunk_count then Z.quot (received * 100) chunk_count else 0)
    (map (fun i => MissingVertex (Z.of_nat i / 6) (Z.of_nat i `mod` 6) (Z.of_nat i))
       (List.filter (fun i => negb (nth i bitmap 0 =? one)) (seq 0 (Z.to_nat chunk_count))))
    (negb (bool_decide (m_retry_targets m = []))).

(** ** Asset scopes *)

Definition resolve_asset_scope_path (scope encoded : option cstr) : option (cstr * cstr) :=
  let decoded := decode_segment (default [] encoded) in
  let scope := default [] scope in
  if streq scope (CS "img") && is_safe_filename_simple (Some decoded)
  then Some (CS "public/img/" ++ decoded, decoded)
  else if streq scope (CS "uploads") && is_safe_upload_asset_name (Some decoded)
  then Some (CS "public/uploads/" ++ decoded, decoded)
  else if streq scope (CS "profile") && is_safe_filename_simple (Some decoded)
  then Some (CS "public/profile/" ++ decoded, decoded)
  else None.

(** ** The sweep of stale sessions *)

Definition TASFA_SWEEP_GRACE : Z := 3600.

Inductive lock_file := NoLockFile | LockFree | LockHeld | LockUnreadable.

Record session_dir := SessionDir {
  sd_mtime : Z;
  sd_files : list (cstr * Z * Z);    (* name, mtime, disk bytes *)
  sd_expires_at : Z;                 (* of meta.json, 0 when unreadable *)
  sd_lock : lock_file;
}.

Definition session_activity (d : session_dir) : Z * Z :=
  (foldl (fun newest f => if newest <? f.1.2 then f.1.2 else newest) (sd_mtime d) (sd_files d),
   foldl (fun bytes f => bytes + f.2) 0 (sd_files d)).

(** The test of one directory entry; [None] for an entry that is not a directory. *)
Definition sweep_entry (ttl : Z) (locked : bool) (now : Z) (name : cstr) (d : option session_dir)
  : option Z :=
  if negb (is_safe_segment (Some name)) then None
  else match d with
       | None => None
       | Some d =>
           let '(active, bytes) := session_activity d in
           let expires := sd_expires_at d in
           let expires := if expires <=? 0 then active + ttl else expires in
           if (now <? expires + TASFA_SWEEP_GRACE) || (now <? active + TASFA_SWEEP_GRACE) then None
           else if locked then
             match sd_lock d with
             | LockUnreadable | LockHeld => None
             | NoLockFile | LockFree => Some bytes
             end
           else Some bytes
       end.

(** The entries as readdir lists them, "." and ".." included: what is cleaned up, and how many
    bytes that frees. *)
Fixpoint sweep_dir (ttl : Z) (locked : bool) (now : Z) (entries : list (cstr * option session_dir))
  : list cstr * Z :=
  match entries with
  | [] => ([], 0)
  | (name, d) :: rest =>
      let '(removed, freed) := sweep_dir ttl locked now rest in
      match sweep_entry ttl locked now name d with
      | Some bytes => (name :: removed, bytes + freed)
      | None => (removed, freed)
      end
  end.

Definition tasfa_sweep_stale_sessions (now : Z) (uploads downloads : list (cstr * option session_dir))
  : Z * Z :=
  let '(r1, f1) := sweep_dir TASFA_UPLOAD_TTL true now uploads in
  let '(r2, f2) := sweep_dir TASFA_DOWNLOAD_TTL false now downloads in
  (zlen r1 + zlen r2, f1 + f2).

(** [pwrite_all]: [acks] are the results of the write calls, negative on error (never EINTR). *)
Fixpoint pwrite_all (data buf : list Z) (off : nat) (acks : list Z) : bool * list Z :=
  match buf with
  | [] => (true, data)
  | _ =>
      match acks with
      | [] => (false, data)
      | rc :: acks' =>
          if rc <=? 0 then (false, data)
          else
            let n := Z.to_nat rc in
            pwrite_all (pwrite data off (take n buf)) (drop n buf) (off + n) acks'
      end
  end.

(** ** The response that carries a slice of a download *)

Definition HTP_TAG_LEN : Z := 129.
Definition HTP_RECORD_SIZE : Z := HTP_TAG_LEN + 8 + 8.

(** A little-endian 64-bit word in memory. *)
Definition le64 (b : list Z) : Z := foldr (fun x acc => x + 256 * acc) 0 b.

Record slice_response := SliceResponse {
  sl_headers : list (cstr * cstr);
  sl_body : list Z;
}.

Definition header (name : cstr) (r : slice_response) : option cstr :=
  option_map snd (List.find (fun h => streq h.1 name) (sl_headers r)).

Section slice.
Context (L : codecs) (G : gcm).

Definition encoding_name (t : compress_type) : option cstr :=
  match t with
  | COMPRESS_ZSTD => Some (CS "zstd")
  | COMPRESS_BROTLI => Some (CS "br")
  | COMPRESS_GZIP => Some (CS "gzip")
  | COMPRESS_NONE => None
  end.

(** The payload and the name of its encoding. *)
Definition choose_payload (enc_header : option cstr) (buf : list Z) : list Z * option cstr :=
  let accepts e := str_contains_ci_local enc_header (Some e) in
  if TASFA_COMPRESS_MIN_GAIN_BYTES <=? zlen buf then
    match tasfa_compress_alloc L (accepts (CS "zstd")) (accepts (CS "br")) (accepts (CS "gzip")) buf with
    | Some (comp, t) =>
        if zlen comp + TASFA_COMPRESS_MIN_GAIN_BYTES <? zlen buf then
          match encoding_name t with
          | Some e => (comp, Some e)
          | None => (buf, None)
          end
        else (buf, None)
    | None => (buf, None)
    end
  else (buf, None).

(** The tag and the balanced scalar of the chunk in htp.bin. *)
Definition htp_headers (htp : option (list Z)) (chunk_index : Z) : list (cstr * cstr) :=
  match htp with
  | None => []
  | Some h =>
      let off := chunk_index * HTP_RECORD_SIZE in
      let tag := pread h (Z.to_nat off) (Z.to_nat HTP_TAG_LEN) in
      let raw := pread h (Z.to_nat (off + HTP_TAG_LEN)) 8 in
      let balanced := pread h (Z.to_nat (off + HTP_TAG_LEN + 8)) 8 in
      if (zlen tag =? HTP_TAG_LEN) && (zlen raw =? 8) && (zlen balanced =? 8)
      then [(CS "X-TASFA-Hash-Tag", until_nul tag);
            (CS "X-TASFA-Magic-Scalar", print_dec (le64 balanced))]
      else []
  end.

Definition slice_headers (enc mime : option cstr) (amount chunk_index chunk_count span : Z)
  : list (cstr * cstr) :=
  match enc with
  | Some e => [(CS "X-TASFA-Content-Encoding", e);
               (CS "X-TASFA-Uncompressed-Length", print_dec amount)]
  | None => []
  end ++
  [(CS "Content-Type", default (CS "application/octet-stream") mime);
   (CS "Cache-Control", CS "no-store, no-cache, must-revalidate, private");
   (CS "Accept-Ranges", CS "bytes"); (CS "Vary", CS "Origin, Accept-Encoding");
   (CS "X-TASFA-Chunk-Index", print_int chunk_index);
   (CS "X-TASFA-Chunk-Count", print_int chunk_count);
   (CS "X-TASFA-Chunk-Span", print_int (if 0 <? span then span else 1))].

(** [htp] and [keys] are the htp.bin and the stream keys of the session, when there are any. *)
Definition send_file_slice_response (file : option (list Z)) (accept_tasfa accept mime : option cstr)
    (offset amount chunk_index chunk_count span : Z) (session_id : option cstr)
    (htp : option (list Z)) (keys : option (list Z * list Z)) : option slice_response :=
  match file with
  | None => None
  | Some data =>
      let buf := pread data (Z.to_nat offset) (Z.to_nat amount) in
      if negb (zlen buf =? amount) then None
      else
        let '(payload, enc) := choose_payload (or_else accept_tasfa accept) buf in
        let hs := slice_headers enc mime amount chunk_index chunk_count span in
        let '(hs, cipher) :=
          match session_id with
          | None => (hs, None)
          | Some sid =>
              let hs := hs ++ htp_headers htp chunk_index in
              match keys with
              | Some (key, seed) =>
                  (hs ++ [(CS "X-TASFA-Stream-Mode", CS "aes-256-gcm")],
                   encrypt_stream_block G key seed chunk_index sid payload)
              | None => (hs, None)
              end
          end in
        let body := default payload cipher in
        Some (SliceResponse (hs ++ [(CS "Content-Length", print_dec (zlen body))]) body)
  end.
End slice.

(** ** The bitmap counts distinct chunks *)

Lemma pread_1 data i v : data !! i = Some v -> pread data i 1 = [v].
Proof.
  intros H. unfold pread. rewrite (drop_S _ _ _ H). simpl. by rewrite take_0.
Qed.

Lemma pwrite_1 data i v : (i < length data)%nat -> pwrite data i [v] = <[i := v]> data.
Proof.
  intros Hi. apply list_eq. intros j. rewrite lookup_pwrite by (simpl; lia). simpl.
  case_decide as Hj.
  - replace j with i by lia. rewrite Nat.sub_diag, list_lookup_insert_eq by done. done.
  - rewrite list_lookup_insert_ne by lia. done.
Qed.

Definition is_set (c : Z) : bool := c =? one.

Lemma mark_atomic_spec id i files b v :
  files !! upload_session_state_bin_path id = Some b -> 0 <= i -> b !! Z.to_nat i = Some v ->
  mark_chunk_received_in_session_state_atomic id i files
  = (Some (is_set v), if is_set v then files
                      else <[upload_session_state_bin_path id := <[Z.to_nat i := one]> b]> files).
Proof.
  intros Hb Hi Hv. unfold mark_chunk_received_in_session_state_atomic. rewrite Hb.
  destruct (Z.ltb_spec i 0); [lia|]. rewrite (pread_1 _ _ _ Hv). unfold is_set.
  destruct (v =? one); [done|]. rewrite pwrite_1; [done|]. by eapply lookup_lt_Some.
Qed.

(** The chunk uploads of a session in the order in which they take the lock: what each of them
    is told, and the files at the end. *)
Fixpoint mark_all (id : cstr) (l : list Z) (files : fs) : list (option bool) * fs :=
  match l with
  | [] => ([], files)
  | i :: l' =>
      let '(r, files) := mark_chunk_received_in_session_state_atomic id i files in
      let '(rs, files) := mark_all id l' files in (r :: rs, files)
  end.

Definition is_first (r : option bool) : bool := match r with Some false => true | _ => false end.

Lemma mark_all_spec id l files b :
  files !! upload_session_state_bin_path id = Some b ->
  Forall (fun i => 0 <= i < zlen b) l ->
  exists b', (mark_all id l files).2 !! upload_session_state_bin_path id = Some b' /\
    length b' = length b /\
    (forall j, (j < length b)%nat ->
       is_set (nth j b' 0) = bool_decide (Z.of_nat j ∈ l) || is_set (nth j b 0)) /\
    (countb is_first (mark_all id l files).1 + countb is_set b = countb is_set b')%nat.
Proof.
  intros Hb Hl. revert files b Hb Hl. induction l as [|i l IH]; intros files b Hb Hl.
  { exists b. simpl. split; [done|]. split; [done|]. split; [|done]. intros j Hj. done. }
  inversion Hl as [|? ? Hi Hl']; subst. unfold zlen in Hi.
  destruct (lookup_lt_is_Some_2 b (Z.to_nat i)) as [v Hv]; [lia|].
  simpl. rewrite (mark_atomic_spec id i files b v Hb ltac:(lia) Hv).
  destruct (is_set v) eqn:Ev.
  - destruct (IH files b Hb Hl') as (b' & H1 & H2 & H3 & H4).
    destruct (mark_all id l files) as [rs fs']; simpl in *. exists b'.
    split; [done|]. split; [done|]. split; [|done]. intros j Hj. rewrite H3 by done.
    destruct (decide (j = Z.to_nat i)) as [->|Hne].
    + rewrite (nth_lookup b), Hv. simpl. rewrite Ev. by rewrite !orb_true_r.
    + f_equal. apply bool_decide_ext. rewrite elem_of_cons.
      split; [by right|intros [?|?]; [lia|done]].
  - destruct (IH (<[upload_session_state_bin_path id := <[Z.to_nat i := one]> b]> files)
                (<[Z.to_nat i := one]> b)) as (b' & H1 & H2 & H3 & H4).
    { by rewrite lookup_insert_eq. }
    { unfold zlen in *. by rewrite length_insert. }
    destruct (mark_all id l _) as [rs fs']; simpl in *. exists b'. rewrite length_insert in *.
    split; [done|]. split; [done|]. split.
    + intros j Hj. rewrite H3 by done. destruct (decide (j = Z.to_nat i)) as [->|Hne].
      * rewrite (nth_lookup (<[_ := _]> b)), list_lookup_insert_eq by lia. simpl.
        rewrite (bool_decide_eq_true_2 (_ ∈ i :: l)); [by rewrite orb_true_r|].
        apply elem_of_cons. left. lia.
      * rewrite (nth_lookup (<[_ := _]> b)), list_lookup_insert_ne by lia. rewrite <- nth_lookup.
        f_equal. apply bool_decide_ext. rewrite elem_of_cons.
        split; [by right|intros [?|?]; [lia|done]].
    + pose proof (countb_insert is_set b (Z.to_nat i) v one Hv) as Hc. rewrite Ev in Hc.
      change (is_set one) with true in Hc. simpl in *. lia.
Qed.

Lemma seq_filter_nil (P : nat -> bool) n :
  List.filter P (seq 0 n) = [] <-> forall j, (j < n)%nat -> P j = false.
Proof.
  split.
  - intros H j Hj. destruct (P j) eqn:E; [|done].
    assert (Hin : In j (List.filter P (seq 0 n))) by (apply filter_In; split; [apply in_seq; lia|done]).
    by rewrite H in Hin.
  - intros H. destruct (List.filter P (seq 0 n)) as [|j l] eqn:E; [done|].
    assert (Hin : In j (List.filter P (seq 0 n))) by (rewrite E; by left).
    apply filter_In in Hin as [Hin HP]. apply in_seq in Hin. rewrite H in HP by lia. done.
Qed.

(** whatever the order and the repetitions in which chunk uploads take the lock, each chunk
    is reported as new exactly once, the count of received chunks is the number of distinct
    chunks marked, and the status says complete, with no missing vertex, exactly when every
    chunk of the session has been marked. *)
Theorem mark_chunks_exactly_once id l files m state b :
  files !! upload_session_state_bin_path id = Some b ->
  zlen b = m_chunk_count m -> 0 < m_chunk_count m ->
  Forall (fun i => 0 <= i < m_chunk_count m) l ->
  let '(rs, files') := mark_all id l files in
  exists m', load_upload_session id (Some m) state files' = Some m' /\
    let st := build_upload_status_json m' in
    st_received_chunks st = Z.of_nat (countb is_first rs) + bitmap_count_set (Some b) (m_chunk_count m) /\
    Forall (fun r => r <> None) rs /\
    (st_complete st = true <-> forall j, 0 <= j < m_chunk_count m ->
       j ∈ l \/ nth (Z.to_nat j) b 0 = one) /\
    (st_complete st = true <-> st_missing st = []).
Proof.
  intros Hb Hlen Hpos Hl. rewrite <- Hlen in Hl.
  destruct (mark_all_spec id l files b Hb Hl) as (b' & H1 & H2 & H3 & H4).
  assert (Hsome : Forall (fun r => r <> None) (mark_all id l files).1).
  { clear - Hb Hl. revert files b Hb Hl. induction l as [|i l IH]; intros files b Hb Hl; [constructor|].
    inversion Hl as [|? ? Hi Hl']; subst. unfold zlen in Hi.
    destruct (lookup_lt_is_Some_2 b (Z.to_nat i)) as [v Hv]; [lia|]. simpl.
    rewrite (mark_atomic_spec id i files b v Hb ltac:(lia) Hv).
    destruct (is_set v).
    - specialize (IH files b Hb Hl'). destruct (mark_all id l files). simpl in *. by constructor.
    - specialize (IH (<[upload_session_state_bin_path id := <[Z.to_nat i := one]> b]> files)
        (<[Z.to_nat i := one]> b)). unfold zlen in *. rewrite lookup_insert_eq, length_insert in IH.
      specialize (IH eq_refl Hl'). destruct (mark_all id l _). simpl in *. by constructor. }
  destruct (mark_all id l files) as [rs files'] eqn:E. simpl in *.
  assert (Hn : Z.to_nat (m_chunk_count m) = length b) by (unfold zlen in Hlen; lia).
  assert (Hload : load_upload_session_state_bin id (m_chunk_count m) files' = Some b').
  { unfold load_upload_session_state_bin. rewrite H1.
    assert (pread b' 0 (Z.to_nat (m_chunk_count m)) = b') as ->.
    { unfold pread. rewrite drop_0. apply take_ge. lia. }
    unfold zlen in *. by rewrite H2, Hlen, Z.eqb_refl. }
  assert (Hcount : forall x, length x = length b ->
    bitmap_count_set (Some x) (m_chunk_count m) = Z.of_nat (countb is_set x)).
  { intros x Hx. unfold bitmap_count_set. destruct (Z.leb_spec (m_chunk_count m) 0); [lia|].
    rewrite take_ge by lia. done. }
  eexists. unfold load_upload_session. rewrite Hload. split; [reflexivity|].
  assert (Hall : Z.of_nat (countb is_set b') = m_chunk_count m <->
                 forall j, (j < length b)%nat -> is_set (nth j b' 0) = true).
  { split.
    - intros Hc j Hj. assert (Hf : countb is_set b' = length b') by (unfold zlen in Hlen; lia).
      apply countb_full in Hf. rewrite nth_lookup.
      destruct (lookup_lt_is_Some_2 b' j) as [x Hx]; [lia|]. rewrite Hx. simpl.
      by apply (proj1 (Forall_lookup _ _) Hf j x).
    - intros Hf. assert (countb is_set b' = length b') as ->; [|unfold zlen in Hlen; lia].
      apply countb_full, Forall_lookup. intros j x Hx. specialize (Hf j).
      rewrite nth_lookup, Hx in Hf. apply Hf. apply lookup_lt_Some in Hx. lia. }
  cbv zeta. unfold build_upload_status_json.
  assert (Hst : forall m', m_received_bitmap m' = b' ->
    m_received_chunks m' = Some (bitmap_count_set (Some b') (m_chunk_count m)) ->
    m_chunk_count m' = m_chunk_count m ->
    let st := build_upload_status_json m' in
    st_received_chunks st = Z.of_nat (countb is_first rs) + bitmap_count_set (Some b) (m_chunk_count m) /\
    Forall (fun r => r <> None) rs /\
    (st_complete st = true <-> forall j, 0 <= j < m_chunk_count m -> j ∈ l \/ nth (Z.to_nat j) b 0 = one) /\
    (st_complete st = true <-> st_missing st = [])).
  2: { destruct state as [s|]; by apply Hst. }
  intros m' Hbm Hrc Hcc. unfold build_upload_status_json. cbv zeta.
  cbn [st_received_chunks st_complete st_missing]. rewrite Hbm, Hrc, Hcc, !Hcount by done.
  cbn [default from_option]. unfold Datatypes.id.
  assert (Hc : (0 <? m_chunk_count m) && (Z.of_nat (countb is_set b') =? m_chunk_count m) = true
               <-> forall j, (j < length b)%nat -> is_set (nth j b' 0) = true).
  { rewrite <- Hall, andb_true_iff, Z.ltb_lt, Z.eqb_eq. intuition lia. }
  split; [lia|]. split; [done|]. split.
  - rewrite Hc. split.
    + intros H j Hj. specialize (H (Z.to_nat j) ltac:(lia)). rewrite H3 in H by lia.
      apply orb_true_iff in H as [H|H]; bool_split.
      * left. by replace (Z.of_nat (Z.to_nat j)) with j in H by lia.
      * right. by apply Z.eqb_eq.
    + intros H j Hj. rewrite H3 by done. apply orb_true_iff.
      destruct (H (Z.of_nat j) ltac:(lia)) as [Hin|Hin]; [left; by apply bool_decide_eq_true|right].
      apply Z.eqb_eq. by rewrite Nat2Z.id in Hin.
  - rewrite Hc. rewrite Hn. split.
    + intros H. assert (Hnil : List.filter (fun i => negb (nth i b' 0 =? one)) (seq 0 (length b)) = []).
      { apply seq_filter_nil. intros j Hj. apply negb_false_iff. by apply H. }
      by rewrite Hnil.
    + intros H j Hj. apply map_eq_nil, seq_filter_nil with (j := j) in H; [|done].
      by apply negb_false_iff in H.
Qed.

Definition demo_meta : upload_meta := UploadMeta [zero; zero; zero] (Some 0) 3 10 25 None None [].
Definition demo_files : fs := {[upload_session_state_bin_path (CS "u") := [zero; zero; zero]]}.

Lemma mark_chunks_exactly_once_witness :
  let '(rs, files') := mark_all (CS "u") [2; 0; 2; 1] demo_files in
  exists m', load_upload_session (CS "u") (Some demo_meta) None files' = Some m' /\
    st_received_chunks (build_upload_status_json m') = Z.of_nat (countb is_first rs).
Proof.
  pose proof (mark_chunks_exactly_once (CS "u") [2; 0; 2; 1] demo_files demo_meta None
    [zero; zero; zero] ltac:(vm_compute; reflexivity) ltac:(reflexivity) ltac:(simpl; lia)
    ltac:(repeat constructor; simpl; lia)) as H.
  destruct (mark_all _ _ _) as [rs files']. destruct H as (m' & H1 & H2 & _).
  exists m'. split; [exact H1|]. rewrite H2. simpl. lia.
Defined.

(** ** A download slice can be read back *)

(** Undoing the encoding a header names gives the slice. *)
Definition decodes (L : codecs) (enc : option cstr) (payload slice : list Z) : Prop :=
  match enc with
  | Some e => exists t, encoding_name t = Some e /\
                tasfa_decompress_to L payload (zlen slice) t = Some slice
  | None => payload = slice
  end.

Lemma choose_payload_spec (L : codecs) `{!CodecsLaws L} enc buf :
  decodes L (choose_payload L enc buf).2 (choose_payload L enc buf).1 buf.
Proof.
  unfold choose_payload. destruct (_ <=? _); [|done].
  destruct (tasfa_compress_alloc _ _ _ _ buf) as [[c t]|] eqn:E; [|done]. destruct (_ <? _); [|done].
  destruct (encoding_name t) as [e|] eqn:Ee; [|done]. exists t.
  split; [done|]. by destruct (compress_alloc_spec L _ _ _ _ _ _ E) as (_ & _ & H).
Qed.

Definition hget (name : cstr) (hs : list (cstr * cstr)) : option cstr :=
  option_map snd (List.find (fun h => streq h.1 name) hs).

Lemma hget_ne name n v hs : streq n name = false -> hget name ((n, v) :: hs) = hget name hs.
Proof. unfold hget. simpl. by intros ->. Qed.

Lemma hget_eq name v hs : hget name ((name, v) :: hs) = Some v.
Proof. unfold hget. simpl. by rewrite streq_refl. Qed.

Lemma hget_fold name hs :
  hget name hs = option_map snd (List.find (fun h => streq h.1 name) hs).
Proof. done. Qed.

Lemma slice_headers_encoding enc mime amount ci cc span tl :
  hget (CS "X-TASFA-Content-Encoding") tl = None ->
  hget (CS "X-TASFA-Content-Encoding") (slice_headers enc mime amount ci cc span ++ tl) = enc.
Proof.
  intros Htl. unfold slice_headers. destruct enc as [e|]; cbn [app]; [apply hget_eq|].
  by repeat rewrite hget_ne by reflexivity.
Qed.

Lemma hget_skip enc mime amount ci cc span tl :
  hget (CS "X-TASFA-Stream-Mode") (slice_headers enc mime amount ci cc span ++ tl)
  = hget (CS "X-TASFA-Stream-Mode") tl.
Proof.
  unfold slice_headers. destruct enc as [e|]; cbn [app]; by repeat rewrite hget_ne by reflexivity.
Qed.

Lemma hget_htp name htp ci tl :
  streq (CS "X-TASFA-Hash-Tag") name = false -> streq (CS "X-TASFA-Magic-Scalar") name = false ->
  hget name (htp_headers htp ci ++ tl) = hget name tl.
Proof.
  intros H1 H2. unfold htp_headers. destruct htp as [h|]; [|done]. cbv zeta.
  destruct (_ && _); [|done]. cbn [app]. by rewrite !hget_ne by done.
Qed.

(** a client gets the exact bytes it asked for: the slice response exists when the range is
    in the file and fails when it is not, and decrypting its body (when the session has keys)
    and undoing the encoding its header names gives the slice.  When the encryption fails,
    however, the payload goes out in the clear under the header that announces encryption. *)
Theorem send_file_slice_roundtrip (L : codecs) `{!CodecsLaws L} (G : gcm) `{!GcmLaws G}
    data at_enc acc mime offset amount ci cc span sid htp keys :
  0 <= offset -> 0 < amount ->
  let resp := send_file_slice_response L G (Some data) at_enc acc mime offset amount
                ci cc span sid htp keys in
  let slice := pread data (Z.to_nat offset) (Z.to_nat amount) in
  (zlen data < offset + amount -> resp = None) /\
  (offset + amount <= zlen data -> exists r payload, resp = Some r /\
     decodes L (header (CS "X-TASFA-Content-Encoding") r) payload slice /\
     match sid, keys with
     | Some id, Some (k, s) =>
         match encrypt_stream_block G k s ci id payload with
         | Some _ => decrypt_stream_block G k s ci id (sl_body r) (zlen payload) = Some payload
         | None => header (CS "X-TASFA-Stream-Mode") r = Some (CS "aes-256-gcm") /\ sl_body r = payload
         end
     | _, _ => sl_body r = payload
     end).
Proof.
  intros Hoff Ham. cbv zeta. unfold send_file_slice_response.
  set (buf := pread data (Z.to_nat offset) (Z.to_nat amount)).
  assert (Hlen : zlen buf = Z.min amount (Z.max 0 (zlen data - offset))).
  { unfold buf, zlen. rewrite length_pread. lia. }
  split.
  - intros Hout. destruct (Z.eqb_spec (zlen buf) amount); [lia|done].
  - intros Hin. destruct (Z.eqb_spec (zlen buf) amount); [|lia]. cbn [negb].
    pose proof (choose_payload_spec L (or_else at_enc acc) buf) as Hp.
    destruct (choose_payload L (or_else at_enc acc) buf) as [payload enc]. cbn [fst snd] in Hp.
    pose proof (slice_headers_encoding enc mime amount ci cc span) as Henc.
    destruct sid as [id|]; [destruct keys as [[k s]|]|].
    + destruct (encrypt_stream_block G k s ci id payload) as [c|] eqn:Ec;
        (eexists _, payload; split; [reflexivity|]); rewrite Ec; unfold header;
        cbn [sl_headers sl_body default from_option];
        unfold Datatypes.id; rewrite <- !app_assoc, <- !hget_fold, Henc by (rewrite hget_htp; done).
      * split; [done|]. by destruct (decrypt_encrypt G _ _ _ _ _ _ Ec).
      * split; [done|]. split; [|done]. by rewrite hget_skip, hget_htp.
    + eexists _, payload. split; [reflexivity|]. unfold header. cbn [sl_headers sl_body].
      rewrite <- !app_assoc, <- hget_fold, Henc by (rewrite hget_htp; done). by split.
    + eexists _, payload. split; [reflexivity|]. unfold header. cbn [sl_headers sl_body].
      rewrite <- hget_fold, Henc by done. by split.
Qed.

Lemma send_file_slice_roundtrip_witness :
  exists r payload,
    send_file_slice_response toy_codecs toy_gcm (Some (replicate 2000 0)) None (Some (CS "gzip")) None
      1 1500 0 2 1 (Some (CS "s")) None (Some ([], [])) = Some r /\
    decrypt_stream_block toy_gcm [] [] 0 (CS "s") (sl_body r) (zlen payload) = Some payload.
Proof.
  destruct (proj2 (send_file_slice_roundtrip toy_codecs toy_gcm (replicate 2000 0) None
    (Some (CS "gzip")) None 1 1500 0 2 1 (Some (CS "s")) None (Some ([], []))
    ltac:(lia) ltac:(lia)) ltac:(vm_compute; discriminate)) as (r & payload & H1 & _ & H3).
  exists r, payload. split; [exact H1|exact H3].
Defined.

(** ** What the sweep removes *)

#[local] Arguments session_activity : simpl never.

Lemma sweep_dir_in ttl locked now entries name :
  name ∈ (sweep_dir ttl locked now entries).1 <->
  exists d, (name, d) ∈ entries /\ sweep_entry ttl locked now name d <> None.
Proof.
  induction entries as [|[n d] es IH]; simpl; [split; [set_solver|intros (d & Hd & _); set_solver]|].
  destruct (sweep_dir ttl locked now es) as [r f]. simpl in *.
  destruct (sweep_entry ttl locked now n d) as [b|] eqn:E; simpl.
  - rewrite elem_of_cons, IH. split.
    + intros [->|(d' & Hd & Hs)]; [exists d; split; [left|congruence]|exists d'; split; [by right|done]].
    + intros (d' & Hd & Hs). apply elem_of_cons in Hd as [?|Hd]; [left; congruence|right; eauto].
  - rewrite IH. split.
    + intros (d' & Hd & Hs). exists d'. split; [by right|done].
    + intros (d' & Hd & Hs). apply elem_of_cons in Hd as [?|Hd]; [simplify_eq; congruence|eauto].
Qed.

(** A session directory is stale: its expiry and its last activity are past by the grace time,
    and nobody holds its lock. *)
Definition stale (ttl : Z) (locked : bool) (now : Z) (d : session_dir) : Prop :=
  let active := (session_activity d).1 in
  (if sd_expires_at d <=? 0 then active + ttl else sd_expires_at d) + TASFA_SWEEP_GRACE <= now /\
  active + TASFA_SWEEP_GRACE <= now /\
  (locked = true -> sd_lock d = NoLockFile \/ sd_lock d = LockFree).

(** the sweep cleans up exactly the directories with a safe name that are stale, so a session
    in use, recently active or locked by a finalize stays; but "." and ".." count as safe
    names, so an idle root and its parent are swept and counted as two sessions per root. *)
Theorem sweep_removes_exactly_stale ttl locked now entries name :
  (name ∈ (sweep_dir ttl locked now entries).1 <->
   is_safe_segment (Some name) = true /\ exists d, (name, Some d) ∈ entries /\ stale ttl locked now d) /\
  (forall root parent,
     stale TASFA_UPLOAD_TTL true now root -> stale TASFA_UPLOAD_TTL true now parent ->
     (tasfa_sweep_stale_sessions now [(CS ".", Some root); (CS "..", Some parent)] []).1 = 2).
Proof.
  assert (Hentry : forall ttl locked n d, sweep_entry ttl locked now n d <> None <->
    is_safe_segment (Some n) = true /\ exists d', d = Some d' /\ stale ttl locked now d').
  { clear. intros ttl locked n d. unfold sweep_entry, stale. destruct (is_safe_segment (Some n)); cbn [negb];
      [|split; [by intros []|by intros []]].
    destruct d as [d|]; [|split; [by intros []|by intros (_ & d' & ? & _)]].
    rewrite (surjective_pairing (session_activity d)).
    set (active := (session_activity d).1). set (bytes := (session_activity d).2).
    set (ex := if sd_expires_at d <=? 0 then active + ttl else sd_expires_at d).
    destruct (_ || _) eqn:Ew.
    { split; [by intros []|]. intros (_ & d' & [= <-] & H1 & H2 & _). fold active ex in H1, H2.
      apply orb_true_iff in Ew as [Ew|Ew]; bool_split; lia. }
    bool_split.
    split.
    - intros Hs. split; [done|]. exists d. split; [done|]. fold active ex.
      split; [lia|]. split; [lia|].
      intros ->. destruct (sd_lock d); auto; done.
    - intros (_ & d' & [= <-] & _ & _ & Hl). destruct locked; [|done].
      destruct (Hl eq_refl) as [-> | ->]; done. }
  split.
  - rewrite sweep_dir_in. split.
    + intros (d & Hd & Hs). apply Hentry in Hs as (Hsafe & d' & -> & Hst). eauto.
    + intros (Hsafe & d & Hd & Hst). exists (Some d). split; [done|]. apply Hentry. eauto.
  - intros root parent Hr Hp. unfold tasfa_sweep_stale_sessions. cbn [sweep_dir].
    destruct (sweep_entry TASFA_UPLOAD_TTL true now (CS ".") (Some root)) eqn:E1.
    2: { exfalso. refine (proj2 (Hentry TASFA_UPLOAD_TTL true (CS ".") (Some root)) _ E1). eauto. }
    destruct (sweep_entry TASFA_UPLOAD_TTL true now (CS "..") (Some parent)) eqn:E2; [done|].
    exfalso. refine (proj2 (Hentry TASFA_UPLOAD_TTL true (CS "..") (Some parent)) _ E2). eauto.
Qed.

Lemma sweep_removes_exactly_stale_witness :
  (tasfa_sweep_stale_sessions 200000 [(CS ".", Some (SessionDir 0 [] 0 NoLockFile));
                                      (CS "..", Some (SessionDir 5 [] 0 NoLockFile))] []).1 = 2.
Proof.
  apply (proj2 (sweep_removes_exactly_stale 0 true 200000 [] [])); (split; [|split]);
    try (vm_compute; discriminate); intros _; left; reflexivity.
Defined.
