(* ===== verification/Upload.v ===== *)
(** * Upload sessions (src/src/handlers/tasfa/upload.c, the requests before completion)

    An upload is opened ([handler_file_upload_init]), asked about, renegotiated and filled chunk
    by chunk ([handler_file_upload], whose storing part is [upload_work_func]), in any order.
    The handlers run on the state they share: the files of the sessions, their documents, the
    metadata cache, the queue of uploads and the rolling hash.  A handler is one step: the
    interleaving of the chunk requests of a session is a sequence of steps. *)
From Stdlib Require Import QArith.
From S2P Require Import Prelude CStr Files Fec TasfaCommon RollingHash SlotCache Crypto Session.
Local Close Scope Q_scope.
Local Open Scope Z_scope.

(** ** Session data *)

(** [tasfa_meta_bin_t]. *)
Record meta_bin := MetaBin {
  mb_upload_token : cstr;
  mb_upload_secret : cstr;
  mb_stream_key : list Z;
  mb_stream_iv_seed : list Z;
  mb_chunk_count : Z;
  mb_chunk_size : Z;
  mb_total_size : Z;
  mb_filename : cstr;
  mb_post_id : Z;
  mb_uid : Z;
  mb_temp_path : cstr;
}.

(** The fields of meta.json: those the status report and the bitmap use are in [upload_meta];
    a round-trip time is the rational number [atof] returns. *)
Record session_doc := SessionDoc {
  d_meta : upload_meta;
  d_uid : Z;
  d_post_id : Z;
  d_filename : cstr;
  d_session_id : cstr;
  d_upload_token : cstr;
  d_upload_secret : cstr;
  d_stream_key_hex : cstr;
  d_stream_iv_seed_hex : cstr;
  d_temp_path : cstr;
  d_fec_mode : cstr;
  d_modulus_M : Z;
  d_group_count : Z;
  d_pacing : option Z;
  d_link_rtt : Q;
  d_expires_at : Z;
  d_magic_scalars : option (list Z);
  d_rtt_samples : list (Z * Q);
}.

Definition doc_with_meta (m : upload_meta) (d : session_doc) : session_doc :=
  SessionDoc m (d_uid d) (d_post_id d) (d_filename d) (d_session_id d) (d_upload_token d)
    (d_upload_secret d) (d_stream_key_hex d) (d_stream_iv_seed_hex d) (d_temp_path d)
    (d_fec_mode d) (d_modulus_M d) (d_group_count d) (d_pacing d) (d_link_rtt d)
    (d_expires_at d) (d_magic_scalars d) (d_rtt_samples d).

Definition doc_with_link (rtt : Q) (pacing : option Z) (d : session_doc) : session_doc :=
  SessionDoc (d_meta d) (d_uid d) (d_post_id d) (d_filename d) (d_session_id d) (d_upload_token d)
    (d_upload_secret d) (d_stream_key_hex d) (d_stream_iv_seed_hex d) (d_temp_path d)
    (d_fec_mode d) (d_modulus_M d) (d_group_count d) pacing rtt
    (d_expires_at d) (d_magic_scalars d) (d_rtt_samples d).

Definition doc_with_samples (l : list (Z * Q)) (d : session_doc) : session_doc :=
  SessionDoc (d_meta d) (d_uid d) (d_post_id d) (d_filename d) (d_session_id d) (d_upload_token d)
    (d_upload_secret d) (d_stream_key_hex d) (d_stream_iv_seed_hex d) (d_temp_path d)
    (d_fec_mode d) (d_modulus_M d) (d_group_count d) (d_pacing d) (d_link_rtt d)
    (d_expires_at d) (d_magic_scalars d) l.

Definition meta_with_bitmap (b : list Z) (received : option Z) (m : upload_meta) : upload_meta :=
  UploadMeta b received (m_chunk_count m) (m_chunk_size m) (m_total_size m) (m_current_parallel m)
    (m_max_parallel m) (m_retry_targets m).

Definition meta_with_window (cur max : option Z) (m : upload_meta) : upload_meta :=
  UploadMeta (m_received_bitmap m) (m_received_chunks m) (m_chunk_count m) (m_chunk_size m)
    (m_total_size m) cur max (m_retry_targets m).

Definition meta_with_targets (l : list Z) (m : upload_meta) : upload_meta :=
  UploadMeta (m_received_bitmap m) (m_received_chunks m) (m_chunk_count m) (m_chunk_size m)
    (m_total_size m) (m_current_parallel m) (m_max_parallel m) l.

(** ** The shared state *)

Section upload.
Context {ctx : Type} (SHA256_Init : ctx) (SHA256_Update : ctx -> list Z -> ctx).
Context (L : codecs) (G : gcm).

Record server := Server {
  sv_files : fs;                             (* upload.bin.part, state.bin, htp.bin, parity_<k>.bin *)
  sv_docs : gmap cstr session_doc;           (* meta.json of each session *)
  sv_states : gmap cstr parallel_state;      (* state.json *)
  sv_metas : gmap cstr meta_bin;             (* meta.bin *)
  sv_cache : list (cache_slot (A := meta_bin));
  sv_uploads : list queue_slot;              (* the first tasfa_upload_session_limit() of g_q_uploads *)
  sv_hash : list (RollingHash.slot (ctx := ctx));
}.

Definition with_files (f : fs) (s : server) : server :=
  Server f (sv_docs s) (sv_states s) (sv_metas s) (sv_cache s) (sv_uploads s) (sv_hash s).
Definition with_docs (d : gmap cstr session_doc) (s : server) : server :=
  Server (sv_files s) d (sv_states s) (sv_metas s) (sv_cache s) (sv_uploads s) (sv_hash s).
Definition with_states (d : gmap cstr parallel_state) (s : server) : server :=
  Server (sv_files s) (sv_docs s) d (sv_metas s) (sv_cache s) (sv_uploads s) (sv_hash s).
Definition with_metas (d : gmap cstr meta_bin) (s : server) : server :=
  Server (sv_files s) (sv_docs s) (sv_states s) d (sv_cache s) (sv_uploads s) (sv_hash s).
Definition with_cache (c : list (cache_slot (A := meta_bin))) (s : server) : server :=
  Server (sv_files s) (sv_docs s) (sv_states s) (sv_metas s) c (sv_uploads s) (sv_hash s).
Definition with_uploads (q : list queue_slot) (s : server) : server :=
  Server (sv_files s) (sv_docs s) (sv_states s) (sv_metas s) (sv_cache s) q (sv_hash s).
Definition with_hash (h : list (RollingHash.slot (ctx := ctx))) (s : server) : server :=
  Server (sv_files s) (sv_docs s) (sv_states s) (sv_metas s) (sv_cache s) (sv_uploads s) h.

(** [load_upload_session]: the document merged with state.bin and state.json. *)
Definition load_session (id : cstr) (s : server) : option session_doc :=
  match sv_docs s !! id with
  | None => None
  | Some d =>
      match load_upload_session id (Some (d_meta d)) (sv_states s !! id) (sv_files s) with
      | Some m => Some (doc_with_meta m d)
      | None => None
      end
  end.

Definition save_upload_session (id : cstr) (d : session_doc) (s : server) : server :=
  with_docs (<[id := d]> (sv_docs s)) s.

Definition save_upload_session_state (id : cstr) (d : session_doc) (s : server) : server :=
  with_states (<[id := ParallelState
                  (Some (default TASFA_UPLOAD_DEFAULT_PARALLEL (m_current_parallel (d_meta d))))
                  (Some (default TASFA_UPLOAD_MAX_PARALLEL (m_max_parallel (d_meta d))))]> (sv_states s)) s.

(** [cleanup_upload_session]: every file of the session's directory goes. *)
Definition cleanup_upload_session (id : cstr) (s : server) : server :=
  Server (filter (fun x => starts_with (upload_session_dir id ++ CS "/") x.1 = false) (sv_files s))
    (delete id (sv_docs s)) (delete id (sv_states s)) (delete id (sv_metas s))
    (cache_invalidate id (sv_cache s)) (sv_uploads s) (sv_hash s).

(** ** Replies *)

Inductive reply_body :=
| Failed (message : cstr)
| Accepted                       (* X-TASFA-Accepted, X-TASFA-Chunk-Complete, empty body *)
| Queued (message : cstr) (retry_after : Z)
| Status (st : upload_status)
| Incomplete (message : cstr) (st : upload_status)     (* a status with ok = false *)
| Finalizing                     (* processing, retry_after = 1 *)
| Finalized (body : cstr)        (* the stored answer of a finalize *)
| OkTrue.                        (* ok = true *)

Record reply := Reply { rp_status : Z; rp_body : reply_body }.

Definition fail (status : Z) (message : cstr) : reply := Reply status (Failed message).

(** ** Geometry of an upload *)

(** Both handlers round the size up to chunks, in 64 bits, and keep the low 32 bits. *)
Definition count_data_chunks (total_size chunk_size : Z) : Z :=
  let n := i32 (Z.quot (i64 (i64 (total_size + chunk_size) - 1)) chunk_size) in
  if n <? 1 then 1 else n.

Definition count_parity_chunks (fec_rs2 : bool) (data_chunks : Z) : Z :=
  if fec_rs2 then i32 (2 * Z.quot (i32 (data_chunks + 5)) 6) else Z.quot (i32 (data_chunks + 5)) 6.

Record chunk_place := ChunkPlace { cp_parity : bool; cp_offset : Z; cp_expected : Z }.

Definition place_chunk (total_size chunk_size data_chunks chunk_index : Z) : chunk_place :=
  if data_chunks <=? chunk_index then ChunkPlace true 0 chunk_size
  else
    let offset := i64 (chunk_index * chunk_size) in
    let expected := i64 (total_size - offset) in
    ChunkPlace false offset (if chunk_size <? expected then chunk_size else expected).

(** ** Opening an upload *)

Record init_request := InitRequest {
  ir_uid : option Z;               (* [None]: not logged in *)
  ir_filename : option cstr;
  ir_session_id : option cstr;
  ir_total_size : option cstr;
  ir_post_id : option cstr;
  ir_chunk_size : option cstr;
  ir_fec : option cstr;
  ir_mobile : bool;
  ir_score : Z;                    (* link_score_from_inputs *)
  ir_link_rtt : Q;
}.

(** What the handler gets from the system, the random generator and the database. *)
Record init_env := InitEnv {
  ie_now : Z;
  ie_roots : bool;
  ie_upload_id : option cstr;
  ie_prepared : bool;              (* directory and preallocated file *)
  ie_secrets : option (list Z * list Z * cstr * cstr);   (* key, seed, token, secret *)
  ie_modulus : Z;
  ie_unique_filename : option cstr;
  ie_saved : bool;
}.

Definition read_int (v : option cstr) : Z := atoi (default (CS "0") v).
Definition read_long_long (v : option cstr) : Z := fst (strtol10 (default (CS "0") v)).

Definition init_size (rq : init_request) : Z := read_long_long (ir_total_size rq).
Definition init_chunk_size (rq : init_request) : Z :=
  choose_chunk_size_upload (ir_mobile rq) (read_int (ir_chunk_size rq)).
Definition init_rs2 (rq : init_request) : bool :=
  match ir_fec rq with Some f => streq f (CS "rs2") | None => false end.
Definition init_chunk_count (rq : init_request) : Z :=
  let data_chunks := count_data_chunks (init_size rq) (init_chunk_size rq) in
  i32 (data_chunks + count_parity_chunks (init_rs2 rq) data_chunks).

Definition init_filename (rq : init_request) (e : init_env) : cstr :=
  default (default [] (ir_filename rq)) (ie_unique_filename e).

(** The document of the new session. *)
Definition init_doc (max_upload_parallel_chunks : Z) (rq : init_request) (e : init_env) (uid : Z)
    (id token secret key_hex seed_hex : cstr) (bitmap : list Z) : session_doc :=
  let modulus := Z.land (ie_modulus e) (2 ^ 53 - 1) in
  let w := choose_upload_window max_upload_parallel_chunks (ir_mobile rq) (ir_score rq) in
  let chunk_count := init_chunk_count rq in
  SessionDoc
    (UploadMeta bitmap (Some 0) chunk_count (init_chunk_size rq) (init_size rq)
       (Some (w_initial w)) (Some (w_max w)) [])
    uid (read_int (ir_post_id rq)) (init_filename rq e) (default [] (ir_session_id rq)) token secret
    key_hex seed_hex (upload_session_temp_path id)
    (if init_rs2 rq then CS "rs2" else CS "xor1") (if modulus =? 0 then 1 else modulus)
    (Z.quot (i32 (chunk_count + 5)) 6) (Some (w_pacing_ms w)) (ir_link_rtt rq)
    (ie_now e + TASFA_UPLOAD_TTL)
    (if 6 <=? chunk_count then Some (replicate (Z.to_nat chunk_count) 0) else None) [].

Definition init_mbin (rq : init_request) (e : init_env) (uid : Z) (id token secret : cstr)
    (key seed : list Z) : meta_bin :=
  MetaBin (take 63 token) (take 63 secret) key seed (init_chunk_count rq) (init_chunk_size rq)
    (init_size rq) (take 255 (init_filename rq e)) (read_int (ir_post_id rq)) uid
    (upload_session_temp_path id).

(** The session goes, and its queue slot with it. *)
Definition init_give_up (id : cstr) (s : server) : option reply * server :=
  let s := cleanup_upload_session id s in
  (Some (fail 500 (CS "upload init failed")),
   with_uploads (tasfa_queue_leave (Some id) (sv_uploads s)) s).

(** What follows once the upload has entered the queue. *)
Definition init_session (max_upload_parallel_chunks : Z) (rq : init_request) (e : init_env)
    (uid : Z) (id : cstr) (s : server) : option reply * server :=
  if negb (ie_prepared e) then init_give_up id s
  else
    let temp_path := upload_session_temp_path id in
    let s := with_files (<[temp_path := replicate (Z.to_nat (init_size rq)) 0]> (sv_files s)) s in
    match bitmap_create (init_chunk_count rq), ie_secrets e with
    | Some bitmap, Some (key, seed, token, secret) =>
        match hex_encode_alloc (Some key), hex_encode_alloc (Some seed) with
        | Some stream_key_hex, Some stream_iv_seed_hex =>
            let doc := init_doc max_upload_parallel_chunks rq e uid id token secret stream_key_hex
                         stream_iv_seed_hex bitmap in
            if negb (ie_saved e) then init_give_up id s
            else
              let s := save_upload_session id doc s in
              let s := save_upload_session_state id doc s in
              let s := with_files (snd (save_upload_session_state_bin id (init_chunk_count rq)
                                          (Some bitmap) (sv_files s))) s in
              let s := with_metas (<[id := init_mbin rq e uid id token secret key seed]> (sv_metas s)) s in
              (Some (Reply 200 (Status (build_upload_status_json (d_meta doc)))), s)
        | _, _ => init_give_up id s
        end
    | _, _ => init_give_up id s
    end.

(** [max_upload_size] and [max_upload_parallel_chunks] are fields of [g_config]. *)
Definition handler_file_upload_init (max_upload_size max_upload_parallel_chunks : Z)
    (rq : init_request) (e : init_env) (s : server) : option reply * server :=
  match ir_uid rq with
  | None => (None, s)              (* auth_require_login has answered *)
  | Some uid =>
      if negb (is_safe_filename_simple (ir_filename rq)) || (init_size rq <=? 0) || negb (ie_roots e)
      then (Some (fail 400 (CS "invalid upload init payload")), s)
      else if (0 <? max_upload_size) && (max_upload_size <? init_size rq)
      then (Some (fail 400 (CS "upload too large")), s)
      else
        let s := with_uploads (tasfa_queue_sweep (ie_now e) 600 (sv_uploads s)) s in
        match ie_upload_id e with
        | None => (Some (fail 500 (CS "upload init failed")), s)
        | Some id =>
            let '(entered, q) := tasfa_queue_try_enter (ie_now e) (Some id) (sv_uploads s) in
            if entered then init_session max_upload_parallel_chunks rq e uid id (with_uploads q s)
            else (Some (Reply 429 (Queued (CS "Wait a second...") 5)), s)
        end
  end.

(** ** Asking and renegotiating *)

(** The checks both requests start with; [not_found], [rejected] and [invalid] are their messages. *)
Definition session_for (invalid not_found rejected : cstr) (upload_id upload_token : option cstr)
    (s : server) : reply + (cstr * session_doc) :=
  match upload_id, upload_token with
  | Some id, Some token =>
      if negb (is_safe_segment (Some id)) then inl (fail 400 invalid)
      else match load_session id s with
           | None => inl (fail 404 not_found)
           | Some d => if negb (secure_str_eq token (d_upload_token d)) then inl (fail 403 rejected)
                       else inr (id, d)
           end
  | _, _ => inl (fail 400 invalid)
  end.

Definition handler_file_upload_status (upload_id upload_token : option cstr) (s : server) : reply :=
  match session_for (CS "invalid upload status payload") (CS "upload session not found")
          (CS "upload status rejected") upload_id upload_token s with
  | inl r => r
  | inr (_, d) => Reply 200 (Status (build_upload_status_json (d_meta d)))
  end.

(** The limit: an earlier one that was higher is kept while it is below the configured one. *)
Definition renegotiate_max (configured_max max current_max : Z) : Z :=
  let max := if (current_max <? configured_max) && (max <? current_max) then current_max else max in
  if configured_max <? max then configured_max else max.

(** The window a renegotiation settles on: the next parallelism and its limit. *)
Definition renegotiate_window (configured_max : Z) (w : window) (suggested : Z)
    (current_parallel current_max : option Z) : Z * Z :=
  let initial := w_initial w in
  let current := default initial current_parallel in
  let max := renegotiate_max configured_max (w_max w) (default (w_max w) current_max) in
  let initial := if 0 <? suggested then clamp_int suggested 1 max else initial in
  let low := Z.quot (i32 (current * 9)) 10 in
  let initial := if initial <? low then low else initial in
  (if max <? initial then max else initial, max).

(** [cJSON_ReplaceItemInObject] changes nothing when the item is absent. *)
Definition replace_item (item : option Z) (v : Z) : option Z :=
  match item with Some _ => Some v | None => None end.

Definition handler_file_upload_renegotiate (max_upload_parallel_chunks : Z) (mobile : bool)
    (score : Z) (link_rtt : Q) (suggested : option cstr) (upload_id upload_token : option cstr)
    (s : server) : reply * server :=
  match session_for (CS "invalid upload renegotiate payload") (CS "upload session not found")
          (CS "upload renegotiate rejected") upload_id upload_token s with
  | inl r => (r, s)
  | inr (id, d) =>
      let m := d_meta d in
      let w := choose_upload_window max_upload_parallel_chunks mobile score in
      let '(initial, max) :=
        renegotiate_window (tasfa_upload_parallel_limit max_upload_parallel_chunks) w
          (read_int suggested) (m_current_parallel m) (m_max_parallel m) in
      let m := meta_with_window (replace_item (m_current_parallel m) initial)
                 (replace_item (m_max_parallel m) max) m in
      let d := doc_with_link link_rtt (replace_item (d_pacing d) (w_pacing_ms w)) (doc_with_meta m d) in
      let s := save_upload_session id d s in
      let s := save_upload_session_state id d s in
      (Reply 200 (Status (build_upload_status_json m)), s)
  end.

(** ** Storing a chunk *)

(** The inputs of [upload_work_t] that [upload_work_func] reads. *)
Record upload_work := UploadWork {
  wk_upload_id : cstr;
  wk_chunk_index : Z;
  wk_temp_path : cstr;
  wk_encrypted_stream : bool;
  wk_stream_key : list Z;
  wk_stream_iv_seed : list Z;
  wk_body : list Z;
  wk_compress_type : compress_type;       (* COMPRESS_NONE: [compressed] is false *)
  wk_offset : Z;
  wk_expected_size : Z;
  wk_total_size : Z;
  wk_session_chunk_size : Z;
  wk_is_parity : bool;
  wk_data_chunks : Z;
  wk_force_hash_note : bool;
}.

Definition wk_compressed (w : upload_work) : bool :=
  negb (bool_decide (wk_compress_type w = COMPRESS_NONE)).

(** The bytes to store, or [None] when the body does not decrypt, inflate or fit. *)
Definition work_payload (w : upload_work) : option (list Z) :=
  let body := wk_body w in
  let expected := wk_expected_size w in
  if wk_encrypted_stream w then
    let encrypted_plain_len := if 16 <? zlen body then zlen body - 16 else 0 in
    if encrypted_plain_len <=? 0 then None
    else match decrypt_stream_block G (wk_stream_key w) (wk_stream_iv_seed w) (wk_chunk_index w)
                 (wk_upload_id w) body encrypted_plain_len with
         | None => None
         | Some plaintext =>
             if wk_compressed w then tasfa_decompress_to L plaintext expected (wk_compress_type w)
             else if encrypted_plain_len =? expected then Some plaintext else None
         end
  else if wk_compressed w then tasfa_decompress_to L body expected (wk_compress_type w)
  else if zlen body =? expected then Some body else None.

Definition work_path (w : upload_work) : cstr :=
  if wk_is_parity w then parity_path (wk_upload_id w) (wk_chunk_index w - wk_data_chunks w)
  else wk_temp_path w.

(** [stored], then [state_ok] and [was_already_received] as the mark returns them.  A parity
    file is created or emptied when it is opened, before the payload is known.  [acks] are the
    results of the write calls. *)
Definition upload_work_func (w : upload_work) (acks : list Z) (s : server)
  : bool * option bool * server :=
  let path := work_path w in
  match (if wk_is_parity w then Some [] else sv_files s !! path) with
  | None => (false, None, s)
  | Some content =>
      let s := with_files (<[path := content]> (sv_files s)) s in
      match work_payload w with
      | None => (false, None, s)
      | Some payload =>
          let write_offset := if wk_is_parity w then 0 else wk_offset w in
          let '(stored, content) := pwrite_all content payload (Z.to_nat write_offset) acks in
          let s := with_files (<[path := content]> (sv_files s)) s in
          if negb stored then (false, None, s)
          else
            let '(mark, f) := mark_chunk_received_in_session_state_atomic (wk_upload_id w)
                                (wk_chunk_index w) (sv_files s) in
            let s := with_files f s in
            match mark with
            | Some was_already_received =>
                let s :=
                  if negb (wk_is_parity w) && (negb was_already_received || wk_force_hash_note w)
                  then with_hash (snd (tasfa_rolling_hash_note_chunk SHA256_Init SHA256_Update
                         (Some (wk_upload_id w)) (Some (wk_temp_path w)) (wk_chunk_index w)
                         (wk_session_chunk_size w) (wk_data_chunks w) (wk_total_size w)
                         (sv_files s) (sv_hash s))) s
                  else s in
                (true, Some was_already_received, s)
            | None => (true, None, s)
            end
      end
  end.

(** ** What a chunk request leaves besides the chunk *)

Definition TASFA_RTT_MAX_SAMPLES : nat := 8.

Definition append_rtt_sample (chunk_index : Z) (rtt : Q) (d : session_doc) : session_doc :=
  if negb (Qle_bool 0 rtt) then d
  else
    let l := d_rtt_samples d ++ [(chunk_index, rtt)] in
    doc_with_samples (drop (length l - TASFA_RTT_MAX_SAMPLES) l) d.

(** [strtoull(s, NULL, 10)]. *)
Definition strtoull10 (s : cstr) : Z :=
  let s1 := skip_spaces s in
  let '(neg, s2) :=
    match s1 with
    | 45 :: s' => (true, s')
    | 43 :: s' => (false, s')
    | _ => (false, s1)
    end in
  let v := fst (digits s2 0) in
  if 2 ^ 64 - 1 <? v then 2 ^ 64 - 1 else if neg : bool then u64 (- v) else v.

(** A 64-bit word as it lies in memory. *)
Fixpoint le_bytes (n : nat) (v : Z) : list Z :=
  match n with O => [] | S n' => v `mod` 256 :: le_bytes n' (v / 256) end.

Definition htp_path (id : cstr) : cstr := upload_session_dir id ++ CS "/htp.bin".

Definition save_htp_scalar (id : cstr) (chunk_index : Z) (hash_tag_hex : cstr)
    (raw_scalar balanced_scalar : Z) (f : fs) : fs :=
  let tag := pad_to (Z.to_nat HTP_TAG_LEN) (take (Z.to_nat HTP_TAG_LEN - 1) hash_tag_hex) in
  let off := Z.to_nat (chunk_index * HTP_RECORD_SIZE) in
  let n := Z.to_nat HTP_TAG_LEN in
  let file := default [] (f !! htp_path id) in
  let file := pwrite file off tag in
  let file := pwrite file (off + n) (le_bytes 8 raw_scalar) in
  <[htp_path id := pwrite file (off + n + 8) (le_bytes 8 balanced_scalar)]> f.

(** The loop from the end that deletes one item. *)
Fixpoint remove_last (x : Z) (l : list Z) : list Z :=
  match l with
  | [] => []
  | y :: l' => if bool_decide (x ∈ l') then y :: remove_last x l'
               else if y =? x then l' else y :: l'
  end.

(** ** The chunk request *)

Record chunk_request := ChunkRequest {
  cr_upload_id : option cstr;
  cr_upload_token : option cstr;
  cr_stream_mode : option cstr;
  cr_chunk_index : option cstr;
  cr_hash_tag : option cstr;
  cr_magic_scalar : option cstr;
  cr_raw_scalar : option cstr;
  cr_content_encoding : option cstr;
  cr_chunk_rtt : option Q;               (* the header as [atof] reads it *)
  cr_body : list Z;
}.

Definition chunk_compress_type (enc : option cstr) : compress_type :=
  let has e := str_contains_ci_local enc (Some e) in
  if has (CS "zstd") then COMPRESS_ZSTD
  else if has (CS "br") then COMPRESS_BROTLI
  else if has (CS "gzip") then COMPRESS_GZIP
  else COMPRESS_NONE.

Definition chunk_encrypted (mode : option cstr) : bool :=
  match mode with Some m => streq m (CS "aes-256-gcm") | None => false end.

(** The size the body must have. *)
Definition chunk_size_ok (encrypted compressed : bool) (expected body : Z) : bool :=
  let expected_body := if encrypted then expected + 16 else expected in
  if compressed then ((if encrypted then 16 else 0) <? body) && (body <=? expected_body)
  else body =? expected_body.

(** What follows a stored chunk: its retry target, its round-trip time and its scalars. *)
Definition after_store (rq : chunk_request) (id : cstr) (chunk_index : Z) (is_retry_target : bool)
    (s : server) : server :=
  let s :=
    if is_retry_target then
      match load_session id s with
      | Some d =>
          let m := d_meta d in
          save_upload_session id
            (doc_with_meta (meta_with_targets (remove_last chunk_index (m_retry_targets m)) m) d) s
      | None => s
      end
    else s in
  let s :=
    match cr_chunk_rtt rq with
    | Some rtt =>
        if negb (Qle_bool rtt 0) then
          match load_session id s with
          | Some d => save_upload_session id (append_rtt_sample chunk_index rtt d) s
          | None => s
          end
        else s
    | None => s
    end in
  match cr_hash_tag rq with
  | Some (c :: r) =>
      let scalar v := match v with Some t => strtoull10 t | None => 0 end in
      with_files (save_htp_scalar id chunk_index (c :: r) (scalar (cr_raw_scalar rq))
                    (scalar (cr_magic_scalar rq)) (sv_files s)) s
  | _ => s
  end.

(** The part of the handler that runs once the session is known. *)
Definition upload_chunk (rq : chunk_request) (id : cstr) (chunk_index : Z) (mb : meta_bin)
    (acks : list Z) (s : server) : reply * server :=
  let was_already_received := is_chunk_already_received id chunk_index (sv_files s) in
  let is_retry_target :=
    was_already_received &&
    match load_session id s with
    | Some d => bool_decide (chunk_index ∈ m_retry_targets (d_meta d))
    | None => false
    end in
  if was_already_received && negb is_retry_target then (Reply 204 Accepted, s)
  else
    let data_chunks := count_data_chunks (mb_total_size mb) (mb_chunk_size mb) in
    let p := place_chunk (mb_total_size mb) (mb_chunk_size mb) data_chunks chunk_index in
    if cp_expected p <=? 0 then (fail 400 (CS "invalid chunk bounds"), s)
    else if zlen (cr_body rq) =? 0 then (fail 400 (CS "empty chunk body"), s)
    else
      let encrypted := chunk_encrypted (cr_stream_mode rq) in
      let type := chunk_compress_type (cr_content_encoding rq) in
      if negb (chunk_size_ok encrypted (negb (bool_decide (type = COMPRESS_NONE)))
                 (cp_expected p) (zlen (cr_body rq)))
      then (fail 400 (CS "chunk size mismatch"), s)
      else
        let w := UploadWork id chunk_index (mb_temp_path mb) encrypted (mb_stream_key mb)
                   (mb_stream_iv_seed mb) (cr_body rq) type (cp_offset p) (cp_expected p)
                   (mb_total_size mb) (mb_chunk_size mb) (cp_parity p) data_chunks is_retry_target in
        match upload_work_func w acks s with
        | (false, _, s) => (fail 500 (CS "chunk store failed"), s)
        | (true, None, s) => (fail 500 (CS "chunk state update failed"), s)
        | (true, Some _, s) => (Reply 204 Accepted, after_store rq id chunk_index is_retry_target s)
        end.

(** [now] is the time of the request. *)
Definition handler_file_upload (now : Z) (acks : list Z) (rq : chunk_request) (s : server)
  : reply * server :=
  match cr_upload_id rq, cr_upload_token rq, cr_chunk_index rq with
  | Some id, Some token, Some index =>
      let chunk_index := atoi index in
      if negb (is_safe_segment (Some id)) || (chunk_index <? 0)
      then (fail 400 (CS "invalid chunk payload"), s)
      else
        let s := with_uploads (tasfa_queue_sweep now 600 (sv_uploads s)) s in
        let '(mbin, cache) := load_upload_session_meta_bin_cached now id (sv_metas s !! id) (sv_cache s) in
        let s := with_cache cache s in
        match mbin with
        | None => (fail 404 (CS "upload session not found"), s)
        | Some mb =>
            let s := with_uploads (tasfa_queue_touch now (Some id) (sv_uploads s)) s in
            if negb (secure_str_eq token (mb_upload_token mb))
            then (fail 403 (CS "upload chunk rejected"), s)
            else if mb_chunk_count mb <=? chunk_index
            then (fail 400 (CS "invalid chunk index"), s)
            else upload_chunk rq id chunk_index mb acks s
        end
  | _, _, _ => (fail 400 (CS "missing headers"), s)
  end.
End upload.

(** ** The chunks tile the file *)

(** The sizes the handlers can count without overflow: at most [INT_MAX] chunks, parity included. *)
Definition good_geometry (total_size chunk_size : Z) : Prop :=
  0 < total_size /\ 0 < chunk_size < 2 ^ 31 /\ total_size < 2 ^ 62 /\
  (total_size + chunk_size - 1) / chunk_size < 2 ^ 30.

Lemma count_data_chunks_spec total cs : good_geometry total cs ->
  let n := count_data_chunks total cs in
  1 <= n < 2 ^ 30 /\ n = (total + cs - 1) / cs /\ (n - 1) * cs < total <= n * cs.
Proof.
  intros (Ht & Hc & Hm & Hn). unfold count_data_chunks. cbv zeta.
  rewrite (i64_small (total + cs)) by lia. rewrite i64_small by lia.
  rewrite Z.quot_div_nonneg by lia. set (q := (total + cs - 1) / cs) in *.
  assert (Hq : (q - 1) * cs < total <= q * cs).
  { unfold q. pose proof (Z.div_mod (total + cs - 1) cs ltac:(lia)).
    pose proof (Z.mod_pos_bound (total + cs - 1) cs ltac:(lia)). nia. }
  assert (1 <= q) by nia. rewrite i32_small by lia.
  destruct (Z.ltb_spec q 1); [lia|]. split; [lia|]. by split.
Qed.

Lemma count_parity_chunks_spec rs2 n : 1 <= n < 2 ^ 30 ->
  count_parity_chunks rs2 n = (if rs2 then 2 else 1) * ((n + 5) / 6) /\
  0 < (n + 5) / 6 <= n.
Proof.
  intros Hn. assert (Hg : 0 < (n + 5) / 6 <= n) by (Z.div_mod_to_equations; lia).
  split; [|done]. unfold count_parity_chunks.
  rewrite (i32_small (n + 5)), Z.quot_div_nonneg by lia.
  destruct rs2; [rewrite i32_small by lia; lia|lia].
Qed.

Lemma place_chunk_data total cs ci : good_geometry total cs -> 0 <= ci < count_data_chunks total cs ->
  place_chunk total cs (count_data_chunks total cs) ci
  = ChunkPlace false (ci * cs) (chunk_span total cs ci) /\
  0 < chunk_span total cs ci <= cs /\ ci * cs + chunk_span total cs ci <= total.
Proof.
  intros Hg Hci. destruct (count_data_chunks_spec _ _ Hg) as (Hn & _ & Hl).
  destruct Hg as (Ht & Hc & Hm & _). unfold place_chunk, chunk_span.
  destruct (Z.leb_spec (count_data_chunks total cs) ci); [lia|].
  assert (0 <= ci * cs < total) by nia.
  rewrite (i64_small (ci * cs)), i64_small by lia. cbv zeta.
  destruct (Z.ltb_spec cs (total - ci * cs)); (split; [done|]; lia).
Qed.

Lemma place_chunk_parity total cs ci : count_data_chunks total cs <= ci ->
  place_chunk total cs (count_data_chunks total cs) ci = ChunkPlace true 0 cs.
Proof. intros H. unfold place_chunk. by destruct (Z.leb_spec (count_data_chunks total cs) ci); [|lia]. Qed.

(** The data chunks start at multiples of the chunk size, so different ones are disjoint. *)
Lemma data_chunks_disjoint total cs a b : good_geometry total cs -> 0 <= a -> 0 <= b -> a <> b ->
  a * cs + chunk_span total cs a <= b * cs \/ b * cs + chunk_span total cs b <= a * cs.
Proof.
  intros (_ & Hc & _) Ha Hb Hne. unfold chunk_span. cbv zeta.
  destruct (Z.ltb_spec cs (total - a * cs)), (Z.ltb_spec cs (total - b * cs)); nia.
Qed.

(** for every size and chunk size within the limits, the places of the data chunks tile the
    file: each byte belongs to exactly one of them, all are non-empty and inside the file, and
    they are the spans the recovery code uses; a parity chunk has a whole chunk size; the number
    of parity chunks is the one the client computes; and the chunk count tells the two codes
    apart, as completion assumes. *)
Theorem chunks_tile_file total cs : good_geometry total cs ->
  let n := count_data_chunks total cs in
  (forall k, 0 <= k < total -> exists ci, 0 <= ci < n /\
     (let p := place_chunk total cs n ci in cp_parity p = false /\
        cp_offset p <= k < cp_offset p + cp_expected p) /\
     forall cj, 0 <= cj < n ->
       (let p := place_chunk total cs n cj in cp_offset p <= k < cp_offset p + cp_expected p) -> cj = ci) /\
  (forall ci, 0 <= ci < n ->
     let p := place_chunk total cs n ci in
     cp_offset p = ci * cs /\ cp_expected p = chunk_span total cs ci /\
     0 < cp_expected p <= cs /\ cp_offset p + cp_expected p <= total) /\
  (forall ci, n <= ci -> place_chunk total cs n ci = ChunkPlace true 0 cs) /\
  (forall rs2 : bool, count_parity_chunks rs2 n = fb_parity_chunk_count n (if rs2 then 1 else 0) /\
     (n + count_parity_chunks rs2 n = n + 2 * Z.quot (n + 5) 6 <-> rs2 = true)).
Proof.
  intros Hg n. destruct (count_data_chunks_spec _ _ Hg) as (Hn & _ & Hl). fold n in Hn, Hl.
  pose proof (place_chunk_data total cs) as Hp.
  split; [|split; [|split]].
  - intros k Hk. assert (Hc : 0 < cs) by (destruct Hg; lia).
    pose proof (Z.div_mod k cs ltac:(lia)). pose proof (Z.mod_pos_bound k cs Hc).
    assert (Hci : 0 <= k / cs < n) by (split; [apply Z.div_pos|apply Z.div_lt_upper_bound]; nia).
    exists (k / cs). destruct (Hp _ Hg Hci) as (Ep & Hs & _). split; [done|]. split.
    + fold n in Ep. rewrite Ep. cbn [cp_parity cp_offset cp_expected]. split; [done|].
      unfold chunk_span. cbv zeta. destruct (Z.ltb_spec cs (total - k / cs * cs)); nia.
    + intros cj Hcj. destruct (Hp _ Hg Hcj) as (Ej & Hj & _). fold n in Ej. rewrite Ej.
      cbn [cp_offset cp_expected]. intros Hkj. nia.
  - intros ci Hci. destruct (Hp _ Hg Hci) as (Ep & Hs & Ho). fold n in Ep. rewrite Ep.
    cbn [cp_offset cp_expected]. done.
  - intros ci Hci. by apply place_chunk_parity.
  - intros rs2. destruct (count_parity_chunks_spec rs2 n Hn) as [-> Hpos].
    unfold fb_parity_chunk_count. destruct (Z.leb_spec n 0); [lia|].
    rewrite Z.quot_div_nonneg by lia. destruct rs2; cbn; split; try lia; split; intros; (done || lia).
Qed.

Lemma chunks_tile_file_witness :
  good_geometry 20000000 9437184 /\
  place_chunk 20000000 9437184 (count_data_chunks 20000000 9437184) 3 = ChunkPlace true 0 9437184.
Proof.
  assert (Hg : good_geometry 20000000 9437184).
  { unfold good_geometry. assert ((20000000 + 9437184 - 1) / 9437184 = 3) as -> by reflexivity. lia. }
  split; [exact Hg|]. apply (chunks_tile_file 20000000 9437184 Hg). vm_compute. discriminate.
Defined.

#[local] Opaque count_data_chunks place_chunk.

(** ** Names of the files of a session *)

Lemma dir_file_inj id a b : upload_session_dir id ++ a = upload_session_dir id ++ b -> a = b.
Proof. apply app_inv_head. Qed.

Lemma parity_path_eq id k : (length id <= 64)%nat ->
  parity_path id k = upload_session_dir id ++ (CS "/parity_" ++ print_int k ++ CS ".bin").
Proof.
  intros Hid. unfold parity_path. rewrite snprintf_s_id.
  - unfold upload_session_dir. rewrite <- !app_assoc. done.
  - rewrite !length_app. pose proof (length_print_int k). change (length Fec.TASFA_UPLOAD_DIR) with 18%nat.
    change (length [CH "/"]) with 1%nat. change (length (CS "/parity_")) with 8%nat.
    change (length (CS ".bin")) with 4%nat. unfold PATH_MAX. lia.
Qed.

Lemma parity_path_inj id a b : (length id <= 64)%nat -> 0 <= a < 10 ^ 20 -> 0 <= b < 10 ^ 20 ->
  parity_path id a = parity_path id b -> a = b.
Proof.
  intros Hid Ha Hb H. rewrite !parity_path_eq in H by done.
  apply app_inv_head, app_inv_head in H.
  assert (Hend : ends_number (CS ".bin")) by (intros c r [= <- _]; reflexivity).
  by apply (print_int_inj_app a b) in H as [? _].
Qed.

(** The other files of the session have other names. *)
Ltac other_file :=
  let H := fresh in
  intros H; unfold upload_session_temp_path, upload_session_state_bin_path, htp_path in H;
  try rewrite parity_path_eq in H by done; try (symmetry in H; rewrite parity_path_eq in H by done);
  apply dir_file_inj in H; discriminate H.

Lemma temp_ne_state id : upload_session_temp_path id <> upload_session_state_bin_path id.
Proof. other_file. Qed.
Lemma htp_ne_temp id : htp_path id <> upload_session_temp_path id.
Proof. other_file. Qed.
Lemma htp_ne_state id : htp_path id <> upload_session_state_bin_path id.
Proof. other_file. Qed.
Lemma parity_ne_temp id k : (length id <= 64)%nat -> parity_path id k <> upload_session_temp_path id.
Proof. intros Hid. other_file. Qed.
Lemma parity_ne_state id k : (length id <= 64)%nat -> parity_path id k <> upload_session_state_bin_path id.
Proof. intros Hid. other_file. Qed.
Lemma parity_ne_htp id k : (length id <= 64)%nat -> parity_path id k <> htp_path id.
Proof. intros Hid. other_file. Qed.

(** ** Writing all of a buffer *)

Lemma pwrite_all_true acks : forall data buf off data',
  pwrite_all data buf off acks = (true, data') -> data' = pwrite data off buf.
Proof.
  induction acks as [|rc acks IH]; intros data [|b buf] off data' H; cbn in H; simplify_eq; [done..|].
  destruct (rc <=? 0); [done|]. apply IH in H as ->. set (bs := b :: buf) in *.
  destruct (decide (Z.to_nat rc <= length bs)%nat) as [Hle|Hgt].
  - rewrite <- (take_drop (Z.to_nat rc) bs) at 3. rewrite <- pwrite_app. f_equal.
    rewrite length_take. lia.
  - rewrite take_ge, drop_ge by lia. done.
Qed.

(** Positive answers that add up to the buffer's length are enough. *)
Definition acks_ok (acks : list Z) (n : Z) : Prop := Forall (fun rc => 0 < rc) acks /\ n <= zsum acks.

Lemma pwrite_all_ok acks : forall data buf off, acks_ok acks (zlen buf) ->
  pwrite_all data buf off acks = (true, pwrite data off buf).
Proof.
  assert (Hfst : forall acks data buf off, acks_ok acks (zlen buf) ->
    (pwrite_all data buf off acks).1 = true).
  { clear. induction acks as [|rc acks IH]; intros data [|b buf] off [Hp Hs]; cbn; [done| |done|].
    - rewrite zlen_cons in Hs. pose proof (zlen_nonneg buf). cbn in Hs. lia.
    - inversion Hp; subst. destruct (Z.leb_spec rc 0); [lia|]. apply IH. split; [done|].
      change (zsum (rc :: acks)) with (rc + zsum acks) in Hs. unfold zlen in *.
      assert (0 <= zsum acks) by (apply zsum_nonneg; eapply Forall_impl; [done|cbn; lia]).
      rewrite length_drop. lia. }
  intros data buf off H. pose proof (Hfst acks data buf off H) as Ht.
  destruct (pwrite_all data buf off acks) as [ok d] eqn:E. cbn in Ht. subst ok.
  by apply pwrite_all_true in E as ->.
Qed.

(** A write that fails changes at most the range of the buffer. *)
Lemma pwrite_all_frame acks : forall data buf off ok data',
  (off + length buf <= length data)%nat -> pwrite_all data buf off acks = (ok, data') ->
  length data' = length data /\
  forall off' n, (off' + n <= off \/ off + length buf <= off')%nat ->
    pread data' off' n = pread data off' n.
Proof.
  induction acks as [|rc acks IH]; intros data [|b buf] off ok data' Hlen H; cbn in H; simplify_eq; [done..|].
  destruct (rc <=? 0); [by simplify_eq|]. set (bs := b :: buf) in *.
  assert (Hle : (off + length (take (Z.to_nat rc) bs) <= length data)%nat)
    by (rewrite length_take; lia).
  destruct (decide (Z.to_nat rc <= length bs)%nat) as [Hin|Hgt].
  - apply IH in H as [Hl Hf]; [|rewrite length_pwrite, length_drop by done; lia].
    rewrite length_pwrite in Hl by done. split; [done|]. intros off' n Hd.
    rewrite Hf by (rewrite length_drop; lia).
    apply pread_pwrite_disjoint; [done|]. rewrite length_take. lia.
  - rewrite drop_ge in H by lia. rewrite take_ge in H, Hle by lia.
    assert (Hd' : data' = pwrite data off bs) by (by destruct acks; injection H as _ <-).
    subst data'. rewrite length_pwrite by done. split; [done|].
    intros; by apply pread_pwrite_disjoint.
Qed.

(** ** A session stores a partial map from chunks to their bytes *)

Section session.
Context {ctx : Type} (SHA256_Init : ctx) (SHA256_Update : ctx -> list Z -> ctx).
Context (L : codecs) `{!CodecsLaws L} (G : gcm) `{!GcmLaws G}.
Context (id : cstr) (mb : meta_bin).

Definition data_count : Z := count_data_chunks (mb_total_size mb) (mb_chunk_size mb).
Definition place (ci : Z) : chunk_place :=
  place_chunk (mb_total_size mb) (mb_chunk_size mb) data_count ci.

(** What [handler_file_upload_init] writes to meta.bin; ids are 32 hex digits. *)
Record meta_ok : Prop := {
  mo_geometry : good_geometry (mb_total_size mb) (mb_chunk_size mb);
  mo_count : exists rs2, mb_chunk_count mb = data_count + count_parity_chunks rs2 data_count;
  mo_temp : mb_temp_path mb = upload_session_temp_path id;
  mo_id : is_safe_segment (Some id) = true /\ (length id <= 32)%nat;
}.

(** Chunk [ci] is on disk with the bytes [p]. *)
Definition holds (f : fs) (ci : Z) (p : list Z) : Prop :=
  let pl := place ci in
  zlen p = cp_expected pl /\
  if cp_parity pl then f !! parity_path id (ci - data_count) = Some p
  else exists t, f !! upload_session_temp_path id = Some t /\
         pread t (Z.to_nat (cp_offset pl)) (Z.to_nat (cp_expected pl)) = p.

(** The received chunks are exactly those of [M], and each is on disk. *)
Record files_ok (f : fs) (M : gmap Z (list Z)) : Prop := {
  fo_bitmap : exists b, f !! upload_session_state_bin_path id = Some b /\ zlen b = mb_chunk_count mb /\
    (forall ci, 0 <= ci < mb_chunk_count mb -> is_set (nth (Z.to_nat ci) b 0) = bool_decide (is_Some (M !! ci))) /\
    Forall (fun c => c = zero \/ c = one) b;
  fo_temp : exists t, f !! upload_session_temp_path id = Some t /\ zlen t = mb_total_size mb;
  fo_data : forall ci p, M !! ci = Some p -> 0 <= ci < mb_chunk_count mb /\ holds f ci p;
}.

Hypothesis Hmb : meta_ok.

Lemma data_count_bounds : 1 <= data_count < 2 ^ 30 /\ data_count < mb_chunk_count mb < 2 ^ 32.
Proof.
  destruct Hmb as [Hg [rs2 Hc] _ _]. destruct (count_data_chunks_spec _ _ Hg) as (Hn & _).
  fold data_count in Hn. split; [done|]. rewrite Hc.
  destruct (count_parity_chunks_spec rs2 _ Hn) as [-> Hp]. destruct rs2; lia.
Qed.

Lemma place_cases ci : 0 <= ci ->
  (ci < data_count /\ place ci = ChunkPlace false (ci * mb_chunk_size mb)
                                (chunk_span (mb_total_size mb) (mb_chunk_size mb) ci) /\
   0 < chunk_span (mb_total_size mb) (mb_chunk_size mb) ci <= mb_chunk_size mb /\
   ci * mb_chunk_size mb + chunk_span (mb_total_size mb) (mb_chunk_size mb) ci <= mb_total_size mb)
  \/ (data_count <= ci /\ place ci = ChunkPlace true 0 (mb_chunk_size mb)).
Proof.
  intros Hci. destruct Hmb as [Hg _ _ _]. destruct (decide (ci < data_count)).
  - left. split; [done|]. by apply place_chunk_data.
  - right. split; [lia|]. apply place_chunk_parity. unfold data_count in *. lia.
Qed.

Lemma id_length : (length id <= 64)%nat.
Proof. destruct Hmb as [_ _ _ [_ H]]. lia. Qed.

(** Files with other names do not matter. *)
Lemma files_ok_ext f f' M :
  f' !! upload_session_state_bin_path id = f !! upload_session_state_bin_path id ->
  f' !! upload_session_temp_path id = f !! upload_session_temp_path id ->
  (forall k, f' !! parity_path id k = f !! parity_path id k) ->
  files_ok f M -> files_ok f' M.
Proof.
  intros Hs Ht Hp [Hb Hf Hd]. split; [by rewrite Hs|by rewrite Ht|].
  intros ci p HM. destruct (Hd ci p HM) as [Hci [Hl Hh]]. split; [done|]. split; [done|].
  destruct (cp_parity (place ci)); [by rewrite Hp|by rewrite Ht].
Qed.

Lemma files_ok_htp f v M : files_ok f M -> files_ok (<[htp_path id := v]> f) M.
Proof.
  apply files_ok_ext; [|..|intros k]; apply lookup_insert_ne;
    auto using htp_ne_state, htp_ne_temp.
  intros E. symmetry in E. revert E. apply parity_ne_htp, id_length.
Qed.

Definition chunk_path (ci : Z) : cstr :=
  if cp_parity (place ci) then parity_path id (ci - data_count) else upload_session_temp_path id.

(** The file a chunk is written to, as it is once opened. *)
Definition opened (f : fs) (ci : Z) : option (list Z) :=
  if cp_parity (place ci) then Some [] else f !! upload_session_temp_path id.

Lemma opened_temp f M ci : files_ok f M -> exists c, opened f ci = Some c /\
  (cp_parity (place ci) = true -> c = []) /\
  (cp_parity (place ci) = false -> f !! upload_session_temp_path id = Some c /\ zlen c = mb_total_size mb).
Proof.
  intros [_ (t & Ht & Hl) _]. unfold opened. destruct (cp_parity (place ci)).
  - by exists [].
  - by exists t.
Qed.

(** Writing a chunk keeps the others, and a write that succeeds puts the chunk on disk. *)
Lemma write_chunk_ok f M ci payload acks ok c c' :
  files_ok f M -> 0 <= ci < mb_chunk_count mb -> M !! ci = None -> opened f ci = Some c ->
  zlen payload <= cp_expected (place ci) ->
  pwrite_all c payload (Z.to_nat (cp_offset (place ci))) acks = (ok, c') ->
  files_ok (<[chunk_path ci := c']> f) M /\
  (ok = true -> zlen payload = cp_expected (place ci) -> holds (<[chunk_path ci := c']> f) ci payload).
Proof.
  intros Hf Hci HM Ho Hle Hw. pose proof Hf as [(b & Hb & Hbl & Hbits & Hall) (t & Ht & Htl) Hd].
  pose proof id_length as Hid. pose proof data_count_bounds as Hn.
  unfold chunk_path, opened in *. destruct Hmb as [Hg _ _ _].
  destruct (place_cases ci ltac:(lia)) as [(Hlt & Hp & Hs & Hin)|(Hge & Hp)];
    rewrite Hp in *; cbn [cp_parity cp_offset cp_expected] in *.
  - rewrite Ht in Ho. injection Ho as <-.
    assert (Hfit : (Z.to_nat (ci * mb_chunk_size mb) + length payload <= length t)%nat)
      by (unfold zlen in *; nia).
    destruct (pwrite_all_frame acks _ _ _ _ _ Hfit Hw) as [Hl' Hfr].
    split.
    + split.
      * exists b. rewrite lookup_insert_ne by (apply temp_ne_state). done.
      * exists c'. rewrite lookup_insert_eq. unfold zlen in *. by rewrite Hl'.
      * intros cj p Hj. destruct (Hd cj p Hj) as [Hcj [Hl Hh]]. split; [done|]. split; [done|].
        destruct (place_cases cj ltac:(lia)) as [(Hltj & Hpj & Hsj & Hinj)|(Hgej & Hpj)];
          rewrite Hpj in *; cbn [cp_parity cp_offset cp_expected] in *.
        -- destruct Hh as (t' & Ht' & Hr). rewrite Ht in Ht'. injection Ht' as <-.
           exists c'. split; [apply lookup_insert_eq|]. rewrite Hfr; [done|].
           assert (cj <> ci) by congruence.
           assert (0 <= cj * mb_chunk_size mb /\ 0 <= ci * mb_chunk_size mb) by nia.
           destruct (data_chunks_disjoint _ _ cj ci Hg ltac:(lia) ltac:(lia) ltac:(done));
             unfold zlen in *; [left|right]; lia.
        -- rewrite lookup_insert_ne; [done|]. intros E. symmetry in E. revert E. by apply parity_ne_temp.
    + intros -> Hlen. split; [by rewrite Hp|]. rewrite Hp. cbn [cp_parity cp_offset cp_expected].
      exists c'. split; [apply lookup_insert_eq|]. apply pwrite_all_true in Hw as ->.
      rewrite <- Hlen. unfold zlen in *. rewrite Nat2Z.id. apply pread_pwrite_same. lia.
  - injection Ho as <-. split.
    + split.
      * exists b. rewrite lookup_insert_ne by (by apply parity_ne_state). done.
      * exists t. by rewrite lookup_insert_ne by (by apply parity_ne_temp).
      * intros cj p Hj. destruct (Hd cj p Hj) as [Hcj [Hl Hh]]. split; [done|]. split; [done|].
        destruct (place_cases cj ltac:(lia)) as [(Hltj & Hpj & Hsj & Hinj)|(Hgej & Hpj)];
          rewrite Hpj in *; cbn [cp_parity cp_offset cp_expected] in *.
        -- by rewrite lookup_insert_ne by (by apply parity_ne_temp).
        -- rewrite lookup_insert_ne; [done|]. intros E. apply parity_path_inj in E; [|done|lia..].
           assert (cj = ci) by lia. congruence.
    + intros -> Hlen. split; [by rewrite Hp|]. rewrite Hp. cbn [cp_parity].
      rewrite lookup_insert_eq. apply pwrite_all_true in Hw as ->. by rewrite pwrite_nil.
Qed.

(** Marking a chunk that is on disk adds it. *)
Lemma mark_ok f M ci p :
  files_ok f M -> 0 <= ci < mb_chunk_count mb -> M !! ci = None -> holds f ci p ->
  exists f', mark_chunk_received_in_session_state_atomic id ci f = (Some false, f') /\
    files_ok f' (<[ci := p]> M).
Proof.
  intros Hf Hci HM Hh. pose proof Hf as [(b & Hb & Hbl & Hbits & Hall) (t & Ht & Htl) Hd].
  destruct (lookup_lt_is_Some_2 b (Z.to_nat ci)) as [v Hv]; [unfold zlen in *; lia|].
  rewrite (mark_atomic_spec id ci f b v Hb ltac:(lia) Hv).
  assert (Hset : is_set v = false).
  { specialize (Hbits ci Hci). rewrite nth_lookup, Hv in Hbits. cbn in Hbits. rewrite Hbits, HM.
    apply bool_decide_eq_false. by intros [? ?]. }
  rewrite Hset. eexists. split; [done|].
  set (f' := <[upload_session_state_bin_path id := _]> f).
  assert (Hother : forall path, path <> upload_session_state_bin_path id -> f' !! path = f !! path)
    by (intros path Hne; unfold f'; by rewrite lookup_insert_ne).
  assert (Hholds : forall cj q, holds f cj q -> holds f' cj q).
  { intros cj q [Hl Hq]. split; [done|]. destruct (cp_parity (place cj)).
    - by rewrite Hother by (apply parity_ne_state, id_length).
    - by rewrite Hother by (apply temp_ne_state). }
  split.
  - exists (<[Z.to_nat ci := one]> b). unfold f'. rewrite lookup_insert_eq. split; [done|].
    unfold zlen in *. rewrite length_insert. split; [done|].
    split; [|apply Forall_insert; [done|by right]]. intros cj Hcj.
    destruct (decide (cj = ci)) as [->|Hne].
    + rewrite nth_lookup, list_lookup_insert_eq by lia. rewrite lookup_insert_eq. done.
    + rewrite nth_lookup, list_lookup_insert_ne, <- nth_lookup by lia.
      rewrite lookup_insert_ne by done. by apply Hbits.
  - exists t. by rewrite Hother by (apply temp_ne_state).
  - intros cj q Hq. destruct (decide (cj = ci)) as [->|Hne].
    + rewrite lookup_insert_eq in Hq. injection Hq as <-. exact (conj Hci (Hholds _ _ Hh)).
    + rewrite lookup_insert_ne in Hq by done. destruct (Hd cj q Hq) as [Hcj Hhj].
      exact (conj Hcj (Hholds _ _ Hhj)).
Qed.

(** ** The storing part *)

Definition work (ci : Z) (rq : chunk_request) : upload_work :=
  UploadWork id ci (mb_temp_path mb) (chunk_encrypted (cr_stream_mode rq)) (mb_stream_key mb)
    (mb_stream_iv_seed mb) (cr_body rq) (chunk_compress_type (cr_content_encoding rq))
    (cp_offset (place ci)) (cp_expected (place ci)) (mb_total_size mb) (mb_chunk_size mb)
    (cp_parity (place ci)) data_count false.

Lemma work_payload_length w p : work_payload L G w = Some p -> zlen p = wk_expected_size w.
Proof.
  unfold work_payload. cbv zeta. destruct (wk_encrypted_stream w).
  - destruct (_ <=? 0); [done|]. destruct (decrypt_stream_block _ _ _ _ _ _ _) as [q|] eqn:E; [|done].
    destruct (wk_compressed w); [apply decompress_to_length|].
    destruct (Z.eqb_spec (if 16 <? zlen (wk_body w) then zlen (wk_body w) - 16 else 0) (wk_expected_size w));
      [|done].
    intros [= <-]. destruct (decrypt_length G _ _ _ _ _ _ _ E). lia.
  - destruct (wk_compressed w); [apply decompress_to_length|].
    destruct (Z.eqb_spec (zlen (wk_body w)) (wk_expected_size w)); [|done]. by intros [= <-].
Qed.

(** meta.json agrees with meta.bin, and no retransmission is asked for. *)
Record doc_ok (d : session_doc) : Prop := {
  dk_targets : m_retry_targets (d_meta d) = [];
  dk_count : m_chunk_count (d_meta d) = mb_chunk_count mb;
  dk_chunk_size : m_chunk_size (d_meta d) = mb_chunk_size mb;
  dk_total_size : m_total_size (d_meta d) = mb_total_size mb;
  dk_temp : d_temp_path d = mb_temp_path mb;
  dk_token : mb_upload_token mb = take 63 (d_upload_token d);
  dk_uid : d_uid d = mb_uid mb;
}.

Record session_ok (s : server (ctx := ctx)) (M : gmap Z (list Z)) : Prop := {
  ss_meta : sv_metas s !! id = Some mb;
  ss_cache : all_hold id 1 mb (sv_cache s);
  ss_files : files_ok (sv_files s) M;
  ss_doc : exists d, sv_docs s !! id = Some d /\ doc_ok d;
}.

Lemma session_ok_files f s M M' : session_ok s M -> files_ok f M' -> session_ok (with_files f s) M'.
Proof. by intros [? ? _ ?] ?. Qed.
Lemma session_ok_hash h s M : session_ok s M -> session_ok (with_hash h s) M.
Proof. by intros [? ? ? ?]. Qed.
Lemma session_ok_uploads q s M : session_ok s M -> session_ok (with_uploads q s) M.
Proof. by intros [? ? ? ?]. Qed.

#[local] Arguments pwrite_all : simpl never.

(** Either the chunk is stored and counted, or the session is as before. *)
Lemma work_ok ci rq acks s M : session_ok s M -> 0 <= ci < mb_chunk_count mb -> M !! ci = None ->
  match upload_work_func SHA256_Init SHA256_Update L G (work ci rq) acks s with
  | (true, mark, s') => mark = Some false /\
      exists p, work_payload L G (work ci rq) = Some p /\ session_ok s' (<[ci := p]> M)
  | (false, _, s') => session_ok s' M /\
      forall p, work_payload L G (work ci rq) = Some p -> ~ acks_ok acks (zlen p)
  end.
Proof.
  intros Hs Hci HM. pose proof Hs as [_ _ Hf _]. unfold upload_work_func. cbv zeta.
  assert (Hpath : work_path (work ci rq) = chunk_path ci).
  { unfold work_path, chunk_path, work; cbn. destruct (cp_parity (place ci)); [done|].
    by destruct Hmb as [_ _ -> _]. }
  rewrite Hpath. destruct (opened_temp (sv_files s) M ci Hf) as (c & Ho & Hc1 & Hc2).
  assert (Hopen : (if wk_is_parity (work ci rq) then Some [] else sv_files s !! chunk_path ci) = Some c).
  { cbn [wk_is_parity work]. unfold opened, chunk_path in *. by destruct (cp_parity (place ci)). }
  rewrite Hopen. set (f1 := <[chunk_path ci := c]> (sv_files s)).
  assert (Hpos : 0 <= cp_expected (place ci)).
  { pose proof data_count_bounds. destruct Hmb as [[_ [? _]] _ _ _].
    destruct (place_cases ci ltac:(lia)) as [(_ & -> & ? & _)|(_ & ->)]; cbn; lia. }
  assert (Hf1 : files_ok f1 M).
  { eapply (write_chunk_ok (sv_files s) M ci [] [] true c c); [done..| |]; [done|].
    by destruct c. }
  assert (Ho1 : opened f1 ci = Some c).
  { unfold opened, f1, chunk_path in *. destruct (cp_parity (place ci)); [done|]. apply lookup_insert_eq. }
  destruct (work_payload L G (work ci rq)) as [payload|] eqn:Epl.
  2: { split; [by eapply session_ok_files|done]. }
  pose proof (work_payload_length _ _ Epl) as Hlen. cbn [wk_expected_size work] in Hlen.
  assert (Hoff : (if wk_is_parity (work ci rq) then 0 else wk_offset (work ci rq)) = cp_offset (place ci)).
  { cbn [wk_is_parity wk_offset work]. pose proof data_count_bounds.
    destruct (place_cases ci ltac:(lia)) as [(_ & -> & _)|(_ & ->)]; done. }
  rewrite Hoff. destruct (pwrite_all c payload _ acks) as [ok c'] eqn:Ew.
  destruct (write_chunk_ok f1 M ci payload acks ok c c' Hf1 Hci HM Ho1 ltac:(lia) Ew) as [Hf2 Hh].
  destruct ok; cbn [negb].
  2: { split; [by eapply session_ok_files; [eapply session_ok_files|]|].
       intros p [= <-] Ha. by rewrite pwrite_all_ok in Ew. }
  specialize (Hh eq_refl Hlen). cbn [sv_files with_files wk_upload_id wk_chunk_index work].
  destruct (mark_ok _ M ci payload Hf2 Hci HM Hh) as (f3 & Hm & Hf3). rewrite Hm.
  split; [done|]. exists payload. split; [done|].
  assert (Hs3 : session_ok (with_files f3 (with_files (<[chunk_path ci := c']> f1) (with_files f1 s)))
                  (<[ci := payload]> M)).
  { eapply session_ok_files; [|done]. do 2 (eapply session_ok_files; [|done]). done. }
  destruct (_ && _); [by apply session_ok_hash|done].
Qed.

Lemma session_ok_cache c s M : session_ok s M -> all_hold id 1 mb c -> session_ok (with_cache c s) M.
Proof. by intros [? ? ? ?]. Qed.

(** ** The whole request *)

Lemma load_session_ok s M : session_ok s M ->
  exists d b, load_session id s = Some d /\ doc_ok d /\
    sv_files s !! upload_session_state_bin_path id = Some b /\ zlen b = mb_chunk_count mb /\
    m_received_bitmap (d_meta d) = b.
Proof.
  intros [_ _ [(b & Hb & Hl & _) _ _] (d & Hd & [H1 H2 H3 H4 H5 H6 H7])].
  assert (Hbin : load_upload_session_state_bin id (m_chunk_count (d_meta d)) (sv_files s) = Some b).
  { unfold load_upload_session_state_bin. rewrite Hb, H2.
    replace (pread b 0 (Z.to_nat (mb_chunk_count mb))) with b.
    - by rewrite Hl, Z.eqb_refl.
    - unfold pread. rewrite drop_0, take_ge; [done|]. unfold zlen in Hl. lia. }
  unfold load_session, load_upload_session. rewrite Hd, Hbin. eexists _, b. split; [reflexivity|].
  split; [|by destruct (sv_states s !! id)].
  split; try done; cbn [d_meta doc_with_meta]; by destruct (sv_states s !! id).
Qed.

Lemma session_ok_save d s M : session_ok s M -> doc_ok d ->
  session_ok (save_upload_session id d s) M.
Proof. intros [? ? ? _] Hd. split; [done..|]. exists d. cbn. by rewrite lookup_insert_eq. Qed.

Lemma append_rtt_sample_ok ci rtt d : doc_ok d -> doc_ok (append_rtt_sample ci rtt d).
Proof. intros Hd. unfold append_rtt_sample. destruct (negb _); [done|]. by destruct Hd. Qed.

Lemma after_store_ok rq ci s M : session_ok s M -> session_ok (after_store rq id ci false s) M.
Proof.
  intros Hs. unfold after_store.
  set (s1 := match cr_chunk_rtt rq with Some _ => _ | None => _ end).
  assert (Hs1 : session_ok s1 M).
  { unfold s1. destruct (cr_chunk_rtt rq) as [rtt|]; [|done]. destruct (negb _); [|done].
    destruct (load_session_ok s M Hs) as (d & b & -> & Hd & _). apply session_ok_save; [done|].
    by apply append_rtt_sample_ok. }
  destruct (cr_hash_tag rq) as [[|c r]|]; [done| |done].
  eapply session_ok_files; [exact Hs1|]. apply files_ok_htp. by destruct Hs1.
Qed.

Lemma received_iff f M ci : files_ok f M -> 0 <= ci < mb_chunk_count mb ->
  is_chunk_already_received id ci f = bool_decide (is_Some (M !! ci)).
Proof.
  intros [(b & Hb & Hl & Hbits & _) _ _] Hci. unfold is_chunk_already_received. rewrite Hb.
  destruct (Z.ltb_spec ci 0); [lia|].
  destruct (lookup_lt_is_Some_2 b (Z.to_nat ci)) as [v Hv]; [unfold zlen in *; lia|].
  rewrite (pread_1 _ _ _ Hv), <- Hbits by done. by rewrite nth_lookup, Hv.
Qed.

(** The request names a chunk of the session and has its token. *)
Definition authorised (rq : chunk_request) (ci : Z) : Prop :=
  cr_upload_token rq = Some (mb_upload_token mb) /\ 0 <= ci < mb_chunk_count mb /\
  exists t, cr_chunk_index rq = Some t /\ atoi t = ci.

(** The bytes a request carries for a chunk, when it carries some. *)
Definition request_payload (rq : chunk_request) (ci : Z) : option (list Z) :=
  if (zlen (cr_body rq) =? 0)
     || negb (chunk_size_ok (chunk_encrypted (cr_stream_mode rq))
                (negb (bool_decide (chunk_compress_type (cr_content_encoding rq) = COMPRESS_NONE)))
                (cp_expected (place ci)) (zlen (cr_body rq)))
  then None else work_payload L G (work ci rq).

Inductive step_spec (acks : list Z) (rq : chunk_request) (M : gmap Z (list Z))
  : reply -> gmap Z (list Z) -> Prop :=
| StepRepeated ci : authorised rq ci -> is_Some (M !! ci) ->
    step_spec acks rq M (Reply 204 Accepted) M
| StepStored ci p : authorised rq ci -> M !! ci = None -> request_payload rq ci = Some p ->
    step_spec acks rq M (Reply 204 Accepted) (<[ci := p]> M)
| StepRefused status message : status <> 204 ->
    (forall ci, authorised rq ci -> M !! ci = None /\
       forall p, request_payload rq ci = Some p -> ~ acks_ok acks (zlen p)) ->
    step_spec acks rq M (fail status message) M.

Lemma upload_chunk_step rq ci acks s M : session_ok s M -> authorised rq ci ->
  let '(r, s') := upload_chunk SHA256_Init SHA256_Update L G rq id ci mb acks s in
  exists M', session_ok s' M' /\ step_spec acks rq M r M'.
Proof.
  intros Hs Ha. pose proof Hs as [_ _ Hf _]. pose proof Ha as (_ & Hci & Hidx). unfold upload_chunk.
  rewrite (received_iff _ M) by done.
  destruct (load_session_ok s M Hs) as (d & b & -> & [-> _ _ _ _ _ _] & _).
  destruct (decide (is_Some (M !! ci))) as [Hrec|Hrec].
  { rewrite bool_decide_eq_true_2 by done. cbn. exists M. split; [done|]. by eapply StepRepeated. }
  rewrite bool_decide_eq_false_2 by done. apply eq_None_not_Some in Hrec. cbn [andb negb].
  fold data_count. fold (place ci). cbv zeta.
  assert (Hrefuse : forall m status, status <> 204 -> request_payload rq ci = None ->
    exists M', session_ok s M' /\ step_spec acks rq M (fail status m) M').
  { intros m status Hst Hnone. exists M. split; [done|]. apply StepRefused; [done|].
    intros cj (_ & _ & t & Ht & <-). destruct Hidx as (t' & Ht' & <-). split; [congruence|].
    intros p Hp. assert (t' = t) by congruence. subst. congruence. }
  pose proof (work_ok ci rq acks s M Hs Hci Hrec) as Hw. unfold request_payload in Hrefuse.
  assert (Hpos : 0 < cp_expected (place ci)).
  { pose proof data_count_bounds. destruct Hmb as [[_ [? _]] _ _ _].
    destruct (place_cases ci ltac:(lia)) as [(_ & -> & ? & _)|(_ & ->)]; cbn; lia. }
  destruct (Z.leb_spec (cp_expected (place ci)) 0); [lia|].
  destruct (Z.eqb_spec (zlen (cr_body rq)) 0); [by apply Hrefuse|].
  destruct (negb (chunk_size_ok _ _ _ _)) eqn:Esize; [by apply Hrefuse|]. clear Hrefuse.
  fold (work ci rq). destruct (upload_work_func _ _ _ _ _ _ _) as [[ok mark] s'].
  assert (Hpl : request_payload rq ci = work_payload L G (work ci rq)).
  { unfold request_payload. rewrite Esize. by destruct (Z.eqb_spec (zlen (cr_body rq)) 0). }
  destruct ok.
  - destruct Hw as (-> & p & Hp & Hs'). exists (<[ci := p]> M). split; [by apply after_store_ok|].
    apply StepStored; [done|done|congruence].
  - destruct Hw as [Hs' Hno]. exists M. split; [done|]. apply StepRefused; [done|].
    intros cj (_ & _ & t & Ht & <-). destruct Hidx as (t' & Ht' & <-).
    assert (t' = t) by congruence. subst t'. split; [done|]. intros p Hp. apply Hno. congruence.
Qed.

Lemma handler_step now acks rq s M : session_ok s M -> cr_upload_id rq = Some id ->
  let '(r, s') := handler_file_upload SHA256_Init SHA256_Update L G now acks rq s in
  exists M', session_ok s' M' /\ step_spec acks rq M r M'.
Proof.
  intros Hs Hid. pose proof Hmb as [_ _ _ [Hsafe _]]. unfold handler_file_upload. rewrite Hid.
  assert (Hrefuse : forall s' m status, session_ok s' M -> status <> 204 ->
    (forall ci, ~ authorised rq ci) ->
    exists M', session_ok s' M' /\ step_spec acks rq M (fail status m) M').
  { intros s' m status Hs' Hst Hno. exists M. split; [done|]. apply StepRefused; [done|].
    intros ci Hci. by destruct (Hno ci). }
  destruct (cr_upload_token rq) as [token|] eqn:Et.
  2: { apply Hrefuse; [done|done|]. intros ci (? & _). congruence. }
  destruct (cr_chunk_index rq) as [index|] eqn:Ei.
  2: { apply Hrefuse; [done|done|]. intros ci (_ & _ & t & ? & _). congruence. }
  cbv zeta. rewrite Hsafe. cbn [negb orb].
  destruct (Z.ltb_spec (atoi index) 0).
  { apply Hrefuse; [done|done|]. intros ci (_ & Hci & t & ? & <-). simplify_eq. lia. }
  set (s1 := with_uploads _ s).
  assert (Hs1 : session_ok s1 M) by (by apply session_ok_uploads).
  pose proof Hs1 as [Hm Hc _ _]. rewrite Hm. unfold load_upload_session_meta_bin_cached.
  destruct (load_cached_hold now 1 TASFA_UPLOAD_TTL id mb _ Hc) as [Hr Hc'].
  destruct (load_cached now 1 TASFA_UPLOAD_TTL id (Some mb) (sv_cache s1)) as [r c]. cbn [fst snd] in *.
  subst r. set (s2 := with_uploads _ (with_cache c s1)).
  assert (Hs2 : session_ok s2 M) by (apply session_ok_uploads, session_ok_cache; done).
  unfold secure_str_eq. destruct (streq token (mb_upload_token mb)) eqn:Etok; cbn [negb].
  2: { apply Hrefuse; [done|done|]. apply streq_neq in Etok. intros ci (? & _). congruence. }
  apply streq_eq in Etok. subst token.
  destruct (Z.leb_spec (mb_chunk_count mb) (atoi index)).
  { apply Hrefuse; [done|done|]. intros ci (_ & Hci & t & ? & <-). simplify_eq. lia. }
  apply upload_chunk_step; [done|]. split; [done|]. split; [lia|]. eauto.
Qed.

(** ** What a client sends *)

(** The body of a request carries [p], compressed or not, then encrypted or not. *)
Definition encodes (rq : chunk_request) (ci : Z) (p : list Z) : Prop :=
  let type := chunk_compress_type (cr_content_encoding rq) in
  exists inner,
    match type with
    | COMPRESS_NONE => inner = p
    | _ => 0 < zlen inner <= zlen p /\ tasfa_decompress_to L inner (zlen p) type = Some p
    end /\
    if chunk_encrypted (cr_stream_mode rq)
    then encrypt_stream_block G (mb_stream_key mb) (mb_stream_iv_seed mb) ci id inner = Some (cr_body rq)
    else cr_body rq = inner.

Lemma encodes_payload rq ci p : 0 <= ci -> zlen p = cp_expected (place ci) -> encodes rq ci p ->
  request_payload rq ci = Some p.
Proof.
  intros Hci Hp (inner & Hi & Hb).
  assert (Hpos : 0 < cp_expected (place ci)).
  { pose proof data_count_bounds. destruct Hmb as [[_ [? _]] _ _ _].
    destruct (place_cases ci Hci) as [(_ & -> & ? & _)|(_ & ->)]; cbn; lia. }
  unfold request_payload, work_payload, wk_compressed, chunk_size_ok. cbv zeta.
  cbn [wk_body wk_expected_size wk_encrypted_stream wk_stream_key wk_stream_iv_seed wk_chunk_index
       wk_upload_id wk_compress_type work].
  set (type := chunk_compress_type (cr_content_encoding rq)) in *. rewrite <- Hp in *.
  assert (Hin : 0 < zlen inner <= zlen p) by (destruct type; [subst inner; lia|apply Hi..]).
  assert (Hty : type = COMPRESS_NONE /\ inner = p \/
                type <> COMPRESS_NONE /\ tasfa_decompress_to L inner (zlen p) type = Some p).
  { destruct type; [by left|right; (split; [done|apply Hi])..]. }
  assert (Hle : (zlen inner =? zlen p) = true \/ type <> COMPRESS_NONE).
  { destruct Hty as [[_ ->]|[? _]]; [left; by apply Z.eqb_refl|by right]. }
  destruct (chunk_encrypted (cr_stream_mode rq)).
  - destruct (decrypt_encrypt G _ _ _ _ _ _ Hb) as [Hl Hd]. rewrite Hl.
    destruct (Z.eqb_spec (zlen inner + 16) 0); [lia|]. cbn [orb].
    destruct (Z.ltb_spec 16 (zlen inner + 16)); [|lia].
    replace (zlen inner + 16 - 16) with (zlen inner) by lia.
    destruct (Z.leb_spec (zlen inner) 0); [lia|]. rewrite Hd.
    destruct Hty as [[Ht ->]|[Ht Hx]].
    + rewrite (bool_decide_eq_true_2 _ Ht). cbn [negb]. by rewrite !Z.eqb_refl.
    + rewrite (bool_decide_eq_false_2 _ Ht). cbn [negb].
      destruct (Z.leb_spec (zlen inner + 16) (zlen p + 16)); [|lia]. done.
  - rewrite Hb. destruct (Z.eqb_spec (zlen inner) 0); [lia|]. cbn [orb].
    destruct Hty as [[Ht ->]|[Ht Hx]].
    + rewrite (bool_decide_eq_true_2 _ Ht). cbn [negb]. by rewrite !Z.eqb_refl.
    + rewrite (bool_decide_eq_false_2 _ Ht). cbn [negb].
      destruct (Z.ltb_spec 0 (zlen inner)), (Z.leb_spec (zlen inner) (zlen p)); try lia. done.
Qed.

(** An authorised request that carries a new chunk over a working disk stores it. *)
Lemma handler_accepts now acks rq s M ci p :
  session_ok s M -> cr_upload_id rq = Some id -> authorised rq ci ->
  zlen p = cp_expected (place ci) -> encodes rq ci p -> acks_ok acks (zlen p) ->
  let '(r, s') := handler_file_upload SHA256_Init SHA256_Update L G now acks rq s in
  r = Reply 204 Accepted /\ session_ok s' (if decide (is_Some (M !! ci)) then M else <[ci := p]> M).
Proof.
  intros Hs Hid Ha Hp He Hacks. pose proof (handler_step now acks rq s M Hs Hid) as Hstep.
  destruct (handler_file_upload _ _ _ _ _ _ _ _) as [r s']. destruct Hstep as (M' & Hs' & Hspec).
  pose proof Ha as (_ & Hci & Hidx).
  pose proof (encodes_payload rq ci p ltac:(lia) Hp He) as Hpl.
  assert (Huniq : forall cj, authorised rq cj -> cj = ci).
  { intros cj (_ & _ & t & Ht & <-). destruct Hidx as (t' & Ht' & <-). congruence. }
  destruct Hspec as [cj Hj Hrec|cj q Hj Hnone Hq|st m _ Hno].
  - rewrite (Huniq cj Hj) in Hrec. split; [done|]. by rewrite decide_True.
  - rewrite (Huniq cj Hj) in *. split; [done|]. rewrite decide_False by (rewrite Hnone; by intros [? ?]).
    assert (q = p) by congruence. by subst q.
  - destruct (Hno ci Ha) as [_ Hn]. by destruct (Hn p Hpl).
Qed.

(** C9: a session is a partial map from chunks to bytes.  Whatever request comes for it, its
    state afterwards is that of the map, extended by at most the one chunk the request names:
    a repeated chunk is acknowledged and changes nothing, a chunk that is stored has a valid
    token and a payload that decrypts and decompresses to exactly the size of its place, and
    every other request is refused and leaves the map alone.  A chunk an honest client sends,
    in any combination of compression and encryption, is always accepted when the disk works. *)
Theorem upload_refines_map now acks rq s M :
  session_ok s M -> cr_upload_id rq = Some id ->
  let '(r, s') := handler_file_upload SHA256_Init SHA256_Update L G now acks rq s in
  exists M', session_ok s' M' /\ step_spec acks rq M r M' /\
    forall ci p, authorised rq ci -> zlen p = cp_expected (place ci) -> encodes rq ci p ->
      acks_ok acks (zlen p) ->
      r = Reply 204 Accepted /\ (M !! ci = None -> M' = <[ci := p]> M).
Proof.
  intros Hs Hid. pose proof (handler_step now acks rq s M Hs Hid) as Hstep.
  destruct (handler_file_upload _ _ _ _ _ _ _ _) as [r s']. destruct Hstep as (M' & Hs' & Hspec).
  exists M'. split; [done|]. split; [done|]. intros ci p Ha Hp He Hacks.
  pose proof Ha as (_ & Hci & t & Ht & Hat).
  pose proof (encodes_payload rq ci p ltac:(lia) Hp He) as Hpl.
  assert (Huniq : forall cj, authorised rq cj -> cj = ci)
    by (intros cj (_ & _ & t' & Ht' & <-); congruence).
  destruct Hspec as [cj Hj [q Hq]|cj q Hj _ Hq|st m _ Hno].
  - rewrite (Huniq cj Hj) in Hq. split; [done|]. congruence.
  - rewrite (Huniq cj Hj) in *. split; [done|]. congruence.
  - destruct (Hno ci Ha) as [_ Hn]. by destruct (Hn p Hpl).
Qed.
End session.

(** ** Opening a session *)

Lemma queue_leave_eq id q : id <> [] -> tasfa_queue_leave (Some id) q =
  match find_index (fun s => streq (q_id s) id) q with
  | Some i => <[i := no_slot]> q
  | None => q
  end.
Proof. by destruct id. Qed.

Lemma queue_enter_leave now id q q' : id <> [] -> (length id <= 63)%nat -> id ∉ map q_id q ->
  tasfa_queue_try_enter now (Some id) q = (true, q') ->
  map q_id (tasfa_queue_leave (Some id) q') = map q_id q /\ id ∈ map q_id q'.
Proof.
  intros Hne Hl Hnew H. unfold tasfa_queue_try_enter in H.
  destruct (find_index _ q) as [i|] eqn:E; [|done]. injection H as <-.
  apply find_index_some in E as (x & Hx & Hfree & Hfirst). apply bool_decide_eq_true in Hfree.
  cbn [default from_option]. unfold Datatypes.id. rewrite snprintf_s_id by lia.
  split.
  - rewrite queue_leave_eq by done. rewrite (find_index_insert _ q i x (QueueSlot id now) Hx); [|by apply streq_refl|].
    + rewrite list_insert_insert_eq, list_fmap_insert. cbn [q_id no_slot].
      apply list_insert_id. rewrite list_lookup_fmap, Hx. cbn. by rewrite Hfree.
    + intros j z Hj Hz. apply streq_neq. intros <-. apply Hnew.
      apply list_elem_of_fmap. exists z. split; [done|]. by eapply list_elem_of_lookup_2.
  - apply list_elem_of_fmap. exists (QueueSlot id now). split; [done|].
    eapply list_elem_of_lookup_2. apply list_lookup_insert_eq. by eapply lookup_lt_Some.
Qed.

Section init.
Context {ctx : Type}.
#[local] Abbreviation server := (server (ctx := ctx)).

(** The files written by a successful opening hold an empty session. *)
Lemma fresh_files_ok (id : cstr) (mb : meta_bin) (f : fs) :
  mb_temp_path mb = upload_session_temp_path id ->
  0 <= mb_chunk_count mb -> 0 <= mb_total_size mb ->
  files_ok id mb
    (save_upload_session_state_bin id (mb_chunk_count mb)
       (Some (replicate (Z.to_nat (mb_chunk_count mb)) zero))
       (<[upload_session_temp_path id := replicate (Z.to_nat (mb_total_size mb)) 0]> f)).2 ∅.
Proof.
  intros Ht Hc Hs. cbn [save_upload_session_state_bin snd]. split.
  - eexists. rewrite lookup_insert_eq. split; [done|]. rewrite take_ge by (rewrite length_replicate; lia).
    unfold zlen. rewrite length_replicate. split; [lia|].
    split; [|apply Forall_replicate; by left]. intros ci Hci.
    rewrite nth_lookup, lookup_replicate_2 by lia. rewrite lookup_empty. symmetry.
    apply bool_decide_eq_false. by intros [? ?].
  - eexists. rewrite lookup_insert_ne by (intros E; symmetry in E; by apply temp_ne_state in E).
    rewrite lookup_insert_eq. split; [done|]. unfold zlen. rewrite length_replicate. lia.
  - intros ci p H. by rewrite lookup_empty in H.
Qed.

(** The chunk count fits an [int] and is at least two. *)
Lemma chunk_count_fits total cs rs2 : good_geometry total cs ->
  let n := count_data_chunks total cs in
  i32 (n + count_parity_chunks rs2 n) = n + count_parity_chunks rs2 n /\
  2 <= n + count_parity_chunks rs2 n.
Proof.
  intros Hg n. destruct (count_data_chunks_spec _ _ Hg) as (Hn & _). fold n in Hn.
  destruct (count_parity_chunks_spec rs2 n Hn) as [-> Hp].
  assert (n + 6 * ((n + 5) / 6) <= 2 * n + 5) by (Z.div_mod_to_equations; lia).
  rewrite i32_small by (destruct rs2; lia). destruct rs2; lia.
Qed.

Lemma upload_geometry total mobile requested : 0 < total <= 2 ^ 50 ->
  - 2 ^ 31 <= requested < 2 ^ 31 -> good_geometry total (choose_chunk_size_upload mobile requested).
Proof.
  intros Ht Hr. pose proof (upload_chunk_size_range mobile requested Hr) as Hc.
  set (cs := choose_chunk_size_upload mobile requested) in *. unfold MiB in Hc.
  split; [lia|]. split; [lia|]. split; [lia|]. apply Z.div_lt_upper_bound; lia.
Qed.

(** The request is one the server takes. *)
Definition init_acceptable (max_upload_size : Z) (rq : init_request) (e : init_env) : Prop :=
  ir_uid rq <> None /\ is_safe_filename_simple (ir_filename rq) = true /\
  0 < init_size rq <= max_upload_size /\ ie_roots e = true.

(** The system delivers what opening needs. *)
Definition init_delivers (e : init_env) : Prop :=
  ie_prepared e = true /\ ie_saved e = true /\
  exists key seed token secret, ie_secrets e = Some (key, seed, token, secret) /\ key <> [] /\ seed <> [].

(** An open session without chunks, for the request. *)
Definition opened_session (id : cstr) (rq : init_request) (s : server) : Prop :=
  exists mb, meta_ok id mb /\ session_ok id mb s ∅ /\
    mb_total_size mb = init_size rq /\ mb_chunk_size mb = init_chunk_size rq.

Lemma init_give_up_spec id (s : server) q0 : id <> [] -> map q_id (tasfa_queue_leave (Some id) (sv_uploads s)) = q0 ->
  exists s', init_give_up id s = (Some (fail 500 (CS "upload init failed")), s') /\
    sv_docs s' = delete id (sv_docs s) /\ map q_id (sv_uploads s') = q0.
Proof. intros Hne Hq. eexists. split; [reflexivity|]. by split. Qed.

Lemma init_session_spec cfg rq e uid id (s : server) q0 :
  0 < init_size rq <= 2 ^ 50 -> is_safe_segment (Some id) = true -> (length id <= 32)%nat ->
  (forall p sl, sv_cache s !! p = Some sl -> cs_key sl <> id) ->
  map q_id (tasfa_queue_leave (Some id) (sv_uploads s)) = q0 ->
  let '(r, s') := init_session cfg rq e uid id s in
  ((exists b, r = Some (Reply 200 b)) /\ opened_session id rq s' /\ sv_uploads s' = sv_uploads s) \/
  (r = Some (fail 500 (CS "upload init failed")) /\ ~ init_delivers e /\
   sv_docs s' = delete id (sv_docs s) /\ map q_id (sv_uploads s') = q0).
Proof.
  intros Hsize Hsafe Hlen Hfresh Hq. assert (Hne : id <> []) by (by destruct id).
  assert (Hg : good_geometry (init_size rq) (init_chunk_size rq)).
  { apply upload_geometry; [done|]. unfold read_int, atoi. apply i32_range. }
  destruct (chunk_count_fits _ _ (init_rs2 rq) Hg) as [Hcount Hpos].
  fold (init_chunk_count rq) in Hcount.
  assert (Hgive : forall s1, sv_docs s1 = sv_docs s -> sv_uploads s1 = sv_uploads s -> ~ init_delivers e ->
    let '(r, s') := init_give_up id s1 in
    ((exists b, r = Some (Reply 200 b)) /\ opened_session id rq s' /\ sv_uploads s' = sv_uploads s) \/
    (r = Some (fail 500 (CS "upload init failed")) /\ ~ init_delivers e /\
     sv_docs s' = delete id (sv_docs s) /\ map q_id (sv_uploads s') = q0)).
  { intros s1 Hd Hu Hno. destruct (init_give_up_spec id s1 q0 Hne) as (s' & -> & H1 & H2);
      [by rewrite Hu|]. right. rewrite H1, Hd. done. }
  unfold init_session. destruct (ie_prepared e) eqn:Eprep; cbn [negb].
  2: { apply Hgive; [done..|]. intros (? & _). congruence. }
  assert (Hbm : bitmap_create (init_chunk_count rq) = Some (replicate (Z.to_nat (init_chunk_count rq)) zero)).
  { unfold bitmap_create. destruct (Z.leb_spec (init_chunk_count rq) 0); [lia|done]. }
  rewrite Hbm. cbv zeta.
  destruct (ie_secrets e) as [[[[key seed] token] secret]|] eqn:Esec.
  2: { apply Hgive; [done..|]. intros (_ & _ & ? & ? & ? & ? & ? & _). congruence. }
  destruct (hex_encode_alloc (Some key)) as [kh|] eqn:Ek.
  2: { apply Hgive; [done..|]. intros (_ & _ & k & sd & t & sc & Hs & Hk & _). destruct key; [|done].
       congruence. }
  destruct (hex_encode_alloc (Some seed)) as [sh|] eqn:Es.
  2: { apply Hgive; [done..|]. intros (_ & _ & k & sd & t & sc & Hs & _ & Hsd). destruct seed; [|done].
       congruence. }
  destruct (ie_saved e) eqn:Esaved; cbn [negb].
  2: { apply Hgive; [done..|]. intros (_ & ? & _). congruence. }
  left. split; [eauto|]. split; [|done].
  exists (init_mbin rq e uid id token secret key seed).
  split; [|split; [|done]].
  - split; [exact Hg| |done|done]. exists (init_rs2 rq). exact Hcount.
  - split.
    + cbn. by rewrite lookup_insert_eq.
    + intros p sl Hp _ _ Hk. by destruct (Hfresh p sl Hp).
    + cbn [sv_files with_metas with_files save_upload_session save_upload_session_state with_docs with_states].
      apply (fresh_files_ok id (init_mbin rq e uid id token secret key seed)); cbn [mb_temp_path mb_chunk_count mb_total_size init_mbin]; [done|lia..].
    + eexists. cbn. rewrite lookup_insert_eq. split; [done|]. by split.
Qed.

(** opening an upload is all or nothing.  When the answer is 200 the session exists with no
    chunk received, its file has the announced size, its chunk sizes and counts are consistent
    and its queue slot is taken.  In every other case no session is left and the queue holds the
    ids it held (those the sweep keeps).  And every acceptable request is answered 200 when a
    queue slot is free and the system delivers. *)
Theorem upload_init_all_or_nothing max_upload_size cfg rq e (s : server) id :
  0 < max_upload_size <= 2 ^ 50 -> ie_upload_id e = Some id ->
  is_safe_segment (Some id) = true -> (length id <= 32)%nat -> id ∉ map q_id (sv_uploads s) ->
  (forall p sl, sv_cache s !! p = Some sl -> cs_key sl <> id) ->
  let swept := tasfa_queue_sweep (ie_now e) 600 (sv_uploads s) in
  let '(r, s') := handler_file_upload_init max_upload_size cfg rq e s in
  ((exists b, r = Some (Reply 200 b)) /\ init_acceptable max_upload_size rq e /\
   opened_session id rq s' /\ id ∈ map q_id (sv_uploads s')) \/
  ((forall b, r <> Some (Reply 200 b)) /\
   (sv_docs s' = sv_docs s \/ sv_docs s' = delete id (sv_docs s)) /\
   (map q_id (sv_uploads s') = map q_id (sv_uploads s) \/ map q_id (sv_uploads s') = map q_id swept) /\
   (init_acceptable max_upload_size rq e -> init_delivers e -> forall x, x ∈ swept -> q_id x <> [])).
Proof.
  intros Hmax Hid Hsafe Hlen Hnew Hfresh swept. unfold handler_file_upload_init.
  assert (Hrefuse : forall rp, rp_status rp <> 200 -> ~ init_acceptable max_upload_size rq e ->
    ((exists b, Some rp = Some (Reply 200 b)) /\ init_acceptable max_upload_size rq e /\
     opened_session id rq s /\ id ∈ map q_id (sv_uploads s)) \/
    ((forall b, Some rp <> Some (Reply 200 b)) /\
     (sv_docs s = sv_docs s \/ sv_docs s = delete id (sv_docs s)) /\
     (map q_id (sv_uploads s) = map q_id (sv_uploads s) \/ map q_id (sv_uploads s) = map q_id swept) /\
     (init_acceptable max_upload_size rq e -> init_delivers e -> forall x, x ∈ swept -> q_id x <> []))).
  { intros rp Hst Hno. right. split; [by intros b [= ->]|]. auto. }
  destruct (ir_uid rq) as [uid|] eqn:Eu.
  2: { right. split; [done|]. split; [by left|]. split; [by left|]. by intros [? _]. }
  destruct (is_safe_filename_simple (ir_filename rq)) eqn:Ef; cbn [negb orb].
  2: { apply Hrefuse; [done|]. intros (_ & ? & _). congruence. }
  destruct (Z.leb_spec (init_size rq) 0); cbn [negb orb].
  { apply Hrefuse; [done|]. intros (_ & _ & ? & _). lia. }
  destruct (ie_roots e) eqn:Er; cbn [negb orb].
  2: { apply Hrefuse; [done|]. intros (_ & _ & _ & ?). congruence. }
  destruct (Z.ltb_spec 0 max_upload_size); [|lia].
  destruct (Z.ltb_spec max_upload_size (init_size rq)); cbn [andb].
  { apply Hrefuse; [done|]. intros (_ & _ & ? & _). lia. }
  clear Hrefuse. cbv zeta. rewrite Hid. cbn [sv_uploads with_uploads]. fold swept.
  assert (Hacc : init_acceptable max_upload_size rq e).
  { split; [congruence|]. split; [done|]. split; [lia|done]. }
  assert (Hsw : id ∉ map q_id swept).
  { intros Hin. apply list_elem_of_fmap in Hin as (x & Hx & Hin). apply list_elem_of_fmap in Hin as (y & -> & Hy).
    destruct (_ && _) in Hx; [by destruct id|]. apply Hnew. apply list_elem_of_fmap. eauto. }
  destruct (tasfa_queue_try_enter (ie_now e) (Some id) swept) as [entered q] eqn:Ee.
  destruct entered.
  - destruct (queue_enter_leave (ie_now e) id swept q) as [Hleave Hin]; [by destruct id|lia|done|done|].
    pose proof (init_session_spec cfg rq e uid id (with_uploads q (with_uploads swept s)) (map q_id swept)) as Hi.
    destruct (init_session _ _ _ _ _ _) as [r s'].
    destruct Hi as [(Hr & Ho & Hu)|(-> & Hno & Hd & Hq)]; [lia|done|done|exact Hfresh|exact Hleave| |].
    + left. split; [done|]. split; [done|]. split; [done|]. by rewrite Hu.
    + right. split; [done|]. split; [by right|]. split; [by right|]. done.
  - right. split; [done|]. split; [by left|]. split; [by right|]. intros _ _ x Hx Hfree.
    unfold tasfa_queue_try_enter in Ee. destruct (find_index _ swept) eqn:Efi; [done|].
    apply find_index_none in Efi. rewrite Forall_forall in Efi. specialize (Efi x Hx).
    apply bool_decide_eq_false in Efi. done.
Qed.
End init.

(** ** Renegotiation keeps the window in bounds *)

Lemma window_bounds cfg mobile score :
  let w := choose_upload_window cfg mobile score in
  1 <= w_initial w <= w_max w /\ w_max w <= tasfa_upload_parallel_limit cfg.
Proof.
  cbv zeta. pose proof (choose_upload_window_eq cfg mobile score) as He.
  assert (Hl : tasfa_upload_parallel_limit cfg = Z.min 48 (Z.max 1 cfg)).
  { unfold tasfa_upload_parallel_limit, TASFA_UPLOAD_MAX_PARALLEL.
    destruct (Z.ltb_spec cfg 1); [simpl; lia|]. destruct (Z.ltb_spec 48 cfg); lia. }
  rewrite Hl. destruct (45 <=? score); [|destruct (25 <=? score); [|destruct (10 <=? score)]];
    cbv zeta in He; rewrite He; cbn [w_initial w_max]; lia.
Qed.

Lemma renegotiate_window_spec cfg mobile score suggested c m :
  1 <= c < 2 ^ 27 ->
  let limit := tasfa_upload_parallel_limit cfg in
  let '(c', m') := renegotiate_window limit (choose_upload_window cfg mobile score) suggested (Some c) m in
  1 <= c' <= m' /\ m' <= limit /\ Z.min m' (c * 9 / 10) <= c' /\
  (1 <= suggested <= m' -> c' = Z.min m' (Z.max suggested (c * 9 / 10))).
Proof.
  intros Hc. cbv zeta. pose proof (window_bounds cfg mobile score) as Hw. cbv zeta in Hw.
  set (w := choose_upload_window cfg mobile score) in *. unfold renegotiate_window.
  cbn [default from_option]. unfold Datatypes.id. cbv zeta.
  rewrite (i32_small (c * 9)) by lia. rewrite Z.quot_div_nonneg by lia.
  set (limit := tasfa_upload_parallel_limit cfg) in *.
  set (low := c * 9 / 10). assert (0 <= low) by (apply Z.div_pos; lia).
  generalize (from_option (fun x => x) (w_max w) m). intros cm.
  assert (Hm : w_max w <= renegotiate_max limit (w_max w) cm <= limit).
  { unfold renegotiate_max. destruct (Z.ltb_spec cm limit), (Z.ltb_spec (w_max w) cm); cbn [andb];
      repeat (match goal with |- context [?a <? ?b] => destruct (Z.ltb_spec a b) end); lia. }
  set (k := renegotiate_max limit (w_max w) cm) in *.
  unfold clamp_int.
  destruct (Z.ltb_spec 0 suggested), (Z.ltb_spec suggested 1), (Z.ltb_spec k suggested); try lia;
    repeat (match goal with
            | |- context [?a <? (if ?p <? ?q then _ else _)] => destruct (Z.ltb_spec p q)
            | |- context [if ?a <? ?b then _ else _] => destruct (Z.ltb_spec a b)
            end); lia.
Qed.

(** A renegotiation with the session's token stores a window of at least one chunk and at
    most the configured limit, never takes more than a tenth off the current parallelism unless
    the limit asks for it, takes a suggestion it allows, and leaves the received chunks alone;
    with another token it is refused and nothing changes. *)
Theorem renegotiate_bounds {ctx} cfg mobile score rtt suggested id token (s : server (ctx := ctx)) d c m :
  is_safe_segment (Some id) = true -> load_session id s = Some d ->
  m_current_parallel (d_meta d) = Some c -> m_max_parallel (d_meta d) = Some m -> 1 <= c < 2 ^ 27 ->
  let '(r, s') := handler_file_upload_renegotiate cfg mobile score rtt suggested (Some id) (Some token) s in
  (token <> d_upload_token d -> rp_status r = 403 /\ s' = s) /\
  (token = d_upload_token d -> rp_status r = 200 /\ sv_files s' = sv_files s /\
     exists d' c' m', load_session id s' = Some d' /\
       m_current_parallel (d_meta d') = Some c' /\ m_max_parallel (d_meta d') = Some m' /\
       1 <= c' <= m' /\ m' <= tasfa_upload_parallel_limit cfg /\ Z.min m' (c * 9 / 10) <= c' /\
       (1 <= read_int suggested <= m' -> c' = Z.min m' (Z.max (read_int suggested) (c * 9 / 10))) /\
       m_received_bitmap (d_meta d') = m_received_bitmap (d_meta d)).
Proof.
  intros Hsafe Hload Hcur Hmax Hc. unfold handler_file_upload_renegotiate, session_for.
  rewrite Hsafe, Hload. cbn [negb]. unfold secure_str_eq.
  destruct (streq token (d_upload_token d)) eqn:Etok; cbn [negb].
  2: { apply streq_neq in Etok. by split. }
  apply streq_eq in Etok. rewrite Hcur, Hmax.
  pose proof (renegotiate_window_spec cfg mobile score (read_int suggested) c (Some m) Hc) as Hw.
  cbv zeta in Hw.
  destruct (renegotiate_window _ _ _ _ _) as [c' m']. destruct Hw as (H1 & H2 & H3 & H4).
  split; [done|]. intros _. split; [done|]. split; [done|].
  unfold load_session in Hload. destruct (sv_docs s !! id) as [d0|] eqn:Ed; [|done].
  unfold load_upload_session in Hload. cbv zeta.
  unfold load_session. cbn [save_upload_session save_upload_session_state with_docs with_states
    sv_docs sv_states sv_files]. rewrite !lookup_insert_eq.
  unfold load_upload_session. cbn [d_meta doc_with_link doc_with_meta meta_with_window m_chunk_count].
  eexists _, c', m'. split; [reflexivity|].
  assert (Hcc : m_chunk_count (d_meta d) = m_chunk_count (d_meta d0)).
  { injection Hload as <-. destruct (load_upload_session_state_bin _ _ _), (sv_states s !! id); done. }
  rewrite Hcc.
  destruct (load_upload_session_state_bin id (m_chunk_count (d_meta d0)) (sv_files s)) as [b|] eqn:Eb;
    cbn; (split; [done|]); (split; [done|]); (split; [done|]); (split; [done|]); (split; [done|]);
    (split; [done|]); [|done].
  injection Hload as <-. by destruct (sv_states s !! id).
Qed.

(** ** A small session: five bytes in one chunk, one parity chunk *)

Section example.
Definition ex_id : cstr := CS "0123456789abcdef".
Definition ex_token : cstr := CS "secret".

Definition ex_init : init_request :=
  InitRequest (Some 7) (Some (CS "a.txt")) None (Some (CS "5")) None None None false 50 0%Q.
Definition ex_env : init_env :=
  InitEnv 1000 true (Some ex_id) true (Some ([1; 2], replicate 12 3, ex_token, CS "x")) 17 None true.

Definition ex_mb : meta_bin := init_mbin ex_init ex_env 7 ex_id ex_token (CS "x") [1; 2] (replicate 12 3).

#[local] Abbreviation server := (server (ctx := list Z)).

Definition ex_empty : server := Server ∅ ∅ ∅ ∅ cache_init [no_slot; no_slot] [].
Definition ex_server : server := (handler_file_upload_init (2 ^ 40) 48 ex_init ex_env ex_empty).2.

Lemma ex_cache_fresh p (sl : cache_slot (A := meta_bin)) : cache_init !! p = Some sl -> cs_valid sl = false /\ cs_key sl <> ex_id.
Proof. unfold cache_init. intros H. apply lookup_replicate in H as [-> _]. by split. Qed.

Lemma ex_geometry : good_geometry 5 9437184.
Proof.
  unfold good_geometry. assert ((5 + 9437184 - 1) / 9437184 = 1) as -> by reflexivity. lia.
Qed.

Lemma ex_meta_ok : meta_ok ex_id ex_mb.
Proof.
  split; [exact ex_geometry| |done|split; [reflexivity|apply Nat.leb_le; reflexivity]].
  exists false. vm_compute. reflexivity.
Qed.

Lemma ex_session_ok : session_ok ex_id ex_mb ex_server ∅.
Proof.
  split.
  - vm_compute. reflexivity.
  - intros p sl Hp Hv. assert (Hc : sv_cache ex_server = cache_init) by reflexivity.
    rewrite Hc in Hp. apply ex_cache_fresh in Hp as [? _]. congruence.
  - assert (Hf : sv_files ex_server = (save_upload_session_state_bin ex_id (mb_chunk_count ex_mb)
       (Some (replicate (Z.to_nat (mb_chunk_count ex_mb)) zero))
       (<[upload_session_temp_path ex_id := replicate (Z.to_nat (mb_total_size ex_mb)) 0]> ∅)).2)
      by (vm_compute; reflexivity).
    rewrite Hf. apply fresh_files_ok; [done|vm_compute; discriminate..].
  - eexists. split; [vm_compute; reflexivity|]. split; vm_compute; reflexivity.
Qed.

Definition ex_chunk : chunk_request :=
  ChunkRequest (Some ex_id) (Some ex_token) None (Some (CS "0")) None None None None None [1; 2; 3; 4; 5].
End example.

Lemma upload_init_all_or_nothing_witness :
  exists b, (handler_file_upload_init (2 ^ 40) 48 ex_init ex_env ex_empty).1 = Some (Reply 200 b).
Proof.
  pose proof (upload_init_all_or_nothing (2 ^ 40) 48 ex_init ex_env ex_empty ex_id
    ltac:(vm_compute; split; [reflexivity|discriminate]) eq_refl eq_refl ltac:(apply Nat.leb_le; reflexivity)
    ltac:(apply (bool_decide_unpack _); vm_compute; exact I) (fun p sl H => proj2 (ex_cache_fresh p sl H))) as H.
  rewrite (surjective_pairing (handler_file_upload_init _ _ _ _ _)) in H.
  destruct H as [(H & _)|(H & _)]; [exact H|].
  exfalso. eapply H. vm_compute. reflexivity.
Defined.

Lemma upload_refines_map_witness :
  exists M', session_ok ex_id ex_mb
    (handler_file_upload [] app toy_codecs toy_gcm 1001 [5] ex_chunk ex_server).2 M' /\
    M' !! 0 = Some [1; 2; 3; 4; 5].
Proof.
  pose proof (upload_refines_map [] app toy_codecs toy_gcm ex_id ex_mb ex_meta_ok 1001 [5] ex_chunk
    ex_server ∅ ex_session_ok eq_refl) as H.
  rewrite (surjective_pairing (handler_file_upload _ _ _ _ _ _ _ _)) in H.
  destruct H as (M' & Hs & _ & Hacc). exists M'. split; [exact Hs|].
  destruct (Hacc 0 [1; 2; 3; 4; 5]) as [_ HM].
  - split; [reflexivity|]. split; [vm_compute; split; [discriminate|reflexivity]|]. by exists (CS "0").
  - vm_compute. reflexivity.
  - exists [1; 2; 3; 4; 5]. by split.
  - split; [by repeat constructor|]. vm_compute. discriminate.
  - rewrite HM by reflexivity. apply lookup_insert_eq.
Defined.

Lemma renegotiate_bounds_witness :
  rp_status (handler_file_upload_renegotiate 48 false 10 0%Q (Some (CS "20")) (Some ex_id) (Some ex_token)
               ex_server).1 = 200.
Proof.
  pose proof (renegotiate_bounds 48 false 10 0%Q (Some (CS "20")) ex_id ex_token ex_server _ 32 48
    eq_refl eq_refl eq_refl eq_refl ltac:(lia)) as H.
  rewrite (surjective_pairing (handler_file_upload_renegotiate _ _ _ _ _ _ _ _)) in H.
  exact (proj1 (proj2 H eq_refl)).
Defined.
