(* ===== verification/Recover.v ===== *)
(** * Recovery of missing chunks at completion
    (src/src/handlers/tasfa/upload.c, the FEC loop of [tasfa_finalize_session_process])

    Group by group the missing data chunks are rebuilt from the parity chunks that arrived and
    marked as received.  The theorem puts the recovery functions of Fec.v and the sessions of
    Upload.v together: when every group has lost no more than its code can repair, the
    temporary file ends up as the file the client sent. *)
From Stdlib Require Import FinFun.
From S2P Require Import Prelude CStr Gf256 Files Fec TasfaCommon SlotCache Crypto Session Upload.

(** ** The loop *)

Record fec_state := FecState {
  fe_bitmap : list Z;           (* mutable_bitmap *)
  fe_files : fs;
  fe_recovered_any : bool;
}.

#[local] Opaque count_data_chunks.

Section loop.
Context (upload_id temp_path : cstr) (chunk_size data_chunks total_size chunk_count : Z).

Definition bit_at (bitmap : list Z) (ci : Z) : Z := nth (Z.to_nat ci) bitmap 0.

Definition group_start (g : Z) : Z := g * 6.
Definition group_end (g : Z) : Z :=
  if data_chunks <? group_start g + 6 then data_chunks else group_start g + 6.

(** [for (ci = group_start; ci < group_end; ci++) if (mutable_bitmap[ci] == '0')]: the code keeps
    the count and the first two indices (rs2) or the last one (xor1). *)
Definition missing_in (bitmap : list Z) (g : Z) : list Z :=
  List.filter (fun ci => bit_at bitmap ci =? zero)
    (map (fun k => group_start g + Z.of_nat k) (seq 0 (Z.to_nat (group_end g - group_start g)))).

Definition received_bit (bitmap : list Z) (ci : Z) : bool := bit_at bitmap ci =? one.

Definition mark_recovered (ci : Z) (s : fec_state) : fec_state :=
  FecState (<[Z.to_nat ci := one]> (fe_bitmap s))
    (mark_chunk_received_in_session_state upload_id ci (fe_files s)).2 true.

Definition fec_group_rs2 (g : Z) (s : fec_state) : fec_state :=
  let b := fe_bitmap s in
  let missing := missing_in b g in
  let parity0_idx := data_chunks + 2 * g in
  let parity1_idx := data_chunks + 2 * g + 1 in
  let parity0_received := (parity0_idx <? chunk_count) && received_bit b parity0_idx in
  let parity1_received := (parity1_idx <? chunk_count) && received_bit b parity1_idx in
  let recover a b' p1 :=
    perform_rs_recovery upload_id temp_path chunk_size (group_start g) (group_end g) data_chunks
      total_size (fe_files s) a b' parity0_idx p1 in
  match missing with
  | [a] =>
      if parity0_received then
        let '(ok, f) := recover a (-1) (-1) in
        if ok : bool then mark_recovered a (FecState b f (fe_recovered_any s))
        else FecState b f (fe_recovered_any s)
      else s
  | [a; b'] =>
      if parity0_received && parity1_received then
        let '(ok, f) := recover a b' parity1_idx in
        if ok : bool then mark_recovered b' (mark_recovered a (FecState b f (fe_recovered_any s)))
        else FecState b f (fe_recovered_any s)
      else s
  | _ => s
  end.

Definition fec_group_xor1 (g : Z) (s : fec_state) : fec_state :=
  let b := fe_bitmap s in
  let parity_idx := data_chunks + g in
  match missing_in b g with
  | [a] =>
      if received_bit b parity_idx then
        let '(ok, f) :=
          perform_xor_recovery upload_id temp_path chunk_size (group_start g) (group_end g)
            data_chunks total_size (fe_files s) a parity_idx in
        if ok : bool then mark_recovered a (FecState b f (fe_recovered_any s))
        else FecState b f (fe_recovered_any s)
      else s
  | _ => s
  end.

(** The mode is derived from the stored counts. *)
Definition fec_groups : Z := Z.quot (data_chunks + 5) 6.
Definition fec_rs2 : bool := chunk_count =? data_chunks + 2 * fec_groups.

Definition fec_recover (bitmap : list Z) (f : fs) : fec_state :=
  foldl (fun s g => if fec_rs2 then fec_group_rs2 (Z.of_nat g) s else fec_group_xor1 (Z.of_nat g) s)
    (FecState bitmap f false) (seq 0 (Z.to_nat fec_groups)).
End loop.

(** ** What the loop keeps *)

Lemma pread_ext a b off n :
  (forall i, (i < n)%nat -> a !! (off + i)%nat = b !! (off + i)%nat) -> pread a off n = pread b off n.
Proof.
  intros H. apply list_eq. intros i. destruct (decide (i < n)%nat) as [Hi|Hi].
  - rewrite !lookup_pread by done. by apply H.
  - rewrite !lookup_ge_None_2; [done|..]; rewrite length_pread; lia.
Qed.

Section recover.
Context (id : cstr) (orig : list Z) (chunk_size chunk_count : Z) (rs2 : bool).
#[local] Abbreviation total := (zlen orig).
#[local] Abbreviation temp := (upload_session_temp_path id).
#[local] Abbreviation dc := (count_data_chunks total chunk_size).
#[local] Abbreviation groups := ((dc + 5) / 6).

Context (Hid : (length id <= 64)%nat) (Hg : good_geometry total chunk_size).
Context (Hcount : chunk_count = dc + (if rs2 then 2 else 1) * groups).
Context (Hbytes : Forall is_byte orig).

Lemma dc_bounds : 1 <= dc < 2 ^ 30 /\ (dc - 1) * chunk_size < total <= dc * chunk_size /\ 0 < groups <= dc.
Proof.
  destruct (count_data_chunks_spec _ _ Hg) as (Hn & _ & Hl). split; [done|]. split; [done|].
  apply (count_parity_chunks_spec rs2). done.
Qed.

(** The number of data chunks of a group. *)
Definition group_len (g : Z) : nat := Z.to_nat (group_end dc g - group_start g).

(** The parity chunk [k] as the client computes it. *)
Definition parity_row (k : Z) : list Z :=
  if rs2 then
    let rows := rs_encode orig chunk_size (group_start (k / 2)) (group_len (k / 2)) in
    if k mod 2 =? 0 then rows.1 else rows.2
  else default [] (xor_encode orig chunk_size (group_start k) (group_len k)).

(** Every chunk the bitmap counts is in place: data in the file, parity in its own file. *)
Record fec_inv (b : list Z) (f : fs) : Prop := {
  fi_len : zlen b = chunk_count;
  fi_bits : forall ci, 0 <= ci < chunk_count -> bit_at b ci = zero \/ bit_at b ci = one;
  fi_state : f !! upload_session_state_bin_path id = Some b;
  fi_temp : exists t, f !! temp = Some t /\ length t = length orig /\
    forall ci i, 0 <= ci < dc -> bit_at b ci = one -> in_chunk orig chunk_size ci i -> t !! i = orig !! i;
  fi_parity : forall k, 0 <= k < chunk_count - dc -> bit_at b (dc + k) = one ->
    f !! parity_path id k = Some (parity_row k);
}.

(** The file may change where no received chunk lies. *)
Lemma fec_inv_temp b f t' : fec_inv b f -> length t' = length orig ->
  (forall ci i, 0 <= ci < dc -> bit_at b ci = one -> in_chunk orig chunk_size ci i -> t' !! i = orig !! i) ->
  fec_inv b (<[temp := t']> f).
Proof.
  intros [Hl Hb Hs Ht Hp] Hlen Hin. split; [done|done| | |].
  - by rewrite lookup_insert_ne by apply temp_ne_state.
  - exists t'. by rewrite lookup_insert_eq.
  - intros k Hk Hbit. rewrite lookup_insert_ne by (intros E; symmetry in E; by apply parity_ne_temp in E).
    by apply Hp.
Qed.

Lemma bit_insert b ci cj : 0 <= ci < zlen b -> 0 <= cj ->
  bit_at (<[Z.to_nat ci := one]> b) cj = if decide (cj = ci) then one else bit_at b cj.
Proof.
  intros Hci Hcj. unfold bit_at, zlen in *. rewrite !nth_lookup. case_decide as Hd.
  - subst cj. by rewrite list_lookup_insert_eq by lia.
  - by rewrite list_lookup_insert_ne by lia.
Qed.

Lemma mark_files ci b f : f !! upload_session_state_bin_path id = Some b -> 0 <= ci < zlen b ->
  (mark_chunk_received_in_session_state id ci f).2
  = <[upload_session_state_bin_path id := <[Z.to_nat ci := one]> b]> f.
Proof.
  intros Hb Hci. unfold mark_chunk_received_in_session_state. rewrite Hb.
  destruct (Z.ltb_spec ci 0); [lia|]. cbn [snd]. unfold zlen in Hci. by rewrite pwrite_1 by lia.
Qed.

(** Marking a data chunk whose bytes are in the file. *)
Lemma fec_inv_mark s ci t : fec_inv (fe_bitmap s) (fe_files s) -> 0 <= ci < dc ->
  fe_files s !! temp = Some t -> (forall i, in_chunk orig chunk_size ci i -> t !! i = orig !! i) ->
  let s' := mark_recovered id ci s in
  fec_inv (fe_bitmap s') (fe_files s') /\ fe_files s' !! temp = Some t /\
  (forall cj, 0 <= cj < chunk_count -> bit_at (fe_bitmap s') cj
     = if decide (cj = ci) then one else bit_at (fe_bitmap s) cj).
Proof.
  intros Hinv Hci Ht Hin s'. pose proof Hinv as [Hl Hb Hs (t' & Ht' & Hlen & Hd) Hp].
  pose proof dc_bounds. assert (Hcc : dc <= chunk_count) by (destruct rs2; lia).
  assert (Hz : 0 <= ci < zlen (fe_bitmap s)) by lia.
  assert (Htemp : fe_files s' !! temp = Some t).
  { unfold s', mark_recovered. cbn [fe_files].
    rewrite (mark_files ci _ _ Hs) by done.
    rewrite lookup_insert_ne; [done|]. intros E. symmetry in E. by apply temp_ne_state in E. }
  assert (Hbits : forall cj, 0 <= cj -> bit_at (fe_bitmap s') cj
     = if decide (cj = ci) then one else bit_at (fe_bitmap s) cj).
  { intros cj Hcj. unfold s', mark_recovered. cbn [fe_bitmap]. by apply bit_insert. }
  split; [|split; [done|intros; apply Hbits; lia]].
  rewrite Ht in Ht'. injection Ht' as <-. split.
  - unfold s', mark_recovered. cbn [fe_bitmap]. unfold zlen. by rewrite length_insert.
  - intros cj Hcj. rewrite Hbits by lia. case_decide; [by right|by apply Hb].
  - unfold s', mark_recovered. cbn [fe_files fe_bitmap]. rewrite (mark_files ci _ _ Hs) by done.
    apply lookup_insert_eq.
  - exists t. split; [done|]. split; [done|]. intros cj i Hcj Hbit Hi. rewrite Hbits in Hbit by lia.
    case_decide; [subst cj; by apply Hin|by apply (Hd cj)].
  - intros k Hk Hbit. rewrite Hbits in Hbit by lia. case_decide; [lia|].
    unfold s', mark_recovered. cbn [fe_files]. rewrite (mark_files ci _ _ Hs) by done.
    rewrite lookup_insert_ne; [by apply Hp|].
    intros E. symmetry in E. by apply parity_ne_state in E.
Qed.

(** ** One group *)

Lemma group_facts g : 0 <= g < groups ->
  (1 <= group_len g <= 6)%nat /\ group_end dc g = group_start g + Z.of_nat (group_len g) /\
  0 <= group_start g /\ group_start g + Z.of_nat (group_len g) <= dc /\
  (group_start g + Z.of_nat (group_len g) - 1) * chunk_size < total.
Proof.
  intros Hgr. pose proof dc_bounds as (Hn & Hl & _).
  assert (6 * g < dc) by (Z.div_mod_to_equations; lia).
  unfold group_len, group_end, group_start. destruct (Z.ltb_spec dc (g * 6 + 6)).
  - repeat split; lia.
  - repeat split; try lia. assert (0 < chunk_size) by (destruct Hg; lia). nia.
Qed.

Lemma missing_in_spec b g ci : In ci (missing_in dc b g) <->
  bit_at b ci = zero /\ exists u, (u < group_len g)%nat /\ ci = group_start g + Z.of_nat u.
Proof.
  unfold missing_in. rewrite filter_In, in_map_iff, Z.eqb_eq. unfold group_len. split.
  - intros ((u & <- & Hu) & Hz). apply in_seq in Hu. split; [done|]. exists u. split; [lia|done].
  - intros (Hz & u & Hu & ->). split; [|done]. exists u. split; [done|]. apply in_seq. lia.
Qed.

Lemma missing_in_nodup b g : List.NoDup (missing_in dc b g).
Proof.
  apply List.NoDup_filter, Injective_map_NoDup, List.seq_NoDup. intros x y. lia.
Qed.

(** Only the listed chunks of a group are missing; the others are in the file. *)
Lemma group_present b f g t (missing : nat -> bool) : fec_inv b f -> 0 <= g < groups ->
  f !! temp = Some t ->
  (forall u, (u < group_len g)%nat -> missing u = false ->
     ~ In (group_start g + Z.of_nat u) (missing_in dc b g)) ->
  present_ok orig chunk_size (group_start g) t missing (group_len g).
Proof.
  intros [Hl Hb _ (t' & Ht' & _ & Hd) _] Hgr Ht Hmiss u Hu Hm.
  destruct (group_facts g Hgr) as (Hlen & _ & Hgs & Hdc & _). pose proof dc_bounds as (Hn & _).
  assert (Hcs : 0 < chunk_size) by (destruct Hg; lia).
  rewrite Ht in Ht'. injection Ht' as <-. set (ci := group_start g + Z.of_nat u).
  assert (Hci : 0 <= ci < dc) by lia. assert (Hcc : dc <= chunk_count) by (destruct rs2; lia).
  assert (Hone : bit_at b ci = one).
  { destruct (Hb ci ltac:(lia)) as [Hz|]; [|done]. exfalso. apply (Hmiss u Hu Hm).
    apply missing_in_spec. eauto. }
  unfold slot_data. apply pread_ext. intros i Hi. apply (Hd ci); [done|done|].
  fold ci in Hi. fold ci. unfold in_chunk. assert (0 <= ci * chunk_size) by nia. lia.
Qed.

(** A group whose losses its code can repair. *)
Definition repairable (b : list Z) (g : Z) : Prop :=
  if rs2 then
    match missing_in dc b g with
    | [] => True
    | [_] => bit_at b (dc + 2 * g) = one
    | [_; _] => bit_at b (dc + 2 * g) = one /\ bit_at b (dc + 2 * g + 1) = one
    | _ => False
    end
  else
    match missing_in dc b g with
    | [] => True
    | [_] => bit_at b (dc + g) = one
    | _ => False
    end.

(** The loop body, for this session. *)
Definition group_step (g : Z) (s : fec_state) : fec_state :=
  if rs2 then fec_group_rs2 id temp chunk_size dc total chunk_count g s
  else fec_group_xor1 id temp chunk_size dc total g s.

Definition in_group (g ci : Z) : Prop :=
  exists u, (u < group_len g)%nat /\ ci = group_start g + Z.of_nat u.

(** After the body the group is complete and nothing else has changed. *)
Definition group_done (g : Z) (s s' : fec_state) : Prop :=
  fec_inv (fe_bitmap s') (fe_files s') /\
  forall ci, 0 <= ci < chunk_count ->
    (in_group g ci -> bit_at (fe_bitmap s') ci = one) /\
    (~ in_group g ci -> bit_at (fe_bitmap s') ci = bit_at (fe_bitmap s) ci).

Lemma group_done_none g s : fec_inv (fe_bitmap s) (fe_files s) -> 0 <= g < groups ->
  missing_in dc (fe_bitmap s) g = [] -> group_done g s s.
Proof.
  intros Hinv Hgr Hm. split; [done|]. intros ci Hci. split; [|done]. intros Hin.
  destruct Hinv as [_ Hb _ _ _]. destruct (Hb ci Hci) as [Hz|]; [|done].
  assert (Hx : In ci (missing_in dc (fe_bitmap s) g)) by (by apply missing_in_spec).
  by rewrite Hm in Hx.
Qed.

(** One rebuilt chunk. *)
Lemma group_done_one g s u t t' : fec_inv (fe_bitmap s) (fe_files s) -> 0 <= g < groups ->
  (u < group_len g)%nat -> missing_in dc (fe_bitmap s) g = [group_start g + Z.of_nat u] ->
  fe_files s !! temp = Some t -> length t' = length orig ->
  (forall i, t' !! i = if decide (in_chunk orig chunk_size (group_start g + Z.of_nat u) i)
                       then orig !! i else t !! i) ->
  group_done g s (mark_recovered id (group_start g + Z.of_nat u)
                    (FecState (fe_bitmap s) (<[temp := t']> (fe_files s)) (fe_recovered_any s))).
Proof.
  intros Hinv Hgr Hu Hm Ht Hlen Hbytes'. set (a := group_start g + Z.of_nat u) in *.
  destruct (group_facts g Hgr) as (_ & _ & Hgs & Hdc & _).
  pose proof Hinv as [Hl Hb Hs (t0 & Ht0 & _ & Hd) Hp]. rewrite Ht in Ht0. injection Ht0 as <-.
  assert (Hinv' : fec_inv (fe_bitmap s) (<[temp := t']> (fe_files s))).
  { apply fec_inv_temp; [done|done|]. intros ci i Hci Hbit Hi. rewrite Hbytes'.
    case_decide; [done|by apply (Hd ci)]. }
  destruct (fec_inv_mark (FecState (fe_bitmap s) (<[temp := t']> (fe_files s)) (fe_recovered_any s)) a t')
    as (H1 & _ & H3); [done|lia|apply lookup_insert_eq| |].
  { intros i Hi. rewrite Hbytes'. by case_decide. }
  split; [exact H1|]. intros ci Hci. rewrite H3 by done. cbn [fe_bitmap]. split.
  - intros Hin. case_decide as Hd'; [done|]. destruct (Hb ci Hci) as [Hz|]; [|done].
    assert (Hx : In ci (missing_in dc (fe_bitmap s) g)) by (by apply missing_in_spec).
    rewrite Hm in Hx. destruct Hx as [Hx|[]]. congruence.
  - intros Hout. case_decide as Hd'; [|done]. destruct Hout. by exists u.
Qed.

(** Two rebuilt chunks. *)
Lemma group_done_two g s u v t t' : fec_inv (fe_bitmap s) (fe_files s) -> 0 <= g < groups ->
  (u < group_len g)%nat -> (v < group_len g)%nat ->
  missing_in dc (fe_bitmap s) g = [group_start g + Z.of_nat u; group_start g + Z.of_nat v] ->
  fe_files s !! temp = Some t -> length t' = length orig ->
  (forall i, t' !! i = if decide (in_chunk orig chunk_size (group_start g + Z.of_nat u) i \/
                                  in_chunk orig chunk_size (group_start g + Z.of_nat v) i)
                       then orig !! i else t !! i) ->
  group_done g s
    (mark_recovered id (group_start g + Z.of_nat v) (mark_recovered id (group_start g + Z.of_nat u)
       (FecState (fe_bitmap s) (<[temp := t']> (fe_files s)) (fe_recovered_any s)))).
Proof.
  intros Hinv Hgr Hu Hv Hm Ht Hlen Hbytes'.
  set (a := group_start g + Z.of_nat u) in *. set (b := group_start g + Z.of_nat v) in *.
  destruct (group_facts g Hgr) as (_ & _ & Hgs & Hdc & _).
  pose proof Hinv as [Hl Hb Hs (t0 & Ht0 & _ & Hd) Hp]. rewrite Ht in Ht0. injection Ht0 as <-.
  set (s0 := FecState (fe_bitmap s) (<[temp := t']> (fe_files s)) (fe_recovered_any s)).
  assert (Hinv' : fec_inv (fe_bitmap s0) (fe_files s0)).
  { apply fec_inv_temp; [done|done|]. intros ci i Hci Hbit Hi. rewrite Hbytes'.
    case_decide; [done|by apply (Hd ci)]. }
  destruct (fec_inv_mark s0 a t') as (H1 & T1 & B1); [done|lia|apply lookup_insert_eq| |].
  { intros i Hi. rewrite Hbytes'. case_decide; [done|tauto]. }
  destruct (fec_inv_mark (mark_recovered id a s0) b t') as (H2 & _ & B2); [done|lia|done| |].
  { intros i Hi. rewrite Hbytes'. case_decide; [done|tauto]. }
  split; [exact H2|]. intros ci Hci. rewrite B2, B1 by done. unfold s0. cbn [fe_bitmap]. split.
  - intros Hin. case_decide; [done|]. case_decide; [done|]. destruct (Hb ci Hci) as [Hz|]; [|done].
    assert (Hx : In ci (missing_in dc (fe_bitmap s) g)) by (by apply missing_in_spec).
    rewrite Hm in Hx. destruct Hx as [Hx|[Hx|[]]]; congruence.
  - intros Hout. case_decide; [destruct Hout; by exists v|]. case_decide; [|done].
    destruct Hout. by exists u.
Qed.

(** The listed chunks are slots of the group. *)
Lemma missing_slot b g ci l : missing_in dc b g = l -> In ci l ->
  exists u, (u < group_len g)%nat /\ ci = group_start g + Z.of_nat u.
Proof. intros <- Hin. by apply missing_in_spec in Hin as [_ ?]. Qed.

Lemma not_in_one (a x : Z) : x <> a -> ~ In x [a].
Proof. intros H [?|[]]. congruence. Qed.
Lemma not_in_two (a b x : Z) : x <> a -> x <> b -> ~ In x [a; b].
Proof. intros H1 H2 [?|[?|[]]]; congruence. Qed.

Lemma parity_row_rs2 g : 0 <= g -> rs2 = true ->
  parity_row (2 * g) = (rs_encode orig chunk_size (group_start g) (group_len g)).1 /\
  parity_row (2 * g + 1) = (rs_encode orig chunk_size (group_start g) (group_len g)).2.
Proof.
  intros Hgr Hrs. unfold parity_row. rewrite Hrs.
  replace (2 * g / 2) with g by (Z.div_mod_to_equations; lia).
  replace ((2 * g) mod 2) with 0 by (Z.div_mod_to_equations; lia).
  replace ((2 * g + 1) / 2) with g by (Z.div_mod_to_equations; lia).
  by replace ((2 * g + 1) mod 2) with 1 by (Z.div_mod_to_equations; lia).
Qed.

(** An rs2 group with at most two losses, each with its parity, is repaired. *)
Lemma group_step_rs2 g s : rs2 = true -> fec_inv (fe_bitmap s) (fe_files s) -> 0 <= g < groups ->
  repairable (fe_bitmap s) g -> group_done g s (group_step g s).
Proof.
  intros Hrs Hinv Hgr Hrep. assert (Hc : chunk_count = dc + 2 * groups) by (by rewrite Hcount, Hrs).
  unfold group_step, repairable in *. rewrite Hrs in Hrep |- *.
  pose proof Hinv as [Hl Hb Hs (t & Ht & Htl & Hd) Hp].
  destruct (group_facts g Hgr) as (Hlen & Hend & Hgs & Hdc & Hlast).
  assert (Hcs : 0 < chunk_size) by (destruct Hg; lia).
  destruct (parity_row_rs2 g ltac:(lia) Hrs) as [Hrow0 Hrow1].
  unfold fec_group_rs2. cbv zeta.
  assert (Hlt : (dc + 2 * g <? chunk_count) && (dc + 2 * g + 1 <? chunk_count) = true).
  { apply andb_true_intro; split; apply Z.ltb_lt; lia. }
  apply andb_prop in Hlt as [-> ->]. cbn [andb].
  pose proof (missing_in_nodup (fe_bitmap s) g) as Hnd.
  destruct (missing_in dc (fe_bitmap s) g) as [|a [|b [|? ?]]] eqn:Em; [by apply group_done_none| | |done].
  - destruct (missing_slot _ _ a _ Em ltac:(by left)) as (u & Hu & ->).
    unfold received_bit. rewrite Hrep, Z.eqb_refl.
    destruct (rs_recovery_one orig chunk_size (group_start g) (group_len g) Hcs Hgs Hbytes ltac:(lia) Hlast
      id temp (fe_files s) t dc Ht Htl u (-1) (dc + 2 * g) (-1)) as (t' & Hrec & Hl' & Hb');
      [done|lia| | |].
    + unfold parity_ok. replace (dc + 2 * g - dc) with (2 * g) by lia. rewrite <- Hrow0.
      apply Hp; [lia|exact Hrep].
    + eapply group_present; [done..|]. intros w Hw Hne. rewrite Em. apply not_in_one.
      apply Nat.eqb_neq in Hne. lia.
    + rewrite Hend, Hrec. by apply group_done_one with t.
  - destruct (missing_slot _ _ a _ Em ltac:(by left)) as (u & Hu & ->).
    destruct (missing_slot _ _ b _ Em ltac:(by right; left)) as (v & Hv & ->).
    destruct Hrep as [Hp0 Hp1]. unfold received_bit. rewrite Hp0, Hp1, Z.eqb_refl. cbn [andb].
    assert (Huv : u <> v).
    { intros ->. inversion Hnd as [|? ? Hni _]; subst. apply Hni. by left. }
    destruct (rs_recovery_two orig chunk_size (group_start g) (group_len g) Hcs Hgs Hbytes ltac:(lia) Hlast
      id temp (fe_files s) t dc Ht Htl u v (dc + 2 * g) (dc + 2 * g + 1)) as (t' & Hrec & Hl' & Hb');
      [done|done|done| | | |].
    + unfold parity_ok. replace (dc + 2 * g - dc) with (2 * g) by lia. rewrite <- Hrow0.
      apply Hp; [lia|exact Hp0].
    + unfold parity_ok. replace (dc + 2 * g + 1 - dc) with (2 * g + 1) by lia. rewrite <- Hrow1.
      apply Hp; [lia|].
      by replace (dc + (2 * g + 1)) with (dc + 2 * g + 1) by lia.
    + eapply group_present; [done..|]. intros w Hw Hne. rewrite Em.
      apply orb_false_iff in Hne as [H1 H2]. apply Nat.eqb_neq in H1, H2. apply not_in_two; lia.
    + rewrite Hend, Hrec. by apply group_done_two with t.
Qed.

(** An xor1 group with at most one loss and its parity is repaired. *)
Lemma group_step_xor1 g s : rs2 = false -> fec_inv (fe_bitmap s) (fe_files s) -> 0 <= g < groups ->
  repairable (fe_bitmap s) g -> group_done g s (group_step g s).
Proof.
  intros Hrs Hinv Hgr Hrep. assert (Hc : chunk_count = dc + 1 * groups) by (by rewrite Hcount, Hrs).
  unfold group_step, repairable in *. rewrite Hrs in Hrep |- *.
  pose proof Hinv as [Hl Hb Hs (t & Ht & Htl & Hd) Hp].
  destruct (group_facts g Hgr) as (Hlen & Hend & Hgs & Hdc & Hlast).
  assert (Hcs : 0 < chunk_size) by (destruct Hg; lia).
  unfold fec_group_xor1. cbv zeta.
  destruct (missing_in dc (fe_bitmap s) g) as [|a [|? ?]] eqn:Em; [by apply group_done_none| |done].
  destruct (missing_slot _ _ a _ Em ltac:(by left)) as (u & Hu & ->).
  unfold received_bit. rewrite Hrep, Z.eqb_refl.
  destruct (xor_encode_spec orig chunk_size (group_start g) (group_len g) Hcs ltac:(lia) t Htl (group_len g))
    as (p & Hpe & _ & _); [lia|].
  destruct (xor_recovery_one orig chunk_size (group_start g) (group_len g) Hcs Hgs ltac:(lia) Hlast
    id temp (fe_files s) t dc Ht Htl u (dc + g) p) as (t' & Hrec & Hl' & Hb'); [done|done| | |].
  - unfold parity_ok. replace (dc + g - dc) with g by lia.
    assert (Hrow : parity_row g = p) by (unfold parity_row; by rewrite Hrs, Hpe).
    rewrite <- Hrow. apply Hp; [lia|exact Hrep].
  - eapply group_present; [done..|]. intros w Hw Hne. rewrite Em. apply not_in_one.
    apply Nat.eqb_neq in Hne. lia.
  - rewrite Hend, Hrec. by apply group_done_one with t.
Qed.

Lemma group_step_done g s : fec_inv (fe_bitmap s) (fe_files s) -> 0 <= g < groups ->
  repairable (fe_bitmap s) g -> group_done g s (group_step g s).
Proof.
  assert (Hrs : rs2 = true \/ rs2 = false) by (destruct rs2; auto).
  destruct Hrs; [by apply group_step_rs2|by apply group_step_xor1].
Qed.

(** ** The whole loop *)

Lemma in_group_div g ci : 0 <= g < groups -> in_group g ci -> ci / 6 = g /\ 0 <= ci < dc.
Proof.
  intros Hgr (u & Hu & ->). destruct (group_facts g Hgr) as (Hl & _ & Hgs & Hdc & _).
  unfold group_start in *. split; [|lia]. symmetry. apply (Z.div_unique _ 6 g (Z.of_nat u)); lia.
Qed.

Lemma in_group_of ci : 0 <= ci < dc -> 0 <= ci / 6 < groups /\ in_group (ci / 6) ci.
Proof.
  intros Hci. assert (Hgr : 0 <= ci / 6 < groups) by (Z.div_mod_to_equations; lia). split; [done|].
  destruct (group_facts _ Hgr) as (Hl & He & Hgs & _).
  assert (Hlt : ci < group_end dc (ci / 6)).
  { unfold group_end, group_start. destruct (Z.ltb_spec dc (ci / 6 * 6 + 6)); [lia|].
    Z.div_mod_to_equations; lia. }
  exists (Z.to_nat (ci mod 6)). unfold group_start in *. Z.div_mod_to_equations; lia.
Qed.

Lemma missing_in_ext b b' g : (forall ci, in_group g ci -> bit_at b' ci = bit_at b ci) ->
  missing_in dc b' g = missing_in dc b g.
Proof.
  intros H. unfold missing_in. apply List.filter_ext_in. intros ci Hin.
  apply in_map_iff in Hin as (u & <- & Hu). apply in_seq in Hu. rewrite H; [done|].
  exists u. split; [unfold group_len; lia|done].
Qed.

Lemma repairable_ext b b' g : 0 <= g < groups -> (forall ci, in_group g ci -> bit_at b' ci = bit_at b ci) ->
  (forall ci, dc <= ci < chunk_count -> bit_at b' ci = bit_at b ci) ->
  repairable b g -> repairable b' g.
Proof.
  intros Hgr Hin Hpar. unfold repairable. rewrite (missing_in_ext _ _ _ Hin).
  pose proof dc_bounds.
  assert (Hrs : rs2 = true \/ rs2 = false) by (destruct rs2; auto).
  destruct Hrs as [Hrs|Hrs]; rewrite Hrs.
  - assert (Hc : chunk_count = dc + 2 * groups) by (by rewrite Hcount, Hrs).
    rewrite !Hpar by lia. done.
  - assert (Hc : chunk_count = dc + 1 * groups) by (by rewrite Hcount, Hrs).
    rewrite !Hpar by lia. done.
Qed.

Lemma fec_loop_spec b f n : fec_inv b f -> (forall g, 0 <= g < groups -> repairable b g) ->
  Z.of_nat n <= groups ->
  let s := foldl (fun s g => group_step (Z.of_nat g) s) (FecState b f false) (seq 0 n) in
  fec_inv (fe_bitmap s) (fe_files s) /\
  forall ci, 0 <= ci < chunk_count ->
    bit_at (fe_bitmap s) ci = if decide (ci < dc /\ ci / 6 < Z.of_nat n) then one else bit_at b ci.
Proof.
  intros Hinv Hrep. induction n as [|n IH]; intros Hn s.
  { split; [done|]. intros ci Hci. case_decide as Hd; [|done]. Z.div_mod_to_equations; lia. }
  destruct IH as [Hi Hb]; [lia|]. subst s. rewrite seq_S, foldl_app, Nat.add_0_l. cbn [foldl].
  set (s0 := foldl _ _ (seq 0 n)) in *.
  assert (Hgr : 0 <= Z.of_nat n < groups) by lia. pose proof dc_bounds as (Hdc & _).
  assert (Hcc : dc <= chunk_count) by (destruct rs2; lia).
  destruct (group_step_done (Z.of_nat n) s0 Hi Hgr) as [Hi' Hb'].
  { apply repairable_ext with b; [done| | |by apply Hrep].
    - intros ci Hci. apply in_group_div in Hci as [Hq Hci]; [|done]. rewrite Hb by lia.
      case_decide; [lia|done].
    - intros ci Hci. rewrite Hb by lia. case_decide; [lia|done]. }
  split; [exact Hi'|]. intros ci Hci. destruct (Hb' ci Hci) as [Hin Hout].
  destruct (decide (ci < dc /\ ci / 6 = Z.of_nat n)) as [[Hlt Hq]|Hne].
  - rewrite Hin; [by case_decide; [|lia]|]. rewrite <- Hq. apply in_group_of. lia.
  - rewrite Hout.
    + rewrite Hb by done. repeat case_decide; try done; lia.
    + intros Hx. apply in_group_div in Hx; [|done]. lia.
Qed.

Lemma fec_recover_eq b f : fec_recover id temp chunk_size dc total chunk_count b f
  = foldl (fun s g => group_step (Z.of_nat g) s) (FecState b f false) (seq 0 (Z.to_nat groups)).
Proof.
  pose proof dc_bounds. unfold fec_recover, fec_rs2, fec_groups, group_step.
  rewrite Z.quot_div_nonneg by lia.
  assert (Hm : (chunk_count =? dc + 2 * groups) = rs2).
  { rewrite Hcount. destruct rs2; [apply Z.eqb_refl|apply Z.eqb_neq; lia]. }
  by rewrite Hm.
Qed.

(** With every data chunk in place the file is the original. *)
Lemma fec_inv_complete b f : fec_inv b f -> (forall ci, 0 <= ci < dc -> bit_at b ci = one) ->
  exists t, f !! temp = Some t /\ t = orig.
Proof.
  intros [_ _ _ (t & Ht & Htl & Hd) _] Hone. pose proof dc_bounds as (Hdc & Hl & _).
  exists t. split; [done|]. apply list_eq. intros i.
  destruct (decide (i < length orig)%nat) as [Hlt|Hge]; [|rewrite !lookup_ge_None_2 by lia; done].
  assert (Hcs : 0 < chunk_size) by (destruct Hg; lia). set (ci := Z.of_nat i / chunk_size).
  pose proof (Z.div_mod (Z.of_nat i) chunk_size ltac:(lia)) as Hdm.
  pose proof (Z.mod_pos_bound (Z.of_nat i) chunk_size Hcs) as Hm. fold ci in Hdm.
  assert (Hci : 0 <= ci < dc).
  { unfold ci. split; [apply Z.div_pos; lia|]. apply Z.div_lt_upper_bound; [lia|]. unfold zlen in *. lia. }
  apply (Hd ci); [done|by apply Hone|].
  unfold in_chunk, chunk_span. cbv zeta. unfold zlen in *.
  destruct (Z.ltb_spec chunk_size (Z.of_nat (length orig) - ci * chunk_size)); lia.
Qed.

(** All data bits are set, parity bits are as they were, and the file is the original. *)
Lemma fec_recover_spec b f : fec_inv b f -> (forall g, 0 <= g < groups -> repairable b g) ->
  let s := fec_recover id temp chunk_size dc total chunk_count b f in
  fec_inv (fe_bitmap s) (fe_files s) /\ fe_files s !! temp = Some orig /\
  forall ci, 0 <= ci < chunk_count ->
    bit_at (fe_bitmap s) ci = if decide (ci < dc) then one else bit_at b ci.
Proof.
  intros Hinv Hrep. cbv zeta. rewrite fec_recover_eq. pose proof dc_bounds as (Hdc & Hl & Hgr).
  destruct (fec_loop_spec b f (Z.to_nat groups) Hinv Hrep ltac:(lia)) as [Hi Hb].
  set (s := foldl _ _ _) in *. assert (Hcc : dc <= chunk_count) by (destruct rs2; lia).
  assert (Hbits : forall ci, 0 <= ci < chunk_count ->
    bit_at (fe_bitmap s) ci = if decide (ci < dc) then one else bit_at b ci).
  { intros ci Hci. rewrite Hb by done. repeat case_decide; try done; [lia|].
    exfalso. destruct (in_group_of ci ltac:(lia)). lia. }
  split; [done|]. split; [|done].
  destruct (fec_inv_complete _ _ Hi) as (t & Ht & ->); [|done].
  intros ci Hci. rewrite Hbits by lia. by rewrite decide_True by lia.
Qed.
End recover.
