(* ===== verification/Complete.v ===== *)
(** * Completing and cancelling an upload (src/src/handlers/tasfa/upload.c)

    [handler_file_upload_complete] answers from the finalize slots, checks that every chunk has
    arrived and schedules a worker; the worker runs the finalize process, whose first part
    ([finalize_receive]: session checks, recovery of missing chunks, refusal of an incomplete
    upload) is modelled here; [handler_file_upload_cancel] drops the uploads of the caller. *)
From S2P Require Import Prelude CStr Gf256 Files Fec TasfaCommon RollingHash SlotCache Crypto Session Upload Recover.

#[local] Opaque count_data_chunks place_chunk.

Section complete.
Context {ctx : Type} (SHA256_Init : ctx).
#[local] Abbreviation server := (Upload.server (ctx := ctx)).

(** ** The first part of [tasfa_finalize_session_process] *)

Definition doc_received (d : session_doc) : Z :=
  bitmap_count_set (Some (m_received_bitmap (d_meta d))) (m_chunk_count (d_meta d)).

(** The FEC loop and what it saves when it has recovered a chunk. *)
Definition finalize_recover (id : cstr) (d : session_doc) (s : server) : session_doc * server :=
  let m := d_meta d in
  let data_chunks := count_data_chunks (m_total_size m) (m_chunk_size m) in
  let r := fec_recover id (d_temp_path d) (m_chunk_size m) data_chunks (m_total_size m)
             (m_chunk_count m) (m_received_bitmap m) (sv_files s) in
  let s := with_files (fe_files r) s in
  if fe_recovered_any r then
    let files := snd (save_upload_session_state_bin id (m_chunk_count m) (Some (fe_bitmap r)) (sv_files s)) in
    let m := meta_with_bitmap (fe_bitmap r)
               (replace_item (m_received_chunks m) (bitmap_count_set (Some (fe_bitmap r)) (m_chunk_count m))) m in
    let d := doc_with_meta m d in
    (d, save_upload_session_state id d (with_files files s))
  else (d, s).

(** The session goes on with all its chunks, or the process ends with a reply. *)
Definition finalize_receive (upload_id upload_token : option cstr) (s : server)
  : reply * server + session_doc * server :=
  match session_for (CS "invalid completion payload") (CS "upload session not found")
          (CS "upload completion rejected") upload_id upload_token s with
  | inl r => inl (r, s)
  | inr (id, d) =>
      let '(d, s) :=
        if doc_received d =? m_chunk_count (d_meta d) then (d, s) else finalize_recover id d s in
      if negb (doc_received d =? m_chunk_count (d_meta d))
      then inl (Reply 409 (Incomplete (CS "missing upload chunks") (build_upload_status_json (d_meta d))), s)
      else if d_uid d <=? 0 then inl (fail 401 (CS "login required"), s)
      else inr (d, s)
  end.

(** ** The completion request *)

Record finalize_job := FinalizeJob {
  fj_upload_id : cstr;
  fj_upload_token : cstr;
  fj_async_finalize : bool;
}.

(** {"ok":false,"error":"<message>"} *)
Definition json_error (message : cstr) : cstr :=
  [123; 34] ++ CS "ok" ++ [34; 58] ++ CS "false," ++ [34] ++ CS "error" ++ [34; 58; 34] ++ message
  ++ [34; 125].

(** The answer the finalize slots hold for the upload. *)
Definition cached_reply (r : Z * cstr * bool) : reply :=
  let '(status, body, active) := r in Reply (if active : bool then 202 else status) (Finalized body).

(** [pool_ok] is the result of [engine_pool_schedule]; the job goes to the pool when it is. *)
Definition handler_file_upload_complete (now : Z) (pool_ok : bool)
    (upload_id upload_token async_finalize : option cstr) (s : server) (f : finalize)
  : reply * option finalize_job * finalize :=
  match upload_id, upload_token with
  | Some id, Some token =>
      if negb (is_safe_segment (Some id)) then (fail 400 (CS "invalid completion payload"), None, f)
      else
        let '(cached, f) := finalize_cache_get now id token f in
        match cached with
        | Some r => (cached_reply r, None, f)
        | None =>
            match load_session id s with
            | None => (fail 404 (CS "upload session not found"), None, f)
            | Some d =>
                if negb (secure_str_eq token (d_upload_token d))
                then (fail 403 (CS "upload completion rejected"), None, f)
                else if negb (doc_received d =? m_chunk_count (d_meta d))
                then (Reply 409 (Incomplete (CS "missing upload chunks")
                                   (build_upload_status_json (d_meta d))), None, f)
                else
                  let '(started, f) := finalize_cache_mark_started now id token f in
                  if negb started then
                    let '(cached, f) := finalize_cache_get now id token f in
                    match cached with
                    | Some r => (cached_reply r, None, f)
                    | None => (fail 503 (CS "finalize queue full"), None, f)
                    end
                  else if negb pool_ok then
                    (fail 503 (CS "finalize executor unavailable"), None,
                     finalize_cache_mark_done now id 503
                       (Some (json_error (CS "finalize executor unavailable"))) f)
                  else
                    (Reply 202 Finalizing,
                     Some (FinalizeJob (snprintf_s 33 id) (snprintf_s 49 token)
                             match async_finalize with Some v => streq v (CS "1") | None => false end), f)
            end
        end
  | _, _ => (fail 400 (CS "invalid completion payload"), None, f)
  end.

(** The worker records the status and body the process ends with. *)
Definition upload_finalize_worker (now : Z) (job : finalize_job) (result : Z * option cstr) (f : finalize)
  : finalize :=
  finalize_cache_mark_done now (fj_upload_id job) (fst result)
    (Some (default (json_error (CS "finalize failed")) (snd result))) f.

(** ** Cancelling *)

Definition cancel_one (uid : Z) (item : option cstr) (s : server) : server :=
  match item with
  | None => s                         (* not a string *)
  | Some id =>
      if negb (is_safe_segment (Some id)) then s
      else match sv_metas s !! id with
           | None => s
           | Some mb =>
               if negb (mb_uid mb =? uid) then s
               else
                 let s := cleanup_upload_session id s in
                 let s := with_uploads (tasfa_queue_leave (Some id) (sv_uploads s)) s in
                 with_hash (tasfa_rolling_hash_reset SHA256_Init (Some id) (sv_hash s)) s
           end
  end.

(** [ids]: the items of the JSON array, or [None] when the field is not one. *)
Definition handler_file_upload_cancel (uid : option Z) (ids : option (list (option cstr))) (s : server)
  : option reply * server :=
  match uid with
  | None => (None, s)                 (* auth_require_login has answered *)
  | Some u => (Some (Reply 200 OkTrue), foldl (fun s item => cancel_one u item s) s (default [] ids))
  end.
End complete.

(** ** Counting the received chunks *)

Lemma bitmap_full b n : 0 < n -> zlen b = n ->
  (bitmap_count_set (Some b) n = n <-> forall ci, 0 <= ci < n -> bit_at b ci = one).
Proof.
  intros Hn Hl. unfold bitmap_count_set. destruct (Z.leb_spec n 0); [lia|].
  unfold zlen in Hl. rewrite take_ge by lia. rewrite <- Hl, Nat2Z.inj_iff, countb_full, Forall_lookup.
  split.
  - intros H0 ci Hci. destruct (lookup_lt_is_Some_2 b (Z.to_nat ci)) as [v Hv]; [lia|].
    unfold bit_at. rewrite nth_lookup, Hv. cbn. by apply Z.eqb_eq, (H0 _ _ Hv).
  - intros H0 i v Hv. apply Z.eqb_eq. pose proof (lookup_lt_Some _ _ _ Hv).
    specialize (H0 (Z.of_nat i) ltac:(lia)). unfold bit_at in H0. rewrite Nat2Z.id, nth_lookup, Hv in H0. done.
Qed.

(** A loop that recovers nothing leaves the bitmap alone. *)
Lemma mark_recovered_any id ci s : fe_recovered_any (mark_recovered id ci s) = true.
Proof. done. Qed.

Lemma fec_recover_idle id temp cs dc total count b f :
  fe_recovered_any (fec_recover id temp cs dc total count b f) = false ->
  fe_bitmap (fec_recover id temp cs dc total count b f) = b.
Proof.
  unfold fec_recover. set (step := fun s g => _).
  assert (Hstep : forall s g, (fe_recovered_any (step s g) = true) \/
    (fe_recovered_any (step s g) = fe_recovered_any s /\ fe_bitmap (step s g) = fe_bitmap s)).
  { intros s g. unfold step, fec_group_rs2, fec_group_xor1. cbv zeta.
    destruct (fec_rs2 dc count); repeat case_match; auto. }
  generalize (seq 0 (Z.to_nat (fec_groups dc))). intros l.
  assert (Hkeep : forall l s, fe_recovered_any s = true -> fe_recovered_any (foldl step s l) = true).
  { clear l. induction l as [|g l IH]; intros s Hs; [done|]. cbn. apply IH.
    destruct (Hstep s g) as [|[-> _]]; done. }
  assert (H : forall l s, fe_recovered_any (foldl step s l) = false -> fe_bitmap (foldl step s l) = fe_bitmap s).
  { clear l. induction l as [|g l IH]; intros s Hf; [done|]. cbn in *.
    destruct (Hstep s g) as [Ht|[_ Hb]]; [|by rewrite IH, Hb].
    rewrite (Hkeep _ _ Ht) in Hf. done. }
  intros Hf. by rewrite H.
Qed.

(** ** A client that sends the chunks of a file *)

Section delivery.
Context {ctx : Type} (SHA256_Init : ctx) (SHA256_Update : ctx -> list Z -> ctx).
Context (L : codecs) `{!CodecsLaws L} (G : gcm) `{!GcmLaws G}.
Context (id : cstr) (mb : meta_bin) (orig : list Z) (rs2 : bool).
#[local] Abbreviation server := (Upload.server (ctx := ctx)).
#[local] Abbreviation temp := (upload_session_temp_path id).
#[local] Abbreviation cs := (mb_chunk_size mb).
#[local] Abbreviation dc := (data_count mb).

Context (Hmb : meta_ok id mb) (Horig : mb_total_size mb = zlen orig) (Hbytes : Forall is_byte orig).
Context (Hcount : mb_chunk_count mb = dc + count_parity_chunks rs2 dc).

(** The bytes of a chunk: a slice of the file, or a parity row of its group. *)
Definition client_chunk (ci : Z) : list Z :=
  if ci <? dc then pread orig (Z.to_nat (ci * cs)) (Z.to_nat (chunk_span (zlen orig) cs ci))
  else parity_row orig cs rs2 (ci - dc).

Definition honest (M : gmap Z (list Z)) : Prop := forall ci p, M !! ci = Some p -> p = client_chunk ci.

Lemma geometry : good_geometry (zlen orig) cs.
Proof. rewrite <- Horig. by destruct Hmb. Qed.

Lemma dc_eq : dc = count_data_chunks (zlen orig) cs.
Proof. unfold data_count. by rewrite Horig. Qed.

Lemma count_eq : mb_chunk_count mb
  = count_data_chunks (zlen orig) cs + (if rs2 then 2 else 1) * ((count_data_chunks (zlen orig) cs + 5) / 6).
Proof.
  rewrite Hcount, dc_eq. destruct (count_data_chunks_spec _ _ geometry) as (Hn & _).
  by destruct (count_parity_chunks_spec rs2 _ Hn) as [-> _].
Qed.

Lemma parity_row_length k : 0 <= k < mb_chunk_count mb - dc -> zlen (parity_row orig cs rs2 k) = cs.
Proof.
  intros Hk. assert (Hcs : 0 < cs) by (destruct geometry; lia).
  assert (Hgr : forall g, 0 <= g < (count_data_chunks (zlen orig) cs + 5) / 6 ->
    (group_len orig cs g <= 6)%nat).
  { intros g Hg. by destruct (group_facts id orig cs rs2 (id_length id mb Hmb) geometry g Hg) as ((_ & ?) & _). }
  rewrite dc_eq, count_eq in Hk. unfold parity_row, zlen.
  assert (Hrs : rs2 = true \/ rs2 = false) by (destruct rs2; auto). destruct Hrs as [Hrs|Hrs]; rewrite Hrs in *.
  - destruct (encode_lengths orig cs (group_start (k / 2)) (group_len orig cs (k / 2)) Hcs Hbytes) as [H0 H1].
    { apply Hgr. Z.div_mod_to_equations; lia. }
    destruct (_ =? 0); [rewrite H0|rewrite H1]; lia.
  - destruct (xor_encode_spec orig cs (group_start k) (group_len orig cs k) Hcs) with (file := orig)
      (n := group_len orig cs k) as (p & -> & Hp & _); [apply Hgr; lia|done|lia|]. cbn. rewrite Hp. lia.
Qed.

Lemma client_chunk_length ci : 0 <= ci < mb_chunk_count mb ->
  zlen (client_chunk ci) = cp_expected (place mb ci).
Proof.
  intros Hci. unfold client_chunk.
  destruct (place_cases id mb Hmb ci ltac:(lia)) as [(Hlt & -> & Hs & Hin)|(Hge & ->)]; cbn [cp_expected].
  - destruct (Z.ltb_spec ci dc); [|lia]. rewrite Horig in *. assert (0 < cs) by (destruct geometry; lia).
    assert (0 <= ci * cs) by nia. unfold zlen in *. rewrite length_pread. lia.
  - destruct (Z.ltb_spec ci dc); [lia|]. apply parity_row_length. lia.
Qed.

(** ** The requests in the order in which they reach the server *)

Fixpoint run_uploads (l : list (Z * list Z * chunk_request)) (s : server) : server :=
  match l with
  | [] => s
  | (now, acks, rq) :: l' =>
      run_uploads l' (handler_file_upload SHA256_Init SHA256_Update L G now acks rq s).2
  end.

(** A request of the client for chunk [ci], at any time, over a disk that works. *)
Definition honest_request (r : Z * list Z * chunk_request) (ci : Z) : Prop :=
  cr_upload_id r.2 = Some id /\ authorised mb r.2 ci /\ encodes L G id mb r.2 ci (client_chunk ci) /\
  acks_ok r.1.2 (zlen (client_chunk ci)).

Lemma run_honest l cis : Forall2 honest_request l cis -> forall s M, session_ok id mb s M -> honest M ->
  exists M', session_ok id mb (run_uploads l s) M' /\ honest M' /\
    forall ci, is_Some (M' !! ci) <-> is_Some (M !! ci) \/ ci ∈ cis.
Proof.
  induction 1 as [|[[now acks] rq] ci l cis (Hid & Ha & He & Hk) _ IH]; intros s M Hs HM.
  { exists M. split; [done|]. split; [done|]. intros ci. set_solver. }
  cbn [fst snd run_uploads] in *. pose proof Ha as (_ & Hci & _).
  pose proof (handler_accepts SHA256_Init SHA256_Update L G id mb Hmb now acks rq s M ci (client_chunk ci)
    Hs Hid Ha (client_chunk_length ci Hci) He Hk) as Hacc.
  destruct (handler_file_upload _ _ _ _ _ _ _ _) as [r s']. destruct Hacc as [_ Hs']. cbn [snd].
  destruct (decide (is_Some (M !! ci))) as [Hrec|Hnew].
  - destruct (IH s' M Hs' HM) as (M' & H1 & H2 & H3). exists M'. split; [done|]. split; [done|].
    intros cj. rewrite H3, elem_of_cons. split; [tauto|]. intros [?|[->|?]]; auto.
  - destruct (IH s' (<[ci := client_chunk ci]> M) Hs') as (M' & H1 & H2 & H3).
    { intros cj p Hp. destruct (decide (cj = ci)) as [->|Hne].
      - rewrite lookup_insert_eq in Hp. congruence.
      - rewrite lookup_insert_ne in Hp by done. by apply HM. }
    exists M'. split; [done|]. split; [done|]. intros cj. rewrite H3, elem_of_cons.
    destruct (decide (cj = ci)) as [->|Hne].
    + rewrite lookup_insert_eq. split; [tauto|]. intros _. left. eauto.
    + rewrite lookup_insert_ne by done. split; [tauto|]. intros [?|[?|?]]; auto; done.
Qed.

(** ** What completion finds *)

Lemma session_fec_inv (s : server) M : session_ok id mb s M -> honest M ->
  exists b, sv_files s !! upload_session_state_bin_path id = Some b /\
    fec_inv id orig cs (mb_chunk_count mb) rs2 b (sv_files s) /\
    forall ci, 0 <= ci < mb_chunk_count mb -> (bit_at b ci = one <-> is_Some (M !! ci)).
Proof.
  intros [_ _ [(b & Hb & Hl & Hbits & Hall) (t & Ht & Htl) Hd] _] HM. exists b. split; [done|].
  assert (Hbit : forall ci, 0 <= ci < mb_chunk_count mb -> (bit_at b ci = one <-> is_Some (M !! ci))).
  { intros ci Hci. specialize (Hbits ci Hci). unfold bit_at, is_set in *. rewrite <- Z.eqb_eq, Hbits.
    apply bool_decide_eq_true. }
  split; [|done]. pose proof dc_eq as Hdc.
  destruct (data_count_bounds id mb Hmb) as [Hn Hc].
  split.
  - done.
  - intros ci Hci. unfold bit_at, zlen in *.
    destruct (lookup_lt_is_Some_2 b (Z.to_nat ci)) as [v Hv]; [lia|]. rewrite nth_lookup, Hv.
    rewrite Forall_lookup in Hall. apply (Hall _ _ Hv).
  - done.
  - exists t. split; [done|]. split; [rewrite Horig in Htl; unfold zlen in Htl; lia|].
    intros ci i Hci Hone Hi. rewrite <- Hdc in Hci.
    apply Hbit in Hone as [p Hp]; [|lia]. destruct (Hd ci p Hp) as [_ [Hlen Hh]].
    pose proof (HM ci p Hp) as ->.
    destruct (place_cases id mb Hmb ci ltac:(lia)) as [(_ & Epl & Hs & Hin)|(? & _)]; [|lia].
    rewrite Epl in Hh. cbn [cp_parity cp_offset cp_expected] in Hh. destruct Hh as (t' & Ht' & Hr).
    rewrite Ht in Ht'. injection Ht' as <-. unfold client_chunk in Hr.
    destruct (Z.ltb_spec ci dc); [|lia]. rewrite Horig in Hr.
    apply (f_equal (.!! (i - Z.to_nat (ci * cs))%nat)) in Hr. unfold in_chunk in Hi.
    assert (Hcs : 0 < cs) by (destruct geometry; lia). assert (0 <= ci * cs) by nia.
    rewrite !lookup_pread in Hr by lia.
    by replace (Z.to_nat (ci * cs) + (i - Z.to_nat (ci * cs)))%nat with i in Hr by lia.
  - intros k Hk Hone. rewrite <- Hdc in Hk, Hone. apply Hbit in Hone as [p Hp]; [|lia].
    destruct (Hd _ p Hp) as [_ [Hlen Hh]]. pose proof (HM _ p Hp) as ->.
    destruct (place_cases id mb Hmb (dc + k) ltac:(lia)) as [(? & _)|(_ & Epl)]; [lia|].
    rewrite Epl in Hh. cbn [cp_parity] in Hh. unfold client_chunk in Hh.
    destruct (Z.ltb_spec (dc + k) dc); [lia|].
    by replace (dc + k - dc) with k in Hh by lia.
Qed.

(** The document as the completion loads it, and the test for missing chunks. *)
Lemma loaded_doc (s : server) M : session_ok id mb s M -> exists d,
  load_session id s = Some d /\ doc_ok mb d /\
  (doc_received d =? m_chunk_count (d_meta d)) =
    bool_decide (Forall (fun ci => is_Some (M !! Z.of_nat ci)) (seq 0 (Z.to_nat (mb_chunk_count mb)))) /\
  sv_files s !! upload_session_state_bin_path id = Some (m_received_bitmap (d_meta d)).
Proof.
  intros Hs. destruct (load_session_ok id mb s M Hs) as (d & b & Hload & Hd & Hb & Hl & Hbm).
  exists d. split; [done|]. split; [done|]. rewrite Hbm. split; [|done].
  destruct Hs as [_ _ [(b' & Hb' & _ & Hbits & _) _ _] _]. rewrite Hb in Hb'. injection Hb' as <-.
  destruct (data_count_bounds id mb Hmb) as [Hn Hc].
  unfold doc_received. rewrite Hbm. destruct Hd as [_ -> _ _ _ _ _].
  apply eq_true_iff_eq. rewrite Z.eqb_eq, bool_decide_eq_true, bitmap_full by lia.
  rewrite Forall_forall. split.
  - intros H ci Hci. apply elem_of_seq in Hci. specialize (Hbits (Z.of_nat ci) ltac:(lia)).
    specialize (H (Z.of_nat ci) ltac:(lia)). unfold bit_at in H. rewrite H in Hbits.
    symmetry in Hbits. by apply bool_decide_eq_true in Hbits.
  - intros H ci Hci. specialize (Hbits ci Hci). unfold bit_at, is_set in *. apply Z.eqb_eq.
    rewrite Hbits. apply bool_decide_eq_true. rewrite <- (Z2Nat.id ci) by lia. apply H.
    apply elem_of_seq. lia.
Qed.

Definition complete_map (M : gmap Z (list Z)) : Prop :=
  Forall (fun ci => is_Some (M !! Z.of_nat ci)) (seq 0 (Z.to_nat (mb_chunk_count mb))).

Lemma complete_map_spec M : complete_map M <-> forall ci, 0 <= ci < mb_chunk_count mb -> is_Some (M !! ci).
Proof.
  unfold complete_map. rewrite Forall_forall. split.
  - intros H ci Hci. rewrite <- (Z2Nat.id ci) by lia. apply H, elem_of_seq. lia.
  - intros H ci Hci. apply elem_of_seq in Hci. apply H. lia.
Qed.

Lemma session_for_ok (s : server) M d inv nf rej : session_ok id mb s M -> load_session id s = Some d ->
  session_for inv nf rej (Some id) (Some (d_upload_token d)) s = inr (id, d).
Proof.
  intros Hs Hload. destruct Hmb as [_ _ _ [Hsafe _]]. unfold session_for. rewrite Hsafe, Hload. cbn [negb].
  unfold secure_str_eq. by rewrite streq_refl.
Qed.

(** Every group has lost no more than its code repairs, as the state file tells. *)
Definition all_repairable (s : server) : Prop :=
  forall b, sv_files s !! upload_session_state_bin_path id = Some b ->
  forall g, 0 <= g < (dc + 5) / 6 -> repairable orig cs rs2 b g.

Definition parity_complete (M : gmap Z (list Z)) : Prop :=
  forall ci, dc <= ci < mb_chunk_count mb -> is_Some (M !! ci).

Lemma finalize_recover_spec (s : server) M d : session_ok id mb s M -> honest M ->
  load_session id s = Some d -> all_repairable s ->
  let '(d', s') := finalize_recover id d s in
  sv_files s' !! temp = Some orig /\ d_uid d' = d_uid d /\
  m_chunk_count (d_meta d') = m_chunk_count (d_meta d) /\
  (doc_received d' = m_chunk_count (d_meta d') <-> parity_complete M).
Proof.
  intros Hs HM Hload Hrep. destruct (loaded_doc s M Hs) as (d0 & Hload' & Hd & _ & Hbm).
  rewrite Hload in Hload'. injection Hload' as <-.
  destruct (session_fec_inv s M Hs HM) as (b & Hb & Hinv & Hbits). rewrite Hb in Hbm.
  injection Hbm as Hbm. pose proof (data_count_bounds id mb Hmb) as [Hn Hc]. pose proof dc_eq as Hdc.
  destruct Hd as [_ Dc Dcs Dt Dtemp _ _]. destruct Hmb as [_ _ Mtemp _].
  assert (Hspec := fec_recover_spec id orig cs (mb_chunk_count mb) rs2 (id_length id mb Hmb) geometry
    count_eq Hbytes b (sv_files s) Hinv). rewrite <- Hdc in Hspec.
  specialize (Hspec (fun g Hg => Hrep b Hb g Hg)). cbv zeta in Hspec.
  unfold finalize_recover. cbv zeta. rewrite Dc, Dcs, Dt, Dtemp, Mtemp, <- Hbm.
  replace (count_data_chunks (mb_total_size mb) cs) with dc by reflexivity. rewrite Horig.
  pose proof (fec_recover_idle id temp cs dc (zlen orig) (mb_chunk_count mb) b (sv_files s)) as Hidle.
  set (r := fec_recover id temp cs dc (zlen orig) (mb_chunk_count mb) b (sv_files s)) in *.
  destruct Hspec as ([Hl _ Hst _ _] & Htemp & Hb').
  assert (Hfull : forall m, m_received_bitmap m = fe_bitmap r -> m_chunk_count m = mb_chunk_count mb ->
    (bitmap_count_set (Some (m_received_bitmap m)) (m_chunk_count m) = m_chunk_count m <-> parity_complete M)).
  { intros m -> ->. rewrite bitmap_full by lia. split.
    - intros H ci Hci. apply Hbits; [lia|]. rewrite <- (H ci ltac:(lia)), Hb' by lia.
      by rewrite decide_False by lia.
    - intros H ci Hci. rewrite Hb' by done. case_decide; [done|]. apply Hbits; [done|]. apply H. lia. }
  destruct (fe_recovered_any r) eqn:Eany.
  - cbn [sv_files with_files save_upload_session_state with_states save_upload_session_state_bin snd].
    split; [rewrite lookup_insert_ne; [exact Htemp|intros E; symmetry in E; by apply temp_ne_state in E]|].
    split; [done|]. split; [done|]. unfold doc_received. cbn [d_meta doc_with_meta].
    by apply Hfull.
  - cbn [sv_files with_files]. split; [exact Htemp|]. split; [done|]. split; [done|].
    unfold doc_received. apply Hfull; [|done]. rewrite Hidle by done. congruence.
Qed.

(** C1: whatever the order in which the chunks of a file reach a new session, however often each
    is repeated, and whether each is compressed, encrypted, both or neither, once all of them
    have been sent the completion finds the session complete and the temporary file is the
    client's file, byte for byte. *)
Theorem upload_delivers_file l cis (s : server) :
  session_ok id mb s ∅ -> 0 < mb_uid mb -> Forall2 honest_request l cis ->
  (forall ci, 0 <= ci < mb_chunk_count mb -> ci ∈ cis) ->
  exists d, load_session id (run_uploads l s) = Some d /\
    exists d' s', finalize_receive (Some id) (Some (d_upload_token d)) (run_uploads l s) = inr (d', s') /\
      sv_files s' !! temp = Some orig.
Proof.
  intros Hs Huid Hl Hall. destruct (run_honest l cis Hl s ∅ Hs) as (M & Hs' & HM & HM').
  { intros ci p Hp. by rewrite lookup_empty in Hp. }
  assert (Hcomp : complete_map M) by (apply complete_map_spec; intros ci Hci; apply HM'; right; auto).
  destruct (loaded_doc _ M Hs') as (d & Hload & Hd & Hrec & _). exists d. split; [done|].
  exists d, (run_uploads l s). unfold finalize_receive. rewrite (session_for_ok _ M) by done.
  rewrite Hrec, bool_decide_eq_true_2 by exact Hcomp. cbn [negb].
  rewrite Hrec, bool_decide_eq_true_2 by exact Hcomp. cbn [negb].
  destruct Hd as [_ _ _ _ _ _ ->]. destruct (Z.leb_spec (mb_uid mb) 0); [lia|]. split; [done|].
  destruct (session_fec_inv _ M Hs' HM) as (b & Hb & Hinv & Hbits).
  pose proof (data_count_bounds id mb Hmb) as [Hn Hc]. pose proof dc_eq as Hdc.
  assert (Hone : forall ci, 0 <= ci < mb_chunk_count mb -> bit_at b ci = one).
  { intros ci Hci. apply Hbits; [done|]. by apply complete_map_spec. }
  (* nothing is missing, so the recovery would leave the file as it is *)
  destruct (fec_inv_complete id orig cs (mb_chunk_count mb) rs2 (id_length id mb Hmb) geometry
    b (sv_files (run_uploads l s)) Hinv) as (t & Ht & ->); [|done].
  intros ci Hci. apply Hone. lia.
Qed.

(** The first part of the finalize process on a session with losses. *)
Lemma receive_recovers (s : server) M d :
  session_ok id mb s M -> honest M -> load_session id s = Some d -> 0 < mb_uid mb ->
  ~ complete_map M -> all_repairable s ->
  exists s', sv_files s' !! temp = Some orig /\
    let res := finalize_receive (Some id) (Some (d_upload_token d)) s in
    (parity_complete M -> exists d', res = inr (d', s')) /\
    (~ parity_complete M -> exists st,
       res = inl (Reply 409 (Incomplete (CS "missing upload chunks") st), s')).
Proof.
  intros Hs HM Hload Huid Hinc Hrep.
  destruct (loaded_doc s M Hs) as (d0 & Hload' & Hd & Hrec & _).
  rewrite Hload in Hload'. injection Hload' as <-.
  pose proof (finalize_recover_spec s M d Hs HM Hload Hrep) as Hspec.
  unfold finalize_receive. rewrite (session_for_ok s M) by done.
  rewrite Hrec, bool_decide_eq_false_2 by exact Hinc.
  destruct (finalize_recover id d s) as [d' s']. destruct Hspec as (Htemp & Hu & Hcc & Hpar).
  exists s'. split; [done|]. cbv zeta. split.
  - intros Hp. exists d'. apply Hpar in Hp. rewrite Hp, Z.eqb_refl. cbn [negb].
    rewrite Hu. destruct Hd as [_ _ _ _ _ _ ->]. by destruct (Z.leb_spec (mb_uid mb) 0); [lia|].
  - intros Hp. eexists. destruct (Z.eqb_spec (doc_received d') (m_chunk_count (d_meta d'))) as [E|E].
    + by apply Hpar in E.
    + reflexivity.
Qed.

(** C5: when chunks are lost but no group has lost more than its code repairs, the first part of
    the finalize process rebuilds the client's file byte for byte, starting from the requests
    that did arrive; it then goes on if all the parity chunks are among them, and otherwise
    answers 409 although the file is complete. *)
Theorem finalize_recovers_file l cis (s0 : server) d :
  let s := run_uploads l s0 in
  session_ok id mb s0 ∅ -> 0 < mb_uid mb -> Forall2 honest_request l cis ->
  load_session id s = Some d -> ~ (forall ci, 0 <= ci < mb_chunk_count mb -> ci ∈ cis) -> all_repairable s ->
  exists s', sv_files s' !! temp = Some orig /\
    let res := finalize_receive (Some id) (Some (d_upload_token d)) s in
    let parity_sent := forall ci, dc <= ci < mb_chunk_count mb -> ci ∈ cis in
    (parity_sent -> exists d', res = inr (d', s')) /\
    (~ parity_sent -> exists st,
       res = inl (Reply 409 (Incomplete (CS "missing upload chunks") st), s')).
Proof.
  intros s Hs Huid Hl Hload Hinc Hrep. destruct (run_honest l cis Hl s0 ∅ Hs) as (M & Hs' & HM & HM').
  { intros ci p Hp. by rewrite lookup_empty in Hp. }
  assert (Hsent : forall ci, is_Some (M !! ci) <-> ci ∈ cis).
  { intros ci. rewrite HM', lookup_empty. split; [intros [[? ?]|?]; done|by right]. }
  destruct (receive_recovers s M d Hs' HM Hload Huid) as (s' & Ht & Hp & Hnp); [|done|].
  { intros Hc. apply Hinc. intros ci Hci. apply Hsent. by apply complete_map_spec. }
  exists s'. split; [done|]. split.
  - intros H. apply Hp. intros ci Hci. apply Hsent, H, Hci.
  - intros H. apply Hnp. intros Hx. apply H. intros ci Hci. apply Hsent, Hx, Hci.
Qed.

(** the completion request never gets that far: with any chunk missing it answers 409 and
    schedules nothing, so the recovery code of the finalize process is not reached, even when
    it would rebuild the file and go on. *)
Theorem complete_refuses_recoverable (s : server) M d now pool_ok async f :
  session_ok id mb s M -> load_session id s = Some d -> ~ complete_map M ->
  (finalize_cache_get now id (d_upload_token d) f).1 = None ->
  (let '(r, job, f') :=
     handler_file_upload_complete now pool_ok (Some id) (Some (d_upload_token d)) async s f in
   r = Reply 409 (Incomplete (CS "missing upload chunks") (build_upload_status_json (d_meta d))) /\
   job = None /\ f' = (finalize_cache_get now id (d_upload_token d) f).2) /\
  (honest M -> 0 < mb_uid mb -> all_repairable s -> parity_complete M ->
   exists d' s', finalize_receive (Some id) (Some (d_upload_token d)) s = inr (d', s') /\
     sv_files s' !! temp = Some orig).
Proof.
  intros Hs Hload Hinc Hcache. split.
  - destruct (loaded_doc s M Hs) as (d0 & Hload' & _ & Hrec & _).
    rewrite Hload in Hload'. injection Hload' as <-.
    unfold handler_file_upload_complete. destruct Hmb as [_ _ _ [Hsafe _]]. rewrite Hsafe. cbn [negb].
    destruct (finalize_cache_get now id (d_upload_token d) f) as [cached f0]. cbn [fst snd] in *. subst cached.
    rewrite Hload. unfold secure_str_eq. rewrite streq_refl. cbn [negb].
    rewrite Hrec, bool_decide_eq_false_2 by exact Hinc. done.
  - intros HM Huid Hrep Hpar.
    destruct (receive_recovers s M d Hs HM Hload Huid Hinc Hrep) as (s' & Ht & Hp & _).
    destruct (Hp Hpar) as [d' Hd']. eauto.
Qed.
End delivery.

(** ** Cancelling touches the caller's uploads only *)

Lemma safe_no_slash id : is_safe_segment (Some id) = true -> CH "/" ∉ id.
Proof.
  intros H Hin. destruct id as [|c r]; [done|]. cbn [is_safe_segment] in H.
  rewrite forallb_forall in H. apply list_elem_of_In in Hin. specialize (H _ Hin). by vm_compute in H.
Qed.

(** The files of a session are not under the directory of another. *)
Lemma other_dir id id' x : is_safe_segment (Some id) = true -> is_safe_segment (Some id') = true -> id <> id' ->
  starts_with (upload_session_dir id' ++ CS "/") (upload_session_dir id ++ CS "/" ++ x) = false.
Proof.
  intros H H' Hne. apply not_true_is_false. intros Hs. apply starts_with_spec in Hs as [r Hr].
  unfold upload_session_dir in Hr. rewrite <- !app_assoc in Hr.
  apply app_inv_head, app_inv_head in Hr. apply Hne.
  pose proof (strchr_app id (CH "/") x (safe_no_slash id H)) as E.
  pose proof (strchr_app id' (CH "/") r (safe_no_slash id' H')) as E'.
  cbn [app] in Hr. rewrite Hr in E. congruence.
Qed.

Lemma lookup_filter_keep (P : list Z * list Z -> Prop) {HD : forall x, Decision (P x)} (f : fs) k :
  (forall v, P (k, v)) -> filter P f !! k = f !! k.
Proof.
  intros HP. destruct (f !! k) as [v|] eqn:E.
  - by apply map_lookup_filter_Some.
  - apply map_lookup_filter_None. by left.
Qed.

Section cancel.
Context {ctx : Type} (SHA256_Init : ctx).
#[local] Abbreviation server := (Upload.server (ctx := ctx)).

(** What cancelling another upload leaves of a session. *)
Lemma cleanup_other id id' mb (s : server) M : is_safe_segment (Some id') = true -> id <> id' ->
  meta_ok id mb -> session_ok id mb s M -> session_ok id mb (cleanup_upload_session id' s) M.
Proof.
  intros Hs' Hne Hmb [Hm Hc Hf (d & Hd & Hdk)]. pose proof (id_length id mb Hmb) as Hlen.
  destruct Hmb as [_ _ _ [Hs _]].
  assert (Hkeep : forall x, (cleanup_upload_session id' s).(sv_files) !! (upload_session_dir id ++ CS "/" ++ x)
                            = sv_files s !! (upload_session_dir id ++ CS "/" ++ x)).
  { intros x. cbn [sv_files cleanup_upload_session]. apply lookup_filter_keep.
    intros v. cbn [fst]. by apply other_dir. }
  split.
  - cbn. by rewrite lookup_delete_ne.
  - cbn [sv_cache cleanup_upload_session]. unfold cache_invalidate.
    destruct (probe_find _ _ _ _ _); [|done]. apply all_hold_insert; [done|]. by rewrite clear_invalid.
  - eapply files_ok_ext; [| | |exact Hf].
    + apply (Hkeep (CS "state.bin")).
    + apply (Hkeep (CS "upload.bin.part")).
    + intros k. rewrite !parity_path_eq by done. apply (Hkeep (CS "parity_" ++ print_int k ++ CS ".bin")).
  - exists d. split; [|done]. cbn. by rewrite lookup_delete_ne.
Qed.

Lemma cancel_one_other uid item id mb (s : server) M : meta_ok id mb -> session_ok id mb s M ->
  mb_uid mb <> uid \/ item <> Some id -> session_ok id mb (cancel_one SHA256_Init uid item s) M.
Proof.
  intros Hmb Hs Ho. unfold cancel_one. destruct item as [id'|]; [|done].
  destruct (is_safe_segment (Some id')) eqn:Es; cbn [negb]; [|done].
  destruct (sv_metas s !! id') as [mb'|] eqn:Em; [|done].
  destruct (Z.eqb_spec (mb_uid mb') uid); cbn [negb]; [|done].
  assert (Hne : id <> id').
  { intros <-. destruct Hs as [Hm _ _ _]. rewrite Em in Hm. injection Hm as ->. by destruct Ho. }
  cbv zeta. apply session_ok_hash, session_ok_uploads. by apply cleanup_other.
Qed.

Lemma cancel_all_other uid l id mb : forall (s : server) M, meta_ok id mb -> session_ok id mb s M ->
  mb_uid mb <> uid \/ Some id ∉ l ->
  session_ok id mb (foldl (fun s item => cancel_one SHA256_Init uid item s) s l) M.
Proof.
  induction l as [|item l IH]; intros s M Hmb Hs Ho; [done|]. cbn. apply IH; [done| |].
  - apply cancel_one_other; [done|done|]. destruct Ho as [?|Ho]; [by left|right]. set_solver.
  - destruct Ho as [?|Ho]; [by left|right]. set_solver.
Qed.

Definition no_files (id : cstr) (f : fs) : Prop :=
  forall path, starts_with (upload_session_dir id ++ CS "/") path = true -> f !! path = None.

Lemma no_files_cleanup id id' (s : server) : id = id' \/ no_files id (sv_files s) ->
  no_files id (sv_files (cleanup_upload_session id' s)).
Proof.
  intros H path Hp. cbn [sv_files cleanup_upload_session]. apply map_lookup_filter_None.
  destruct H as [<-|H]; [right|left; by apply H]. intros v _. cbn [fst]. by rewrite Hp.
Qed.

(** Gone sessions stay gone. *)
Lemma cancel_gone uid l id : forall (s : server), sv_metas s !! id = None -> sv_docs s !! id = None ->
  no_files id (sv_files s) ->
  let s' := foldl (fun s item => cancel_one SHA256_Init uid item s) s l in
  sv_metas s' !! id = None /\ sv_docs s' !! id = None /\ no_files id (sv_files s').
Proof.
  induction l as [|item l IH]; intros s Hm Hd Hf; [done|]. cbn. apply IH; unfold cancel_one;
    destruct item as [id'|]; try done; destruct (negb _); try done;
    destruct (sv_metas s !! id') as [mb'|]; try done; destruct (negb _); try done.
  1,2: cbn; by rewrite lookup_delete_None; right.
  apply no_files_cleanup. by right.
Qed.

(** cancelling needs a login and deletes exactly the caller's uploads among those it names:
    such a session is gone with its files, and a session of somebody else, or one that is not
    named, keeps every chunk it has received. *)
Theorem cancel_only_own uid l id mb (s : server) M : meta_ok id mb -> session_ok id mb s M ->
  handler_file_upload_cancel SHA256_Init None (Some l) s = (None, s) /\
  let '(r, s') := handler_file_upload_cancel SHA256_Init (Some uid) (Some l) s in
  r = Some (Reply 200 OkTrue) /\
  (mb_uid mb <> uid \/ Some id ∉ l -> session_ok id mb s' M) /\
  (mb_uid mb = uid -> Some id ∈ l -> load_session id s' = None /\ sv_metas s' !! id = None /\
     no_files id (sv_files s')).
Proof.
  intros Hmb Hs. split; [done|]. cbn [handler_file_upload_cancel default from_option].
  unfold Datatypes.id. split; [done|]. split; [by apply cancel_all_other|].
  intros Hu Hin. apply list_elem_of_split_l in Hin as (l1 & l2 & -> & Hnin).
  rewrite foldl_app. cbn [foldl].
  pose proof (cancel_all_other uid l1 id mb s M Hmb Hs (or_intror Hnin)) as Hs1.
  set (s1 := foldl _ s l1) in *. set (s2 := cancel_one _ _ _ s1).
  assert (H2 : sv_metas s2 !! id = None /\ sv_docs s2 !! id = None /\ no_files id (sv_files s2)).
  { unfold s2, cancel_one. destruct Hmb as [_ _ _ [-> _]]. destruct Hs1 as [-> _ _ _]. cbn [negb].
    rewrite Hu, Z.eqb_refl. cbn [negb]. split; [cbn; apply lookup_delete_eq|].
    split; [cbn; apply lookup_delete_eq|]. apply no_files_cleanup. by left. }
  destruct H2 as (Hm2 & Hd2 & Hf2).
  destruct (cancel_gone uid l2 id s2 Hm2 Hd2 Hf2) as (Hm & Hd & Hf).
  split; [|done]. unfold load_session. by rewrite Hd.
Qed.
End cancel.

(** ** Five bytes in chunks of two: three data chunks and one XOR parity chunk *)

Section example.
Definition small_orig : list Z := [1; 2; 3; 4; 5].
Definition small_mb : meta_bin :=
  MetaBin ex_token (CS "x") [1; 2] (replicate 12 3) 4 2 5 (CS "a.txt") 0 7 (upload_session_temp_path ex_id).
Definition small_doc : session_doc :=
  SessionDoc (UploadMeta (replicate 4 zero) (Some 0) 4 2 5 (Some 16) (Some 48) []) 7 0 (CS "a.txt") []
    ex_token (CS "x") [] [] (upload_session_temp_path ex_id) (CS "xor1") 1 1 (Some 0) (QArith_base.Qmake 0 1) 0 None [].
Definition small_server : Upload.server (ctx := list Z) :=
  Server (save_upload_session_state_bin ex_id 4 (Some (replicate 4 zero))
            (<[upload_session_temp_path ex_id := replicate 5 0]> ∅)).2
    {[ex_id := small_doc]} ∅ {[ex_id := small_mb]} cache_init [no_slot] [].

Definition small_chunk (ci : Z) : list Z := client_chunk small_mb small_orig false ci.

Definition small_request (ci : Z) : Z * list Z * chunk_request :=
  (1000, [1; 1],
   ChunkRequest (Some ex_id) (Some ex_token) None (Some (print_int ci)) None None None None None
     (small_chunk ci)).

Lemma small_bytes : Forall is_byte small_orig.
Proof. repeat (apply Forall_cons; split; [unfold is_byte; lia|]). constructor. Qed.

Lemma small_meta_ok : meta_ok ex_id small_mb.
Proof.
  split; [| |done|split; [reflexivity|apply Nat.leb_le; reflexivity]].
  - unfold good_geometry. cbn [mb_total_size mb_chunk_size small_mb].
    assert ((5 + 2 - 1) / 2 = 3) as -> by reflexivity. lia.
  - exists false. vm_compute. reflexivity.
Qed.

Lemma small_session_ok : session_ok ex_id small_mb small_server ∅.
Proof.
  split.
  - reflexivity.
  - intros p sl Hp Hv. apply ex_cache_fresh in Hp as [? _]. congruence.
  - apply (fresh_files_ok ex_id small_mb ∅); [done|vm_compute; discriminate..].
  - exists small_doc. split; [reflexivity|]. by split.
Qed.

(** The requests of the client, one per listed chunk. *)
Lemma small_honest l : Forall (fun ci => 0 <= ci < 4) l ->
  Forall2 (honest_request toy_codecs toy_gcm ex_id small_mb small_orig false) (map small_request l) l.
Proof.
  intros Hl. induction Hl as [|ci l Hci Hl IH]; [constructor|]. cbn. constructor; [|exact IH].
  assert (Hcases : ci = 0 \/ ci = 1 \/ ci = 2 \/ ci = 3) by lia.
  split; [done|]. split; [|split].
  - split; [done|]. split; [done|]. exists (print_int ci). split; [done|].
    by destruct Hcases as [-> | [-> | [-> | ->]]].
  - exists (small_chunk ci). by split.
  - split; [by repeat constructor|].
    destruct Hcases as [-> | [-> | [-> | ->]]]; vm_compute; discriminate.
Qed.

End example.

(** After the requests the session is open still. *)
#[local] Abbreviation small_after l :=
  (run_uploads [] app toy_codecs toy_gcm (map small_request l) small_server).

(** Membership in a concrete list. *)
Ltac in_list := apply (bool_decide_unpack _); vm_compute; exact I.

Lemma one_not_sent : ~ (1 ∈ [3; 0; 2]).
Proof. in_list. Qed.

Lemma upload_delivers_file_witness :
  exists d d' s', load_session ex_id (small_after [3; 1; 1; 0; 2]) = Some d /\
    finalize_receive (Some ex_id) (Some (d_upload_token d)) (small_after [3; 1; 1; 0; 2]) = inr (d', s') /\
    sv_files s' !! upload_session_temp_path ex_id = Some [1; 2; 3; 4; 5].
Proof.
  destruct (upload_delivers_file [] app toy_codecs toy_gcm ex_id small_mb small_orig false small_meta_ok
    eq_refl small_bytes eq_refl (map small_request [3; 1; 1; 0; 2]) [3; 1; 1; 0; 2] small_server
    small_session_ok eq_refl) as (d & Hd & d' & s' & H & Ht).
  - apply small_honest. repeat constructor; lia.
  - intros ci Hci. cbn [mb_chunk_count small_mb] in Hci.
    assert (ci = 0 \/ ci = 1 \/ ci = 2 \/ ci = 3) as [-> | [-> | [-> | ->]]] by lia; in_list.
  - exists d, d', s'. split; [exact Hd|]. split; [exact H|exact Ht].
Defined.

(** Chunk 1 is lost; the bitmap tells. *)
Lemma small_repairable : all_repairable ex_id small_mb small_orig false (small_after [3; 0; 2]).
Proof.
  intros b Hb g Hg.
  assert (E : sv_files (small_after [3; 0; 2]) !! upload_session_state_bin_path ex_id
              = Some [one; zero; one; one]) by (vm_compute; reflexivity).
  rewrite E in Hb. injection Hb as <-.
  assert (Hdc : data_count small_mb = 3) by reflexivity. rewrite Hdc in Hg.
  assert (g = 0) as -> by (assert ((3 + 5) / 6 = 1) by reflexivity; lia).
  vm_compute. reflexivity.
Qed.

Lemma finalize_recovers_file_witness :
  exists d d' s', load_session ex_id (small_after [3; 0; 2]) = Some d /\
    finalize_receive (Some ex_id) (Some (d_upload_token d)) (small_after [3; 0; 2]) = inr (d', s') /\
    sv_files s' !! upload_session_temp_path ex_id = Some [1; 2; 3; 4; 5].
Proof.
  destruct (load_session ex_id (small_after [3; 0; 2])) as [d|] eqn:Hd; [|by vm_compute in Hd].
  destruct (finalize_recovers_file [] app toy_codecs toy_gcm ex_id small_mb small_orig false small_meta_ok
    eq_refl small_bytes eq_refl (map small_request [3; 0; 2]) [3; 0; 2] small_server d
    small_session_ok eq_refl) as (s' & Ht & Hp & _).
  - apply small_honest. repeat constructor; lia.
  - exact Hd.
  - intros H. specialize (H 1 ltac:(vm_compute; split; [discriminate|reflexivity])). by apply one_not_sent.
  - exact small_repairable.
  - destruct Hp as [d' H].
    + intros ci Hci. assert (Hdc : data_count small_mb = 3) by reflexivity. rewrite Hdc in Hci.
      cbn [mb_chunk_count small_mb] in Hci. assert (ci = 3) as -> by lia. in_list.
    + exists d, d', s'. split; [reflexivity|]. split; [exact H|exact Ht].
Defined.

Lemma complete_refuses_recoverable_witness :
  exists d st, load_session ex_id (small_after [3; 0; 2]) = Some d /\
    handler_file_upload_complete 2000 true (Some ex_id) (Some (d_upload_token d)) None
      (small_after [3; 0; 2]) (Finalize [no_finalize] ∅ 0)
    = (Reply 409 (Incomplete (CS "missing upload chunks") st), None, Finalize [no_finalize] ∅ 2000).
Proof.
  destruct (load_session ex_id (small_after [3; 0; 2])) as [d|] eqn:Hd; [|by vm_compute in Hd].
  destruct (run_honest [] app toy_codecs toy_gcm ex_id small_mb small_orig false small_meta_ok eq_refl
    small_bytes eq_refl (map small_request [3; 0; 2]) [3; 0; 2]
    (small_honest [3; 0; 2] ltac:(repeat constructor; lia)) small_server ∅ small_session_ok)
    as (M & Hs & _ & HM).
  { intros ci p Hp. by rewrite lookup_empty in Hp. }
  assert (Hinc : ~ complete_map small_mb M).
  { intros Hc. pose proof (proj1 (complete_map_spec small_mb M) Hc 1
      ltac:(vm_compute; split; [discriminate|reflexivity])) as H1.
    apply HM in H1 as [[? ?]|H1]; [done|by apply one_not_sent]. }
  destruct (complete_refuses_recoverable ex_id small_mb small_orig false small_meta_ok eq_refl
    small_bytes eq_refl (small_after [3; 0; 2]) M d 2000 true None (Finalize [no_finalize] ∅ 0)
    Hs Hd Hinc) as [H _].
  { vm_compute in Hd. injection Hd as <-. vm_compute. reflexivity. }
  destruct (handler_file_upload_complete _ _ _ _ _ _ _) as [[r job] f'].
  destruct H as (-> & -> & ->). exists d, (build_upload_status_json (d_meta d)).
  split; [reflexivity|]. f_equal. vm_compute in Hd. injection Hd as <-. vm_compute. reflexivity.
Defined.

Lemma cancel_only_own_witness :
  load_session ex_id (handler_file_upload_cancel [] (Some 7) (Some [None; Some ex_id]) small_server).2 = None /\
  exists M, session_ok ex_id small_mb
    (handler_file_upload_cancel [] (Some 8) (Some [Some ex_id]) small_server).2 M.
Proof.
  split.
  - destruct (cancel_only_own [] 7 [None; Some ex_id] ex_id small_mb small_server ∅ small_meta_ok
      small_session_ok) as [_ H]. destruct H as (_ & _ & H). apply H; [reflexivity|in_list].
  - exists ∅. destruct (cancel_only_own [] 8 [Some ex_id] ex_id small_mb small_server ∅ small_meta_ok
      small_session_ok) as [_ H]. destruct H as (_ & H & _). apply H. by left.
Defined.
