(* ===== verification/Htp.v ===== *)
(** * Hash-tag integrity of groups (src/src/handlers/tasfa/htp.c)

    Six chunks form a triangle: their scalars lie on three lines of three slots, corners 0, 2, 4
    shared by two lines and sides 1, 3, 5 on one.  A group is consistent when the three line sums
    agree.  This file has the line sums on every vector backend, the search for a reordering
    that restores a group, the syndrome analysis, and the contraction of groups. *)
From Stdlib Require Import SpecFloat Permutation FinFun.
From S2P Require Import Prelude CStr Files TasfaCommon Session Upload.

(** ** Doubles: IEEE 754 binary64 *)

Abbreviation double := spec_float.
Definition double_of_Z (z : Z) : double := binary_normalize 53 1024 z 0 false.
Definition double_add : double -> double -> double := SFadd 53 1024.
Definition double_mul : double -> double -> double := SFmul 53 1024.
Definition double_div : double -> double -> double := SFdiv 53 1024.
Definition double_half : double := binary_normalize 53 1024 1 (-1) false.

(** ** Line sums *)

Record htp_line_sums_t := HtpLineSums { l1 : Z; l2 : Z; l3 : Z }.

Definition add64 (a b : Z) : Z := u64 (a + b).
Definition slot6 (v : list Z) (i : nat) : Z := nth i v 0.

(** The vector unit the file is compiled for. *)
Inductive backend := Avx2 | Vec128 | Scalar.

Definition vec_add (a b : list Z) : list Z := zip_with add64 a b.

Definition htp_line_sums (simd : backend) (v : list Z) (modulus_M : Z) : htp_line_sums_t :=
  let modulus_M := if modulus_M =? 0 then 1 else modulus_M in
  let s := slot6 v in
  match simd with
  | Avx2 =>
      let v_left := [s 0%nat; s 2%nat; s 4%nat; 0] in
      let v_mid := [s 1%nat; s 3%nat; s 5%nat; 0] in
      let v_right := [s 2%nat; s 4%nat; s 0%nat; 0] in
      let v_sum := vec_add (vec_add v_left v_mid) v_right in
      HtpLineSums (nth 0 v_sum 0 `mod` modulus_M) (nth 1 v_sum 0 `mod` modulus_M)
        (nth 2 v_sum 0 `mod` modulus_M)
  | Vec128 =>
      let pair := vec_add (vec_add [s 0%nat; s 2%nat] [s 1%nat; s 3%nat]) [s 2%nat; s 4%nat] in
      HtpLineSums (nth 0 pair 0 `mod` modulus_M) (nth 1 pair 0 `mod` modulus_M)
        (add64 (add64 (s 4%nat) (s 5%nat)) (s 0%nat) `mod` modulus_M)
  | Scalar =>
      HtpLineSums (add64 (add64 (s 0%nat) (s 1%nat)) (s 2%nat) `mod` modulus_M)
        (add64 (add64 (s 2%nat) (s 3%nat)) (s 4%nat) `mod` modulus_M)
        (add64 (add64 (s 4%nat) (s 5%nat)) (s 0%nat) `mod` modulus_M)
  end.

Definition lines_agree (sums : htp_line_sums_t) : bool := (l1 sums =? l2 sums) && (l2 sums =? l3 sums).

(** ** Suspects of a group *)

Record htp_suspect_t := HtpSuspect { chunk_index : Z; suspicion_score : double }.

(** [out] holds the suspects found so far; a consistent group sets the count to zero. *)
Definition htp_analyze_group (simd : backend) (v : list Z) (modulus_M group_start : Z)
    (out : list htp_suspect_t) : list htp_suspect_t :=
  let sums := htp_line_sums simd v modulus_M in
  let L1 := l1 sums in
  let L2 := l2 sums in
  let L3 := l3 sums in
  let sus i score := HtpSuspect (group_start + i) score in
  let one := double_of_Z 1 in
  if (L1 =? L2) && (L2 =? L3) then []
  else if (L2 =? L3) && negb (L1 =? L2) then out ++ [sus 1 one; sus 4 double_half]
  else if (L1 =? L3) && negb (L2 =? L1) then out ++ [sus 3 one; sus 0 double_half]
  else if (L1 =? L2) && negb (L3 =? L1) then out ++ [sus 5 one; sus 2 double_half]
  else
    let diff12 := if L2 <? L1 then L1 - L2 else L2 - L1 in
    let diff23 := if L3 <? L2 then L2 - L3 else L3 - L2 in
    let diff31 := if L1 <? L3 then L3 - L1 else L1 - L3 in
    let d12 := double_of_Z diff12 in
    let d23 := double_of_Z diff23 in
    let d31 := double_of_Z diff31 in
    let d_total := double_add (double_add d12 d23) d31 in
    let d_total := if SFleb d_total (double_of_Z 0) then one else d_total in
    let weight x := double_div x (double_mul (double_of_Z 2) d_total) in
    out ++ [sus 0 (weight (double_add d31 d12)); sus 1 (weight d12);
            sus 2 (weight (double_add d12 d23)); sus 3 (weight d23);
            sus 4 (weight (double_add d23 d31)); sus 5 (weight d31)].

Definition compare_suspect_desc (sa sb : htp_suspect_t) : Z :=
  if SFltb (suspicion_score sb) (suspicion_score sa) then -1
  else if SFltb (suspicion_score sa) (suspicion_score sb) then 1
  else chunk_index sa - chunk_index sb.

(** ** Orders of the six slots *)

(** [i] counts down from [n - 2]: the argument is [i + 1]. *)
Fixpoint find_pivot (a : list Z) (k : nat) : option nat :=
  match k with
  | O => None
  | S i => if nth (S i) a 0 <=? nth i a 0 then find_pivot a i else Some i
  end.

Fixpoint find_succ (a : list Z) (x : Z) (j : nat) : nat :=
  match j with
  | O => O
  | S j' => if nth j a 0 <=? x then find_succ a x j' else j
  end.

Definition swap_at (i j : nat) (a : list Z) : list Z :=
  <[i := nth j a 0]> (<[j := nth i a 0]> a).

Fixpoint reverse_between (fuel l r : nat) (a : list Z) : list Z :=
  match fuel with
  | O => a
  | S fuel' => if (l <? r)%nat then reverse_between fuel' (S l) (r - 1) (swap_at l r a) else a
  end.

Definition next_permutation_int (a : list Z) : option (list Z) :=
  let n := length a in
  match find_pivot a (n - 1) with
  | None => None
  | Some i =>
      let j := find_succ a (nth i a 0) (n - 1) in
      Some (reverse_between n (i + 1) (n - 1) (swap_at i j a))
  end.

(** The loop [while (next_permutation_int(perm, 6))]: the first order the test accepts. *)
Fixpoint search_order (fuel : nat) (accept : list Z -> bool) (perm : list Z) : option (list Z) :=
  match fuel with
  | O => None
  | S fuel' =>
      match next_permutation_int perm with
      | None => None
      | Some p => if accept p then Some p else search_order fuel' accept p
      end
  end.

Definition slots6 : list Z := [0; 1; 2; 3; 4; 5].

Definition permuted {A} (d : A) (perm : list Z) (l : list A) : list A :=
  map (fun k => nth (Z.to_nat k) l d) perm.

(** The six entries of a group, and the array with a group replaced. *)
Definition group_of {A} (d : A) (group_start : Z) (l : list A) : list A :=
  map (fun k => nth (Z.to_nat (group_start + k)) l d) slots6.

Definition set_group {A} (group_start : Z) (new l : list A) : list A :=
  foldl (fun l x => <[Z.to_nat (group_start + Z.of_nat x.1) := x.2]> l) l
    (zip (seq 0 6) new).

(** ** Repair by reordering *)

Record htp_arrays := HtpArrays {
  ha_tags : list (list Z);          (* HTP_TAG_LEN bytes each *)
  ha_raw : list Z;
  ha_balanced : list Z;
}.

(** The six records of htp.bin are rewritten only when all of them can be read. *)
Definition permute_htp_bin (group_start : Z) (perm : list Z) (file : list Z) : list Z :=
  let at_slot k := Z.to_nat ((group_start + k) * HTP_RECORD_SIZE) in
  let size := Z.to_nat HTP_RECORD_SIZE in
  let recs := map (fun k => pread file (at_slot k) size) slots6 in
  if forallb (fun r => zlen r =? HTP_RECORD_SIZE) recs
  then foldl (fun file x => pwrite file (at_slot x.1) x.2) file (zip slots6 (permuted [] perm recs))
  else file.

Definition htp_try_swap_repair (simd : backend) (upload_id : cstr) (a : htp_arrays) (group_start modulus_M : Z)
    (f : fs) : bool * htp_arrays * fs :=
  let v := group_of 0 group_start (ha_balanced a) in
  if lines_agree (htp_line_sums simd v modulus_M) then (false, a, f)
  else
    match search_order 720 (fun p => lines_agree (htp_line_sums simd (permuted 0 p v) modulus_M)) slots6 with
    | None => (false, a, f)
    | Some perm =>
        let move {A} (d : A) l := set_group group_start (permuted d perm (group_of d group_start l)) l in
        let a := HtpArrays (move [] (ha_tags a)) (move 0 (ha_raw a)) (move 0 (ha_balanced a)) in
        let f := match f !! htp_path upload_id with
                 | Some file => <[htp_path upload_id := permute_htp_bin group_start perm file]> f
                 | None => f
                 end in
        (true, a, f)
    end.

(** ** The records on disk *)

(** The bytes of a tag that could not be read are not set; its first byte is. *)
Definition load_record (file : list Z) (i : nat) : list Z * Z * Z :=
  let offset := (i * Z.to_nat HTP_RECORD_SIZE)%nat in
  let n := Z.to_nat HTP_TAG_LEN in
  let tag := pread file offset n in
  let raw := pread file (offset + n) 8 in
  let balanced := pread file (offset + n + 8) 8 in
  (if zlen tag =? HTP_TAG_LEN then tag else [0],
   if zlen raw =? 8 then le64 raw else 0,
   if zlen balanced =? 8 then le64 balanced else 0).

Definition load_htp_scalars (upload_id : cstr) (chunk_count : Z) (f : fs) : option htp_arrays :=
  match f !! htp_path upload_id with
  | None => None
  | Some file =>
      let recs := map (load_record file) (seq 0 (Z.to_nat chunk_count)) in
      Some (HtpArrays (map (fun r => r.1.1) recs) (map (fun r => r.1.2) recs) (map snd recs))
  end.

(** ** Contraction *)

Definition HTP_REPAIR_CPU_PER_SUSPECT : double := double_of_Z 2048.
Definition HTP_REPAIR_CPU_PER_L0_GROUP : double := double_of_Z 512.

Definition htp_repair_worthwhile (suspect_count total_chunks chunk_size : Z) (rtt_ms : double) : bool :=
  if suspect_count <? 12 then false
  else
    let retry_bytes := suspect_count * chunk_size in
    let rtt_factor := if SFleb rtt_ms (double_of_Z 0) then double_of_Z 1
                      else double_div rtt_ms (double_of_Z 100) in
    let retry_cost := double_mul (double_of_Z retry_bytes) rtt_factor in
    let repair_cost := double_add (double_mul (double_of_Z suspect_count) HTP_REPAIR_CPU_PER_SUSPECT)
                         (double_mul (double_of_Z (Z.quot total_chunks 6)) HTP_REPAIR_CPU_PER_L0_GROUP) in
    SFltb repair_cost retry_cost.

(** The scalar a level-0 group is collapsed to. *)
Definition group_agg (simd : backend) (modulus_M : Z) (v : list Z) : Z :=
  let sums := htp_line_sums simd v modulus_M in
  let r12 := u64 (u64 (l1 sums + modulus_M) - l2 sums) `mod` modulus_M in
  let r23 := u64 (u64 (l2 sums + modulus_M) - l3 sums) `mod` modulus_M in
  u64 (r12 * r23) `mod` modulus_M.

(** The masks [1 << (chunk_index % 6)] of the suspects of each group. *)
Definition suspect_mask (suspects : list htp_suspect_t) (g : Z) : Z :=
  foldl (fun mask s => if Z.quot (chunk_index s) 6 =? g
                       then Z.lor mask (Z.shiftl 1 (Z.rem (chunk_index s) 6)) else mask) 0 suspects.

(** The first score recorded for a chunk. *)
Definition preserved_score (orig : list htp_suspect_t) (ci : Z) : double :=
  match List.find (fun s => chunk_index s =? ci) orig with
  | Some s => suspicion_score s
  | None => double_of_Z 0
  end.

Definition keep_group (orig : list htp_suspect_t) (next : list htp_suspect_t) (g : Z) : list htp_suspect_t :=
  foldl (fun next s =>
      let ci := g * 6 + s in
      if Z.testbit (suspect_mask orig g) s
      then if existsb (fun k => chunk_index k =? ci) next then next
           else next ++ [HtpSuspect ci (preserved_score orig ci)]
      else next) next slots6.

(** A group of six aggregates: the groups it has, and whether its lines differ. *)
Definition level1_groups (group_count lg : Z) : list Z :=
  List.filter (fun g => g <? group_count) (map (fun v => lg * 6 + v) slots6).

Definition level1_fails (simd : backend) (modulus_M : Z) (aggs : list Z) : bool :=
  let lgs := length aggs in
  if (lgs <? 3)%nat then false
  else
    let sums := htp_line_sums simd aggs modulus_M in
    let LL1 := l1 sums in
    let LL2 := if (3 <? lgs)%nat then l2 sums else LL1 in
    let LL3 := if (5 <? lgs)%nat then l3 sums else LL1 in
    negb ((LL1 =? LL2) && (LL2 =? LL3)).

(** The count returned and the array, whose first entries are the suspects kept. *)
Definition htp_contract_groups (simd : backend) (balanced_scalars : list Z) (chunk_count modulus_M : Z)
    (suspects : list htp_suspect_t) : nat * list htp_suspect_t :=
  let group_count := Z.quot chunk_count 6 in
  if (group_count <? 1) || (length suspects <? 1)%nat then (length suspects, suspects)
  else
    let agg g := group_agg simd modulus_M (group_of 0 (g * 6) balanced_scalars) in
    let next := foldl (fun next lg =>
        let gs := level1_groups group_count lg in
        if level1_fails simd modulus_M (map agg gs) then foldl (keep_group suspects) next gs else next)
      [] (map Z.of_nat (seq 0 (Z.to_nat (Z.quot (group_count + 5) 6)))) in
    (length next, next ++ drop (length next) suspects).

(** ** The backends agree *)

Lemma htp_line_sums_scalar simd v modulus_M :
  htp_line_sums simd v modulus_M = htp_line_sums Scalar v modulus_M.
Proof. by destruct simd. Qed.

(** ** The loop over the orders visits each of them once *)

Fixpoint orders (fuel : nat) (perm : list Z) : list (list Z) :=
  match fuel with
  | O => []
  | S fuel' => match next_permutation_int perm with None => [] | Some p => p :: orders fuel' p end
  end.

Lemma search_order_find fuel accept perm :
  search_order fuel accept perm = List.find accept (orders fuel perm).
Proof.
  revert perm. induction fuel as [|fuel IH]; intros perm; [done|]. cbn.
  destruct (next_permutation_int perm) as [p|]; [|done]. cbn. by rewrite IH.
Qed.

Fixpoint insertions (x : Z) (l : list Z) : list (list Z) :=
  match l with
  | [] => [[x]]
  | y :: l' => (x :: l) :: map (cons y) (insertions x l')
  end.

Fixpoint all_orders (l : list Z) : list (list Z) :=
  match l with
  | [] => [[]]
  | x :: l' => flat_map (insertions x) (all_orders l')
  end.

Lemma in_insertions x l1 l2 : In (l1 ++ x :: l2) (insertions x (l1 ++ l2)).
Proof.
  induction l1 as [|y l1 IH]; cbn.
  - destruct l2; cbn; by left.
  - right. by apply in_map.
Qed.

Lemma in_all_orders p l : Permutation p l -> In p (all_orders l).
Proof.
  revert p. induction l as [|x l IH]; intros p H; cbn.
  - apply Permutation_sym, Permutation_nil in H as ->. by left.
  - destruct (Permutation_vs_cons_inv H) as (p1 & p2 & ->).
    apply in_flat_map. exists (p1 ++ p2). split; [|apply in_insertions].
    apply IH. apply Permutation_sym, (Permutation_cons_app_inv _ _ (a := x)).
    by apply Permutation_sym.
Qed.

(** The list the loop goes through, evaluated. *)
Definition orders6 : list (list Z) := Eval vm_compute in orders 720 slots6.

Lemma orders6_eq : orders 720 slots6 = orders6.
Proof. vm_compute. reflexivity. Qed.

Lemma orders6_complete p : Permutation p slots6 -> p = slots6 \/ In p orders6.
Proof.
  intros H. apply in_all_orders in H.
  assert (Hall : forallb (fun q => bool_decide (q = slots6) || existsb (fun r => bool_decide (q = r)) orders6)
                   (all_orders slots6) = true) by (vm_compute; reflexivity).
  rewrite forallb_forall in Hall. apply Hall in H. apply orb_true_iff in H as [H|H].
  - left. by apply bool_decide_eq_true in H.
  - right. apply existsb_exists in H as (r & Hr & E). by apply bool_decide_eq_true in E as ->.
Qed.

Lemma orders6_sound p : In p orders6 -> Permutation p slots6.
Proof.
  intros H.
  assert (Hall : forallb (fun q => bool_decide (length q = 6%nat) && forallb (fun k => existsb (Z.eqb k) q) slots6)
                   orders6 = true) by (vm_compute; reflexivity).
  rewrite forallb_forall in Hall. apply Hall, andb_true_iff in H as [Hl Hin].
  apply bool_decide_eq_true in Hl. apply Permutation_sym, NoDup_Permutation_bis.
  - apply NoDup_ListNoDup, (bool_decide_unpack _). vm_compute. exact I.
  - cbn. lia.
  - intros k Hk. rewrite forallb_forall in Hin. apply Hin, existsb_exists in Hk as (k' & ? & E).
    by apply Z.eqb_eq in E as ->.
Qed.

(** The loop ends by itself: after the last order there is no next one. *)
Lemma orders6_last : next_permutation_int (List.last orders6 []) = None /\ length orders6 = 719%nat.
Proof. split; vm_compute; reflexivity. Qed.

(** ** Reading and replacing a group *)

Section group.
Context {A : Type} (d : A) (gs : Z).

Lemma length_set_group new (l : list A) : length (set_group gs new l) = length l.
Proof.
  unfold set_group. generalize (zip (seq 0 6) new). intros ups. revert l.
  induction ups as [|x ups IH]; intros l; [done|]. cbn. by rewrite IH, length_insert.
Qed.

Lemma length_group_of (l : list A) : length (group_of d gs l) = 6%nat.
Proof. done. Qed.

Lemma length_permuted perm (l : list A) : length (permuted d perm l) = length perm.
Proof. apply length_map. Qed.

Lemma lookup_group_of (l : list A) k : 0 <= gs -> (k < 6)%nat -> (Z.to_nat gs + 6 <= length l)%nat ->
  group_of d gs l !! k = l !! (Z.to_nat gs + k)%nat.
Proof.
  intros Hgs Hk Hl. unfold group_of.
  assert (Hs : slots6 !! k = Some (Z.of_nat k)) by (do 6 (destruct k as [|k]; [done|]); lia).
  rewrite list_lookup_fmap, Hs. cbn. rewrite nth_lookup.
  replace (Z.to_nat (gs + Z.of_nat k)) with (Z.to_nat gs + k)%nat by lia.
  by destruct (lookup_lt_is_Some_2 l (Z.to_nat gs + k)) as [x ->]; [lia|].
Qed.

Lemma lookup_set_group new (l : list A) i : 0 <= gs -> length new = 6%nat -> (Z.to_nat gs + 6 <= length l)%nat ->
  set_group gs new l !! i =
  if decide (Z.to_nat gs <= i < Z.to_nat gs + 6)%nat then new !! (i - Z.to_nat gs)%nat else l !! i.
Proof.
  intros Hgs Hn Hl. destruct new as [|n0 [|n1 [|n2 [|n3 [|n4 [|n5 [|]]]]]]]; try done.
  unfold set_group. cbn [seq zip zip_with foldl fst snd].
  assert (E : forall k, Z.to_nat (gs + Z.of_nat k) = (Z.to_nat gs + k)%nat) by lia. rewrite !E. clear E.
  set (n := Z.to_nat gs) in *.
  repeat match goal with
  | |- context [<[?p := ?x]> ?m !! i] =>
      destruct (decide (i = p)) as [-> | ?];
      [rewrite list_lookup_insert_eq by (rewrite ?length_insert; lia);
       rewrite decide_True by lia; match goal with |- context [(?a - ?b)%nat] =>
         match a with (b + ?k)%nat => replace (a - b)%nat with k by lia end end; reflexivity
      |rewrite list_lookup_insert_ne by done]
  end.
  case_decide; [lia|done].
Qed.

Lemma group_of_set_group new (l : list A) : 0 <= gs -> length new = 6%nat -> (Z.to_nat gs + 6 <= length l)%nat ->
  group_of d gs (set_group gs new l) = new.
Proof.
  intros Hgs Hn Hl. apply list_eq. intros k. destruct (decide (k < 6)%nat) as [Hk|Hk].
  - rewrite lookup_group_of by (rewrite ?length_set_group; lia).
    rewrite lookup_set_group by done. rewrite decide_True by lia. f_equal. lia.
  - rewrite !lookup_ge_None_2; rewrite ?length_group_of; [done|lia|lia].
Qed.
End group.

(** The values of the slots in another order, and every such order. *)
Lemma permuted_slots {A} (d : A) v : length v = 6%nat -> permuted d slots6 v = v.
Proof. intros H. by destruct v as [|? [|? [|? [|? [|? [|? [|]]]]]]]. Qed.

Lemma permuted_Permutation {A} (d : A) v p : length v = 6%nat -> Permutation p slots6 ->
  Permutation (permuted d p v) v.
Proof. intros Hv Hp. rewrite <- (permuted_slots d v Hv) at 2. by apply Permutation_map. Qed.

Lemma Permutation_permuted {A} (d : A) v w : length v = 6%nat -> Permutation w v ->
  exists p, Permutation p slots6 /\ w = permuted d p v.
Proof.
  intros Hv Hw. rewrite <- (permuted_slots d v Hv) in Hw.
  destruct (Permutation_map_inv _ _ Hw) as (p & -> & Hp). exists p. split; [by apply Permutation_sym|done].
Qed.

(** ** The file follows the arrays *)

#[local] Abbreviation size := (Z.to_nat HTP_RECORD_SIZE).

Lemma pread_pread file off n o k : (o + k <= n)%nat -> pread (pread file off n) o k = pread file (off + o) k.
Proof.
  intros H. apply list_eq. intros i. destruct (decide (i < k)%nat) as [Hi|Hi].
  - rewrite !lookup_pread by lia. f_equal. lia.
  - rewrite !lookup_ge_None_2; [done|..]; rewrite length_pread; lia.
Qed.

(** A record is read from its own bytes. *)
Lemma load_record_own file i : load_record file i = load_record (pread file (i * size) size) 0.
Proof.
  unfold load_record. cbv zeta. rewrite !pread_pread by (vm_compute; lia).
  by rewrite Nat.mul_0_l, !Nat.add_0_l, Nat.add_0_r, <- !Nat.add_assoc.
Qed.

Lemma pwrite_records (ups : list (nat * list Z)) file :
  (forall x, In x ups -> length x.2 = size /\ (x.1 * size + size <= length file)%nat) ->
  List.NoDup (map fst ups) ->
  let file' := foldl (fun f x => pwrite f (x.1 * size) x.2) file ups in
  length file' = length file /\
  forall j, pread file' (j * size) size =
    match List.find (fun x => Nat.eqb x.1 j) ups with
    | Some x => x.2
    | None => pread file (j * size) size
    end.
Proof.
  assert (Hp : (0 < size)%nat) by (vm_compute; lia). generalize dependent size. intros size Hp.
  revert file. induction ups as [|x ups IH]; intros file Hups Hnd; [done|]. cbn [foldl map].
  apply List.NoDup_cons_iff in Hnd as [Hni Hnd].
  destruct (Hups x (or_introl eq_refl)) as [Hx Hin].
  assert (Hlen : length (pwrite file (x.1 * size) x.2) = length file) by (apply length_pwrite; lia).
  destruct (IH (pwrite file (x.1 * size) x.2)) as [Hl Hr]; [|done|].
  { intros y Hy. rewrite Hlen. apply Hups. by right. }
  split; [by rewrite Hl|]. intros j. rewrite Hr. cbn [List.find].
  destruct (Nat.eqb_spec x.1 j) as [<-|Hne].
  - destruct (List.find _ ups) as [y|] eqn:E.
    + apply find_some in E as [Hy Ey]. apply Nat.eqb_eq in Ey. destruct Hni. rewrite <- Ey. by apply in_map.
    + rewrite <- Hx at 3. apply pread_pwrite_same. lia.
  - destruct (List.find _ ups); [done|]. apply pread_pwrite_disjoint; [lia|]. nia.
Qed.

(** What the new record of a slot is. *)
Definition moved_record (gs : Z) (perm : list Z) (j : nat) : nat :=
  if decide (Z.to_nat gs <= j < Z.to_nat gs + 6)%nat
  then Z.to_nat (gs + nth (j - Z.to_nat gs)%nat perm 0) else j.

Lemma in_slots6 k : In k slots6 <-> 0 <= k < 6.
Proof. split; [intros H; repeat destruct H as [<- | H]; lia || done|]. intros H.
  assert (k = 0 \/ k = 1 \/ k = 2 \/ k = 3 \/ k = 4 \/ k = 5) by lia. cbn. naive_solver.
Qed.

Lemma perm_slot perm i : Permutation perm slots6 -> (i < 6)%nat -> 0 <= nth i perm 0 < 6.
Proof.
  intros H Hi. apply in_slots6, (Permutation_in _ H), nth_In.
  by rewrite (Permutation_length H).
Qed.

Lemma slot_offset i : 0 <= i -> Z.to_nat (i * HTP_RECORD_SIZE) = (Z.to_nat i * size)%nat.
Proof. intros H. rewrite Z2Nat.inj_mul; [done|done|]. by vm_compute. Qed.

(** The records as the code reads them and where it writes them. *)
Lemma group_records gs file : 0 <= gs -> (Z.to_nat gs * size + 6 * size <= length file)%nat ->
  let rec k := pread file (Z.to_nat ((gs + k) * HTP_RECORD_SIZE)) size in
  forall k, 0 <= k < 6 -> rec k = pread file (Z.to_nat (gs + k) * size) size /\ length (rec k) = size.
Proof.
  intros Hgs Hfile rec k Hk.
  unfold rec. rewrite slot_offset by lia. split; [done|]. rewrite length_pread. clear rec. revert Hfile.
  generalize size. intros n Hfile.
  pose proof (Nat.mul_le_mono_r (Z.to_nat (gs + k) + 1) (Z.to_nat gs + 6) n ltac:(lia)). lia.
Qed.

Lemma permute_htp_bin_spec gs perm file : 0 <= gs -> (Z.to_nat gs * size + 6 * size <= length file)%nat ->
  Permutation perm slots6 ->
  let file' := permute_htp_bin gs perm file in
  length file' = length file /\ forall j, load_record file' j = load_record file (moved_record gs perm j).
Proof.
  intros Hgs Hfile Hperm. unfold permute_htp_bin. cbv zeta.
  pose proof (group_records gs file Hgs Hfile) as Hrec. cbv zeta in Hrec.
  set (rec := fun k => pread file _ size) in *.
  assert (Hall : forallb (fun r => zlen r =? HTP_RECORD_SIZE) (map rec slots6) = true).
  { apply forallb_forall. intros r Hr. apply in_map_iff in Hr as (k & <- & Hk). apply in_slots6 in Hk.
    apply Z.eqb_eq. unfold zlen. by rewrite (proj2 (Hrec k Hk)). }
  rewrite Hall.
  (* the writes, at the slots of the group *)
  set (ups := map (fun i => ((Z.to_nat gs + i)%nat, rec (nth i perm 0))) (seq 0 6)).
  assert (Hups : foldl (fun file x => pwrite file (Z.to_nat ((gs + x.1) * HTP_RECORD_SIZE)) x.2) file
                   (zip slots6 (permuted [] perm (map rec slots6)))
                 = foldl (fun f x => pwrite f (x.1 * size) x.2) file ups).
  { destruct perm as [|p0 [|p1 [|p2 [|p3 [|p4 [|p5 [|]]]]]]];
      try (by apply Permutation_length in Hperm).
    assert (Hp : forall k, In k [p0; p1; p2; p3; p4; p5] -> nth (Z.to_nat k) (map rec slots6) [] = rec k).
    { intros k Hk. apply (Permutation_in _ Hperm), in_slots6 in Hk.
      assert (k = 0 \/ k = 1 \/ k = 2 \/ k = 3 \/ k = 4 \/ k = 5) by lia. naive_solver. }
    unfold permuted, ups. cbn [seq map zip zip_with foldl fst snd nth slots6] in *.
    rewrite !Hp by (cbn; auto 8).
    assert (E : forall k, 0 <= k -> Z.to_nat ((gs + k) * HTP_RECORD_SIZE) = ((Z.to_nat gs + Z.to_nat k) * size)%nat).
    { intros k Hk. rewrite slot_offset by lia. f_equal. lia. }
    by rewrite !E by lia. }
  rewrite Hups. clear Hups.
  destruct (pwrite_records ups file) as [Hl Hr].
  { intros x Hx. apply in_map_iff in Hx as (i & <- & Hi). apply in_seq in Hi. cbn [fst snd].
    split; [apply Hrec, perm_slot; [done|lia]|].
    pose proof (Nat.mul_le_mono_r (Z.to_nat gs + i + 1) (Z.to_nat gs + 6) size ltac:(lia)). lia. }
  { unfold ups. rewrite map_map. cbn [fst]. apply Injective_map_NoDup, List.seq_NoDup. intros a b. lia. }
  split; [exact Hl|]. intros j. rewrite load_record_own, Hr. unfold moved_record, ups.
  case_decide as Hj.
  - destruct (List.find _ _) as [x|] eqn:E.
    + apply find_some in E as [Hx Ex]. apply Nat.eqb_eq in Ex.
      apply in_map_iff in Hx as (i & <- & Hi). cbn [fst snd] in *. apply in_seq in Hi.
      replace (j - Z.to_nat gs)%nat with i by lia.
      rewrite (proj1 (Hrec _ (perm_slot perm i Hperm ltac:(lia)))). by rewrite <- load_record_own.
    + exfalso. refine (Bool.diff_true_false _). rewrite <- (find_none _ _ E ((Z.to_nat gs + (j - Z.to_nat gs))%nat, rec (nth (j - Z.to_nat gs)%nat perm 0))).
      * symmetry. apply Nat.eqb_eq. cbn. lia.
      * apply (in_map (fun i => ((Z.to_nat gs + i)%nat, rec (nth i perm 0)))). apply in_seq. lia.
  - destruct (List.find _ _) as [x|] eqn:E; [|by rewrite <- load_record_own].
    apply find_some in E as [Hx Ex]. apply Nat.eqb_eq in Ex.
    apply in_map_iff in Hx as (i & <- & Hi). apply in_seq in Hi. cbn in Ex. lia.
Qed.

Lemma move_lookup {A} (d : A) gs p l j : 0 <= gs -> (Z.to_nat gs + 6 <= length l)%nat -> Permutation p slots6 ->
  set_group gs (permuted d p (group_of d gs l)) l !! j = l !! moved_record gs p j.
Proof.
  intros Hgs Hl Hp.
  assert (Hlen : length (permuted d p (group_of d gs l)) = 6%nat)
    by (rewrite length_permuted; by apply Permutation_length in Hp).
  rewrite lookup_set_group by done. unfold moved_record. case_decide as Hj; [|done].
  set (i := (j - Z.to_nat gs)%nat). pose proof (perm_slot p i Hp ltac:(lia)) as Hi.
  unfold permuted. rewrite list_lookup_fmap.
  destruct (lookup_lt_is_Some_2 p i) as [k Hk]; [rewrite (Permutation_length Hp); cbn; lia|].
  rewrite (nth_lookup p i 0), Hk in *. cbn [default from_option fmap option_fmap option_map] in *. unfold Datatypes.id in *.
  rewrite nth_lookup, lookup_group_of by lia.
  replace (Z.to_nat (gs + k)) with (Z.to_nat gs + Z.to_nat k)%nat by lia.
  destruct (lookup_lt_is_Some_2 l (Z.to_nat gs + Z.to_nat k)) as [x Hx]; [lia|]. by rewrite Hx.
Qed.

Lemma moved_record_lt gs p j n : Permutation p slots6 -> 0 <= gs -> (Z.to_nat gs + 6 <= n)%nat -> (j < n)%nat ->
  (moved_record gs p j < n)%nat.
Proof.
  intros Hp Hgs Hn Hj. unfold moved_record. case_decide; [|done].
  pose proof (perm_slot p (j - Z.to_nat gs) Hp ltac:(lia)). lia.
Qed.

(** The search, as a property of the values. *)
Lemma search_spec simd v modulus_M : length v = 6%nat ->
  lines_agree (htp_line_sums simd v modulus_M) = false ->
  match search_order 720 (fun p => lines_agree (htp_line_sums simd (permuted 0 p v) modulus_M)) slots6 with
  | Some p => Permutation p slots6 /\ lines_agree (htp_line_sums simd (permuted 0 p v) modulus_M) = true
  | None => forall w, Permutation w v -> lines_agree (htp_line_sums simd w modulus_M) = false
  end.
Proof.
  intros Hv Hbad. rewrite search_order_find, orders6_eq. destruct (List.find _ orders6) as [p|] eqn:E.
  - apply find_some in E as [Hin Hp]. split; [by apply orders6_sound|done].
  - intros w Hw. destruct (Permutation_permuted 0 v w Hv Hw) as (p & Hp & ->).
    destruct (orders6_complete p Hp) as [-> | Hin]; [by rewrite permuted_slots|].
    by apply (find_none _ _ E).
Qed.

(** C34: the repair by reordering is complete and consistent: it reports success exactly when the
    group is inconsistent and some order of its six scalars makes the lines agree (the loop
    goes through all 720 orders and stops); then tags, scalars and the records of htp.bin have
    moved together, so that loading the file again gives the arrays in memory, and every other
    chunk and file is as it was; a failure changes nothing. *)
Theorem htp_try_swap_repair_spec simd id n a gs modulus_M f file :
  0 <= gs -> gs + 6 <= n -> load_htp_scalars id n f = Some a ->
  f !! htp_path id = Some file -> Z.of_nat (length file) >= (gs + 6) * HTP_RECORD_SIZE ->
  let consistent w := lines_agree (htp_line_sums Scalar w modulus_M) in
  let v := group_of 0 gs (ha_balanced a) in
  let '(ok, a', f') := htp_try_swap_repair simd id a gs modulus_M f in
  (ok = true <-> consistent v = false /\ exists w, Permutation w v /\ consistent w = true) /\
  load_htp_scalars id n f' = Some a' /\
  (ok = true -> consistent (group_of 0 gs (ha_balanced a')) = true /\
     (exists p, Permutation p slots6 /\ forall j,
       ha_tags a' !! j = ha_tags a !! moved_record gs p j /\ ha_raw a' !! j = ha_raw a !! moved_record gs p j /\
       ha_balanced a' !! j = ha_balanced a !! moved_record gs p j) /\
     forall path, path <> htp_path id -> f' !! path = f !! path) /\
  (ok = false -> a' = a /\ f' = f).
Proof.
  intros Hgs Hn Hload Hfile Hlen consistent v. unfold htp_try_swap_repair. fold v.
  assert (Hc : forall w, lines_agree (htp_line_sums simd w modulus_M) = consistent w)
    by (intros w; unfold consistent; by rewrite htp_line_sums_scalar).
  pose proof (search_spec simd v modulus_M (length_group_of 0 gs _)) as Hs. rewrite Hc in *.
  destruct (consistent v) eqn:Ev.
  { split; [|done]. split; [done|]. by intros [? _]. }
  specialize (Hs eq_refl). destruct (search_order _ _ _) as [p|]; cbv beta zeta.
  2: { split; [|done]. split; [done|]. intros (_ & w & Hw & Hx). rewrite <- Hc, Hs in Hx; done. }
  destruct Hs as [Hp Hok]. rewrite Hfile. unfold load_htp_scalars in Hload. rewrite Hfile in Hload.
  injection Hload as <-. set (recs := map (load_record file) (seq 0 (Z.to_nat n))) in *.
  assert (Hrl : forall A (g : _ -> A), (Z.to_nat gs + 6 <= length (map g recs))%nat).
  { intros A g. unfold recs. rewrite !length_map, length_seq. lia. }
  assert (Hfl : (Z.to_nat gs * size + 6 * size <= length file)%nat).
  { revert Hlen. replace HTP_RECORD_SIZE with (Z.of_nat size) at 1 by done. generalize size. intros; nia. }
  destruct (permute_htp_bin_spec gs p file Hgs Hfl Hp) as [Hpl Hpr].
  split; [|split; [|split; [|done]]].
  - split; [intros _|done]. split; [done|]. exists (permuted 0 p v).
    split; [by apply permuted_Permutation|by rewrite <- Hc].
  - unfold load_htp_scalars. rewrite lookup_insert_eq. f_equal.
    assert (Hmove : forall A (d : A) (g : _ -> A),
      map g (map (load_record (permute_htp_bin gs p file)) (seq 0 (Z.to_nat n))) =
      set_group gs (permuted d p (group_of d gs (map g recs))) (map g recs)).
    { intros A d g. apply list_eq. intros j. rewrite move_lookup by done. unfold recs.
      rewrite !list_lookup_fmap. destruct (decide (j < Z.to_nat n)%nat) as [Hj|Hj].
      - rewrite !lookup_seq_lt by (try apply moved_record_lt; try done; lia). cbn. by rewrite Hpr.
      - assert (Hm : moved_record gs p j = j) by (unfold moved_record; rewrite decide_False; [done|lia]).
        rewrite Hm. rewrite !lookup_seq_ge by lia. done. }
    by rewrite !(Hmove _ [] (fun r => r.1.1)), (Hmove _ 0 (fun r => r.1.2)), (Hmove _ 0 snd).
  - intros _. cbn [ha_tags ha_raw ha_balanced]. rewrite group_of_set_group.
    2: done. 2: by rewrite length_permuted; apply Permutation_length in Hp. 2: apply Hrl.
    split; [by rewrite <- Hc|]. split.
    + exists p. split; [done|]. intros j. unfold v. rewrite !move_lookup by (done || apply Hrl). done.
    + intros path Hne. by rewrite lookup_insert_ne.
Qed.

(** ** Which chunk a single wrong scalar points to *)

(** The side slot on the line opposite to a corner, and the corner opposite to a side. *)
Definition opposite (i : nat) : nat := Nat.modulo (i + 3) 6.
Definition named_first (i : nat) : nat := if Nat.odd i then i else opposite i.
Definition named_second (i : nat) : nat := if Nat.odd i then opposite i else i.

Lemma mod_add_cancel M s x y : 0 < M -> (x + s) `mod` M = (y + s) `mod` M -> x `mod` M = y `mod` M.
Proof.
  intros HM H. replace x with (x + s - s) by lia. replace y with (y + s - s) by lia.
  by rewrite Zminus_mod, H, <- Zminus_mod.
Qed.

Lemma mod_add_both M s x y : 0 < M -> x `mod` M = y `mod` M -> (s + x) `mod` M = (s + y) `mod` M.
Proof. intros HM H. by rewrite Z.add_mod, H, <- Z.add_mod by lia. Qed.

Definition scalar_ok (x : Z) : Prop := 0 <= x < 2 ^ 62.

(** Without overflow the lines are the sums one writes down. *)
Lemma line_sums_eq simd a b c d e f M : 0 < M -> Forall scalar_ok [a; b; c; d; e; f] ->
  htp_line_sums simd [a; b; c; d; e; f] M =
  HtpLineSums ((a + b + c) `mod` M) ((c + d + e) `mod` M) ((e + f + a) `mod` M).
Proof.
  intros HM H. rewrite htp_line_sums_scalar. unfold htp_line_sums, slot6, add64, scalar_ok in *. cbn [nth].
  destruct (Z.eqb_spec M 0); [lia|]. rewrite !Forall_cons in H. destruct H as (? & ? & ? & ? & ? & ? & _).
  rewrite (u64_small (a + b)), (u64_small (c + d)), (u64_small (e + f)), !u64_small by lia. done.
Qed.

(** Two lines agree and the third does not: the names the analysis gives. *)
Lemma analyze_syndrome simd v M gs L1 L2 L3 : htp_line_sums simd v M = HtpLineSums L1 L2 L3 ->
  let pair i j := [HtpSuspect (gs + i) (double_of_Z 1); HtpSuspect (gs + j) double_half] in
  (L2 = L3 -> L1 <> L2 -> htp_analyze_group simd v M gs [] = pair 1 4) /\
  (L1 = L3 -> L2 <> L1 -> htp_analyze_group simd v M gs [] = pair 3 0) /\
  (L1 = L2 -> L3 <> L1 -> htp_analyze_group simd v M gs [] = pair 5 2).
Proof.
  intros E pair. unfold htp_analyze_group. rewrite E. cbn [l1 l2 l3]. cbv zeta.
  repeat split; intros H Hne;
    destruct (Z.eqb_spec L1 L2), (Z.eqb_spec L2 L3), (Z.eqb_spec L1 L3), (Z.eqb_spec L2 L1), (Z.eqb_spec L3 L1);
    done || lia.
Qed.

(** The scalar [y] is replaced by [x] in a sum with the rest [s]. *)
Lemma line_changes M s x y l : 0 < M -> x `mod` M <> y `mod` M -> (y + s) `mod` M = l -> (x + s) `mod` M <> l.
Proof. intros HM Hne <- H. by apply Hne, (mod_add_cancel M s). Qed.

Lemma lines_change_alike M s t x y : 0 < M -> (y + s) `mod` M = (y + t) `mod` M ->
  (x + s) `mod` M = (x + t) `mod` M.
Proof.
  intros HM H. apply mod_add_both; [done|]. apply (mod_add_cancel M y); [done|]. by rewrite !(Z.add_comm _ y).
Qed.

(** When one scalar of a consistent group is wrong, the analysis names a pair of slots that
    contains the wrong one, with scores one and one half: a side slot is named first, but for a
    corner slot the first name is the side opposite to it, a chunk whose scalar is right. *)
Theorem htp_single_error_named simd v M gs i x : length v = 6%nat -> (i < 6)%nat -> 0 < M ->
  Forall scalar_ok v -> scalar_ok x -> lines_agree (htp_line_sums simd v M) = true ->
  x `mod` M <> nth i v 0 `mod` M ->
  htp_analyze_group simd (<[i := x]> v) M gs [] =
  [HtpSuspect (gs + Z.of_nat (named_first i)) (double_of_Z 1);
   HtpSuspect (gs + Z.of_nat (named_second i)) double_half].
Proof.
  intros Hv Hi HM Hok Hx Hagree Hne.
  destruct v as [|a [|b [|c [|d [|e [|f [|]]]]]]]; try done. clear Hv.
  assert (Hok' : Forall scalar_ok (<[i := x]> [a; b; c; d; e; f])) by (by apply Forall_insert_1).
  rewrite line_sums_eq in Hagree by done. unfold lines_agree in Hagree. cbn in Hagree.
  apply andb_true_iff in Hagree as [H1 H2]. apply Z.eqb_eq in H1, H2.
  unfold htp_analyze_group.
  assert (Hdiff : forall s l L y, x `mod` M <> y `mod` M -> L = x + s -> (y + s) `mod` M = l -> L `mod` M <> l)
    by (intros s l L y Hd -> Hl; by apply (line_changes M s x y)).
  assert (Hsame : forall s t L L' y, L = x + s -> L' = x + t -> (y + s) `mod` M = (y + t) `mod` M ->
    L `mod` M = L' `mod` M) by (intros s t L L' y -> -> Hl; by apply (lines_change_alike M s t x y)).
  pose proof (fun w L1 L2 L3 => analyze_syndrome simd w M gs L1 L2 L3) as Hls.
  destruct i as [|[|[|[|[|[|i]]]]]]; [..|lia]; cbn in Hok', Hne |- *;
    destruct (Hls _ _ _ _ (line_sums_eq simd _ _ _ _ _ _ M HM Hok')) as (S1 & S2 & S3); clear Hls.
  - apply S2; [apply (Hsame (b + c) (e + f) _ _ a); [lia..|]|
      apply not_eq_sym, (Hdiff (b + c) _ _ a Hne); [lia|]].
    + by replace (a + (b + c)) with (a + b + c) by lia; replace (a + (e + f)) with (e + f + a) by lia; rewrite H1.
    + by replace (a + (b + c)) with (a + b + c) by lia.
  - apply S1; [done|]. apply (Hdiff (a + c) _ _ b Hne); [lia|]. by replace (b + (a + c)) with (a + b + c) by lia.
  - apply S3; [apply (Hsame (a + b) (d + e) _ _ c); [lia..|]|
      apply not_eq_sym, (Hdiff (a + b) _ _ c Hne); [lia|]].
    + by replace (c + (a + b)) with (a + b + c) by lia; replace (c + (d + e)) with (c + d + e) by lia.
    + by replace (c + (a + b)) with (a + b + c) by lia; rewrite H1, H2.
  - apply S2; [by rewrite H1, H2|]. apply (Hdiff (c + e) _ _ d Hne); [lia|].
    by replace (d + (c + e)) with (c + d + e) by lia.
  - apply S1; [apply (Hsame (c + d) (f + a) _ _ e); [lia..|]|
      apply not_eq_sym, (Hdiff (c + d) _ _ e Hne); [lia|]].
    + by replace (e + (c + d)) with (c + d + e) by lia; replace (e + (f + a)) with (e + f + a) by lia.
    + by replace (e + (c + d)) with (c + d + e) by lia.
  - apply S3; [done|]. apply (Hdiff (e + a) _ _ f Hne); [lia|].
    replace (f + (e + a)) with (e + f + a) by lia. by rewrite H1.
Qed.

(** ** Two swapped chunks *)

Section example.
Definition ex_swapped_fs : fs :=
  foldl (fun f x => save_htp_scalar (CS "u") x.1 (CS "ab") x.2 x.2 f) ∅ (zip slots6 [10; 1; 1; 10; 1; 10]).
Definition ex_swapped : htp_arrays := default (HtpArrays [] [] []) (load_htp_scalars (CS "u") 6 ex_swapped_fs).
Definition ex_swapped_file : list Z := default [] (ex_swapped_fs !! htp_path (CS "u")).

Lemma htp_try_swap_repair_spec_witness :
  let '(ok, a', f') := htp_try_swap_repair Avx2 (CS "u") ex_swapped 0 4294967291 ex_swapped_fs in
  ok = true /\ load_htp_scalars (CS "u") 6 f' = Some a'.
Proof.
  pose proof (htp_try_swap_repair_spec Avx2 (CS "u") 6 ex_swapped 0 4294967291 ex_swapped_fs ex_swapped_file) as H.
  destruct (htp_try_swap_repair Avx2 (CS "u") ex_swapped 0 4294967291 ex_swapped_fs) as [[ok a'] f'].
  destruct H as (Hok & Hload & _).
  - lia.
  - lia.
  - vm_compute. reflexivity.
  - vm_compute. reflexivity.
  - vm_compute. discriminate.
  - split; [|exact Hload]. apply Hok. split; [vm_compute; reflexivity|].
    exists [1; 10; 1; 10; 1; 10]. split; [|vm_compute; reflexivity].
    replace (group_of 0 0 (ha_balanced ex_swapped)) with [10; 1; 1; 10; 1; 10] by (vm_compute; reflexivity).
    apply perm_swap.
Defined.
End example.
