(* ===== verification/Verify.v ===== *)
(** * Integrity check of a completed upload
    (src/src/handlers/tasfa/upload.c, the HTP part of [tasfa_finalize_session_process])

    With every chunk received the process checks the scalars group by group, repairs swapped
    chunks, collects suspects, contracts them, rebuilds what the parity chunks allow ("peeling")
    and sends the client the list of what is left. *)
From Stdlib Require Import SpecFloat Permutation.
From S2P Require Import Prelude CStr Gf256 Files Fec TasfaCommon RollingHash SlotCache Crypto Session Upload Htp Recover Complete.

(** A round-trip time of the session document as a double: both parts are exact. *)
Definition double_of_Q (q : QArith_base.Q) : double :=
  double_div (double_of_Z (QArith_base.Qnum q)) (double_of_Z (Zpos (QArith_base.Qden q))).

(** ** Collecting suspects *)

Definition tag_set (a : htp_arrays) (ci : Z) : bool :=
  match nth (Z.to_nat ci) (ha_tags a) [] with c :: _ => negb (c =? 0) | [] => false end.

(** A chunk listed twice keeps its larger score. *)
Fixpoint raise_score (s : htp_suspect_t) (l : list htp_suspect_t) : option (list htp_suspect_t) :=
  match l with
  | [] => None
  | x :: l' =>
      if chunk_index x =? chunk_index s
      then Some ((if SFltb (suspicion_score x) (suspicion_score s) then s else x) :: l')
      else match raise_score s l' with Some l' => Some (x :: l') | None => None end
  end.

(** [for (s = 0; s < gs_count && suspect_count < chunk_count; s++)] *)
Definition merge_suspects (chunk_count : Z) (l new : list htp_suspect_t) : list htp_suspect_t :=
  foldl (fun l s =>
      if zlen l <? chunk_count
      then match raise_score s l with Some l' => l' | None => l ++ [s] end
      else l) l new.

Record verify_state := VerifyState {
  vs_arrays : htp_arrays;
  vs_files : fs;
  vs_suspects : list htp_suspect_t;
}.

Definition verify_group (simd : backend) (upload_id : cstr) (chunk_count modulus_M : Z) (st : verify_state) (g : Z)
  : verify_state :=
  let a := vs_arrays st in
  let tags := map (fun v => tag_set a (g * 6 + v)) slots6 in
  let m := group_of 0 (g * 6) (ha_balanced a) in
  if negb (existsb id tags) || negb (forallb id tags) then st
  else
    let '(repaired, a', f') := htp_try_swap_repair simd upload_id a (g * 6) modulus_M (vs_files st) in
    if repaired : bool then VerifyState a' f' (vs_suspects st)
    else VerifyState a' f'
           (merge_suspects chunk_count (vs_suspects st) (htp_analyze_group simd m modulus_M (g * 6) [])).

(** ** Rebuilding suspects from the parity chunks *)

Section peel.
Context {ctx : Type} (SHA256_Init : ctx).
#[local] Abbreviation server := (Upload.server (ctx := ctx)).
Context (upload_id temp_path : cstr) (chunk_size data_chunks total_size : Z).

Definition in_group_of (g : Z) (s : htp_suspect_t) : bool :=
  (group_start g <=? chunk_index s) && (chunk_index s <? group_end data_chunks g).

(** The suspect with the highest score, the first of equals, from -1 up. *)
Definition best_suspect (g : Z) (suspects : list htp_suspect_t) : Z * double :=
  foldl (fun best s =>
      if in_group_of g s && SFltb best.2 (suspicion_score s)
      then (chunk_index s, suspicion_score s) else best)
    (-1, double_of_Z (-1)) suspects.

(** One group of the scan: the state after a chunk was rebuilt. *)
Definition peel_group (g : Z) (suspects : list htp_suspect_t) (s : server)
  : option (list htp_suspect_t * server) :=
  let count := zlen (List.filter (in_group_of g) suspects) in
  let '(best, max_score) := best_suspect g suspects in
  let parity_idx := data_chunks + g in
  let parity_received := is_chunk_already_received upload_id parity_idx (sv_files s) in
  if parity_received && (0 <=? best) && ((count =? 1) || ((count =? 2) && SFleb (double_of_Z 1) max_score))
  then
    let '(ok, f) := perform_xor_recovery upload_id temp_path chunk_size (group_start g)
                      (group_end data_chunks g) data_chunks total_size (sv_files s) best parity_idx in
    if ok : bool then
      let s := with_files f s in
      let s := with_hash (tasfa_rolling_hash_notify_rewrite SHA256_Init (Some upload_id) best (sv_hash s)) s in
      Some (List.filter (fun x => negb (in_group_of g x)) suspects, s)
    else None
  else None.

(** The scan over the groups stops at the first one that made progress. *)
Fixpoint peel_scan (gs : list Z) (suspects : list htp_suspect_t) (s : server)
  : option (list htp_suspect_t * server) :=
  match gs with
  | [] => None
  | g :: gs' => match peel_group g suspects s with Some r => Some r | None => peel_scan gs' suspects s end
  end.

Definition parity_groups : list Z := map Z.of_nat (seq 0 (Z.to_nat (Z.quot (data_chunks + 5) 6))).

Fixpoint peel (max_peel_passes : nat) (suspects : list htp_suspect_t) (s : server)
  : list htp_suspect_t * server :=
  match max_peel_passes, suspects with
  | O, _ | _, [] => (suspects, s)
  | S n, _ =>
      match peel_scan parity_groups suspects s with
      | Some (suspects', s') => peel n suspects' s'
      | None => (suspects, s)
      end
  end.
End peel.

(** ** The check *)

(** qsort with [compare_suspect_desc]. *)
Fixpoint insert_suspect (s : htp_suspect_t) (l : list htp_suspect_t) : list htp_suspect_t :=
  match l with
  | [] => [s]
  | x :: l' => if compare_suspect_desc s x <=? 0 then s :: l else x :: insert_suspect s l'
  end.
Definition sort_suspects (l : list htp_suspect_t) : list htp_suspect_t := foldr insert_suspect [] l.

(** The reply of a session that has chunks to send again; [htp_suspicion_scores] and
    [htp_contraction_level] of the saved document hold the same values. *)
Record htp_retry := HtpRetry {
  hr_scores : list htp_suspect_t;      (* suspicion_scores; retry_targets are their chunks *)
  hr_contraction_level : Z;
  hr_status : upload_status;
}.

Inductive verified :=
| Refused (r : reply)
| NeedsRetry (status : Z) (r : htp_retry)
| Verified.

Section verify.
Context {ctx : Type} (SHA256_Init : ctx) (simd : backend).
#[local] Abbreviation server := (Upload.server (ctx := ctx)).

Definition verify_modulus (d : session_doc) : Z :=
  let modulus_M := u64 (d_modulus_M d) in if modulus_M =? 0 then 1 else modulus_M.

(** The scalars of htp.bin: the suspects left after repair and contraction. *)
Definition verify_scalars (id : cstr) (d : session_doc) (a : htp_arrays) (contraction_level : Z) (f : fs)
  : list htp_suspect_t * Z * fs :=
  let m := d_meta d in
  let modulus_M := verify_modulus d in
  let data_chunks := count_data_chunks (m_total_size m) (m_chunk_size m) in
  let st := foldl (fun st g => verify_group simd id (m_chunk_count m) modulus_M st (Z.of_nat g))
              (VerifyState a f []) (seq 0 (Z.to_nat (Z.quot data_chunks 6))) in
  let suspects := vs_suspects st in
  if (0 <? zlen suspects)
     && htp_repair_worthwhile (zlen suspects) (m_chunk_count m) (m_chunk_size m) (double_of_Q (d_link_rtt d))
  then
    let '(n, arr) := htp_contract_groups simd (ha_balanced (vs_arrays st)) (m_chunk_count m) modulus_M suspects in
    if (0 <? n)%nat && (n <? length suspects)%nat
    then (take n arr, contraction_level + 1, vs_files st)
    else (arr, contraction_level, vs_files st)
  else (suspects, contraction_level, vs_files st).

(** Without htp.bin: the scalars of the document; the first group whose lines differ. *)
Definition magic_mismatch (d : session_doc) : option Z :=
  match d_magic_scalars d with
  | None => None
  | Some scalars =>
      let m := d_meta d in
      let data_chunks := count_data_chunks (m_total_size m) (m_chunk_size m) in
      let has_any_scalar := existsb (fun x => negb (x =? 0)) (take (Z.to_nat (m_chunk_count m)) scalars) in
      let value ci := if ci <? m_chunk_count m then nth (Z.to_nat ci) scalars 0 else 0 in
      if has_any_scalar
      then List.find (fun g => negb (lines_agree (htp_line_sums simd (map (fun v => value (g * 6 + v)) slots6)
                                                    (verify_modulus d))))
             (map Z.of_nat (seq 0 (Z.to_nat (Z.quot data_chunks 6))))
      else None
  end.

(** The six chunks of the group are marked as missing. *)
Definition reset_group (id : cstr) (g : Z) (d : session_doc) (s : server) : session_doc * server :=
  let m := d_meta d in
  let bitmap := foldl (fun b v => if g * 6 + v <? m_chunk_count m then <[Z.to_nat (g * 6 + v) := zero]> b else b)
                  (m_received_bitmap m) slots6 in
  let m := meta_with_bitmap bitmap
             (replace_item (m_received_chunks m) (bitmap_count_set (Some bitmap) (m_chunk_count m))) m in
  let d := doc_with_meta m d in
  let s := with_files (save_upload_session_state_bin id (m_chunk_count m) (Some bitmap) (sv_files s)).2 s in
  let s := save_upload_session_state id d s in
  (d, with_hash (tasfa_rolling_hash_reset SHA256_Init (Some id) (sv_hash s)) s).

Definition retry_reply (id : cstr) (suspects : list htp_suspect_t) (contraction_level : Z) (d : session_doc)
    (s : server) : verified * session_doc * server :=
  let sorted := sort_suspects suspects in
  let d := doc_with_meta (meta_with_targets (map chunk_index sorted) (d_meta d)) d in
  let s := save_upload_session id d s in
  (NeedsRetry 409 (HtpRetry sorted contraction_level (build_upload_status_json (d_meta d))), d, s).

Definition finalize_verify (id : cstr) (d : session_doc) (contraction_level : Z) (s : server)
  : verified * session_doc * server :=
  let m := d_meta d in
  let data_chunks := count_data_chunks (m_total_size m) (m_chunk_size m) in
  match load_htp_scalars id (m_chunk_count m) (sv_files s) with
  | Some a =>
      let '(suspects, contraction_level, f) := verify_scalars id d a contraction_level (sv_files s) in
      let '(suspects, s) := peel SHA256_Init id (d_temp_path d) (m_chunk_size m) data_chunks (m_total_size m)
                              6 suspects (with_files f s) in
      match suspects with
      | [] => (Verified, d, s)
      | _ => retry_reply id suspects contraction_level d s
      end
  | None =>
      match magic_mismatch d with
      | Some g =>
          let '(d, s) := reset_group id g d s in
          (Refused (Reply 409 (Incomplete (CS "htp line sum mismatch - chunks reset for retry")
                                 (build_upload_status_json (d_meta d)))), d, s)
      | None => (Verified, d, s)
      end
  end.
End verify.

(** ** XOR recovery when a chunk that is present is damaged *)

#[local] Opaque count_data_chunks.

Lemma xsum_without (P : nat -> bool) (f g : nat -> Z) l :
  Z.lxor (xsum f l) (xsum (without P g) l)
  = xsum (fun s => if P s then f s else Z.lxor (f s) (g s)) l.
Proof.
  unfold without. induction l as [|s l IH]; simpl; [done|]. rewrite <- IH. destruct (P s); lxor_bits.
Qed.

Section damaged.
Context (orig t : list Z) (chunk_size gs : Z) (m : nat).
Context (Hcs : 0 < chunk_size) (Hgs : 0 <= gs) (Hm : (m <= 6)%nat).
Context (Hlast : (gs + Z.of_nat m - 1) * chunk_size < zlen orig) (Hlen : length t = length orig).
#[local] Abbreviation ob := (byte orig chunk_size gs).
#[local] Abbreviation tb := (byte t chunk_size gs).

Lemma zlen_same : zlen t = zlen orig.
Proof. unfold zlen. by rewrite Hlen. Qed.

(** The rebuilt bytes: the lost ones plus the damage of the others. *)
Lemma xor_recovery_bytes (id temp : cstr) (f : fs) dc u parity_idx p : f !! temp = Some t -> (u < m)%nat ->
  xor_encode orig chunk_size gs m = Some p -> f !! parity_path id (parity_idx - dc) = Some p ->
  let target := gs + Z.of_nat u in
  exists file', perform_xor_recovery id temp chunk_size gs (gs + Z.of_nat m) dc (zlen orig) f target parity_idx
      = (true, <[temp := file']> f) /\
    length file' = length orig /\
    (forall i, ~ in_chunk orig chunk_size target i -> file' !! i = t !! i) /\
    (forall k, 0 <= k < chunk_span (zlen orig) chunk_size target ->
       file' !! Z.to_nat (target * chunk_size + k)
       = Some (xsum (fun s => if (s =? u)%nat then ob (Z.to_nat k) s
                              else Z.lxor (ob (Z.to_nat k) s) (tb (Z.to_nat k) s)) (seq 0 m))).
Proof.
  intros Htemp Hu He HP target.
  destruct (xor_encode_spec orig chunk_size gs m Hcs Hm orig eq_refl m) as (p' & He' & Lp & Hcol); [done|].
  rewrite He in He'. injection He' as <-.
  destruct (xor_subtract_spec t chunk_size gs m Hcs Hgs Hm t eq_refl u p Lp Hu) as (q & Hloop & Lq & Hq).
  { intros s _ _. done. }
  rewrite zlen_same in Hloop. unfold perform_xor_recovery.
  rewrite (read_parity_ok _ Hcs _ _ _ _ HP Lp), (group_size orig chunk_size gs m Hcs Hm orig eq_refl), Htemp.
  unfold target in *. rewrite Hloop. eexists. split; [reflexivity|].
  unfold write_chunk. set (span := chunk_span (zlen orig) chunk_size (gs + Z.of_nat u)).
  assert (Hsp : 0 < span <= chunk_size /\ (gs + Z.of_nat u) * chunk_size + span <= zlen orig).
  { pose proof (span_pos orig chunk_size gs Hcs m u Hu Hlast). fold span in H.
    unfold span, chunk_span in *. case_match; bool_split; lia. }
  assert (0 <= (gs + Z.of_nat u) * chunk_size) by nia.
  assert (Hbuf : length (take (Z.to_nat span) q) = Z.to_nat span) by (rewrite length_take; lia).
  assert (Hfit : (Z.to_nat ((gs + Z.of_nat u) * chunk_size) + length (take (Z.to_nat span) q) <= length t)%nat)
    by (rewrite Hbuf, Hlen; unfold zlen in Hsp; lia).
  split; [by rewrite length_pwrite|]. split.
  - intros i Hi. rewrite lookup_pwrite, Hbuf, decide_False; [done| |done].
    intros Hin. apply Hi. unfold in_chunk. fold span. lia.
  - intros k Hk. rewrite lookup_pwrite, Hbuf, decide_True, lookup_take_lt by (done || lia).
    replace (Z.to_nat ((gs + Z.of_nat u) * chunk_size + k) - Z.to_nat ((gs + Z.of_nat u) * chunk_size))%nat
      with (Z.to_nat k) by lia.
    destruct (lookup_lt_is_Some_2 q (Z.to_nat k) ltac:(lia)) as [x Hx]. rewrite Hx. f_equal.
    specialize (Hq (Z.to_nat k) ltac:(lia)). rewrite nth_lookup, Hx in Hq. cbn in Hq. rewrite Hq, Hcol by lia.
    apply xsum_without.
Qed.

(** Only the chunk of slot [c] is damaged. *)
Context (c : nat) (Hc : (c < m)%nat).
Context (Hagree : forall j, ~ in_chunk orig chunk_size (gs + Z.of_nat c) j -> t !! j = orig !! j).

Lemma byte_undamaged k s : s <> c -> tb k s = ob k s.
Proof.
  intros Hne. unfold byte, slot_data. rewrite zlen_same. apply (f_equal (fun l => nth k l 0)).
  apply pread_ext. intros j Hj. apply Hagree. unfold in_chunk. intros Hin.
  pose proof (chunk_span_le (zlen orig) chunk_size (gs + Z.of_nat s)).
  pose proof (chunk_span_le (zlen orig) chunk_size (gs + Z.of_nat c)). nia.
Qed.

Lemma rebuilt_byte k u : (u < m)%nat ->
  xsum (fun s => if (s =? u)%nat then ob k s else Z.lxor (ob k s) (tb k s)) (seq 0 m) =
  if decide (u = c) then ob k u else Z.lxor (ob k u) (Z.lxor (ob k c) (tb k c)).
Proof.
  intros Hu. set (F := fun s => if (s =? u)%nat then ob k s else Z.lxor (ob k s) (tb k s)).
  assert (H0 : forall s, s <> u -> s <> c -> F s = 0).
  { intros s Hsu Hsc. unfold F. rewrite (proj2 (Nat.eqb_neq s u) Hsu), byte_undamaged by done.
    apply Z.lxor_nilpotent. }
  case_decide as Huc.
  - rewrite (xsum_ext F (fun s => if (s =? u)%nat then ob k s else 0)).
    + apply (xsum_single (ob k) u 0 m). lia.
    + intros s _. unfold F. destruct (Nat.eqb_spec s u) as [|Hsu]; [done|].
      specialize (H0 s Hsu ltac:(congruence)). unfold F in H0. by rewrite (proj2 (Nat.eqb_neq s u) Hsu) in H0.
  - rewrite (xsum_ext F (fun s => if (s =? u)%nat || (s =? c)%nat then F s else 0)).
    + rewrite (xsum_two F u c 0 m) by (done || lia). unfold F. rewrite Nat.eqb_refl.
      by rewrite (proj2 (Nat.eqb_neq c u)) by done.
    + intros s _. destruct (Nat.eqb_spec s u), (Nat.eqb_spec s c); cbn [orb]; auto.
Qed.
End damaged.

(** ** One wrong scalar *)

(** Groups whose lines agree leave the state as it is. *)
Lemma verify_group_consistent simd id count M st g :
  lines_agree (htp_line_sums simd (group_of 0 (g * 6) (ha_balanced (vs_arrays st))) M) = true ->
  verify_group simd id count M st g = st.
Proof.
  intros H. unfold verify_group. destruct (_ || _); [done|]. unfold htp_try_swap_repair. rewrite H.
  unfold htp_analyze_group. unfold lines_agree in H. rewrite H. by destruct st.
Qed.

Lemma verify_group_pair simd id count M a f g s1 s2 : 2 <= count ->
  forallb Datatypes.id (map (fun v => tag_set a (g * 6 + v)) slots6) = true ->
  let v := group_of 0 (g * 6) (ha_balanced a) in
  (forall w, Permutation w v -> lines_agree (htp_line_sums simd w M) = false) ->
  htp_analyze_group simd v M (g * 6) [] = [s1; s2] -> chunk_index s1 <> chunk_index s2 ->
  verify_group simd id count M (VerifyState a f []) g = VerifyState a f [s1; s2].
Proof.
  intros Hcount Htags v Hno Hpair Hne. unfold verify_group. cbn [vs_arrays vs_files vs_suspects].
  rewrite Htags. replace (existsb _ _) with true.
  2: { symmetry. cbn in Htags |- *. apply andb_true_iff in Htags as [Ht _]. by rewrite Ht. }
  cbn [negb orb]. unfold htp_try_swap_repair. fold v. rewrite Hno by done.
  pose proof (search_spec simd v M (length_group_of 0 _ _) (Hno v ltac:(done))) as Hs.
  destruct (search_order _ _ _) as [p|].
  { destruct Hs as [Hp Ht]. rewrite Hno in Ht; [done|]. by apply permuted_Permutation. }
  rewrite Hpair. unfold merge_suspects. cbn [foldl].
  replace (zlen [] <? count) with true by (symmetry; apply Z.ltb_lt; unfold zlen; cbn; lia). cbn [raise_score app].
  replace (zlen [s1] <? count) with true by (symmetry; apply Z.ltb_lt; unfold zlen; cbn; lia).
  destruct (Z.eqb_spec (chunk_index s1) (chunk_index s2)); done.
Qed.

Lemma verify_fold simd id count M a f g n st :
  (forall g', (g' < n)%nat -> g' <> g ->
     lines_agree (htp_line_sums simd (group_of 0 (Z.of_nat g' * 6) (ha_balanced a)) M) = true) ->
  (g < n)%nat -> vs_arrays st = a ->
  verify_group simd id count M (VerifyState a f []) (Z.of_nat g) = st ->
  foldl (fun st g => verify_group simd id count M st (Z.of_nat g)) (VerifyState a f []) (seq 0 n) = st.
Proof.
  intros Hok Hg Ha Hst.
  assert (Hkeep : forall l st, vs_arrays st = a -> (forall g', In g' l -> (g' < n)%nat /\ g' <> g) ->
    foldl (fun st g => verify_group simd id count M st (Z.of_nat g)) st l = st).
  { induction l as [|g' l IH]; intros st' Ha' Hl; [done|]. cbn.
    destruct (Hl g' (or_introl eq_refl)) as [Hn Hne].
    rewrite verify_group_consistent by (rewrite Ha'; by apply Hok). apply IH; [done|].
    intros g'' Hg''. apply Hl. by right. }
  replace (seq 0 n) with (seq 0 g ++ g :: seq (S g) (n - S g)).
  2: { change (g :: seq (S g) (n - S g)) with (seq (0 + g) (S (n - S g))). rewrite <- seq_app. f_equal. lia. }
  rewrite foldl_app. cbn [foldl]. rewrite (Hkeep (seq 0 g)); [|done|intros g' H; apply in_seq in H; lia].
  rewrite Hst. apply Hkeep; [done|]. intros g' H. apply in_seq in H. lia.
Qed.

(** ** Peeling one pair of suspects *)

Section peel_pair.
Context {ctx : Type} (SHA256_Init : ctx).
Context (id temp : cstr) (cs dc total : Z) (g : nat) (i : nat).
Context (Hi : (i < 6)%nat) (Hdc : Z.of_nat g * 6 + 6 <= dc).
#[local] Abbreviation gs := (Z.of_nat g * 6).
#[local] Abbreviation pair := [HtpSuspect (gs + Z.of_nat (named_first i)) (double_of_Z 1);
                               HtpSuspect (gs + Z.of_nat (named_second i)) double_half].

Lemma named_range : (named_first i < 6)%nat /\ (named_second i < 6)%nat /\ named_first i <> named_second i.
Proof.
  clear Hdc. destruct i as [|[|[|[|[|[|?]]]]]]; [..|lia];
    (split; [apply Nat.ltb_lt; reflexivity|split; [apply Nat.ltb_lt; reflexivity|by vm_compute]]).
Qed.

Lemma in_group_pair g' k : (k < 6)%nat -> 0 <= g' < (dc + 5) / 6 ->
  in_group_of dc g' (HtpSuspect (gs + Z.of_nat k) (double_of_Z 1)) = bool_decide (g' = Z.of_nat g) /\
  in_group_of dc g' (HtpSuspect (gs + Z.of_nat k) double_half) = bool_decide (g' = Z.of_nat g).
Proof.
  intros Hk Hg'. unfold in_group_of, group_start, group_end. cbn [chunk_index].
  assert (H : (g' * 6 <=? gs + Z.of_nat k) && (gs + Z.of_nat k <? (if dc <? g' * 6 + 6 then dc else g' * 6 + 6))
              = bool_decide (g' = Z.of_nat g)); [|done].
  apply eq_true_iff_eq. rewrite andb_true_iff, Z.leb_le, Z.ltb_lt, bool_decide_eq_true.
  destruct (Z.ltb_spec dc (g' * 6 + 6)); lia.
Qed.

Lemma peel_group_other g' s : 0 <= g' < (dc + 5) / 6 -> g' <> Z.of_nat g ->
  peel_group SHA256_Init id temp cs dc total g' pair s = None.
Proof.
  intros Hg' Hne. destruct named_range as (H1 & H2 & _).
  destruct (in_group_pair g' _ H1 Hg') as [E1 _], (in_group_pair g' _ H2 Hg') as [_ E2].
  rewrite bool_decide_eq_false_2 in E1, E2 by done.
  unfold peel_group, best_suspect. cbn [List.filter foldl]. rewrite E1, E2. cbn [andb].
  by rewrite andb_false_r.
Qed.

Lemma peel_group_pair s f' : let best := gs + Z.of_nat (named_first i) in
  is_chunk_already_received id (dc + Z.of_nat g) (sv_files s) = true ->
  perform_xor_recovery id temp cs gs (gs + 6) dc total (sv_files s) best (dc + Z.of_nat g) = (true, f') ->
  exists s', peel_group SHA256_Init id temp cs dc total (Z.of_nat g) pair s = Some ([], s') /\ sv_files s' = f'.
Proof.
  intros best Hrec Hx. destruct named_range as (H1 & H2 & _).
  assert (Hg : 0 <= Z.of_nat g < (dc + 5) / 6) by (Z.div_mod_to_equations; lia).
  destruct (in_group_pair (Z.of_nat g) _ H1 Hg) as [E1 _], (in_group_pair (Z.of_nat g) _ H2 Hg) as [_ E2].
  rewrite bool_decide_eq_true_2 in E1, E2 by done.
  unfold peel_group, best_suspect. cbn [List.filter foldl]. rewrite E1, E2. cbn [andb negb fst snd suspicion_score chunk_index].
  replace (SFltb (double_of_Z (-1)) (double_of_Z 1)) with true by (by vm_compute).
  cbn [andb snd]. replace (SFltb (double_of_Z 1) double_half) with false by (by vm_compute).
  rewrite Hrec. cbn [andb]. destruct (Z.leb_spec 0 (gs + Z.of_nat (named_first i))); [|lia]. cbn [andb].
  replace (zlen _ =? 1) with false by done. replace (zlen _ =? 2) with true by done.
  replace (SFleb (double_of_Z 1) (double_of_Z 1)) with true by (by vm_compute). cbn [andb orb].
  unfold group_end, group_start. destruct (Z.ltb_spec dc (Z.of_nat g * 6 + 6)); [lia|].
  unfold best in Hx. rewrite Hx. eexists. split; [reflexivity|done].
Qed.

Lemma peel_pair n s s' : peel_group SHA256_Init id temp cs dc total (Z.of_nat g) pair s = Some ([], s') ->
  peel SHA256_Init id temp cs dc total (S n) pair s = ([], s').
Proof.
  intros H. cbn [peel]. unfold parity_groups. rewrite Z.quot_div_nonneg by lia.
  replace (seq 0 (Z.to_nat ((dc + 5) / 6))) with (seq 0 g ++ g :: seq (S g) (Z.to_nat ((dc + 5) / 6) - S g)).
  2: { set (n' := Z.to_nat ((dc + 5) / 6)). change (g :: seq (S g) (n' - S g)) with (seq (0 + g) (S (n' - S g))).
       rewrite <- seq_app. f_equal. unfold n'. Z.div_mod_to_equations; lia. }
  assert (Hlt : forall k, In k (seq 0 g) -> 0 <= Z.of_nat k < (dc + 5) / 6 /\ Z.of_nat k <> Z.of_nat g).
  { intros k Hk. apply in_seq in Hk. split; [Z.div_mod_to_equations; lia|lia]. }
  revert Hlt. generalize (seq 0 g). intros l Hlt.
  assert (Hscan : forall rest, peel_scan SHA256_Init id temp cs dc total
            (map Z.of_nat (l ++ g :: rest)) pair s = Some ([], s')).
  { intros rest. induction l as [|k l IH]; cbn [app map peel_scan]; [by rewrite H|].
    destruct (Hlt k (or_introl eq_refl)). rewrite peel_group_other by done.
    apply IH. intros k' Hk'. apply Hlt. by right. }
  rewrite Hscan. by destruct n.
Qed.
End peel_pair.

(** ** The whole check on one wrong chunk *)

Lemma full_group orig cs g : good_geometry (zlen orig) cs ->
  let dc := count_data_chunks (zlen orig) cs in Z.of_nat g < dc / 6 ->
  Z.of_nat g * 6 + 6 <= dc /\ (Z.of_nat g * 6 + 5) * cs < zlen orig /\ group_len orig cs (Z.of_nat g) = 6%nat.
Proof.
  intros Hgeo dc Hg. destruct (count_data_chunks_spec _ _ Hgeo) as (Hn & Hr & Hl). fold dc in Hn, Hr, Hl.
  assert (H : Z.of_nat g * 6 + 6 <= dc) by (Z.div_mod_to_equations; lia).
  assert (0 < cs) by (destruct Hgeo; lia). split; [done|]. split; [nia|].
  unfold group_len, group_end, group_start. fold dc. destruct (Z.ltb_spec dc (Z.of_nat g * 6 + 6)); lia.
Qed.

Lemma nth_byte orig cs gs u k b : 0 < cs -> 0 <= gs -> 0 <= k < cs ->
  orig !! Z.to_nat ((gs + Z.of_nat u) * cs + k) = Some b -> byte orig cs gs (Z.to_nat k) u = b.
Proof.
  intros Hcs Hgs Hk Hb. pose proof (lookup_lt_Some _ _ _ Hb) as Hlt.
  unfold byte. rewrite nth_lookup, slot_data_lookup, Hb; [done|done|done|].
  unfold chunk_span, zlen. assert (0 <= (gs + Z.of_nat u) * cs) by nia. case_match; bool_split; lia.
Qed.

Section single_error.
Context {ctx : Type} (SHA256_Init : ctx) (simd : backend).
Context (id : cstr) (d : session_doc) (s : Upload.server (ctx := ctx)) (a : htp_arrays) (orig t : list Z).
Context (g i : nat) (x : Z) (v : list Z).
#[local] Abbreviation m := (d_meta d).
#[local] Abbreviation cs := (m_chunk_size m).
#[local] Abbreviation dc := (count_data_chunks (m_total_size m) cs).
#[local] Abbreviation M := (verify_modulus d).
#[local] Abbreviation slot k := (Z.of_nat g * 6 + Z.of_nat k).

(** Every chunk has arrived, but the scalar of slot [i] of group [g] is not [v]'s. *)
Record one_wrong_scalar : Prop := {
  ow_geometry : good_geometry (m_total_size m) cs;
  ow_count : dc <= m_chunk_count m;
  ow_group : Z.of_nat g < dc / 6;
  ow_slot : (i < 6)%nat;
  ow_load : load_htp_scalars id (m_chunk_count m) (sv_files s) = Some a;
  ow_tags : forallb Datatypes.id (map (fun k => tag_set a (Z.of_nat g * 6 + k)) slots6) = true;
  ow_others : forall g', (g' < Z.to_nat (dc / 6))%nat -> g' <> g ->
    lines_agree (htp_line_sums simd (group_of 0 (Z.of_nat g' * 6) (ha_balanced a)) M) = true;
  ow_scalars : group_of 0 (Z.of_nat g * 6) (ha_balanced a) = <[i := x]> v;
  ow_right : length v = 6%nat /\ Forall scalar_ok v /\ lines_agree (htp_line_sums simd v M) = true;
  ow_wrong : scalar_ok x /\ x `mod` M <> nth i v 0 `mod` M;
  ow_no_order : forall w, Permutation w (<[i := x]> v) -> lines_agree (htp_line_sums simd w M) = false;
}.

(** Its chunk is the one that is damaged, and the XOR parity chunk of the group has arrived. *)
Record one_damaged_chunk : Prop := {
  od_total : m_total_size m = zlen orig;
  od_temp : sv_files s !! d_temp_path d = Some t;
  od_length : length t = length orig;
  od_only : forall j, ~ in_chunk orig cs (slot i) j -> t !! j = orig !! j;
  od_received : is_chunk_already_received id (dc + Z.of_nat g) (sv_files s) = true;
  od_parity : sv_files s !! parity_path id (Z.of_nat g) = Some (parity_row orig cs false (Z.of_nat g));
}.

Lemma modulus_pos : 0 < M.
Proof.
  unfold verify_modulus. pose proof (u64_range (d_modulus_M d)). cbv zeta.
  destruct (Z.eqb_spec (u64 (d_modulus_M d)) 0); lia.
Qed.

Lemma verify_scalars_pair level : one_wrong_scalar ->
  verify_scalars simd id d a level (sv_files s) =
  ([HtpSuspect (slot (named_first i)) (double_of_Z 1); HtpSuspect (slot (named_second i)) double_half],
   level, sv_files s).
Proof.
  intros []. destruct ow_right0 as (Hv & Hok & Hag), ow_wrong0 as [Hx Hne].
  destruct (count_data_chunks_spec _ _ ow_geometry0) as (Hn & _).
  unfold verify_scalars. cbv zeta. rewrite Z.quot_div_nonneg by lia.
  destruct (named_range i ow_slot0) as (_ & _ & Hnames).
  rewrite (verify_fold simd id _ _ a (sv_files s) g _ (VerifyState a (sv_files s)
    [HtpSuspect (slot (named_first i)) (double_of_Z 1); HtpSuspect (slot (named_second i)) double_half])).
  - cbn [vs_suspects vs_files vs_arrays]. done.
  - done.
  - lia.
  - done.
  - apply verify_group_pair; [|done|by rewrite ow_scalars0| |cbn; lia].
    + Z.div_mod_to_equations; lia.
    + rewrite ow_scalars0. by apply (htp_single_error_named simd v M (Z.of_nat g * 6) i x Hv ow_slot0 modulus_pos).
Qed.

Lemma named_first_cases : named_first i = if Nat.odd i then i else opposite i.
Proof. done. Qed.

(** C33: a completed upload in which one chunk is damaged, its scalar tells so, and the XOR parity
    of the group has arrived, passes the check.  If the chunk lies in a side slot the file is
    repaired byte for byte.  If it lies in a corner slot the chunk opposite to it, which was
    right, is overwritten: the damage of the corner is copied into it, byte by byte, the
    damaged chunk stays, and the session is finalized. *)
Theorem finalize_verify_single_error level : one_wrong_scalar -> one_damaged_chunk ->
  exists s' t', finalize_verify SHA256_Init simd id d level s = (Verified, d, s') /\
    sv_files s' !! d_temp_path d = Some t' /\
    (Nat.odd i = true -> t' = orig) /\
    (Nat.odd i = false ->
       (forall j, ~ in_chunk orig cs (slot (opposite i)) j -> t' !! j = t !! j) /\
       forall k o b b', 0 <= k < chunk_span (zlen orig) cs (slot (opposite i)) ->
         orig !! Z.to_nat (slot (opposite i) * cs + k) = Some o ->
         orig !! Z.to_nat (slot i * cs + k) = Some b -> t !! Z.to_nat (slot i * cs + k) = Some b' ->
         t' !! Z.to_nat (slot (opposite i) * cs + k) = Some (Z.lxor o (Z.lxor b b'))).
Proof.
  intros Hw [Etot Htemp Hlen Honly Hrec Hpar].
  pose proof (verify_scalars_pair level Hw) as Hvs. destruct Hw as [Hgeo Hcount Hg Hi Hload _ _ _ _ _ _].
  rewrite Etot in *. destruct (full_group orig cs g Hgeo Hg) as (Hdc & Hlast & Hgl).
  assert (Hcs : 0 < cs) by (destruct Hgeo; lia).
  destruct (named_range i Hi) as (Hn1 & _ & _).
  destruct (xor_encode_spec orig cs (Z.of_nat g * 6) 6 Hcs ltac:(lia) orig eq_refl 6) as (p & Hp & _); [done|].
  unfold parity_row in Hpar. rewrite Hgl in Hpar. unfold group_start in Hpar. rewrite Hp in Hpar. cbn in Hpar.
  destruct (xor_recovery_bytes orig t cs (Z.of_nat g * 6) 6 Hcs ltac:(lia) ltac:(lia)) with (id := id)
    (temp := d_temp_path d) (f := sv_files s) (dc := count_data_chunks (zlen orig) cs) (u := named_first i)
    (parity_idx := count_data_chunks (zlen orig) cs + Z.of_nat g) (p := p) as (t' & Hx & Ht'l & Hout & Hin);
    [lia|done|done|done|done| |].
  { by rewrite Z.add_simpl_l. }
  setoid_rewrite (fun k => rebuilt_byte orig t cs (Z.of_nat g * 6) 6 Hcs ltac:(lia) ltac:(lia) Hlen i Hi Honly k _ Hn1) in Hin.
  destruct (peel_group_pair SHA256_Init id (d_temp_path d) cs (count_data_chunks (zlen orig) cs) (zlen orig) g i Hi Hdc
    (with_files (sv_files s) s) (<[d_temp_path d := t']> (sv_files s)) Hrec Hx) as (s' & Hpeel & Hs').
  exists s', t'. split; [|split; [by rewrite Hs', lookup_insert_eq|]].
  { unfold finalize_verify. rewrite Hload, Hvs, Etot. cbv zeta.
    by rewrite (peel_pair SHA256_Init id _ cs _ _ g i Hi Hdc 5 _ s' Hpeel). }
  unfold named_first in Hout, Hin. split; intros Hodd; rewrite Hodd in Hout, Hin.
  - apply list_eq. intros j. destruct (decide (in_chunk orig cs (slot i) j)) as [Hj|Hj].
    + unfold in_chunk in Hj. set (k := Z.of_nat j - slot i * cs).
      pose proof (chunk_span_le (zlen orig) cs (slot i)).
      assert (Ej : j = Z.to_nat (slot i * cs + k)) by (subst k; lia). rewrite Ej, Hin by (subst k; lia).
      rewrite decide_True by done.
      destruct (lookup_lt_is_Some_2 orig (Z.to_nat (slot i * cs + k))) as [b Hb].
      { rewrite <- Ej. unfold chunk_span, zlen in *. case_match; bool_split; lia. }
      rewrite Hb. f_equal. by apply nth_byte; [|lia|subst k; lia|].
    + by rewrite Hout, Honly.
  - split; [done|]. intros k o b b' Hk Ho Hb Hb'. rewrite Hin by done.
    pose proof (chunk_span_le (zlen orig) cs (slot (opposite i))).
    rewrite decide_False by (intros E; unfold opposite in E; clear -Hi E;
      destruct i as [|[|[|[|[|[|?]]]]]]; [done..|lia]).
    by rewrite (nth_byte orig cs _ (opposite i) k o), (nth_byte orig cs _ i k b), (nth_byte t cs _ i k b') by (done || lia).
Qed.
End single_error.

(** ** Six chunks of one byte, the first one damaged *)

Section example.
Definition ex_right : list Z := [10; 20; 30; 40; 50; 60].
Definition ex_scalars : list Z := [1; 10; 1; 10; 1; 10].
Definition ex_meta : session_doc :=
  SessionDoc (UploadMeta (replicate 7 one) (Some 7) 7 1 6 (Some 16) (Some 48) []) 7 0 (CS "a.bin") []
    ex_token (CS "x") [] [] (upload_session_temp_path ex_id) (CS "xor1") 4294967291 1 (Some 0)
    (QArith_base.Qmake 0 1) 0 None [].
Definition ex_htp (f : fs) : fs :=
  foldl (fun f x => save_htp_scalar ex_id x.1 (CS "ab") x.2 x.2 f) f
    (zip slots6 (<[0%nat := 100]> ex_scalars)).
Definition ex_checked : Upload.server (ctx := list Z) :=
  Server (ex_htp (<[upload_session_temp_path ex_id := <[0%nat := 99]> ex_right]>
            (<[parity_path ex_id 0 := parity_row ex_right 1 false 0]>
               (<[upload_session_state_bin_path ex_id := replicate 7 one]> ∅))))
    {[ex_id := ex_meta]} ∅ ∅ cache_init [no_slot] [].
Definition ex_arrays : htp_arrays := default (HtpArrays [] [] []) (load_htp_scalars ex_id 7 (sv_files ex_checked)).

Lemma finalize_verify_single_error_witness : exists s' t',
  finalize_verify ([] : list Z) Scalar ex_id ex_meta 0 ex_checked = (Verified, ex_meta, s') /\
  sv_files s' !! upload_session_temp_path ex_id = Some t' /\ t' !! 0%nat = Some 99 /\
  t' !! 3%nat = Some (Z.lxor 40 (Z.lxor 10 99)).
Proof.
  destruct (finalize_verify_single_error ([] : list Z) Scalar ex_id ex_meta ex_checked ex_arrays ex_right
    (<[0%nat := 99]> ex_right) 0 0 100 ex_scalars 0) as (s' & t' & Hv & Ht & _ & Hc).
  - split; try (lazymatch goal with |- _ = _ => vm_compute; reflexivity end).
    + unfold good_geometry. split_and!; by vm_compute.
    + by vm_compute.
    + by vm_compute.
    + lia.
    + intros g' Hg' Hne. vm_compute in Hg'. lia.
    + split; [done|split]; try (lazymatch goal with |- _ = _ => vm_compute; reflexivity end). repeat (constructor; [unfold scalar_ok; lia|]). constructor.
    + split; [unfold scalar_ok; lia|by vm_compute].
    + intros w Hw. apply in_all_orders in Hw.
      assert (Hall : forallb (fun w => negb (lines_agree (htp_line_sums Scalar w (verify_modulus ex_meta))))
                       (all_orders (<[0%nat := 100]> ex_scalars)) = true) by (vm_compute; reflexivity).
      rewrite forallb_forall in Hall. by apply negb_true_iff, Hall.
  - split; try (lazymatch goal with |- _ = _ => vm_compute; reflexivity end).
    intros j Hj. destruct j as [|j]; [|reflexivity]. destruct Hj. unfold in_chunk. by vm_compute.
  - exists s', t'. split; [exact Hv|]. split; [exact Ht|]. destruct (Hc eq_refl) as [Hout Hin]. split.
    + rewrite Hout; [vm_compute; reflexivity|]. unfold in_chunk. vm_compute. intros [H _]. by apply H.
    + refine (eq_trans _ (Hin 0 40 10 99 _ _ _ _)).
      * apply (f_equal (fun n : nat => t' !! n)). vm_compute. reflexivity.
      * split; by vm_compute.
      * vm_compute. reflexivity.
      * vm_compute. reflexivity.
      * vm_compute. reflexivity.
Defined.
End example.
