(* ===== verification/Totp.v ===== *)
(** * Two-factor codes (src/src/auth/totp.c)

    Base32 secrets (RFC 4648), codes for a time step (RFC 6238) and the check of a typed code.
    HMAC-SHA1 is OpenSSL's and a parameter. *)
From S2P Require Import Prelude CStr Gf256.

(** ** Base32 *)

Definition k_b32_alphabet : cstr := CS "ABCDEFGHIJKLMNOPQRSTUVWXYZ234567".

(** [buffer] is a 32-bit word; [None] is the return of 0 when the output does not fit. *)
Record b32_state := B32State {
  b_buffer : Z;
  b_bits : Z;
  b_out : list Z;
}.

(** [while (bits >= 5)]: a byte leaves at most 12 bits, so two rounds are enough. *)
Fixpoint b32_emit (fuel : nat) (out_cap : Z) (s : b32_state) : option b32_state :=
  match fuel with
  | O => Some s
  | S fuel' =>
      if b_bits s <? 5 then Some s
      else if out_cap <=? zlen (b_out s) + 1 then None
      else
        let c := nth (Z.to_nat (Z.land (Z.shiftr (b_buffer s) (b_bits s - 5)) 31)) k_b32_alphabet 0 in
        b32_emit fuel' out_cap (B32State (b_buffer s) (b_bits s - 5) (b_out s ++ [c]))
  end.

Definition b32_put (out_cap : Z) (s : option b32_state) (c : Z) : option b32_state :=
  match s with
  | None => None
  | Some s => b32_emit 2 out_cap (B32State (Z.lor (u32 (Z.shiftl (b_buffer s) 8)) c) (b_bits s + 8) (b_out s))
  end.

Definition totp_base32_encode (input : list Z) (out_cap : Z) : option cstr :=
  if out_cap =? 0 then None
  else
    match foldl (b32_put out_cap) (Some (B32State 0 0 [])) input with
    | None => None
    | Some s =>
        if 0 <? b_bits s then
          if out_cap <=? zlen (b_out s) + 1 then None
          else Some (b_out s ++ [nth (Z.to_nat (Z.land (u32 (Z.shiftl (b_buffer s) (5 - b_bits s))) 31)) k_b32_alphabet 0])
        else if out_cap <=? zlen (b_out s) then None else Some (b_out s)
    end.

Definition b32_value (c : Z) : Z :=
  if (65 <=? c) && (c <=? 90) then c - 65
  else if (97 <=? c) && (c <=? 122) then c - 97
  else if (50 <=? c) && (c <=? 55) then c - 50 + 26
  else -1.

(** '=', ' ', newline, carriage return, tab *)
Definition b32_skipped (c : Z) : bool := (c =? 61) || (c =? 32) || (c =? 10) || (c =? 13) || (c =? 9).

Definition b32_get (out_cap : Z) (s : option b32_state) (c : Z) : option b32_state :=
  match s with
  | None => None
  | Some s =>
      if b32_skipped c then Some s
      else
        let v := b32_value c in
        if v <? 0 then None
        else
          let buffer := Z.lor (u32 (Z.shiftl (b_buffer s) 5)) v in
          let bits := b_bits s + 5 in
          if 8 <=? bits then
            if out_cap <=? zlen (b_out s) then None
            else Some (B32State buffer (bits - 8) (b_out s ++ [Z.land (Z.shiftr buffer (bits - 8)) 255]))
          else Some (B32State buffer bits (b_out s))
  end.

Definition totp_base32_decode (b32 : cstr) (out_cap : Z) : option (list Z) :=
  if out_cap =? 0 then None
  else match foldl (b32_get out_cap) (Some (B32State 0 0 [])) b32 with
       | None => None
       | Some s => Some (b_out s)
       end.

(** ** Codes *)

Definition TOTP_SECRET_BYTES : Z := 20.
Definition TOTP_B32_LEN : Z := 32.
Definition TOTP_CODE_DIGITS : Z := 6.
Definition TOTP_STEP_SEC : Z := 30.
Definition TOTP_WINDOW_STEPS : Z := 1.

(** [RAND_bytes]: [None] when it fails. *)
Definition totp_secret_generate (random : option (list Z)) : option cstr :=
  match random with
  | None => None
  | Some bytes =>
      match totp_base32_encode bytes (TOTP_B32_LEN + 1) with
      | Some s => if zlen s =? TOTP_B32_LEN then Some s else None
      | None => None
      end
  end.

(** [%0*u]: zeros in front, up to the width. *)
Definition print_padded (width : nat) (n : Z) : cstr :=
  let s := print_dec n in replicate (width - length s) (CH "0") ++ s.

Section totp.
Context (HMAC_sha1 : list Z -> list Z -> option (list Z)).

(** The counter, most significant byte first. *)
Definition counter_bytes (counter : Z) : list Z :=
  map (fun i => Z.land (Z.shiftr counter (8 * i)) 255) [7; 6; 5; 4; 3; 2; 1; 0].

Definition totp_code_at (secret_b32 : cstr) (t : Z) : option cstr :=
  match totp_base32_decode secret_b32 64 with
  | None => None
  | Some key =>
      if zlen key <? 10 then None
      else
        let counter := u64 (Z.quot t TOTP_STEP_SEC) in
        match HMAC_sha1 key (counter_bytes counter) with
        | None => None
        | Some digest =>
            if zlen digest <? 20 then None
            else
              let at_ i := nth (Z.to_nat i) digest 0 in
              let offset := Z.land (at_ 19) 15 in
              let bin := Z.lor (Z.lor (Z.lor (Z.shiftl (Z.land (at_ offset) 127) 24) (Z.shiftl (at_ (offset + 1)) 16))
                                  (Z.shiftl (at_ (offset + 2)) 8)) (at_ (offset + 3)) in
              Some (snprintf_s (Z.to_nat TOTP_CODE_DIGITS + 1)
                      (print_padded (Z.to_nat TOTP_CODE_DIGITS) (bin `mod` 1000000)))
        end
  end.

Definition code_is_welformed (code : cstr) : bool :=
  (zlen code =? TOTP_CODE_DIGITS) && forallb isdigit code.

(** The drift runs from -1 to 1. *)
Definition totp_verify_at (secret_b32 code : cstr) (t : Z) : bool :=
  code_is_welformed code &&
  existsb (fun drift =>
      match totp_code_at secret_b32 (t + drift * TOTP_STEP_SEC) with
      | Some expected => streq expected code
      | None => false
      end) [- TOTP_WINDOW_STEPS; 0; TOTP_WINDOW_STEPS].
End totp.

(** ** Strings of bits *)

(** The low [n] bits of a word, the highest first. *)
Fixpoint bits (n : nat) (v : Z) : list bool :=
  match n with O => [] | S k => Z.testbit v (Z.of_nat k) :: bits k v end.

Lemma length_bits n v : length (bits n v) = n.
Proof. induction n as [|n IH]; [done|]. cbn. by rewrite IH. Qed.

Lemma bits_ext n v w : (forall i, 0 <= i < Z.of_nat n -> Z.testbit v i = Z.testbit w i) -> bits n v = bits n w.
Proof.
  induction n as [|n IH]; intros H; [done|]. cbn. rewrite H by lia. f_equal. apply IH. intros i Hi. apply H. lia.
Qed.

Lemma bits_split a b v : bits (a + b) v = bits a (Z.shiftr v (Z.of_nat b)) ++ bits b v.
Proof.
  induction a as [|a IH]; [done|]. cbn [bits Nat.add app]. rewrite IH, Z.shiftr_spec by lia.
  do 2 f_equal. lia.
Qed.

Lemma testbit_above n v i : 0 <= v < 2 ^ n -> 0 <= n <= i -> Z.testbit v i = false.
Proof. intros Hv Hi. rewrite <- (Z.mod_small v (2 ^ n)) by done. by apply Z.mod_pow2_bits_high. Qed.

Lemma bits_inj n v w : 0 <= v < 2 ^ Z.of_nat n -> 0 <= w < 2 ^ Z.of_nat n -> bits n v = bits n w -> v = w.
Proof.
  intros Hv Hw H. assert (Hlow : forall i, 0 <= i < Z.of_nat n -> Z.testbit v i = Z.testbit w i).
  { clear Hv Hw. induction n as [|n IH]; intros i Hi; [lia|]. cbn in H. injection H as Ht Hr.
    destruct (Z.eq_dec i (Z.of_nat n)) as [-> | Hne]; [done|]. apply IH; [done|lia]. }
  apply Z.bits_inj'. intros i Hi. destruct (Z_lt_le_dec i (Z.of_nat n)); [by apply Hlow|].
  by rewrite !(testbit_above (Z.of_nat n)) by lia.
Qed.

(** A byte, or a symbol, is shifted in below the [n] bits kept so far. *)
Lemma bits_shift_in n k buffer c : (n + k <= 32)%nat -> 0 <= c < 2 ^ Z.of_nat k ->
  bits (n + k) (Z.lor (u32 (Z.shiftl buffer (Z.of_nat k))) c) = bits n buffer ++ bits k c.
Proof.
  intros Hn Hc. rewrite bits_split. f_equal; apply bits_ext; intros i Hi.
  - rewrite Z.shiftr_spec, Z.lor_spec by lia. unfold u32. rewrite Z.mod_pow2_bits_low, Z.shiftl_spec by lia.
    replace (i + Z.of_nat k - Z.of_nat k) with i by lia.
    by rewrite (testbit_above (Z.of_nat k) c), orb_false_r by lia.
  - rewrite Z.lor_spec. unfold u32. rewrite Z.mod_pow2_bits_low, Z.shiftl_spec_low by lia. done.
Qed.

(** The highest of the [n + k] bits are taken out. *)
Lemma bits_take_out n k buffer : bits k (Z.land (Z.shiftr buffer (Z.of_nat n)) (2 ^ Z.of_nat k - 1)) ++ bits n buffer
  = bits (k + n) buffer.
Proof.
  rewrite bits_split. f_equal. apply bits_ext. intros i Hi.
  replace (2 ^ Z.of_nat k - 1) with (Z.ones (Z.of_nat k)) by (rewrite Z.ones_equiv; lia).
  rewrite Z.land_spec, Z.ones_spec_low by lia. apply andb_true_r.
Qed.

(** ** Symbols *)

Lemma alphabet_value v : 0 <= v < 32 ->
  let c := nth (Z.to_nat v) k_b32_alphabet 0 in b32_value c = v /\ b32_skipped c = false.
Proof.
  intros Hv. assert (H : forallb (fun i => let c := nth i k_b32_alphabet 0 in
    (b32_value c =? Z.of_nat i) && negb (b32_skipped c)) (seq 0 32) = true) by (vm_compute; reflexivity).
  rewrite forallb_forall in H. specialize (H (Z.to_nat v) ltac:(apply in_seq; lia)).
  apply andb_true_iff in H as [H1 H2]. apply Z.eqb_eq in H1. apply negb_true_iff in H2.
  split; [lia|done].
Qed.

Definition symbol_ok (c : Z) : Prop := 0 <= b32_value c < 32 /\ b32_skipped c = false.
Definition symbol_bits (s : list Z) : list bool := concat (map (fun c => bits 5 (b32_value c)) s).
Definition byte_bits (s : list Z) : list bool := concat (map (bits 8) s).

Lemma symbol_bits_app a b : symbol_bits (a ++ b) = symbol_bits a ++ symbol_bits b.
Proof. unfold symbol_bits. by rewrite map_app, concat_app. Qed.
Lemma byte_bits_app a b : byte_bits (a ++ b) = byte_bits a ++ byte_bits b.
Proof. unfold byte_bits. by rewrite map_app, concat_app. Qed.

Lemma byte_bits_one c : byte_bits [c] = bits 8 c.
Proof. unfold byte_bits. cbn [map concat]. apply app_nil_r. Qed.

Lemma length_byte_bits s : length (byte_bits s) = (8 * length s)%nat.
Proof. induction s as [|c s IH]; [done|]. unfold byte_bits in *. cbn [map concat]. rewrite length_app, length_bits, IH. cbn [length]. lia. Qed.
Lemma length_symbol_bits s : length (symbol_bits s) = (5 * length s)%nat.
Proof. induction s as [|c s IH]; [done|]. unfold symbol_bits in *. cbn [map concat]. rewrite length_app, length_bits, IH. cbn [length]. lia. Qed.

Lemma byte_bits_inj a b : Forall is_byte a -> Forall is_byte b -> length a = length b ->
  byte_bits a = byte_bits b -> a = b.
Proof.
  revert b. induction a as [|x a IH]; intros [|y b] Ha Hb Hl H; try done.
  apply Forall_cons in Ha as [Hx Ha], Hb as [Hy Hb]. unfold byte_bits in H. cbn [map concat] in H.
  apply app_inj_1 in H as [H1 H2]; [|by rewrite !length_bits].
  f_equal; [by apply (bits_inj 8)|]. apply IH; try done. by injection Hl.
Qed.

(** ** The encoder *)

(** What has been written and the bits kept are the bits of the bytes consumed. *)
Record enc_inv (consumed : list Z) (limit : Z) (s : b32_state) : Prop := {
  ei_bits : 0 <= b_bits s < limit;
  ei_symbols : Forall symbol_ok (b_out s);
  ei_stream : symbol_bits (b_out s) ++ bits (Z.to_nat (b_bits s)) (b_buffer s) = byte_bits consumed;
}.

Lemma enc_inv_length consumed limit s : enc_inv consumed limit s -> 5 * zlen (b_out s) + b_bits s = 8 * zlen consumed.
Proof.
  intros [Hb _ He]. apply (f_equal length) in He.
  rewrite length_app, length_symbol_bits, length_bits, length_byte_bits in He. unfold zlen. lia.
Qed.

Lemma symbol_of_bits v : 0 <= v < 32 -> let c := nth (Z.to_nat v) k_b32_alphabet 0 in
  symbol_ok c /\ symbol_bits [c] = bits 5 v.
Proof.
  intros Hv c. destruct (alphabet_value v Hv) as [H1 H2]. fold c in H1, H2. unfold symbol_ok, symbol_bits.
  cbn [map concat]. by rewrite H1, app_nil_r.
Qed.

Lemma b32_emit_ok fuel out_cap consumed limit s : enc_inv consumed limit s -> limit <= 5 * (Z.of_nat fuel + 1) ->
  8 * zlen consumed < 5 * out_cap ->
  exists s', b32_emit fuel out_cap s = Some s' /\ enc_inv consumed 5 s'.
Proof.
  revert limit s. induction fuel as [|fuel IH]; intros limit s Hs Hl Hcap; cbn [b32_emit].
  { exists s. split; [done|]. destruct Hs. split; [lia|done|done]. }
  pose proof (enc_inv_length _ _ _ Hs) as Hlen. destruct Hs as [Hb Hsym He].
  destruct (Z.ltb_spec (b_bits s) 5); [exists s; split; [done|split; [lia|done|done]]|].
  destruct (Z.leb_spec out_cap (zlen (b_out s) + 1)); [lia|].
  set (v := Z.land (Z.shiftr (b_buffer s) (b_bits s - 5)) 31).
  assert (Hv : 0 <= v < 32).
  { subst v. change 31 with (Z.ones 5). rewrite Z.land_ones by lia. apply Z.mod_pos_bound. lia. }
  destruct (symbol_of_bits v Hv) as [Hc Hcb]. cbv zeta in Hc, Hcb.
  apply (IH (limit - 5)); [|lia|done]. split; cbn [b_bits b_out b_buffer].
  - lia.
  - apply Forall_app. split; [done|]. by repeat constructor; apply Hc.
  - rewrite <- He, symbol_bits_app, Hcb, <- app_assoc. f_equal.
    replace (Z.to_nat (b_bits s)) with (5 + Z.to_nat (b_bits s - 5))%nat by lia.
    rewrite <- (bits_take_out (Z.to_nat (b_bits s - 5)) 5). f_equal. subst v.
    by rewrite Z2Nat.id by lia.
Qed.

Lemma b32_encode_fold out_cap input consumed s : Forall is_byte input -> enc_inv consumed 5 s ->
  8 * (zlen consumed + zlen input) < 5 * out_cap ->
  exists s', foldl (b32_put out_cap) (Some s) input = Some s' /\ enc_inv (consumed ++ input) 5 s'.
Proof.
  revert consumed s. induction input as [|c input IH]; intros consumed s Hin Hs Hcap.
  { exists s. by rewrite app_nil_r. }
  apply Forall_cons in Hin as [Hc Hin]. rewrite zlen_cons in Hcap. pose proof (zlen_nonneg input).
  assert (Hput : enc_inv (consumed ++ [c]) 13
    (B32State (Z.lor (u32 (Z.shiftl (b_buffer s) 8)) c) (b_bits s + 8) (b_out s))).
  { destruct Hs as [Hb Hsym He]. split; cbn [b_bits b_out b_buffer]; [lia|done|].
    replace (Z.to_nat (b_bits s + 8)) with (Z.to_nat (b_bits s) + 8)%nat by lia.
    rewrite (bits_shift_in (Z.to_nat (b_bits s)) 8), app_assoc, He, byte_bits_app, byte_bits_one by (done || lia).
    done. }
  destruct (b32_emit_ok 2 out_cap _ _ _ Hput) as (s' & Hs' & Hi); [lia|rewrite zlen_app, zlen_cons, zlen_nil; lia|].
  destruct (IH (consumed ++ [c]) s' Hin Hi) as (s'' & Hf & Hi'); [rewrite zlen_app, zlen_cons, zlen_nil; lia|].
  exists s''. cbn [foldl]. unfold b32_put at 2. rewrite Hs'. split; [exact Hf|]. by rewrite <- app_assoc in Hi'.
Qed.

Lemma enc_inv_start : enc_inv [] 5 (B32State 0 0 []).
Proof. split; [cbn; lia|constructor|done]. Qed.

Lemma totp_base32_encode_spec input out_cap : Forall is_byte input -> 8 * zlen input + 4 < 5 * out_cap ->
  exists s k, totp_base32_encode input out_cap = Some s /\ Forall symbol_ok s /\
    (k < 5)%nat /\ symbol_bits s = byte_bits input ++ replicate k false.
Proof.
  intros Hin Hcap. pose proof (zlen_nonneg input). unfold totp_base32_encode.
  destruct (Z.eqb_spec out_cap 0); [lia|].
  destruct (b32_encode_fold out_cap input [] _ Hin enc_inv_start) as (s & -> & Hs); [rewrite zlen_nil; lia|].
  pose proof (enc_inv_length _ _ _ Hs) as Hlen. destruct Hs as [Hb Hsym He]. cbn [app] in *.
  destruct (Z.ltb_spec 0 (b_bits s)).
  - destruct (Z.leb_spec out_cap (zlen (b_out s) + 1)); [lia|].
    set (v := Z.land _ 31). assert (Hv : 0 <= v < 32).
    { subst v. change 31 with (Z.ones 5). rewrite Z.land_ones by lia. apply Z.mod_pos_bound. lia. }
    destruct (symbol_of_bits v Hv) as [Hc Hcb]. cbv zeta in Hc, Hcb.
    eexists _, (Z.to_nat (5 - b_bits s)). split; [reflexivity|]. split; [|split; [lia|]].
    + apply Forall_app. split; [done|]. by repeat constructor; apply Hc.
    + rewrite symbol_bits_app, Hcb, <- He, <- app_assoc. f_equal.
      replace 5%nat with (Z.to_nat (b_bits s) + Z.to_nat (5 - b_bits s))%nat at 1 by lia.
      rewrite bits_split. subst v. f_equal.
      * apply bits_ext. intros i Hi. rewrite Z.shiftr_spec, Z.land_spec by lia. unfold u32.
        rewrite Z.mod_pow2_bits_low, Z.shiftl_spec by lia.
        replace (i + Z.of_nat (Z.to_nat (5 - b_bits s)) - (5 - b_bits s)) with i by lia.
        rewrite (Z.ones_spec_low 5) by lia. apply andb_true_r.
      * assert (Hz : forall m, Z.of_nat m <= 5 - b_bits s ->
          bits m (Z.land (u32 (Z.shiftl (b_buffer s) (5 - b_bits s))) 31) = replicate m false); [|apply Hz; lia].
        induction m as [|m IH]; intros Hm; [done|]. cbn [bits replicate]. rewrite IH by lia. f_equal.
        rewrite Z.land_spec. unfold u32. by rewrite Z.mod_pow2_bits_low, Z.shiftl_spec_low by lia.
  - destruct (Z.leb_spec out_cap (zlen (b_out s))); [lia|]. exists (b_out s), 0%nat.
    split; [done|]. split; [done|]. split; [lia|]. replace (Z.to_nat (b_bits s)) with 0%nat in He by lia.
    exact He || (cbn [replicate bits] in *; by rewrite app_nil_r in *).
Qed.

(** ** The decoder *)

(** The symbols of a typed secret: separators are skipped and the case does not matter. *)
Definition typed_symbols (s : cstr) : list Z := map b32_value (List.filter (fun c => negb (b32_skipped c)) s).

Definition value_bits (vs : list Z) : list bool := concat (map (bits 5) vs).

Record dec_inv (vs : list Z) (s : b32_state) : Prop := {
  di_bits : 0 <= b_bits s < 8;
  di_bytes : Forall is_byte (b_out s);
  di_stream : byte_bits (b_out s) ++ bits (Z.to_nat (b_bits s)) (b_buffer s) = value_bits vs;
}.

Lemma value_bits_app a b : value_bits (a ++ b) = value_bits a ++ value_bits b.
Proof. unfold value_bits. by rewrite map_app, concat_app. Qed.

Lemma length_value_bits vs : length (value_bits vs) = (5 * length vs)%nat.
Proof.
  induction vs as [|v vs IH]; [done|]. unfold value_bits in *. cbn [map concat].
  rewrite length_app, length_bits, IH. cbn [length]. lia.
Qed.

Lemma dec_inv_length vs s : dec_inv vs s -> 8 * zlen (b_out s) + b_bits s = 5 * zlen vs.
Proof.
  intros [Hb _ He]. apply (f_equal length) in He.
  rewrite length_app, length_byte_bits, length_bits, length_value_bits in He. unfold zlen. lia.
Qed.

Lemma b32_get_ok out_cap vs s v c : dec_inv vs s -> b32_skipped c = false -> b32_value c = v -> 0 <= v < 32 ->
  5 * (zlen vs + 1) < 8 * (out_cap + 1) ->
  exists s', b32_get out_cap (Some s) c = Some s' /\ dec_inv (vs ++ [v]) s'.
Proof.
  intros Hs Hskip Hval Hv Hcap. pose proof (dec_inv_length _ _ Hs) as Hlen. destruct Hs as [Hb Hby He].
  unfold b32_get. rewrite Hskip, Hval. destruct (Z.ltb_spec v 0); [lia|].
  set (buffer := Z.lor (u32 (Z.shiftl (b_buffer s) 5)) v).
  assert (Hst : byte_bits (b_out s) ++ bits (Z.to_nat (b_bits s + 5)) buffer = value_bits (vs ++ [v])).
  { replace (Z.to_nat (b_bits s + 5)) with (Z.to_nat (b_bits s) + 5)%nat by lia. subst buffer.
    rewrite (bits_shift_in (Z.to_nat (b_bits s)) 5), app_assoc, He, value_bits_app by (cbn; lia).
    unfold value_bits. cbn [map concat]. by rewrite app_nil_r. }
  destruct (Z.leb_spec 8 (b_bits s + 5)).
  - destruct (Z.leb_spec out_cap (zlen (b_out s))); [lia|]. eexists. split; [reflexivity|].
    set (byte := Z.land _ 255). assert (Hbyte : is_byte byte).
    { subst byte. change 255 with (Z.ones 8). rewrite Z.land_ones by lia. unfold is_byte.
      apply Z.mod_pos_bound. lia. }
    split; cbn [b_bits b_out b_buffer]; [lia|apply Forall_app; split; [done|by repeat constructor; apply Hbyte]|].
    rewrite <- Hst, byte_bits_app, byte_bits_one, <- app_assoc. f_equal.
    replace (Z.to_nat (b_bits s + 5)) with (8 + Z.to_nat (b_bits s + 5 - 8))%nat by lia.
    rewrite <- (bits_take_out (Z.to_nat (b_bits s + 5 - 8)) 8). f_equal. subst byte.
    by rewrite Z2Nat.id by lia.
  - eexists. split; [reflexivity|]. split; cbn [b_bits b_out b_buffer]; [lia|done|done].
Qed.

Lemma b32_decode_fold out_cap typed vs s : dec_inv vs s -> Forall (fun v => 0 <= v < 32) (typed_symbols typed) ->
  5 * (zlen vs + zlen (typed_symbols typed)) < 8 * (out_cap + 1) ->
  exists s', foldl (b32_get out_cap) (Some s) typed = Some s' /\ dec_inv (vs ++ typed_symbols typed) s'.
Proof.
  revert vs s. induction typed as [|c typed IH]; intros vs s Hs Hv Hcap.
  { exists s. by rewrite app_nil_r. }
  unfold typed_symbols in *. cbn [List.filter] in *. cbn [foldl].
  destruct (b32_skipped c) eqn:Hc; cbn [negb map] in *.
  { replace (b32_get out_cap (Some s) c) with (Some s) by (unfold b32_get; by rewrite Hc). by apply IH. }
  apply Forall_cons in Hv as [Hv Hvs]. rewrite zlen_cons in Hcap.
  pose proof (zlen_nonneg (map b32_value (List.filter (fun c => negb (b32_skipped c)) typed))).
  destruct (b32_get_ok out_cap vs s _ c Hs Hc eq_refl Hv) as (s' & -> & Hs'); [lia|].
  destruct (IH (vs ++ [b32_value c]) s' Hs' Hvs) as (s'' & Hf & Hi); [rewrite zlen_app, zlen_cons, zlen_nil; lia|].
  exists s''. split; [done|]. by rewrite <- app_assoc in Hi.
Qed.

Lemma dec_inv_start : dec_inv [] (B32State 0 0 []).
Proof. split; [cbn; lia|constructor|done]. Qed.

Lemma symbols_of_encoded s : Forall symbol_ok s -> typed_symbols s = map b32_value s.
Proof.
  intros H. unfold typed_symbols. f_equal. induction H as [|c s [_ Hc] _ IH]; [done|]. cbn. by rewrite Hc, IH.
Qed.

(** base32 encoding followed by decoding gives the bytes back, whatever separators are put
    between the symbols and in whichever case they are typed, when the buffers have room for
    the text with its terminator and for the bytes. *)
Theorem totp_base32_roundtrip input cap cap' : Forall is_byte input -> 8 * zlen input + 4 < 5 * cap ->
  zlen input <= cap' -> 0 < cap' ->
  exists s, totp_base32_encode input cap = Some s /\ zlen s = (8 * zlen input + 4) / 5 /\
    forall typed, typed_symbols typed = map b32_value s -> totp_base32_decode typed cap' = Some input.
Proof.
  intros Hin Hcap Hcap' Hpos. destruct (totp_base32_encode_spec input cap Hin Hcap) as (s & k & He & Hs & Hk & Hbits).
  exists s. split; [done|]. pose proof (f_equal length Hbits) as Hl.
  rewrite length_app, length_replicate, length_symbol_bits, length_byte_bits in Hl.
  split; [unfold zlen; Z.div_mod_to_equations; lia|]. intros typed Ht. unfold totp_base32_decode.
  destruct (Z.eqb_spec cap' 0); [lia|].
  destruct (b32_decode_fold cap' typed [] _ dec_inv_start) as (s' & -> & Hs').
  - rewrite Ht. apply Forall_map. eapply Forall_impl; [exact Hs|]. by intros c [? _].
  - rewrite Ht, zlen_nil. unfold zlen in *. rewrite length_map. lia.
  - pose proof (dec_inv_length _ _ Hs') as Hlen. destruct Hs' as [Hb Hby Hst]. cbn [app] in *. rewrite Ht in *.
    assert (Hvb : value_bits (map b32_value s) = symbol_bits s) by (unfold value_bits, symbol_bits; by rewrite map_map).
    rewrite Hvb, Hbits in Hst. unfold zlen in Hlen. rewrite length_map in Hlen.
    assert (Hlo : length (b_out s') = length input) by lia.
    apply app_inj_1 in Hst as [Hst _]; [|by rewrite !length_byte_bits, Hlo].
    f_equal. by apply byte_bits_inj.
Qed.

Lemma totp_base32_roundtrip_witness : exists s, totp_base32_encode [222; 173; 190; 239; 7] 9 = Some s /\
  totp_base32_decode (CS "32w3-") 5 = None /\
  totp_base32_decode (CS "32w3 53yh") 5 = Some [222; 173; 190; 239; 7].
Proof.
  destruct (totp_base32_roundtrip [222; 173; 190; 239; 7] 9 5) as (s & Hs & _ & Hdec).
  - repeat constructor; unfold is_byte; lia.
  - unfold zlen. cbn. lia.
  - unfold zlen. cbn. lia.
  - lia.
  - exists s. split; [exact Hs|]. split; [vm_compute; reflexivity|]. apply Hdec.
    assert (E : totp_base32_encode [222; 173; 190; 239; 7] 9 = Some (CS "32W353YH")) by (vm_compute; reflexivity).
    rewrite E in Hs. injection Hs as <-. vm_compute. reflexivity.
Defined.

(** ** Codes and the window *)

Lemma print_dec_aux_digits fuel n acc : 0 <= n -> Forall (fun c => isdigit c = true) acc ->
  Forall (fun c => isdigit c = true) (print_dec_aux fuel n acc).
Proof.
  revert n acc. induction fuel as [|fuel IH]; intros n acc Hn Hacc; [done|]. cbn [print_dec_aux]. cbv zeta.
  assert (H : Forall (fun c => isdigit c = true) ((48 + n `mod` 10) :: acc)).
  { constructor; [|done]. pose proof (Z.mod_pos_bound n 10 ltac:(lia)). unfold isdigit.
    apply andb_true_iff. split; apply Z.leb_le; lia. }
  destruct (n <? 10); [done|]. apply IH; [|done]. apply Z.div_pos; lia.
Qed.

Lemma print_dec_aux_length fuel k n acc : 0 <= n < 10 ^ Z.of_nat (S k) ->
  (length (print_dec_aux fuel n acc) <= S k + length acc)%nat.
Proof.
  revert k n acc. induction fuel as [|fuel IH]; intros k n acc Hn; cbn [print_dec_aux]; [lia|]. cbv zeta.
  destruct (Z.ltb_spec n 10); [cbn [length]; lia|]. destruct k as [|k]; [cbn in Hn; lia|].
  specialize (IH k (n / 10) ((48 + n `mod` 10) :: acc)). cbn [length] in IH.
  assert (0 <= n / 10 < 10 ^ Z.of_nat (S k)); [|specialize (IH ltac:(done)); lia].
  rewrite (Nat2Z.inj_succ (S k)), Z.pow_succ_r in Hn by lia. Z.div_mod_to_equations; lia.
Qed.

Section window.
Context (HMAC_sha1 : list Z -> list Z -> option (list Z)).

Lemma code_welformed n : 0 <= n < 1000000 ->
  code_is_welformed (snprintf_s (Z.to_nat TOTP_CODE_DIGITS + 1) (print_padded (Z.to_nat TOTP_CODE_DIGITS) n)) = true.
Proof.
  intros Hn. assert (Hl : (length (print_dec n) <= 6)%nat).
  { pose proof (print_dec_aux_length 20 5 n [] Hn). cbn [length] in *. unfold print_dec. lia. }
  assert (Hpl : length (print_padded (Z.to_nat TOTP_CODE_DIGITS) n) = 6%nat).
  { unfold print_padded. rewrite length_app, length_replicate. replace (Z.to_nat TOTP_CODE_DIGITS) with 6%nat by done. lia. }
  assert (E : snprintf_s (Z.to_nat TOTP_CODE_DIGITS + 1) (print_padded (Z.to_nat TOTP_CODE_DIGITS) n)
              = print_padded (Z.to_nat TOTP_CODE_DIGITS) n) by (unfold snprintf_s; apply take_ge; rewrite Hpl; by vm_compute).
  rewrite E. unfold code_is_welformed. apply andb_true_iff. split.
  - apply Z.eqb_eq. unfold zlen. by rewrite Hpl.
  - apply forallb_forall. intros c Hc. apply in_app_iff in Hc as [Hc|Hc].
    + apply list_elem_of_In, list_elem_of_lookup in Hc as [i Hi]. by apply lookup_replicate in Hi as [-> _].
    + assert (H : Forall (fun c => isdigit c = true) (print_dec n))
        by (apply print_dec_aux_digits; [lia|constructor]).
      rewrite Forall_forall in H. apply H. by apply list_elem_of_In.
Qed.

Lemma totp_code_welformed secret t code : totp_code_at HMAC_sha1 secret t = Some code -> code_is_welformed code = true.
Proof.
  unfold totp_code_at. destruct (totp_base32_decode _ _) as [key|]; [|done]. destruct (zlen key <? 10); [done|].
  destruct (HMAC_sha1 _ _) as [digest|]; [|done]. destruct (zlen digest <? 20); [done|]. cbv zeta.
  intros [= <-]. apply code_welformed, Z.mod_pos_bound. lia.
Qed.

(** The code depends on the time step only. *)
Lemma totp_code_step secret t : 0 <= t -> totp_code_at HMAC_sha1 secret t
  = totp_code_at HMAC_sha1 secret (t / TOTP_STEP_SEC * TOTP_STEP_SEC).
Proof.
  intros Ht. unfold totp_code_at, TOTP_STEP_SEC in *. pose proof (Z.div_pos t 30 Ht ltac:(lia)).
  rewrite !Z.quot_div_nonneg by lia.
  by rewrite Z.div_mul by lia.
Qed.

(** a typed code is accepted exactly when it is the code of the current time step or of one of
    its two neighbours, so that a code shown at one time is accepted at any other time at most
    thirty seconds away; nothing that is not six digits is. *)
Theorem totp_verify_window secret code t : TOTP_STEP_SEC <= t ->
  (totp_verify_at HMAC_sha1 secret code t = true <->
   exists step, t / TOTP_STEP_SEC - 1 <= step <= t / TOTP_STEP_SEC + 1 /\
     totp_code_at HMAC_sha1 secret (step * TOTP_STEP_SEC) = Some code) /\
  (forall shown, 0 <= shown -> Z.abs (t - shown) <= 30 ->
     totp_code_at HMAC_sha1 secret shown = Some code -> totp_verify_at HMAC_sha1 secret code t = true) /\
  (totp_verify_at HMAC_sha1 secret code t = true -> length code = 6%nat /\ Forall (fun c => isdigit c = true) code).
Proof.
  intros Ht. assert (H : totp_verify_at HMAC_sha1 secret code t = true <->
   exists step, t / TOTP_STEP_SEC - 1 <= step <= t / TOTP_STEP_SEC + 1 /\
     totp_code_at HMAC_sha1 secret (step * TOTP_STEP_SEC) = Some code).
  { unfold totp_verify_at. rewrite andb_true_iff, existsb_exists. split.
    - intros (_ & drift & Hd & Hc). exists (t / TOTP_STEP_SEC + drift). split.
      + repeat destruct Hd as [<- | Hd]; unfold TOTP_WINDOW_STEPS; lia || done.
      + destruct (totp_code_at _ _ _) as [e|] eqn:E; [|done]. apply streq_eq in Hc as ->.
        rewrite totp_code_step in E.
        * rewrite <- E. f_equal. unfold TOTP_STEP_SEC. by rewrite Z.div_add by lia.
        * repeat destruct Hd as [<- | Hd]; unfold TOTP_WINDOW_STEPS, TOTP_STEP_SEC in *; lia || done.
    - intros (step & Hs & Hc). split; [by eapply totp_code_welformed|].
      exists (step - t / TOTP_STEP_SEC). split.
      + assert (Hd : step - t / TOTP_STEP_SEC = -1 \/ step - t / TOTP_STEP_SEC = 0 \/ step - t / TOTP_STEP_SEC = 1) by lia.
        destruct Hd as [-> | [-> | ->]]; unfold TOTP_WINDOW_STEPS; cbn; auto.
      + rewrite totp_code_step by (unfold TOTP_STEP_SEC in *; Z.div_mod_to_equations; lia).
        replace ((t + (step - t / TOTP_STEP_SEC) * TOTP_STEP_SEC) / TOTP_STEP_SEC) with step.
        * rewrite Hc. apply streq_refl.
        * unfold TOTP_STEP_SEC. rewrite Z.div_add by lia. lia. }
  split; [exact H|]. split.
  - intros shown Hsh Hd Hc. apply H. exists (shown / TOTP_STEP_SEC). rewrite <- totp_code_step by done.
    split; [|done]. unfold TOTP_STEP_SEC in *. Z.div_mod_to_equations; lia.
  - unfold totp_verify_at. intros [Hw _]%andb_true_iff. unfold code_is_welformed in Hw.
    apply andb_true_iff in Hw as [Hl Hw]. apply Z.eqb_eq in Hl. unfold zlen, TOTP_CODE_DIGITS in Hl.
    split; [lia|]. rewrite forallb_forall in Hw. apply Forall_forall. intros c Hc. by apply Hw, list_elem_of_In.
Qed.
End window.

Lemma totp_verify_window_witness : let hmac := fun (key msg : list Z) => Some (take 20 (msg ++ key ++ key)) in
  exists code, totp_code_at hmac (CS "GEZDGNBVGY3TQOJQGEZDGNBVGY3TQOJQ") 61 = Some code /\
    totp_verify_at hmac (CS "GEZDGNBVGY3TQOJQGEZDGNBVGY3TQOJQ") code 45 = true.
Proof.
  intros hmac. eexists. split; [vm_compute; reflexivity|].
  match goal with |- totp_verify_at _ _ ?code _ = _ =>
    destruct (totp_verify_window hmac (CS "GEZDGNBVGY3TQOJQGEZDGNBVGY3TQOJQ") code 45) as (_ & H & _) end.
  - unfold TOTP_STEP_SEC. lia.
  - apply (H 61); [lia|lia|vm_compute; reflexivity].
Defined.
