(* ===== verification/TrafficGuard.v ===== *)
(** * Token buckets of the traffic guard (src/src/utils/traffic_guard.c)

    One table of buckets, shared by the worker processes, keyed by a MAC of the client's identity.
    A check is one critical section: it picks the slot of the key, or the least recently used one
    of eight, refills it and takes a token.  HMAC-SHA256 is OpenSSL's and a parameter. *)
From S2P Require Import Prelude CStr Session.

Definition TRAFFIC_SLOTS : Z := 4096.
Definition TRAFFIC_PROBE : nat := 8.
Definition TOKEN_SCALE : Z := 1000.
Definition MAX_REFILL_NS : Z := 3600 * 1000000000.

Inductive traffic_class := TRAFFIC_READ | TRAFFIC_WRITE.
Definition class_number (c : traffic_class) : Z := match c with TRAFFIC_READ => 0 | TRAFFIC_WRITE => 1 end.

Record traffic_slot := TrafficSlot { ts_key : Z; ts_tokens : Z; ts_updated_ns : Z; ts_used_ns : Z }.

Record traffic_table := TrafficTable {
  tt_secret : list Z;
  tt_allowed : Z;
  tt_limited : Z;
  tt_slots : list traffic_slot;
}.

Definition empty_bucket : traffic_slot := TrafficSlot 0 0 0 0.

(** [env_uint] bounds what the environment may set. *)
Record traffic_config := TrafficConfig {
  g_rates : traffic_class -> Z;
  g_bursts : traffic_class -> Z;
}.

(** [strtoul] has parsed the whole value, or not. *)
Definition env_uint (parsed : option Z) (fallback maximum : Z) : Z :=
  match parsed with
  | None => fallback
  | Some v => if maximum <? v then fallback else v
  end.

Inductive traffic_action := TRAFFIC_ACTION_429 | TRAFFIC_ACTION_CACHED | TRAFFIC_ACTION_TARPIT.

Definition parse_action (action : option cstr) : traffic_action :=
  match action with
  | None => TRAFFIC_ACTION_429
  | Some a =>
      if streq a (CS "cached") then TRAFFIC_ACTION_CACHED
      else if streq a (CS "tarpit") then TRAFFIC_ACTION_TARPIT
      else TRAFFIC_ACTION_429
  end.

Definition bucket_at (i : nat) (l : list traffic_slot) : traffic_slot := nth i l empty_bucket.

(** The probe loop: the slot of the key or the first free one, else the oldest seen. *)
Fixpoint probe (slots : list traffic_slot) (key start : Z) (n : nat) (i : Z) (oldest : nat) : nat :=
  match n with
  | O => oldest
  | S n' =>
      let c := Z.to_nat ((start + i) `mod` TRAFFIC_SLOTS) in
      let candidate := bucket_at c slots in
      if ts_key candidate =? key then c
      else if ts_key candidate =? 0 then c
      else probe slots key start n' (i + 1)
             (if ts_used_ns candidate <? ts_used_ns (bucket_at oldest slots) then c else oldest)
  end.

Definition choose_slot (slots : list traffic_slot) (key : Z) : nat :=
  let start := key `mod` TRAFFIC_SLOTS in
  probe slots key start TRAFFIC_PROBE 0 (Z.to_nat start).

(** The bucket of the chosen slot, refilled. *)
Definition refill_bucket (rate burst key now_ns : Z) (slot : traffic_slot) : traffic_slot :=
  if negb (ts_key slot =? key) then TrafficSlot key (burst * TOKEN_SCALE) now_ns (ts_used_ns slot)
  else
    let elapsed := if ts_updated_ns slot <? now_ns then now_ns - ts_updated_ns slot else 0 in
    let elapsed := if MAX_REFILL_NS <? elapsed then MAX_REFILL_NS else elapsed in
    let capacity := burst * TOKEN_SCALE in
    let refill := i64 (u64 (elapsed * rate) / 1000000) in
    let tokens := i64 (ts_tokens slot + refill) in
    TrafficSlot (ts_key slot) (if capacity <? tokens then capacity else tokens) now_ns (ts_used_ns slot).

Definition retry_seconds (rate tokens : Z) : Z :=
  let missing := u64 (TOKEN_SCALE - (if 0 <? tokens then tokens else 0)) in
  let delay_ms := u64 (missing + rate - 1) / rate in
  let seconds := u32 (u64 (delay_ms + 999) / 1000) in
  if seconds =? 0 then 1 else seconds.

(** The critical section: the verdict, the Retry-After of a refusal and the table. *)
Definition check_locked (rate burst key now_ns : Z) (t : traffic_table) : bool * option Z * traffic_table :=
  let i := choose_slot (tt_slots t) key in
  let slot := refill_bucket rate burst key now_ns (bucket_at i (tt_slots t)) in
  let allowed := TOKEN_SCALE <=? ts_tokens slot in
  let tokens := if allowed then ts_tokens slot - TOKEN_SCALE else ts_tokens slot in
  let slots := <[i := TrafficSlot (ts_key slot) tokens (ts_updated_ns slot) now_ns]> (tt_slots t) in
  if allowed
  then (true, None, TrafficTable (tt_secret t) (u64 (tt_allowed t + 1)) (tt_limited t) slots)
  else (false, Some (retry_seconds rate (ts_tokens slot)),
        TrafficTable (tt_secret t) (tt_allowed t) (u64 (tt_limited t + 1)) slots).

Section guard.
Context (HMAC : list Z -> list Z -> list Z).

(** The first eight bytes of the two MACs' exclusive or. *)
Definition traffic_key (secret id : list Z) (cls : traffic_class) : Z :=
  let mac := zip_with Z.lxor (HMAC secret id) (HMAC secret [class_number cls]) in
  let key := le64 (take 8 mac) in
  if key =? 0 then 1 else key.

Definition traffic_guard_check_key (cfg : traffic_config) (id : option (list Z)) (cls : traffic_class) (now_ns : Z)
    (g_table : option traffic_table) : bool * option Z * option traffic_table :=
  match g_table, id with
  | Some t, Some (b :: r) =>
      if g_rates cfg cls =? 0 then (true, None, g_table)
      else
        let '(ok, retry, t) := check_locked (g_rates cfg cls) (g_bursts cfg cls)
                                 (traffic_key (tt_secret t) (b :: r) cls) now_ns t in
        (ok, retry, Some t)
  | _, _ => (true, None, g_table)
  end.

(** The peer address: four bytes, or sixteen; a v4-mapped one is cut to its last four bytes and
    an IPv6 one to its first eight. *)
Inductive peer := PeerV4 (addr : list Z) | PeerV6 (addr : list Z) (v4mapped : bool) | PeerOther.

Definition request_identity (peer_name : option peer) (cookie : option cstr) : option (list Z) :=
  let by_session :=
    match cookie with
    | Some (c :: s) => Some (CH "s" :: take 512 (c :: s))
    | _ => None
    end in
  match peer_name with
  | Some (PeerV4 a) => Some (CH "4" :: a)
  | Some (PeerV6 a true) => Some (CH "4" :: take 4 (drop 12 a))
  | Some (PeerV6 a false) => Some (CH "6" :: take 8 a)
  | _ => by_session
  end.

Definition traffic_guard_check (cfg : traffic_config) (safe_method : bool) (peer_name : option peer)
    (cookie : option cstr) (now_ns : Z) (g_table : option traffic_table) : bool * option Z * option traffic_table :=
  let cls := if safe_method then TRAFFIC_READ else TRAFFIC_WRITE in
  match g_table with
  | None => (true, None, g_table)
  | Some _ =>
      if g_rates cfg cls =? 0 then (true, None, g_table)
      else match request_identity peer_name cookie with
           | None => (true, None, g_table)
           | Some id => traffic_guard_check_key cfg (Some id) cls now_ns g_table
           end
  end.
End guard.

Definition traffic_guard_stats (t : traffic_table) : Z * Z * nat :=
  (tt_allowed t, tt_limited t, countb (fun s => negb (ts_key s =? 0)) (tt_slots t)).

(** ** Where the bucket of a key lies *)

Definition key_at (slots : list traffic_slot) (i : nat) : Z := ts_key (bucket_at i slots).
Definition pos (key : Z) (d : nat) : nat := Z.to_nat ((key `mod` TRAFFIC_SLOTS + Z.of_nat d) `mod` TRAFFIC_SLOTS).
Definition table_ok (slots : list traffic_slot) : Prop := length slots = Z.to_nat TRAFFIC_SLOTS.

Lemma pos_lt key d : (pos key d < Z.to_nat TRAFFIC_SLOTS)%nat.
Proof. unfold pos. pose proof (Z.mod_pos_bound (key `mod` TRAFFIC_SLOTS + Z.of_nat d) TRAFFIC_SLOTS). unfold TRAFFIC_SLOTS in *. lia. Qed.

Lemma pos_inj key d e : (d < TRAFFIC_PROBE)%nat -> (e < TRAFFIC_PROBE)%nat -> pos key d = pos key e -> d = e.
Proof.
  unfold TRAFFIC_PROBE, pos, TRAFFIC_SLOTS. intros Hd He H. set (s := key `mod` 4096) in *. clearbody s.
  apply Z2Nat.inj in H; [|apply Z.mod_pos_bound; lia..]. Z.div_mod_to_equations. lia.
Qed.

(** Every slot probed before the chosen one holds another key. *)
Lemma probe_spec slots key n i oldest : (i + n = TRAFFIC_PROBE)%nat ->
  (forall e, (e < i)%nat -> key_at slots (pos key e) <> key /\ key_at slots (pos key e) <> 0) ->
  (exists d, oldest = pos key d /\ (d < TRAFFIC_PROBE)%nat /\ (d < i \/ d = 0)%nat) ->
  exists d, probe slots key (key `mod` TRAFFIC_SLOTS) n (Z.of_nat i) oldest = pos key d /\ (d < TRAFFIC_PROBE)%nat /\
    (forall e, (e < d)%nat -> key_at slots (pos key e) <> key /\ key_at slots (pos key e) <> 0) /\
    ((exists d', (d' < TRAFFIC_PROBE)%nat /\ key_at slots (pos key d') = key) -> forall d',
       (d' < TRAFFIC_PROBE)%nat -> key_at slots (pos key d') = key ->
       (forall e, (e < d')%nat -> key_at slots (pos key e) <> 0 /\ key_at slots (pos key e) <> key) -> d = d').
Proof.
  revert i oldest. induction n as [|n IH]; intros i oldest Hn Hbefore (d & -> & Hd & Hdi).
  - exists d. cbn [probe]. split; [done|]. split; [done|]. split.
    + intros e He. apply Hbefore. lia.
    + intros _ d' Hd' Hk _. exfalso. by destruct (Hbefore d' ltac:(lia)) as [Hx _].
  - cbn [probe]. change (Z.to_nat ((key `mod` TRAFFIC_SLOTS + Z.of_nat i) `mod` TRAFFIC_SLOTS)) with (pos key i).
    assert (Hfound : forall P : Prop, key_at slots (pos key i) = key \/ key_at slots (pos key i) = 0 ->
      (forall e, (e < i)%nat -> key_at slots (pos key e) <> key /\ key_at slots (pos key e) <> 0) /\
      (P -> forall d', (d' < TRAFFIC_PROBE)%nat -> key_at slots (pos key d') = key ->
         (forall e, (e < d')%nat -> key_at slots (pos key e) <> 0 /\ key_at slots (pos key e) <> key) -> i = d')).
    { intros P Hi. split; [done|]. intros _ d' Hd' Hk' He'.
      destruct (Nat.lt_trichotomy i d') as [Hlt|[-> |Hlt]]; [|done|].
      - destruct (He' i Hlt). destruct Hi; done.
      - destruct (Hbefore d' Hlt). done. }
    destruct (Z.eqb_spec (key_at slots (pos key i)) key) as [Hk|Hk]; unfold key_at in Hk.
    { destruct (Z.eqb_spec (ts_key (bucket_at (pos key i) slots)) key); [|done].
      exists i. split; [done|]. split; [lia|]. apply Hfound. by left. }
    destruct (Z.eqb_spec (ts_key (bucket_at (pos key i) slots)) key); [done|].
    destruct (Z.eqb_spec (ts_key (bucket_at (pos key i) slots)) 0) as [H0|H0].
    { exists i. split; [done|]. split; [lia|]. apply Hfound. by right. }
    replace (Z.of_nat i + 1) with (Z.of_nat (S i)) by lia. apply IH; [lia| |].
    + intros e He. destruct (decide (e = i)) as [-> |]; [done|apply Hbefore; lia].
    + destruct (_ <? _); [exists i; repeat split; lia|exists d; repeat split; lia].
Qed.

(** The slots with the key: at most one, in the probe window, with no free slot before it. *)
Record located (key : Z) (slots : list traffic_slot) : Prop := {
  lo_unique : forall i j, key_at slots i = key -> key_at slots j = key -> i = j;
  lo_place : forall i, key_at slots i = key ->
    exists d, i = pos key d /\ (d < TRAFFIC_PROBE)%nat /\ forall e, (e < d)%nat -> key_at slots (pos key e) <> 0;
}.

Lemma choose_slot_spec key slots : exists d, choose_slot slots key = pos key d /\ (d < TRAFFIC_PROBE)%nat /\
  (forall e, (e < d)%nat -> key_at slots (pos key e) <> 0) /\
  (located key slots -> forall i, key_at slots i = key -> choose_slot slots key = i).
Proof.
  destruct (probe_spec slots key TRAFFIC_PROBE 0 (pos key 0)) as (d & Hp & Hd & Hb & Hf).
  - done.
  - intros e He. lia.
  - exists 0%nat. unfold TRAFFIC_PROBE. repeat split; lia.
  - assert (Hc : choose_slot slots key = pos key d).
    { unfold choose_slot. cbv zeta. rewrite <- Hp. f_equal. unfold pos. rewrite Z.add_0_r.
      by rewrite Z.mod_mod by (unfold TRAFFIC_SLOTS; lia). }
    exists d. split; [exact Hc|]. split; [done|]. split; [intros e He; by apply Hb|].
    intros [Hu Hl] i Hi. destruct (Hl i Hi) as (d' & -> & Hd' & He'). rewrite Hc. f_equal.
    apply Hf; [by exists d'|done|done|]. intros e He. split; [by apply He'|].
    intros Hk. apply (Hu _ _ Hi) in Hk. apply pos_inj in Hk; lia.
Qed.

Lemma key_at_insert slots c s i : (c < length slots)%nat ->
  key_at (<[c := s]> slots) i = if decide (i = c) then ts_key s else key_at slots i.
Proof.
  intros Hc. unfold key_at, bucket_at. rewrite !nth_lookup. case_decide as Hi.
  - subst i. by rewrite list_lookup_insert_eq.
  - by rewrite list_lookup_insert_ne by done.
Qed.

Lemma located_step k key' slots s : located k slots -> table_ok slots -> k <> 0 -> key' <> 0 -> ts_key s = key' ->
  located k (<[choose_slot slots key' := s]> slots).
Proof.
  intros Hloc Ht Hk Hk' Hs. destruct (choose_slot_spec key' slots) as (d & Hc & Hd & Hb & Hfind).
  assert (Hlen : (choose_slot slots key' < length slots)%nat) by (rewrite Hc, Ht; apply pos_lt).
  pose proof (key_at_insert slots (choose_slot slots key') s) as Hkey.
  assert (Hnz : forall e, key_at slots (pos k e) <> 0 ->
            key_at (<[choose_slot slots key' := s]> slots) (pos k e) <> 0).
  { intros e He. rewrite Hkey by done. case_decide; [by rewrite Hs|done]. }
  destruct (decide (key' = k)) as [-> | Hne].
  - assert (Honly : forall i, key_at (<[choose_slot slots k := s]> slots) i = k -> i = choose_slot slots k).
    { intros i. rewrite Hkey by done. case_decide; [done|]. intros Hi. by rewrite (Hfind Hloc i Hi). }
    split.
    + intros i j Hi Hj. by rewrite (Honly i Hi), (Honly j Hj).
    + intros i Hi. exists d. rewrite (Honly i Hi). split; [done|]. split; [done|].
      intros e He. by apply Hnz, Hb.
  - destruct Hloc as [Hu Hl].
    assert (Hold : forall i, key_at (<[choose_slot slots key' := s]> slots) i = k -> key_at slots i = k).
    { intros i. rewrite Hkey by done. case_decide; [congruence|done]. }
    split.
    + intros i j Hi Hj. apply Hu; by apply Hold.
    + intros i Hi. destruct (Hl i (Hold i Hi)) as (d' & -> & Hd' & He). exists d'. split; [done|]. split; [done|].
      intros e He'. by apply Hnz, He.
Qed.

(** ** A bucket over time *)

Section bound.
Context (rate burst : Z) (Hrate : 0 < rate <= 1000000) (Hburst : 0 <= burst <= 1000000).
#[local] Abbreviation capacity := (burst * TOKEN_SCALE).

Definition bucket_ok (u : Z) (s : traffic_slot) : Prop :=
  0 <= ts_tokens s <= capacity /\ 0 <= ts_updated_ns s <= u.

(** The refill never exceeds the rate times the time that has passed. *)
Lemma refill_bucket_known key now s : bucket_ok now s -> ts_key s = key ->
  let s' := refill_bucket rate burst key now s in
  ts_key s' = key /\ ts_updated_ns s' = now /\ 0 <= ts_tokens s' <= capacity /\
  1000000 * ts_tokens s' <= 1000000 * ts_tokens s + rate * (now - ts_updated_ns s) /\
  (forall e, 0 <= e <= MAX_REFILL_NS -> e <= now - ts_updated_ns s ->
     Z.min capacity (ts_tokens s + e * rate / 1000000) <= ts_tokens s').
Proof.
  intros [Htok Hupd] Hkey. unfold refill_bucket. rewrite Hkey, Z.eqb_refl. cbn [negb ts_key ts_updated_ns ts_tokens].
  assert (HM : MAX_REFILL_NS = 3600000000000) by reflexivity.
  set (e0 := if ts_updated_ns s <? now then now - ts_updated_ns s else 0).
  assert (He0 : e0 = now - ts_updated_ns s) by (subst e0; destruct (Z.ltb_spec (ts_updated_ns s) now); lia).
  set (el := if MAX_REFILL_NS <? e0 then MAX_REFILL_NS else e0).
  assert (Hel : 0 <= el <= MAX_REFILL_NS /\ el <= now - ts_updated_ns s /\ (el = MAX_REFILL_NS \/ el = now - ts_updated_ns s)).
  { subst el. destruct (Z.ltb_spec MAX_REFILL_NS e0); lia. }
  assert (Hprod : 0 <= el * rate <= 3600000000000 * 1000000) by nia.
  rewrite u64_small by lia. unfold TOKEN_SCALE in *.
  pose proof (Z.div_pos (el * rate) 1000000 ltac:(lia) ltac:(lia)) as Hd0.
  pose proof (Z.div_le_upper_bound (el * rate) 1000000 3600000000000 ltac:(lia) ltac:(lia)) as Hd1.
  rewrite (i64_small (el * rate / 1000000)) by lia. rewrite i64_small by lia.
  pose proof (Z.mul_div_le (el * rate) 1000000 ltac:(lia)) as Hd2.
  split; [done|]. split; [done|].
  assert (Hmin : (if burst * 1000 <? ts_tokens s + el * rate / 1000000 then burst * 1000
                  else ts_tokens s + el * rate / 1000000) = Z.min (burst * 1000) (ts_tokens s + el * rate / 1000000))
    by (destruct (Z.ltb_spec (burst * 1000) (ts_tokens s + el * rate / 1000000)); lia).
  rewrite Hmin. split; [lia|]. split; [nia|]. intros e He Hle.
  assert (e * rate / 1000000 <= el * rate / 1000000); [|lia]. apply Z.div_le_mono; nia.
Qed.

Lemma refill_bucket_fresh key now s : ts_key s <> key ->
  let s' := refill_bucket rate burst key now s in
  ts_key s' = key /\ ts_updated_ns s' = now /\ ts_tokens s' = capacity.
Proof.
  intros H. unfold refill_bucket. destruct (Z.eqb_spec (ts_key s) key); [done|]. by cbn.
Qed.
End bound.

(** ** Histories of checks *)

Record check := Check_ { ck_rate : Z; ck_burst : Z; ck_key : Z; ck_now : Z }.

Definition run_check (r : check) (t : traffic_table) : bool * option Z * traffic_table :=
  check_locked (ck_rate r) (ck_burst r) (ck_key r) (ck_now r) t.

(** How many checks of the key are allowed, and how often its bucket is started full. *)
Fixpoint run_checks (key : Z) (reqs : list check) (t : traffic_table) : Z * Z :=
  match reqs with
  | [] => (0, 0)
  | r :: rs =>
      let fresh := negb (key_at (tt_slots t) (choose_slot (tt_slots t) key) =? key) in
      let '(ok, _, t') := run_check r t in
      let '(granted, started) := run_checks key rs t' in
      if ck_key r =? key
      then (granted + (if ok : bool then 1 else 0), started + (if fresh then 1 else 0))
      else (granted, started)
  end.

Fixpoint times_from (u : Z) (reqs : list check) : Prop :=
  match reqs with [] => True | r :: rs => u <= ck_now r /\ times_from (ck_now r) rs end.

Definition last_time (u : Z) (reqs : list check) : Z := foldl (fun _ r => ck_now r) u reqs.

Lemma last_time_le u reqs : times_from u reqs -> u <= last_time u reqs.
Proof.
  revert u. induction reqs as [|r rs IH]; intros u H; [cbn; lia|]. destruct H as [Hu Hr].
  specialize (IH _ Hr). cbn. unfold last_time in IH. lia.
Qed.

Section history.
Context (rate burst key : Z) (Hrate : 0 < rate <= 1000000) (Hburst : 0 <= burst <= 1000000) (Hkey : key <> 0).

(** The requests of this key have its rate and burst; no key is zero. *)
Definition check_ok (r : check) : Prop :=
  ck_key r <> 0 /\ (ck_key r = key -> ck_rate r = rate /\ ck_burst r = burst).

Record history_ok (u : Z) (t : traffic_table) : Prop := {
  ho_table : table_ok (tt_slots t);
  ho_located : located key (tt_slots t);
  ho_bucket : forall i, key_at (tt_slots t) i = key -> bucket_ok burst u (bucket_at i (tt_slots t));
}.

Lemma bucket_at_insert slots c s i : (c < length slots)%nat ->
  bucket_at i (<[c := s]> slots) = if decide (i = c) then s else bucket_at i slots.
Proof.
  intros Hc. unfold bucket_at. rewrite !nth_lookup. case_decide as Hi.
  - subst i. by rewrite list_lookup_insert_eq.
  - by rewrite list_lookup_insert_ne by done.
Qed.

(** One critical section, as a change of the chosen slot. *)
Lemma check_locked_spec r t : let i := choose_slot (tt_slots t) (ck_key r) in
  let slot := refill_bucket (ck_rate r) (ck_burst r) (ck_key r) (ck_now r) (bucket_at i (tt_slots t)) in
  let '(ok, retry, t') := run_check r t in
  ok = (TOKEN_SCALE <=? ts_tokens slot) /\
  retry = (if ok then None else Some (retry_seconds (ck_rate r) (ts_tokens slot))) /\
  exists s, tt_slots t' = <[i := s]> (tt_slots t) /\ ts_key s = ts_key slot /\ ts_updated_ns s = ts_updated_ns slot /\
    ts_tokens s = ts_tokens slot - (if ok then TOKEN_SCALE else 0).
Proof.
  intros i slot. unfold run_check, check_locked. fold i. fold slot.
  destruct (TOKEN_SCALE <=? ts_tokens slot); cbn; (split; [done|]; split; [done|]; eexists; split; [done|];
    split; [done|]; split; [done|]; cbn; lia).
Qed.

Lemma refill_key r' b k now s : ts_key (refill_bucket r' b k now s) = k.
Proof. unfold refill_bucket. by destruct (Z.eqb_spec (ts_key s) k). Qed.

Lemma history_step u r t : history_ok u t -> u <= ck_now r -> 0 <= u -> check_ok r ->
  let '(ok, _, t') := run_check r t in
  history_ok (ck_now r) t' /\
  (ck_key r <> key -> forall i, key_at (tt_slots t') i = key ->
     key_at (tt_slots t) i = key /\ bucket_at i (tt_slots t') = bucket_at i (tt_slots t)) /\
  (ck_key r = key -> exists i, key_at (tt_slots t') i = key /\ ts_updated_ns (bucket_at i (tt_slots t')) = ck_now r /\
     i = choose_slot (tt_slots t) key /\
     let s := bucket_at i (tt_slots t) in
     let s' := refill_bucket rate burst key (ck_now r) s in
     ok = (TOKEN_SCALE <=? ts_tokens s') /\
     ts_tokens (bucket_at i (tt_slots t')) = ts_tokens s' - (if ok then TOKEN_SCALE else 0)).
Proof.
  intros [Ht Hl Hb] Hu Hu0 [Hnz Hown]. pose proof (check_locked_spec r t) as Hs.
  destruct (choose_slot_spec (ck_key r) (tt_slots t)) as (d & Hc & _).
  assert (Hlen : (choose_slot (tt_slots t) (ck_key r) < length (tt_slots t))%nat) by (rewrite Hc, Ht; apply pos_lt).
  destruct (run_check r t) as [[ok retry] t'] eqn:Er. destruct Hs as (Hok & _ & s & Hslots & Hsk & Hsu & Hst).
  rewrite refill_key in Hsk.
  assert (Hkeys := key_at_insert (tt_slots t) (choose_slot (tt_slots t) (ck_key r)) s).
  assert (Hbuckets := bucket_at_insert (tt_slots t) (choose_slot (tt_slots t) (ck_key r)) s).
  assert (Hnew : ck_key r = key -> 0 <= ts_tokens s <= burst * TOKEN_SCALE /\ ts_updated_ns s = ck_now r).
  { intros E. destruct (Hown E) as [Er' Eb]. rewrite Er', Eb, E in *.
    assert (Hslot : 0 <= ts_tokens (refill_bucket rate burst key (ck_now r)
              (bucket_at (choose_slot (tt_slots t) key) (tt_slots t))) <= burst * TOKEN_SCALE /\
            ts_updated_ns (refill_bucket rate burst key (ck_now r)
              (bucket_at (choose_slot (tt_slots t) key) (tt_slots t))) = ck_now r).
    { destruct (Z.eq_dec (ts_key (bucket_at (choose_slot (tt_slots t) key) (tt_slots t))) key) as [Ek|Ek].
      - destruct (Hb _ Ek) as [Hb1 Hb2].
        destruct (refill_bucket_known rate burst Hrate Hburst key (ck_now r) _
          (conj Hb1 (conj (proj1 Hb2) (Z.le_trans _ _ _ (proj2 Hb2) Hu))) Ek) as (_ & H2 & H3 & _). done.
      - destruct (refill_bucket_fresh rate burst key (ck_now r) _ Ek) as (_ & H2 & H3).
        rewrite H2, H3. unfold TOKEN_SCALE. lia. }
    rewrite Hst, Hsu. destruct Hslot as [Hslot ->]. split; [|done].
    destruct ok; cbv iota; [|lia]. symmetry in Hok. apply Z.leb_le in Hok. unfold TOKEN_SCALE in *. lia. }
  split; [|split].
  - split; rewrite Hslots.
    + unfold table_ok. by rewrite length_insert.
    + by apply located_step.
    + intros i Hi. rewrite Hkeys in Hi by done. rewrite Hbuckets by done. case_decide.
      * destruct Hnew as [H1 H2]; [congruence|]. split; [done|]. rewrite H2. lia.
      * destruct (Hb i Hi). split; [done|lia].
  - intros Hne i Hi. rewrite Hslots in *. rewrite Hkeys in Hi by done. rewrite Hbuckets by done.
    case_decide; [congruence|done].
  - intros E. destruct (Hown E) as [Er' Eb]. exists (choose_slot (tt_slots t) key).
    rewrite Hslots, Hkeys, Hbuckets by done. rewrite Er', Eb, E in *. rewrite !decide_True by done.
    split; [done|]. split; [by apply Hnew|]. split; [done|]. by split.
Qed.

Lemma allowance reqs u t : history_ok u t -> 0 <= u -> times_from u reqs -> (forall r, In r reqs -> check_ok r) ->
  let '(granted, started) := run_checks key reqs t in
  let bound := 1000000 * (started * burst * TOKEN_SCALE) in
  (forall i, key_at (tt_slots t) i = key ->
     1000000 * (granted * TOKEN_SCALE) <= bound + 1000000 * ts_tokens (bucket_at i (tt_slots t))
       + rate * (last_time u reqs - ts_updated_ns (bucket_at i (tt_slots t)))) /\
  ((forall i, key_at (tt_slots t) i <> key) -> 1000000 * (granted * TOKEN_SCALE) <= bound + rate * (last_time u reqs - u)).
Proof.
  revert u t. induction reqs as [|r rs IH]; intros u t Ht Hu0 Htimes Hreqs.
  { cbn. split; [|lia]. intros i Hi. destruct Ht as [_ _ Hb]. destruct (Hb i Hi). nia. }
  destruct Htimes as [Hu Htimes]. cbn [run_checks].
  pose proof (history_step u r t Ht Hu Hu0 (Hreqs r (or_introl eq_refl))) as Hstep.
  destruct (run_check r t) as [[ok retry] t'] eqn:Er. destruct Hstep as (Ht' & Hother & Hown).
  pose proof (IH (ck_now r) t' Ht' ltac:(lia) Htimes (fun q Hq => Hreqs q (or_intror Hq))) as H.
  destruct (run_checks key rs t') as [granted started]. cbv zeta in H. destruct H as [Hin Hout].
  change (last_time u (r :: rs)) with (last_time (ck_now r) rs).
  pose proof (last_time_le _ _ Htimes) as Hlast. destruct Ht as [_ Hloc Hb].
  destruct (Z.eqb_spec (ck_key r) key) as [E|E].
  - destruct (Hown E) as (i & Hi & Hupd & Hci & Hok & Htok). cbv zeta in Hok, Htok.
    specialize (Hin i Hi). rewrite Hupd, Htok in Hin. cbv zeta.
    set (s := bucket_at i (tt_slots t)) in *. rewrite <- Hci. fold (key_at (tt_slots t) i).
    destruct (Z.eqb_spec (key_at (tt_slots t) i) key) as [Ek|Ek]; cbn [negb].
    + destruct (Hb i Ek) as [Hb1 Hb2].
      destruct (refill_bucket_known rate burst Hrate Hburst key (ck_now r) s) as (_ & _ & _ & Hre & _);
        [split; [done|]; fold s in Hb2; lia|done|].
      fold s in Hb1, Hb2. split; [|intros Hno; by destruct (Hno i)].
      intros i' Hi'. rewrite <- (lo_unique key _ Hloc i i' Ek Hi'). fold s.
      unfold TOKEN_SCALE in *. destruct ok; nia.
    + destruct (refill_bucket_fresh rate burst key (ck_now r) s Ek) as (_ & _ & Hre).
      destruct (choose_slot_spec key (tt_slots t)) as (_ & _ & _ & _ & Hfind).
      split; [intros i' Hi'; specialize (Hfind Hloc i' Hi'); congruence|].
      intros _. rewrite Hre in Hin. unfold TOKEN_SCALE in *. destruct ok; nia.
  - cbv zeta. specialize (Hother E). split.
    + intros i Hi. destruct (Hb i Hi) as [Hb1 Hb2].
      destruct (Z.eq_dec (key_at (tt_slots t') i) key) as [Ek|Ek].
      * destruct (Hother i Ek) as [_ Hsame]. specialize (Hin i Ek). by rewrite Hsame in Hin.
      * assert (Hno : forall j, key_at (tt_slots t') j <> key).
        { intros j Hj. destruct (Hother j Hj) as [Hj' _]. apply Ek. by rewrite (lo_unique key _ Hloc i j). }
        specialize (Hout Hno). nia.
    + intros Hno. assert (Hno' : forall j, key_at (tt_slots t') j <> key).
      { intros j Hj. by destruct (Hother j Hj) as [Hj' _]; apply (Hno j). }
      specialize (Hout Hno'). nia.
Qed.

Lemma empty_no_key n i : key_at (replicate n empty_bucket) i <> key.
Proof.
  unfold key_at, bucket_at. rewrite nth_lookup. intros Hi.
  destruct (replicate n empty_bucket !! i) as [x|] eqn:E; [apply lookup_replicate in E as [-> _]|]; cbn in Hi; congruence.
Qed.

Lemma history_start n u secret a l : n = Z.to_nat TRAFFIC_SLOTS ->
  history_ok u (TrafficTable secret a l (replicate n empty_bucket)).
Proof.
  intros Hn. split; cbn [tt_slots].
  - unfold table_ok. by rewrite length_replicate.
  - split; intros i; [intros j Hi|intros Hi]; by destruct (empty_no_key n i).
  - intros i Hi. by destruct (empty_no_key n i).
Qed.

(** A refused check found less than one token. *)
Lemma retry_seconds_spec tokens : 0 <= tokens < TOKEN_SCALE ->
  retry_seconds rate tokens = 1 /\ TOKEN_SCALE - tokens <= 1000000000 * rate / 1000000.
Proof.
  intros Ht. unfold retry_seconds, TOKEN_SCALE in *.
  assert (E : 1000 - (if 0 <? tokens then tokens else 0) = 1000 - tokens) by (destruct (Z.ltb_spec 0 tokens); lia).
  rewrite E, (u64_small (1000 - tokens)), (u64_small (1000 - tokens + rate - 1)) by lia.
  assert (Hd : 1 <= (1000 - tokens + rate - 1) / rate <= 1000).
  { split; [apply Z.div_le_lower_bound; lia|]. apply Z.div_le_upper_bound; nia. }
  rewrite u64_small by lia.
  assert (Hq : ((1000 - tokens + rate - 1) / rate + 999) / 1000 = 1) by (Z.div_mod_to_equations; lia).
  rewrite Hq. split; [by vm_compute|].
  apply Z.div_le_lower_bound; lia.
Qed.
End history.

(** ** The requests of the clients *)

Fixpoint run_table (reqs : list check) (t : traffic_table) : traffic_table :=
  match reqs with [] => t | r :: rs => run_table rs (run_check r t).2 end.

Lemma history_run rate burst key : 0 < rate <= 1000000 -> 0 <= burst <= 1000000 -> key <> 0 ->
  forall reqs u t, history_ok burst key u t -> 0 <= u -> times_from u reqs ->
  (forall r, In r reqs -> check_ok rate burst key r) -> history_ok burst key (last_time u reqs) (run_table reqs t).
Proof.
  intros Hr Hb Hk. induction reqs as [|r rs IH]; intros u t Ht Hu0 Htimes Hreqs; [done|].
  destruct Htimes as [Hu Htimes]. cbn [run_table]. change (last_time u (r :: rs)) with (last_time (ck_now r) rs).
  pose proof (history_step rate burst key Hr Hb Hk u r t Ht Hu Hu0 (Hreqs r (or_introl eq_refl))) as Hstep.
  destruct (run_check r t) as [[ok retry] t']. destruct Hstep as [Ht' _].
  apply IH; [done|lia|done|]. intros q Hq. apply Hreqs. by right.
Qed.

(** A client that waits for the announced time is served. *)
Lemma retry_honest rate burst key u t r r2 retry t' : 0 < rate <= 1000000 -> 0 < burst <= 1000000 -> key <> 0 ->
  history_ok burst key u t -> 0 <= u <= ck_now r -> check_ok rate burst key r -> check_ok rate burst key r2 ->
  ck_key r = key -> ck_key r2 = key -> run_check r t = (false, Some retry, t') ->
  ck_now r + 1000000000 * retry <= ck_now r2 -> (run_check r2 t').1.1 = true.
Proof.
  intros Hr Hb Hk Ht Hu Hr1 Hr2 E1 E2 Hrun Hwait.
  pose proof (history_step rate burst key Hr ltac:(lia) Hk u r t Ht ltac:(lia) ltac:(lia) Hr1) as Hstep.
  pose proof (check_locked_spec r t) as Hspec. rewrite Hrun in *.
  destruct Hspec as (_ & Hretry & _). destruct Hstep as (Ht' & _ & Hown).
  destruct (Hown E1) as (i & Hi & Hupd & Hci & Hok & Htok). cbv zeta in Hok, Htok.
  destruct Ht' as [Htab Hloc Hbuck]. pose proof (Hbuck i Hi) as [Hb1 Hb2].
  destruct Hr1 as [_ Hr1], Hr2 as [Hnz2 Hr2]. destruct (Hr1 E1) as [Er Eb], (Hr2 E2) as [Er2 Eb2].
  rewrite Er, Eb, E1, <- Hci in Hretry. injection Hretry as Hretry.
  set (s := refill_bucket rate burst key (ck_now r) (bucket_at i (tt_slots t))) in *.
  symmetry in Hok. apply Z.leb_gt in Hok. rewrite Z.sub_0_r in Htok.
  destruct (retry_seconds_spec rate Hr (ts_tokens s)) as [Hone Hmiss]; [lia|]. rewrite Hone in Hretry. subst retry.
  pose proof (check_locked_spec r2 t') as Hspec2. destruct (run_check r2 t') as [[ok2 retry2] t2].
  destruct Hspec2 as (Hok2 & _). cbn [fst]. rewrite Hok2, E2, Er2, Eb2.
  destruct (choose_slot_spec key (tt_slots t')) as (_ & _ & _ & _ & Hfind). rewrite (Hfind Hloc i Hi).
  destruct (refill_bucket_known rate burst Hr ltac:(lia) key (ck_now r2) (bucket_at i (tt_slots t')))
    as (_ & _ & _ & _ & Hre); [split; [done|]; lia|done|].
  specialize (Hre 1000000000). rewrite Hupd, Htok in Hre.
  apply Z.leb_le. etransitivity; [|apply Hre; unfold MAX_REFILL_NS; lia].
  unfold TOKEN_SCALE in *. lia.
Qed.

Lemma never_without_burst rate key : 0 < rate <= 1000000 -> key <> 0 -> forall reqs u t,
  history_ok 0 key u t -> 0 <= u -> times_from u reqs -> (forall r, In r reqs -> check_ok rate 0 key r) ->
  (run_checks key reqs t).1 = 0.
Proof.
  intros Hr Hk. induction reqs as [|r rs IH]; intros u t Ht Hu0 Htimes Hreqs; [done|].
  destruct Htimes as [Hu Htimes]. cbn [run_checks].
  pose proof (history_step rate 0 key Hr ltac:(lia) Hk u r t Ht Hu Hu0 (Hreqs r (or_introl eq_refl))) as Hstep.
  destruct (run_check r t) as [[ok retry] t']. destruct Hstep as (Ht' & _ & Hown).
  specialize (IH (ck_now r) t' Ht' ltac:(lia) Htimes (fun q Hq => Hreqs q (or_intror Hq))).
  destruct (run_checks key rs t') as [granted started]. cbn [fst] in IH. subst granted.
  destruct (Z.eqb_spec (ck_key r) key) as [E|E]; [|done]. cbn [fst].
  destruct (Hown E) as (i & Hi & _ & _ & _ & Htok). destruct Ht' as [_ _ Hb].
  destruct (Hb i Hi) as [Hb1 _]. cbv zeta in Htok. destruct ok; [|done]. exfalso.
  destruct Ht as [_ _ Hb']. assert (Hle : ts_tokens (refill_bucket rate 0 key (ck_now r) (bucket_at i (tt_slots t))) <= 0).
  { destruct (Z.eq_dec (ts_key (bucket_at i (tt_slots t))) key) as [Ek|Ek].
    - destruct (Hb' i Ek) as [? ?]. destruct (refill_bucket_known rate 0 Hr ltac:(lia) key (ck_now r) (bucket_at i (tt_slots t)))
        as (_ & _ & ? & _); [split; [done|]; lia|done|]. lia.
    - destruct (refill_bucket_fresh rate 0 key (ck_now r) _ Ek) as (_ & _ & ->). lia. }
  unfold TOKEN_SCALE in *. lia.
Qed.

Record client_request := ClientRequest { rq_id : list Z; rq_class : traffic_class; rq_now : Z }.

Section clients.
Context (HMAC : list Z -> list Z -> list Z) (cfg : traffic_config) (secret : list Z).

Definition to_check (r : client_request) : check :=
  Check_ (g_rates cfg (rq_class r)) (g_bursts cfg (rq_class r)) (traffic_key HMAC secret (rq_id r) (rq_class r)) (rq_now r).

Lemma traffic_key_nonzero id cls : traffic_key HMAC secret id cls <> 0.
Proof. unfold traffic_key. destruct (Z.eqb_spec (le64 (take 8 (zip_with Z.lxor (HMAC secret id) (HMAC secret [class_number cls])))) 0); [lia|done]. Qed.

#[local] Opaque check_locked traffic_key.

Lemma check_key_run r t : tt_secret t = secret -> rq_id r <> [] -> g_rates cfg (rq_class r) <> 0 ->
  traffic_guard_check_key HMAC cfg (Some (rq_id r)) (rq_class r) (rq_now r) (Some t) =
  let '(ok, retry, t') := run_check (to_check r) t in (ok, retry, Some t').
Proof.
  intros Hs Hid Hr. unfold traffic_guard_check_key. rewrite Hs. destruct (rq_id r) as [|b l] eqn:E; [done|].
  destruct (Z.eqb_spec (g_rates cfg (rq_class r)) 0); [done|].
  unfold run_check, to_check. cbn [ck_rate ck_burst ck_key ck_now]. by rewrite E.
Qed.

(** The read key of one of the identities is the write key of none, and the configuration is
    within its limits. *)
Record guard_ok (ids : list (list Z)) : Prop := {
  go_keys : forall id id', In id ids -> In id' ids ->
    traffic_key HMAC secret id TRAFFIC_READ <> traffic_key HMAC secret id' TRAFFIC_WRITE;
  go_rates : forall c, 0 < g_rates cfg c <= 1000000;
  go_bursts : forall c, 0 <= g_bursts cfg c <= 1000000;
}.

Lemma to_check_ok ids r0 r : guard_ok ids -> In (rq_id r0) ids -> In (rq_id r) ids ->
  check_ok (g_rates cfg (rq_class r0)) (g_bursts cfg (rq_class r0)) (traffic_key HMAC secret (rq_id r0) (rq_class r0)) (to_check r).
Proof.
  intros [Hk _ _] H0 H1. split; [apply traffic_key_nonzero|]. unfold to_check. cbn. intros E.
  destruct (rq_class r0), (rq_class r); try done; [symmetry in E|]; by apply Hk in E.
Qed.

(** C39: whatever the other clients do, a client of a class gets at most its burst, once per start of
    its bucket, plus its rate times the time that has passed; when it is refused, waiting for
    the announced Retry-After is enough to be served (with a burst of at least one); and with a
    burst of zero, which the configuration accepts, no request of the class is ever served. *)
Theorem traffic_guard_bounds r0 reqs u a l : guard_ok (rq_id r0 :: map rq_id reqs) -> 0 <= u -> times_from u (map to_check reqs) ->
  let key := traffic_key HMAC secret (rq_id r0) (rq_class r0) in
  let rate := g_rates cfg (rq_class r0) in
  let burst := g_bursts cfg (rq_class r0) in
  let start := TrafficTable secret a l (replicate (Z.to_nat TRAFFIC_SLOTS) empty_bucket) in
  let t := run_table (map to_check reqs) start in
  (let '(granted, started) := run_checks key (map to_check reqs) start in
   1000000000 * granted <= 1000000000 * (started * burst) + rate * (last_time u (map to_check reqs) - u) /\
   (burst = 0 -> granted = 0)) /\
  (forall now now' retry t', last_time u (map to_check reqs) <= now -> 0 < burst ->
     run_check (to_check (ClientRequest (rq_id r0) (rq_class r0) now)) t = (false, Some retry, t') ->
     now + 1000000000 * retry <= now' ->
     (run_check (to_check (ClientRequest (rq_id r0) (rq_class r0) now')) t').1.1 = true).
Proof.
  intros Hok Hu Htimes key rate burst start t.
  pose proof (go_rates _ Hok (rq_class r0)) as Hr. pose proof (go_bursts _ Hok (rq_class r0)) as Hb.
  assert (Hkey : key <> 0) by apply traffic_key_nonzero.
  assert (Hreqs : forall r, In r (map to_check reqs) -> check_ok rate burst key r).
  { intros r Hin. apply in_map_iff in Hin as (q & <- & Hq). apply (to_check_ok _ r0 q Hok); [by left|].
    right. by apply in_map. }
  assert (Hno : forall i, key_at (tt_slots start) i <> key) by (intros i; by apply empty_no_key).
  assert (Hstart : history_ok burst key u start) by (by apply history_start). clearbody start.
  split.
  - pose proof (allowance rate burst key Hr Hb Hkey _ u start Hstart Hu Htimes Hreqs) as Ha.
    assert (Hz : burst = 0 -> (run_checks key (map to_check reqs) start).1 = 0).
    { intros E. rewrite E in *. by apply (never_without_burst rate key Hr Hkey _ u). }
    destruct (run_checks key (map to_check reqs) start) as [granted started]. cbv zeta in Ha.
    destruct Ha as [_ Ha]. split; [|done]. unfold TOKEN_SCALE in Ha.
    specialize (Ha Hno). lia.
  - intros now now' retry t' Hnow Hpos Hrun Hwait.
    pose proof (last_time_le _ _ Htimes).
    apply (retry_honest rate burst key (last_time u (map to_check reqs)) t
      (to_check (ClientRequest (rq_id r0) (rq_class r0) now)) _ retry); try done; try (split; [exact Hpos|apply Hb]).
    + by apply (history_run rate burst key Hr Hb Hkey).
    + cbn. lia.
Qed.
End clients.

(** ** Two clients that read, one of them twice *)

Lemma traffic_guard_bounds_witness :
  let hmac := fun (_ msg : list Z) => match msg with [0] => [7; 0; 0; 0; 0; 0; 0; 0] | [1] => [0; 7; 0; 0; 0; 0; 0; 0]
                                      | _ => [1; 2; 3; 4; 5; 6; 7; 8] end in
  let cfg := TrafficConfig (fun _ => 2) (fun _ => 1) in
  let r0 := ClientRequest [52; 1] TRAFFIC_READ 10 in
  let start := TrafficTable [] 0 0 (replicate (Z.to_nat TRAFFIC_SLOTS) empty_bucket) in
  let '(granted, started) := run_checks (traffic_key hmac [] [52; 1] TRAFFIC_READ)
      (map (to_check hmac cfg []) [r0; ClientRequest [52; 1] TRAFFIC_READ 20]) start in
  1000000000 * granted <= 1000000000 * (started * 1) + 2 * (20 - 0) /\ (1 = 0 -> granted = 0).
Proof.
  intros hmac cfg r0.
  refine (proj1 (traffic_guard_bounds hmac cfg [] r0 [r0; ClientRequest [52; 1] TRAFFIC_READ 20] 0 0 0 _ _ _)).
  - split; [|intros c; cbn; lia|intros c; cbn; lia].
    intros id id' [<- |[<- |[<- |[]]]] [<- |[<- |[<- |[]]]]; vm_compute; congruence.
  - lia.
  - cbn. lia.
Defined.
