(* ===== verification/Aho.v ===== *)
(** * The matcher of the moderation filter (src/src/utils/aho_moderation.c)

    An Aho-Corasick automaton over code points: [aho_moderation_build] puts the rules, one per
    line, in a trie and computes the failure links breadth first; [aho_moderation_search] runs a
    text through it and counts the matches up to a limit.  A state is its index in the array
    [states] and [SIZE_MAX] is [None].  The growth of the arrays by [realloc] and its failure are
    not modelled; the bounds on rules, states and the queue are. *)
From S2P Require Import Prelude CStr.

Definition AHO_MODERATION_MAX_RULES : nat := 256.
Definition AHO_MODERATION_MAX_STATES : nat := Z.to_nat 2048.
Definition AHO_MODERATION_RULES_MAX_BYTES : Z := 16384.

Record aho_state := AhoState {
  st_edges : list (Z * nat);
  st_failure : nat;
  st_outputs : list nat;
}.

Record aho_moderation := AhoModeration { states : list aho_state; case_fold : bool }.

Definition blank_state : aho_state := AhoState [] 0 [].
Definition state_at (a : aho_moderation) (s : nat) : aho_state := nth s (states a) blank_state.
Definition set_state (s : nat) (x : aho_state) (a : aho_moderation) : aho_moderation :=
  AhoModeration (<[s := x]> (states a)) (case_fold a).

(** ** Code points *)

Definition fold_codepoint (cp : Z) (enabled : bool) : Z :=
  if negb enabled then cp
  else if (CH "A" <=? cp) && (cp <=? CH "Z") then cp + 32
  else if ((192 <=? cp) && (cp <=? 214)) || ((216 <=? cp) && (cp <=? 222)) then cp + 32
  else if ((913 <=? cp) && (cp <=? 929)) || ((931 <=? cp) && (cp <=? 939)) then cp + 32
  else if (1024 <=? cp) && (cp <=? 1039) then cp + 80
  else if (1040 <=? cp) && (cp <=? 1071) then cp + 32
  else cp.

Definition byte_at (s : list Z) (i : nat) : Z := nth i s 0.
Definition cont_byte (b : Z) : bool := Z.land b 192 =? 128.

(** The code point at [offset] and the offset after it; [len] is the length of [s]. *)
Definition utf8_next (s : list Z) (offset : nat) : Z * nat :=
  let len := length s in
  let a := byte_at s offset in
  let i := S offset in
  let b0 := byte_at s i in
  let b1 := byte_at s (i + 1) in
  let b2 := byte_at s (i + 2) in
  if a <? 128 then (a, i)
  else if (194 <=? a) && (a <=? 223) && (i <? len)%nat && cont_byte b0
  then (Z.lor (Z.shiftl (Z.land a 31) 6) (Z.land b0 63), (i + 1)%nat)
  else if (224 <=? a) && (a <=? 239) && (i + 1 <? len)%nat && cont_byte b0 && cont_byte b1 &&
          negb ((a =? 224) && (b0 <? 160)) && negb ((a =? 237) && (160 <=? b0))
  then (Z.lor (Z.lor (Z.shiftl (Z.land a 15) 12) (Z.shiftl (Z.land b0 63) 6)) (Z.land b1 63), (i + 2)%nat)
  else if (240 <=? a) && (a <=? 244) && (i + 2 <? len)%nat && cont_byte b0 && cont_byte b1 && cont_byte b2 &&
          negb ((a =? 240) && (b0 <? 144)) && negb ((a =? 244) && (144 <=? b0))
  then (Z.lor (Z.lor (Z.lor (Z.shiftl (Z.land a 7) 18) (Z.shiftl (Z.land b0 63) 12)) (Z.shiftl (Z.land b1 63) 6))
          (Z.land b2 63), (i + 3)%nat)
  else (1114112 + a, i).

(** The loop of [valid_utf8]; the fuel is the number of bytes left at most. *)
Fixpoint valid_from (fuel : nat) (s : list Z) (offset : nat) : bool :=
  match fuel with
  | O => true
  | S fuel' =>
      if (offset <? length s)%nat
      then let '(cp, offset') := utf8_next s offset in
           if 1114112 <=? cp then false else valid_from fuel' s offset'
      else true
  end.
Definition valid_utf8 (s : list Z) : bool := valid_from (length s) s 0.

(** ** The trie *)

(** The first edge with the code point. *)
Definition transition (a : aho_moderation) (state : nat) (cp : Z) : option nat :=
  snd <$> List.find (fun e => e.1 =? cp) (st_edges (state_at a state)).

Definition add_edge (state : nat) (cp : Z) (target : nat) (a : aho_moderation) : aho_moderation :=
  let s := state_at a state in
  set_state state (AhoState (st_edges s ++ [(cp, target)]) (st_failure s) (st_outputs s)) a.

Definition add_output (state rule : nat) (a : aho_moderation) : aho_moderation :=
  let s := state_at a state in
  set_state state (AhoState (st_edges s) (st_failure s) (st_outputs s ++ [rule])) a.

Definition set_failure (state f : nat) (a : aho_moderation) : aho_moderation :=
  let s := state_at a state in
  set_state state (AhoState (st_edges s) f (st_outputs s)) a.

Definition new_state (a : aho_moderation) : aho_moderation :=
  AhoModeration (states a ++ [blank_state]) (case_fold a).

(** One code point of a rule: follow its edge, or make a state and an edge to it. *)
Definition insert_codepoint (a : aho_moderation) (state : nat) (cp : Z) : option (aho_moderation * nat) :=
  match transition a state cp with
  | Some next => Some (a, next)
  | None =>
      if (AHO_MODERATION_MAX_STATES <=? length (states a))%nat then None
      else let next := length (states a) in Some (add_edge state cp next (new_state a), next)
  end.

Fixpoint insert_from (fuel : nat) (line : list Z) (offset state : nat) (a : aho_moderation) : option (aho_moderation * nat) :=
  match fuel with
  | O => Some (a, state)
  | S fuel' =>
      if (offset <? length line)%nat
      then let '(cp, offset') := utf8_next line offset in
           match insert_codepoint a state (fold_codepoint cp (case_fold a)) with
           | None => None
           | Some (a', next) => insert_from fuel' line offset' next a'
           end
      else Some (a, state)
  end.

(** A rule: not the 257th, valid UTF-8, and with room for its states. *)
Definition insert_rule (line : list Z) (rule_count : nat) (a : aho_moderation) : option aho_moderation :=
  if (AHO_MODERATION_MAX_RULES <? rule_count)%nat || negb (valid_utf8 line) then None
  else match insert_from (length line) line 0 0 a with
       | None => None
       | Some (a', state) => Some (add_output state (rule_count - 1) a')
       end.

(** The line without its carriage return. *)
Definition strip_cr (line : list Z) : list Z :=
  match last line with
  | Some c => if c =? 13 then take (length line - 1) line else line
  | None => line
  end.

Fixpoint insert_lines (fuel : nat) (line : cstr) (rule_count : nat) (a : aho_moderation) : option aho_moderation :=
  match fuel with
  | O => Some a
  | S fuel' =>
      match line with
      | [] => Some a
      | _ =>
          let '(text, rest) := match strchr line 10 with
                               | Some (pre, r) => (pre, Some (tail r))
                               | None => (line, None)
                               end in
          let rule := strip_cr text in
          let '(count, next) := match rule with
                                | [] => (rule_count, Some a)
                                | _ => (S rule_count, insert_rule rule (S rule_count) a)
                                end in
          match next, rest with
          | None, _ => None
          | Some a', None => Some a'
          | Some a', Some line' => insert_lines fuel' line' count a'
          end
      end
  end.

(** ** The failure links *)

(** [while (failure && transition(a, failure, cp) == SIZE_MAX) failure = states[failure].failure] *)
Fixpoint fall (fuel : nat) (a : aho_moderation) (f : nat) (cp : Z) : nat :=
  match fuel with
  | O => f
  | S fuel' =>
      if (f =? 0)%nat then f
      else match transition a f cp with
           | Some _ => f
           | None => fall fuel' a (st_failure (state_at a f)) cp
           end
  end.

(** The state after [cp]: from the fallback, or the root. *)
Definition fall_next (a : aho_moderation) (f : nat) (cp : Z) : nat :=
  default 0%nat (transition a (fall (length (states a)) a f cp) cp).

(** One edge of the state at the head of the queue: the failure link of the child, and the outputs
    of the state it leads to, which is another one. *)
Definition link_child (state : nat) (e : Z * nat) (a : aho_moderation) : aho_moderation :=
  let '(cp, child) := e in
  let failure := fall_next a (st_failure (state_at a state)) cp in
  let a := set_failure child failure a in
  foldl (fun a rule => add_output child rule a) a (st_outputs (state_at a failure)).

Fixpoint link_children (state : nat) (es : list (Z * nat)) (queue : list nat) (a : aho_moderation) : list nat * aho_moderation :=
  match es with
  | [] => (queue, a)
  | e :: es' => link_children state es' (queue ++ [snd e]) (link_child state e a)
  end.

Fixpoint link_queue (fuel head : nat) (queue : list nat) (a : aho_moderation) : list nat * aho_moderation :=
  match fuel with
  | O => (queue, a)
  | S fuel' =>
      match queue !! head with
      | None => (queue, a)
      | Some state =>
          let '(queue', a') := link_children state (st_edges (state_at a state)) queue a in
          link_queue fuel' (S head) queue' a'
      end
  end.

Definition link_all (a : aho_moderation) : list nat * aho_moderation :=
  link_queue (length (states a)) 0 (map snd (st_edges (state_at a 0))) a.

Definition aho_moderation_build (rules : option cstr) (fold : bool) : option aho_moderation :=
  match rules with
  | None => None
  | Some rules =>
      if AHO_MODERATION_RULES_MAX_BYTES <? zlen rules then None
      else match insert_lines (S (length rules)) rules 0 (AhoModeration [blank_state] fold) with
           | None => None
           | Some a => Some (snd (link_all a))
           end
  end.

(** ** The search *)

Record aho_match_result := AhoMatchResult { match_count : nat; limit_reached : bool }.

(** The loop over the outputs of a state. *)
Fixpoint count_outputs (outs : list nat) (count limit : nat) : nat * bool :=
  match outs with
  | [] => (count, false)
  | _ :: outs' =>
      let count := S count in
      if (limit <=? count)%nat then (count, true) else count_outputs outs' count limit
  end.

Fixpoint search_from (fuel : nat) (a : aho_moderation) (text : list Z) (offset state count limit : nat) : aho_match_result :=
  match fuel with
  | O => AhoMatchResult count false
  | S fuel' =>
      if (offset <? length text)%nat
      then let '(cp, offset') := utf8_next text offset in
           let state' := fall_next a state (fold_codepoint cp (case_fold a)) in
           let '(count', reached) := count_outputs (st_outputs (state_at a state')) count limit in
           if reached : bool then AhoMatchResult count' true
           else search_from fuel' a text offset' state' count' limit
      else AhoMatchResult count false
  end.

Definition aho_moderation_search (a : option aho_moderation) (text : option cstr) (match_limit : nat) : aho_match_result :=
  match a, text with
  | Some a, Some text =>
      if (match_limit =? 0)%nat then AhoMatchResult 0 false
      else search_from (length text) a text 0 0 0 match_limit
  | _, _ => AhoMatchResult 0 false
  end.

Example aho_ushers :
  let rules := CS "he" ++ [13; 10] ++ CS "she" ++ [10; 10] ++ CS "HIS" ++ [10] ++ CS "hers" in
  aho_moderation_search (aho_moderation_build (Some rules) true) (Some (CS "uSHERS his")) 10 = AhoMatchResult 4 false /\
  aho_moderation_search (aho_moderation_build (Some rules) false) (Some (CS "uSHERS hers")) 10 = AhoMatchResult 2 false.
Proof. split; vm_compute; reflexivity. Qed.

(** ** The specification: occurrences of the folded rules in the folded text *)

Fixpoint codepoints_from (fuel : nat) (s : list Z) (offset : nat) : list Z :=
  match fuel with
  | O => []
  | S fuel' =>
      if (offset <? length s)%nat
      then let '(cp, offset') := utf8_next s offset in cp :: codepoints_from fuel' s offset'
      else []
  end.
Definition codepoints (s : list Z) : list Z := codepoints_from (length s) s 0.
Definition folded (cf : bool) (s : list Z) : list Z := map (fun cp => fold_codepoint cp cf) (codepoints s).

Fixpoint split_lines (s : list Z) : list (list Z) :=
  match s with
  | [] => [[]]
  | c :: r =>
      if c =? 10 then [] :: split_lines r
      else match split_lines r with l :: ls => (c :: l) :: ls | [] => [[c]] end
  end.
Definition rule_lines (rules : list Z) : list (list Z) :=
  List.filter (fun l => negb (bool_decide (l = []))) (map strip_cr (split_lines rules)).
Definition patterns (cf : bool) (rules : list Z) : list (list Z) := map (folded cf) (rule_lines rules).

(** The patterns that end at the end of the text, and those that end anywhere in it. *)
Definition ending (ps : list (list Z)) (t : list Z) : nat := countb (fun p => bool_decide (p `suffix_of` t)) ps.
Fixpoint occurrences_from (ps : list (list Z)) (before t : list Z) : nat :=
  match t with
  | [] => 0
  | cp :: r => ending ps (before ++ [cp]) + occurrences_from ps (before ++ [cp]) r
  end%nat.
Definition occurrences (ps : list (list Z)) (t : list Z) : nat := occurrences_from ps [] t.

(** ** Decoding *)

Lemma utf8_next_advance s offset : (offset < length s)%nat ->
  (offset < (utf8_next s offset).2 <= length s)%nat.
Proof.
  intros H. unfold utf8_next.
  repeat match goal with |- context [if ?b then _ else _] => destruct b eqn:? end; bool_split; cbn [snd];
    repeat match goal with E : (_ <? _)%nat = true |- _ => apply Nat.ltb_lt in E end; lia.
Qed.

Lemma length_codepoints_from fuel s offset : (offset < length s)%nat -> (0 < fuel)%nat -> codepoints_from fuel s offset <> [].
Proof.
  intros H Hf. destruct fuel; [lia|]. cbn [codepoints_from]. apply Nat.ltb_lt in H as ->.
  by destruct (utf8_next s offset).
Qed.

Lemma folded_nonempty cf s : s <> [] -> folded cf s <> [].
Proof.
  intros H. unfold folded, codepoints. intros E. apply map_eq_nil in E. revert E.
  apply length_codepoints_from; destruct s; cbn; (done || lia).
Qed.

(** ** The words of the states *)

(** Following a word from a state, as [insert_from] does. *)
Fixpoint insert_word (w : list Z) (state : nat) (a : aho_moderation) : option (aho_moderation * nat) :=
  match w with
  | [] => Some (a, state)
  | cp :: w' => match insert_codepoint a state cp with None => None | Some (a', next) => insert_word w' next a' end
  end.

Lemma insert_codepoint_fold a state cp a' next : insert_codepoint a state cp = Some (a', next) -> case_fold a' = case_fold a.
Proof. unfold insert_codepoint. repeat case_match; intros; simplify_eq; done. Qed.

Lemma insert_from_word fuel line offset state a :
  insert_from fuel line offset state a =
  insert_word (map (fun cp => fold_codepoint cp (case_fold a)) (codepoints_from fuel line offset)) state a.
Proof.
  revert offset state a. induction fuel as [|fuel IH]; intros offset state a; [done|]. cbn [insert_from codepoints_from].
  destruct (_ <? _)%nat; [|done]. destruct (utf8_next line offset) as [cp offset']. cbn [map insert_word].
  destruct (insert_codepoint _ _ _) as [[a' next]|] eqn:E; [|done].
  rewrite IH. by rewrite (insert_codepoint_fold _ _ _ _ _ E).
Qed.

Lemma insert_word_fold w : forall state a a' next, insert_word w state a = Some (a', next) -> case_fold a' = case_fold a.
Proof.
  induction w as [|cp w IH]; intros state a a' next; cbn; [by intros [= <- <-]|].
  destruct (insert_codepoint a state cp) as [[a1 s1]|] eqn:E; [|done]. intros H. rewrite (IH _ _ _ _ H).
  by apply insert_codepoint_fold in E.
Qed.

Fixpoint insert_rules (ls : list (list Z)) (rule_count : nat) (a : aho_moderation) : option aho_moderation :=
  match ls with
  | [] => Some a
  | l :: ls' => match insert_rule l (S rule_count) a with None => None | Some a' => insert_rules ls' (S rule_count) a' end
  end.

Lemma split_lines_none s : strchr s 10 = None -> split_lines s = [s].
Proof.
  intros H. apply strchr_none in H. induction s as [|c s IH]; [done|]. cbn.
  apply not_elem_of_cons in H as [Hc Hs]. destruct (Z.eqb_spec c 10); [congruence|]. by rewrite IH.
Qed.

Lemma split_lines_app pre s : 10 ∉ pre -> split_lines (pre ++ 10 :: s) = pre :: split_lines s.
Proof.
  induction pre as [|c pre IH]; intros H; [done|]. cbn. apply not_elem_of_cons in H as [Hc Hs].
  destruct (Z.eqb_spec c 10); [congruence|]. by rewrite IH.
Qed.

Lemma insert_lines_rules fuel : forall line rc a, (length line < fuel)%nat ->
  insert_lines fuel line rc a = insert_rules (rule_lines line) rc a.
Proof.
  assert (Hone : forall l ls, List.filter (fun l => negb (bool_decide (l = []))) (map strip_cr (l :: ls)) =
                    match strip_cr l with [] => [] | _ => [strip_cr l] end ++
                    List.filter (fun l => negb (bool_decide (l = []))) (map strip_cr ls)).
  { intros l ls. cbn. by destruct (strip_cr l). }
  induction fuel as [|fuel IH]; intros line rc a Hf; [lia|]. cbn [insert_lines].
  destruct line as [|c line]; [done|]. set (s := c :: line) in *.
  destruct (strchr s 10) as [[pre r]|] eqn:E.
  - apply strchr_spec in E as (Hs & Hpre & (r' & ->)). cbn [tail].
    assert (Hr : (length r' < fuel)%nat) by (rewrite Hs, length_app in Hf; cbn in Hf; lia).
    unfold rule_lines. rewrite Hs, split_lines_app, Hone by done. fold (rule_lines r').
    destruct (strip_cr pre) as [|x l]; cbn [app insert_rules]; [by apply IH|].
    destruct (insert_rule _ _ _); [by apply IH|done].
  - unfold rule_lines. rewrite split_lines_none, Hone by done. cbn [map List.filter].
    rewrite app_nil_r. destruct (strip_cr s) as [|x l]; [done|]. cbn. by destruct (insert_rule _ _ _).
Qed.

(** [ws] gives the word of every state: the root has the empty one, an edge adds its code point. *)
Record trie_ok (a : aho_moderation) (ws : list (list Z)) : Prop := {
  tr_length : length ws = length (states a);
  tr_root : ws !! 0%nat = Some [];
  tr_nodup : NoDup ws;
  tr_edges : forall s cp t, (cp, t) ∈ st_edges (state_at a s) <->
    exists w, ws !! s = Some w /\ ws !! t = Some (w ++ [cp]);
  tr_edges_nodup : forall s, NoDup (st_edges (state_at a s));
  tr_closed : forall w cp, w ++ [cp] ∈ ws -> w ∈ ws;
}.

Lemma state_at_set s x a t : (s < length (states a))%nat ->
  state_at (set_state s x a) t = if decide (t = s) then x else state_at a t.
Proof.
  intros Hs. unfold state_at, set_state. cbn [states]. rewrite !nth_lookup. case_decide as E.
  - subst t. by rewrite list_lookup_insert_eq.
  - by rewrite list_lookup_insert_ne by done.
Qed.

Lemma states_set s x a : length (states (set_state s x a)) = length (states a).
Proof. unfold set_state. cbn. by rewrite length_insert. Qed.

Lemma state_at_new a t : state_at (new_state a) t = state_at a t.
Proof.
  unfold state_at, new_state. cbn [states]. rewrite !nth_lookup.
  destruct (Nat.lt_trichotomy t (length (states a))) as [H|[-> |H]].
  - by rewrite lookup_app_l.
  - rewrite lookup_app_r, Nat.sub_diag by done. by rewrite (lookup_ge_None_2 (states a)) by lia.
  - rewrite (lookup_ge_None_2 (states a)) by lia. rewrite lookup_ge_None_2; [done|]. rewrite length_app. cbn. lia.
Qed.

Section trie.
Context (a : aho_moderation) (ws : list (list Z)) (Htrie : trie_ok a ws).

Lemma word_inj s t w : ws !! s = Some w -> ws !! t = Some w -> s = t.
Proof. intros H1 H2. by apply (proj1 (NoDup_alt ws) (tr_nodup _ _ Htrie) s t w). Qed.

Lemma transition_Some s cp t : transition a s cp = Some t <->
  exists w, ws !! s = Some w /\ ws !! t = Some (w ++ [cp]).
Proof.
  rewrite <- (tr_edges _ _ Htrie). unfold transition. split.
  - intros H. apply fmap_Some in H as ([cp' t'] & Hf & ->). apply List.find_some in Hf as [Hin Hcp].
    cbn in Hcp. apply Z.eqb_eq in Hcp. subst cp'. by apply list_elem_of_In.
  - intros Hin. destruct (List.find _ _) as [[cp' t']|] eqn:Hf.
    + apply List.find_some in Hf as [Hin' Hcp]. cbn in Hcp. apply Z.eqb_eq in Hcp. subst cp'. cbn. f_equal.
      apply list_elem_of_In in Hin'. apply (tr_edges _ _ Htrie) in Hin as (w & Hw & Ht), Hin' as (w' & Hw' & Ht').
      simplify_eq. by eapply word_inj.
    + apply list_elem_of_In in Hin. apply (List.find_none _ _ Hf) in Hin. cbn in Hin. by rewrite Z.eqb_refl in Hin.
Qed.

Lemma transition_None s w cp : ws !! s = Some w -> transition a s cp = None <-> (w ++ [cp] ∉ ws).
Proof.
  intros Hs. rewrite eq_None_not_Some. split.
  - intros H Hin. apply list_elem_of_lookup in Hin as [t Ht]. apply H. exists t. apply transition_Some. eauto.
  - intros H [t Ht]. apply transition_Some in Ht as (w' & Hw' & Ht). simplify_eq. apply H. by eapply list_elem_of_lookup_2.
Qed.

Lemma transition_case s w cp : ws !! s = Some w ->
  match transition a s cp with Some t => ws !! t = Some (w ++ [cp]) | None => w ++ [cp] ∉ ws end.
Proof.
  intros Hs. destruct (transition a s cp) as [t|] eqn:E; [|by apply (transition_None s)].
  apply transition_Some in E as (w' & Hw' & Ht). by simplify_eq.
Qed.

Lemma state_lt s w : ws !! s = Some w -> (s < length (states a))%nat.
Proof. intros H. rewrite <- (tr_length _ _ Htrie). by eapply lookup_lt_Some. Qed.

Lemma prefix_word w v : w ++ v ∈ ws -> w ∈ ws.
Proof.
  induction v as [|x v IH] using rev_ind; [by rewrite app_nil_r|]. rewrite app_assoc.
  intros H. by apply IH, (tr_closed _ _ Htrie _ x).
Qed.

(** A word has fewer letters than the trie has states. *)
Lemma word_length w : w ∈ ws -> (length w < length ws)%nat.
Proof.
  intros Hw. set (l := map (fun k => take k w) (seq 0 (S (length w)))).
  assert (Hl : length l = S (length w)) by (unfold l; by rewrite length_map, length_seq).
  assert (Hle : (length l <= length ws)%nat); [|lia]. apply submseteq_length, NoDup_submseteq.
  - unfold l. apply NoDup_fmap_2_strong; [|apply NoDup_seq].
    intros x y Hx Hy E. apply (f_equal length) in E. rewrite !length_take in E.
    apply elem_of_seq in Hx, Hy. lia.
  - intros x Hx. apply list_elem_of_fmap in Hx as (k & -> & _).
    apply (prefix_word _ (drop k w)). by rewrite take_drop.
Qed.
End trie.

Lemma trie_start fold : trie_ok (AhoModeration [blank_state] fold) [[]].
Proof.
  split; try done.
  - apply NoDup_singleton.
  - intros s cp t. split.
    + unfold state_at. cbn. destruct s as [|[|]]; cbn; intros H; by apply not_elem_of_nil in H.
    + intros (w & Hs & Ht). destruct t as [|[|t]]; [|done..]. cbn in Ht. injection Ht as Ht. by destruct w.
  - intros s. unfold state_at. destruct s as [|[|]]; apply NoDup_nil_2.
  - intros w cp H. apply list_elem_of_singleton in H. by destruct w.
Qed.

(** What the insertion of rules leaves alone. *)
Definition same_data (a a' : aho_moderation) : Prop :=
  forall s, st_failure (state_at a' s) = st_failure (state_at a s) /\ st_outputs (state_at a' s) = st_outputs (state_at a s).

Lemma insert_codepoint_ok a ws state w cp : trie_ok a ws -> ws !! state = Some w ->
  match insert_codepoint a state cp with
  | None => (w ++ [cp] ∉ ws) /\ (AHO_MODERATION_MAX_STATES <= length ws)%nat
  | Some (a', next) => exists ws', trie_ok a' ws' /\ ws' !! next = Some (w ++ [cp]) /\ same_data a a' /\
      (forall t x, ws !! t = Some x -> ws' !! t = Some x) /\
      (forall x, x ∈ ws' <-> x ∈ ws \/ x = w ++ [cp]) /\
      ((length ws <= AHO_MODERATION_MAX_STATES)%nat -> (length ws' <= AHO_MODERATION_MAX_STATES)%nat)
  end.
Proof.
  intros Ht Hs. unfold insert_codepoint. pose proof (transition_case a ws Ht state w cp Hs) as Hc.
  destruct (transition a state cp) as [t|].
  { exists ws. split; [done|]. split; [done|]. split; [done|]. split; [done|]. split; [|done]. intros x. split; [by left|].
    intros [?| ->]; [done|]. by eapply list_elem_of_lookup_2. }
  destruct (Nat.leb_spec AHO_MODERATION_MAX_STATES (length (states a))) as [Hmax|Hmax].
  { by rewrite (tr_length _ _ Ht). }
  pose proof (state_lt a ws Ht state w Hs) as Hlt. pose proof (tr_length _ _ Ht) as Hlen.
  exists (ws ++ [w ++ [cp]]). unfold add_edge. rewrite !state_at_new.
  assert (Hlt' : (state < length (states (new_state a)))%nat) by (cbn; rewrite length_app; cbn; lia).
  assert (Hw : w ∈ ws) by by eapply list_elem_of_lookup_2.
  assert (Hlook : forall s x, (ws ++ [w ++ [cp]]) !! s = Some x <->
            ws !! s = Some x \/ s = length (states a) /\ x = w ++ [cp]).
  { intros s x. rewrite lookup_app_Some. split.
    - intros [?|[Hge H]]; [by left|]. apply list_lookup_singleton_Some in H as [H <-]. right. split; [lia|done].
    - intros [?|[-> ->]]; [by left|]. right. rewrite Hlen, Nat.sub_diag. split; [lia|done]. }
  assert (Hnew : forall x, x ∈ ws ++ [w ++ [cp]] <-> x ∈ ws \/ x = w ++ [cp]).
  { intros x. rewrite elem_of_app, list_elem_of_singleton. done. }
  split; [split|split; [|split; [|split; [|split; [done|]]]]].
  - rewrite states_set. cbn. rewrite !length_app. cbn. lia.
  - apply Hlook. left. apply (tr_root _ _ Ht).
  - apply NoDup_app. split; [apply (tr_nodup _ _ Ht)|]. split; [|apply NoDup_singleton].
    intros x Hx H. apply list_elem_of_singleton in H. congruence.
  - intros s cp' t. rewrite state_at_set, state_at_new by done.
    assert (Hold : (cp', t) ∈ st_edges (state_at a s) <-> exists w', ws !! s = Some w' /\ ws !! t = Some (w' ++ [cp'])) by apply (tr_edges _ _ Ht).
    assert (Hclosed : forall w', ws !! t = Some (w' ++ [cp']) -> w' ∈ ws).
    { intros w' H. apply (tr_closed _ _ Ht _ cp'). by eapply list_elem_of_lookup_2. }
    case_decide as E.
    + subst s. cbn [st_edges]. rewrite elem_of_app, list_elem_of_singleton, Hold. split.
      * intros [(w' & H1 & H2)|[= -> ->]].
        -- exists w'. rewrite !Hlook. eauto.
        -- exists w. rewrite !Hlook. eauto.
      * intros (w' & H1 & H2). rewrite Hlook in H1, H2. destruct H1 as [H1|[-> _]]; [|lia].
        destruct H2 as [H2|[-> H2]]; [eauto|]. apply app_inj_tail in H2 as [-> ->]. by right.
    + rewrite Hold. split.
      * intros (w' & H1 & H2). exists w'. rewrite !Hlook. eauto.
      * intros (w' & H1 & H2). rewrite Hlook in H1, H2. destruct H1 as [H1|[-> ->]].
        -- destruct H2 as [H2|[-> H2]]; [eauto|]. apply app_inj_tail in H2 as [-> ->].
           by destruct E; apply (word_inj a ws Ht _ _ w).
        -- destruct H2 as [H2|[-> H2]].
           ++ by destruct Hc; apply Hclosed.
           ++ apply (f_equal length) in H2. rewrite !length_app in H2. cbn in H2. lia.
  - intros s. rewrite state_at_set, state_at_new by done. case_decide; [|apply (tr_edges_nodup _ _ Ht)]. subst s. cbn [st_edges].
    apply NoDup_app. split; [apply (tr_edges_nodup _ _ Ht)|]. split; [|apply NoDup_singleton].
    intros [cp' t] Hin H. apply list_elem_of_singleton in H as [= -> ->].
    apply (tr_edges _ _ Ht) in Hin as (w' & _ & H). apply lookup_lt_Some in H. lia.
  - intros v cp' Hv. rewrite Hnew in *. left. destruct Hv as [Hv|Hv]; [by apply (tr_closed _ _ Ht _ cp')|].
    by apply app_inj_tail in Hv as [-> _].
  - apply Hlook. by right.
  - intros s. rewrite state_at_set, state_at_new by done. case_decide; [|done]. by subst s.
  - intros t x H. apply Hlook. by left.
  - intros _. rewrite length_app. cbn. lia.
Qed.

Lemma same_data_trans a b c : same_data a b -> same_data b c -> same_data a c.
Proof. intros H1 H2 s. destruct (H1 s) as [<- <-], (H2 s) as [<- <-]. done. Qed.

(** Inserting a word adds exactly its prefixes; it fails only when they do not fit. *)
Lemma insert_word_ok v : forall a ws state w, trie_ok a ws -> ws !! state = Some w ->
  (length ws <= AHO_MODERATION_MAX_STATES)%nat ->
  match insert_word v state a with
  | None => exists ws', NoDup ws' /\ (AHO_MODERATION_MAX_STATES < length ws')%nat /\
      forall x, x ∈ ws' -> x ∈ ws \/ exists k, x = w ++ take k v
  | Some (a', next) => exists ws', trie_ok a' ws' /\ ws' !! next = Some (w ++ v) /\ same_data a a' /\
      (forall t x, ws !! t = Some x -> ws' !! t = Some x) /\
      (forall x, x ∈ ws' <-> x ∈ ws \/ exists k, x = w ++ take k v) /\
      (length ws' <= AHO_MODERATION_MAX_STATES)%nat
  end.
Proof.
  induction v as [|cp v IH]; intros a ws state w Ht Hs Hmax; cbn [insert_word].
  { exists ws. rewrite app_nil_r. split; [done|]. split; [done|]. split; [done|]. split; [done|]. split; [|done].
    intros x. split; [by left|]. intros [?|[k ->]]; [done|]. rewrite take_nil, app_nil_r. by eapply list_elem_of_lookup_2. }
  pose proof (insert_codepoint_ok a ws state w cp Ht Hs) as H1.
  destruct (insert_codepoint a state cp) as [[a1 s1]|].
  - destruct H1 as (ws1 & Ht1 & Hs1 & Hd1 & Hkeep1 & Hin1 & Hmax1).
    specialize (IH a1 ws1 s1 (w ++ [cp]) Ht1 Hs1 (Hmax1 Hmax)).
    assert (Hstep : forall x, (x ∈ ws1 \/ exists k, x = (w ++ [cp]) ++ take k v) <-> x ∈ ws \/ exists k, x = w ++ take k (cp :: v)).
    { intros x. rewrite Hin1. split.
      - intros [[?| ->]|[k ->]]; [by left|right; by exists 1%nat|right; exists (S k)].
        by rewrite <- app_assoc.
      - intros [?|[[|k] ->]]; [by left; left| |].
        + left. left. rewrite take_0, app_nil_r. by eapply list_elem_of_lookup_2.
        + right. exists k. by rewrite <- app_assoc. }
    destruct (insert_word v s1 a1) as [[a2 s2]|].
    + destruct IH as (ws2 & Ht2 & Hs2 & Hd2 & Hkeep2 & Hin2 & Hmax2). exists ws2. split; [done|].
      split; [by rewrite <- app_assoc in Hs2|]. split; [by eapply same_data_trans|].
      split; [intros t x Hx; by apply Hkeep2, Hkeep1|]. split; [|done]. intros x. by rewrite Hin2, Hstep.
    + destruct IH as (ws2 & Hn2 & Hl2 & Hin2). exists ws2. split; [done|]. split; [done|].
      intros x Hx. by apply Hstep, Hin2.
  - destruct H1 as [Hnot Hge]. exists (ws ++ [w ++ [cp]]). split; [|split].
    + apply NoDup_app. split; [apply (tr_nodup _ _ Ht)|]. split; [|apply NoDup_singleton].
      intros x Hx H. apply list_elem_of_singleton in H. congruence.
    + rewrite length_app. cbn. lia.
    + intros x Hx. apply elem_of_app in Hx as [?|Hx]; [by left|]. apply list_elem_of_singleton in Hx as ->.
      right. by exists 1%nat.
Qed.

(** ** The rules in the trie *)

(** The distinct prefixes of the patterns: one state each. *)
Definition prefixes (ps : list (list Z)) : list (list Z) :=
  remove_dups ([] :: concat (map (fun p => map (fun k => take k p) (seq 0 (S (length p)))) ps)).

Definition own_rules (ps : list (list Z)) (w : list Z) : nat := countb (fun p => bool_decide (p = w)) ps.

Lemma prefixes_spec ps x : x ∈ prefixes ps <-> x = [] \/ exists p k, p ∈ ps /\ x = take k p.
Proof.
  unfold prefixes. rewrite elem_of_remove_dups, elem_of_cons, list_elem_of_In, in_concat. split.
  - intros [->|(l & Hl & Hx)]; [by left|]. right. apply in_map_iff in Hl as (p & <- & Hp).
    apply in_map_iff in Hx as (k & <- & _). exists p, k. by rewrite list_elem_of_In.
  - intros [->|(p & k & Hp & ->)]; [by left|]. right. rewrite list_elem_of_In in Hp.
    exists (map (fun k => take k p) (seq 0 (S (length p)))). split; [by apply in_map_iff; exists p|].
    apply in_map_iff. exists (Nat.min k (length p)). split; [|apply in_seq; lia].
    destruct (Nat.min_spec k (length p)) as [[_ ->]|[H ->]]; [done|].
    by rewrite !take_ge by lia.
Qed.

Lemma prefixes_length ps ws : NoDup ws -> (forall x, x ∈ ws -> x ∈ prefixes ps) -> (length ws <= length (prefixes ps))%nat.
Proof. intros Hn H. by apply submseteq_length, NoDup_submseteq. Qed.

Lemma prefixes_app ps qs x : x ∈ prefixes ps -> x ∈ prefixes (ps ++ qs).
Proof. rewrite !prefixes_spec. intros [->|(p & k & Hp & ->)]; [by left|]. right. exists p, k. set_solver. Qed.

Lemma prefixes_pattern ps p : p ∈ ps -> p ∈ prefixes ps.
Proof. intros H. apply prefixes_spec. right. exists p, (length p). by rewrite take_ge. Qed.

Record rules_ok (a : aho_moderation) (ws ps : list (list Z)) : Prop := {
  ru_trie : trie_ok a ws;
  ru_max : (length ws <= AHO_MODERATION_MAX_STATES)%nat;
  ru_failure : forall s, st_failure (state_at a s) = 0%nat;
  ru_outputs : forall s w, ws !! s = Some w -> length (st_outputs (state_at a s)) = own_rules ps w;
  ru_rules : forall s, Forall (fun r => r < length ps)%nat (st_outputs (state_at a s));
  ru_words : forall x, x ∈ ws <-> x ∈ prefixes ps;
  ru_nonempty : Forall (fun p => p <> []) ps;
}.

Lemma states_add_output s r a : length (states (add_output s r a)) = length (states a).
Proof. apply states_set. Qed.

Lemma add_output_at s r a t : (s < length (states a))%nat ->
  st_edges (state_at (add_output s r a) t) = st_edges (state_at a t) /\
  st_failure (state_at (add_output s r a) t) = st_failure (state_at a t) /\
  st_outputs (state_at (add_output s r a) t) = st_outputs (state_at a t) ++ (if decide (t = s) then [r] else []).
Proof.
  intros Hs. unfold add_output. rewrite state_at_set by done. case_decide; [by subst t|]. by rewrite app_nil_r.
Qed.

Lemma trie_same a a' ws : trie_ok a ws -> length (states a') = length (states a) ->
  (forall s, st_edges (state_at a' s) = st_edges (state_at a s)) -> trie_ok a' ws.
Proof.
  intros [H1 H2 H3 H4 H5 H6] Hl He. split; try done; [congruence| |].
  - intros s cp t. by rewrite He.
  - intros s. by rewrite He.
Qed.

Lemma insert_rule_ok l a ws ps : rules_ok a ws ps -> l <> [] ->
  match insert_rule l (S (length ps)) a with
  | Some a' => (length ps < AHO_MODERATION_MAX_RULES)%nat /\ valid_utf8 l = true /\ case_fold a' = case_fold a /\
      exists ws', rules_ok a' ws' (ps ++ [folded (case_fold a) l])
  | None => (AHO_MODERATION_MAX_RULES <= length ps)%nat \/ valid_utf8 l = false \/
      (AHO_MODERATION_MAX_STATES < length (prefixes (ps ++ [folded (case_fold a) l])))%nat
  end.
Proof.
  intros [Ht Hmax Hf Ho Hr Hw Hne] Hl. unfold insert_rule.
  destruct (Nat.ltb_spec AHO_MODERATION_MAX_RULES (S (length ps))) as [Hlt|Hlt]; [left; lia|]. cbn [orb].
  destruct (valid_utf8 l); [|right; by left]. cbn [negb]. rewrite insert_from_word.
  set (p := map _ _). change (folded (case_fold a) l) with p.
  assert (Hp : p <> []) by (by apply folded_nonempty).
  assert (Hin : forall ws' : list (list Z), (forall x, x ∈ ws' -> x ∈ ws \/ exists k, x = [] ++ take k p) ->
            forall x, x ∈ ws' -> x ∈ prefixes (ps ++ [p])).
  { intros ws' H x Hx. destruct (H x Hx) as [Hx'|[k ->]]; [by apply prefixes_app, Hw|].
    apply prefixes_spec. right. exists p, k. set_solver. }
  pose proof (insert_word_ok p a ws 0 [] Ht (tr_root _ _ Ht) Hmax) as H.
  destruct (insert_word p 0 a) as [[a' s']|] eqn:Ei.
  - destruct H as (ws' & Ht' & Hs' & Hd & Hkeep & Hin' & Hmax'). cbn [app] in Hs'.
    pose proof (state_lt a' ws' Ht' s' p Hs') as Hlt'.
    pose proof (fun t => add_output_at s' (S (length ps) - 1) a' t Hlt') as Hadd.
    split; [lia|]. split; [done|]. split; [by apply insert_word_fold in Ei|]. exists ws'. split.
    + apply (trie_same a'); [done|apply states_add_output|]. intros s. by destruct (Hadd s).
    + done.
    + intros s. destruct (Hadd s) as (_ & -> & _), (Hd s) as [-> _]. done.
    + intros s w Hs. destruct (Hadd s) as (_ & _ & ->), (Hd s) as [_ ->]. rewrite length_app.
      unfold own_rules. rewrite countb_app. cbn [countb]. fold (own_rules ps w).
      assert (Hold : length (st_outputs (state_at a s)) = own_rules ps w).
      { destruct (ws !! s) as [w'|] eqn:Es; [rewrite (Ho s w' Es); by specialize (Hkeep s w' Es); simplify_eq|].
        assert (Hlen : (length (states a) <= s)%nat) by (rewrite <- (tr_length _ _ Ht); by apply lookup_ge_None).
        unfold state_at. rewrite nth_overflow by done. symmetry. apply countb_zero. intros q Hq.
        apply bool_decide_eq_false. intros ->. assert (Hww : w ∈ ws) by (apply Hw, prefixes_pattern, Hq).
        apply list_elem_of_lookup in Hww as [t Htw]. specialize (Hkeep t w Htw).
        rewrite (word_inj a' ws' Ht' _ _ w Hs Hkeep) in Es. congruence. }
      rewrite Hold. f_equal. case_decide as E.
      * subst s. simplify_eq. by rewrite bool_decide_true.
      * rewrite bool_decide_false; [done|]. intros ->. by destruct E; apply (word_inj a' ws' Ht' _ _ w).
    + intros s. destruct (Hadd s) as (_ & _ & ->), (Hd s) as [_ ->]. rewrite length_app. apply Forall_app. split.
      * eapply Forall_impl; [apply Hr|]. cbn. lia.
      * case_decide; [|done]. apply Forall_singleton. cbn. lia.
    + intros x. split; [by apply Hin; intros y; rewrite Hin'|]. rewrite Hin', Hw, !prefixes_spec.
      intros [->|(q & k & Hq & ->)]; [left; by left|]. apply elem_of_app in Hq as [Hq|Hq]; [left; right; eauto|].
      apply list_elem_of_singleton in Hq as ->. right. by exists k.
    + apply Forall_app. split; [done|]. by apply Forall_singleton.
  - right; right. destruct H as (ws' & Hn & Hlen & Hin').
    eapply Nat.lt_le_trans; [done|]. apply prefixes_length; [done|]. by apply Hin.
Qed.

Lemma insert_rules_ok ls : forall a ws ps, rules_ok a ws ps -> Forall (fun l => l <> []) ls ->
  (length ps <= AHO_MODERATION_MAX_RULES)%nat ->
  let all := ps ++ map (folded (case_fold a)) ls in
  match insert_rules ls (length ps) a with
  | Some a' => (length all <= AHO_MODERATION_MAX_RULES)%nat /\ Forall (fun l => valid_utf8 l = true) ls /\
      case_fold a' = case_fold a /\ exists ws', rules_ok a' ws' all
  | None => (AHO_MODERATION_MAX_RULES < length all)%nat \/ Exists (fun l => valid_utf8 l = false) ls \/
      (AHO_MODERATION_MAX_STATES < length (prefixes all))%nat
  end.
Proof.
  induction ls as [|l ls IH]; intros a ws ps Hok Hls Hps all; subst all; cbn [insert_rules map].
  { rewrite app_nil_r. eauto. }
  apply Forall_cons in Hls as [Hl Hls]. pose proof (insert_rule_ok l a ws ps Hok Hl) as H.
  assert (Happ : forall q qs, ps ++ q :: qs = (ps ++ [q]) ++ qs) by (intros; by rewrite <- app_assoc).
  destruct (insert_rule l (S (length ps)) a) as [a1|].
  - destruct H as (Hlt & Hv & Hcf & ws1 & Hok1).
    specialize (IH a1 ws1 (ps ++ [folded (case_fold a) l]) Hok1 Hls).
    rewrite length_app, Nat.add_comm in IH. cbn [length Nat.add] in IH. cbv zeta in IH. rewrite Hcf in IH.
    specialize (IH ltac:(lia)). rewrite Happ.
    destruct (insert_rules ls (S (length ps)) a1) as [a2|].
    + destruct IH as (H1 & H2 & H3 & H4). split; [done|]. split; [by constructor|]. split; [congruence|done].
    + destruct IH as [H|[H|H]]; [by left|right; left; by constructor 2|by right; right].
  - rewrite Happ. destruct H as [H|[H|H]].
    + left. rewrite !length_app. cbn. lia.
    + right; left. by constructor 1.
    + right; right. eapply Nat.lt_le_trans; [done|]. apply prefixes_length; [apply NoDup_remove_dups|].
      intros x. apply prefixes_app.
Qed.

Lemma rules_start fold : rules_ok (AhoModeration [blank_state] fold) [[]] [].
Proof.
  assert (H : forall s, state_at (AhoModeration [blank_state] fold) s = blank_state).
  { intros s. unfold state_at. by destruct s as [|[|s]]. }
  split.
  - apply trie_start.
  - unfold AHO_MODERATION_MAX_STATES. cbn [length]. lia.
  - intros s. by rewrite H.
  - intros s w _. by rewrite H.
  - intros s. by rewrite H.
  - intros x. rewrite prefixes_spec, list_elem_of_singleton. split; [by left|].
    intros [->|(p & k & Hp & _)]; [done|]. by apply not_elem_of_nil in Hp.
  - constructor.
Qed.

(** ** The failure links *)

Definition depth (ws : list (list Z)) (s : nat) : nat := length (nth s ws []).

(** The failure link of a state leads to its longest proper suffix in the trie. *)
Definition fail_ok (ws : list (list Z)) (a : aho_moderation) (s : nat) : Prop :=
  forall w, ws !! s = Some w -> w <> [] ->
  exists v, ws !! st_failure (state_at a s) = Some v /\ v `suffix_of` w /\ v <> w /\
    forall u, u ∈ ws -> u `suffix_of` w -> u <> w -> (length u <= length v)%nat.

(** The outputs of a state count the patterns that end with its word. *)
Definition out_ok (ws ps : list (list Z)) (a : aho_moderation) (s : nat) : Prop :=
  forall w, ws !! s = Some w -> length (st_outputs (state_at a s)) = ending ps w.

Lemma suffix_proper (v w : list Z) : v `suffix_of` w -> v <> w -> (length v < length w)%nat.
Proof.
  intros [k ->] H. rewrite length_app. destruct k; [done|]. cbn. lia.
Qed.

Lemma suffix_shorter (u v w : list Z) : u `suffix_of` w -> v `suffix_of` w -> (length u <= length v)%nat -> u `suffix_of` v.
Proof.
  intros Hu Hv Hl. destruct (suffix_weak_total u v w Hu Hv) as [H|H]; [done|].
  destruct H as [k ->]. rewrite length_app in Hl. destruct k; [|cbn in Hl; lia]. by exists [].
Qed.

Lemma suffix_snoc_inv (u w : list Z) x y : (u ++ [x]) `suffix_of` (w ++ [y]) -> x = y /\ u `suffix_of` w.
Proof. intros H. split; [by eapply suffix_snoc_inv_1|by eapply suffix_snoc_inv_2]. Qed.
Lemma suffix_snoc_intro (u w : list Z) x : u `suffix_of` w -> (u ++ [x]) `suffix_of` (w ++ [x]).
Proof. apply suffix_snoc. Qed.

Section fall.
Context (a : aho_moderation) (ws : list (list Z)) (Htrie : trie_ok a ws).

Lemma root_word s : ws !! s = Some [] -> s = 0%nat.
Proof. intros H. by apply (word_inj a ws Htrie _ _ []); [|apply (tr_root _ _ Htrie)]. Qed.

(** Following the links finds the longest suffix that goes on with [cp]. *)
Lemma fall_spec w cp bound fuel : forall f v,
  ws !! f = Some v -> v `suffix_of` w -> (length v <= fuel)%nat -> (length v <= bound)%nat ->
  (forall u, u `suffix_of` w -> (length u <= bound)%nat -> u ++ [cp] ∈ ws -> (length u <= length v)%nat) ->
  (forall s x, ws !! s = Some x -> (length x <= length v)%nat -> fail_ok ws a s) ->
  exists v', ws !! fall fuel a f cp = Some v' /\ v' `suffix_of` w /\ (length v' <= bound)%nat /\
    (v' ++ [cp] ∈ ws \/ v' = []) /\
    (forall u, u `suffix_of` w -> (length u <= bound)%nat -> u ++ [cp] ∈ ws -> (length u <= length v')%nat).
Proof.
  induction fuel as [|fuel IH]; intros f v Hf Hvw Hfuel Hb Hmax Hfail; cbn [fall].
  { destruct v; [|cbn in Hfuel; lia]. exists []. eauto 10. }
  destruct (Nat.eqb_spec f 0) as [-> |Hf0].
  { rewrite (tr_root _ _ Htrie) in Hf. injection Hf as <-. exists []. repeat split; eauto. apply (tr_root _ _ Htrie). }
  pose proof (transition_case a ws Htrie f v cp Hf) as Hc.
  destruct (transition a f cp) as [t|] eqn:Et.
  { exists v. repeat split; eauto. left. by eapply list_elem_of_lookup_2. }
  assert (Hv : v <> []) by (intros ->; by apply root_word in Hf).
  destruct (Hfail f v Hf ltac:(done) v Hf Hv) as (x & Hx & Hxv & Hne & Hlong).
  pose proof (suffix_proper _ _ Hxv Hne). apply (IH _ x Hx); try lia.
  - by etransitivity.
  - intros u Hu Hub Hcp. apply Hlong.
    + by apply (tr_closed _ _ Htrie _ cp).
    + by eapply suffix_shorter; [| |apply Hmax].
    + congruence.
  - intros s y Hs Hy. apply (Hfail s y Hs). lia.
Qed.

Lemma fall_next_spec w cp bound f v :
  ws !! f = Some v -> v `suffix_of` w -> (length v <= bound)%nat ->
  (forall u, u `suffix_of` w -> (length u <= bound)%nat -> u ++ [cp] ∈ ws -> (length u <= length v)%nat) ->
  (forall s x, ws !! s = Some x -> (length x <= length v)%nat -> fail_ok ws a s) ->
  exists x, ws !! fall_next a f cp = Some x /\ x `suffix_of` (w ++ [cp]) /\ (length x <= S bound)%nat /\
    forall y, y ∈ ws -> y `suffix_of` (w ++ [cp]) -> (length y <= S bound)%nat -> (length y <= length x)%nat.
Proof.
  intros Hf Hvw Hb Hmax Hfail. unfold fall_next.
  destruct (fall_spec w cp bound (length (states a)) f v) as (v' & Hf' & Hvw' & Hb' & Hgo & Hlong); try done.
  { rewrite <- (tr_length _ _ Htrie). apply Nat.lt_le_incl, (word_length a ws Htrie). by eapply list_elem_of_lookup_2. }
  pose proof (transition_case a ws Htrie _ v' cp Hf') as Hc.
  assert (Hall : forall y, y ∈ ws -> y `suffix_of` (w ++ [cp]) -> (length y <= S bound)%nat -> y <> [] ->
            exists u, y = u ++ [cp] /\ u ++ [cp] ∈ ws /\ (length u <= length v')%nat).
  { intros y Hy Hyw Hyb Hne. destruct y as [|z u] using rev_ind; [done|]. clear IHu.
    apply suffix_snoc_inv in Hyw as [-> Hu]. rewrite length_app in Hyb. cbn in Hyb. exists u.
    split; [done|]. split; [done|]. apply Hlong; (done || lia). }
  destruct (transition a (fall (length (states a)) a f cp) cp) as [t|]; cbn [default].
  - exists (v' ++ [cp]). split; [done|]. split; [by apply suffix_snoc_intro|]. rewrite length_app. cbn. split; [lia|].
    intros y Hy Hyw Hyb. destruct (decide (y = [])) as [-> |Hne]; [cbn; lia|].
    destruct (Hall y Hy Hyw Hyb Hne) as (u & -> & _ & ?). rewrite length_app. cbn. lia.
  - exists []. split; [apply (tr_root _ _ Htrie)|]. split; [apply suffix_nil|]. split; [cbn; lia|].
    intros y Hy Hyw Hyb. destruct (decide (y = [])) as [-> |Hne]; [done|]. exfalso.
    destruct (Hall y Hy Hyw Hyb Hne) as (u & -> & Hin & Hu). destruct Hgo as [?| ->]; [done|].
    destruct u; [done|cbn in Hu; lia].
Qed.
End fall.

(** The state of the breadth-first pass: the queue [q], the edges [D] already followed, none of
    them from a state deeper than [d] and all of those from the states above [d]. *)
Record links (ws ps : list (list Z)) (a : aho_moderation) (q : list nat) (D : nat -> Z * nat -> Prop) (d : nat) : Prop := {
  li_trie : trie_ok a ws;
  li_nodup : NoDup q;
  li_sorted : forall i j s t, q !! i = Some s -> q !! j = Some t -> (i <= j)%nat -> (depth ws s <= depth ws t)%nat;
  li_children : forall s e, D s e -> e.2 ∈ q /\ e ∈ st_edges (state_at a s) /\ (depth ws s <= d)%nat;
  li_parents : forall t, t ∈ q -> exists s cp, D s (cp, t);
  li_above : forall s e, e ∈ st_edges (state_at a s) -> (depth ws s < d)%nat -> D s e;
  li_done : forall t, t ∈ q -> fail_ok ws a t /\ out_ok ws ps a t;
  li_todo : forall t, t ∉ q -> st_failure (state_at a t) = 0%nat /\
    forall w, ws !! t = Some w -> length (st_outputs (state_at a t)) = own_rules ps w;
  li_rules : forall s, Forall (fun r => r < length ps)%nat (st_outputs (state_at a s));
}.

Lemma depth_lookup ws s w : ws !! s = Some w -> depth ws s = length w.
Proof. intros H. unfold depth. by rewrite (nth_lookup_Some _ _ _ _ H). Qed.

Lemma own_ending_snoc ps w v : (forall p, p ∈ ps -> p `suffix_of` w -> p <> w -> p `suffix_of` v) ->
  v `suffix_of` w -> v <> w -> ending ps w = (own_rules ps w + ending ps v)%nat.
Proof.
  intros H Hv Hne. unfold ending, own_rules. induction ps as [|p ps IH]; [done|]. cbn [countb].
  rewrite IH by (intros q Hq; apply H; set_solver).
  destruct (decide (p = w)) as [-> |Hpw].
  - rewrite (bool_decide_true (w = w)), (bool_decide_true (w `suffix_of` w)) by done. rewrite (bool_decide_false (w `suffix_of` v)); [lia|].
    intros Hwv. apply Hne. apply suffix_length in Hv as Hl1. apply suffix_length in Hwv as Hl2.
    destruct Hv as [k ->]. rewrite length_app in *. destruct k; [done|cbn in *; lia].
  - rewrite (bool_decide_false (p = w)) by done.
    destruct (decide (p `suffix_of` w)) as [Hs|Hs].
    + rewrite !bool_decide_true; [lia| |done]. apply H; [set_solver|done..].
    + rewrite !bool_decide_false; [lia| |done]. intros Hp. apply Hs. by etransitivity.
Qed.

Lemma ending_nil ps : Forall (fun p => p <> []) ps -> ending ps [] = 0%nat.
Proof.
  intros H. apply countb_zero. intros p Hp. apply bool_decide_eq_false. intros Hs. apply suffix_nil_inv in Hs.
  rewrite Forall_forall in H. by apply (H p).
Qed.

Section pass.
Context (ws ps : list (list Z)) (Hps : Forall (fun p => p <> []) ps) (Hwords : forall p, p ∈ ps -> p ∈ ws).

Lemma links_root a q D d : links ws ps a q D d -> 0%nat ∉ q.
Proof.
  intros H Hin. destruct (li_parents _ _ _ _ _ _ H _ Hin) as (s & cp & Hd).
  destruct (li_children _ _ _ _ _ _ H _ _ Hd) as (_ & He & _).
  apply (tr_edges _ _ (li_trie _ _ _ _ _ _ H)) in He as (w & _ & Hw).
  rewrite (tr_root _ _ (li_trie _ _ _ _ _ _ H)) in Hw. by destruct w.
Qed.

Lemma root_out a q D d : links ws ps a q D d -> out_ok ws ps a 0.
Proof.
  intros H w Hw. rewrite (proj2 (li_todo _ _ _ _ _ _ H 0%nat (links_root _ _ _ _ H)) w Hw).
  rewrite (tr_root _ _ (li_trie _ _ _ _ _ _ H)) in Hw. injection Hw as <-. rewrite ending_nil by done.
  apply countb_zero. intros p Hp. apply bool_decide_eq_false. rewrite Forall_forall in Hps. by apply Hps.
Qed.

(** Every state up to the depth [d] is in the queue. *)
Lemma links_reached a q D d s w : links ws ps a q D d -> ws !! s = Some w -> w <> [] -> (length w <= d)%nat -> s ∈ q.
Proof.
  intros H Hs Hw Hd. destruct w as [|cp u _] using rev_ind; [done|].
  pose proof (li_trie _ _ _ _ _ _ H) as Ht.
  assert (Hu : u ∈ ws) by (apply (tr_closed _ _ Ht _ cp); by eapply list_elem_of_lookup_2).
  apply list_elem_of_lookup in Hu as [p Hp]. rewrite length_app in Hd. cbn in Hd.
  assert (He : (cp, s) ∈ st_edges (state_at a p)) by (apply (tr_edges _ _ Ht); eauto).
  apply (li_above _ _ _ _ _ _ H) in He; [|rewrite (depth_lookup _ _ _ Hp); lia].
  by destruct (li_children _ _ _ _ _ _ H _ _ He).
Qed.

Lemma add_outputs_at child outs : forall a t, (child < length (states a))%nat ->
  let a' := foldl (fun a rule => add_output child rule a) a outs in
  length (states a') = length (states a) /\
  st_edges (state_at a' t) = st_edges (state_at a t) /\
  st_failure (state_at a' t) = st_failure (state_at a t) /\
  st_outputs (state_at a' t) = st_outputs (state_at a t) ++ (if decide (t = child) then outs else []).
Proof.
  induction outs as [|r outs IH]; intros a t Hc a'; subst a'; cbn [foldl].
  { case_decide; rewrite ?app_nil_r; done. }
  destruct (IH (add_output child r a) t) as (H1 & H2 & H3 & H4); [by rewrite states_add_output|].
  destruct (add_output_at child r a t Hc) as (H5 & H6 & H7).
  rewrite H1, H2, H3, H4, H5, H6, H7, states_add_output. repeat split.
  case_decide; [by rewrite <- app_assoc|by rewrite app_nil_r].
Qed.

(** The effect of one edge: the child gets its link and the outputs of the linked state. *)
Lemma link_child_at s cp child a t : (child < length (states a))%nat ->
  let f := fall_next a (st_failure (state_at a s)) cp in
  f <> child ->
  let a' := link_child s (cp, child) a in
  length (states a') = length (states a) /\
  st_edges (state_at a' t) = st_edges (state_at a t) /\
  st_failure (state_at a' t) = (if decide (t = child) then f else st_failure (state_at a t)) /\
  st_outputs (state_at a' t) = st_outputs (state_at a t) ++ (if decide (t = child) then st_outputs (state_at a f) else []).
Proof.
  intros Hc f Hf a'. unfold a', link_child. fold f.
  assert (Hset : forall u, state_at (set_failure child f a) u =
            if decide (u = child) then AhoState (st_edges (state_at a child)) f (st_outputs (state_at a child)) else state_at a u)
    by (intros u; unfold set_failure; by rewrite state_at_set).
  assert (Hc' : (child < length (states (set_failure child f a)))%nat) by (unfold set_failure; by rewrite states_set).
  destruct (add_outputs_at child (st_outputs (state_at (set_failure child f a) f)) (set_failure child f a) t Hc') as (H1 & H2 & H3 & H4).
  rewrite H1, H2, H3, H4, !Hset. rewrite (decide_False (P := f = child)) by done.
  split; [unfold set_failure; by rewrite states_set|]. case_decide as E; [by subst t|done].
Qed.

Lemma child_not_queued a q D d s w cp child : links ws ps a q D d -> ws !! s = Some w ->
  ws !! child = Some (w ++ [cp]) -> ~ D s (cp, child) -> child ∉ q.
Proof.
  intros H Hw Hchild HD Hin. pose proof (li_trie _ _ _ _ _ _ H) as Ht.
  destruct (li_parents _ _ _ _ _ _ H _ Hin) as (s' & cp' & Hd').
  destruct (li_children _ _ _ _ _ _ H _ _ Hd') as (_ & He' & _).
  apply (tr_edges _ _ Ht) in He' as (u & Hu & Hu'). rewrite Hchild in Hu'. injection Hu' as Hu'.
  apply app_inj_tail in Hu' as [<- <-]. by rewrite (word_inj a ws Ht _ _ _ Hu Hw) in Hd'.
Qed.

(** The state a queued one falls back to on a code point: the longest suffix, complete already. *)
Lemma fallback_spec a q D s w cp : links ws ps a q D (length w) -> s ∈ q -> ws !! s = Some w ->
  let f := fall_next a (st_failure (state_at a s)) cp in
  exists x, ws !! f = Some x /\ x `suffix_of` (w ++ [cp]) /\ (length x <= length w)%nat /\
    (forall y, y ∈ ws -> y `suffix_of` (w ++ [cp]) -> y <> w ++ [cp] -> (length y <= length x)%nat) /\ out_ok ws ps a f.
Proof.
  intros H Hs Hw f. pose proof (li_trie _ _ _ _ _ _ H) as Ht.
  assert (Hwne : w <> []).
  { intros ->. apply (root_word a ws Ht) in Hw as ->. by apply (links_root _ _ _ _ H). }
  destruct (li_done _ _ _ _ _ _ H s Hs) as [Hfail _].
  destruct (Hfail w Hw Hwne) as (v & Hv & Hvw & Hvne & Hlong). pose proof (suffix_proper _ _ Hvw Hvne) as Hvlt.
  destruct (fall_next_spec a ws Ht w cp (length w - 1) (st_failure (state_at a s)) v Hv Hvw ltac:(lia))
    as (x & Hx & Hxw & Hxb & Hxl).
  { intros u Hu Hub Hucp. apply Hlong; [by apply (tr_closed _ _ Ht _ cp)|done|]. intros ->. lia. }
  { intros y z Hy Hyl z' Hz' Hne. apply (li_done _ _ _ _ _ _ H); [|done|done]. simplify_eq.
    by apply (links_reached a q D (length w) _ _ H Hy Hne); lia. }
  fold f in Hx. replace (S (length w - 1)) with (length w) in * by (destruct w; cbn in *; (done || lia)).
  exists x. split; [done|]. split; [done|]. split; [done|]. split.
  - intros y Hy Hyw Hyne. apply Hxl; [done..|].
    apply suffix_proper in Hyw; [|done]. rewrite length_app in Hyw. cbn in Hyw. lia.
  - destruct (decide (x = [])) as [-> |Hxne].
    + rewrite (root_word a ws Ht _ Hx). by apply (root_out _ _ _ _ H).
    + apply (li_done _ _ _ _ _ _ H), (links_reached a q D (length w) f x H Hx Hxne). lia.
Qed.

Lemma child_deepest a q D w cp child t : links ws ps a q D (length w) -> ws !! child = Some (w ++ [cp]) ->
  t ∈ q ++ [child] -> (depth ws t <= depth ws child)%nat.
Proof.
  intros H Hchild Hin. pose proof (li_trie _ _ _ _ _ _ H) as Ht.
  apply elem_of_app in Hin as [Hin|Hin]; [|by apply list_elem_of_singleton in Hin as ->].
  destruct (li_parents _ _ _ _ _ _ H _ Hin) as (s' & cp' & Hd').
  destruct (li_children _ _ _ _ _ _ H _ _ Hd') as (_ & He' & Hdep).
  apply (tr_edges _ _ Ht) in He' as (u & Hu & Hu'). rewrite (depth_lookup _ _ _ Hu) in Hdep.
  rewrite (depth_lookup _ _ _ Hu'), (depth_lookup _ _ _ Hchild), !length_app. cbn. lia.
Qed.

Lemma link_child_ok a q D s e w : links ws ps a q D (length w) -> s ∈ q -> ws !! s = Some w ->
  e ∈ st_edges (state_at a s) -> ~ D s e ->
  links ws ps (link_child s e a) (q ++ [e.2]) (fun s' e' => D s' e' \/ s' = s /\ e' = e) (length w).
Proof.
  intros H Hs Hw He HD. destruct e as [cp child]. cbn [snd].
  pose proof (li_trie _ _ _ _ _ _ H) as Ht.
  pose proof He as Hedge. apply (tr_edges _ _ Ht) in Hedge as (w' & Hw' & Hchild). simplify_eq.
  pose proof (state_lt a ws Ht _ _ Hchild) as Hclt.
  pose proof (child_not_queued a q D _ s w cp child H Hw Hchild HD) as Hnew.
  destruct (fallback_spec a q D s w cp H Hs Hw) as (x & Hx & Hxw & Hxb & Hxl & Hfout).
  set (f := fall_next a (st_failure (state_at a s)) cp) in *.
  assert (Hxne : x <> w ++ [cp]) by (intros ->; rewrite length_app in Hxb; cbn in Hxb; lia).
  assert (Hfc : f <> child) by congruence.
  pose proof (fun t => link_child_at s cp child a t Hclt Hfc) as Hat. fold f in Hat. cbv zeta in Hat.
  assert (Hother : forall t, t <> child -> st_failure (state_at (link_child s (cp, child) a) t) = st_failure (state_at a t) /\
            st_outputs (state_at (link_child s (cp, child) a) t) = st_outputs (state_at a t)).
  { intros t Hne. destruct (Hat t) as (_ & _ & -> & ->). by rewrite !decide_False, app_nil_r by done. }
  destruct (li_todo _ _ _ _ _ _ H child Hnew) as [_ Hown].
  split.
  - apply (trie_same a); [done|by destruct (Hat 0%nat)|]. intros t. by destruct (Hat t) as (_ & ? & _).
  - apply NoDup_app. split; [apply (li_nodup _ _ _ _ _ _ H)|]. split; [|apply NoDup_singleton].
    intros t Ht' Hin. apply list_elem_of_singleton in Hin. congruence.
  - intros i j t t' Hi Hj Hij. apply lookup_app_Some in Hj as [Hj|[Hj1 Hj]].
    + apply lookup_app_Some in Hi as [Hi|[Hi1 _]]; [by apply (li_sorted _ _ _ _ _ _ H i j)|].
      apply lookup_lt_Some in Hj. lia.
    + apply list_lookup_singleton_Some in Hj as [_ <-]. apply (child_deepest a q D w cp child t H Hchild).
      by eapply list_elem_of_lookup_2.
  - intros s' e' [HD'|[-> ->]].
    + destruct (li_children _ _ _ _ _ _ H _ _ HD') as (H1 & H2 & H3). destruct (Hat s') as (_ & -> & _). set_solver.
    + destruct (Hat s) as (_ & -> & _). cbn. rewrite (depth_lookup _ _ _ Hw). set_solver.
  - intros t Hin. apply elem_of_app in Hin as [Hin|Hin].
    + destruct (li_parents _ _ _ _ _ _ H t Hin) as (s' & cp' & HD'). eauto.
    + apply list_elem_of_singleton in Hin as ->. eauto 10.
  - intros s' e' He' Hdep. left. apply (li_above _ _ _ _ _ _ H); [|done]. by destruct (Hat s') as (_ & <- & _).
  - intros t Hin. destruct (decide (t = child)) as [-> |Hne].
    + destruct (Hat child) as (_ & _ & Hf1 & Ho1). rewrite decide_True in Hf1 by done. rewrite decide_True in Ho1 by done. split.
      * intros z Hz Hzne. rewrite Hchild in Hz. injection Hz as <-. exists x. rewrite Hf1. split; [done|]. split; [done|].
        split; [done|]. intros u. apply Hxl.
      * intros z Hz. rewrite Hchild in Hz. injection Hz as <-. rewrite Ho1, length_app, (Hown _ Hchild), (Hfout x Hx).
        symmetry. apply own_ending_snoc; [|done..]. intros p Hp Hpw Hpne. eapply suffix_shorter; [done..|].
        apply Hxl; [by apply Hwords|done..].
    + assert (Hq : t ∈ q) by set_solver. destruct (li_done _ _ _ _ _ _ H t Hq) as [H1 H2], (Hother t Hne) as [H3 H4].
      unfold fail_ok, out_ok. by rewrite H3, H4.
  - intros t Hin. destruct (Hother t ltac:(set_solver)) as [-> ->]. apply (li_todo _ _ _ _ _ _ H). set_solver.
  - intros t. destruct (Hat t) as (_ & _ & _ & ->). apply Forall_app. split; [apply (li_rules _ _ _ _ _ _ H)|].
    case_decide; [apply (li_rules _ _ _ _ _ _ H)|done].
Qed.

Lemma links_ext a q D D' d : (forall s e, D s e <-> D' s e) -> links ws ps a q D d -> links ws ps a q D' d.
Proof.
  intros HD [H1 H2 H3 H4 H5 H6 H7 H8 H9]. split; try done.
  - intros s e. rewrite <- HD. apply H4.
  - intros t Ht. destruct (H5 t Ht) as (s & cp & ?). exists s, cp. by apply HD.
  - intros s e He Hd. by apply HD, H6.
Qed.

Lemma link_child_fold s e a : case_fold (link_child s e a) = case_fold a.
Proof.
  destruct e as [cp child]. unfold link_child.
  generalize (st_outputs (state_at (set_failure child (fall_next a (st_failure (state_at a s)) cp) a)
    (fall_next a (st_failure (state_at a s)) cp))).
  set (b := set_failure _ _ _). change (case_fold a) with (case_fold b). clearbody b. intros outs. revert b.
  induction outs as [|r outs IH]; intros b; [done|]. cbn [foldl]. by rewrite IH.
Qed.

Lemma link_children_ok s w es : forall a q D, links ws ps a q D (length w) -> s ∈ q -> ws !! s = Some w -> NoDup es ->
  (forall e, e ∈ es -> e ∈ st_edges (state_at a s) /\ ~ D s e) ->
  let '(q', a') := link_children s es q a in
  q' = q ++ map snd es /\ case_fold a' = case_fold a /\
  links ws ps a' q' (fun s' e' => D s' e' \/ s' = s /\ e' ∈ es) (length w).
Proof.
  induction es as [|e es IH]; intros a q D H Hs Hw Hn Hes; cbn [link_children].
  { rewrite app_nil_r. split; [done|]. split; [done|]. eapply links_ext; [|exact H]. set_solver. }
  apply NoDup_cons in Hn as [Hne Hn]. destruct (Hes e ltac:(set_solver)) as [He HD].
  pose proof (link_child_ok a q D s e w H Hs Hw He HD) as H1.
  specialize (IH _ _ _ H1 ltac:(set_solver) Hw Hn).
  destruct (link_children s es (q ++ [e.2]) (link_child s e a)) as [q' a'].
  destruct IH as (-> & -> & IH).
  { intros e' He'. destruct (Hes e' ltac:(set_solver)) as [He1 HD1].
    pose proof (li_trie _ _ _ _ _ _ H) as Ht. pose proof (li_trie _ _ _ _ _ _ H1) as Ht1.
    destruct e' as [cp t]. split; [by apply (tr_edges _ _ Ht1), (tr_edges _ _ Ht)|].
    intros [?|[_ <-]]; done. }
  split; [by rewrite <- app_assoc|]. split; [apply link_child_fold|].
  eapply links_ext; [|exact IH]. intros s' e'. cbn. rewrite elem_of_cons. intuition.
Qed.

(** The edges followed when the first [h] states of the queue are done. *)
Definition followed (q : list nat) (h : nat) (s : nat) (e : Z * nat) : Prop :=
  (exists w, ws !! s = Some w /\ ws !! e.2 = Some (w ++ [e.1])) /\
  (s = 0%nat \/ exists i, (i < h)%nat /\ q !! i = Some s).

(** When the state at the head of the queue is reached, every edge above it has been followed. *)
Lemma links_advance a q h d s : links ws ps a q (followed q h) d -> (h = 0 \/ exists s', q !! (h - 1) = Some s' /\ depth ws s' = d)%nat ->
  (h = 0%nat -> d = 0%nat) -> q !! h = Some s -> links ws ps a q (followed q h) (depth ws s).
Proof.
  intros H Hprev Hd0 Hs. pose proof (li_trie _ _ _ _ _ _ H) as Ht.
  assert (Hle : (d <= depth ws s)%nat).
  { destruct Hprev as [->|(s' & Hs' & <-)]; [rewrite Hd0; (done || lia)|].
    apply (li_sorted _ _ _ _ _ _ H (h - 1) h); (done || lia). }
  destruct H as [H1 H2 H3 H4 H5 H6 H7 H8 H9]. split; try done.
  - intros s' e He. destruct (H4 s' e He) as (? & ? & ?). split; [done|]. split; [done|]. lia.
  - assert (Hall : forall w x, ws !! x = Some w -> (length w < depth ws s)%nat -> x = 0%nat \/ exists i, (i < h)%nat /\ q !! i = Some x).
    { induction w as [|cp u IH] using rev_ind; intros x Hx Hlt.
      - left. by apply (root_word a ws Ht).
      - assert (Hu : u ∈ ws) by (apply (tr_closed _ _ Ht _ cp); by eapply list_elem_of_lookup_2).
        apply list_elem_of_lookup in Hu as [p Hp]. rewrite length_app in Hlt. cbn in Hlt.
        assert (Hf : followed q h p (cp, x)) by (split; [eauto|apply (IH p Hp); lia]).
        destruct (H4 p (cp, x) Hf) as (Hin & _ & _). apply list_elem_of_lookup in Hin as [i Hi].
        right. exists i. split; [|done]. destruct (Nat.lt_ge_cases i h) as [|Hge]; [done|].
        pose proof (H3 h i s x Hs Hi Hge) as Hdep. rewrite (depth_lookup _ x _ Hx), length_app in Hdep. cbn in Hdep. lia. }
    intros s' [cp t] He Hlt. apply (tr_edges _ _ Ht) in He as (w & Hw & Ht'). split; [by exists w|].
    apply (Hall w s' Hw). by rewrite <- (depth_lookup _ _ _ Hw).
Qed.

Lemma link_queue_ok fuel : forall h q a d, links ws ps a q (followed q h) d ->
  (h = 0 \/ exists s', q !! (h - 1) = Some s' /\ depth ws s' = d)%nat -> (h = 0%nat -> d = 0%nat) ->
  (length ws <= h + fuel)%nat ->
  let '(q', a') := link_queue fuel h q a in
  case_fold a' = case_fold a /\ exists d', links ws ps a' q' (followed q' (length q')) d'.
Proof.
  induction fuel as [|fuel IH]; intros h q a d H Hprev Hd0 Hfuel; cbn [link_queue].
  { split; [done|]. exists d. eapply links_ext; [|exact H]. intros s e. unfold followed.
    assert (Hq : (length q <= h)%nat).
    { apply (Nat.le_trans _ (length ws)); [|lia]. rewrite <- (length_seq (length ws) 0).
      apply submseteq_length, NoDup_submseteq; [apply (li_nodup _ _ _ _ _ _ H)|]. intros x Hx.
      destruct (li_parents _ _ _ _ _ _ H x Hx) as (s' & cp & [(w & _ & Hw) _]). cbn in Hw.
      apply lookup_lt_Some in Hw. apply elem_of_seq. lia. }
    split; intros [He [?|(i & Hi & Hl)]]; (split; [done|]); [by left|right|by left|right]; exists i;
      (split; [|done]); apply lookup_lt_Some in Hl; lia. }
  destruct (q !! h) as [s|] eqn:Hs.
  - pose proof (links_advance a q h d s H Hprev Hd0 Hs) as H1. pose proof (li_trie _ _ _ _ _ _ H) as Ht.
    assert (Hin : s ∈ q) by by eapply list_elem_of_lookup_2.
    destruct (li_parents _ _ _ _ _ _ H s Hin) as (p & cp & [(u & _ & Hw) _]). cbn in Hw. set (w := u ++ [cp]) in *. clearbody w.
    rewrite (depth_lookup _ _ _ Hw) in H1.
    pose proof (link_children_ok s w (st_edges (state_at a s)) a q (followed q h) H1 Hin Hw (tr_edges_nodup _ _ Ht s)) as H2.
    destruct (link_children s (st_edges (state_at a s)) q a) as [q' a'] eqn:El.
    destruct H2 as (-> & Hcf & H2).
    { intros e He. split; [done|]. intros [_ [-> |(i & Hi & Hl)]]; [by apply (links_root _ _ _ _ H)|].
      pose proof (proj1 (NoDup_alt q) (li_nodup _ _ _ _ _ _ H) _ _ _ Hs Hl). lia. }
    assert (Hlt : (h < length q)%nat) by by eapply lookup_lt_Some.
    specialize (IH (S h) (q ++ map snd (st_edges (state_at a s))) a' (length w)).
    destruct (link_queue fuel (S h) _ a') as [q'' a''].
    rewrite <- Hcf. apply IH; [|right; exists s; split|done|lia].
    + eapply links_ext; [|exact H2]. intros s' [c t]. unfold followed. cbn [fst snd]. split.
      * intros [[He [?|(i & Hi & Hl)]]|[-> He]].
        -- split; [done|by left].
        -- split; [done|]. right. exists i. split; [lia|]. by apply lookup_app_l_Some.
        -- split; [by apply (tr_edges _ _ Ht) in He|]. right. exists h. split; [lia|]. by apply lookup_app_l_Some.
      * intros [He [?|(i & Hi & Hl)]]; [left; split; [done|by left]|].
        rewrite lookup_app_l in Hl by lia. destruct (decide (i = h)) as [-> |]; [|left; split; [done|]; right; exists i; split; [lia|done]].
        right. simplify_eq. split; [done|]. by apply (tr_edges _ _ Ht).
    + cbn. rewrite Nat.sub_0_r. by apply lookup_app_l_Some.
    + by apply depth_lookup.
  - split; [done|]. exists d. eapply links_ext; [|exact H]. intros s e. unfold followed. apply lookup_ge_None in Hs.
    split; intros [He [?|(i & Hi & Hl)]]; (split; [done|]); [by left|right|by left|right]; exists i;
      (split; [|done]); apply lookup_lt_Some in Hl; lia.
Qed.
End pass.

(** ** The automaton *)

Record automaton (ws ps : list (list Z)) (a : aho_moderation) : Prop := {
  au_trie : trie_ok a ws;
  au_root : st_failure (state_at a 0) = 0%nat;
  au_fail : forall s, fail_ok ws a s;
  au_out : forall s, out_ok ws ps a s;
  au_words : forall p, p ∈ ps -> p ∈ ws;
  au_rules : forall s, Forall (fun r => r < length ps)%nat (st_outputs (state_at a s));
}.

Lemma link_all_ok a ws ps : rules_ok a ws ps ->
  let '(q, a') := link_all a in
  case_fold a' = case_fold a /\ (length q < length (states a'))%nat /\ NoDup q /\ automaton ws ps a'.
Proof.
  intros [Ht Hmax Hf Ho Hr Hw Hne]. unfold link_all.
  assert (Hwords : forall p, p ∈ ps -> p ∈ ws) by (intros p Hp; by apply Hw, prefixes_pattern).
  assert (Hroot : forall cp t, (cp, t) ∈ st_edges (state_at a 0) <-> ws !! t = Some [cp]).
  { intros cp t. rewrite (tr_edges _ _ Ht). split; [|intros H; exists []; by rewrite (tr_root _ _ Ht)].
    intros (w & H0 & H). rewrite (tr_root _ _ Ht) in H0. by injection H0 as <-. }
  assert (Hq : forall t, t ∈ map snd (st_edges (state_at a 0)) <-> exists cp, ws !! t = Some [cp]).
  { intros t. rewrite list_elem_of_fmap. split.
    - intros ([cp t'] & -> & H). exists cp. by apply Hroot.
    - intros [cp H]. exists (cp, t). split; [done|by apply Hroot]. }
  assert (H0 : links ws ps a (map snd (st_edges (state_at a 0))) (followed ws (map snd (st_edges (state_at a 0))) 0) 0).
  { split; try done.
    - apply NoDup_fmap_2_strong; [|apply (tr_edges_nodup _ _ Ht)]. intros [c t] [c' t'] H1 H2 E. cbn in E. subst t'.
      apply Hroot in H1, H2. congruence.
    - intros i j s t Hi Hj _. apply list_elem_of_lookup_2, Hq in Hi as [c Hc], Hj as [c' Hc'].
      by rewrite (depth_lookup _ _ _ Hc), (depth_lookup _ _ _ Hc').
    - intros s [c t] [(w & Hs & Hc) [-> |(i & Hi & _)]]; [|lia]. cbn in *.
      rewrite (tr_root _ _ Ht) in Hs. injection Hs as <-. rewrite (depth_lookup _ _ _ (tr_root _ _ Ht)).
      split; [|split; [by apply Hroot|done]]. apply Hq. by exists c.
    - intros t Hin. apply Hq in Hin as [c Hc]. exists 0%nat, c. split; [|by left]. exists []. by rewrite (tr_root _ _ Ht).
    - intros s e _ Hd. lia.
    - intros t Hin. apply Hq in Hin as [c Hc]. split.
      + intros w Hw' _. rewrite Hf, (tr_root _ _ Ht). simplify_eq. exists []. split; [done|].
        split; [apply suffix_nil|]. split; [done|]. intros u _ Hu Hun. apply suffix_proper in Hu; [cbn in *; lia|done].
      + intros w Hw'. rewrite (Ho t w Hw'). simplify_eq.
        rewrite (own_ending_snoc ps [c] []); [by rewrite (ending_nil ps Hne), Nat.add_0_r| |apply suffix_nil|done].
        intros p _ Hp Hpn. apply suffix_proper in Hp; [|done]. destruct p; [done|cbn in Hp; lia].
    - intros t _. split; [done|]. apply Ho. }
  pose proof (link_queue_ok ws ps Hne Hwords (length (states a)) 0 _ a 0 H0 ltac:(by left) ltac:(done)) as H.
  rewrite (tr_length _ _ Ht) in H. specialize (H ltac:(lia)).
  destruct (link_queue (length (states a)) 0 _ a) as [q a']. destruct H as (Hcf & d & H).
  pose proof (li_trie _ _ _ _ _ _ H) as Ht'. split; [done|].
  assert (Hsub : (length q <= length (seq 1 (length ws - 1)))%nat).
  { apply submseteq_length, NoDup_submseteq; [apply (li_nodup _ _ _ _ _ _ H)|]. intros x Hx.
    destruct (li_parents _ _ _ _ _ _ H x Hx) as (s' & cp & [(w & _ & Hx') _]). cbn in Hx'.
    pose proof (lookup_lt_Some _ _ _ Hx'). apply elem_of_seq.
    destruct x; [|lia]. rewrite (tr_root _ _ Ht) in Hx'. by destruct w. }
  rewrite length_seq, (tr_length _ _ Ht') in Hsub.
  assert (Hpos : (0 < length (states a'))%nat) by (rewrite <- (tr_length _ _ Ht'); by eapply lookup_lt_Some, (tr_root _ _ Ht)).
  split; [lia|]. split; [apply (li_nodup _ _ _ _ _ _ H)|].
  assert (Hall : forall w s, ws !! s = Some w -> w <> [] -> s ∈ q).
  { induction w as [|cp u IH] using rev_ind; intros s Hs Hne'; [done|].
    assert (Hu : u ∈ ws) by (apply (tr_closed _ _ Ht _ cp); by eapply list_elem_of_lookup_2).
    apply list_elem_of_lookup in Hu as [p Hp]. apply (li_children _ _ _ _ _ _ H p (cp, s)). split; [by exists u|].
    destruct (decide (u = [])) as [-> |Hun]; [left; by apply (root_word a ws Ht)|]. right.
    apply (IH p Hp), list_elem_of_lookup in Hun as [i Hi]. exists i. split; [by eapply lookup_lt_Some|done]. }
  split; [done|by apply (li_todo _ _ _ _ _ _ H), (links_root ws ps a' q _ _ H)| | |done|apply (li_rules _ _ _ _ _ _ H)].
  - intros s w Hs Hwn. by apply (li_done _ _ _ _ _ _ H s (Hall w s Hs Hwn)).
  - intros s w Hs. destruct (decide (w = [])) as [-> |Hwn].
    + pose proof (root_word a ws Ht s Hs) as ->. by apply (root_out ws ps Hne a' q _ _ H).
    + by apply (li_done _ _ _ _ _ _ H s (Hall w s Hs Hwn)).
Qed.

(** ** The search *)

Fixpoint search_word (a : aho_moderation) (cps : list Z) (state count limit : nat) : aho_match_result :=
  match cps with
  | [] => AhoMatchResult count false
  | cp :: r =>
      let state' := fall_next a state cp in
      let '(count', reached) := count_outputs (st_outputs (state_at a state')) count limit in
      if reached : bool then AhoMatchResult count' true else search_word a r state' count' limit
  end.

Lemma search_from_word a text limit fuel : forall offset state count,
  search_from fuel a text offset state count limit =
  search_word a (map (fun cp => fold_codepoint cp (case_fold a)) (codepoints_from fuel text offset)) state count limit.
Proof.
  induction fuel as [|fuel IH]; intros offset state count; [done|]. cbn [search_from codepoints_from].
  destruct (_ <? _)%nat; [|done]. destruct (utf8_next text offset) as [cp offset']. cbn [map search_word].
  destruct (count_outputs _ _ _) as [count' [|]]; [done|]. apply IH.
Qed.

Lemma count_outputs_spec outs limit : forall count, (count < limit)%nat ->
  count_outputs outs count limit =
  (Nat.min limit (count + length outs), (limit <=? count + length outs)%nat).
Proof.
  induction outs as [|r outs IH]; intros count Hc; cbn [count_outputs length].
  { rewrite Nat.add_0_r, Nat.min_r by lia. f_equal. symmetry. apply Nat.leb_gt. lia. }
  destruct (Nat.leb_spec limit (S count)).
  - rewrite Nat.min_l by lia. f_equal; [lia|]. symmetry. apply Nat.leb_le. lia.
  - rewrite IH by lia. rewrite Nat.add_succ_r. done.
Qed.

Lemma search_word_ok a ws ps limit cps : automaton ws ps a -> forall state w t count,
  ws !! state = Some w -> w `suffix_of` t -> (forall y, y ∈ ws -> y `suffix_of` t -> (length y <= length w)%nat) ->
  (count < limit)%nat ->
  search_word a cps state count limit =
  AhoMatchResult (Nat.min limit (count + occurrences_from ps t cps)) (limit <=? count + occurrences_from ps t cps)%nat.
Proof.
  intros [Ht _ Hfail Hout Hwords _]. induction cps as [|cp cps IH]; intros state w t count Hs Hw Hlong Hc; cbn [search_word occurrences_from].
  { rewrite Nat.add_0_r, Nat.min_r by lia. f_equal. symmetry. apply Nat.leb_gt. lia. }
  destruct (fall_next_spec a ws Ht t cp (length t) state w Hs Hw) as (x & Hx & Hxt & _ & Hxl).
  { by apply suffix_length. }
  { intros u Hu _ Hcp. apply Hlong; [|done]. by apply (tr_closed _ _ Ht _ cp). }
  { intros s y _ _. apply Hfail. }
  assert (Hlong' : forall y, y ∈ ws -> y `suffix_of` (t ++ [cp]) -> (length y <= length x)%nat).
  { intros y Hy Hyt. apply Hxl; [done..|]. apply suffix_length in Hyt. rewrite length_app in Hyt. cbn in Hyt. lia. }
  assert (Hend : ending ps x = ending ps (t ++ [cp])).
  { apply countb_ext. intros p Hp. apply bool_decide_ext. split; [intros; by transitivity x|].
    intros Hpt. eapply suffix_shorter; [done..|]. apply Hlong'; [by apply Hwords|done]. }
  rewrite count_outputs_spec by done. rewrite (Hout _ x Hx), Hend.
  destruct (Nat.leb_spec limit (count + ending ps (t ++ [cp]))).
  - rewrite !Nat.min_l by lia. f_equal. symmetry. apply Nat.leb_le. lia.
  - rewrite Nat.min_r by lia. rewrite (IH _ x (t ++ [cp])) by done. by rewrite Nat.add_assoc.
Qed.

(** ** What the component promises *)

Lemma rule_lines_nonempty rules : Forall (fun l => l <> []) (rule_lines rules).
Proof.
  apply Forall_forall. intros l Hl. apply list_elem_of_In, filter_In in Hl as [_ Hl].
  apply negb_true_iff, bool_decide_eq_false in Hl. done.
Qed.

Lemma build_spec rules cf :
  match aho_moderation_build (Some rules) cf with
  | Some a => zlen rules <= AHO_MODERATION_RULES_MAX_BYTES /\ (length (rule_lines rules) <= AHO_MODERATION_MAX_RULES)%nat /\
      Forall (fun l => valid_utf8 l = true) (rule_lines rules) /\
      (length (prefixes (patterns cf rules)) <= AHO_MODERATION_MAX_STATES)%nat /\
      length (states a) = length (prefixes (patterns cf rules)) /\ case_fold a = cf /\
      exists ws, automaton ws (patterns cf rules) a
  | None => AHO_MODERATION_RULES_MAX_BYTES < zlen rules \/ (AHO_MODERATION_MAX_RULES < length (rule_lines rules))%nat \/
      Exists (fun l => valid_utf8 l = false) (rule_lines rules) \/
      (AHO_MODERATION_MAX_STATES < length (prefixes (patterns cf rules)))%nat
  end.
Proof.
  unfold aho_moderation_build. destruct (Z.ltb_spec AHO_MODERATION_RULES_MAX_BYTES (zlen rules)) as [Hl|Hl]; [by left|].
  rewrite insert_lines_rules by lia.
  pose proof (insert_rules_ok (rule_lines rules) _ _ [] (rules_start cf) (rule_lines_nonempty rules) ltac:(unfold AHO_MODERATION_MAX_RULES; cbn; lia)) as H.
  cbn [app case_fold length] in H. fold (patterns cf rules) in H.
  assert (Hn : length (patterns cf rules) = length (rule_lines rules)) by apply length_map. rewrite Hn in H.
  destruct (insert_rules (rule_lines rules) 0 _) as [a|]; [|by right].
  destruct H as (H1 & H2 & H3 & ws & H4). pose proof (link_all_ok a ws _ H4) as H.
  destruct (link_all a) as [q a']. cbn [snd]. destruct H as (H5 & _ & _ & H6).
  assert (Hlen : length ws = length (prefixes (patterns cf rules))).
  { apply Nat.le_antisymm; apply submseteq_length, NoDup_submseteq.
    - apply (tr_nodup _ _ (ru_trie _ _ _ H4)).
    - intros x. apply (ru_words _ _ _ H4).
    - apply NoDup_remove_dups.
    - intros x. apply (ru_words _ _ _ H4). }
  split; [done|]. split; [done|]. split; [done|]. rewrite <- Hlen. split; [apply (ru_max _ _ _ H4)|].
  split; [symmetry; apply (tr_length _ _ (au_trie _ _ _ H6))|]. split; [congruence|]. by exists ws.
Qed.

(** ** UTF-8 *)

(** The Unicode scalar values and their encoding. *)
Definition scalar (cp : Z) : Prop := 0 <= cp < 1114112 /\ ~ (55296 <= cp < 57344).
Definition utf8_bytes (cp : Z) : list Z :=
  if cp <? 128 then [cp]
  else if cp <? 2048 then [192 + cp / 64; 128 + cp `mod` 64]
  else if cp <? 65536 then [224 + cp / 4096; 128 + (cp / 64) `mod` 64; 128 + cp `mod` 64]
  else [240 + cp / 262144; 128 + (cp / 4096) `mod` 64; 128 + (cp / 64) `mod` 64; 128 + cp `mod` 64].
Definition utf8 (cps : list Z) : list Z := concat (map utf8_bytes cps).
Definition is_byte (b : Z) : Prop := 0 <= b < 256.

Lemma cont_byte_spec b : is_byte b -> cont_byte b = (128 <=? b) && (b <? 192).
Proof.
  intros Hb. assert (H : forallb (fun n => eqb (cont_byte (Z.of_nat n)) ((128 <=? Z.of_nat n) && (Z.of_nat n <? 192))) (seq 0 256) = true)
    by (vm_compute; reflexivity).
  rewrite forallb_forall in H. specialize (H (Z.to_nat b)). rewrite Z2Nat.id in H by (unfold is_byte in Hb; lia).
  apply eqb_prop, H, in_seq. unfold is_byte in Hb. lia.
Qed.

Lemma land_low a n : 0 <= n -> Z.land a (Z.ones n) = a `mod` 2 ^ n.
Proof. intros H. by rewrite Z.land_ones. Qed.

Lemma land_shift x n y : 0 <= n -> 0 <= y < 2 ^ n -> Z.land (Z.shiftl x n) y = 0.
Proof.
  intros Hn Hy. apply Z.bits_inj'. intros k Hk. rewrite Z.land_spec, Z.bits_0.
  destruct (Z.lt_ge_cases k n); [by rewrite Z.shiftl_spec_low|].
  destruct (Z.eq_dec y 0) as [-> |]; [by rewrite Z.bits_0, andb_false_r|].
  rewrite (Z.bits_above_log2 y); [apply andb_false_r|lia|]. apply Z.log2_lt_pow2; [lia|].
  apply (Z.lt_le_trans _ (2 ^ n)); [lia|]. apply Z.pow_le_mono_r; lia.
Qed.

Lemma lor_shift x n y : 0 <= n -> 0 <= y < 2 ^ n -> Z.lor (Z.shiftl x n) y = x * 2 ^ n + y.
Proof.
  intros Hn Hy. pose proof (land_shift x n y Hn Hy) as H. rewrite <- Z.shiftl_mul_pow2 by done.
  rewrite <- Z.lxor_lor by done. symmetry. by apply Z.add_nocarry_lxor.
Qed.

Lemma two_bytes a b : Z.lor (Z.shiftl (Z.land a 31) 6) (Z.land b 63) = a `mod` 32 * 64 + b `mod` 64.
Proof.
  change 31 with (Z.ones 5). change 63 with (Z.ones 6). rewrite !land_low by lia. change (2 ^ 5) with 32. change (2 ^ 6) with 64.
  rewrite lor_shift; [done|lia|]. pose proof (Z.mod_pos_bound b 64). lia.
Qed.

Lemma three_bytes a b c : Z.lor (Z.lor (Z.shiftl (Z.land a 15) 12) (Z.shiftl (Z.land b 63) 6)) (Z.land c 63) =
  a `mod` 16 * 4096 + b `mod` 64 * 64 + c `mod` 64.
Proof.
  change (Z.shiftl (Z.land a 15) 12) with (Z.shiftl (Z.land a 15) (6 + 6)). rewrite <- Z.shiftl_shiftl by lia.
  rewrite <- Z.shiftl_lor. change 15 with (Z.ones 4). change 63 with (Z.ones 6). rewrite !land_low by lia.
  change (2 ^ 4) with 16. change (2 ^ 6) with 64.
  pose proof (Z.mod_pos_bound b 64). pose proof (Z.mod_pos_bound c 64). rewrite !lor_shift by (cbn; lia). lia.
Qed.

Lemma four_bytes a b c e :
  Z.lor (Z.lor (Z.lor (Z.shiftl (Z.land a 7) 18) (Z.shiftl (Z.land b 63) 12)) (Z.shiftl (Z.land c 63) 6)) (Z.land e 63) =
  a `mod` 8 * 262144 + b `mod` 64 * 4096 + c `mod` 64 * 64 + e `mod` 64.
Proof.
  change (Z.shiftl (Z.land a 7) 18) with (Z.shiftl (Z.land a 7) (6 + 6 + 6)). change (Z.shiftl (Z.land b 63) 12) with (Z.shiftl (Z.land b 63) (6 + 6)).
  rewrite <- !Z.shiftl_shiftl by lia. rewrite <- !Z.shiftl_lor. change 7 with (Z.ones 3). change 63 with (Z.ones 6).
  rewrite !land_low by lia. change (2 ^ 3) with 8. change (2 ^ 6) with 64.
  pose proof (Z.mod_pos_bound b 64). pose proof (Z.mod_pos_bound c 64). pose proof (Z.mod_pos_bound e 64).
  rewrite !lor_shift by (cbn; lia). lia.
Qed.

Lemma byte_at_byte s i : Forall is_byte s -> is_byte (byte_at s i).
Proof.
  intros H. unfold byte_at. rewrite nth_lookup. destruct (s !! i) eqn:E; [|unfold is_byte; cbn; lia].
  by eapply Forall_lookup_1 in H.
Qed.

(** Splits a test of [utf8_next] into comparisons. *)
Ltac utf8_split :=
  repeat match goal with
  | H : (_ && _) = true |- _ => apply andb_true_iff in H as [? ?]
  | H : negb _ = true |- _ => apply negb_true_iff in H
  | H : (_ && _) = false |- _ => apply andb_false_iff in H
  | H : (_ <? _)%nat = true |- _ => apply Nat.ltb_lt in H
  | H : (_ <? _)%nat = false |- _ => apply Nat.ltb_ge in H
  end; bool_split.

Lemma take_drop_bytes s i n : (i + n <= length s)%nat ->
  take n (drop i s) = map (fun k => byte_at s (i + k)) (seq 0 n).
Proof.
  intros H. apply list_eq. intros k. destruct (Nat.lt_ge_cases k n) as [Hk|Hk].
  - rewrite lookup_take_lt, lookup_drop by done. rewrite list_lookup_fmap, lookup_seq_lt by lia. cbn. unfold byte_at.
    rewrite nth_lookup. destruct (lookup_lt_is_Some_2 s (i + k)) as [x ->]; [lia|]. done.
  - rewrite lookup_take_ge by done. rewrite lookup_ge_None_2; [done|]. rewrite length_fmap, length_seq. done.
Qed.

Lemma utf8_bytes_1 a : 0 <= a < 128 -> scalar a /\ utf8_bytes a = [a].
Proof. intros H. unfold scalar, utf8_bytes. destruct (Z.ltb_spec a 128); [split; [lia|done]|lia]. Qed.

Lemma utf8_bytes_2 a b : 194 <= a <= 223 -> 128 <= b < 192 ->
  let cp := a `mod` 32 * 64 + b `mod` 64 in scalar cp /\ utf8_bytes cp = [a; b].
Proof.
  intros Ha Hb. replace (a `mod` 32) with (a - 192) by (Z.div_mod_to_equations; lia).
  replace (b `mod` 64) with (b - 128) by (Z.div_mod_to_equations; lia). cbv zeta. split; [unfold scalar; lia|].
  unfold utf8_bytes. destruct (Z.ltb_spec ((a - 192) * 64 + (b - 128)) 128); [lia|].
  destruct (Z.ltb_spec ((a - 192) * 64 + (b - 128)) 2048); [|lia].
  f_equal; [Z.div_mod_to_equations; lia|]. f_equal. Z.div_mod_to_equations; lia.
Qed.

Lemma utf8_bytes_3 a b c : 224 <= a <= 239 -> 128 <= b < 192 -> 128 <= c < 192 ->
  (a = 224 -> 160 <= b) -> (a = 237 -> b < 160) ->
  let cp := a `mod` 16 * 4096 + b `mod` 64 * 64 + c `mod` 64 in scalar cp /\ utf8_bytes cp = [a; b; c].
Proof.
  intros Ha Hb Hc H1 H2. replace (a `mod` 16) with (a - 224) by (Z.div_mod_to_equations; lia).
  replace (b `mod` 64) with (b - 128) by (Z.div_mod_to_equations; lia).
  replace (c `mod` 64) with (c - 128) by (Z.div_mod_to_equations; lia). cbv zeta.
  set (cp := (a - 224) * 4096 + (b - 128) * 64 + (c - 128)).
  assert (Hlow : 2048 <= cp) by (destruct (Z.eq_dec a 224); lia).
  split; [unfold scalar; destruct (Z.eq_dec a 237); lia|]. unfold utf8_bytes.
  destruct (Z.ltb_spec cp 128); [lia|]. destruct (Z.ltb_spec cp 2048); [lia|]. destruct (Z.ltb_spec cp 65536); [|lia].
  assert (E1 : cp / 4096 = a - 224) by (symmetry; apply Z.div_unique with ((b - 128) * 64 + (c - 128)); lia).
  assert (E2 : cp / 64 = (a - 224) * 64 + (b - 128)) by (symmetry; apply Z.div_unique with (c - 128); lia).
  assert (E3 : cp `mod` 64 = c - 128) by (symmetry; apply Z.mod_unique with ((a - 224) * 64 + (b - 128)); lia).
  rewrite E1, E2, E3. replace (((a - 224) * 64 + (b - 128)) `mod` 64) with (b - 128)
    by (apply Z.mod_unique with (a - 224); lia).
  repeat f_equal; lia.
Qed.

Lemma utf8_bytes_4 a b c e : 240 <= a <= 244 -> 128 <= b < 192 -> 128 <= c < 192 -> 128 <= e < 192 ->
  (a = 240 -> 144 <= b) -> (a = 244 -> b < 144) ->
  let cp := a `mod` 8 * 262144 + b `mod` 64 * 4096 + c `mod` 64 * 64 + e `mod` 64 in
  scalar cp /\ utf8_bytes cp = [a; b; c; e].
Proof.
  intros Ha Hb Hc He H1 H2. replace (a `mod` 8) with (a - 240) by (Z.div_mod_to_equations; lia).
  replace (b `mod` 64) with (b - 128) by (Z.div_mod_to_equations; lia).
  replace (c `mod` 64) with (c - 128) by (Z.div_mod_to_equations; lia).
  replace (e `mod` 64) with (e - 128) by (Z.div_mod_to_equations; lia). cbv zeta.
  set (cp := (a - 240) * 262144 + (b - 128) * 4096 + (c - 128) * 64 + (e - 128)).
  assert (Hlow : 65536 <= cp) by (destruct (Z.eq_dec a 240); lia).
  split; [unfold scalar; destruct (Z.eq_dec a 244); lia|]. unfold utf8_bytes.
  destruct (Z.ltb_spec cp 128); [lia|]. destruct (Z.ltb_spec cp 2048); [lia|]. destruct (Z.ltb_spec cp 65536); [lia|].
  assert (E1 : cp / 262144 = a - 240) by (symmetry; apply Z.div_unique with ((b - 128) * 4096 + (c - 128) * 64 + (e - 128)); lia).
  assert (E2 : cp / 4096 = (a - 240) * 64 + (b - 128)) by (symmetry; apply Z.div_unique with ((c - 128) * 64 + (e - 128)); lia).
  assert (E3 : cp / 64 = ((a - 240) * 64 + (b - 128)) * 64 + (c - 128)) by (symmetry; apply Z.div_unique with (e - 128); lia).
  assert (E4 : cp `mod` 64 = e - 128) by (symmetry; apply Z.mod_unique with (((a - 240) * 64 + (b - 128)) * 64 + (c - 128)); lia).
  rewrite E1, E2, E3, E4. replace (((a - 240) * 64 + (b - 128)) `mod` 64) with (b - 128) by (apply Z.mod_unique with (a - 240); lia).
  replace ((((a - 240) * 64 + (b - 128)) * 64 + (c - 128)) `mod` 64) with (c - 128)
    by (apply Z.mod_unique with ((a - 240) * 64 + (b - 128)); lia).
  repeat f_equal; lia.
Qed.

(** What is decoded is either out of range or the scalar value whose bytes were read. *)
Lemma utf8_next_sound s offset : Forall is_byte s -> (offset < length s)%nat ->
  let '(cp, offset') := utf8_next s offset in
  1114112 <= cp \/ scalar cp /\ take (offset' - offset) (drop offset s) = utf8_bytes cp.
Proof.
  intros Hs Ho. unfold utf8_next.
  pose proof (byte_at_byte s offset Hs) as Ha. pose proof (byte_at_byte s (S offset) Hs) as Hb0.
  pose proof (byte_at_byte s (S offset + 1) Hs) as Hb1. pose proof (byte_at_byte s (S offset + 2) Hs) as Hb2.
  rewrite !cont_byte_spec by done.
  assert (Htake : forall n, (offset + n <= length s)%nat -> take n (drop offset s) =
            map (fun k => byte_at s (offset + k)) (seq 0 n)) by (intros; by apply take_drop_bytes).
  replace (S offset + 1)%nat with (offset + 2)%nat in * by lia. replace (S offset + 2)%nat with (offset + 3)%nat in * by lia.
  replace (S offset + 3)%nat with (offset + 4)%nat in * by lia. replace (S offset) with (offset + 1)%nat in * by lia.
  assert (H0 : byte_at s (offset + 0) = byte_at s offset) by by rewrite Nat.add_0_r.
  rewrite two_bytes, three_bytes, four_bytes.
  set (a := byte_at s offset) in *. set (b0 := byte_at s (offset + 1)) in *. set (b1 := byte_at s (offset + 2)) in *.
  set (b2 := byte_at s (offset + 3)) in *. unfold is_byte in *.
  destruct (a <? 128) eqn:E1.
  { utf8_split. right. destruct (utf8_bytes_1 a ltac:(lia)) as [Hsc ->]. split; [done|].
    replace (offset + 1 - offset)%nat with 1%nat by lia. rewrite Htake by lia. cbn [seq map]. by rewrite H0. }
  destruct (_ && _ && _ && _) eqn:E2.
  { utf8_split. right. destruct (utf8_bytes_2 a b0 ltac:(lia) ltac:(lia)) as [Hsc ->]. split; [done|].
    replace (offset + 2 - offset)%nat with 2%nat by lia. rewrite Htake by lia. cbn [seq map]. by rewrite H0. }
  destruct (_ && _ && _ && _ && _ && _ && _) eqn:E3.
  { utf8_split. right. repeat match goal with H : (_ && _) = false |- _ => apply andb_false_iff in H end.
    destruct (utf8_bytes_3 a b0 b1) as [Hsc ->]; [lia..|]. split; [done|].
    replace (offset + 3 - offset)%nat with 3%nat by lia. rewrite Htake by lia. cbn [seq map]. by rewrite H0. }
  destruct (_ && _ && _ && _ && _ && _ && _ && _) eqn:E4.
  { utf8_split. right. destruct (utf8_bytes_4 a b0 b1 b2) as [Hsc ->]; [lia..|]. split; [done|].
    replace (offset + 4 - offset)%nat with 4%nat by lia. rewrite Htake by lia. cbn [seq map]. by rewrite H0. }
  left. lia.
Qed.


Lemma byte_at_app pre l k : byte_at (pre ++ l) (length pre + k) = byte_at l k.
Proof. unfold byte_at. rewrite app_nth2 by lia. f_equal. lia. Qed.

(** Decides every comparison of the goal that [lia] can decide. *)
Ltac decide_tests :=
  repeat match goal with
  | |- context [(?a <=? ?b)%Z] => first [rewrite (proj2 (Z.leb_le a b)) by lia | rewrite (proj2 (Z.leb_gt a b)) by lia]
  | |- context [(?a <? ?b)%Z] => first [rewrite (proj2 (Z.ltb_lt a b)) by lia | rewrite (proj2 (Z.ltb_ge a b)) by lia]
  | |- context [(?a <? ?b)%nat] => first [rewrite (proj2 (Nat.ltb_lt a b)) by lia | rewrite (proj2 (Nat.ltb_ge a b)) by lia]
  | |- context [(?a =? ?b)%Z] => destruct (Z.eqb_spec a b)
  end; cbn [andb negb].

Lemma three_digits cp : 0 <= cp -> exists q m1 m0, cp / 4096 = q /\ (cp / 64) `mod` 64 = m1 /\ cp `mod` 64 = m0 /\
  0 <= m1 < 64 /\ 0 <= m0 < 64 /\ 0 <= q /\ cp = q * 4096 + m1 * 64 + m0.
Proof.
  intros H. exists (cp / 4096), ((cp / 64) `mod` 64), (cp `mod` 64). repeat (split; [done|]).
  assert (E : cp / 4096 = cp / 64 / 64) by (rewrite Z.div_div by lia; done). rewrite E.
  pose proof (Z.div_mod cp 64 ltac:(lia)). pose proof (Z.div_mod (cp / 64) 64 ltac:(lia)).
  pose proof (Z.mod_pos_bound cp 64). pose proof (Z.mod_pos_bound (cp / 64) 64).
  pose proof (Z.div_pos cp 64). pose proof (Z.div_pos (cp / 64) 64). lia.
Qed.

(** The bytes of a scalar value decode to it. *)
Lemma utf8_next_complete pre cp r : scalar cp ->
  utf8_next (pre ++ utf8_bytes cp ++ r) (length pre) = (cp, length pre + length (utf8_bytes cp))%nat.
Proof.
  intros [Hr Hsur]. set (s := pre ++ utf8_bytes cp ++ r).
  assert (Hat : forall k, byte_at s (length pre + k) = byte_at (utf8_bytes cp ++ r) k) by (intros; apply byte_at_app).
  assert (Hlen : length s = (length pre + length (utf8_bytes cp) + length r)%nat) by (unfold s; rewrite !length_app; lia).
  unfold utf8_next. rewrite two_bytes, three_bytes, four_bytes.
  replace (S (length pre)) with (length pre + 1)%nat by lia.
  rewrite <- !Nat.add_assoc. cbn [Nat.add]. rewrite !Hat.
  assert (H0 : byte_at s (length pre) = byte_at (utf8_bytes cp ++ r) 0) by (by rewrite <- Hat, Nat.add_0_r).
  rewrite H0, Hlen. clear Hat H0 Hlen. clearbody s. unfold utf8_bytes in *.
  destruct (Z.ltb_spec cp 128); [cbn [app byte_at nth length]|].
  { by destruct (Z.ltb_spec cp 128); [|lia]. }
  destruct (Z.ltb_spec cp 2048); [|destruct (Z.ltb_spec cp 65536)]; unfold byte_at; cbn [app nth length].
  - assert (Hq : 2 <= cp / 64 < 32) by (Z.div_mod_to_equations; lia).
    pose proof (Z.mod_pos_bound cp 64 ltac:(lia)) as Hm. rewrite !cont_byte_spec by (unfold is_byte; lia).
    decide_tests; try lia; f_equal; Z.div_mod_to_equations; lia.
  - destruct (three_digits cp ltac:(lia)) as (q & m1 & m0 & -> & -> & -> & Hm1 & Hm0 & Hq & Hcp).
    rewrite !cont_byte_spec by (unfold is_byte; lia). decide_tests; try lia; f_equal; Z.div_mod_to_equations; lia.
  - destruct (three_digits cp ltac:(lia)) as (q & m1 & m0 & Eq & -> & -> & Hm1 & Hm0 & Hq & Hcp).
    assert (E3 : cp / 262144 = q / 64) by (rewrite <- Eq, Z.div_div by lia; done). rewrite E3, Eq.
    pose proof (Z.div_mod q 64 ltac:(lia)). pose proof (Z.mod_pos_bound q 64 ltac:(lia)).
    pose proof (Z.div_pos q 64 ltac:(lia) ltac:(lia)). set (q3 := q / 64) in *. set (m2 := q `mod` 64) in *. clearbody q3 m2.
    rewrite !cont_byte_spec by (unfold is_byte; lia). decide_tests; try lia; f_equal; Z.div_mod_to_equations; lia.
Qed.

Lemma codepoints_utf8_from cps : forall pre fuel, Forall scalar cps -> (length (utf8 cps) <= fuel)%nat ->
  codepoints_from fuel (pre ++ utf8 cps) (length pre) = cps /\ valid_from fuel (pre ++ utf8 cps) (length pre) = true.
Proof.
  induction cps as [|cp cps IH]; intros pre fuel Hsc Hf.
  { change (utf8 []) with (@nil Z). rewrite app_nil_r. destruct fuel; [done|]. cbn [codepoints_from valid_from].
    by rewrite (proj2 (Nat.ltb_ge _ _)) by lia. }
  apply Forall_cons in Hsc as [Hcp Hsc]. change (utf8 (cp :: cps)) with (utf8_bytes cp ++ utf8 cps) in *.
  assert (Hpos : (0 < length (utf8_bytes cp))%nat) by (unfold utf8_bytes; repeat case_match; cbn; lia).
  rewrite length_app in Hf. destruct fuel as [|fuel]; [lia|]. cbn [codepoints_from valid_from].
  rewrite (proj2 (Nat.ltb_lt _ _)) by (rewrite !length_app; lia). rewrite utf8_next_complete by done.
  destruct (IH (pre ++ utf8_bytes cp) fuel Hsc ltac:(lia)) as [H1 H2].
  rewrite <- app_assoc, length_app in H1, H2. rewrite H1. split; [done|].
  destruct (Z.leb_spec 1114112 cp); [|done]. unfold scalar in Hcp. lia.
Qed.

Lemma valid_from_sound s : Forall is_byte s -> forall fuel offset, (length s - offset <= fuel)%nat ->
  valid_from fuel s offset = true ->
  Forall scalar (codepoints_from fuel s offset) /\ utf8 (codepoints_from fuel s offset) = drop offset s.
Proof.
  intros Hs. induction fuel as [|fuel IH]; intros offset Hf Hv; cbn [codepoints_from valid_from] in *.
  { split; [done|]. by rewrite drop_ge by lia. }
  destruct (Nat.ltb_spec offset (length s)) as [Ho|Ho]; [|split; [done|]; by rewrite drop_ge by lia].
  pose proof (utf8_next_sound s offset Hs Ho) as H. pose proof (utf8_next_advance s offset Ho) as Hadv.
  destruct (utf8_next s offset) as [cp offset']. cbn [snd] in Hadv. destruct (Z.leb_spec 1114112 cp) as [|Hlt]; [done|].
  destruct H as [H|[Hsc Htake]]; [lia|]. destruct (IH offset' ltac:(lia) Hv) as [H1 H2].
  split; [by constructor|]. change (utf8 (cp :: codepoints_from fuel s offset')) with
    (utf8_bytes cp ++ utf8 (codepoints_from fuel s offset')). rewrite H2, <- Htake.
  replace (drop offset' s) with (drop (offset' - offset) (drop offset s)) by (rewrite drop_drop; f_equal; lia).
  apply take_drop.
Qed.

(** the decoder is exactly UTF-8: the encoding of every sequence of Unicode scalar values is valid
    and decodes to it, and a byte string is accepted only when it is such an encoding, so that
    overlong forms, surrogates, values above U+10FFFF and truncated characters are refused. *)
Theorem utf8_roundtrip cps s : Forall scalar cps -> Forall is_byte s ->
  valid_utf8 (utf8 cps) = true /\ codepoints (utf8 cps) = cps /\
  (valid_utf8 s = true -> Forall scalar (codepoints s) /\ utf8 (codepoints s) = s) /\
  (valid_utf8 s = true <-> exists cps', Forall scalar cps' /\ s = utf8 cps').
Proof.
  intros Hcps Hs. destruct (codepoints_utf8_from cps [] (length (utf8 cps)) Hcps ltac:(done)) as [H1 H2].
  assert (Hsound : valid_utf8 s = true -> Forall scalar (codepoints s) /\ utf8 (codepoints s) = s).
  { intros Hv. destruct (valid_from_sound s Hs (length s) 0 ltac:(lia) Hv) as [H3 H4]. by split. }
  split; [done|]. split; [done|]. split; [done|]. split.
  - intros Hv. destruct (Hsound Hv). by exists (codepoints s).
  - intros (cps' & Hsc & ->). apply (codepoints_utf8_from cps' [] _ Hsc). done.
Qed.

Lemma utf8_roundtrip_witness : codepoints (utf8 [72; 233; 44536; 128512]) = [72; 233; 44536; 128512] /\
  valid_utf8 [192; 128] = false.
Proof.
  assert (Hb : Forall is_byte [192; 128]) by (repeat constructor; unfold is_byte; lia).
  assert (Hs : Forall scalar [72; 233; 44536; 128512]) by (repeat constructor; unfold scalar; lia).
  split; [apply (utf8_roundtrip [72; 233; 44536; 128512] [192; 128] Hs Hb)|by vm_compute].
Defined.

(** ** Theorems *)

Lemma insert_lines_queue rules cf a : insert_lines (S (length rules)) rules 0 (AhoModeration [blank_state] cf) = Some a ->
  (length (fst (link_all a)) < length (states a))%nat /\ NoDup (fst (link_all a)).
Proof.
  rewrite insert_lines_rules by lia. intros E.
  pose proof (insert_rules_ok (rule_lines rules) _ _ [] (rules_start cf) (rule_lines_nonempty rules)
    ltac:(unfold AHO_MODERATION_MAX_RULES; cbn; lia)) as H.
  cbn [length] in H. rewrite E in H. destruct H as (_ & _ & _ & ws & H).
  pose proof (link_all_ok a ws _ H) as H1. destruct (link_all a) as [q a']. cbn [fst].
  destruct H1 as (_ & Hq & Hn & Hau). rewrite <- (tr_length _ _ (au_trie _ _ _ Hau)) in Hq.
  by rewrite (tr_length _ _ (ru_trie _ _ _ H)) in Hq.
Qed.

Lemma automaton_rank ws ps a s : automaton ws ps a -> (0 < s < length (states a))%nat ->
  (st_failure (state_at a s) < length (states a))%nat /\
  (depth ws (st_failure (state_at a s)) < depth ws s)%nat.
Proof.
  intros [Ht _ Hf _ _ _] Hs. destruct (lookup_lt_is_Some_2 ws s) as [w Hw]; [rewrite (tr_length _ _ Ht); lia|].
  assert (Hne : w <> []) by (intros ->; apply (root_word a ws Ht) in Hw; lia).
  destruct (Hf s w Hw Hne) as (v & Hv & Hvw & Hvne & _). rewrite (depth_lookup _ _ _ Hv), (depth_lookup _ _ _ Hw).
  split; [by eapply state_lt|by apply suffix_proper].
Qed.

(** A text has an occurrence exactly when some pattern lies in it. *)
Lemma occurrences_from_pos ps t : forall before, (0 < occurrences_from ps before t)%nat <->
  exists p u v, p ∈ ps /\ before ++ t = u ++ p ++ v /\ (length v < length t)%nat.
Proof.
  induction t as [|cp t IH]; intros before; cbn [occurrences_from length].
  { split; [lia|]. intros (? & ? & ? & _ & _ & ?). lia. }
  assert (Happ : forall r : list Z, before ++ cp :: r = (before ++ [cp]) ++ r) by (intros; by rewrite <- app_assoc).
  split.
  - intros H. assert (Hor : (0 < ending ps (before ++ [cp]) \/ 0 < occurrences_from ps (before ++ [cp]) t)%nat) by lia.
    destruct Hor as [He|Ho].
    + apply countb_pos in He as (p & Hp & [u Hu]%bool_decide_eq_true). exists p, u, t.
      split; [done|]. rewrite Happ, Hu, <- app_assoc. split; [done|lia].
    + apply IH in Ho as (p & u & v & Hp & E & Hv). exists p, u, v. rewrite Happ. split; [done|]. split; [done|lia].
  - intros (p & u & v & Hp & E & Hv). rewrite Happ in E.
    destruct (decide (length v = length t)) as [Hl|Hl].
    + rewrite (app_assoc u p v) in E. apply app_inj_2 in E as [E _]; [|done]. assert (0 < ending ps (before ++ [cp]))%nat; [|lia].
      apply countb_pos. exists p. split; [done|]. apply bool_decide_eq_true. by exists u.
    + assert (0 < occurrences_from ps (before ++ [cp]) t)%nat; [|lia]. apply IH. exists p, u, v.
      split; [done|]. split; [done|lia].
Qed.

Lemma occurrences_pos ps t : Forall (fun p => p <> []) ps ->
  (0 < occurrences ps t)%nat <-> exists p u v, p ∈ ps /\ t = u ++ p ++ v.
Proof.
  intros Hne. unfold occurrences. rewrite occurrences_from_pos. cbn [app]. split.
  - intros (p & u & v & Hp & E & _). eauto.
  - intros (p & u & v & Hp & E). exists p, u, v. split; [done|]. split; [done|]. rewrite E, !length_app.
    rewrite Forall_forall in Hne. specialize (Hne p Hp). destruct p; [done|]. cbn. lia.
Qed.

Lemma patterns_nonempty cf rules : Forall (fun p => p <> []) (patterns cf rules).
Proof.
  apply Forall_forall. intros p Hp. apply list_elem_of_fmap in Hp as (l & -> & Hl).
  apply folded_nonempty. pose proof (rule_lines_nonempty rules) as H. rewrite Forall_forall in H. by apply H.
Qed.

Lemma occurrences_rule rules cf text : (0 < occurrences (patterns cf rules) (folded cf text))%nat <->
  exists rule u v, rule ∈ rule_lines rules /\ folded cf text = u ++ folded cf rule ++ v.
Proof.
  rewrite occurrences_pos by apply patterns_nonempty. unfold patterns. split.
  - intros (p & u & v & Hp & E). apply list_elem_of_fmap in Hp as (l & -> & Hl). eauto.
  - intros (l & u & v & Hl & E). exists (folded cf l), u, v. split; [|done]. by apply list_elem_of_fmap_2.
Qed.

(** The search of a built automaton, for the callers. *)
Lemma search_counts rules cf a text limit : aho_moderation_build (Some rules) cf = Some a -> (0 < limit)%nat ->
  let n := occurrences (patterns cf rules) (folded cf text) in
  aho_moderation_search (Some a) (Some text) limit = AhoMatchResult (Nat.min limit n) (limit <=? n)%nat.
Proof.
  intros E Hl n. pose proof (build_spec rules cf) as H. rewrite E in H.
  destruct H as (_ & _ & _ & _ & _ & Hcf & ws & Hau). unfold aho_moderation_search.
  rewrite (proj2 (Nat.eqb_neq _ _)) by lia. rewrite search_from_word, Hcf.
  change (map (fun cp => fold_codepoint cp cf) (codepoints_from (length text) text 0)) with (folded cf text).
  rewrite (search_word_ok a ws (patterns cf rules) limit _ Hau 0 [] []); [done| |done| |done].
  - apply (tr_root _ _ (au_trie _ _ _ Hau)).
  - intros y _ Hy. apply suffix_nil_inv in Hy as ->. done.
Qed.

(** C40: a build either refuses, exactly when the rules are longer than 16384 bytes, more than 256, not
    all valid UTF-8, or have more than 2048 distinct prefixes, or returns an automaton in which
    every index is in bounds: one state per distinct prefix, edges to states other than the root
    with distinct code points, failure links to strictly shallower states (so that every walk
    along them ends), outputs that are rules.  The queue of the pass over the states never holds
    more entries than were allocated, each state once. *)
Theorem aho_moderation_build_wf rules cf :
  match aho_moderation_build (Some rules) cf with
  | Some a =>
      let n := length (states a) in
      n = length (prefixes (patterns cf rules)) /\ (n <= AHO_MODERATION_MAX_STATES)%nat /\ case_fold a = cf /\
      exists rank : nat -> nat, forall s, (s < n)%nat ->
        (forall cp t, (cp, t) ∈ st_edges (state_at a s) -> (0 < t < n)%nat /\ transition a s cp = Some t) /\
        (st_failure (state_at a s) < n)%nat /\ ((0 < s)%nat -> (rank (st_failure (state_at a s)) < rank s)%nat) /\
        Forall (fun r => r < length (rule_lines rules))%nat (st_outputs (state_at a s))
  | None => True
  end /\
  (aho_moderation_build (Some rules) cf = None <->
     AHO_MODERATION_RULES_MAX_BYTES < zlen rules \/ (AHO_MODERATION_MAX_RULES < length (rule_lines rules))%nat \/
     Exists (fun l => valid_utf8 l = false) (rule_lines rules) \/
     (AHO_MODERATION_MAX_STATES < length (prefixes (patterns cf rules)))%nat) /\
  (forall a, insert_lines (S (length rules)) rules 0 (AhoModeration [blank_state] cf) = Some a ->
     (length (fst (link_all a)) < length (states a))%nat /\ NoDup (fst (link_all a))).
Proof.
  pose proof (build_spec rules cf) as H. split; [|split; [|apply insert_lines_queue]].
  - destruct (aho_moderation_build (Some rules) cf) as [a|]; [|done].
    destruct H as (_ & _ & _ & Hmax & Hn & Hcf & ws & Hau). cbv zeta. split; [done|]. split; [lia|]. split; [done|].
    pose proof (au_trie _ _ _ Hau) as Ht.
    exists (depth ws). intros s Hs. split; [|split; [|split]].
    + intros cp t He. pose proof (proj1 (tr_edges _ _ Ht s cp t) He) as (w & Hw & Htw). split; [split|].
      * destruct t; [|lia]. rewrite (tr_root _ _ Ht) in Htw. by destruct w.
      * by apply (state_lt a ws Ht t (w ++ [cp])).
      * apply (transition_Some a ws Ht). eauto.
    + destruct s as [|s]; [by rewrite (au_root _ _ _ Hau)|]. by apply (automaton_rank ws _ a (S s) Hau); lia.
    + intros Hpos. by apply (automaton_rank ws _ a s Hau); lia.
    + pose proof (au_rules _ _ _ Hau s) as Hr. unfold patterns in Hr. by rewrite length_map in Hr.
  - destruct (aho_moderation_build (Some rules) cf) as [a|]; [|by split].
    destruct H as (H1 & H2 & H3 & H4 & _). split; [done|]. intros [?|[?|[He|?]]]; [lia|lia| |lia].
    apply Exists_exists in He as (l & Hl & Hv). rewrite Forall_forall in H3. by rewrite (H3 l Hl) in Hv.
Qed.

(** C7: the search is equivalent to the naive count: with a positive limit it returns the number of
    pairs of an end position in the text and a rule (with repetitions) whose folded code points
    end there, cut at the limit, and says whether the limit was reached; it is positive exactly
    when the folded text contains a folded rule. *)
Theorem aho_search_counts rules cf a text limit : aho_moderation_build (Some rules) cf = Some a -> (0 < limit)%nat ->
  let n := occurrences (patterns cf rules) (folded cf text) in
  aho_moderation_search (Some a) (Some text) limit = AhoMatchResult (Nat.min limit n) (limit <=? n)%nat /\
  ((0 < match_count (aho_moderation_search (Some a) (Some text) limit))%nat <->
     exists rule u v, rule ∈ rule_lines rules /\ folded cf text = u ++ folded cf rule ++ v).
Proof.
  intros E Hl n. rewrite (search_counts rules cf a text limit E Hl). split; [done|]. cbn [match_count].
  rewrite <- (occurrences_rule rules cf text). fold n. lia.
Qed.

Lemma aho_search_counts_witness : exists a,
  aho_moderation_build (Some (CS "he" ++ [10] ++ CS "SHE" ++ [13; 10] ++ CS "hers")) true = Some a /\
  aho_moderation_search (Some a) (Some (CS "uSHERS")) 2 = AhoMatchResult 2 true.
Proof.
  destruct (aho_moderation_build (Some (CS "he" ++ [10] ++ CS "SHE" ++ [13; 10] ++ CS "hers")) true) as [a|] eqn:E;
    [|vm_compute in E; discriminate].
  exists a. split; [done|]. destruct (aho_search_counts _ true a (CS "uSHERS") 2 E ltac:(lia)) as [H _]. cbv zeta in H.
  rewrite H. vm_compute. reflexivity.
Defined.
