(* ===== verification/SiteSettings.v ===== *)
(** * The settings of the site (db_site_setting_get and db_site_setting_set of src/src/db/db.c)

    A table from keys to texts; a write that fails leaves it alone.  Several settings are written one
    after the other, without a transaction. *)
From S2P Require Import Prelude CStr.

Abbreviation settings := (gmap string (list Z)).

(** [snprintf] cuts the value to the buffer. *)
Definition db_site_setting_get (db : settings) (key : string) (cap : nat) : option cstr := snprintf_s cap <$> db !! key.
Definition db_site_setting_set (ok : bool) (key : string) (value : cstr) (db : settings) : bool * settings :=
  (ok, if ok then <[key := value]> db else db).

(** The settings written one after the other until one fails; [ok i] tells whether the [i]th write
    succeeds. *)
Fixpoint write_settings (ok : nat -> bool) (i : nat) (kvs : list (string * cstr)) (db : settings) : bool * settings :=
  match kvs with
  | [] => (true, db)
  | (k, v) :: kvs' =>
      let '(done, db') := db_site_setting_set (ok i) k v db in
      if done : bool then write_settings ok (S i) kvs' db' else (false, db')
  end.

(** ** Writing several settings *)

Lemma write_settings_all ok kvs : forall i db db', write_settings ok i kvs db = (true, db') ->
  db' = foldl (fun db kv => <[kv.1 := kv.2]> db) db kvs.
Proof.
  induction kvs as [|[k v] kvs IH]; intros i db db' H; cbn in *; [congruence|].
  destruct (ok i); cbn in H; [|done]. by apply IH in H.
Qed.

(** When a write fails the settings before it are in force. *)
Lemma write_settings_failed ok kvs : forall i db db', write_settings ok i kvs db = (false, db') ->
  exists n, (n < length kvs)%nat /\ db' = foldl (fun db kv => <[kv.1 := kv.2]> db) db (take n kvs).
Proof.
  induction kvs as [|[k v] kvs IH]; intros i db db' H; cbn in *; [done|].
  destruct (ok i); cbn in H.
  - apply IH in H as (n & Hn & ->). exists (S n). split; [lia|done].
  - injection H as <-. exists 0%nat. split; [lia|done].
Qed.
