(* ===== verification/ModerationFilter.v ===== *)
(** * The moderation filter (src/src/utils/moderation_filter.c)

    The policy is shared by the worker processes under a lock with a generation number; every
    process keeps its own automaton and rebuilds it when the generation has changed.  A check is
    three critical sections: a snapshot of the policy, the reload, the search; threads of any
    process are interleaved at these sections, and a change of the policy is one step, since checks
    read nothing but the published policy.  The settings table
    is a map; a write that fails leaves it alone.  Shared memory that cannot be mapped and a build
    that runs out of memory are not modelled. *)
From S2P Require Import Prelude CStr SiteSettings Aho.

Definition MODERATION_FILTER_MATCH_LIMIT_DEFAULT : nat := 64.
Definition MODERATION_FILTER_MATCH_LIMIT_MAX : nat := 1024.

Inductive moderation_filter_action := MODERATION_FILTER_PENDING | MODERATION_FILTER_REJECT.

Record moderation_filter_policy := FilterPolicy {
  mf_enabled : bool;
  mf_action : moderation_filter_action;
  mf_case_fold : bool;
  mf_match_limit : nat;
  mf_rules : cstr;
}.

Record shared_filter := SharedFilter { sf_generation : Z; sf_policy : moderation_filter_policy }.

(** The automaton of a process. *)
Record process_matcher := ProcessMatcher {
  matcher : option aho_moderation;
  loaded_generation : Z;
  have_generation : bool;
}.
Definition no_matcher : process_matcher := ProcessMatcher None 0 false.

Definition publish (p : moderation_filter_policy) (s : shared_filter) : shared_filter :=
  SharedFilter (u32 (sf_generation s + 1)) p.

Definition snapshot (s : shared_filter) : moderation_filter_policy * Z := (sf_policy s, sf_generation s).

Definition valid_policy (p : moderation_filter_policy) : bool :=
  if (mf_match_limit p =? 0)%nat || (MODERATION_FILTER_MATCH_LIMIT_MAX <? mf_match_limit p)%nat ||
     (AHO_MODERATION_RULES_MAX_BYTES <? zlen (mf_rules p)) then false
  else match aho_moderation_build (Some (mf_rules p)) (mf_case_fold p) with Some _ => true | None => false end.

(** ** The settings *)

Definition KEY_ENABLED : string := "moderation_filter_enabled".
Definition KEY_ACTION : string := "moderation_filter_action".
Definition KEY_CASE_FOLD : string := "moderation_filter_case_fold".
Definition KEY_MATCH_LIMIT : string := "moderation_filter_match_limit".
Definition KEY_RULES : string := "moderation_filter_rules".

Definition init_enabled (db : settings) : bool :=
  match db_site_setting_get db KEY_ENABLED 32 with Some v => streq v (CS "1") | None => false end.

(** The action and whether it is known; an unknown one disables the filter. *)
Definition init_action (db : settings) (enabled : bool) : moderation_filter_action * bool :=
  match db_site_setting_get db KEY_ACTION 32 with
  | Some v => if streq v (CS "reject") then (MODERATION_FILTER_REJECT, enabled)
              else if streq v (CS "pending") then (MODERATION_FILTER_PENDING, enabled)
              else (MODERATION_FILTER_PENDING, false)
  | None => (MODERATION_FILTER_PENDING, enabled)
  end.

Definition init_match_limit (db : settings) (enabled : bool) : nat * bool :=
  match db_site_setting_get db KEY_MATCH_LIMIT 32 with
  | Some v =>
      let limit := atoi v in
      if (limit <=? 0) || (Z.of_nat MODERATION_FILTER_MATCH_LIMIT_MAX <? limit)
      then (MODERATION_FILTER_MATCH_LIMIT_DEFAULT, false)
      else (Z.to_nat limit, enabled)
  | None => (MODERATION_FILTER_MATCH_LIMIT_DEFAULT, enabled)
  end.

Definition moderation_filter_init (db : settings) (s : shared_filter) : shared_filter :=
  let enabled := init_enabled db in
  let '(action, enabled) := init_action db enabled in
  let fold := match db_site_setting_get db KEY_CASE_FOLD 32 with Some v => streq v (CS "simple") | None => false end in
  let '(limit, enabled) := init_match_limit db enabled in
  let rules := default [] (db_site_setting_get db KEY_RULES (Z.to_nat (AHO_MODERATION_RULES_MAX_BYTES + 1))) in
  let policy := FilterPolicy enabled action fold limit rules in
  publish (if valid_policy policy then policy else FilterPolicy false action fold limit rules) s.

Definition action_name (a : moderation_filter_action) : cstr :=
  match a with MODERATION_FILTER_REJECT => CS "reject" | MODERATION_FILTER_PENDING => CS "pending" end.

Definition policy_rows (p : moderation_filter_policy) : list (string * cstr) :=
  [(KEY_ENABLED, if mf_enabled p then CS "1" else CS "0");
   (KEY_ACTION, action_name (mf_action p));
   (KEY_CASE_FOLD, if mf_case_fold p then CS "simple" else CS "exact");
   (KEY_MATCH_LIMIT, snprintf_s 16 (print_dec (Z.of_nat (mf_match_limit p))));
   (KEY_RULES, mf_rules p)].

Definition moderation_filter_set (ok : nat -> bool) (p : moderation_filter_policy) (db : settings) (s : shared_filter) :
    bool * settings * shared_filter :=
  if negb (valid_policy p) then (false, db, s)
  else
    let '(written, db') := write_settings ok 0 (policy_rows p) db in
    if written : bool then (true, db', publish p s) else (false, db', s).

(** ** The check *)

Definition reload_if_needed (p : moderation_filter_policy) (generation : Z) (m : process_matcher) : process_matcher :=
  if negb (have_generation m) || negb (loaded_generation m =? generation)
  then ProcessMatcher (aho_moderation_build (Some (mf_rules p)) (mf_case_fold p)) generation true
  else m.

Definition search_matcher (m : process_matcher) (p : moderation_filter_policy) (content : cstr) : bool :=
  match matcher m with
  | Some a => (0 <? match_count (aho_moderation_search (Some a) (Some content) (mf_match_limit p)))%nat
  | None => false
  end.

(** The first critical section of a check: the policy and its generation, [None] when nothing is to
    be searched for. *)
Definition check_snapshot (content : option cstr) (s : shared_filter) : option (cstr * moderation_filter_policy * Z) :=
  let '(p, generation) := snapshot s in
  match content with
  | Some content => if negb (mf_enabled p) then None else Some (content, p, generation)
  | None => None
  end.

(** The last one: the verdict, and the action of a match. *)
Definition check_search (content : cstr) (p : moderation_filter_policy) (m : process_matcher) : bool * option moderation_filter_action :=
  let matched := search_matcher m p content in (matched, if matched then Some (mf_action p) else None).

(** A whole check, and the matcher of the process after it.  The lock of the matcher is released
    between the snapshot, the reload and the search: [others 0] and [others 1] are what the other
    threads of the process have done to the matcher in the two gaps. *)
Definition moderation_filter_check (others : nat -> process_matcher -> process_matcher) (content : option cstr) (s : shared_filter)
    (m : process_matcher) : bool * option moderation_filter_action * process_matcher :=
  match check_snapshot content s with
  | Some (content, p, generation) =>
      let m := others 1%nat (reload_if_needed p generation (others 0%nat m)) in
      let '(matched, action) := check_search content p m in (matched, action, m)
  | None => (false, None, m)
  end.

(** The gaps of a check that no other thread of its process runs beside. *)
Definition alone (gap : nat) (m : process_matcher) : process_matcher := m.

(** ** Interleavings of checks *)

(** How far a check has come: nothing begun, the policy read, the matcher reloaded, its answer. *)
Inductive check_state :=
| Check_idle
| Check_loading (content : cstr) (p : moderation_filter_policy) (generation : Z)
| Check_searching (content : cstr) (p : moderation_filter_policy)
| Check_done (matched : bool) (action : option moderation_filter_action).

Definition loading (c : check_state) : bool := match c with Check_loading _ _ _ => true | _ => false end.
Definition running (c : check_state) : bool := match c with Check_loading _ _ _ | Check_searching _ _ => true | _ => false end.

(** The settings, the shared policy, the matcher of each process and the check of each of its threads. *)
Record world := World {
  w_db : settings;
  w_shared : shared_filter;
  w_matchers : nat -> process_matcher;
  w_checks : nat -> nat -> check_state;
}.

Definition set_check (process thread : nat) (c : check_state) (w : world) : world :=
  World (w_db w) (w_shared w) (w_matchers w)
    (fun i j => if (i =? process)%nat && (j =? thread)%nat then c else w_checks w i j).
Definition set_matcher (process : nat) (m : process_matcher) (w : world) : world :=
  World (w_db w) (w_shared w) (fun i => if (i =? process)%nat then m else w_matchers w i) (w_checks w).

Inductive event :=
| Set_policy (ok : nat -> bool) (p : moderation_filter_policy)
| Begin_check (process thread : nat) (content : option cstr)
| Reload_matcher (process thread : nat)
| Search_content (process thread : nat).

(** One critical section of some thread; a thread goes through its sections in order. *)
Definition step (w : world) (e : event) : world :=
  match e with
  | Set_policy ok p => let '(_, db, s) := moderation_filter_set ok p (w_db w) (w_shared w) in World db s (w_matchers w) (w_checks w)
  | Begin_check i t content =>
      if running (w_checks w i t) then w
      else match check_snapshot content (w_shared w) with
           | Some (content, p, generation) => set_check i t (Check_loading content p generation) w
           | None => set_check i t (Check_done false None) w
           end
  | Reload_matcher i t =>
      match w_checks w i t with
      | Check_loading content p generation =>
          set_check i t (Check_searching content p) (set_matcher i (reload_if_needed p generation (w_matchers w i)) w)
      | _ => w
      end
  | Search_content i t =>
      match w_checks w i t with
      | Check_searching content p =>
          let '(matched, action) := check_search content p (w_matchers w i) in set_check i t (Check_done matched action) w
      | _ => w
      end
  end.

Definition run (events : list event) (w : world) : world := foldl step w events.

(** The server just started on its settings. *)
Definition started (db : settings) : world :=
  World db (moderation_filter_init db (SharedFilter 0 (FilterPolicy false MODERATION_FILTER_PENDING false 0 [])))
    (fun _ => no_matcher) (fun _ _ => Check_idle).

Definition is_set (e : event) : bool := match e with Set_policy _ _ => true | _ => false end.
(** The event reloads the matcher of the process, or belongs to the thread. *)
Definition reloads (process : nat) (e : event) : bool := match e with Reload_matcher i _ => (i =? process)%nat | _ => false end.
Definition of_thread (process thread : nat) (e : event) : bool :=
  match e with
  | Set_policy _ _ => false
  | Begin_check i t _ | Reload_matcher i t | Search_content i t => (i =? process)%nat && (t =? thread)%nat
  end.

(** The specification of a match. *)
Definition contains_rule (p : moderation_filter_policy) (content : cstr) : Prop :=
  exists rule u v, rule ∈ rule_lines (mf_rules p) /\
    folded (mf_case_fold p) content = u ++ folded (mf_case_fold p) rule ++ v.

(** What a thread holds: a policy that was published, enabled and valid. *)
Definition check_ok (hist : Z -> moderation_filter_policy) (generation : Z) (c : check_state) : Prop :=
  match c with
  | Check_loading _ p g => 1 <= g <= generation /\ hist g = p /\ mf_enabled p = true /\ valid_policy p = true
  | Check_searching _ p => mf_enabled p = true /\ valid_policy p = true
  | _ => True
  end.

(** What is published is valid when it is enabled, every matcher is the automaton of a valid policy
    that was published with its generation; [P] holds of what was ever in force. *)
Record world_ok (P : moderation_filter_policy -> Prop) (hist : Z -> moderation_filter_policy) (w : world) : Prop := {
  wo_current : hist (sf_generation (w_shared w)) = sf_policy (w_shared w);
  wo_valid : mf_enabled (sf_policy (w_shared w)) = true -> valid_policy (sf_policy (w_shared w)) = true;
  wo_matchers : forall i, have_generation (w_matchers w i) = true ->
    1 <= loaded_generation (w_matchers w i) <= sf_generation (w_shared w) /\
    valid_policy (hist (loaded_generation (w_matchers w i))) = true /\
    matcher (w_matchers w i) = aho_moderation_build (Some (mf_rules (hist (loaded_generation (w_matchers w i)))))
                                 (mf_case_fold (hist (loaded_generation (w_matchers w i))));
  wo_checks : forall i t, check_ok hist (sf_generation (w_shared w)) (w_checks w i t);
  wo_past : forall g, 1 <= g <= sf_generation (w_shared w) -> P (hist g);
  wo_generation : 1 <= sf_generation (w_shared w);
}.

Lemma reload_ok P hist w i g : world_ok P hist w ->
  let m := reload_if_needed (hist g) g (w_matchers w i) in
  have_generation m = true /\ loaded_generation m = g /\
  matcher m = aho_moderation_build (Some (mf_rules (hist g))) (mf_case_fold (hist g)).
Proof.
  intros Hok. unfold reload_if_needed.
  destruct (have_generation (w_matchers w i)) eqn:Eh; [|done].
  destruct (Z.eqb_spec (loaded_generation (w_matchers w i)) g) as [E|E]; [|done].
  cbn [negb orb]. destruct (wo_matchers _ _ _ Hok i Eh) as (_ & _ & Hb). by rewrite Eh, E in *.
Qed.

Lemma set_check_ok P hist w i t c : world_ok P hist w -> check_ok hist (sf_generation (w_shared w)) c ->
  world_ok P hist (set_check i t c w).
Proof.
  intros Hok Hc. destruct Hok as [H1 H2 H3 H4 H5 H6]. split; cbn; try done. intros i' t'.
  by destruct ((i' =? i)%nat && (t' =? t)%nat).
Qed.

Lemma set_matcher_ok P hist w i g : world_ok P hist w -> 1 <= g <= sf_generation (w_shared w) -> valid_policy (hist g) = true ->
  world_ok P hist (set_matcher i (reload_if_needed (hist g) g (w_matchers w i)) w).
Proof.
  intros Hok Hg Hv. pose proof (reload_ok P hist w i g Hok) as (Hh & Hl & Hm).
  destruct Hok as [H1 H2 H3 H4 H5 H6]. split; cbn; try done. intros j Hj.
  destruct (Nat.eqb_spec j i) as [E|]; [|by apply H3]. by rewrite Hl, Hm.
Qed.

(** A new policy gets a new generation; the history of the older ones stays. *)
Lemma publish_ok P hist w p db : world_ok P hist w -> valid_policy p = true -> P p -> sf_generation (w_shared w) + 1 < 2 ^ 32 ->
  exists hist', world_ok P hist' (World db (publish p (w_shared w)) (w_matchers w) (w_checks w)) /\
    forall g, g <= sf_generation (w_shared w) -> hist' g = hist g.
Proof.
  intros [Hc Hv Hm Hk Hp Hg] Ev HP Hlt. set (g := sf_generation (w_shared w)) in *.
  exists (fun k => if k =? g + 1 then p else hist k).
  assert (Hold : forall k, k <= g -> (if k =? g + 1 then p else hist k) = hist k)
    by (intros k Hle; destruct (Z.eqb_spec k (g + 1)); [lia|done]).
  split; [|done]. unfold publish. cbn. fold g. split; cbn; rewrite ?u32_small by lia.
  - by rewrite Z.eqb_refl.
  - done.
  - intros j Hj. destruct (Hm j Hj) as [Hle Hb]. rewrite Hold by lia. split; [lia|done].
  - intros i t. specialize (Hk i t). unfold check_ok in *. destruct (w_checks w i t); try done.
    rewrite Hold by lia. split; [lia|]. apply Hk.
  - intros k Hle. destruct (Z.eqb_spec k (g + 1)); [done|apply Hp; lia].
  - lia.
Qed.

Lemma step_ok P hist w e : world_ok P hist w -> P (sf_policy (w_shared (step w e))) ->
  (is_set e = true -> sf_generation (w_shared w) + 1 < 2 ^ 32) ->
  exists hist', world_ok P hist' (step w e) /\ (forall g, g <= sf_generation (w_shared w) -> hist' g = hist g) /\
    sf_generation (w_shared w) <= sf_generation (w_shared (step w e)) <= sf_generation (w_shared w) + (if is_set e then 1 else 0).
Proof.
  intros Hok HP Hlt. pose proof (wo_generation _ _ _ Hok) as Hge. destruct e as [ok p|i t content|i t|i t]; cbn [is_set] in *.
  - cbn [step] in *. revert HP. unfold moderation_filter_set.
    assert (Hsame : forall db, world_ok P hist (World db (w_shared w) (w_matchers w) (w_checks w))) by (by destruct Hok).
    destruct (valid_policy p) eqn:Ev; cbn [negb]. 2: { intros _. exists hist. split; [apply Hsame|split; [done|cbn; lia]]. }
    destruct (write_settings ok 0 (policy_rows p) (w_db w)) as [[|] db'].
    2: { intros _. exists hist. split; [apply Hsame|split; [done|cbn; lia]]. }
    intros HP. destruct (publish_ok P hist w p db' Hok Ev HP (Hlt eq_refl)) as (hist' & H1 & H2).
    exists hist'. split; [done|]. split; [done|]. cbn. rewrite u32_small by (pose proof (Hlt eq_refl); lia). lia.
  - exists hist. cbn [step] in *. destruct (running (w_checks w i t)); [split; [done|split; [done|lia]]|].
    destruct content as [content|]; cbn; [destruct (mf_enabled (sf_policy (w_shared w))) eqn:Een|]; cbn [negb];
      (split; [|split; [done|cbn; lia]]); apply set_check_ok; try done.
    cbn. rewrite (wo_current _ _ _ Hok). pose proof (wo_valid _ _ _ Hok Een). repeat split; try done; lia.
  - exists hist. cbn [step] in *. pose proof (wo_checks _ _ _ Hok i t) as Hc.
    destruct (w_checks w i t) as [|content p g| |] eqn:Ec; (split; [|split; [done|cbn; lia]]); try done.
    destruct Hc as (Hg & Hp & He & Hv). subst p. apply set_check_ok; [by apply set_matcher_ok|done].
  - exists hist. cbn [step] in *. destruct (w_checks w i t); (split; [|split; [done|cbn; lia]]); try done. by apply set_check_ok.
Qed.

Lemma run_ok P events : forall hist w, world_ok P hist w ->
  (forall k, P (sf_policy (w_shared (run (take k events) w)))) ->
  sf_generation (w_shared w) + Z.of_nat (countb is_set events) < 2 ^ 32 ->
  exists hist', world_ok P hist' (run events w) /\ (forall g, g <= sf_generation (w_shared w) -> hist' g = hist g) /\
    sf_generation (w_shared w) <= sf_generation (w_shared (run events w)) <=
      sf_generation (w_shared w) + Z.of_nat (countb is_set events).
Proof.
  induction events as [|e events IH]; intros hist w Hok HP Hlt; [exists hist; split; [done|split; [done|cbn; lia]]|]. cbn [run foldl countb] in *.
  destruct (step_ok P hist w e Hok (HP 1%nat)) as (hist' & Hok' & Hh' & Hg').
  { intros E. rewrite E in Hlt. lia. }
  destruct (IH hist' (step w e) Hok' (fun k => HP (S k))) as (hist2 & Hok2 & Hh2 & Hg2).
  { destruct (is_set e); lia. }
  exists hist2. split; [done|]. split; [|unfold run in Hg2; destruct (is_set e); lia]. intros g Hg. rewrite Hh2 by lia. by apply Hh'.
Qed.

Lemma started_ok (P : moderation_filter_policy -> Prop) db : P (sf_policy (w_shared (started db))) -> exists hist, world_ok P hist (started db).
Proof.
  intros HP. exists (fun _ => sf_policy (w_shared (started db))). revert HP.
  unfold started, moderation_filter_init. destruct (init_action db (init_enabled db)) as [action en].
  destruct (init_match_limit db en) as [limit en']. set (p := FilterPolicy en' action _ limit _).
  intros HP. split; cbn; try done. by destruct (valid_policy p) eqn:E.
Qed.

Lemma started_generation db : sf_generation (w_shared (started db)) = 1.
Proof.
  unfold started, moderation_filter_init. destruct (init_action db (init_enabled db)). by destruct (init_match_limit db _).
Qed.

Lemma valid_policy_build p : valid_policy p = true -> (0 < mf_match_limit p)%nat /\
  exists a, aho_moderation_build (Some (mf_rules p)) (mf_case_fold p) = Some a.
Proof.
  unfold valid_policy. destruct (Nat.eqb_spec (mf_match_limit p) 0); [done|]. cbn [orb].
  destruct ((MODERATION_FILTER_MATCH_LIMIT_MAX <? mf_match_limit p)%nat || _); [done|].
  destruct (aho_moderation_build _ _) as [a|]; [|done]. intros _. split; [lia|by exists a].
Qed.

(** A search decides by the policy of the matcher the process has loaded at that moment. *)
Lemma search_exact P hist w i content p : world_ok P hist w -> have_generation (w_matchers w i) = true -> valid_policy p = true ->
  (fst (check_search content p (w_matchers w i)) = true <-> contains_rule (hist (loaded_generation (w_matchers w i))) content).
Proof.
  intros Hok Hh Hv. destruct (wo_matchers _ _ _ Hok i Hh) as (_ & Hq & Hm). destruct (valid_policy_build p Hv) as [Hlim _].
  set (q := hist (loaded_generation (w_matchers w i))) in *. destruct (valid_policy_build q Hq) as [_ [a Ha]].
  unfold check_search, search_matcher. rewrite Hm, Ha. cbn [fst]. rewrite Nat.ltb_lt.
  rewrite (search_counts (mf_rules q) (mf_case_fold q) a content _ Ha Hlim). cbn [match_count].
  unfold contains_rule. rewrite <- occurrences_rule. lia.
Qed.

(** ** What the other threads leave alone *)

Lemma step_other w e i t : of_thread i t e = false -> w_checks (step w e) i t = w_checks w i t.
Proof.
  assert (Hset : forall w c i' t', (i' =? i)%nat && (t' =? t)%nat = false -> w_checks (set_check i' t' c w) i t = w_checks w i t).
  { intros w' c i' t' E. cbn. by rewrite (Nat.eqb_sym i i'), (Nat.eqb_sym t t'), E. }
  destruct e as [ok p|i' t' content|i' t'|i' t']; cbn [of_thread step]; intros E.
  - by destruct (moderation_filter_set _ _ _ _) as [[? ?] ?].
  - destruct (running _); [done|]. destruct (check_snapshot content (w_shared w)) as [[[? ?] ?]|]; by rewrite Hset.
  - destruct (w_checks w i' t'); try done. by rewrite Hset.
  - destruct (w_checks w i' t'); try done. destruct (check_search _ _ _). by rewrite Hset.
Qed.

Lemma run_other events : forall w i t, Forall (fun e => of_thread i t e = false) events -> w_checks (run events w) i t = w_checks w i t.
Proof.
  induction events as [|e events IH]; intros w i t H; [done|]. apply Forall_cons in H as [He H]. cbn [run foldl].
  unfold run in IH. rewrite IH by done. by apply step_other.
Qed.

Lemma step_matcher w e i : reloads i e = false -> w_matchers (step w e) i = w_matchers w i.
Proof.
  destruct e as [ok p|i' t' content|i' t'|i' t']; cbn [reloads step]; intros E.
  - by destruct (moderation_filter_set _ _ _ _) as [[? ?] ?].
  - destruct (running _); [done|]. by destruct (check_snapshot content (w_shared w)) as [[[? ?] ?]|].
  - destruct (w_checks w i' t'); try done. cbn. by rewrite Nat.eqb_sym, E.
  - by destruct (w_checks w i' t').
Qed.

Lemma run_matcher events : forall w i, Forall (fun e => reloads i e = false) events -> w_matchers (run events w) i = w_matchers w i.
Proof.
  induction events as [|e events IH]; intros w i H; [done|]. apply Forall_cons in H as [He H]. cbn [run foldl].
  unfold run in IH. rewrite IH by done. by apply step_matcher.
Qed.

(** The matcher of a process once loaded stays loaded. *)
Lemma reload_loaded p g m : have_generation (reload_if_needed p g m) = true.
Proof. unfold reload_if_needed. destruct (have_generation m) eqn:E; [by destruct (_ =? _)|done]. Qed.

Lemma step_loaded w e i : have_generation (w_matchers w i) = true -> have_generation (w_matchers (step w e) i) = true.
Proof.
  intros H. destruct (reloads i e) eqn:E; [|by rewrite step_matcher]. destruct e as [| |i' t'|]; try done. cbn in E |- *.
  apply Nat.eqb_eq in E as ->. destruct (w_checks w i t'); try done. cbn. rewrite Nat.eqb_refl. apply reload_loaded.
Qed.

Lemma run_loaded events : forall w i, have_generation (w_matchers w i) = true -> have_generation (w_matchers (run events w) i) = true.
Proof. induction events as [|e events IH]; intros w i H; [done|]. apply IH. by apply step_loaded. Qed.

(** Nothing older than the generation [g] is on its way to the matcher of the process. *)
Record quiet (g : Z) (i : nat) (w : world) : Prop := {
  qu_shared : sf_generation (w_shared w) = g;
  qu_checks : forall t content p g', w_checks w i t = Check_loading content p g' -> g' = g;
}.

Lemma quiet_set g i w i' t' c : quiet g i w -> (forall content p g', c = Check_loading content p g' -> g' = g) ->
  quiet g i (set_check i' t' c w).
Proof.
  intros [H1 H2] Hc. split; [done|]. intros t content p g'. cbn. destruct (_ && _); [apply Hc|apply H2].
Qed.

Lemma quiet_step g i w e : quiet g i w -> is_set e = false ->
  quiet g i (step w e) /\ (loaded_generation (w_matchers w i) = g -> have_generation (w_matchers w i) = true ->
                           loaded_generation (w_matchers (step w e) i) = g).
Proof.
  intros Hq He. destruct e as [ok p|i' t content|i' t|i' t]; [done| | |]; cbn [step].
  - split; [|by destruct (running _); [|destruct (check_snapshot _ _) as [[[? ?] ?]|]]].
    destruct (running _); [done|]. unfold check_snapshot, snapshot.
    destruct content as [content|]; [destruct (mf_enabled _)|]; cbn [negb]; apply quiet_set; try done.
    intros ? ? g' [= <- <- <-]. apply (qu_shared _ _ _ Hq).
  - destruct (w_checks w i' t) as [|content p g0| |] eqn:Ec; try done. split.
    + apply quiet_set; [|done]. destruct Hq as [H1 H2]. by split.
    + intros Hl Hh. cbn. destruct (Nat.eqb_spec i i') as [<-|]; [|done].
      pose proof (qu_checks _ _ _ Hq _ _ _ _ Ec) as ->. unfold reload_if_needed. by rewrite Hh, Hl, Z.eqb_refl.
  - destruct (w_checks w i' t) as [| | |]; try done. split; [|done]. by apply quiet_set.
Qed.

Lemma quiet_run events : forall g i w, quiet g i w -> Forall (fun e => is_set e = false) events ->
  quiet g i (run events w) /\ (loaded_generation (w_matchers w i) = g -> have_generation (w_matchers w i) = true ->
                               loaded_generation (w_matchers (run events w) i) = g).
Proof.
  induction events as [|e events IH]; intros g i w Hq H; [done|]. apply Forall_cons in H as [He H].
  destruct (quiet_step g i w e Hq He) as [Hq' Hl']. destruct (IH g i (step w e) Hq' H) as [H1 H2].
  split; [done|]. intros Hl Hh. apply H2; [by apply Hl'|by apply step_loaded].
Qed.



(** The moments of a check of a thread: before it, after its snapshot and the events [mid1] of others,
    after its reload and the events [mid2] of others, and after its search. *)
Record check_run := CheckRun { cr_before : list event; cr_mid1 : list event; cr_mid2 : list event }.

Definition check_events (process thread : nat) (content : cstr) (r : check_run) : list event :=
  cr_before r ++ [Begin_check process thread (Some content)] ++ cr_mid1 r ++ [Reload_matcher process thread] ++ cr_mid2 r ++
  [Search_content process thread].

(** The thread is free at the start and does nothing else meanwhile. *)
Definition check_of (process thread : nat) (db : settings) (r : check_run) : Prop :=
  running (w_checks (run (cr_before r) (started db)) process thread) = false /\
  Forall (fun e => of_thread process thread e = false) (cr_mid1 r ++ cr_mid2 r).

Lemma run_app es1 es2 w : run (es1 ++ es2) w = run es2 (run es1 w).
Proof. apply foldl_app. Qed.

(** What the thread reports at the end: with the filter disabled nothing, else what the search says of the matcher then. *)
Lemma check_run_result db r i t content : check_of i t db r ->
  let p := sf_policy (w_shared (run (cr_before r) (started db))) in
  let w1 := run ([Begin_check i t (Some content)] ++ cr_mid1 r) (run (cr_before r) (started db)) in
  let w2 := run (cr_mid2 r) (step w1 (Reload_matcher i t)) in
  w_checks (run (check_events i t content r) (started db)) i t =
    (if mf_enabled p then let '(matched, action) := check_search content p (w_matchers w2 i) in Check_done matched action
     else Check_done false None) /\
  (mf_enabled p = true -> w_checks w1 i t = Check_loading content p (sf_generation (w_shared (run (cr_before r) (started db))))).
Proof.
  intros [Hrun Hmid] p w1 w2. apply Forall_app in Hmid as [Hm1 Hm2].
  set (w0 := run (cr_before r) (started db)) in *.
  assert (E : run (check_events i t content r) (started db) = step w2 (Search_content i t)).
  { unfold check_events, w2, w1, w0. by rewrite !run_app. }
  assert (E1 : w_checks w1 i t = if mf_enabled p then Check_loading content p (sf_generation (w_shared w0)) else Check_done false None).
  { unfold w1. rewrite run_app, run_other by done. change (run ?l w0) with (step w0 (Begin_check i t (Some content))).
    cbn [step]. rewrite Hrun. unfold check_snapshot, snapshot. fold p. destruct (mf_enabled p); cbn; by rewrite !Nat.eqb_refl. }
  assert (E2 : w_checks w2 i t = if mf_enabled p then Check_searching content p else Check_done false None).
  { unfold w2. rewrite run_other by done. cbn [step]. rewrite E1. destruct (mf_enabled p); [|done]. cbn. by rewrite !Nat.eqb_refl. }
  rewrite E. cbn [step]. rewrite E2. split; [|by intros He; rewrite E1, He].
  destruct (mf_enabled p); [|done]. destruct (check_search content p (w_matchers w2 i)) as [m a]. cbn. by rewrite !Nat.eqb_refl.
Qed.

(** The policy of the matcher at the end of an enabled check, and when it is that of the snapshot. *)
Lemma check_run_loaded db r i t content : check_of i t db r -> Z.of_nat (countb is_set (check_events i t content r)) < 2 ^ 32 - 1 ->
  let w0 := run (cr_before r) (started db) in
  let p := sf_policy (w_shared w0) in
  let w1 := run ([Begin_check i t (Some content)] ++ cr_mid1 r) w0 in
  let w2 := run (cr_mid2 r) (step w1 (Reload_matcher i t)) in
  mf_enabled p = true ->
  exists q, (fst (check_search content p (w_matchers w2 i)) = true <-> contains_rule q content) /\
    (exists k, q = sf_policy (w_shared (run (take k (check_events i t content r)) (started db)))) /\
    (Forall (fun e => reloads i e = false) (cr_mid2 r) -> q = p) /\
    (Forall (fun e => is_set e = false) (cr_mid1 r ++ cr_mid2 r) -> (forall t', loading (w_checks w0 i t') = false) -> q = p).
Proof.
  intros Hof Hn w0 p w1 w2 He. destruct (check_run_result db r i t content Hof) as [_ Hl]. fold w0 p w1 in Hl. specialize (Hl He).
  set (es := check_events i t content r) in *. set (P := fun q => exists k, q = sf_policy (w_shared (run (take k es) (started db)))).
  assert (HP : forall pre suf, es = pre ++ suf -> P (sf_policy (w_shared (run pre (started db))))).
  { intros pre suf E. exists (length pre). by rewrite E, take_app_length. }
  assert (Hseg : forall pre seg suf k, es = pre ++ seg ++ suf -> P (sf_policy (w_shared (run (take k seg) (run pre (started db)))))).
  { intros pre seg suf k E. rewrite <- run_app. apply (HP (pre ++ take k seg) (drop k seg ++ suf)).
    by rewrite <- app_assoc, (app_assoc (take k seg)), take_drop. }
  destruct (started_ok P db (HP [] es eq_refl)) as [h0 Hok0]. assert (Hg0 : sf_generation (w_shared (started db)) = 1) by apply started_generation.
  assert (Hcount : (countb is_set (cr_before r) + countb is_set (cr_mid1 r) + countb is_set (cr_mid2 r) = countb is_set es)%nat).
  { unfold es, check_events. rewrite !countb_app. cbn. lia. }
  destruct (run_ok P (cr_before r) h0 _ Hok0 (fun k => Hseg [] _ _ k eq_refl)) as (hw0 & Hw0 & _ & Hb0); [lia|]. fold w0 in Hw0, Hb0.
  destruct (run_ok P ([Begin_check i t (Some content)] ++ cr_mid1 r) hw0 w0 Hw0) as (hw1 & Hw1 & _ & Hb1).
  { intros k. apply (Hseg (cr_before r) _ ([Reload_matcher i t] ++ cr_mid2 r ++ [Search_content i t])). unfold es, check_events. by rewrite !app_assoc. }
  { rewrite countb_app. cbn [countb is_set]. lia. }
  fold w1 in Hw1, Hb1. rewrite countb_app in Hb1. cbn [countb is_set] in Hb1.
  assert (E2 : w2 = run ([Reload_matcher i t] ++ cr_mid2 r) w1) by (by rewrite run_app).
  destruct (run_ok P ([Reload_matcher i t] ++ cr_mid2 r) hw1 w1 Hw1) as (hw2 & Hw2 & Hsame & Hb2).
  { intros k. assert (E1 : w1 = run (cr_before r ++ [Begin_check i t (Some content)] ++ cr_mid1 r) (started db)) by (by rewrite run_app).
    rewrite E1. apply (Hseg _ _ [Search_content i t]). unfold es, check_events. by rewrite !app_assoc. }
  { rewrite countb_app. cbn [countb is_set]. lia. }
  rewrite <- E2 in Hw2. pose proof (wo_checks _ _ _ Hw1 i t) as Hck. rewrite Hl in Hck. destruct Hck as (Hg & Hp & _ & Hv).
  set (g := sf_generation (w_shared w0)) in *.
  assert (Hload : have_generation (w_matchers (step w1 (Reload_matcher i t)) i) = true /\
                  loaded_generation (w_matchers (step w1 (Reload_matcher i t)) i) = g).
  { cbn [step]. rewrite Hl. cbn. rewrite Nat.eqb_refl, <- Hp. pose proof (reload_ok P hw1 w1 i g Hw1) as (H1 & H2 & _). done. }
  destruct Hload as [Hh Hlg]. assert (Hh2 : have_generation (w_matchers w2 i) = true) by (by apply run_loaded).
  exists (hw2 (loaded_generation (w_matchers w2 i))). split; [by apply (search_exact P)|].
  split; [apply (wo_past _ _ _ Hw2), (wo_matchers _ _ _ Hw2 i Hh2)|].
  assert (Hq : loaded_generation (w_matchers w2 i) = g -> hw2 (loaded_generation (w_matchers w2 i)) = p).
  { intros ->. by rewrite Hsame by lia. }
  split; [intros Hm2; apply Hq; unfold w2; by rewrite run_matcher|]. intros Hns Hidle. apply Hq.
  apply Forall_app in Hns as [Hn1 Hn2]. assert (Hqu : quiet g i w0).
  { split; [done|]. intros t' c p' g' E. specialize (Hidle t'). by rewrite E in Hidle. }
  destruct (quiet_run ([Begin_check i t (Some content)] ++ cr_mid1 r) g i w0 Hqu) as [Hq1 _]; [by apply Forall_cons|]. fold w1 in Hq1.
  destruct (quiet_step g i w1 (Reload_matcher i t) Hq1 eq_refl) as [Hq2 _]. by apply (quiet_run (cr_mid2 r) g i _ Hq2).
Qed.

(** C36: whatever the threads of the worker processes do in between - changes of the policy, checks
    of other threads, one critical section at a time - a check that began under the policy [p] is
    answered exactly by the rules of a policy [q] that was in force at some moment: it matches iff the
    filter was enabled and the folded content contains a folded rule of [q], and it reports the
    action of [p].  [q] is [p] unless another thread of the same process reloads the automaton between
    the reload and the search, and also when it does, as long as the policy is not changed meanwhile
    and no thread of the process was between its snapshot and its reload when the check began. *)
Theorem moderation_filter_exact db r i t content : check_of i t db r ->
  Z.of_nat (countb is_set (check_events i t content r)) < 2 ^ 32 - 1 ->
  let w0 := run (cr_before r) (started db) in
  let p := sf_policy (w_shared w0) in
  exists q matched, w_checks (run (check_events i t content r) (started db)) i t = Check_done matched (if matched then Some (mf_action p) else None) /\
    (matched = true <-> mf_enabled p = true /\ contains_rule q content) /\
    (exists k, q = sf_policy (w_shared (run (take k (check_events i t content r)) (started db)))) /\
    (Forall (fun e => reloads i e = false) (cr_mid2 r) -> q = p) /\
    (Forall (fun e => is_set e = false) (cr_mid1 r ++ cr_mid2 r) -> (forall t', loading (w_checks w0 i t') = false) -> q = p).
Proof.
  intros Hof Hn w0 p. destruct (check_run_result db r i t content Hof) as [Hres _]. fold w0 p in Hres. rewrite Hres.
  destruct (mf_enabled p) eqn:He.
  - destruct (check_run_loaded db r i t content Hof Hn He) as (q & Hm & Hrest). fold w0 p in Hm, Hrest.
    exists q. revert Hm. unfold check_search. cbn [fst]. intros Hm. eexists. split; [done|]. split; [by rewrite Hm; intuition|done].
  - exists p, false. split; [done|]. split; [by split; [|intros [? _]]|]. split; [|done].
    exists (length (cr_before r)). unfold check_events. by rewrite take_app_length.
Qed.

Lemma moderation_filter_exact_witness :
  let p := FilterPolicy true MODERATION_FILTER_REJECT true 64 (CS "scam" ++ [10] ++ CS "spam") in
  let pre := [Begin_check 3 0 (Some (CS "spam")); Set_policy (fun _ => true) p; Begin_check 3 1 (Some (CS "ham"))] in
  w_checks (run (check_events 3 7 (CS "buy SPAM!") (CheckRun pre [Reload_matcher 3 1] [Search_content 3 1])) (started ∅)) 3 7 =
    Check_done true (Some MODERATION_FILTER_REJECT).
Proof.
  intros p pre. set (r := CheckRun pre [Reload_matcher 3 1] [Search_content 3 1]).
  destruct (moderation_filter_exact ∅ r 3 7 (CS "buy SPAM!")) as (q & matched & Hres & Hm & _ & Hq & _).
  - split; [by vm_compute|]. by repeat constructor.
  - by vm_compute.
  - assert (Hp : sf_policy (w_shared (run (cr_before r) (started ∅))) = p) by (by vm_compute).
    rewrite Hp in *. rewrite Hres. rewrite Hq in Hm by (by repeat constructor).
    rewrite (proj2 Hm); [done|]. split; [done|]. exists (CS "spam"), (CS "buy "), (CS "!"). split; [|by vm_compute].
    vm_compute. right. left.
Defined.

(** ** The policy survives a restart *)

Lemma limit_roundtrip n : (0 < n)%nat -> (n <= MODERATION_FILTER_MATCH_LIMIT_MAX)%nat ->
  atoi (snprintf_s 32 (snprintf_s 16 (print_dec (Z.of_nat n)))) = Z.of_nat n.
Proof.
  intros H0 H. assert (Hall : forallb (fun k => atoi (snprintf_s 32 (snprintf_s 16 (print_dec (Z.of_nat k)))) =? Z.of_nat k) (seq 0 1025) = true)
    by (vm_compute; reflexivity).
  rewrite forallb_forall in Hall. apply Z.eqb_eq, Hall, in_seq. unfold MODERATION_FILTER_MATCH_LIMIT_MAX in H. lia.
Qed.

Lemma init_written p db s0 : valid_policy p = true ->
  sf_policy (moderation_filter_init (foldl (fun db kv => <[kv.1 := kv.2]> db) db (policy_rows p)) s0) = p.
Proof.
  intros Hv. destruct p as [en act fold lim rules]. unfold policy_rows. cbn [foldl fst snd mf_enabled mf_action mf_case_fold mf_match_limit mf_rules].
  set (db' := insert KEY_RULES _ _).
  assert (H1 : db' !! KEY_ENABLED = Some (if en then CS "1" else CS "0"))
    by (subst db'; rewrite !lookup_insert_ne by done; by rewrite lookup_insert_eq).
  assert (H2 : db' !! KEY_ACTION = Some (action_name act))
    by (subst db'; rewrite !lookup_insert_ne by done; by rewrite lookup_insert_eq).
  assert (H3 : db' !! KEY_CASE_FOLD = Some (if fold then CS "simple" else CS "exact"))
    by (subst db'; rewrite !lookup_insert_ne by done; by rewrite lookup_insert_eq).
  assert (H4 : db' !! KEY_MATCH_LIMIT = Some (snprintf_s 16 (print_dec (Z.of_nat lim))))
    by (subst db'; rewrite !lookup_insert_ne by done; by rewrite lookup_insert_eq).
  assert (H5 : db' !! KEY_RULES = Some rules) by (subst db'; by rewrite lookup_insert_eq).
  clearbody db'. pose proof Hv as Hv'. unfold valid_policy in Hv'. cbn [mf_match_limit mf_rules mf_case_fold] in Hv'.
  destruct ((lim =? 0)%nat || _ || _) eqn:Eb in Hv'; [done|]. clear Hv'. apply orb_false_iff in Eb as [Eb Hr].
  apply orb_false_iff in Eb as [El0 Elm]. apply Nat.eqb_neq in El0. apply Nat.ltb_ge in Elm. apply Z.ltb_ge in Hr.
  unfold moderation_filter_init, init_enabled, init_action, init_match_limit, db_site_setting_get.
  rewrite H1, H2, H3, H4, H5. cbn [fmap option_fmap option_map default].
  rewrite (limit_roundtrip lim) by (unfold MODERATION_FILTER_MATCH_LIMIT_MAX in *; lia).
  rewrite (snprintf_s_id _ rules) by (unfold AHO_MODERATION_RULES_MAX_BYTES, zlen in *; lia).
  rewrite (proj2 (Z.leb_gt _ 0)) by lia. rewrite (proj2 (Z.ltb_ge (Z.of_nat _) (Z.of_nat lim))) by lia. cbn [orb].
  rewrite Nat2Z.id.
  assert (E1 : streq (snprintf_s 32 (if en then CS "1" else CS "0")) (CS "1") = en) by (by destruct en).
  assert (E2 : streq (snprintf_s 32 (if fold then CS "simple" else CS "exact")) (CS "simple") = fold) by (by destruct fold).
  rewrite E1, E2.
  assert (E3 : (if streq (snprintf_s 32 (action_name act)) (CS "reject") then (MODERATION_FILTER_REJECT, en)
                else if streq (snprintf_s 32 (action_name act)) (CS "pending") then (MODERATION_FILTER_PENDING, en)
                else (MODERATION_FILTER_PENDING, false)) = (act, en)) by (by destruct act).
  rewrite E3. change (id rules) with rules. by rewrite Hv.
Qed.

(** a policy is accepted only when it is valid; once it has been stored it is in force, and a
    restart on the stored settings puts the same policy in force again; when it is refused or a
    write fails the policy in force stays, and whatever the settings hold at a start, an invalid
    policy is never enabled. *)
Theorem moderation_filter_persists ok p db s :
  let '(stored, db', s') := moderation_filter_set ok p db s in
  (stored = true -> valid_policy p = true /\ sf_policy s' = p /\ forall s0, sf_policy (moderation_filter_init db' s0) = p) /\
  (stored = false -> s' = s /\ (valid_policy p = false -> db' = db)) /\
  (forall db0 s0, let p0 := sf_policy (moderation_filter_init db0 s0) in mf_enabled p0 = true -> valid_policy p0 = true).
Proof.
  assert (Hinit : forall db0 s0, let p0 := sf_policy (moderation_filter_init db0 s0) in mf_enabled p0 = true -> valid_policy p0 = true).
  { intros db0 s0. unfold moderation_filter_init. destruct (init_action _ _) as [act en]. destruct (init_match_limit _ _) as [lim en'].
    cbn [publish sf_policy]. by destruct (valid_policy _) eqn:E. }
  unfold moderation_filter_set. destruct (valid_policy p) eqn:Ev; cbn [negb]; [|by repeat split].
  destruct (write_settings ok 0 (policy_rows p) db) as [[|] db'] eqn:Ew.
  - split; [|by split]. intros _. split; [done|]. split; [done|]. intros s0.
    apply write_settings_all in Ew as ->. by apply init_written.
  - split; [done|]. by split.
Qed.

(** The case in which a check is not decided by the rules in force: a check of thread 0 has read the
    old policy, thread 1 begins under the new one and loads it, then thread 0 puts its outdated
    automaton back, and thread 1 searches with the old rules. *)
Lemma moderation_filter_stale_matcher :
  let p1 := FilterPolicy true MODERATION_FILTER_REJECT false 64 (CS "spam") in
  let p2 := FilterPolicy true MODERATION_FILTER_REJECT false 64 (CS "scam") in
  let set p := Set_policy (fun _ => true) p in
  let pre := [set p1; Begin_check 0 0 (Some (CS "ham")); set p2] in
  let check mid2 := w_checks (run (check_events 0 1 (CS "a scam") (CheckRun pre [] mid2)) (started ∅)) 0%nat 1%nat in
  check [Reload_matcher 0 0] = Check_done false None /\ check [] = Check_done true (Some MODERATION_FILTER_REJECT).
Proof. split; vm_compute; reflexivity. Qed.

(** A check by itself is the trace without anything in between. *)
Lemma check_alone w i t content : running (w_checks w i t) = false ->
  let w' := run [Begin_check i t content; Reload_matcher i t; Search_content i t] w in
  let '(matched, action, m) := moderation_filter_check alone content (w_shared w) (w_matchers w i) in
  w_checks w' i t = Check_done matched action /\ w_matchers w' i = m.
Proof.
  intros Hr. unfold run, moderation_filter_check, alone. cbn [foldl step]. rewrite Hr.
  destruct (check_snapshot content (w_shared w)) as [[[c p] g]|]; cbn; do 3 (rewrite ?Nat.eqb_refl; cbn); done.
Qed.
