(* ===== verification/ForkGate.v ===== *)
(** * The fork gate (src/src/engine/forkgate.c)

    Threads that use SQLite mark their sections with [fly_forkgate_enter] and [fly_forkgate_leave];
    the handlers that [pthread_atfork] runs around a [fork] hold new threads out and wait, for at
    most about thirty seconds, until no thread is inside.  Every critical section of the mutex is
    one step of a transition system; a wait on the condition variable ends by a broadcast, for no
    reason, or by a timeout.  The clock is in nanoseconds.  Log output is not modelled. *)
From S2P Require Import Prelude.

Definition FORKGATE_PREPARE_MAX_SECS : Z := 30.
Definition FORKGATE_PREPARE_SLICE_MS : Z := 50.
Definition second : Z := 1000000000.

Record gate := Gate { g_forkgate_active : Z; g_fork_pending : bool }.

Definition gate_start : gate := Gate 0 false.

(** [fly_forkgate_enter] after its mutex is taken, at its first or a later look at the flag:
    [None] is the wait on the condition variable. *)
Definition fly_forkgate_enter (g : gate) : option gate :=
  if g_fork_pending g then None else Some (Gate (u32 (g_forkgate_active g + 1)) (g_fork_pending g)).

(** The gate and whether the waiters are woken. *)
Definition fly_forkgate_leave (g : gate) : gate * bool :=
  let active := if 0 <? g_forkgate_active g then g_forkgate_active g - 1 else g_forkgate_active g in
  (Gate active (g_fork_pending g), active =? 0).

(** Where the prepare handler is: in a timed wait until [wake_at], which it began at [now], or done. *)
Inductive prepare_state :=
| Prepare_wait (deadline_sec now wake_at : Z)
| Prepare_done (gave_up : bool).

(** The head of the loop at the time [now]. *)
Definition prepare_loop (deadline_sec now : Z) (g : gate) : prepare_state :=
  if 0 <? g_forkgate_active g
  then Prepare_wait deadline_sec now (now + FORKGATE_PREPARE_SLICE_MS * 1000000)
  else Prepare_done false.

Definition fly_forkgate_prepare (now : Z) (g : gate) : prepare_state * gate :=
  let g := Gate (g_forkgate_active g) true in
  (prepare_loop (now / second + FORKGATE_PREPARE_MAX_SECS) now g, g).

(** The wait returns at the time [clock], by a timeout or not. *)
Definition prepare_wake (timedout : bool) (deadline_sec now clock : Z) (g : gate) : prepare_state :=
  if timedout && (deadline_sec <=? now / second) then Prepare_done true else prepare_loop deadline_sec clock g.

Definition fly_forkgate_parent (g : gate) : gate := Gate (g_forkgate_active g) false.
Definition fly_forkgate_child (g : gate) : gate := Gate 0 false.

(** ** The process *)

Inductive thread := Outside | Parked | Inside.

(** The thread that forks: not forking, in the prepare handler, or between the two handlers. *)
Inductive forker := Idle | Preparing (started : Z) (p : prepare_state).

Record process := Process {
  pr_gate : gate;
  pr_threads : list thread;
  pr_forker : forker;
  pr_clock : Z;
}.

Inductive label := L_tick | L_enter (i : nat) | L_leave (i : nat) | L_prepare | L_wake (timedout : bool) | L_fork.

Inductive step : label -> process -> process -> Prop :=
| step_tick g ts f c c' : c <= c' -> step L_tick (Process g ts f c) (Process g ts f c')
| step_enter g g' ts f c i t : ts !! i = Some t -> t <> Inside -> fly_forkgate_enter g = Some g' ->
    step (L_enter i) (Process g ts f c) (Process g' (<[i := Inside]> ts) f c)
| step_park g ts f c i t : ts !! i = Some t -> t <> Inside -> fly_forkgate_enter g = None ->
    step (L_enter i) (Process g ts f c) (Process g (<[i := Parked]> ts) f c)
| step_leave g ts f c i : ts !! i = Some Inside ->
    step (L_leave i) (Process g ts f c) (Process (fst (fly_forkgate_leave g)) (<[i := Outside]> ts) f c)
| step_prepare g ts c p g' : fly_forkgate_prepare c g = (p, g') ->
    step L_prepare (Process g ts Idle c) (Process g' ts (Preparing c p) c)
| step_wake g ts c b s dl now wake_at : (b = true -> wake_at <= c) ->
    step (L_wake b) (Process g ts (Preparing s (Prepare_wait dl now wake_at)) c)
                    (Process g ts (Preparing s (prepare_wake b dl now c g)) c)
| step_fork g ts c s u :
    step L_fork (Process g ts (Preparing s (Prepare_done u)) c) (Process (fly_forkgate_parent g) ts Idle c).

Definition inside (ts : list thread) : nat := countb (fun t => match t with Inside => true | _ => false end) ts.

Definition start (n : nat) (clock : Z) : process := Process gate_start (replicate n Outside) Idle clock.

Inductive reachable (n : nat) (clock : Z) : process -> Prop :=
| reach_start : reachable n clock (start n clock)
| reach_step l p p' : reachable n clock p -> step l p p' -> reachable n clock p'.

(** ** The invariant *)

Record gate_inv (n : nat) (p : process) : Prop := {
  gi_active : g_forkgate_active (pr_gate p) = Z.of_nat (inside (pr_threads p));
  gi_pending : g_fork_pending (pr_gate p) = match pr_forker p with Idle => false | _ => true end;
  gi_threads : length (pr_threads p) = n;
  gi_wait : forall s dl now w, pr_forker p = Preparing s (Prepare_wait dl now w) ->
    dl = s / second + FORKGATE_PREPARE_MAX_SECS /\ now <= pr_clock p /\ w = now + FORKGATE_PREPARE_SLICE_MS * 1000000;
  gi_done : forall s, pr_forker p = Preparing s (Prepare_done false) -> inside (pr_threads p) = 0%nat;
  gi_gave_up : forall s, pr_forker p = Preparing s (Prepare_done true) -> s / second + FORKGATE_PREPARE_MAX_SECS <= pr_clock p / second;
}.

Lemma inside_insert ts i t t' : ts !! i = Some t ->
  (inside (<[i := t']> ts) + (match t with Inside => 1 | _ => 0 end) =
   inside ts + (match t' with Inside => 1 | _ => 0 end))%nat.
Proof.
  intros H. pose proof (countb_insert (fun t => match t with Inside => true | _ => false end) ts i t t' H) as E.
  unfold inside. destruct t, t'; cbn in E; lia.
Qed.

Lemma prepare_loop_cases dl now g : 0 <= g_forkgate_active g ->
  (0 < g_forkgate_active g /\ prepare_loop dl now g = Prepare_wait dl now (now + FORKGATE_PREPARE_SLICE_MS * 1000000)) \/
  (g_forkgate_active g = 0 /\ prepare_loop dl now g = Prepare_done false).
Proof. intros H. unfold prepare_loop. destruct (Z.ltb_spec 0 (g_forkgate_active g)); [left|right]; split; (done || lia). Qed.

Lemma gate_start_inv n clock : gate_inv n (start n clock).
Proof.
  split; cbn; try done.
  - unfold inside. rewrite countb_zero; [done|]. intros t Ht. apply elem_of_replicate in Ht as [-> _]. done.
  - by rewrite length_replicate.
Qed.

Lemma inside_le ts : (inside ts <= length ts)%nat.
Proof. apply countb_le. Qed.

#[local] Opaque inside.

Lemma gate_inv_step n l p p' : Z.of_nat n < 2 ^ 32 -> step l p p' -> gate_inv n p -> gate_inv n p'.
Proof.
  intros Hn Hstep [Ha Hp Ht Hw Hd Hg].
  pose proof (inside_le (pr_threads p)) as Hmax. rewrite Ht in Hmax.
  destruct Hstep as [g ts f c c' Hc|g g' ts f c i t Hi Hne He|g ts f c i t Hi Hne He|g ts f c i Hi|g ts c st g' Hpr|g ts c b s dl now wa Hb|g ts c s u];
    cbn [pr_gate pr_threads pr_forker pr_clock] in *.
  - split; cbn; try done.
    + intros s dl now w E. destruct (Hw s dl now w E) as (? & ? & ?). split; [done|]. split; [lia|done].
    + intros s E. specialize (Hg s E). pose proof (Z.div_le_mono c c' second ltac:(unfold second; lia) Hc). lia.
  - unfold fly_forkgate_enter in He. destruct (g_fork_pending g) eqn:Ep; [done|]. injection He as <-.
    pose proof (inside_insert ts i t Inside Hi) as Hins.
    assert (Hlt : (inside (<[i := Inside]> ts) <= n)%nat) by (rewrite <- Ht, <- (length_insert ts i Inside); apply inside_le).
    assert (Hidle : f = Idle) by (by destruct f). subst f.
    split; cbn; try done.
    + destruct t; [| |done]; cbn in Hins; rewrite u32_small by lia; lia.
    + by rewrite length_insert.
  - pose proof (inside_insert ts i t Parked Hi) as Hins.
    assert (Hin : inside (<[i := Parked]> ts) = inside ts) by (destruct t; [| |done]; cbn in Hins; lia).
    split; cbn; try done; rewrite ?Hin; try done. by rewrite length_insert.
  - pose proof (inside_insert ts i Inside Outside Hi) as Hins. cbn in Hins.
    assert (Hpos : (0 < inside ts)%nat) by lia. unfold fly_forkgate_leave. cbn [fst].
    split; cbn; try done.
    + destruct (Z.ltb_spec 0 (g_forkgate_active g)); lia.
    + by rewrite length_insert.
    + intros s E. specialize (Hd s E). lia.
  - unfold fly_forkgate_prepare in Hpr. injection Hpr as <- <-.
    destruct (prepare_loop_cases (c / second + FORKGATE_PREPARE_MAX_SECS) c (Gate (g_forkgate_active g) true))
      as [[Hact Hl]|[Hact Hl]]; [cbn; lia| |]; cbn in Hact; rewrite Hl; split; cbn; try done.
    + intros s dl now w E. injection E as <- <- <- <-. split; [done|]. split; [lia|done].
    + intros s E. injection E as <-. lia.
  - destruct (Hw s dl now wa eq_refl) as (Hdl & Hnow & Hwa). unfold prepare_wake.
    destruct (b && (dl <=? now / second)) eqn:Eg.
    + apply andb_true_iff in Eg as [_ Eg]. apply Z.leb_le in Eg. split; cbn; try done.
      intros s' E. injection E as <-.
      pose proof (Z.div_le_mono now c second ltac:(unfold second; lia) Hnow). lia.
    + destruct (prepare_loop_cases dl c g) as [[Hact Hl]|[Hact Hl]]; [lia| |]; rewrite Hl; split; cbn; try done.
      * intros s' dl' now' w E. injection E as <- <- <- <-. split; [done|]. split; [lia|done].
      * intros s' E. injection E as <-. lia.
  - split; cbn; done.
Qed.

Lemma gate_reachable_inv n clock p : Z.of_nat n < 2 ^ 32 -> reachable n clock p -> gate_inv n p.
Proof. intros Hn. induction 1 as [|l p p' _ IH Hs]; [apply gate_start_inv|by eapply gate_inv_step]. Qed.

(** C12: in every reachable state of a process with fewer than 2^32 threads, while [fork] runs no thread
    is inside a fork-unsafe section, unless the handler has waited for more than 29 seconds; from
    the first handler to the last no thread gets in; and the counter is the number of threads
    inside, so that it never wraps. *)
Theorem forkgate_excludes_fork n clock p : Z.of_nat n < 2 ^ 32 -> reachable n clock p ->
  g_forkgate_active (pr_gate p) = Z.of_nat (inside (pr_threads p)) /\
  (forall s gave_up, pr_forker p = Preparing s (Prepare_done gave_up) ->
     if gave_up : bool then 29 * second < pr_clock p - s else forall i, pr_threads p !! i <> Some Inside) /\
  (pr_forker p <> Idle -> forall l p', step l p p' -> forall i, pr_threads p' !! i = Some Inside -> pr_threads p !! i = Some Inside).
Proof.
  intros Hn Hr. destruct (gate_reachable_inv n clock p Hn Hr) as [Ha Hp Ht Hw Hd Hg]. split; [done|]. split.
  - intros s [] Hf.
    + specialize (Hg s Hf). unfold FORKGATE_PREPARE_MAX_SECS, second in *. Z.div_mod_to_equations. lia.
    + specialize (Hd s Hf). intros i Hi.
      pose proof (inside_insert (pr_threads p) i Inside Outside Hi) as E. cbn in E. lia.
  - intros Hf l p' Hs i Hi. assert (Hpend : g_fork_pending (pr_gate p) = true) by (rewrite Hp; by destruct (pr_forker p)). clear Hf.
    destruct Hs as [| g g' ts f c j t Hj Hne He|g ts f c j t Hj Hne He|g ts f c j Hj| | | ]; cbn in *; try done.
    + unfold fly_forkgate_enter in He. by rewrite Hpend in He.
    + apply list_lookup_insert_Some in Hi as [(-> & E & _)|[_ Hi]]; done.
    + apply list_lookup_insert_Some in Hi as [(-> & E & _)|[_ Hi]]; done.
Qed.

Lemma forkgate_excludes_fork_witness :
  let p := Process (Gate 0 true) [Parked] (Preparing 5 (Prepare_done false)) 5 in
  pr_threads p !! 0%nat <> Some Inside.
Proof.
  intros p. assert (H : reachable 1 5 p).
  { apply (reach_step 1 5 (L_enter 0) (Process (Gate 0 true) [Outside] (Preparing 5 (Prepare_done false)) 5)).
    - apply (reach_step 1 5 L_prepare (start 1 5)); [apply reach_start|].
      apply (step_prepare gate_start [Outside] 5 (Prepare_done false) (Gate 0 true)). reflexivity.
    - by apply (step_park (Gate 0 true) [Outside] _ 5 0 Outside). }
  destruct (forkgate_excludes_fork 1 5 p ltac:(lia) H) as (_ & Hf & _).
  apply (Hf 5 false eq_refl 0%nat).
Defined.

(** ** Liveness

    An execution is an infinite run. It is fair when its clock passes every time, a wait that is not
    over ends by a timeout again and again, and a fork returns. *)
Record fair_run (n : nat) (clock : Z) (run : nat -> process) (act : nat -> label) : Prop := {
  fr_start : run 0%nat = start n clock;
  fr_step : forall k, step (act k) (run k) (run (S k));
  fr_clock : forall t, exists k, t <= pr_clock (run k);
  fr_wait : forall k s p, pr_forker (run k) = Preparing s p -> exists m, (k <= m)%nat /\
    (pr_forker (run m) = Idle \/ act m = L_wake true \/ act m = L_fork);
}.

(** What one step does to the handler. *)
Lemma forker_step n l p p' s q : step l p p' -> gate_inv n p -> pr_forker p = Preparing s q ->
  pr_forker p' = Idle \/ pr_forker p' = Preparing s q \/
  exists b dl now w, l = L_wake b /\ q = Prepare_wait dl now w /\ dl = s / second + FORKGATE_PREPARE_MAX_SECS /\
    pr_forker p' = Preparing s (prepare_wake b dl now (pr_clock p) (pr_gate p)).
Proof.
  intros Hs [_ _ _ Hw _ _] Hk. specialize (Hw s).
  destruct Hs as [| | | | |g ts c b s' dl now wa Hb|]; cbn in *; try (by auto); try done.
  injection Hk as <- <-. destruct (Hw dl now wa eq_refl) as [Hdl _]. right; right. by exists b, dl, now, wa.
Qed.

Lemma clock_step l p p' : step l p p' -> pr_clock p <= pr_clock p'.
Proof. by destruct 1; cbn. Qed.

Lemma fork_idle p p' : step L_fork p p' -> pr_forker p' = Idle.
Proof. by inversion 1. Qed.

Lemma wake_waits b p p' : step (L_wake b) p p' -> exists s dl now w, pr_forker p = Preparing s (Prepare_wait dl now w) /\
  pr_forker p' = Preparing s (prepare_wake b dl now (pr_clock p) (pr_gate p)).
Proof. inversion 1; subst. eauto 10. Qed.

Section liveness.
Context (n : nat) (clock : Z) (run : nat -> process) (act : nat -> label).
Context (Hn : Z.of_nat n < 2 ^ 32) (Hfair : fair_run n clock run act).

Lemma run_reachable k : reachable n clock (run k).
Proof.
  induction k as [|k IH]; [rewrite (fr_start _ _ _ _ Hfair); apply reach_start|].
  eapply reach_step; [exact IH|apply (fr_step _ _ _ _ Hfair)].
Qed.

Lemma run_clock k d : pr_clock (run k) <= pr_clock (run (k + d)).
Proof.
  induction d as [|d IH]; [rewrite Nat.add_0_r; lia|]. rewrite Nat.add_succ_r.
  pose proof (clock_step _ _ _ (fr_step _ _ _ _ Hfair (k + d))). lia.
Qed.

(** A predicate on the handler that every step keeps from the time [T] on. *)
Definition kept (T s : Z) (R : prepare_state -> Prop) : Prop :=
  forall k q, T <= pr_clock (run k) -> pr_forker (run k) = Preparing s q -> R q ->
  pr_forker (run (S k)) = Idle \/ exists q', pr_forker (run (S k)) = Preparing s q' /\ R q'.

Lemma kept_persists T R k s q : kept T s R -> T <= pr_clock (run k) -> pr_forker (run k) = Preparing s q -> R q ->
  forall d, (exists m, (k <= m)%nat /\ pr_forker (run m) = Idle) \/ exists q', pr_forker (run (k + d)) = Preparing s q' /\ R q'.
Proof.
  intros HR HT Hk Hq d. induction d as [|d IH]; [rewrite Nat.add_0_r; right; eauto|].
  destruct IH as [?|(q' & H1 & H2)]; [by left|]. rewrite Nat.add_succ_r.
  destruct (HR (k + d)%nat q') as [Hi|?]; [pose proof (run_clock k d); lia|done|done| |by right].
  left. exists (S (k + d)). split; [lia|done].
Qed.

(** From a state with [R] the handler comes to a timeout or to the end of the fork, still with [R]. *)
Lemma kept_next T R k s q : kept T s R -> T <= pr_clock (run k) -> pr_forker (run k) = Preparing s q -> R q ->
  (exists m, (k <= m)%nat /\ pr_forker (run m) = Idle) \/
  exists m q', (k <= m)%nat /\ T <= pr_clock (run m) /\ pr_forker (run m) = Preparing s q' /\ R q' /\
    (act m = L_wake true \/ act m = L_fork).
Proof.
  intros HR HT Hk Hq. destruct (fr_wait _ _ _ _ Hfair k s q Hk) as (m & Hm & Hact).
  replace m with (k + (m - k))%nat in * by lia.
  destruct (kept_persists T R k s q HR HT Hk Hq (m - k)) as [?|(q' & H1 & H2)]; [by left|].
  destruct Hact as [Hi|Hact]; [congruence|]. right. exists (k + (m - k))%nat, q'.
  split; [done|]. split; [pose proof (run_clock k (m - k)); lia|done].
Qed.

Lemma fork_step k : act k = L_fork -> pr_forker (run (S k)) = Idle.
Proof. intros E. apply (fork_idle (run k)). rewrite <- E. apply (fr_step _ _ _ _ Hfair). Qed.

Lemma wake_step k b : act k = L_wake b -> exists s dl now w, pr_forker (run k) = Preparing s (Prepare_wait dl now w) /\
  pr_forker (run (S k)) = Preparing s (prepare_wake b dl now (pr_clock (run k)) (pr_gate (run k))) /\
  dl = s / second + FORKGATE_PREPARE_MAX_SECS.
Proof.
  intros E. pose proof (fr_step _ _ _ _ Hfair k) as Hs. rewrite E in Hs. apply wake_waits in Hs as (s & dl & now & w & H1 & H2).
  exists s, dl, now, w. split; [done|]. split; [done|].
  by destruct (gi_wait n _ (gate_reachable_inv n clock (run k) Hn (run_reachable k)) s dl now w H1).
Qed.

Lemma forker_handler_step k s q : pr_forker (run k) = Preparing s q ->
  pr_forker (run (S k)) = Idle \/ pr_forker (run (S k)) = Preparing s q \/
  exists b dl now w, act k = L_wake b /\ q = Prepare_wait dl now w /\ dl = s / second + FORKGATE_PREPARE_MAX_SECS /\
    pr_forker (run (S k)) = Preparing s (prepare_wake b dl now (pr_clock (run k)) (pr_gate (run k))).
Proof.
  apply (forker_step n); [apply (fr_step _ _ _ _ Hfair)|]. apply (gate_reachable_inv n clock); [done|apply run_reachable].
Qed.

Definition expired (s : Z) (q : prepare_state) : Prop :=
  match q with Prepare_wait dl now _ => s / second + FORKGATE_PREPARE_MAX_SECS <= now / second | Prepare_done _ => True end.
Definition finished (q : prepare_state) : Prop := match q with Prepare_done _ => True | _ => False end.

Lemma prepare_loop_expired s dl now g : s / second + FORKGATE_PREPARE_MAX_SECS <= now / second -> expired s (prepare_loop dl now g).
Proof. intros H. unfold prepare_loop. by destruct (_ <? _). Qed.

Lemma kept_any T s : kept T s (fun _ => True).
Proof.
  intros k q _ Hk _. destruct (forker_handler_step k s q Hk) as [?|[?|(b & dl & now & w & _ & _ & _ & ?)]]; eauto.
Qed.

Lemma kept_expired s : kept ((s / second + FORKGATE_PREPARE_MAX_SECS) * second) s (expired s).
Proof.
  intros k q HT Hk Hq. destruct (forker_handler_step k s q Hk) as [?|[?|(b & dl & now & w & _ & _ & _ & ?)]]; [by left|eauto|].
  right. eexists. split; [done|]. unfold prepare_wake. destruct (b && _); [done|]. apply prepare_loop_expired.
  apply Z.div_le_lower_bound; unfold second in *; lia.
Qed.

Lemma kept_finished T s : kept T s finished.
Proof.
  intros k q _ Hk Hq. destruct (forker_handler_step k s q Hk) as [?|[?|(b & dl & now & w & _ & -> & _)]]; [by left|eauto|done].
Qed.

Lemma finished_forks T k s q : T <= pr_clock (run k) -> pr_forker (run k) = Preparing s q -> finished q ->
  exists m, (k <= m)%nat /\ pr_forker (run m) = Idle.
Proof.
  intros HT Hk Hq. destruct (kept_next T finished k s q (kept_finished T s) HT Hk Hq)
    as [?|(m & q' & Hm & _ & Hm' & Hf & [Ha|Ha])]; [done| |exists (S m); split; [lia|by apply fork_step]].
  destruct (wake_step m true Ha) as (s' & dl & now & w & Hw & _ & _). rewrite Hw in Hm'. by injection Hm' as _ <-.
Qed.

Lemma fork_returns k s q : pr_forker (run k) = Preparing s q -> exists m, (k <= m)%nat /\ pr_forker (run m) = Idle.
Proof.
  intros Hk. set (T := (s / second + FORKGATE_PREPARE_MAX_SECS) * second).
  destruct (fr_clock _ _ _ _ Hfair T) as [k' Hk'].
  assert (HK : T <= pr_clock (run (k + k'))) by (rewrite Nat.add_comm; pose proof (run_clock k' k); lia).
  destruct (kept_persists (pr_clock (run k)) _ k s q (kept_any _ s) ltac:(lia) Hk I k') as [?|(q1 & H1 & _)]; [done|].
  destruct (kept_next T _ (k + k') s q1 (kept_any T s) HK H1 I) as [(m & ? & ?)|(m & q2 & Hm & HTm & Hm2 & _ & Ha)].
  { exists m. split; [lia|done]. }
  destruct Ha as [Ha|Ha]; [|exists (S m); split; [lia|by apply fork_step]].
  (* the timeout after the deadline begins a wait that is the last *)
  destruct (wake_step m true Ha) as (s' & dl & now & w & Hw & Hnext & _). rewrite Hm2 in Hw. injection Hw as <- ->.
  assert (Hexp : expired s (prepare_wake true dl now (pr_clock (run m)) (pr_gate (run m)))).
  { unfold prepare_wake. destruct (_ && _); [done|]. apply prepare_loop_expired.
    apply Z.div_le_lower_bound; unfold second in *; lia. }
  assert (HT1 : T <= pr_clock (run (S m))) by (pose proof (run_clock m 1) as Hc; rewrite Nat.add_1_r in Hc; lia).
  destruct (kept_next T _ (S m) s _ (kept_expired s) HT1 Hnext Hexp) as [(m' & ? & ?)|(m' & q3 & Hm' & HTm' & Hm3 & Hq3 & Ha')].
  { exists m'. split; [lia|done]. }
  destruct Ha' as [Ha'|Ha']; [|exists (S m'); split; [lia|by apply fork_step]].
  destruct (wake_step m' true Ha') as (s' & dl' & now' & w' & Hw & Hlast & Hdl). rewrite Hm3 in Hw. injection Hw as <- ->.
  cbn in Hq3. unfold prepare_wake in Hlast. rewrite (proj2 (Z.leb_le dl' _)) in Hlast by lia. cbn [andb] in Hlast.
  destruct (finished_forks (pr_clock (run (S m'))) (S m') s _ ltac:(lia) Hlast I) as (m2 & ? & ?).
  exists m2. split; [lia|done].
Qed.
End liveness.

(** C35: in every fair execution a fork that has begun is not held up for ever, even by a thread that
    never leaves its section: the handlers run to their end, after which the gate is open and
    every thread that waits for it can enter. *)
Theorem forkgate_fork_returns n clock run act k s q : Z.of_nat n < 2 ^ 32 -> fair_run n clock run act ->
  pr_forker (run k) = Preparing s q ->
  exists m, (k <= m)%nat /\ pr_forker (run m) = Idle /\ g_fork_pending (pr_gate (run m)) = false /\
    forall i, pr_threads (run m) !! i = Some Parked ->
      exists p', step (L_enter i) (run m) p' /\ pr_threads p' !! i = Some Inside.
Proof.
  intros Hn Hfair Hk. destruct (fork_returns n clock run act Hn Hfair k s q Hk) as (m & Hm & Hidle).
  exists m. split; [done|]. split; [done|].
  pose proof (gi_pending n _ (gate_reachable_inv n clock (run m) Hn (run_reachable n clock run act Hfair m))) as Hp.
  rewrite Hidle in Hp. split; [done|]. intros i Hi. destruct (run m) as [g ts f c]. cbn in *.
  exists (Process (Gate (u32 (g_forkgate_active g + 1)) (g_fork_pending g)) (<[i := Inside]> ts) f c).
  split; [apply (step_enter g _ ts f c i Parked Hi); [done|]; unfold fly_forkgate_enter; by rewrite Hp|].
  cbn. rewrite list_lookup_insert_eq; [done|]. by eapply lookup_lt_Some.
Qed.

(** A fair execution in which the only thread enters and never leaves: the fork gives up. *)
Definition stuck_act (k : nat) : label :=
  match k with
  | 0 => L_enter 0 | 1 => L_prepare | 2 => L_tick | 3 => L_wake true | 4 => L_tick | 5 => L_wake true | 6 => L_fork
  | _ => L_tick
  end%nat.
Definition stuck_run (k : nat) : process :=
  let late := 62 * second in
  match k with
  | 0 => start 1 0
  | 1 => Process (Gate 1 false) [Inside] Idle 0
  | 2 => Process (Gate 1 true) [Inside] (Preparing 0 (Prepare_wait 30 0 50000000)) 0
  | 3 => Process (Gate 1 true) [Inside] (Preparing 0 (Prepare_wait 30 0 50000000)) (31 * second)
  | 4 => Process (Gate 1 true) [Inside] (Preparing 0 (Prepare_wait 30 (31 * second) (31 * second + 50000000))) (31 * second)
  | 5 => Process (Gate 1 true) [Inside] (Preparing 0 (Prepare_wait 30 (31 * second) (31 * second + 50000000))) late
  | 6 => Process (Gate 1 true) [Inside] (Preparing 0 (Prepare_done true)) late
  | _ => Process (Gate 1 false) [Inside] Idle (late + Z.of_nat (k - 7))
  end%nat.

Lemma stuck_fair : fair_run 1 0 stuck_run stuck_act.
Proof.
  split; [done| | |].
  - intros [|[|[|[|[|[|[|k]]]]]]].
    + by apply (step_enter gate_start (Gate 1 false) [Outside] Idle 0 0 Outside).
    + by apply (step_prepare (Gate 1 false) [Inside] 0 (Prepare_wait 30 0 50000000) (Gate 1 true)).
    + by apply step_tick.
    + by apply (step_wake (Gate 1 true) [Inside] (31 * second) true 0 30 0 50000000).
    + by apply step_tick.
    + by apply (step_wake (Gate 1 true) [Inside] (62 * second) true 0 30 (31 * second) (31 * second + 50000000)).
    + apply (step_fork (Gate 1 true) [Inside] (62 * second) 0 true).
    + apply step_tick. cbn. lia.
  - intros t. exists (7 + Z.to_nat t)%nat. cbn. unfold second. lia.
  - intros k s p Hk. destruct (Nat.le_gt_cases k 7) as [Hle|Hlt]; [exists 7%nat; split; [done|by left]|].
    exfalso. destruct k as [|[|[|[|[|[|[|k]]]]]]]; try lia. done.
Qed.

Lemma forkgate_fork_returns_witness : exists m, pr_forker (stuck_run m) = Idle /\ g_fork_pending (pr_gate (stuck_run m)) = false.
Proof.
  destruct (forkgate_fork_returns 1 0 stuck_run stuck_act 3 0 (Prepare_wait 30 0 50000000) ltac:(lia) stuck_fair eq_refl)
    as (m & _ & H1 & H2 & _).
  by exists m.
Defined.
