(* ===== verification/AntiEntropy.v ===== *)
(** * The mutation log of the anti-entropy channel (src/src/db/db_sync_anti_entropy.c)

    Every node keeps a log of mutations keyed by their id.  Recording adds a mutation with a fresh
    id and a timestamp above every one of its row; importing adds those whose hash is right and
    whose id is new; the winner of a row is the greatest of its mutations.  The log is a map;
    SHA-256 is OpenSSL's and a parameter.  Failing SQL statements, the schema upgrade and the copies
    of the strings are not modelled. *)
From S2P Require Import Prelude CStr.

Record db_sync_mutation := Mutation {
  mutation_id : cstr;
  m_entity : cstr;
  m_entity_id : Z;
  m_op : cstr;
  m_payload : cstr;
  m_changed_at : Z;
  m_payload_hash : cstr;
}.

#[export] Instance mutation_eq_dec : EqDecision db_sync_mutation.
Proof. solve_decision. Defined.

(** [sync_mutation_log]: the primary key is the mutation id. *)
Abbreviation mutation_log := (gmap (list Z) db_sync_mutation).

Definition LLONG_MAX : Z := 2 ^ 63 - 1.

(** [%016llx] *)
Definition print_hex16 (n : Z) : cstr :=
  map (fun k => hex_digit (Z.shiftr (u64 n) (4 * (15 - Z.of_nat k)) `mod` 16)) (seq 0 16).

(** [memcmp] order of SQLite's binary collation. *)
Fixpoint bytes_cmp (a b : list Z) : comparison :=
  match a, b with
  | [], [] => Eq
  | [], _ :: _ => Lt
  | _ :: _, [] => Gt
  | x :: a', y :: b' => match Z.compare x y with Eq => bytes_cmp a' b' | c => c end
  end.

Section hashed.
Context (sha256_hex : list Z -> cstr).

Definition db_sync_payload_hash (entity : cstr) (entity_id : Z) (op payload : cstr) (changed_at : Z) : cstr :=
  sha256_hex (entity ++ [0] ++ print_int entity_id ++ [0] ++ print_int changed_at ++ [0] ++ op ++ [0] ++ payload).

Definition id_char (c : Z) : bool :=
  islower c || isupper c || isdigit c || (c =? CH "-") || (c =? CH "_") || (c =? CH ".") || (c =? CH ":").

Definition mutation_valid (m : db_sync_mutation) : bool :=
  if (m_entity_id m <=? 0) || (m_changed_at m <? 0) then false
  else if (zlen (mutation_id m) =? 0) || (128 <? zlen (mutation_id m)) || (64 <? zlen (m_entity m)) ||
          negb (zlen (m_payload_hash m) =? 64) then false
  else if negb (streq (m_op m) (CS "upsert")) && negb (streq (m_op m) (CS "delete")) then false
  else if negb (forallb id_char (mutation_id m)) then false
  else streq (db_sync_payload_hash (m_entity m) (m_entity_id m) (m_op m) (m_payload m) (m_changed_at m)) (m_payload_hash m).

(** [INSERT OR IGNORE]: success, whether a row was added, and the log. *)
Definition insert_mutation (m : db_sync_mutation) (log : mutation_log) : bool * bool * mutation_log :=
  if negb (mutation_valid m) then (false, false, log)
  else match log !! mutation_id m with
       | Some _ => (true, false, log)
       | None => (true, true, <[mutation_id m := m]> log)
       end.

(** A row of the ordinary journal. *)
Record journal_row := JournalRow { j_seq : Z; j_entity : cstr; j_entity_id : Z; j_op : cstr; j_payload : cstr }.

Definition legacy_mutation (r : journal_row) : db_sync_mutation :=
  Mutation (CS "legacy-" ++ print_hex16 (j_seq r)) (j_entity r) (j_entity_id r) (j_op r) (j_payload r) (j_seq r)
    (db_sync_payload_hash (j_entity r) (j_entity_id r) (j_op r) (j_payload r) (j_seq r)).

(** The rows in the order of their seq, until one is refused. *)
Fixpoint backfill_journal (rows : list journal_row) (log : mutation_log) : bool * mutation_log :=
  match rows with
  | [] => (true, log)
  | r :: rows' =>
      let '(ok, _, log') := insert_mutation (legacy_mutation r) log in
      if ok : bool then backfill_journal rows' log' else (false, log')
  end.

Definition rows_of (log : mutation_log) (entity : cstr) (entity_id : Z) : list db_sync_mutation :=
  List.filter (fun m => streq (m_entity m) entity && (m_entity_id m =? entity_id)) (map snd (map_to_list log)).

(** [MAX(changed_at)] of the row, and the next value: [None] when the greatest is taken. *)
Definition latest_changed_at (log : mutation_log) (entity : cstr) (entity_id : Z) : Z :=
  foldr (fun m acc => Z.max (m_changed_at m) acc) 0 (rows_of log entity entity_id).
Definition next_changed_at (now : Z) (log : mutation_log) (entity : cstr) (entity_id : Z) : option Z :=
  let latest := latest_changed_at log entity entity_id in
  if latest =? LLONG_MAX then None else Some (if now <=? latest then latest + 1 else now).

(** [random] is the hexadecimal form of sixteen random bytes. *)
Definition db_sync_anti_entropy_record (now : Z) (random : cstr) (entity : cstr) (entity_id : Z) (op payload : cstr)
    (log : mutation_log) : bool * mutation_log :=
  match next_changed_at now log entity entity_id with
  | None => (false, log)
  | Some changed_at =>
      let m := Mutation random entity entity_id op payload changed_at
                 (db_sync_payload_hash entity entity_id op payload changed_at) in
      let '(ok, _, log') := insert_mutation m log in (ok, log')
  end.

Definition db_sync_anti_entropy_import (m : db_sync_mutation) (log : mutation_log) : mutation_log :=
  let '(_, _, log') := insert_mutation m log in log'.

(** ** The order of the winner *)

Definition lex (c d : comparison) : comparison := match c with Eq => d | _ => c end.
Definition is_delete (m : db_sync_mutation) : Z := if streq (m_op m) (CS "delete") then 1 else 0.
Definition mutation_cmp (a b : db_sync_mutation) : comparison :=
  lex (Z.compare (m_changed_at a) (m_changed_at b))
    (lex (Z.compare (is_delete a) (is_delete b))
       (lex (bytes_cmp (m_payload_hash a) (m_payload_hash b)) (bytes_cmp (mutation_id a) (mutation_id b)))).

(** [ORDER BY ... DESC LIMIT 1] *)
Definition greater (best : option db_sync_mutation) (m : db_sync_mutation) : option db_sync_mutation :=
  match best with
  | None => Some m
  | Some b => match mutation_cmp m b with Gt => Some m | _ => best end
  end.
Definition db_sync_anti_entropy_winner (log : mutation_log) (entity : cstr) (entity_id : Z) : option db_sync_mutation :=
  if entity_id <=? 0 then None else foldl greater None (rows_of log entity entity_id).

(** ** The order is total *)

Lemma bytes_cmp_refl a : bytes_cmp a a = Eq.
Proof. induction a as [|x a IH]; [done|]. cbn. by rewrite Z.compare_refl. Qed.

Lemma bytes_cmp_eq a : forall b, bytes_cmp a b = Eq -> a = b.
Proof.
  induction a as [|x a IH]; intros [|y b]; cbn; try done. destruct (Z.compare_spec x y) as [-> | |]; try done.
  intros H. f_equal. by apply IH.
Qed.

Lemma bytes_cmp_anti a : forall b, bytes_cmp b a = CompOpp (bytes_cmp a b).
Proof.
  induction a as [|x a IH]; intros [|y b]; cbn; try done. rewrite (Z.compare_antisym x y).
  destruct (x ?= y); cbn; [apply IH|done|done].
Qed.

Lemma bytes_cmp_trans a : forall b c, bytes_cmp a b = Lt -> bytes_cmp b c = Lt -> bytes_cmp a c = Lt.
Proof.
  induction a as [|x a IH]; intros [|y b] [|z c]; cbn; try done.
  destruct (Z.compare_spec x y) as [-> |Hxy|], (Z.compare_spec y z) as [-> |Hyz|]; try done.
  - by apply IH.
  - intros _ _. by rewrite (proj2 (Z.compare_lt_iff x z)).
  - intros _ _. by rewrite (proj2 (Z.compare_lt_iff x z)) by lia.
Qed.

(** What an order by keys needs. *)
Record total_cmp {A} (cmp : A -> A -> comparison) : Prop := {
  tc_refl : forall a, cmp a a = Eq;
  tc_anti : forall a b, cmp b a = CompOpp (cmp a b);
  tc_trans : forall a b c, cmp a b = Lt -> cmp b c = Lt -> cmp a c = Lt;
  tc_eq : forall a b c, cmp a b = Eq -> cmp a c = cmp b c;
}.

Lemma total_key {A} (key : A -> Z) : total_cmp (fun a b => key a ?= key b).
Proof.
  split; intros *.
  - apply Z.compare_refl.
  - apply Z.compare_antisym.
  - rewrite !Z.compare_lt_iff. lia.
  - by intros ->%Z.compare_eq_iff.
Qed.

Lemma total_bytes {A} (key : A -> list Z) : total_cmp (fun a b => bytes_cmp (key a) (key b)).
Proof.
  split; intros *.
  - apply bytes_cmp_refl.
  - apply bytes_cmp_anti.
  - apply bytes_cmp_trans.
  - by intros ->%bytes_cmp_eq.
Qed.

Lemma total_lex {A} (f g : A -> A -> comparison) : total_cmp f -> total_cmp g -> total_cmp (fun a b => lex (f a b) (g a b)).
Proof.
  intros [f1 f2 f3 f4] [g1 g2 g3 g4]. split; intros *; unfold lex.
  - by rewrite f1.
  - rewrite f2. destruct (f a b); cbn; [apply g2|done|done].
  - intros H1 H2. destruct (f a b) eqn:Eab; try done.
    + rewrite (f4 _ _ c Eab). destruct (f b c) eqn:Ebc; try done. by apply (g3 _ b).
    + assert (Hac : f a c = Lt); [|by rewrite Hac]. destruct (f b c) eqn:Ebc; try done; [|by apply (f3 _ b)].
      assert (Ecb : f c b = Eq) by (by rewrite f2, Ebc). by rewrite f2, (f4 _ _ a Ecb), <- f2.
  - intros H. destruct (f a b) eqn:Eab; try done. rewrite (f4 _ _ c Eab). destruct (f b c); [by apply g4|done|done].
Qed.

Lemma mutation_cmp_total : total_cmp mutation_cmp.
Proof.
  unfold mutation_cmp. apply (total_lex (fun a b => m_changed_at a ?= m_changed_at b)); [apply total_key|].
  apply (total_lex (fun a b => is_delete a ?= is_delete b)); [apply total_key|].
  apply (total_lex (fun a b => bytes_cmp (m_payload_hash a) (m_payload_hash b))); apply total_bytes.
Qed.

Lemma mutation_cmp_id a b : mutation_cmp a b = Eq -> mutation_id a = mutation_id b.
Proof.
  unfold mutation_cmp, lex. destruct (_ ?= _); try done. destruct (_ ?= _); try done.
  destruct (bytes_cmp (m_payload_hash a) _); try done. apply bytes_cmp_eq.
Qed.

(** ** The log and its rows *)

(** Every mutation of a log is under its id, valid, and has a 64-bit timestamp. *)
Definition log_ok (log : mutation_log) : Prop :=
  forall k m, log !! k = Some m -> mutation_id m = k /\ mutation_valid m = true /\ m_changed_at m <= LLONG_MAX.

Lemma rows_of_spec log entity entity_id m : log_ok log ->
  m ∈ rows_of log entity entity_id <-> log !! mutation_id m = Some m /\ m_entity m = entity /\ m_entity_id m = entity_id.
Proof.
  intros Hok. unfold rows_of. rewrite list_elem_of_In, filter_In, <- list_elem_of_In, list_elem_of_fmap, andb_true_iff, streq_eq, Z.eqb_eq.
  assert (H : (exists y : list Z * db_sync_mutation, m = y.2 /\ y ∈ map_to_list log) <-> log !! mutation_id m = Some m).
  { split.
    - intros ([k m'] & -> & Hin). apply elem_of_map_to_list in Hin. cbn [snd]. by destruct (Hok _ _ Hin) as [-> _].
    - intros Hin. exists (mutation_id m, m). split; [done|]. by apply elem_of_map_to_list. }
  by rewrite H.
Qed.

Lemma foldl_greater l : forall b, exists w, foldl greater (Some b) l = Some w /\ (w = b \/ w ∈ l) /\
  forall m, m = b \/ m ∈ l -> mutation_cmp m w <> Gt.
Proof.
  pose proof mutation_cmp_total as [tr ta tt te].
  induction l as [|x l IH]; intros b.
  { exists b. split; [done|]. split; [by left|]. intros m [-> |H]; [by rewrite tr|by apply not_elem_of_nil in H]. }
  cbn [foldl greater].
  assert (Hle : forall a b c, mutation_cmp a b <> Gt -> mutation_cmp b c <> Gt -> mutation_cmp a c <> Gt).
  { intros a1 b1 c1 H1 H2. destruct (mutation_cmp a1 b1) eqn:E1; [by rewrite (te _ _ c1 E1)| |done].
    destruct (mutation_cmp b1 c1) eqn:E2; [|by rewrite (tt _ _ _ E1 E2)|done].
    assert (E3 : mutation_cmp c1 b1 = Eq) by (by rewrite ta, E2). by rewrite ta, (te _ _ a1 E3), <- ta, E1. }
  destruct (mutation_cmp x b) eqn:E.
  - destruct (IH b) as (w & Hw & Hin & Hmax). exists w. split; [done|]. split; [set_solver|].
    intros m [-> |Hm]; [by apply Hmax; left|]. apply elem_of_cons in Hm as [-> |Hm]; [|by apply Hmax; right].
    apply (Hle _ b); [by rewrite E|by apply Hmax; left].
  - destruct (IH b) as (w & Hw & Hin & Hmax). exists w. split; [done|]. split; [set_solver|].
    intros m [-> |Hm]; [by apply Hmax; left|]. apply elem_of_cons in Hm as [-> |Hm]; [|by apply Hmax; right].
    apply (Hle _ b); [by rewrite E|by apply Hmax; left].
  - destruct (IH x) as (w & Hw & Hin & Hmax). exists w. split; [done|]. split; [set_solver|].
    intros m [-> |Hm]; [|apply elem_of_cons in Hm as [-> |Hm]; [by apply Hmax; left|by apply Hmax; right]].
    apply (Hle _ x); [|by apply Hmax; left]. by rewrite ta, E.
Qed.

(** The winner is the greatest mutation of the row. *)
Lemma winner_spec log entity entity_id w : log_ok log -> 0 < entity_id ->
  db_sync_anti_entropy_winner log entity entity_id = Some w <->
  w ∈ rows_of log entity entity_id /\
  forall m, m ∈ rows_of log entity entity_id -> m <> w -> mutation_cmp m w = Lt.
Proof.
  intros Hok Hid. unfold db_sync_anti_entropy_winner. rewrite (proj2 (Z.leb_gt _ _)) by done.
  assert (Huniq : forall m m', m ∈ rows_of log entity entity_id -> m' ∈ rows_of log entity entity_id ->
            mutation_cmp m m' <> Gt -> m <> m' -> mutation_cmp m m' = Lt).
  { intros m m' H1 H2 Hc Hne. destruct (mutation_cmp m m') eqn:E; [|done|done]. destruct Hne.
    apply mutation_cmp_id in E. apply rows_of_spec in H1 as [H1 _]; [|done]. apply rows_of_spec in H2 as [H2 _]; [|done].
    rewrite E in H1. congruence. }
  set (rows := rows_of log entity entity_id) in *.
  assert (Hmax : forall w, foldl greater None rows = Some w -> w ∈ rows /\ forall m, m ∈ rows -> mutation_cmp m w <> Gt).
  { intros w' Hw. destruct rows as [|b rows]; [done|]. cbn [foldl greater] in Hw.
    destruct (foldl_greater rows b) as (w0 & Hw0 & Hin & Hm). rewrite Hw in Hw0. injection Hw0 as <-.
    split; [set_solver|]. intros m Hin'. apply Hm. set_solver. }
  split.
  - intros Hw. destruct (Hmax w Hw) as [Hin Hm]. split; [done|]. intros m Hm'. apply Huniq; [done..|by apply Hm].
  - intros [Hin Hm]. destruct (foldl greater None rows) as [w'|] eqn:Ew.
    + destruct (Hmax w' eq_refl) as [Hin' Hm']. f_equal. destruct (decide (w' = w)) as [|Hne]; [done|].
      pose proof (Hm w' Hin' Hne) as H1. pose proof (Hm' w Hin) as H2.
      rewrite (tc_anti _ mutation_cmp_total w' w), H1 in H2. done.
    + destruct rows as [|b rows]; [set_solver|]. cbn [foldl greater] in Ew.
      destruct (foldl_greater rows b) as (w0 & Hw0 & _). congruence.
Qed.

Lemma import_ok m log : log_ok log -> m_changed_at m <= LLONG_MAX -> log_ok (db_sync_anti_entropy_import m log).
Proof.
  intros Hok Hm. unfold db_sync_anti_entropy_import, insert_mutation.
  destruct (mutation_valid m) eqn:Ev; cbn [negb]; [|done]. destruct (log !! mutation_id m); [done|].
  intros k x Hx. destruct (decide (k = mutation_id m)) as [-> |Hne].
  - rewrite lookup_insert_eq in Hx. by injection Hx as <-.
  - rewrite lookup_insert_ne in Hx by done. by apply Hok.
Qed.

(** ** Exchanging mutations *)

Definition import_all (ms : list db_sync_mutation) (log : mutation_log) : mutation_log :=
  foldl (fun log m => db_sync_anti_entropy_import m log) log ms.

(** A mutation the node has, or is sent and accepts. *)
Definition known (log : mutation_log) (ms : list db_sync_mutation) (m : db_sync_mutation) : Prop :=
  log !! mutation_id m = Some m \/ m ∈ ms /\ mutation_valid m = true.

(** Different mutations have different ids. *)
Definition ids_distinct (P : db_sync_mutation -> Prop) : Prop :=
  forall m m', P m -> P m' -> mutation_id m = mutation_id m' -> m = m'.

Lemma import_all_spec ms : forall log, log_ok log -> Forall (fun m => m_changed_at m <= LLONG_MAX) ms ->
  ids_distinct (known log ms) -> log_ok (import_all ms log) /\
  forall k m, import_all ms log !! k = Some m <-> known log ms m /\ mutation_id m = k.
Proof.
  induction ms as [|m0 ms IH]; intros log Hok Hms Hd.
  { split; [done|]. cbn. intros k m. split.
    - intros H. destruct (Hok _ _ H) as [<- _]. split; [by left|done].
    - intros [[H|[H _]] <-]; [done|]. by apply not_elem_of_nil in H. }
  apply Forall_cons in Hms as [H0 Hms]. cbn [import_all foldl]. fold (import_all ms (db_sync_anti_entropy_import m0 log)).
  assert (Hk : forall m, known (db_sync_anti_entropy_import m0 log) ms m <-> known log (m0 :: ms) m).
  { intros m. unfold db_sync_anti_entropy_import, insert_mutation, known.
    destruct (mutation_valid m0) eqn:Ev; cbn [negb].
    2: { rewrite elem_of_cons. split; [intuition|]. intros [?|[[-> |?] ?]]; [by left|congruence|by right]. }
    destruct (log !! mutation_id m0) as [m1|] eqn:E0.
    - rewrite elem_of_cons. split; [intuition|]. intros [?|[[-> |?] ?]]; [by left| |by right].
      destruct (Hok _ _ E0) as [E1 _]. left. rewrite E0. f_equal. symmetry.
      apply Hd; [right; split; [left|done]|left; by rewrite E1|done].
    - rewrite elem_of_cons. destruct (decide (mutation_id m = mutation_id m0)) as [E|E].
      + rewrite E, lookup_insert_eq, E0. split.
        * intros [[= ->]|[? ?]]; [right; split; [by left|done]|right; split; [by right|done]].
        * intros [?|[[-> |Hin] Hv]]; [done|by left|right; by split].
      + rewrite lookup_insert_ne by done. split; [intuition|]. intros [?|[[-> |?] ?]]; [by left|done|by right]. }
  destruct (IH (db_sync_anti_entropy_import m0 log)) as [IH1 IH2]; [by apply import_ok|done| |].
  { intros m m'. rewrite !Hk. apply Hd. }
  split; [done|]. intros k m. by rewrite IH2, Hk.
Qed.

(** C10: strong eventual consistency: two nodes that have been sent the same mutations, in any order, with
    any repetition and whatever part of them each had or made itself, hold the same log, as long
    as no two mutations share an id; and the winner of each row is then the greatest of all the
    mutations of the row that any of them knew, by time, deletions first, hash and id. *)
Theorem anti_entropy_converges logA logB msA msB : log_ok logA -> log_ok logB ->
  Forall (fun m => m_changed_at m <= LLONG_MAX) (msA ++ msB) ->
  (forall m, known logA msA m <-> known logB msB m) -> ids_distinct (known logA msA) ->
  import_all msA logA = import_all msB logB /\
  forall entity entity_id w, 0 < entity_id ->
    db_sync_anti_entropy_winner (import_all msA logA) entity entity_id = Some w <->
    (known logA msA w /\ m_entity w = entity /\ m_entity_id w = entity_id /\
     forall m, known logA msA m -> m_entity m = entity -> m_entity_id m = entity_id -> m <> w -> mutation_cmp m w = Lt).
Proof.
  intros HA HB Hms Hsame Hd. apply Forall_app in Hms as [HmA HmB].
  destruct (import_all_spec msA logA HA HmA Hd) as [Hok Hspec].
  destruct (import_all_spec msB logB HB HmB) as [_ HspecB].
  { intros m m' H H'. apply Hd; by apply Hsame. }
  split.
  - apply map_eq. intros k. apply option_eq. intros m. by rewrite Hspec, HspecB, Hsame.
  - intros entity entity_id w Hid. rewrite (winner_spec _ entity entity_id w Hok Hid).
    assert (Hrow : forall m, m ∈ rows_of (import_all msA logA) entity entity_id <->
              known logA msA m /\ m_entity m = entity /\ m_entity_id m = entity_id).
    { intros m. rewrite (rows_of_spec _ _ _ _ Hok), Hspec. intuition. }
    rewrite Hrow. split.
    + intros [(H1 & H2 & H3) H4]. repeat (split; [done|]). intros m Hm He Hi. apply H4. by apply Hrow.
    + intros (H1 & H2 & H3 & H4). split; [done|]. intros m Hm. apply Hrow in Hm as (? & ? & ?). by apply H4.
Qed.

Lemma latest_bound log entity entity_id m : m ∈ rows_of log entity entity_id ->
  m_changed_at m <= latest_changed_at log entity entity_id.
Proof.
  unfold latest_changed_at. generalize (rows_of log entity entity_id). intros l.
  induction l as [|x l IH]; intros H; [by apply not_elem_of_nil in H|]. cbn.
  apply elem_of_cons in H as [-> |H]; [lia|]. specialize (IH H). lia.
Qed.

Lemma latest_range log entity entity_id : log_ok log -> 0 <= latest_changed_at log entity entity_id <= LLONG_MAX.
Proof.
  intros Hok. unfold latest_changed_at.
  assert (H : forall m, m ∈ rows_of log entity entity_id -> m_changed_at m <= LLONG_MAX).
  { intros m Hm. apply rows_of_spec in Hm as [Hm _]; [|done]. by destruct (Hok _ _ Hm) as (_ & _ & ?). }
  revert H. generalize (rows_of log entity entity_id). intros l H.
  induction l as [|x l IH]; cbn; [unfold LLONG_MAX; lia|].
  pose proof (H x ltac:(set_solver)). assert (0 <= foldr (fun m acc => Z.max (m_changed_at m) acc) 0 l <= LLONG_MAX)
    by (apply IH; set_solver). lia.
Qed.

Lemma valid_intro random entity entity_id op payload changed_at :
  0 < entity_id -> 0 <= changed_at -> zlen entity <= 64 -> (op = CS "upsert" \/ op = CS "delete") ->
  zlen random = 32 -> forallb id_char random = true ->
  zlen (db_sync_payload_hash entity entity_id op payload changed_at) = 64 ->
  mutation_valid (Mutation random entity entity_id op payload changed_at (db_sync_payload_hash entity entity_id op payload changed_at)) = true.
Proof.
  intros Hid Hc He Hop Hr Hchars Hh. unfold mutation_valid.
  cbn [m_entity_id m_changed_at mutation_id m_entity m_payload_hash m_op m_payload].
  rewrite (proj2 (Z.leb_gt _ _)) by done. rewrite (proj2 (Z.ltb_ge _ _)) by done. cbn [orb].
  rewrite Hr, Hh. rewrite (proj2 (Z.ltb_ge 64 (zlen entity))) by done. cbn [Z.eqb Z.ltb orb negb Z.compare Pos.compare Pos.compare_cont Pos.eqb].
  assert (Hops : negb (streq op (CS "upsert")) && negb (streq op (CS "delete")) = false) by (by destruct Hop as [-> | ->]).
  rewrite Hops, Hchars. cbn [negb]. apply streq_refl.
Qed.

(** a mutation recorded on a node is accepted and is at once the winner of its row, whatever the
    node has imported before and however far behind its clock is, and the winners of the other rows
    stay; it is refused, with the log unchanged, exactly when the row holds the greatest timestamp,
    which any peer may have sent. *)
Theorem record_wins log now random entity entity_id op payload :
  (forall s, zlen (sha256_hex s) = 64) -> log_ok log -> log !! random = None ->
  zlen random = 32 -> forallb id_char random = true -> 0 <= now <= LLONG_MAX ->
  0 < entity_id -> zlen entity <= 64 -> (op = CS "upsert" \/ op = CS "delete") ->
  let '(ok, log') := db_sync_anti_entropy_record now random entity entity_id op payload log in
  log_ok log' /\
  (ok = true <-> latest_changed_at log entity entity_id <> LLONG_MAX) /\
  (ok = false -> log' = log) /\
  (ok = true -> exists m, db_sync_anti_entropy_winner log' entity entity_id = Some m /\
     m_op m = op /\ m_payload m = payload /\ now <= m_changed_at m /\ latest_changed_at log entity entity_id < m_changed_at m) /\
  (forall entity2 entity_id2 w, 0 < entity_id2 -> (entity2, entity_id2) <> (entity, entity_id) ->
     db_sync_anti_entropy_winner log' entity2 entity_id2 = Some w <-> db_sync_anti_entropy_winner log entity2 entity_id2 = Some w).
Proof.
  intros Hhash Hok Hfresh Hlen Hchars Hnow Hid Hent Hop. unfold db_sync_anti_entropy_record, next_changed_at.
  pose proof (latest_range log entity entity_id Hok) as Hl. set (latest := latest_changed_at log entity entity_id) in *.
  destruct (Z.eqb_spec latest LLONG_MAX) as [E|E].
  { split; [done|]. split; [split; [done|congruence]|]. split; [done|]. split; [done|]. done. }
  set (c := if now <=? latest then latest + 1 else now).
  assert (Hc : latest < c /\ now <= c <= LLONG_MAX) by (subst c; destruct (Z.leb_spec now latest); lia).
  clearbody c. set (m := Mutation random entity entity_id op payload c (db_sync_payload_hash entity entity_id op payload c)).
  assert (Hv : mutation_valid m = true) by (apply valid_intro; try done; [lia|apply Hhash]).
  pose proof (import_ok m log Hok ltac:(cbn; lia)) as Hok'. unfold db_sync_anti_entropy_import in Hok'.
  unfold insert_mutation in *. rewrite Hv in *. cbn [negb] in *. change (mutation_id m) with random in *. rewrite Hfresh in *.
  assert (Hrows : forall e i x, x ∈ rows_of (<[random := m]> log) e i <->
            x ∈ rows_of log e i \/ x = m /\ e = entity /\ i = entity_id).
  { intros e i x. rewrite !rows_of_spec by done. destruct (decide (mutation_id x = random)) as [Ex|Ex].
    - rewrite Ex, lookup_insert_eq, Hfresh. split.
      + intros ([= <-] & <- & <-). by right.
      + by intros [[? _]|(-> & -> & ->)].
    - rewrite lookup_insert_ne by done. split; [by left|]. by intros [?|(-> & _)]. }
  split; [done|]. split; [done|]. split; [done|]. split.
  - intros _. exists m. split; [|cbn; by split_and!; try lia]. apply winner_spec; [done..|]. split; [apply Hrows; by right|].
    intros x Hx Hne. apply Hrows in Hx as [Hx|[-> _]]; [|done]. apply latest_bound in Hx. fold latest in Hx.
    unfold mutation_cmp. cbn [m_changed_at]. change (m_changed_at m) with c. by rewrite (proj2 (Z.compare_lt_iff _ c)) by lia.
  - intros e i w Hi Hne. rewrite !winner_spec by done. rewrite Hrows. split.
    + intros [[Hw|(_ & -> & ->)] Hall]; [|done]. split; [done|]. intros x Hx. apply Hall, Hrows. by left.
    + intros [Hw Hall]. split; [by left|]. intros x Hx. apply Hrows in Hx as [Hx|(_ & -> & ->)]; [by apply Hall|done].
Qed.

(** A mutation whose id is taken is never imported: two nodes that have backfilled different rows
    under the same seq keep different winners whatever they send each other. *)
Theorem legacy_ids_diverge rowA rowB : j_seq rowA = j_seq rowB -> j_entity rowA = j_entity rowB ->
  j_entity_id rowA = j_entity_id rowB -> 0 < j_entity_id rowA -> j_payload rowA <> j_payload rowB ->
  mutation_valid (legacy_mutation rowA) = true -> mutation_valid (legacy_mutation rowB) = true ->
  j_seq rowA <= LLONG_MAX ->
  let logA := snd (backfill_journal [rowA] ∅) in
  let logB := snd (backfill_journal [rowB] ∅) in
  forall ms, Forall (fun m => m ∈ map snd (map_to_list logA) ++ map snd (map_to_list logB)) ms ->
  import_all ms logA = logA /\ import_all ms logB = logB /\
  db_sync_anti_entropy_winner logA (j_entity rowA) (j_entity_id rowA) <>
  db_sync_anti_entropy_winner logB (j_entity rowA) (j_entity_id rowA).
Proof.
  intros Hseq Hent Heid Hid Hpay HvA HvB Hmax logA logB.
  assert (HA : logA = {[mutation_id (legacy_mutation rowA) := legacy_mutation rowA]})
    by (subst logA; cbn [backfill_journal]; unfold insert_mutation; by rewrite HvA).
  assert (HB : logB = {[mutation_id (legacy_mutation rowB) := legacy_mutation rowB]})
    by (subst logB; cbn [backfill_journal]; unfold insert_mutation; by rewrite HvB).
  assert (Hids : mutation_id (legacy_mutation rowB) = mutation_id (legacy_mutation rowA)) by (cbn; by rewrite Hseq).
  rewrite HA, HB, Hids in *. clearbody logA logB. clear HA HB logA logB. rewrite !map_to_list_singleton. cbn [map app snd].
  intros ms Hms.
  assert (Hstay : forall m0, import_all ms {[mutation_id (legacy_mutation rowA) := m0]} = {[mutation_id (legacy_mutation rowA) := m0]}).
  { intros m0. induction Hms as [|m ms Hm Hms IH]; [done|]. cbn [import_all foldl]. fold (import_all ms).
    replace (db_sync_anti_entropy_import m _) with ({[mutation_id (legacy_mutation rowA) := m0]} : mutation_log); [done|].
    assert (Hmid : mutation_id m = mutation_id (legacy_mutation rowA)) by (apply elem_of_cons in Hm as [-> |Hm%list_elem_of_singleton]; [done|by subst m]).
    unfold db_sync_anti_entropy_import, insert_mutation. destruct (mutation_valid m); [|done]. cbn [negb].
    by rewrite Hmid, lookup_singleton_eq. }
  split; [done|]. split; [done|].
  unfold db_sync_anti_entropy_winner, rows_of. rewrite !map_to_list_singleton. rewrite (proj2 (Z.leb_gt _ _)) by done.
  cbn [map snd List.filter]. change (m_entity (legacy_mutation rowA)) with (j_entity rowA). change (m_entity_id (legacy_mutation rowA)) with (j_entity_id rowA).
  change (m_entity (legacy_mutation rowB)) with (j_entity rowB). change (m_entity_id (legacy_mutation rowB)) with (j_entity_id rowB).
  rewrite <- Hent, <- Heid, streq_refl, Z.eqb_refl. cbn [andb foldl greater]. intros [= E]. done.
Qed.
End hashed.

(** ** Two nodes with a mutation each *)

Definition toy_hash (s : list Z) : cstr := take 64 (s ++ replicate 64 48).
Definition toy_mutation (id : cstr) (op payload : cstr) (t : Z) : db_sync_mutation :=
  Mutation id (CS "post") 7 op payload t (db_sync_payload_hash toy_hash (CS "post") 7 op payload t).

Lemma toy_log_ok id op payload t : mutation_valid toy_hash (toy_mutation id op payload t) = true -> t <= LLONG_MAX ->
  log_ok toy_hash {[id := toy_mutation id op payload t]}.
Proof. intros Hv Ht k m Hm. apply lookup_singleton_Some in Hm as [<- <-]. by split. Qed.

Lemma anti_entropy_converges_witness :
  let a := toy_mutation (CS "a1") (CS "upsert") (CS "x") 5 in
  let b := toy_mutation (CS "b2") (CS "delete") [] 5 in
  import_all toy_hash [b; a; b] {[CS "a1" := a]} = import_all toy_hash [a] {[CS "b2" := b]}.
Proof.
  intros a b. assert (Ha : mutation_valid toy_hash a = true) by (vm_compute; reflexivity).
  assert (Hb : mutation_valid toy_hash b = true) by (vm_compute; reflexivity).
  assert (Hab : forall m, known toy_hash {[CS "a1" := a]} [b; a; b] m <-> m = a \/ m = b).
  { intros m. unfold known. rewrite lookup_singleton_Some, !elem_of_cons. split.
    - intros [[_ <-]|[[-> |[-> |[-> |H]]] _]]; [by left|by right|by left|by right|by apply not_elem_of_nil in H].
    - intros [-> | ->]; right; split; auto. }
  refine (proj1 (anti_entropy_converges toy_hash {[CS "a1" := a]} {[CS "b2" := b]} [b; a; b] [a] _ _ _ _ _)).
  - by apply toy_log_ok.
  - by apply toy_log_ok.
  - repeat constructor; vm_compute; discriminate.
  - intros m. rewrite Hab. unfold known. rewrite lookup_singleton_Some, !elem_of_cons. split.
    + intros [-> | ->]; [right; split; auto|by left].
    + intros [[_ <-]|[[-> |H] _]]; [by right|by left|by apply not_elem_of_nil in H].
  - intros m m'. rewrite !Hab. intros [-> | ->] [-> | ->]; done.
Defined.

Lemma record_wins_witness :
  let random := replicate 32 (CH "f") in
  let '(ok, log') := db_sync_anti_entropy_record toy_hash 3 random (CS "post") 7 (CS "upsert") (CS "new")
                       {[CS "a1" := toy_mutation (CS "a1") (CS "delete") [] 9]} in
  ok = true /\ exists m, db_sync_anti_entropy_winner log' (CS "post") 7 = Some m /\ m_payload m = CS "new".
Proof.
  intros random.
  pose proof (record_wins toy_hash {[CS "a1" := toy_mutation (CS "a1") (CS "delete") [] 9]} 3 random (CS "post") 7 (CS "upsert") (CS "new")) as H.
  destruct (db_sync_anti_entropy_record _ _ _ _ _ _ _ _) as [ok log'].
  destruct H as (_ & H1 & _ & H2 & _).
  - intros s. unfold toy_hash, zlen. rewrite length_take, length_app, length_replicate. lia.
  - apply toy_log_ok; [vm_compute; reflexivity|vm_compute; discriminate].
  - vm_compute. reflexivity.
  - vm_compute. reflexivity.
  - vm_compute. reflexivity.
  - unfold LLONG_MAX. lia.
  - lia.
  - vm_compute. discriminate.
  - by left.
  - assert (Hok : ok = true) by (apply H1; vm_compute; discriminate). split; [done|].
    destruct (H2 Hok) as (m & Hw & _ & Hp & _). by exists m.
Defined.

Lemma legacy_ids_diverge_witness :
  let rowA := JournalRow 41 (CS "post") 7 (CS "upsert") (CS "old primary") in
  let rowB := JournalRow 41 (CS "post") 7 (CS "upsert") (CS "new primary") in
  let logA := snd (backfill_journal toy_hash [rowA] ∅) in
  let logB := snd (backfill_journal toy_hash [rowB] ∅) in
  db_sync_anti_entropy_winner (import_all toy_hash [legacy_mutation toy_hash rowB] logA) (CS "post") 7 <>
  db_sync_anti_entropy_winner (import_all toy_hash [legacy_mutation toy_hash rowA] logB) (CS "post") 7.
Proof.
  intros rowA rowB. cbv zeta.
  assert (HA : map snd (map_to_list (snd (backfill_journal toy_hash [rowA] ∅))) = [legacy_mutation toy_hash rowA])
    by (vm_compute; reflexivity).
  assert (HB : map snd (map_to_list (snd (backfill_journal toy_hash [rowB] ∅))) = [legacy_mutation toy_hash rowB])
    by (vm_compute; reflexivity).
  assert (H : forall ms, Forall (fun m => m ∈ [legacy_mutation toy_hash rowA] ++ [legacy_mutation toy_hash rowB]) ms -> _)
    by (intros ms Hms; refine (legacy_ids_diverge toy_hash rowA rowB eq_refl eq_refl eq_refl ltac:(done) ltac:(done)
      ltac:(vm_compute; reflexivity) ltac:(vm_compute; reflexivity) ltac:(vm_compute; discriminate) ms _); by rewrite HA, HB).
  destruct (H [legacy_mutation toy_hash rowB]) as (-> & _ & Hne); [apply Forall_singleton; right; left|].
  destruct (H [legacy_mutation toy_hash rowA]) as (_ & -> & _); [apply Forall_singleton; left|].
  exact Hne.
Defined.
