(* ===== verification/FlywireCluster.v ===== *)
(** * The failover cluster (src/src/engine/flywire_cluster.c)

    Every site runs a thread that reads the status of its peers and decides: adopt a newer epoch,
    take over from a silent primary, fence itself, or hand the role back.  A node is the shared
    page, the thread's local state, the journal and the files of the site; a tick is a function of
    the views of the peers and the time.  The fields of the page are atomics of their own: a tick is
    given with its stores in order, and a status reply reads every field at a moment of its own,
    between any two stores.  The ticks of a site are those of one thread; a write checks the role and
    takes its number in one step.  The numbers of a reply are exact in a double.  HTTP, the failure
    of file writes and log output are not modelled. *)
From S2P Require Import Prelude.

Definition FLYWIRE_MAX_NODES : Z := 8.

(** The part of [g_flywire] the cluster reads. *)
Record flywire_config := FlywireConfig { n_nodes : Z; failover_auto : bool; failover_seconds : Z }.

Record flywire_shared := FlywireShared {
  fs_epoch : Z;
  fs_base_seq : Z;
  fs_primary_idx : Z;
  fs_fenced : bool;
  fs_primary_down : bool;
  fs_candidate_idx : Z;
  fs_handover_to : Z;
  fs_mean_rtt_ms : Z;
}.

Record cluster_local := ClusterLocal {
  primary_silent_since : Z;
  majority_lost_since : Z;
  handover_since : Z;
  confirmed : bool;
}.

(** The sequence numbers in [sync_journal], and the counter of its [AUTOINCREMENT]. *)
Record journal := Journal { sync_journal : list Z; sqlite_sequence : Z }.

Record node := Node {
  nd_fs : flywire_shared;
  nd_local : cluster_local;
  nd_journal : journal;
  nd_checkpoint : Z;
  nd_saved : option (Z * Z * Z);
}.

Record peer_view := PeerView {
  pv_ok : bool;
  pv_rtt_ms : Z;
  pv_epoch : Z;
  pv_base_seq : Z;
  pv_journal_max : Z;
  pv_primary_idx : Z;
  pv_primary_down : bool;
  pv_candidate_idx : Z;
  pv_handover_to : Z;
  pv_mean_rtt_ms : Z;
}.

Definition no_view : peer_view := PeerView false 0 0 0 0 (-1) false (-1) (-1) 0.

(** ** The journal *)

Definition journal_max (j : journal) : Z := foldr Z.max 0 (sync_journal j).

Definition applied_seq (nd : node) (is_primary : bool) : Z :=
  let jm := journal_max (nd_journal nd) in
  if is_primary then jm else if jm <? nd_checkpoint nd then nd_checkpoint nd else jm.

Definition journal_continue_after (base : Z) (j : journal) : journal :=
  Journal (sync_journal j) (Z.max (sqlite_sequence j) base).

Definition journal_truncate_after (base : Z) (j : journal) : journal :=
  if journal_max j <=? base then j else Journal (List.filter (fun s => s <=? base) (sync_journal j)) (sqlite_sequence j).

(** [INSERT OR REPLACE] of a row of the primary. *)
Definition flywire_cluster_mirror_row (seq : Z) (j : journal) : journal :=
  Journal (seq :: List.filter (fun s => negb (s =? seq)) (sync_journal j)) (Z.max (sqlite_sequence j) seq).

(** ** The saved state *)

Definition state_save (nd : node) : node :=
  Node (nd_fs nd) (nd_local nd) (nd_journal nd) (nd_checkpoint nd)
    (Some (fs_epoch (nd_fs nd), fs_primary_idx (nd_fs nd), fs_base_seq (nd_fs nd))).

Definition state_load (cfg : flywire_config) (saved : option (Z * Z * Z)) : Z * Z * Z :=
  let '(epoch, primary, base) := default (0, 0, 0) saved in
  (epoch, if (primary <? 0) || (n_nodes cfg <=? primary) then 0 else primary, base).

(** The page and the thread of a site that starts. *)
Definition flywire_cluster_start (cfg : flywire_config) (self : Z) (j : journal) (checkpoint : Z) (saved : option (Z * Z * Z)) : node :=
  let '(epoch, primary, base) := state_load cfg saved in
  Node (FlywireShared epoch base primary (primary =? self) false (-1) (-1) 0) (ClusterLocal 0 0 0 false) j checkpoint saved.

(** ** What a site answers and whether it takes writes *)

(** The reply reads the fields one after the other: [at_read k] is the site at the [k]-th load, the
    loads being epoch, base, primary, primary again, the journal, down, candidate, handover, fenced
    (which no peer uses) and rtt. *)
Definition handler_flywire_status (self : Z) (rtt : Z) (at_read : nat -> node) : peer_view :=
  let page k := nd_fs (at_read k) in
  PeerView true rtt (fs_epoch (page 0%nat)) (fs_base_seq (page 1%nat))
    (applied_seq (at_read 4%nat) (fs_primary_idx (page 3%nat) =? self)) (fs_primary_idx (page 2%nat))
    (fs_primary_down (page 5%nat)) (fs_candidate_idx (page 6%nat)) (fs_handover_to (page 7%nat)) (fs_mean_rtt_ms (page 9%nat)).

Definition flywire_is_primary (self : Z) (nd : node) : bool := fs_primary_idx (nd_fs nd) =? self.
Definition flywire_write_fenced (self : Z) (nd : node) : bool := (fs_primary_idx (nd_fs nd) =? self) && fs_fenced (nd_fs nd).

(** A write is taken when the site is neither a replica nor fenced; it gets the next sequence number. *)
Definition takes_writes (self : Z) (nd : node) : bool := flywire_is_primary self nd && negb (flywire_write_fenced self nd).
Definition journal_append (j : journal) : Z * journal :=
  let seq := Z.max (sqlite_sequence j) (journal_max j) + 1 in (seq, Journal (seq :: sync_journal j) seq).

(** ** Stores into the page *)

Inductive store :=
| Store_epoch (n : Z) | Store_base (n : Z) | Store_primary (n : Z) | Store_fenced (b : bool)
| Store_down (b : bool) | Store_candidate (n : Z) | Store_handover (n : Z) | Store_rtt (n : Z).

Definition apply_store (fs : flywire_shared) (s : store) : flywire_shared :=
  let '(FlywireShared epoch base primary fenced down cand handover rtt) := fs in
  match s with
  | Store_epoch n => FlywireShared n base primary fenced down cand handover rtt
  | Store_base n => FlywireShared epoch n primary fenced down cand handover rtt
  | Store_primary n => FlywireShared epoch base n fenced down cand handover rtt
  | Store_fenced b => FlywireShared epoch base primary b down cand handover rtt
  | Store_down b => FlywireShared epoch base primary fenced b cand handover rtt
  | Store_candidate n => FlywireShared epoch base primary fenced down n handover rtt
  | Store_handover n => FlywireShared epoch base primary fenced down cand n rtt
  | Store_rtt n => FlywireShared epoch base primary fenced down cand handover n
  end.
Definition apply_stores (stores : list store) (fs : flywire_shared) : flywire_shared := foldl apply_store fs stores.

Definition set_fs (fs : flywire_shared) (nd : node) : node :=
  Node fs (nd_local nd) (nd_journal nd) (nd_checkpoint nd) (nd_saved nd).
Definition set_local (l : cluster_local) (nd : node) : node :=
  Node (nd_fs nd) l (nd_journal nd) (nd_checkpoint nd) (nd_saved nd).

(** What a tick has stored so far, in order, and the site after that. *)
Definition progress : Type := list store * node.
Definition puts (stores : list store) (x : progress) : progress :=
  (fst x ++ stores, set_fs (apply_stores stores (nd_fs (snd x))) (snd x)).
Definition on_node (f : node -> node) (x : progress) : progress := (fst x, f (snd x)).

(** ** Decisions *)

Definition auto_better (jm_a rtt_a idx_a jm_b rtt_b idx_b : Z) : bool :=
  if negb (jm_a =? jm_b) then jm_b <? jm_a
  else if negb (rtt_a =? rtt_b) then rtt_a <? rtt_b
  else idx_a <? idx_b.

Section tick.
Context (cfg : flywire_config) (self : Z) (peers : Z -> peer_view).

Definition indices : list Z := map Z.of_nat (seq 0 (Z.to_nat (n_nodes cfg))).

Fixpoint pick_from (l : list Z) (primary my_jm my_rtt best best_jm best_rtt : Z) : Z :=
  match l with
  | [] => best
  | i :: l' =>
      if i =? primary then pick_from l' primary my_jm my_rtt best best_jm best_rtt
      else if negb ((i =? self) || pv_ok (peers i)) then pick_from l' primary my_jm my_rtt best best_jm best_rtt
      else
        let jm := if i =? self then my_jm else pv_journal_max (peers i) in
        let rtt := if i =? self then my_rtt else pv_mean_rtt_ms (peers i) in
        if best <? 0 then
          if negb (failover_auto cfg) then i else pick_from l' primary my_jm my_rtt i jm rtt
        else if auto_better jm rtt i best_jm best_rtt best
             then pick_from l' primary my_jm my_rtt i jm rtt
             else pick_from l' primary my_jm my_rtt best best_jm best_rtt
  end.

Definition pick_candidate (primary my_jm my_rtt : Z) : Z := pick_from indices primary my_jm my_rtt (-1) 0 0.

Definition reachable_peers : list Z := List.filter (fun i => negb (i =? self) && pv_ok (peers i)) indices.

Definition mean_rtt : Z :=
  match reachable_peers with
  | [] => 0
  | l => foldr (fun i acc => pv_rtt_ms (peers i) + acc) 0 l / zlen l
  end.

(** The first peer with the greatest epoch above ours, or -1. *)
Definition newest_epoch (my_epoch : Z) : Z :=
  foldl (fun newest i =>
    if (i =? self) || negb (pv_ok (peers i)) then newest
    else if (my_epoch <? pv_epoch (peers i)) && ((newest <? 0) || (pv_epoch (peers newest) <? pv_epoch (peers i)))
         then i else newest) (-1) indices.

Definition promote (base : Z) (x : progress) : progress :=
  let x := on_node (fun nd => Node (nd_fs nd) (nd_local nd) (journal_continue_after base (nd_journal nd)) (nd_checkpoint nd) (nd_saved nd)) x in
  let epoch := fs_epoch (nd_fs (snd x)) + 1 in
  on_node state_save
    (puts [Store_base base; Store_epoch epoch; Store_primary self; Store_handover (-1); Store_down false; Store_candidate (-1); Store_fenced false] x).

(** Follow the primary of a newer epoch. *)
Definition adopt (v : peer_view) (my_jm : Z) (x : progress) : progress :=
  let base := pv_base_seq v in
  let x := puts [Store_epoch (pv_epoch v); Store_primary (pv_primary_idx v); Store_base base; Store_handover (-1); Store_fenced false] x in
  on_node (fun nd =>
    let '(j, cp) :=
      if negb (pv_primary_idx v =? self) then
        if base <? my_jm then (journal_truncate_after base (nd_journal nd), base)
        else if negb (nd_checkpoint nd =? my_jm) then (nd_journal nd, my_jm)
        else (nd_journal nd, nd_checkpoint nd)
      else (nd_journal nd, nd_checkpoint nd) in
    state_save (Node (nd_fs nd) (ClusterLocal 0 0 (handover_since (nd_local nd)) false) j cp (nd_saved nd))) x.

(** The site a primary hands its role to: the first of those before it that has caught up. *)
Definition handover_target (my_epoch my_jm : Z) : Z :=
  match List.find (fun i => (i <? self) && pv_ok (peers i) && (pv_epoch (peers i) =? my_epoch) &&
                            (pv_primary_idx (peers i) =? self) && (pv_journal_max (peers i) =? my_jm)) indices with
  | Some i => i
  | None => -1
  end.

Definition primary_tick (now my_epoch my_jm fo_ms : Z) (x : progress) : progress :=
  let l := nd_local (snd x) in
  let handover := fs_handover_to (nd_fs (snd x)) in
  let majority := n_nodes cfg <? (1 + zlen reachable_peers) * 2 in
  let '(lost, conf) :=
    if majority then (0, true)
    else
      let lost := if majority_lost_since l =? 0 then now else majority_lost_since l in
      (lost, if (fo_ms <=? now - lost) && confirmed l then false else confirmed l) in
  let '(handover, stores, since) :=
    if 0 <=? handover then
      let target_ok := pv_ok (peers handover) && (pv_epoch (peers handover) =? my_epoch) in
      if negb target_ok || (3 * fo_ms <? now - handover_since l) then (-1, [Store_handover (-1)], handover_since l)
      else (handover, [], handover_since l)
    else if negb (failover_auto cfg) && conf then
      let i := handover_target my_epoch my_jm in
      if 0 <=? i then (i, [Store_handover i], now) else (handover, [], handover_since l)
    else (handover, [], handover_since l) in
  on_node (set_local (ClusterLocal (primary_silent_since l) lost since conf))
    (puts [Store_fenced (negb conf || (0 <=? handover)); Store_down false; Store_candidate (-1)] (puts stores x)).

(** The sites that see the same outage and name us. *)
Definition agreeing (my_epoch primary : Z) : list Z :=
  List.filter (fun i => negb (i =? self) && negb (i =? primary) && pv_ok (peers i) && (pv_epoch (peers i) =? my_epoch) &&
                        pv_primary_down (peers i) && (pv_candidate_idx (peers i) =? self)) indices.

Definition replica_tick (now my_epoch my_jm fo_ms : Z) (x : progress) : progress :=
  let fs := nd_fs (snd x) in
  let l := nd_local (snd x) in
  let primary := fs_primary_idx fs in
  let primary_ok := (0 <=? primary) && (primary <? n_nodes cfg) && pv_ok (peers primary) in
  let silent := if primary_ok then 0 else if primary_silent_since l =? 0 then now else primary_silent_since l in
  let down := negb primary_ok && (fo_ms <=? now - silent) in
  let cand := if down then pick_candidate primary my_jm (fs_mean_rtt_ms fs) else -1 in
  let x := puts [Store_down down; Store_candidate cand]
             (on_node (set_local (ClusterLocal silent (majority_lost_since l) (handover_since l) (confirmed l))) x) in
  if primary_ok && (pv_handover_to (peers primary) =? self) && (pv_epoch (peers primary) =? my_epoch) &&
     (pv_journal_max (peers primary) =? my_jm)
  then promote my_jm x
  else if down && (cand =? self) then
    if n_nodes cfg <? (1 + zlen (agreeing my_epoch primary)) * 2 then promote my_jm x else x
  else x.

(** [now] is the time the probes began; [db_ok] tells whether the database opens. *)
Definition cluster_progress (now : Z) (db_ok : bool) (nd : node) : progress :=
  let x := puts [Store_rtt mean_rtt] ([], nd) in
  if negb db_ok then x
  else
    let my_epoch := fs_epoch (nd_fs nd) in
    let primary := fs_primary_idx (nd_fs nd) in
    let my_jm := applied_seq nd (primary =? self) in
    let fo_ms := failover_seconds cfg * 1000 in
    let newest := newest_epoch my_epoch in
    if 0 <=? newest then adopt (peers newest) my_jm x
    else if primary =? self then primary_tick now my_epoch my_jm fo_ms x
    else replica_tick now my_epoch my_jm fo_ms x.

(** The site after a tick, and what the tick has stored. *)
Definition cluster_tick (now : Z) (db_ok : bool) (nd : node) : node := snd (cluster_progress now db_ok nd).
Definition tick_stores (now : Z) (db_ok : bool) (nd : node) : list store := fst (cluster_progress now db_ok nd).
End tick.

(** ** The cluster *)

Abbreviation cluster := (list node).

(** The view [self] gets of its peers: those it reaches answer with their page as it is, none being
    in the middle of a tick, the rtt of every probe being given. *)
Definition views (nodes : cluster) (self : Z) (up : Z -> bool) (rtt : Z -> Z) (i : Z) : peer_view :=
  match nodes !! Z.to_nat i with
  | Some nd => if up i && (0 <=? i) && negb (i =? self) then handler_flywire_status i (rtt i) (fun _ => nd) else no_view
  | None => no_view
  end.

Inductive cluster_event :=
| Tick (i : nat) (now : Z) (up : Z -> bool) (rtt : Z -> Z)
| Write (i : nat)
| Mirror (i : nat) (seq : Z).

Definition cluster_step (cfg : flywire_config) (nodes : cluster) (e : cluster_event) : cluster :=
  match e with
  | Tick i now up rtt =>
      match nodes !! i with
      | Some nd => <[i := cluster_tick cfg (Z.of_nat i) (views nodes (Z.of_nat i) up rtt) now true nd]> nodes
      | None => nodes
      end
  | Write i =>
      match nodes !! i with
      | Some nd => if takes_writes (Z.of_nat i) nd
                   then <[i := Node (nd_fs nd) (nd_local nd) (snd (journal_append (nd_journal nd))) (nd_checkpoint nd) (nd_saved nd)]> nodes
                   else nodes
      | None => nodes
      end
  | Mirror i s =>
      match nodes !! i with
      | Some nd => if flywire_is_primary (Z.of_nat i) nd then nodes
                   else <[i := Node (nd_fs nd) (nd_local nd) (flywire_cluster_mirror_row s (nd_journal nd)) s (nd_saved nd)]> nodes
      | None => nodes
      end
  end.

Definition cluster_run (cfg : flywire_config) (es : list cluster_event) (nodes : cluster) : cluster :=
  foldl (cluster_step cfg) nodes es.

(** All the sites started for the first time. *)
Definition cluster_start (cfg : flywire_config) : cluster :=
  map (fun i => flywire_cluster_start cfg (Z.of_nat i) (Journal [] 0) 0 None) (seq 0 (Z.to_nat (n_nodes cfg))).

(** The sites that take writes, with their epochs. *)
Definition writers (nodes : cluster) : list (nat * Z) :=
  omap (fun '(i, nd) => if takes_writes (Z.of_nat i) nd then Some (i, fs_epoch (nd_fs nd)) else None) (imap pair nodes).

(** ** One primary per epoch, for up to four sites in priority order *)

(** What [self] reads when the peers [up] answer and [src j] is how [j] is at the loads of its reply. *)
Definition late_views (cfg : flywire_config) (self : Z) (src : Z -> nat -> node) (up : Z -> bool) (rtt : Z -> Z) (j : Z) : peer_view :=
  if up j && (0 <=? j) && (j <? n_nodes cfg) && negb (j =? self) then handler_flywire_status j (rtt j) (src j) else no_view.

(** The states a site can be in between its ticks, its peers' answers being late and put together from
    several of their states.  A restart reads the saved state; a write, a mirrored row or a purge
    changes the journal and the checkpoint.  Of an answer only this is required: the epoch and the
    primary it names are those of one state of the peer between two ticks, [settled]. *)
Inductive site_state (cfg : flywire_config) : Z -> node -> Prop :=
| ss_start i j cp : 0 <= i < n_nodes cfg -> site_state cfg i (flywire_cluster_start cfg i j cp None)
| ss_restart i nd : site_state cfg i nd ->
    site_state cfg i (flywire_cluster_start cfg i (nd_journal nd) (nd_checkpoint nd) (nd_saved nd))
| ss_tick i nd peers now db_ok : site_state cfg i nd -> answers cfg i peers -> site_state cfg i (cluster_tick cfg i peers now db_ok nd)
| ss_journal i nd j cp : site_state cfg i nd ->
    site_state cfg i (Node (nd_fs nd) (nd_local nd) j cp (nd_saved nd))
(** What a reader of the page can find: a state between two ticks, or the page after some stores of one. *)
with visible (cfg : flywire_config) : Z -> node -> Prop :=
| vs_settled i nd : site_state cfg i nd -> visible cfg i nd
| vs_storing i nd peers now db_ok k j cp : site_state cfg i nd -> answers cfg i peers ->
    visible cfg i (Node (apply_stores (take k (tick_stores cfg i peers now db_ok nd)) (nd_fs nd)) (nd_local nd) j cp (nd_saved nd))
(** The views a site can get of its peers. *)
with answers (cfg : flywire_config) : Z -> (Z -> peer_view) -> Prop :=
| an_views i peers src settled up rtt : 
    (forall j k, up j = true -> 0 <= j < n_nodes cfg -> j <> i -> visible cfg j (src j k)) ->
    (forall j, up j = true -> 0 <= j < n_nodes cfg -> j <> i -> site_state cfg j (settled j)) ->
    (forall j, fs_epoch (nd_fs (src j 0%nat)) = fs_epoch (nd_fs (settled j)) /\
               fs_primary_idx (nd_fs (src j 2%nat)) = fs_primary_idx (nd_fs (settled j))) ->
    (forall j, peers j = late_views cfg i src up rtt j) -> answers cfg i peers.

Scheme site_state_mut := Minimality for site_state Sort Prop
  with visible_mut := Minimality for visible Sort Prop
  with answers_mut := Minimality for answers Sort Prop.
Combined Scheme site_states_ind from site_state_mut, visible_mut, answers_mut.

(** Epochs alternate between the first two sites; a candidate and the target of a handover never rank
    after the site that names them. *)
Record ranked (i : Z) (nd : node) : Prop := {
  rk_epoch : 0 <= fs_epoch (nd_fs nd);
  rk_primary : fs_primary_idx (nd_fs nd) = fs_epoch (nd_fs nd) `mod` 2;
  rk_candidate : fs_candidate_idx (nd_fs nd) <= i;
  rk_handover : fs_handover_to (nd_fs nd) < i \/ fs_handover_to (nd_fs nd) = -1;
  rk_saved : forall e p b, nd_saved nd = Some (e, p, b) -> 0 <= e /\ p = e `mod` 2;
}.

Definition view_ranked (j : Z) (v : peer_view) : Prop :=
  0 <= pv_epoch v /\ pv_primary_idx v = pv_epoch v `mod` 2 /\ pv_candidate_idx v <= j /\
  (pv_handover_to v < j \/ pv_handover_to v = -1).

(** What holds of the page at every moment. *)
Definition page_ranked (i : Z) (fs : flywire_shared) : Prop :=
  0 <= fs_epoch fs /\ fs_candidate_idx fs <= i /\ (fs_handover_to fs < i \/ fs_handover_to fs = -1).

Definition store_ranked (i : Z) (s : store) : Prop :=
  match s with
  | Store_epoch n => 0 <= n
  | Store_candidate n => n <= i
  | Store_handover n => n < i \/ n = -1
  | _ => True
  end.

Lemma ranked_page i nd : ranked i nd -> page_ranked i (nd_fs nd).
Proof. by intros []. Qed.

Lemma apply_stores_ranked i stores fs : Forall (store_ranked i) stores -> page_ranked i fs -> page_ranked i (apply_stores stores fs).
Proof.
  intros Hs. revert fs. induction Hs as [|s stores Hs _ IH]; intros fs Hfs; [done|]. apply IH.
  destruct fs, s; cbn in *; unfold page_ranked in *; cbn in *; tauto.
Qed.

Lemma status_ranked j rtt src settled : (forall k, page_ranked j (nd_fs (src k))) -> ranked j settled ->
  fs_epoch (nd_fs (src 0%nat)) = fs_epoch (nd_fs settled) -> fs_primary_idx (nd_fs (src 2%nat)) = fs_primary_idx (nd_fs settled) ->
  view_ranked j (handler_flywire_status j rtt src).
Proof.
  intros Hsrc [H1 H2 _ _ _] E1 E2. unfold view_ranked. cbn. rewrite E1, E2. split; [done|]. split; [done|].
  split; [apply (Hsrc 6%nat)|apply (Hsrc 7%nat)].
Qed.

Lemma indices_spec cfg i : In i (indices cfg) <-> 0 <= i < n_nodes cfg.
Proof.
  unfold indices. rewrite in_map_iff. split.
  - intros (k & <- & Hk). apply in_seq in Hk. lia.
  - intros H. exists (Z.to_nat i). split; [lia|]. apply in_seq. lia.
Qed.

Lemma indices_NoDup cfg : NoDup (indices cfg).
Proof.
  apply NoDup_fmap_2; [intros x y; lia|]. apply NoDup_seq.
Qed.

Section ranks.
Context (cfg : flywire_config) (self : Z) (peers : Z -> peer_view).
Context (Hprio : failover_auto cfg = false) (Hn : 2 <= n_nodes cfg <= 4) (Hself : 0 <= self < n_nodes cfg).
Context (Hpeers : forall j, pv_ok (peers j) = true -> 0 <= j < n_nodes cfg /\ j <> self /\ view_ranked j (peers j)).

(** In priority order the candidate is the first live site: at most ourselves. *)
Lemma pick_candidate_first primary my_jm my_rtt : self <> primary ->
  let c := pick_candidate cfg self peers primary my_jm my_rtt in c <= self /\ c <> primary.
Proof.
  intros Hne. unfold pick_candidate, indices.
  assert (H : forall k a, (Z.of_nat a <= self < Z.of_nat (a + k)) ->
    let c := pick_from cfg self peers (map Z.of_nat (seq a k)) primary my_jm my_rtt (-1) 0 0 in c <= self /\ c <> primary).
  { induction k as [|k IH]; intros a Ha; [lia|]. cbn [seq map pick_from].
    destruct (Z.eqb_spec (Z.of_nat a) primary) as [E|E].
    - apply IH. lia.
    - destruct (Z.eqb_spec (Z.of_nat a) self) as [Es|Es]; cbn [orb negb].
      + cbn [Z.ltb Z.compare]. rewrite Hprio. cbn [negb]. split; [lia|done].
      + destruct (pv_ok (peers (Z.of_nat a))); cbn [negb]; [|apply IH; lia].
        cbn [Z.ltb Z.compare]. rewrite Hprio. cbn [negb]. split; [lia|done]. }
  apply H. lia.
Qed.

(** Those who name us rank after us, so only the first replica can be elected. *)
Lemma election_parity my_epoch primary : primary = my_epoch `mod` 2 -> self <> primary ->
  n_nodes cfg < (1 + zlen (agreeing cfg self peers my_epoch primary)) * 2 -> self = (my_epoch + 1) `mod` 2.
Proof.
  intros Hp Hne Hmaj. set (later := List.filter (fun j => (self <? j) && negb (j =? primary)) (indices cfg)).
  assert (Hle : zlen (agreeing cfg self peers my_epoch primary) <= zlen later).
  { unfold zlen. apply inj_le, submseteq_length, NoDup_submseteq.
    - apply NoDup_ListNoDup, List.NoDup_filter, NoDup_ListNoDup. apply indices_NoDup.
    - intros j Hj. apply list_elem_of_In, filter_In in Hj as [Hin Hj]. apply list_elem_of_In, filter_In. split; [done|].
      rewrite !andb_true_iff in Hj. destruct Hj as (((((Hj1 & Hj2) & Hok) & _) & _) & Hc).
      apply Z.eqb_eq in Hc. destruct (Hpeers j Hok) as (_ & _ & _ & _ & Hcand & _).
      apply negb_true_iff, Z.eqb_neq in Hj1. rewrite Hj2, andb_true_r. apply Z.ltb_lt. lia. }
  assert (Hpar : my_epoch `mod` 2 = 0 /\ (my_epoch + 1) `mod` 2 = 1 \/ my_epoch `mod` 2 = 1 /\ (my_epoch + 1) `mod` 2 = 0)
    by (Z.div_mod_to_equations; lia).
  assert (Hcases : forall n p s, In n [2; 3; 4] -> In p [0; 1] -> In s [0; 1; 2; 3] -> s < n -> s <> p ->
    n < (1 + zlen (List.filter (fun j => (s <? j) && negb (j =? p)) (map Z.of_nat (seq 0 (Z.to_nat n))))) * 2 -> s = 1 - p).
  { intros n p s [<- |[<- |[<- |[]]]] [<- |[<- |[]]] [<- |[<- |[<- |[<- |[]]]]]; vm_compute; try congruence; intros; discriminate. }
  assert (H : self = 1 - primary); [|lia].
  apply (Hcases (n_nodes cfg)); [cbn; lia|cbn; lia|cbn; lia|lia|done|]. subst later. unfold indices in Hle. lia.
Qed.

Lemma newest_epoch_peer my_epoch : let k := newest_epoch cfg self peers my_epoch in
  0 <= k -> pv_ok (peers k) = true /\ my_epoch < pv_epoch (peers k).
Proof.
  unfold newest_epoch.
  enough (H : forall l k, (0 <= k -> pv_ok (peers k) = true /\ my_epoch < pv_epoch (peers k)) ->
    let k' := foldl (fun newest i =>
      if (i =? self) || negb (pv_ok (peers i)) then newest
      else if (my_epoch <? pv_epoch (peers i)) && ((newest <? 0) || (pv_epoch (peers newest) <? pv_epoch (peers i)))
           then i else newest) k l in 0 <= k' -> pv_ok (peers k') = true /\ my_epoch < pv_epoch (peers k')) by (apply H; lia).
  induction l as [|i l IH]; intros k Hk; [done|]. apply IH. destruct (i =? self); [done|]. destruct (pv_ok (peers i)) eqn:E; [|done]. cbn [orb negb].
  destruct (Z.ltb_spec my_epoch (pv_epoch (peers i))); cbn [andb]; [|done]. by case_match.
Qed.

Lemma handover_target_earlier my_epoch my_jm :
  handover_target cfg self peers my_epoch my_jm < self \/ handover_target cfg self peers my_epoch my_jm = -1.
Proof.
  unfold handover_target. destruct (List.find _ _) eqn:E; [|by right].
  apply find_some in E as [_ E]. rewrite !andb_true_iff in E. lia.
Qed.

(** A tick in progress: the site is in order, and so is everything stored. *)
Definition progress_ranked (x : progress) : Prop := Forall (store_ranked self) (fst x) /\ ranked self (snd x).

Lemma promote_ranked base x : progress_ranked x -> self = (fs_epoch (nd_fs (snd x)) + 1) `mod` 2 -> progress_ranked (promote self base x).
Proof.
  intros [Hl Hr] E. destruct Hr. destruct x as [l [[] loc j cp sv]]. cbn in *. split; cbn.
  - apply Forall_app. split; [done|]. repeat constructor; cbn; lia.
  - split; cbn; try lia. intros e p b [= <- <- <-]. lia.
Qed.

Lemma adopt_ranked j v my_jm x : progress_ranked x -> view_ranked j v -> progress_ranked (adopt self v my_jm x).
Proof.
  intros [Hl Hr] (Hv1 & Hv2 & _). destruct Hr. destruct x as [l [[] loc jn cp sv]]. unfold adopt, puts, on_node. cbn in *.
  destruct (if negb _ then _ else _) as [jn' cp']. split; cbn.
  - apply Forall_app. split; [done|]. repeat constructor; cbn; lia.
  - split; cbn; try lia. intros e p b [= <- <- <-]. lia.
Qed.

Lemma primary_tick_ranked now my_epoch my_jm fo_ms x : progress_ranked x -> progress_ranked (primary_tick cfg self peers now my_epoch my_jm fo_ms x).
Proof.
  intros [Hl Hr]. destruct Hr. pose proof (handover_target_earlier my_epoch my_jm) as Ht. unfold primary_tick.
  destruct (if _ <? _ then _ else _) as [lost conf].
  set (h := if 0 <=? fs_handover_to _ then _ else _).
  assert (Hh : h.1.2 = [] \/ exists n, h.1.2 = [Store_handover n] /\ (n < self \/ n = -1)).
  { subst h. repeat case_match; cbn; auto; right; eexists; (split; [done|]); auto. }
  destruct h as [[handover stores] since]. cbn [fst snd] in Hh. destruct x as [l [[] loc j cp sv]]. cbn in *. split; cbn.
  - apply Forall_app. split; [apply Forall_app; split; [done|]|repeat constructor; cbn; lia].
    destruct Hh as [-> |(n & -> & Hlt)]; [by apply Forall_nil|by apply Forall_singleton].
  - destruct Hh as [-> |(n & -> & Hlt)]; split; cbn; try lia; done.
Qed.

Lemma replica_tick_ranked now my_jm fo_ms x : progress_ranked x -> self <> fs_primary_idx (nd_fs (snd x)) ->
  progress_ranked (replica_tick cfg self peers now (fs_epoch (nd_fs (snd x))) my_jm fo_ms x).
Proof.
  intros [Hl Hr] Hne. destruct Hr. unfold replica_tick.
  set (primary := fs_primary_idx (nd_fs (snd x))) in *. set (ok := (0 <=? primary) && _ && _).
  set (down := negb ok && _).
  set (cand := if down then _ else -1).
  assert (Hcand : cand <= self).
  { subst cand. destruct down; [|lia]. by apply pick_candidate_first. }
  cbv zeta. match goal with |- context [promote self my_jm ?n] => set (x' := n) end.
  assert (Hx' : progress_ranked x' /\ fs_epoch (nd_fs (snd x')) = fs_epoch (nd_fs (snd x))).
  { subst x'. destruct x as [l [[] loc j cp sv]]. cbn in *. split; [|done]. split; cbn.
    - apply Forall_app. split; [done|]. repeat constructor; cbn; lia.
    - split; cbn; try lia. done. }
  destruct Hx' as [Hx' He']. clearbody x'.
  destruct (ok && _ && _ && _) eqn:Hho.
  - apply promote_ranked; [done|]. rewrite He'. rewrite !andb_true_iff in Hho. destruct Hho as (((Hok & Hho) & He) & _).
    unfold ok in Hok. rewrite !andb_true_iff in Hok. destruct (Hpeers primary) as (_ & _ & _ & _ & _ & Hlt); [apply Hok|].
    apply Z.eqb_eq in Hho. fold primary in rk_primary0. Z.div_mod_to_equations. lia.
  - destruct (down && (cand =? self)) eqn:Hd; [|done]. destruct (n_nodes cfg <? (1 + zlen _) * 2) eqn:Hmaj; [|done].
    apply promote_ranked; [done|]. rewrite He'. apply Z.ltb_lt in Hmaj. by apply (election_parity _ primary).
Qed.

Lemma cluster_progress_ranked now db_ok nd : ranked self nd -> progress_ranked (cluster_progress cfg self peers now db_ok nd).
Proof.
  intros Hr. unfold cluster_progress. set (x := puts _ ([], nd)).
  assert (Hx : progress_ranked x /\ fs_epoch (nd_fs (snd x)) = fs_epoch (nd_fs nd) /\ fs_primary_idx (nd_fs (snd x)) = fs_primary_idx (nd_fs nd)).
  { subst x. destruct nd as [[] loc j cp sv]. destruct Hr. cbn in *. split; [|done]. split; [by repeat constructor|]. by split. }
  destruct Hx as (Hx & Ee & Ep). clearbody x. destruct db_ok; cbn [negb]; [|done].
  destruct (Z.leb_spec 0 (newest_epoch cfg self peers (fs_epoch (nd_fs nd)))) as [H|_].
  - eapply adopt_ranked; [done|]. by apply Hpeers, (newest_epoch_peer (fs_epoch (nd_fs nd))).
  - destruct (Z.eqb_spec (fs_primary_idx (nd_fs nd)) self) as [|Hne].
    + by apply primary_tick_ranked.
    + rewrite <- Ee. apply replica_tick_ranked; [done|]. rewrite Ep. congruence.
Qed.
End ranks.

Section safety.
Context (cfg : flywire_config) (Hprio : failover_auto cfg = false) (Hn : 2 <= n_nodes cfg <= 4).

Lemma start_ranked i j cp saved : 0 <= i ->
  (forall e p b, saved = Some (e, p, b) -> 0 <= e /\ p = e `mod` 2) ->
  ranked i (flywire_cluster_start cfg i j cp saved).
Proof.
  intros Hi Hs. unfold flywire_cluster_start, state_load. destruct saved as [[[e p] b]|]; cbn [default from_option].
  - destruct (Hs e p b eq_refl) as [He Hp].
    assert (Hlt : (p <? 0) || (n_nodes cfg <=? p) = false) by (Z.div_mod_to_equations; lia). cbn. rewrite Hlt.
    split; cbn; [done|done|lia|lia|]. intros ??? [= <- <- <-]. done.
  - cbn. replace (if n_nodes cfg <=? 0 then 0 else 0) with 0 by (by case_match).
    split; cbn; [done|done|lia|lia|done].
Qed.

Lemma site_states_ranked :
  (forall i nd, site_state cfg i nd -> 0 <= i < n_nodes cfg /\ ranked i nd) /\
  (forall i nd, visible cfg i nd -> page_ranked i (nd_fs nd)) /\
  (forall i peers, answers cfg i peers -> forall j, pv_ok (peers j) = true -> 0 <= j < n_nodes cfg /\ j <> i /\ view_ranked j (peers j)).
Proof.
  apply site_states_ind.
  - intros i j cp Hi. split; [done|]. apply start_ranked; [lia|done].
  - intros i nd _ [Hi IH]. split; [done|]. apply start_ranked; [lia|apply IH].
  - intros i nd peers now db_ok _ [Hi IH] _ Hpeers. split; [done|]. by apply cluster_progress_ranked.
  - intros i nd j cp _ [Hi []]. split; [done|]. by split.
  - intros i nd _ [_ IH]. by apply ranked_page.
  - intros i nd peers now db_ok k j cp _ [Hi IH] _ Hpeers. cbn. apply apply_stores_ranked; [|by apply ranked_page].
    apply Forall_take. by apply cluster_progress_ranked.
  - intros i peers src settled up rtt _ Hsrc _ Hset Hsame Hpeers j. rewrite Hpeers. unfold late_views.
    destruct (up j && _ && _ && _) eqn:E; [|done]. intros _.
    rewrite !andb_true_iff, negb_true_iff in E. destruct E as (((Hup & H1) & H2) & H3).
    assert (Hj : 0 <= j < n_nodes cfg) by lia. assert (Hji : j <> i) by lia. split; [done|]. split; [done|].
    destruct (Hsame j) as [E1 E2]. apply (status_ranked j _ _ (settled j)); [by intros k; apply Hsrc|by apply Hset|done|done].
Qed.

Lemma site_state_index i nd : site_state cfg i nd -> 0 <= i < n_nodes cfg.
Proof. apply site_states_ranked. Qed.
Lemma site_state_ranked i nd : site_state cfg i nd -> ranked i nd.
Proof. apply site_states_ranked. Qed.

(** A run of the cluster is a special case: the answers are never late. *)
Lemma cluster_run_sites es : forall i nd, cluster_run cfg es (cluster_start cfg) !! i = Some nd -> site_state cfg (Z.of_nat i) nd.
Proof.
  unfold cluster_run.
  enough (H : forall nodes, (forall i nd, nodes !! i = Some nd -> site_state cfg (Z.of_nat i) nd) ->
    forall i nd, foldl (cluster_step cfg) nodes es !! i = Some nd -> site_state cfg (Z.of_nat i) nd).
  { apply H. intros i nd Hi. unfold cluster_start in Hi.
    apply list_lookup_fmap_Some in Hi as (k & -> & Hk). apply lookup_seq in Hk as [-> Hk]. apply ss_start. lia. }
  induction es as [|e es IH]; intros nodes Hnodes; [done|]. cbn [foldl]. apply IH. intros i nd.
  assert (Hupd : forall k nd', site_state cfg (Z.of_nat k) nd' -> <[k:=nd']> nodes !! i = Some nd -> site_state cfg (Z.of_nat i) nd).
  { intros k nd' Hs Hi. apply list_lookup_insert_Some in Hi as [(<- & <- & _)|[_ Hi]]; [done|by apply Hnodes]. }
  destruct e as [k now up rtt|k|k s]; cbn [cluster_step]; destruct (nodes !! k) as [nk|] eqn:Hk; try apply Hnodes.
  - set (src j := default nk (nodes !! Z.to_nat j)).
    apply Hupd, ss_tick; [by apply Hnodes|].
    apply (an_views _ _ _ (fun j _ => src j) src (fun j => up j && bool_decide (is_Some (nodes !! Z.to_nat j))) rtt).
    + intros j k' [_ Hj%bool_decide_eq_true]%andb_prop Hrange _. apply vs_settled. destruct Hj as [nj Hj]. unfold src. rewrite Hj.
      apply Hnodes in Hj. rewrite Z2Nat.id in Hj by lia. done.
    + intros j [_ Hj%bool_decide_eq_true]%andb_prop Hrange _. destruct Hj as [nj Hj]. unfold src. rewrite Hj.
      apply Hnodes in Hj. rewrite Z2Nat.id in Hj by lia. done.
    + done.
    + intros j. unfold views, late_views, src. destruct (nodes !! Z.to_nat j) as [nj|] eqn:Hj; cbn [default from_option].
      * rewrite bool_decide_eq_true_2, andb_true_r by done. destruct (Z.leb_spec 0 j); [|by rewrite !andb_false_r].
        apply Hnodes, site_state_index in Hj. replace (j <? n_nodes cfg) with true by lia. by rewrite !andb_true_r.
      * rewrite bool_decide_eq_false_2 by (intros []; congruence). by rewrite andb_false_r.
  - destruct (takes_writes _ _); [|apply Hnodes]. apply Hupd, ss_journal. by apply Hnodes.
  - destruct (flywire_is_primary _ _); [apply Hnodes|]. apply Hupd, ss_journal. by apply Hnodes.
Qed.
End safety.

(** C6: With two to four sites and failover=priority there is at most one primary per epoch, as long as
    no site acts on a reply whose epoch and primary are torn, that is, read from the page of the peer
    around one of its stores to the two: in every state two sites can reach between their ticks,
    whatever answers come late or never, whatever states of the peer, in the middle of ticks too,
    the other fields of a reply are read from, and across restarts, a site that takes itself for the
    primary is site [epoch mod 2], so two of them at one epoch are the same site; in a run of the
    cluster whose replies are read between ticks no two sites take writes at the same epoch. *)
Theorem cluster_one_primary_per_epoch (cfg : flywire_config) (Hprio : failover_auto cfg = false) (Hn : 2 <= n_nodes cfg <= 4) :
  (forall i nd, site_state cfg i nd -> flywire_is_primary i nd = true -> i = fs_epoch (nd_fs nd) `mod` 2) /\
  (forall i a j b, site_state cfg i a -> site_state cfg j b -> flywire_is_primary i a = true -> flywire_is_primary j b = true ->
     fs_epoch (nd_fs a) = fs_epoch (nd_fs b) -> i = j) /\
  (forall es i a j b, let nodes := cluster_run cfg es (cluster_start cfg) in nodes !! i = Some a -> nodes !! j = Some b ->
     takes_writes (Z.of_nat i) a = true -> takes_writes (Z.of_nat j) b = true -> fs_epoch (nd_fs a) = fs_epoch (nd_fs b) -> i = j).
Proof.
  assert (Hone : forall i nd, site_state cfg i nd -> flywire_is_primary i nd = true -> i = fs_epoch (nd_fs nd) `mod` 2).
  { intros i nd Hs Hp%Z.eqb_eq. destruct (site_state_ranked cfg Hprio Hn i nd Hs). congruence. }
  split; [done|]. split.
  - intros i a j b Ha Hb Hpa Hpb He. rewrite (Hone i a Ha Hpa), (Hone j b Hb Hpb). congruence.
  - intros es i a j b nodes Ha Hb [Hwa _]%andb_prop [Hwb _]%andb_prop He.
    apply Nat2Z.inj. apply (cluster_run_sites cfg Hprio Hn) in Ha, Hb. rewrite (Hone _ _ Ha Hwa), (Hone _ _ Hb Hwb). congruence.
Qed.

(** ** What goes wrong outside of these bounds *)

Definition all_up (_ : Z) : bool := true.
Definition cut (l : list Z) (i : Z) : bool := negb (existsb (Z.eqb i) l).
Definition tick_at (i : nat) (now : Z) (up : Z -> bool) : cluster_event := Tick i now up (fun _ => 1).

(** Three sites: the old primary 0 loses its peers after a tick at 500, sees that at 2400 and waits
    until 22400 before it fences; sites 1 and 2 have not reached it since 1000 and elect site 1 at 21000. *)
Definition overlap_run : list cluster_event :=
  [tick_at 0 500 all_up; tick_at 1 1000 (cut [0]); tick_at 2 1000 (cut [0]); tick_at 0 2400 (cut [1; 2]);
   tick_at 2 21000 (cut [0]); tick_at 1 21000 (cut [0])].

(** The election of the run: no other state of any site is primary of epoch 1. *)
Lemma cluster_one_primary_per_epoch_witness :
  let cfg := FlywireConfig 3 false 20 in
  exists nd, cluster_run cfg overlap_run (cluster_start cfg) !! 1%nat = Some nd /\ takes_writes 1 nd = true /\ fs_epoch (nd_fs nd) = 1 /\
    forall es j b, cluster_run cfg es (cluster_start cfg) !! j = Some b -> takes_writes (Z.of_nat j) b = true -> fs_epoch (nd_fs b) = 1 ->
      exists es' a, cluster_run cfg es' (cluster_start cfg) !! 1%nat = Some a /\ fs_epoch (nd_fs a) = fs_epoch (nd_fs b) /\ Z.of_nat j = 1.
Proof.
  eexists. split; [vm_compute; reflexivity|]. split; [reflexivity|]. split; [reflexivity|].
  intros es j b Hb Hw He.
  destruct (cluster_one_primary_per_epoch (FlywireConfig 3 false 20) ltac:(reflexivity) ltac:(cbn; lia)) as (Hone & _ & _).
  exists overlap_run. eexists. split; [vm_compute; reflexivity|]. split; [by rewrite He|].
  apply (cluster_run_sites (FlywireConfig 3 false 20) ltac:(reflexivity) ltac:(cbn; lia)) in Hb.
  rewrite (Hone _ _ Hb) by (by apply andb_prop in Hw as [Hw _]). by rewrite He.
Defined.

(** Both take writes at the same sequence number, before the old primary fences itself. *)
Lemma fence_overlap : let cfg := FlywireConfig 3 false 20 in let nodes := cluster_run cfg overlap_run (cluster_start cfg) in
  writers nodes = [(0%nat, 0); (1%nat, 1)] /\
  map (fun nd => fst (journal_append (nd_journal nd))) (firstn 2 nodes) = [1; 1].
Proof. by vm_compute. Qed.


(** A torn reply.  Site 0 has failed and come back; site 1, the primary of epoch 1, hands the role back
    to it; the tick of site 0 that takes it over stores the new epoch before the new primary.  A reply
    read between the two names epoch 2 and site 1 as its primary. *)
Definition handover_run : list cluster_event :=
  [tick_at 1 1000 (cut [0]); tick_at 2 1000 (cut [0]); tick_at 2 21000 (cut [0]); tick_at 1 21000 (cut [0]);
   tick_at 0 21500 all_up; tick_at 1 22000 all_up; tick_at 1 23000 all_up].

Lemma torn_reply_two_primaries : let cfg := FlywireConfig 3 false 20 in
  let nodes := cluster_run cfg handover_run (cluster_start cfg) in
  exists zero one, nodes !! 0%nat = Some zero /\ nodes !! 1%nat = Some one /\
    let peers0 := views nodes 0 all_up (fun _ => 1) in
    let stores := tick_stores cfg 0 peers0 24000 true zero in
    let storing k := set_fs (apply_stores (take k stores) (nd_fs zero)) zero in
    let torn j := if j =? 0 then handler_flywire_status 0 1 (fun _ => storing 5%nat) else no_view in
    let zero' := cluster_tick cfg 0 peers0 24000 true zero in
    let one' := cluster_tick cfg 1 torn 24000 true one in
    takes_writes 0 zero' = true /\ takes_writes 1 one' = true /\
    fs_epoch (nd_fs zero') = 2 /\ fs_epoch (nd_fs one') = 2.
Proof. eexists _, _. split; [vm_compute; reflexivity|]. split; [vm_compute; reflexivity|]. by vm_compute. Qed.

(** Five sites, [failover=auto]: the primary 0 is gone and the others elect site 1; before they hear of
    it a round in which site 1 answers nobody elects site 2 as well. *)
Definition cfg5 : flywire_config := FlywireConfig 5 true 20.
Definition split_run : list cluster_event :=
  [tick_at 1 1000 (cut [0]); tick_at 2 1000 (cut [0]); tick_at 3 1000 (cut [0]); tick_at 4 1000 (cut [0]);
   tick_at 2 21000 (cut [0]); tick_at 3 21000 (cut [0]); tick_at 4 21000 (cut [0]); tick_at 1 21000 (cut [0]);
   tick_at 3 21100 (cut [0; 1]); tick_at 4 21200 (cut [0; 1]); tick_at 2 21300 (cut [0; 1])].

Record split_node (i : Z) (nd : node) : Prop := {
  sp_epoch : fs_epoch (nd_fs nd) <= 1;
  sp_primary : 0 <= fs_primary_idx (nd_fs nd) < 5;
  sp_handover : fs_handover_to (nd_fs nd) = -1;
  sp_two : i = 1 \/ i = 2 -> fs_epoch (nd_fs nd) = 1 /\ fs_primary_idx (nd_fs nd) = i /\ fs_fenced (nd_fs nd) = false;
}.

Section split.
Context (self : Z) (peers : Z -> peer_view) (Hself : 0 <= self < 5).
Context (Hup : forall j, 0 <= j < 5 -> j <> self -> exists nd rtt, split_node j nd /\ peers j = handler_flywire_status j rtt (fun _ => nd)).
Context (Hin : forall j, pv_ok (peers j) = true -> 0 <= j < 5 /\ j <> self).

Lemma split_reachable : zlen (reachable_peers cfg5 self peers) = 4.
Proof.
  unfold reachable_peers. rewrite (List.filter_ext_in _ (fun i => negb (i =? self))).
  - assert (E : In self [0; 1; 2; 3; 4]) by (cbn; lia). by repeat (destruct E as [<- | E]; [by vm_compute|]).
  - intros j Hj%indices_spec. destruct (Z.eqb_spec j self); [done|].
    by destruct (Hup j Hj) as (nd & rtt & _ & ->).
Qed.

Lemma split_tick now db_ok nd : split_node self nd -> split_node self (cluster_tick cfg5 self peers now db_ok nd).
Proof.
  intros Hnd. unfold cluster_tick, cluster_progress. set (x := puts _ ([], nd)).
  assert (Hx : split_node self (snd x) /\ fs_epoch (nd_fs (snd x)) = fs_epoch (nd_fs nd) /\ fs_primary_idx (nd_fs (snd x)) = fs_primary_idx (nd_fs nd)).
  { subst x. destruct nd as [[] loc j cp sv], Hnd. split; [by split|done]. }
  destruct Hx as (Hx & Ee & Ep). clearbody x. clear Hnd. destruct db_ok; cbn [negb]; [|done].
  destruct (Z.leb_spec 0 (newest_epoch cfg5 self peers (fs_epoch (nd_fs nd)))) as [H|_].
  - destruct (newest_epoch_peer cfg5 self peers (fs_epoch (nd_fs nd)) H) as [Hok Hlt]. destruct (Hin _ Hok) as [Hj Hne].
    destruct (Hup _ Hj Hne) as (nj & rtt & [] & E). rewrite E in *. cbn in Hlt. destruct Hx, x as [l [[] loc j cp sv]]. cbn in *.
    unfold adopt, puts, on_node. cbn. destruct (if negb _ then _ else _) as [jn cp']. split; cbn; lia.
  - rewrite <- Ep. destruct x as [l [fs loc j cp sv]]. destruct Hx as [He Hp Hh Htwo]. cbn in *.
    destruct (Z.eqb_spec (fs_primary_idx fs) self) as [Hs|Hs].
    + unfold primary_tick. rewrite split_reachable. change (n_nodes cfg5 <? (1 + 4) * 2) with true.
      destruct fs. cbn in *. rewrite Hh. split; cbn; [done..|]. intros Hi. by destruct (Htwo Hi) as (? & ? & _).
    + unfold replica_tick. destruct (Hup (fs_primary_idx fs) Hp Hs) as (nj & rtt & [] & E).
      cbn [snd nd_fs]. rewrite E. cbn [handler_flywire_status pv_ok].
      replace (0 <=? fs_primary_idx fs) with true by lia. replace (fs_primary_idx fs <? n_nodes cfg5) with true by (cbn; lia).
      cbn [andb negb handler_flywire_status pv_handover_to]. rewrite sp_handover0. replace (-1 =? self) with false by lia.
      destruct fs. cbn in *. by split.
Qed.
End split.

Definition split_cluster (nodes : cluster) : Prop :=
  length nodes = 5%nat /\ forall i nd, nodes !! i = Some nd -> split_node (Z.of_nat i) nd.

Definition connected (e : cluster_event) : Prop :=
  match e with Tick _ _ up _ => forall j, up j = true | _ => True end.

Lemma split_step nodes e : connected e -> split_cluster nodes -> split_cluster (cluster_step cfg5 nodes e).
Proof.
  intros He [Hlen Hnodes].
  assert (Hupd : forall k nd', split_node (Z.of_nat k) nd' -> split_cluster (<[k:=nd']> nodes)).
  { intros k nd' Hs. split; [by rewrite length_insert|]. intros i nd Hi.
    apply list_lookup_insert_Some in Hi as [(<- & <- & _)|[_ Hi]]; [done|by apply Hnodes]. }
  assert (Hsome : forall j, 0 <= j < 5 -> exists nj, nodes !! Z.to_nat j = Some nj /\ split_node j nj).
  { intros j Hj. destruct (lookup_lt_is_Some_2 nodes (Z.to_nat j)) as [nj Hnj]; [lia|]. exists nj. split; [done|].
    apply Hnodes in Hnj. by rewrite Z2Nat.id in Hnj by lia. }
  destruct e as [k now up rtt|k|k s]; cbn [cluster_step]; destruct (nodes !! k) as [nk|] eqn:Hk; try done.
  - pose proof (lookup_lt_Some _ _ _ Hk). apply Hupd, split_tick; [lia| | |by apply Hnodes]; unfold views.
    + intros j Hj Hne. destruct (Hsome j Hj) as (nj & -> & Hs). exists nj, (rtt j). split; [done|].
      cbn in He. rewrite He. replace (0 <=? j) with true by lia. by replace (j =? Z.of_nat k) with false by lia.
    + intros j. destruct (nodes !! Z.to_nat j) eqn:E; [|done]. apply lookup_lt_Some in E.
      destruct (up j && _ && _) eqn:Ha; [|done]. rewrite !andb_true_iff, negb_true_iff in Ha. lia.
  - destruct (takes_writes _ _); [|done]. apply Hupd. destruct (Hnodes _ _ Hk). by split.
  - destruct (flywire_is_primary _ _); [done|]. apply Hupd. destruct (Hnodes _ _ Hk). by split.
Qed.

(** Two primaries of one epoch never part: with five sites and failover=auto two sites are elected
    at epoch 1, and no event of the cluster, connected again, makes either of them stop taking writes. *)
Theorem split_brain_forever es : Forall connected es ->
  let nodes := cluster_run cfg5 (split_run ++ es) (cluster_start cfg5) in
  exists a b, nodes !! 1%nat = Some a /\ nodes !! 2%nat = Some b /\
    takes_writes 1 a = true /\ takes_writes 2 b = true /\ fs_epoch (nd_fs a) = 1 /\ fs_epoch (nd_fs b) = 1.
Proof.
  intros Hes nodes.
  assert (Hinv : split_cluster nodes).
  { subst nodes. unfold cluster_run. rewrite foldl_app. change (foldl _ _ split_run) with (cluster_run cfg5 split_run (cluster_start cfg5)).
    assert (Hstart : split_cluster (cluster_run cfg5 split_run (cluster_start cfg5))).
    { vm_compute. split; [done|]. intros i nd Hi. do 5 (destruct i as [|i]; [injection Hi as <-; split; cbn; lia|]). done. }
    revert Hstart. generalize (cluster_run cfg5 split_run (cluster_start cfg5)).
    induction Hes as [|e es He _ IH]; intros nodes [Hlen Hnodes]; [done|]. by apply IH, split_step. }
  destruct Hinv as [Hlen Hnodes].
  destruct (lookup_lt_is_Some_2 nodes 1) as [a Ha]; [lia|]. destruct (lookup_lt_is_Some_2 nodes 2) as [b Hb]; [lia|].
  exists a, b. destruct (Hnodes _ _ Ha) as [_ _ _ Ha']. destruct (Hnodes _ _ Hb) as [_ _ _ Hb'].
  destruct Ha' as (? & E1 & E2); [lia|]. destruct Hb' as (? & E3 & E4); [lia|].
  unfold takes_writes, flywire_write_fenced, flywire_is_primary. by rewrite E1, E2, E3, E4.
Qed.

(** Two rounds of every site with all the links up, and a write at both. *)
Definition healed : list cluster_event :=
  concat (map (fun now => map (fun i => tick_at i now all_up) (seq 0 5)) [30000; 40000]) ++ [Write 1; Write 2].

Lemma split_brain_forever_witness :
  let nodes := cluster_run cfg5 (split_run ++ healed) (cluster_start cfg5) in
  (exists a b, nodes !! 1%nat = Some a /\ nodes !! 2%nat = Some b /\
    takes_writes 1 a = true /\ takes_writes 2 b = true /\ fs_epoch (nd_fs a) = 1 /\ fs_epoch (nd_fs b) = 1) /\
  map (fun nd => sync_journal (nd_journal nd)) nodes = [[]; [1]; [1]; []; []].
Proof.
  split; [|by vm_compute]. apply split_brain_forever. repeat constructor.
Defined.
