(* ===== verification/Flywire.v ===== *)
(** * Replication of a site (src/src/engine/flywire.c, the journal of src/src/db/db_sync.c)

    The primary appends one row to its journal for every mutation; a replica asks for the rows after
    its checkpoint ([handler_flywire_feed]), applies them one by one ([flywire_apply_row]), mirrors
    them in its own journal and moves its checkpoint ([flywire_poll_once]).  The databases are maps
    from table and key to a row; a statement is refused when the constraints of the schema refuse
    its result.  cJSON's parser and printer, SQLite's constraints, the rows its foreign keys remove
    with another, and column defaults are parameters.  Numbers are integers exact in a double, keys
    of snapshots are numbers, and the text of an upsert fits its buffer.  The search index, the
    HTTP transport and log output are not modelled. *)
From stdpp Require Import sorting.
From S2P Require Import Prelude CStr Files Strutil AntiEntropy.

(** ** Rows and their snapshots *)

Inductive value := VInt (n : Z) | VText (s : cstr) | VNull.

Inductive json := JNumber (n : Z) | JString (s : cstr) | JNull | JObject (fields : list (list Z * json)) | JOther.

Abbreviation columns := (gmap (list Z) value).

(** [cJSON_GetObjectItem] compares names without case. *)
Definition cJSON_GetObjectItem (fields : list (cstr * json)) (name : cstr) : option json :=
  snd <$> List.find (fun '(k, _) => streq (map tolower k) (map tolower name)) fields.

Definition INT_MAX : Z := 2 ^ 31 - 1.

(** [valueint] of an item: a number is clamped to the range of [int], anything else is 0. *)
Definition valueint (j : json) : Z := match j with JNumber n => Z.max (- INT_MAX - 1) (Z.min n INT_MAX) | _ => 0 end.
Definition int_or (default : Z) (j : option json) : Z := match j with Some j => valueint j | None => default end.
Definition string_or (default : cstr) (j : option json) : cstr := match j with Some (JString s) => s | _ => default end.

(** One column of [db_sqlite3_rows_to_json]: integers go through [sqlite3_column_int]. *)
Definition column_to_json (v : value) : json :=
  match v with VInt n => JNumber (i32 n) | VText s => JString s | VNull => JNull end.

(** What [flywire_apply_upsert] binds. *)
Definition bind_value (j : json) : value :=
  match j with JNumber n => VInt n | JString s => VText s | _ => VNull end.

(** ** The databases *)

Record databases := Databases {
  db_rows : gmap (list Z * Z) columns;
  db_perms : gset (Z * Z);
  db_tag_links : gset (Z * Z);
  db_i18n : gmap (list Z * Z) (list Z * Z);
}.

Inductive flywire_db_kind := FLYWIRE_DB_MAIN | FLYWIRE_DB_COMMENTS | FLYWIRE_DB_TREE.

Record flywire_entity_t := FlywireEntity { e_entity : cstr; e_table : cstr; e_db : flywire_db_kind; e_special : bool }.

Definition k_entities : list flywire_entity_t :=
  [FlywireEntity (CS "post") (CS "posts") FLYWIRE_DB_MAIN false;
   FlywireEntity (CS "board") (CS "boards") FLYWIRE_DB_MAIN false;
   FlywireEntity (CS "board_perm") (CS "board_permissions") FLYWIRE_DB_MAIN true;
   FlywireEntity (CS "board_delegation") (CS "board_delegations") FLYWIRE_DB_MAIN false;
   FlywireEntity (CS "file") (CS "files") FLYWIRE_DB_MAIN false;
   FlywireEntity (CS "series") (CS "series") FLYWIRE_DB_MAIN false;
   FlywireEntity (CS "tag") (CS "tags") FLYWIRE_DB_MAIN false;
   FlywireEntity (CS "tag_link") (CS "post_tags") FLYWIRE_DB_MAIN true;
   FlywireEntity (CS "vote") (CS "post_votes") FLYWIRE_DB_MAIN false;
   FlywireEntity (CS "vote_anon") (CS "post_votes_anon") FLYWIRE_DB_MAIN false;
   FlywireEntity (CS "i18n") (CS "i18n") FLYWIRE_DB_MAIN true;
   FlywireEntity (CS "comment") (CS "comments") FLYWIRE_DB_COMMENTS false;
   FlywireEntity (CS "board_tree") (CS "board_tree") FLYWIRE_DB_TREE false;
   FlywireEntity (CS "user") (CS "users") FLYWIRE_DB_MAIN false;
   FlywireEntity (CS "email") (CS "emails") FLYWIRE_DB_MAIN false;
   FlywireEntity (CS "guestbook") (CS "guestbook") FLYWIRE_DB_MAIN false].

Definition flywire_entity (name : cstr) : option flywire_entity_t := List.find (fun e => streq (e_entity e) name) k_entities.

(** The tables [flywire_cols_slot] knows. *)
Definition cols_tables : list cstr :=
  [CS "posts"; CS "boards"; CS "files"; CS "series"; CS "tags"; CS "post_votes"; CS "post_votes_anon"; CS "comments";
   CS "board_tree"; CS "users"; CS "emails"; CS "guestbook"; CS "board_delegations"].

Definition FLYWIRE_COLS_MAX : nat := 32.
Definition FLYWIRE_FEED_LIMIT : Z := 5000.
Definition FLYWIRE_PENDING_MAX : nat := 64.
Definition PATH_MAX : nat := Z.to_nat 4096.

Definition key_column (e : flywire_entity_t) : cstr := if streq (e_entity e) (CS "board_tree") then CS "board_id" else CS "id".

(** ** The state of a replica *)

Record pending_profile := PendingProfile { pp_user : Z; pp_source : cstr; pp_file : cstr }.

Record replica := Replica {
  r_dbs : databases;
  r_files : fs;
  r_pending_files : list Z;
  r_pending_profiles : list pending_profile;
}.

Definition set_dbs (d : databases) (r : replica) : replica := Replica d (r_files r) (r_pending_files r) (r_pending_profiles r).
Definition set_files (f : fs) (r : replica) : replica := Replica (r_dbs r) f (r_pending_files r) (r_pending_profiles r).

(** ** Pending fetches *)

Definition flywire_enqueue_file (file_id : Z) (q : list Z) : list Z :=
  if file_id <=? 0 then q
  else if existsb (Z.eqb file_id) q then q
  else if (length q <? FLYWIRE_PENDING_MAX)%nat then q ++ [file_id] else q.

Definition flywire_dequeue_file (q : list Z) : Z * list Z := match q with [] => (0, []) | id :: q' => (id, q') end.

Definition flywire_profile_local_path (profile_url : cstr) (out_size : nat) : option cstr :=
  if negb (starts_with (CS "/assets/profile/") profile_url) then None
  else
    let name := drop 16 profile_url in
    if streq name [] || streq name (CS ".") || streq name (CS "..") ||
       bool_decide (is_Some (strchr name (CH "/"))) || bool_decide (is_Some (strchr name (CH "\"))) then None
    else
      let out := CS "public/profile/" ++ name in
      if (length out <? out_size)%nat then Some out else None.

(** The first entry of the user is replaced. *)
Fixpoint replace_profile (item : pending_profile) (q : list pending_profile) : list pending_profile :=
  match q with
  | [] => []
  | p :: q' => if pp_user p =? pp_user item then item :: q' else p :: replace_profile item q'
  end.

Definition flywire_enqueue_profile (user_id : Z) (profile_url : cstr) (q : list pending_profile) : list pending_profile :=
  if user_id <=? 0 then q
  else match flywire_profile_local_path profile_url PATH_MAX with
  | None => q
  | Some file_path =>
      let source := profile_url ++ CS "?raw=1" in
      if (PATH_MAX <=? length source)%nat then q
      else
        let item := PendingProfile user_id source file_path in
        if existsb (fun p => pp_user p =? user_id) q
        then replace_profile item q
        else if (length q <? FLYWIRE_PENDING_MAX)%nat then q ++ [item] else q
  end.

Definition flywire_dequeue_profile (q : list pending_profile) : option pending_profile * list pending_profile :=
  match q with [] => (None, []) | p :: q' => (Some p, q') end.

Definition flywire_file_bytes_ok (files : fs) (file_path : cstr) (expected : Z) : bool :=
  match files !! file_path with
  | None => false
  | Some content => if 0 <? expected then zlen content =? expected else 0 <? zlen content
  end.

Section site.
Context (table_info : list Z -> list (list Z)) (column_default : list Z -> list Z -> value).
Context (accepts : databases -> databases -> bool) (cascade : list Z -> Z -> databases -> databases).
Context (cJSON_Parse : list Z -> option json) (cJSON_PrintUnformatted : json -> list Z).
Context (auth_admin_username : list Z) (auth_site_admin_uid : Z).

(** ** Statements *)

Section row.
(** Whether the statements of a row fail for a passing reason, and whether the database of comments
    or of the board tree opens. *)
Context (busy conn_open : bool).

(** A statement whose result breaks a constraint has no effect. *)
Definition exec (f : databases -> databases) (d : databases) : bool * databases :=
  if negb busy && accepts d (f d) then (true, f d) else (false, d).

Definition upd_rows (f : gmap (list Z * Z) columns -> gmap (list Z * Z) columns) (d : databases) : databases :=
  Databases (f (db_rows d)) (db_perms d) (db_tag_links d) (db_i18n d).
Definition upd_perms (f : gset (Z * Z) -> gset (Z * Z)) (d : databases) : databases :=
  Databases (db_rows d) (f (db_perms d)) (db_tag_links d) (db_i18n d).
Definition upd_tag_links (f : gset (Z * Z) -> gset (Z * Z)) (d : databases) : databases :=
  Databases (db_rows d) (db_perms d) (f (db_tag_links d)) (db_i18n d).
Definition upd_i18n (f : gmap (list Z * Z) (list Z * Z) -> gmap (list Z * Z) (list Z * Z)) (d : databases) : databases :=
  Databases (db_rows d) (db_perms d) (db_tag_links d) (f (db_i18n d)).

(** Set the columns [cs] to the values of the payload. *)
Definition set_columns (fields : list (list Z * json)) (cs : list (list Z)) (row : columns) : columns :=
  foldl (fun row c => match cJSON_GetObjectItem fields c with Some j => <[c := bind_value j]> row | None => row end) row cs.

Definition default_row (table : cstr) : columns :=
  foldl (fun row c => <[c := column_default table c]> row) ∅ (table_info table).

(** [INSERT INTO table (cs) VALUES ... ON CONFLICT(key_col) DO UPDATE SET ...] *)
Definition upsert (table key_col : cstr) (key : Z) (fields : list (cstr * json)) (cs : list (list Z)) : databases -> databases :=
  upd_rows (fun rows =>
    match rows !! (table, key) with
    | Some row => <[(table, key) := set_columns fields (List.filter (fun c => negb (streq c key_col)) cs) row]> rows
    | None => <[(table, key) := set_columns fields cs (default_row table)]> rows
    end).

Definition flywire_table_cols (table : cstr) : list (list Z) :=
  map (fun c => snprintf_s 48 c) (take FLYWIRE_COLS_MAX (table_info table)).

Definition flywire_apply_upsert (e : flywire_entity_t) (payload : json) (d : databases) : bool * databases :=
  match payload with
  | JObject fields =>
      if negb (existsb (streq (e_table e)) cols_tables) then (false, d)
      else if (length (flywire_table_cols (e_table e)) =? 0)%nat then (false, d)
      else
        let cs := List.filter (fun c => bool_decide (is_Some (cJSON_GetObjectItem fields c))) (flywire_table_cols (e_table e)) in
        if negb (existsb (streq (key_column e)) cs) then (false, d)
        else match cJSON_GetObjectItem fields (key_column e) with
        | Some (JNumber key) => exec (upsert (e_table e) (key_column e) key fields cs) d
        | _ => (false, d)
        end
  | _ => (false, d)
  end.

(** [DELETE] of a row by its key, with what the foreign keys remove. *)
Definition delete_row (table : cstr) (key : Z) (d : databases) : databases :=
  match db_rows d !! (table, key) with
  | Some _ => upd_rows (delete (table, key)) (cascade table key d)
  | None => d
  end.

(** The fields of a payload: none when it is not an object. *)
Definition fields_of (j : json) : list (list Z * json) := match j with JObject l => l | _ => [] end.

Definition perm_of (entity_id : Z) (fields : list (cstr * json)) : Z * Z :=
  (int_or entity_id (cJSON_GetObjectItem fields (CS "board_id")), int_or 0 (cJSON_GetObjectItem fields (CS "user_id"))).

Definition flywire_apply_delete (e : flywire_entity_t) (entity_id : Z) (payload : option json) (d : databases) : bool * databases :=
  if entity_id <=? 0 then (false, d)
  else
    match payload with
    | Some j =>
        let fields := fields_of j in
        if streq (e_entity e) (CS "board_perm") then exec (upd_perms (fun s => s ∖ {[perm_of entity_id fields]})) d
        else if streq (e_entity e) (CS "tag_link") then
          let post := int_or entity_id (cJSON_GetObjectItem fields (CS "post_id")) in
          exec (upd_tag_links (filter (fun l => l.1 <> post))) d
        else if streq (e_entity e) (CS "i18n") then
          exec (upd_i18n (delete (string_or (CS "post") (cJSON_GetObjectItem fields (CS "kind")), entity_id))) d
        else exec (delete_row (e_table e) entity_id) d
    | None => exec (delete_row (e_table e) entity_id) d
    end.

Definition flywire_apply_special (e : flywire_entity_t) (op : cstr) (entity_id : Z) (payload : json) (d : databases) : bool * databases :=
  let fields := fields_of payload in
  if streq (e_entity e) (CS "board_perm") then
    if streq op (CS "delete") then flywire_apply_delete e entity_id (Some payload) d
    else exec (upd_perms (fun s => s ∪ {[perm_of entity_id fields]})) d
  else if streq (e_entity e) (CS "tag_link") then
    let post := int_or entity_id (cJSON_GetObjectItem fields (CS "post_id")) in
    let tag := int_or 0 (cJSON_GetObjectItem fields (CS "tag_id")) in
    if streq op (CS "delete") || (tag <=? 0) then flywire_apply_delete e entity_id (Some payload) d
    else exec (upd_tag_links (fun s => s ∪ {[(post, tag)]})) d
  else if streq (e_entity e) (CS "i18n") then
    if streq op (CS "delete") then flywire_apply_delete e entity_id (Some payload) d
    else
      let kind := string_or (CS "post") (cJSON_GetObjectItem fields (CS "kind")) in
      let lang := string_or [] (cJSON_GetObjectItem fields (CS "lang")) in
      exec (upd_i18n (insert (kind, entity_id) (lang, int_or 0 (cJSON_GetObjectItem fields (CS "grp"))))) d
  else (false, d).

(** ** One journal row *)

Definition parse_payload (text : cstr) : option json := cJSON_Parse (if streq text [] then CS "{}" else text).

Definition text_column (row : columns) (c : cstr) : option cstr :=
  match row !! c with Some (VText s) => Some s | Some (VInt n) => Some (print_int n) | _ => None end.

(** The local files of a row of [files]; a preview that is the file itself is not listed twice. *)
Definition flywire_file_local_paths (id : Z) (d : databases) : list (list Z) :=
  match db_rows d !! (CS "files", id) with
  | None => []
  | Some row =>
      let path c := default [] (text_column row c) in
      let preview := path (CS "preview_path") in
      [path (CS "file_path"); path (CS "thumb_path"); if streq preview (path (CS "file_path")) then [] else preview]
  end.

Definition unlink_path (files : fs) (path : cstr) : fs := if fb_is_safe_public_path (Some path) then delete path files else files.

(** Queue the fetch of a profile picture that is not on disk. *)
Definition note_profile (entity_id : Z) (fields : list (cstr * json)) (r : replica) : replica :=
  match cJSON_GetObjectItem fields (CS "profile_pic") with
  | Some (JString url) =>
      match flywire_profile_local_path url PATH_MAX with
      | Some path =>
          if flywire_file_bytes_ok (r_files r) path 0 then r
          else Replica (r_dbs r) (r_files r) (r_pending_files r) (flywire_enqueue_profile entity_id url (r_pending_profiles r))
      | None => r
      end
  | _ => r
  end.

Definition apply_user (entity_id : Z) (e : flywire_entity_t) (payload : option json) (r : replica) : replica :=
  let fields := match payload with Some j => fields_of j | None => [] end in
  let r := note_profile entity_id fields r in
  let uname := string_or [] (cJSON_GetObjectItem fields (CS "username")) in
  if negb (streq uname []) && streq uname auth_admin_username then r
  else if (0 <? entity_id) && (entity_id =? auth_site_admin_uid) then r
  else match payload with
       | Some j => set_dbs (snd (flywire_apply_upsert e j (r_dbs r))) r
       | None => r
       end.

Definition apply_removal (entity_id : Z) (e : flywire_entity_t) (text : cstr) (r : replica) : replica :=
  let is_file := streq (e_entity e) (CS "file") in
  let paths := if is_file then flywire_file_local_paths entity_id (r_dbs r) else [] in
  let payload := if e_special e then parse_payload text else None in
  let '(ok, d) := flywire_apply_delete e entity_id payload (r_dbs r) in
  let r := set_dbs d r in
  if ok && is_file then set_files (foldl unlink_path (r_files r) paths) r else r.

Definition apply_snapshot (entity_id : Z) (e : flywire_entity_t) (payload : option json) (r : replica) : replica :=
  match payload with
  | None => r
  | Some j =>
      let '(ok, d) := flywire_apply_upsert e j (r_dbs r) in
      let r := set_dbs d r in
      if ok && streq (e_entity e) (CS "file") then
        let expected := match cJSON_GetObjectItem (fields_of j) (CS "size") with Some (JNumber n) => n | _ => 0 end in
        match cJSON_GetObjectItem (fields_of j) (CS "file_path") with
        | Some (JString path) =>
            if negb (streq path []) && negb (flywire_file_bytes_ok (r_files r) path expected)
            then Replica (r_dbs r) (r_files r) (flywire_enqueue_file entity_id (r_pending_files r)) (r_pending_profiles r)
            else r
        | _ => r
        end
      else r
  end.

(** [false] only when the database of the entity cannot be opened. *)
Definition flywire_apply_row (entity : cstr) (entity_id : Z) (op : cstr) (payload_json : cstr) (r : replica) : bool * replica :=
  match flywire_entity entity with
  | None => (true, r)
  | Some e =>
      if match e_db e with FLYWIRE_DB_MAIN => false | _ => negb conn_open end then (false, r)
      else (true,
        if streq (e_entity e) (CS "user") && streq op (CS "upsert") then apply_user entity_id e (parse_payload payload_json) r
        else if e_special e && streq op (CS "upsert") then
          match parse_payload payload_json with
          | Some j => set_dbs (snd (flywire_apply_special e op entity_id j (r_dbs r))) r
          | None => r
          end
        else if streq op (CS "delete") then apply_removal entity_id e payload_json r
        else apply_snapshot entity_id e (parse_payload payload_json) r)
  end.
End row.

(** ** Journaling (src/src/db/db_sync.c) *)

(** [suspended] tells whether the site is a replica of a cluster, or does not know its role yet;
    [anti_entropy] whether mutations are logged too; [sequence] is the greatest seq SQLite ever gave
    ([AUTOINCREMENT]). *)
Definition db_sync_journal_conn (suspended anti_entropy : bool) (sha256_hex : list Z -> list Z) (now : Z) (random : cstr) (sequence : Z)
    (entity : cstr) (entity_id : Z) (op payload : cstr) (journal : list journal_row) (log : mutation_log) : list journal_row * mutation_log :=
  if suspended then (journal, log)
  else
    (journal ++ [JournalRow (sequence + 1) entity entity_id op payload],
     if anti_entropy then snd (db_sync_anti_entropy_record sha256_hex now random entity entity_id op payload log) else log).

(** The snapshot of a row. *)
Definition row_to_json (table : cstr) (row : columns) : json :=
  JObject (map (fun c => (c, column_to_json (default VNull (row !! c)))) (table_info table)).

(** The payload journaled for a row; [None] when there is nothing to journal. *)
Definition db_sync_journal_row (table : cstr) (id : Z) (d : databases) : option cstr :=
  if id <=? 0 then None
  else match db_rows d !! (table, id) with
       | Some row => Some (cJSON_PrintUnformatted (row_to_json table row))
       | None => None
       end.

(** ** The feed *)

(** The journal is the list of its rows in the order of their seq. *)
Record feed_row := FeedRow { f_seq : Z; f_entity : cstr; f_id : Z; f_op : cstr; f_payload : json }.

Inductive feed_reply :=
| Feed_not_found
| Feed_unauthorized
| Feed_journal_purged
| Feed (rows : list feed_row) (next_since latest_seq : Z) (epoch : option Z).

Definition journal_min (journal : list journal_row) : Z := match journal with r :: _ => j_seq r | [] => 0 end.
Definition last_seq (default : Z) (seqs : list Z) : Z := List.last seqs default.

Definition feed_json (payload : cstr) : json :=
  match (if streq payload [] then None else cJSON_Parse payload) with Some j => j | None => JObject [] end.

Definition to_feed (r : journal_row) : feed_row := FeedRow (j_seq r) (j_entity r) (j_entity_id r) (j_op r) (feed_json (j_payload r)).

Definition query_number (fallback : Z) (s : option cstr) : Z :=
  match s with Some (c :: s) => fst (strtol10 (c :: s)) | _ => fallback end.

Definition handler_flywire_feed (primary authorized : bool) (since_s limit_s : option cstr) (epoch : option Z)
    (journal : list journal_row) : feed_reply :=
  if negb primary then Feed_not_found
  else if negb authorized then Feed_unauthorized
  else
    let since := Z.max 0 (query_number 0 since_s) in
    let limit := match limit_s with Some (c :: s) => atoi (c :: s) | _ => 500 end in
    let limit := if limit <? 1 then 500 else if 5000 <? limit then 5000 else limit in
    let min_seq := journal_min journal in
    if (0 <? since) && (0 <? min_seq) && (since <? min_seq - 1) then Feed_journal_purged
    else
      let rows := take (Z.to_nat limit) (List.filter (fun r => since <? j_seq r) journal) in
      let next_since := last_seq since (map j_seq rows) in
      Feed (map to_feed rows) next_since (last_seq next_since (map j_seq journal)) epoch.

(** ** The replica *)

Record site := Site {
  s_replica : replica;
  s_journal : list journal_row;
  s_checkpoint : Z;
  s_bad_files_queued : bool;
}.

(** How the handling of a row ends. *)
Inductive fate := Row_done | Row_busy | Conn_fails | Mirror_fails | Crash_applied | Crash_mirrored.

(** [INSERT OR REPLACE] into the journal. *)
Fixpoint mirror_row (row : journal_row) (journal : list journal_row) : list journal_row :=
  match journal with
  | [] => [row]
  | r :: rest =>
      if j_seq r <? j_seq row then r :: mirror_row row rest
      else if j_seq r =? j_seq row then row :: rest else row :: r :: rest
  end.

(** A process that dies keeps what is on disk. *)
Definition crash (s : site) : site :=
  Site (Replica (r_dbs (s_replica s)) (r_files (s_replica s)) [] []) (s_journal s) (s_checkpoint s) false.

Definition sent_text (j : json) : cstr := match j with JObject _ => cJSON_PrintUnformatted j | _ => [] end.

(** [cluster] tells whether the site is in a failover cluster; the bool is whether the process lives. *)
Fixpoint apply_rows (cluster : bool) (fates : nat -> fate) (i : nat) (rows : list feed_row) (s : site) : bool * site :=
  match rows with
  | [] => (true, s)
  | row :: rows' =>
      let text := sent_text (f_payload row) in
      let '(ok, r) := flywire_apply_row (match fates i with Row_busy => true | _ => false end)
                        (match fates i with Conn_fails => false | _ => true end)
                        (f_entity row) (f_id row) (f_op row) text (s_replica s) in
      let applied := Site r (s_journal s) (s_checkpoint s) (s_bad_files_queued s) in
      if negb ok then (true, applied)
      else
        let mirrored :=
          Site r (if cluster then mirror_row (JournalRow (f_seq row) (f_entity row) (f_id row) (f_op row) text) (s_journal s) else s_journal s)
            (s_checkpoint s) (s_bad_files_queued s) in
        let checked := Site r (s_journal mirrored) (f_seq row) (s_bad_files_queued s) in
        match fates i with
        | Crash_applied => (false, crash applied)
        | Crash_mirrored => (false, crash mirrored)
        | Mirror_fails => if cluster then (true, applied) else apply_rows cluster fates (S i) rows' checked
        | _ => apply_rows cluster fates (S i) rows' checked
        end
  end.

(** [our_epoch] is [None] outside of a cluster; the code of the result is -1, 0 or 1. *)
Definition flywire_poll_once (our_epoch : option Z) (reply : option feed_reply) (fates : nat -> fate) (s : site) : Z * bool * site :=
  match reply with
  | None | Some Feed_not_found | Some Feed_unauthorized => (-1, true, s)
  | Some Feed_journal_purged => (1, true, s)
  | Some (Feed rows _ _ feed_epoch) =>
      match our_epoch with
      | Some e =>
          if negb (default (-1) feed_epoch =? e) then (-1, true, s)
          else let '(alive, s') := apply_rows true fates 0 rows s in (0, alive, s')
      | None => let '(alive, s') := apply_rows false fates 0 rows s in (0, alive, s')
      end
  end.
End site.

(** ** Files *)

Fixpoint insert_sorted (x : Z) (l : list Z) : list Z :=
  match l with [] => [x] | y :: l' => if x <=? y then x :: l else y :: insert_sorted x l' end.

(** The ids of a table, in the order of its scan. *)
Definition table_ids (table : cstr) (d : databases) : list Z :=
  foldr insert_sorted [] (omap (fun '((t, id), _) => if streq t table then Some id else None) (map_to_list (db_rows d))).

Definition row_of (table : cstr) (id : Z) (d : databases) : columns := default ∅ (db_rows d !! (table, id)).
Definition int_column (row : columns) (c : cstr) : Z :=
  match row !! c with Some (VInt n) => n | Some (VText s) => fst (strtol10 s) | _ => 0 end.

(** SQL's [LIKE 'prefix%'] ignores case. *)
Definition like_prefix (prefix s : cstr) : bool := starts_with (map tolower prefix) (map tolower s).

Definition flywire_queue_bad_files (r : replica) : replica :=
  let bad id :=
    let row := row_of (CS "files") id (r_dbs r) in
    match text_column row (CS "file_path") with
    | Some p => like_prefix (CS "public/uploads/") p && negb (flywire_file_bytes_ok (r_files r) p (int_column row (CS "size")))
    | None => false
    end in
  Replica (r_dbs r) (r_files r)
    (foldl (fun q id => if bad id then flywire_enqueue_file id q else q) (r_pending_files r) (table_ids (CS "files") (r_dbs r)))
    (r_pending_profiles r).

Definition flywire_queue_missing_profiles (r : replica) : replica :=
  let queue id q :=
    match text_column (row_of (CS "users") id (r_dbs r)) (CS "profile_pic") with
    | Some url =>
        if like_prefix (CS "/assets/profile/") url then
          match flywire_profile_local_path url PATH_MAX with
          | Some path => if flywire_file_bytes_ok (r_files r) path 0 then q else flywire_enqueue_profile id url q
          | None => q
          end
        else q
    | None => q
    end in
  Replica (r_dbs r) (r_files r) (r_pending_files r)
    (foldl (fun q id => queue id q) (r_pending_profiles r) (table_ids (CS "users") (r_dbs r))).

(** The path, cut to its buffer, and the size of a queued file. *)
Definition flywire_fetch_file_path (file_id : Z) (d : databases) : option (cstr * Z) :=
  match db_rows d !! (CS "files", file_id) with
  | Some row => (fun p => (snprintf_s PATH_MAX p, int_column row (CS "size"))) <$> text_column row (CS "file_path")
  | None => None
  end.

Fixpoint contains_dotdot (s : cstr) : bool :=
  match s with
  | 46 :: ((46 :: _) as _) => true
  | _ :: s' => contains_dotdot s'
  | [] => false
  end.

(** A response: whether the transfer succeeded, its status, and the bytes that arrived. *)
Record response := Response { rs_ok : bool; rs_status : Z; rs_body : list Z }.

(** The part file after the transfer: only the body of a 200 or a 206 is written, and a 200 starts over. *)
Definition flywire_download_write (status : Z) (have body : list Z) : list Z :=
  if streq body [] then have
  else if status =? 200 then body
  else if status =? 206 then have ++ body else have.

Definition flywire_download_bytes (source_path file_path : cstr) (expected : Z) (fetch : cstr -> Z -> response) (files : fs) : fs :=
  if streq source_path [] || streq file_path [] then files
  else if contains_dotdot file_path || bool_decide (file_path !! 0%nat = Some (CH "/")) then files
  else if flywire_file_bytes_ok files file_path expected then files
  else
    let part := file_path ++ CS ".part" in
    if (PATH_MAX <=? length part)%nat then files
    else
      let have := default [] (files !! part) in
      let have := if (0 <? expected) && (expected <=? zlen have) then [] else have in
      let rs := fetch source_path (zlen have) in
      let content := flywire_download_write (rs_status rs) have (rs_body rs) in
      let files := <[part := content]> files in
      let good := (rs_status rs =? 200) || (rs_status rs =? 206) in
      if rs_ok rs && good && negb (flywire_file_bytes_ok files part expected) then delete part files
      else if rs_ok rs && good then <[file_path := content]> (delete part files)
      else if negb good then delete part files else files.

(** [/file/download/%d] *)
Definition flywire_download_file_bytes (file_id : Z) (file_path : cstr) (expected : Z) (fetch : cstr -> Z -> response) (files : fs) : fs :=
  flywire_download_bytes (CS "/file/download/" ++ print_int file_id) file_path expected fetch files.

(** ** A round of the replica *)

Section iteration.
Context (table_info : list Z -> list (list Z)) (column_default : list Z -> list Z -> value).
Context (accepts : databases -> databases -> bool) (cascade : list Z -> Z -> databases -> databases).
Context (cJSON_Parse : list Z -> option json) (cJSON_PrintUnformatted : json -> list Z).
Context (auth_admin_username : list Z) (auth_site_admin_uid : Z).

(** [feed] is the primary's answer to a checkpoint and a limit; the code is -1, 0 or 1. *)
Definition flywire_replica_iteration (open_ok : bool) (our_epoch : option Z) (feed : Z -> Z -> option feed_reply)
    (fates : nat -> fate) (fetch : cstr -> Z -> response) (s : site) : Z * bool * site :=
  if negb open_ok then (-1, true, s)
  else
    let '(rc, alive, s) := flywire_poll_once table_info column_default accepts cascade cJSON_Parse cJSON_PrintUnformatted
                             auth_admin_username auth_site_admin_uid our_epoch (feed (s_checkpoint s) FLYWIRE_FEED_LIMIT) fates s in
    if negb alive || negb (rc =? 0) then (rc, alive, s)
    else
      let r := if s_bad_files_queued s then s_replica s
               else flywire_queue_missing_profiles (flywire_queue_bad_files (s_replica s)) in
      let '(file_id, files_q) := flywire_dequeue_file (r_pending_files r) in
      let target := if 0 <? file_id then flywire_fetch_file_path file_id (r_dbs r) else None in
      let '(profile, profiles_q) := flywire_dequeue_profile (r_pending_profiles r) in
      let files := match target with
                   | Some (p :: path, expected) => flywire_download_file_bytes file_id (p :: path) expected fetch (r_files r)
                   | _ => r_files r
                   end in
      let files := match profile with
                   | Some p => if 0 <? pp_user p then flywire_download_bytes (pp_source p) (pp_file p) 0 fetch files else files
                   | None => files
                   end in
      (rc, alive, Site (Replica (r_dbs r) files files_q profiles_q) (s_journal s) (s_checkpoint s) true).
End iteration.

(** ** A row changes the databases the same whatever else the replica holds, and once *)

Section rows.
Context (table_info : list Z -> list (list Z)) (column_default : list Z -> list Z -> value).
Context (accepts : databases -> databases -> bool) (cascade : list Z -> Z -> databases -> databases).
Context (cJSON_Parse : list Z -> option json).
Context (auth_admin_username : list Z) (auth_site_admin_uid : Z).

Abbreviation apply_row := (flywire_apply_row table_info column_default accepts cascade cJSON_Parse auth_admin_username auth_site_admin_uid).

Definition only_dbs (d : databases) : replica := Replica d ∅ [] [].
Definition row_dbs (entity : cstr) (id : Z) (op text : cstr) (d : databases) : databases :=
  r_dbs (snd (apply_row false true entity id op text (only_dbs d))).

Lemma note_profile_dbs id fields r : r_dbs (note_profile id fields r) = r_dbs r.
Proof. unfold note_profile. by repeat case_match. Qed.

Definition user_skipped (id : Z) (payload : option json) : bool :=
  let uname := string_or [] (cJSON_GetObjectItem (match payload with Some j => fields_of j | None => [] end) (CS "username")) in
  (negb (streq uname []) && streq uname auth_admin_username) || ((0 <? id) && (id =? auth_site_admin_uid)).

Lemma apply_user_dbs busy id e payload r :
  r_dbs (apply_user table_info column_default accepts auth_admin_username auth_site_admin_uid busy id e payload r) =
  if user_skipped id payload then r_dbs r
  else match payload with Some j => snd (flywire_apply_upsert table_info column_default accepts busy e j (r_dbs r)) | None => r_dbs r end.
Proof.
  unfold apply_user, user_skipped. cbv zeta.
  destruct (negb _ && _); [by rewrite note_profile_dbs|]. destruct (_ && _); [by rewrite note_profile_dbs|]. cbn [orb].
  destruct payload; unfold set_dbs; cbn [r_dbs]; by rewrite note_profile_dbs.
Qed.

Lemma apply_removal_dbs busy id e text r :
  r_dbs (apply_removal accepts cascade cJSON_Parse busy id e text r) =
  snd (flywire_apply_delete accepts cascade busy e id (if e_special e then parse_payload cJSON_Parse text else None) (r_dbs r)).
Proof. unfold apply_removal. destruct (flywire_apply_delete _ _ _ _ _ _ _) as [ok d]. by destruct (ok && _). Qed.

Lemma apply_snapshot_dbs busy id e payload r :
  r_dbs (apply_snapshot table_info column_default accepts busy id e payload r) =
  match payload with Some j => snd (flywire_apply_upsert table_info column_default accepts busy e j (r_dbs r)) | None => r_dbs r end.
Proof.
  unfold apply_snapshot. destruct payload; [|done]. destruct (flywire_apply_upsert _ _ _ _ _ _ _) as [ok d].
  destruct (ok && _); [|done]. by repeat case_match.
Qed.

(** A statement that fails for a passing reason changes nothing. *)
Lemma busy_upsert e payload d : snd (flywire_apply_upsert table_info column_default accepts true e payload d) = d.
Proof. unfold flywire_apply_upsert, exec. by repeat case_match. Qed.
Lemma busy_delete e id payload d : snd (flywire_apply_delete accepts cascade true e id payload d) = d.
Proof. unfold flywire_apply_delete, exec. by repeat case_match. Qed.
Lemma busy_special e op id payload d : snd (flywire_apply_special accepts cascade true e op id payload d) = d.
Proof. unfold flywire_apply_special. repeat case_match; try apply busy_delete; done. Qed.

Lemma opens_ok e opens : (match e_db e with FLYWIRE_DB_MAIN => false | _ => negb opens end) = true -> opens = false.
Proof. destruct opens; [|done]. by destruct (e_db e). Qed.

Lemma apply_row_dbs busy opens entity id op text r :
  let '(ok, r') := apply_row busy opens entity id op text r in
  (ok = true -> r_dbs r' = if busy then r_dbs r else row_dbs entity id op text (r_dbs r)) /\ (ok = false -> r' = r) /\ (opens = true -> ok = true).
Proof.
  unfold row_dbs, flywire_apply_row. destruct (flywire_entity entity) as [e|]; [|by destruct busy].
  destruct (match e_db e with FLYWIRE_DB_MAIN => false | _ => negb opens end) eqn:Ho.
  - split; [done|]. split; [done|]. apply opens_ok in Ho. by rewrite Ho.
  - replace (match e_db e with FLYWIRE_DB_MAIN => false | _ => negb true end) with false by (by destruct (e_db e)).
    split; [|done]. intros _. cbn [snd].
    destruct (streq (e_entity e) (CS "user") && streq op (CS "upsert")).
    { rewrite !apply_user_dbs. destruct (user_skipped _ _); [by destruct busy|].
      destruct (parse_payload _ _), busy; try done. apply busy_upsert. }
    destruct (e_special e && streq op (CS "upsert")).
    { destruct (parse_payload _ _), busy; try done. apply busy_special. }
    destruct (streq op (CS "delete")).
    + rewrite !apply_removal_dbs. destruct busy; [apply busy_delete|done].
    + rewrite !apply_snapshot_dbs. destruct (parse_payload _ _), busy; try done. apply busy_upsert.
Qed.

(** *** Applying a row again changes nothing *)

Lemma exec_idem f d : (forall d, f (f d) = f d) ->
  snd (exec accepts false f (snd (exec accepts false f d))) = snd (exec accepts false f d).
Proof.
  intros Hf. unfold exec. cbn [negb andb]. destruct (accepts d (f d)) eqn:E; cbn [snd].
  - rewrite Hf. by destruct (accepts (f d) (f d)).
  - by rewrite E.
Qed.

Lemma set_columns_other fields cs c row : c ∉ cs -> set_columns fields cs row !! c = row !! c.
Proof.
  unfold set_columns. revert row. induction cs as [|c' cs IH]; intros row Hc; [done|]. cbn [foldl].
  apply not_elem_of_cons in Hc as [Hne Hc]. rewrite IH by done.
  destruct (cJSON_GetObjectItem fields c'); [|done]. by rewrite lookup_insert_ne by congruence.
Qed.

Lemma set_columns_at fields cs c row j : c ∈ cs -> cJSON_GetObjectItem fields c = Some j ->
  set_columns fields cs row !! c = Some (bind_value j).
Proof.
  revert row. induction cs as [|c' cs IH]; intros row Hc Hj; [by apply not_elem_of_nil in Hc|].
  unfold set_columns. cbn [foldl]. fold (set_columns fields cs).
  destruct (decide (c ∈ cs)) as [Hin|Hin]; [by apply IH|].
  apply elem_of_cons in Hc as [-> |Hc]; [|done]. change (foldl _ ?r cs) with (set_columns fields cs r).
  rewrite set_columns_other by done. rewrite Hj. by rewrite lookup_insert_eq.
Qed.

Lemma set_columns_same fields cs row :
  (forall c j, c ∈ cs -> cJSON_GetObjectItem fields c = Some j -> row !! c = Some (bind_value j)) -> set_columns fields cs row = row.
Proof.
  unfold set_columns. induction cs as [|c cs IH]; intros H; [done|]. cbn [foldl].
  destruct (cJSON_GetObjectItem fields c) as [j|] eqn:Hj.
  - rewrite insert_id by (apply H; [apply elem_of_cons; by left|done]). apply IH. intros c' j' Hc'. apply H, elem_of_cons. by right.
  - apply IH. intros c' j' Hc'. apply H, elem_of_cons. by right.
Qed.

Lemma upsert_idem table key_col key fields cs d :
  upsert table_info column_default table key_col key fields cs (upsert table_info column_default table key_col key fields cs d) =
  upsert table_info column_default table key_col key fields cs d.
Proof.
  unfold upsert, upd_rows. cbn [db_rows]. f_equal.
  destruct (db_rows d !! (table, key)) as [row|] eqn:E; rewrite lookup_insert_eq; rewrite insert_insert_eq; f_equal;
    apply set_columns_same; intros c j Hc Hj.
  - by apply set_columns_at.
  - apply set_columns_at; [|done]. apply list_elem_of_In, filter_In in Hc as [Hc _]. by apply list_elem_of_In.
Qed.
Definition idem (F : databases -> bool * databases) : Prop := forall d, snd (F (snd (F d))) = snd (F d).

Lemma exec_idem_any f : (forall d, f (f d) = f d) -> idem (exec accepts false f).
Proof. intros Hf d. by apply exec_idem. Qed.

Lemma no_effect_idem : idem (fun d => (false, d)).
Proof. done. Qed.

Lemma delete_row_idem table key d : delete_row cascade table key (delete_row cascade table key d) = delete_row cascade table key d.
Proof.
  unfold delete_row at 2 3. destruct (db_rows d !! (table, key)) eqn:E.
  - unfold delete_row. cbn [upd_rows db_rows]. by rewrite lookup_delete_eq.
  - unfold delete_row. by rewrite E.
Qed.

Lemma upsert_F_idem e payload : idem (flywire_apply_upsert table_info column_default accepts false e payload).
Proof.
  unfold flywire_apply_upsert. intros d. destruct payload; try done.
  destruct (negb _); [done|]. destruct (_ =? 0)%nat; [done|]. cbv zeta. destruct (negb _); [done|].
  destruct (cJSON_GetObjectItem _ _) as [[]|]; try done. apply exec_idem_any. intros d'. apply upsert_idem.
Qed.

Ltac map_idem := apply exec_idem_any; intros []; unfold upd_perms, upd_tag_links, upd_i18n; cbn; f_equal; try set_solver.

Lemma delete_F_idem e id payload : idem (flywire_apply_delete accepts cascade false e id payload).
Proof.
  unfold flywire_apply_delete. intros d. destruct (id <=? 0); [done|].
  destruct payload as [j|]; [|apply exec_idem_any; intros; apply delete_row_idem].
  cbv zeta. destruct (streq _ (CS "board_perm")); [map_idem|]. destruct (streq _ (CS "tag_link")); [map_idem|].
  destruct (streq _ (CS "i18n")); [map_idem; apply delete_delete_eq|]. apply exec_idem_any. intros; apply delete_row_idem.
Qed.

Lemma special_F_idem e op id payload : idem (flywire_apply_special accepts cascade false e op id payload).
Proof.
  unfold flywire_apply_special. intros d. cbv zeta.
  destruct (streq _ (CS "board_perm")).
  { destruct (streq op _); [apply delete_F_idem|map_idem]. }
  destruct (streq _ (CS "tag_link")).
  { destruct (_ || _); [apply delete_F_idem|map_idem]. }
  destruct (streq _ (CS "i18n")); [|done].
  destruct (streq op _); [apply delete_F_idem|map_idem; apply insert_insert_eq].
Qed.

Lemma row_dbs_idem entity id op text d : row_dbs entity id op text (row_dbs entity id op text d) = row_dbs entity id op text d.
Proof.
  unfold row_dbs, flywire_apply_row. destruct (flywire_entity entity) as [e|]; [|done].
  replace (match e_db e with FLYWIRE_DB_MAIN => false | _ => negb true end) with false by (by destruct (e_db e)). cbn [snd].
  destruct (streq (e_entity e) (CS "user") && streq op (CS "upsert")).
  { rewrite !apply_user_dbs. cbn [only_dbs r_dbs]. destruct (user_skipped _ _); [done|].
    destruct (parse_payload _ _); [apply upsert_F_idem|done]. }
  destruct (e_special e && streq op (CS "upsert")).
  { destruct (parse_payload _ _); [|done]. apply special_F_idem. }
  destruct (streq op (CS "delete")).
  - rewrite !apply_removal_dbs. apply delete_F_idem.
  - rewrite !apply_snapshot_dbs. destruct (parse_payload _ _); [apply upsert_F_idem|done].
Qed.
End rows.

(** ** Primary and replica *)

Section replication.
Context (table_info : list Z -> list (list Z)) (column_default : list Z -> list Z -> value).
Context (accepts : databases -> databases -> bool) (cascade : list Z -> Z -> databases -> databases).
Context (cJSON_Parse : list Z -> option json) (cJSON_PrintUnformatted : json -> list Z).
Context (auth_admin_username : list Z) (auth_site_admin_uid : Z) (our_epoch : option Z).

(** Every row the primary ever journaled, those still there, and the replica. *)
Record world := World { w_hist : list journal_row; w_kept : list journal_row; w_site : site }.

Inductive site_event :=
| Journal_row (entity : cstr) (id : Z) (op payload : cstr)
| Purge (n : nat)
| Round (open_ok reached : bool) (fates : nat -> fate) (fetch : cstr -> Z -> response).

Definition next_seq (hist : list journal_row) : Z := last_seq 0 (map j_seq hist) + 1.

(** The replica asks [/flywire/feed?since=%lld&limit=%d] of a primary of its epoch. *)
Definition ask (reached : bool) (journal : list journal_row) (since limit : Z) : option feed_reply :=
  if reached then Some (handler_flywire_feed cJSON_Parse true true (Some (print_int since)) (Some (print_int limit)) our_epoch journal)
  else None.

Definition round (open_ok reached : bool) (fates : nat -> fate) (fetch : cstr -> Z -> response) (w : world) : Z * bool * site :=
  flywire_replica_iteration table_info column_default accepts cascade cJSON_Parse cJSON_PrintUnformatted auth_admin_username
    auth_site_admin_uid open_ok our_epoch (ask reached (w_kept w)) fates fetch (w_site w).

Definition world_step (w : world) (e : site_event) : world :=
  match e with
  | Journal_row entity id op payload =>
      let journal rows := fst (db_sync_journal_conn false false (fun _ => []) 0 [] (last_seq 0 (map j_seq (w_hist w))) entity id op payload rows ∅) in
      World (journal (w_hist w)) (journal (w_kept w)) (w_site w)
  | Purge n => World (w_hist w) (drop n (w_kept w)) (w_site w)
  | Round open_ok reached fates fetch => World (w_hist w) (w_kept w) (snd (round open_ok reached fates fetch w))
  end.

Definition world_run (es : list site_event) (w : world) : world := foldl world_step w es.

(** ** What the replica promises *)

Definition sent (r : journal_row) : cstr := sent_text cJSON_PrintUnformatted (feed_json cJSON_Parse (j_payload r)).
Definition sent_row (r : journal_row) : journal_row := JournalRow (j_seq r) (j_entity r) (j_entity_id r) (j_op r) (sent r).

(** The databases after the rows, in order and once each. *)
Definition replay (rows : list journal_row) (d : databases) : databases :=
  foldl (fun d r => row_dbs table_info column_default accepts cascade cJSON_Parse auth_admin_username auth_site_admin_uid
                      (j_entity r) (j_entity_id r) (j_op r) (sent r) d) d rows.

Definition clustered : bool := match our_epoch with Some _ => true | None => false end.

(** The site has handled [applied] since it held [d0] and [J0] at [cp0], and of these [kept] have reached
    its databases; the next row may already be in the databases, and in the journal. *)
Record site_at (d0 : databases) (J0 : list journal_row) (cp0 : Z) (kept applied rest : list journal_row) (s : site) : Prop := {
  at_checkpoint : s_checkpoint s = last_seq cp0 (map j_seq applied);
  at_kept : kept `sublist_of` applied;
  at_dbs : exists n, (n <= 1)%nat /\ r_dbs (s_replica s) = replay (kept ++ take n rest) d0;
  at_journal : exists n, (n <= 1)%nat /\ s_journal s = if clustered then J0 ++ map sent_row (applied ++ take n rest) else J0;
}.

Lemma replay_app a b d : replay (a ++ b) d = replay b (replay a d).
Proof. apply foldl_app. Qed.

Lemma replay_next applied r rest n d0 : (n <= 1)%nat ->
  row_dbs table_info column_default accepts cascade cJSON_Parse auth_admin_username auth_site_admin_uid
    (j_entity r) (j_entity_id r) (j_op r) (sent r) (replay (applied ++ take n (r :: rest)) d0) = replay (applied ++ [r]) d0.
Proof.
  intros Hn. destruct n as [|[|n]]; [|cbn [take]|lia].
  - cbn [take]. rewrite app_nil_r. by rewrite replay_app.
  - rewrite take_0, replay_app. cbn. apply row_dbs_idem.
Qed.

Lemma mirror_row_last J row : Forall (fun r => j_seq r < j_seq row) J -> mirror_row row J = J ++ [row].
Proof.
  induction 1 as [|r J Hr _ IH]; [done|]. cbn. replace (j_seq r <? j_seq row) with true by lia. by rewrite IH.
Qed.

Lemma mirror_row_again J row row' : Forall (fun r => j_seq r < j_seq row) J -> j_seq row' = j_seq row ->
  mirror_row row (J ++ [row']) = J ++ [row].
Proof.
  intros H E. induction H as [|r J Hr _ IH]; cbn.
  - replace (j_seq row' <? j_seq row) with false by lia. by replace (j_seq row' =? j_seq row) with true by lia.
  - replace (j_seq r <? j_seq row) with true by lia. by rewrite IH.
Qed.

Lemma last_seq_snoc d l x : last_seq d (l ++ [x]) = x.
Proof. apply List.last_last. Qed.

Lemma mirrored J0 applied r rest n : (n <= 1)%nat -> StronglySorted Z.lt (map j_seq (J0 ++ applied ++ r :: rest)) ->
  mirror_row (sent_row r) (J0 ++ map sent_row (applied ++ take n (r :: rest))) = J0 ++ map sent_row (applied ++ [r]).
Proof.
  intros Hn Hsort. rewrite app_assoc, map_app in Hsort. rewrite !map_app, !app_assoc.
  assert (Hlt : Forall (fun x => j_seq x < j_seq (sent_row r)) (J0 ++ map sent_row applied)).
  { apply Forall_forall. intros x Hx.
    apply (StronglySorted_app_1_elem_of Z.lt _ _ (j_seq x) (j_seq r) Hsort); [|by apply elem_of_cons; left].
    apply list_elem_of_In, in_map_iff. apply elem_of_app in Hx as [Hx|Hx]; apply list_elem_of_In in Hx.
    - exists x. split; [done|]. apply in_app_iff. by left.
    - apply in_map_iff in Hx as (y & <- & Hy). exists y. split; [done|]. apply in_app_iff. by right. }
  destruct n as [|[|n]]; [|cbn [take]|lia].
  - cbn [take map]. rewrite app_nil_r. by rewrite mirror_row_last.
  - rewrite take_0. cbn [map]. by rewrite mirror_row_again.
Qed.

Lemma site_at_ext d0 J0 cp0 kept applied rest s s' : r_dbs (s_replica s') = r_dbs (s_replica s) -> s_journal s' = s_journal s ->
  s_checkpoint s' = s_checkpoint s -> site_at d0 J0 cp0 kept applied rest s -> site_at d0 J0 cp0 kept applied rest s'.
Proof. intros E1 E2 E3 []. split; by rewrite ?E1, ?E2, ?E3. Qed.

Lemma sublist_one {A} (l : list A) x : l `sublist_of` [x] -> l = [] \/ l = [x].
Proof.
  intros [H|(l' & -> & H)]%sublist_cons_r; apply sublist_nil_r in H; subst; auto.
Qed.

Section loop.
Context (d0 : databases) (J0 : list journal_row) (cp0 : Z).

(** What handling [rows] of the rest has done: [more] of them are behind the checkpoint, [kmore] of
    these are in the databases, and the others were handled while their statements failed. *)
Definition advanced (fates : nat -> fate) (i : nat) (rows kept applied rest : list journal_row) (alive : bool) (s' : site)
    (more kmore : list journal_row) : Prop :=
  more `prefix_of` rows /\ kmore `sublist_of` more /\ site_at d0 J0 cp0 (kept ++ kmore) (applied ++ more) (drop (length more) rest) s' /\
  (forall r, r ∈ more -> r ∈ kmore \/ exists j, rows !! j = Some r /\ fates (i + j)%nat = Row_busy) /\
  ((forall i, fates i <> Row_busy) -> kmore = more) /\ ((forall i, fates i = Row_done) -> alive = true /\ more = rows).

Lemma advanced_stay fates i r rows kept applied rest alive s' : site_at d0 J0 cp0 kept applied rest s' -> fates i <> Row_done ->
  advanced fates i (r :: rows) kept applied rest alive s' [] [].
Proof.
  intros Hs Hf. unfold advanced. rewrite !app_nil_r. split; [by exists (r :: rows)|]. split; [done|]. split; [done|].
  split; [by intros ? ?%not_elem_of_nil|]. split; [done|]. intros Hall. by rewrite Hall in Hf.
Qed.

Lemma advanced_cons fates i r rows kept ks applied rest alive s' more kmore : ks `sublist_of` [r] -> (ks = [] -> fates i = Row_busy) ->
  advanced fates (S i) rows (kept ++ ks) (applied ++ [r]) rest alive s' more kmore ->
  advanced fates i (r :: rows) kept applied (r :: rest) alive s' (r :: more) (ks ++ kmore).
Proof.
  intros Hks Hnil (Hp & Hk & Hs & Hin & Hb & Hd). rewrite <- !app_assoc in Hs. unfold advanced. split; [by apply prefix_cons|].
  split; [by apply (sublist_app ks [r] kmore more)|]. split; [exact Hs|]. split; [|split].
  - intros x [-> |Hx]%elem_of_cons.
    + destruct ks as [|y ks].
      * right. exists 0%nat. by rewrite Nat.add_0_r, Hnil.
      * left. apply sublist_one in Hks as [?| ->]; [done|]. apply elem_of_app. left. by apply list_elem_of_singleton.
    + destruct (Hin x Hx) as [? |(j & Hj & Hf)]; [left; apply elem_of_app; by right|]. right. exists (S j). by rewrite Nat.add_succ_r.
  - intros Hno. rewrite Hb by done. destruct ks as [|y ks]; [by specialize (Hno i); rewrite Hnil in Hno|].
    by apply sublist_one in Hks as [?| ->].
  - intros Hall. destruct (Hd Hall) as [-> ->]. done.
Qed.

Definition with_row (r : journal_row) (J : list journal_row) : list journal_row :=
  if clustered then mirror_row (sent_row r) J else J.

Lemma with_row_journal kept applied r rest s : StronglySorted Z.lt (map j_seq (J0 ++ applied ++ r :: rest)) ->
  site_at d0 J0 cp0 kept applied (r :: rest) s ->
  with_row r (s_journal s) = if clustered then J0 ++ map sent_row (applied ++ [r]) else J0.
Proof.
  intros Hsort [_ _ _ (m & Hm & HJ)]. unfold with_row. rewrite HJ. destruct clustered; [|done]. by apply (mirrored J0 applied r rest m).
Qed.

(** The row is in the databases, the checkpoint is not written. *)
Lemma site_stays kept applied r rest s s' : StronglySorted Z.lt (map j_seq (J0 ++ applied ++ r :: rest)) ->
  site_at d0 J0 cp0 kept applied (r :: rest) s -> r_dbs (s_replica s') = replay (kept ++ [r]) d0 -> s_checkpoint s' = s_checkpoint s ->
  s_journal s' = s_journal s \/ s_journal s' = with_row r (s_journal s) -> site_at d0 J0 cp0 kept applied (r :: rest) s'.
Proof.
  intros Hsort Hs Hd Hc HJ. pose proof (with_row_journal _ _ _ _ _ Hsort Hs) as Hrow. destruct Hs as [H1 H2 _ (m & Hm & H4)].
  split; [by rewrite Hc|done|by exists 1%nat|]. destruct HJ as [-> | ->]; [by exists m|by exists 1%nat; rewrite Hrow].
Qed.

(** The checkpoint is behind the row. *)
Lemma site_moves kept ks applied r rest s s' : StronglySorted Z.lt (map j_seq (J0 ++ applied ++ r :: rest)) ->
  site_at d0 J0 cp0 kept applied (r :: rest) s -> ks `sublist_of` [r] -> r_dbs (s_replica s') = replay (kept ++ ks) d0 ->
  s_checkpoint s' = j_seq r -> s_journal s' = with_row r (s_journal s) -> site_at d0 J0 cp0 (kept ++ ks) (applied ++ [r]) rest s'.
Proof.
  intros Hsort Hs Hks Hd Hc HJ. rewrite (with_row_journal _ _ _ _ _ Hsort Hs) in HJ. destruct Hs as [_ H2 _ _]. split.
  - rewrite Hc, map_app. symmetry. apply last_seq_snoc.
  - by apply sublist_app.
  - exists 0%nat. rewrite take_0, app_nil_r. split; [lia|done].
  - exists 0%nat. rewrite take_0, app_nil_r. split; [lia|done].
Qed.

Definition busy_fate (f : fate) : bool := match f with Row_busy => true | _ => false end.
Definition opens_fate (f : fate) : bool := match f with Conn_fails => false | _ => true end.

(** What the statements of a row leave: the row in the databases, unless they failed and it was not there yet. *)
Lemma row_lands f kept applied r rest s : site_at d0 J0 cp0 kept applied (r :: rest) s ->
  let '(ok, r') := flywire_apply_row table_info column_default accepts cascade cJSON_Parse auth_admin_username auth_site_admin_uid
    (busy_fate f) (opens_fate f) (j_entity r) (j_entity_id r) (j_op r) (sent r) (s_replica s) in
  (ok = false -> r' = s_replica s /\ f = Conn_fails) /\
  (ok = true -> exists ks, ks `sublist_of` [r] /\ (f <> Row_busy -> ks = [r]) /\ r_dbs r' = replay (kept ++ ks) d0).
Proof.
  intros [_ _ (n & Hn & Hd) _].
  pose proof (apply_row_dbs table_info column_default accepts cascade cJSON_Parse auth_admin_username auth_site_admin_uid
    (busy_fate f) (opens_fate f) (j_entity r) (j_entity_id r) (j_op r) (sent r) (s_replica s)) as Hrow.
  destruct (flywire_apply_row _ _ _ _ _ _ _ _ _ _ _ _ _ _) as [ok r']. destruct Hrow as (Hok & Hno & Hopen). split.
  - intros ->. split; [by apply Hno|]. destruct f; try done; by specialize (Hopen eq_refl).
  - intros ->. specialize (Hok eq_refl). destruct (busy_fate f) eqn:Ef.
    + exists (take n [r]). split; [apply sublist_take|]. split; [by destruct f|]. rewrite Hok, Hd. by destruct n as [|[|n]]; [| |lia].
    + exists [r]. split; [done|]. split; [done|]. rewrite Hok, Hd. by apply replay_next.
Qed.

(** The rows of a feed, handled one after the other. *)
Lemma apply_rows_ok fates rows :
  forall i s kept applied rest, rows `prefix_of` rest -> StronglySorted Z.lt (map j_seq (J0 ++ applied ++ rest)) ->
  site_at d0 J0 cp0 kept applied rest s ->
  exists alive s' more kmore, apply_rows table_info column_default accepts cascade cJSON_Parse cJSON_PrintUnformatted
      auth_admin_username auth_site_admin_uid clustered fates i (map (to_feed cJSON_Parse) rows) s = (alive, s') /\
    advanced fates i rows kept applied rest alive s' more kmore.
Proof.
  induction rows as [|r rows IH]; intros i s kept applied rest [rest' ->] Hsort Hs.
  { exists true, s, [], []. split; [done|]. unfold advanced. rewrite !app_nil_r. split; [by exists []|]. split; [done|]. split; [done|].
    split; [by intros ? ?%not_elem_of_nil|done]. }
  change ((r :: rows) ++ rest') with (r :: rows ++ rest') in *.
  cbn [map apply_rows to_feed f_payload f_entity f_id f_op f_seq]. fold (sent r). fold (sent_row r).
  fold (busy_fate (fates i)) (opens_fate (fates i)) (with_row r (s_journal s)).
  pose proof (row_lands (fates i) _ _ _ _ _ Hs) as Hrow.
  destruct (flywire_apply_row _ _ _ _ _ _ _ _ _ _ _ _ _ _) as [ok r']. destruct Hrow as [Hno Hok].
  destruct ok; cbn [negb]; last first.
  { destruct (Hno eq_refl) as [-> Hf]. exists true, (Site (s_replica s) (s_journal s) (s_checkpoint s) (s_bad_files_queued s)), [], [].
    split; [done|]. apply advanced_stay; [|by rewrite Hf]. by apply (site_at_ext _ _ _ _ _ _ s). }
  destruct (Hok eq_refl) as (ks & Hsub & Hks & Hd).
  destruct (IH (S i) (Site r' (with_row r (s_journal s)) (j_seq r) (s_bad_files_queued s)) (kept ++ ks) (applied ++ [r]) (rows ++ rest') ltac:(by exists rest'))
    as (alive & s' & more & kmore & Erun & Hadv); [by rewrite <- app_assoc; exact Hsort|by apply (site_moves _ _ _ _ _ s)|].
  assert (Hnext : advanced fates i (r :: rows) kept applied (r :: rows ++ rest') alive s' (r :: more) (ks ++ kmore)).
  { apply advanced_cons; [done| |done]. intros ->. destruct (fates i); try done; by specialize (Hks ltac:(done)). }
  assert (Hstay : forall alive s2, fates i <> Row_done -> fates i <> Row_busy -> r_dbs (s_replica s2) = r_dbs r' -> s_checkpoint s2 = s_checkpoint s ->
    s_journal s2 = s_journal s \/ s_journal s2 = with_row r (s_journal s) ->
    exists alive' s3 more kmore, (alive, s2) = (alive', s3) /\ advanced fates i (r :: rows) kept applied (r :: rows ++ rest') alive' s3 more kmore).
  { intros alive2 s2 Hf Hb E1 E2 E3. exists alive2, s2, [], []. split; [done|]. apply advanced_stay; [|done].
    apply (site_stays _ _ _ _ s); [done|done|by rewrite E1, Hd, Hks|done|done]. }
  destruct (fates i) eqn:Hf; try (by eexists _, _, _, _); try (apply Hstay; by auto).
  unfold with_row in *. destruct clustered; [apply Hstay; by auto|by eexists _, _, _, _].
Qed.
End loop.

(** ** Rounds *)

Definition gap (cp : Z) (journal : list journal_row) : bool :=
  (0 <? cp) && (0 <? journal_min journal) && (cp <? journal_min journal - 1).

Definition pending_rows (cp : Z) (journal : list journal_row) : list journal_row := List.filter (fun r => cp <? j_seq r) journal.

Lemma ask_spec journal cp : 0 <= cp <= long_max -> exists a b,
  ask true journal cp FLYWIRE_FEED_LIMIT =
  Some (if gap cp journal then Feed_journal_purged
        else Feed (map (to_feed cJSON_Parse) (take (Z.to_nat FLYWIRE_FEED_LIMIT) (pending_rows cp journal))) a b our_epoch).
Proof.
  intros Hcp. unfold ask, handler_flywire_feed. cbn [negb].
  assert (Eq : query_number 0 (Some (print_int cp)) = cp).
  { pose proof (strtol10_print_int cp Hcp) as H. unfold query_number. destruct (print_int cp); [|by rewrite H]. by injection H as <-. }
  rewrite Eq. replace (Z.max 0 cp) with cp by lia. fold (gap cp journal).
  replace (match Some (print_int FLYWIRE_FEED_LIMIT) with Some (c :: s) => atoi (c :: s) | _ => 500 end) with FLYWIRE_FEED_LIMIT
    by (vm_compute; reflexivity).
  change (if FLYWIRE_FEED_LIMIT <? 1 then 500 else if 5000 <? FLYWIRE_FEED_LIMIT then 5000 else FLYWIRE_FEED_LIMIT) with FLYWIRE_FEED_LIMIT.
  eexists _, _. by destruct (gap cp journal).
Qed.

Lemma poll_epoch rows a b fates s :
  flywire_poll_once table_info column_default accepts cascade cJSON_Parse cJSON_PrintUnformatted auth_admin_username auth_site_admin_uid
    our_epoch (Some (Feed rows a b our_epoch)) fates s =
  let '(alive, s') := apply_rows table_info column_default accepts cascade cJSON_Parse cJSON_PrintUnformatted
    auth_admin_username auth_site_admin_uid clustered fates 0 rows s in (0, alive, s').
Proof. unfold flywire_poll_once, clustered. destruct our_epoch as [e|]; [|done]. cbn [default from_option]. by rewrite Z.eqb_refl. Qed.

(** What a round changes outside of files and queues is what its poll changes. *)
Lemma iteration_poll open_ok feed fates fetch s :
  let '(_, _, s') := flywire_replica_iteration table_info column_default accepts cascade cJSON_Parse cJSON_PrintUnformatted
                       auth_admin_username auth_site_admin_uid open_ok our_epoch feed fates fetch s in
  let polled := if open_ok then snd (flywire_poll_once table_info column_default accepts cascade cJSON_Parse cJSON_PrintUnformatted
                  auth_admin_username auth_site_admin_uid our_epoch (feed (s_checkpoint s) FLYWIRE_FEED_LIMIT) fates s) else s in
  r_dbs (s_replica s') = r_dbs (s_replica polled) /\ s_journal s' = s_journal polled /\ s_checkpoint s' = s_checkpoint polled.
Proof.
  unfold flywire_replica_iteration. destruct open_ok; cbn [negb]; [|done].
  destruct (flywire_poll_once _ _ _ _ _ _ _ _ _ _ _ _) as [[rc alive] s']. cbn [snd].
  destruct (negb alive || negb (rc =? 0)); [done|].
  set (r := if s_bad_files_queued s' then _ else _).
  assert (Hr : r_dbs r = r_dbs (s_replica s')) by (subst r; by destruct (s_bad_files_queued s')).
  destruct (flywire_dequeue_file _) as [file_id fq]. destruct (flywire_dequeue_profile _) as [profile pq]. done.
Qed.

Section history.
Context (hist0 J0 : list journal_row) (d0 : databases).
Context (Hne : hist0 <> []) (Hpos : Forall (fun r => 0 < j_seq r) hist0) (Hsort : StronglySorted Z.lt (map j_seq hist0)).

Definition cp_start : Z := last_seq 0 (map j_seq hist0).
Context (HsortJ : StronglySorted Z.lt (map j_seq J0)) (HJ0 : Forall (fun r => j_seq r <= cp_start) J0).

Lemma last_seq_bound l : StronglySorted Z.lt l -> forall x, x ∈ l -> x <= last_seq 0 l.
Proof.
  intros Hs x Hx. destruct l as [|y l] using rev_ind; [by apply not_elem_of_nil in Hx|]. rewrite last_seq_snoc.
  apply elem_of_app in Hx as [Hx|Hx]; [|apply list_elem_of_singleton in Hx; lia].
  assert (x < y); [|lia]. apply (StronglySorted_app_1_elem_of Z.lt l [y]); [done|done|by apply list_elem_of_singleton].
Qed.

Lemma hist0_bound r : r ∈ hist0 -> 0 < j_seq r <= cp_start.
Proof.
  intros Hr. split; [by apply (proj1 (Forall_forall _ _) Hpos)|]. apply last_seq_bound; [done|].
  apply list_elem_of_In, in_map, list_elem_of_In. done.
Qed.

Lemma cp_start_pos : 0 < cp_start.
Proof.
  assert (H : exists r, r ∈ hist0) by (destruct hist0 as [|r l]; [done|]; exists r; apply elem_of_cons; by left).
  destruct H as [r Hr]. apply hist0_bound in Hr. lia.
Qed.

(** The event is a round in which the row was handled while its statements failed. *)
Definition skipped (w : world) (e : site_event) (r : journal_row) : Prop :=
  match e with
  | Round _ _ fates _ => exists j, pending_rows (s_checkpoint (w_site w)) (w_kept w) !! j = Some r /\ fates j = Row_busy
  | _ => False
  end.
Definition lost_in (es : list site_event) (w : world) (r : journal_row) : Prop :=
  exists es1 e es2, es = es1 ++ e :: es2 /\ skipped (world_run es1 w) e r.

Definition no_busy (e : site_event) : Prop := match e with Round _ _ fates _ => forall i, fates i <> Row_busy | _ => True end.

(** The replica is at [applied], and what was never purged is at the end of the history. *)
Record world_at (kept applied rest : list journal_row) (w : world) : Prop := {
  wa_hist : w_hist w = hist0 ++ applied ++ rest;
  wa_kept : exists purged, w_hist w = purged ++ w_kept w;
  wa_seqs : map j_seq (applied ++ rest) = seqZ (cp_start + 1) (zlen (applied ++ rest));
  wa_site : site_at d0 J0 cp_start kept applied rest (w_site w);
}.

Lemma seqs_sorted m n : StronglySorted Z.lt (seqZ m n).
Proof.
  destruct (Z.le_gt_cases 0 n) as [Hn|Hn]; [|by rewrite seqZ_nil by lia; constructor].
  revert m. pattern n. apply natlike_ind; [intros m; rewrite seqZ_nil by lia; constructor| |done].
  intros k Hk IH m. rewrite seqZ_cons by lia. replace (Z.pred (Z.succ k)) with k by lia. constructor; [apply IH|].
  apply Forall_forall. intros x Hx%elem_of_seqZ. lia.
Qed.

Lemma rows_sorted X applied rest : StronglySorted Z.lt (map j_seq X) -> Forall (fun r => j_seq r <= cp_start) X ->
  map j_seq (applied ++ rest) = seqZ (cp_start + 1) (zlen (applied ++ rest)) -> StronglySorted Z.lt (map j_seq (X ++ applied ++ rest)).
Proof.
  intros HX Hle Hseqs. rewrite map_app, Hseqs. apply StronglySorted_app. split; [|split; [done|apply seqs_sorted]].
  intros a b Ha Hb%elem_of_seqZ. apply list_elem_of_In, in_map_iff in Ha as (r & <- & Hr).
  apply list_elem_of_In in Hr. apply (proj1 (Forall_forall _ _) Hle) in Hr. lia.
Qed.

Lemma applied_seqs applied rest : map j_seq (applied ++ rest) = seqZ (cp_start + 1) (zlen (applied ++ rest)) ->
  map j_seq applied = seqZ (cp_start + 1) (zlen applied) /\ map j_seq rest = seqZ (cp_start + 1 + zlen applied) (zlen rest).
Proof.
  intros H. rewrite map_app, zlen_app, seqZ_app in H by apply zlen_nonneg. apply app_inj_1 in H; [done|].
  rewrite length_map, length_seqZ. unfold zlen. lia.
Qed.

Lemma checkpoint_value applied rest : map j_seq (applied ++ rest) = seqZ (cp_start + 1) (zlen (applied ++ rest)) ->
  last_seq cp_start (map j_seq applied) = cp_start + zlen applied.
Proof.
  intros [H _]%applied_seqs. destruct applied as [|r l _] using rev_ind; [unfold zlen; cbn; lia|].
  rewrite map_app in *. cbn [map] in *. rewrite last_seq_snoc. rewrite zlen_app in *. change (zlen [r]) with 1 in *.
  rewrite seqZ_app in H by (unfold zlen; lia). change (seqZ (cp_start + 1 + zlen l) 1) with [cp_start + 1 + zlen l] in H.
  apply app_inj_2 in H as [_ H]; [|done]. injection H as H. lia.
Qed.

Lemma filter_none {A} (P : A -> bool) l : (forall x, x ∈ l -> P x = false) -> List.filter P l = [].
Proof.
  induction l as [|x l IH]; intros H; [done|]. cbn. rewrite H by (apply elem_of_cons; by left).
  apply IH. intros y Hy. apply H, elem_of_cons. by right.
Qed.
Lemma filter_all {A} (P : A -> bool) l : (forall x, x ∈ l -> P x = true) -> List.filter P l = l.
Proof.
  induction l as [|x l IH]; intros H; [done|]. cbn. rewrite H by (apply elem_of_cons; by left). f_equal.
  apply IH. intros y Hy. apply H, elem_of_cons. by right.
Qed.

Lemma applied_below applied rest r : map j_seq (applied ++ rest) = seqZ (cp_start + 1) (zlen (applied ++ rest)) ->
  (r ∈ hist0 ++ applied -> j_seq r <= cp_start + zlen applied) /\ (r ∈ rest -> cp_start + zlen applied < j_seq r).
Proof.
  intros H. destruct (applied_seqs _ _ H) as [Ha Hr]. pose proof (zlen_nonneg applied). split; intros Hin.
  - apply elem_of_app in Hin as [Hin|Hin]; [apply hist0_bound in Hin; lia|].
    assert (Hs : j_seq r ∈ map j_seq applied) by (apply list_elem_of_In, in_map, list_elem_of_In; done).
    rewrite Ha in Hs. apply elem_of_seqZ in Hs. lia.
  - assert (Hs : j_seq r ∈ map j_seq rest) by (apply list_elem_of_In, in_map, list_elem_of_In; done).
    rewrite Hr in Hs. apply elem_of_seqZ in Hs. lia.
Qed.

(** The rows after the checkpoint are the rest of the history, unless some of those were purged, and
    then the feed says so or has no row at all. *)
Lemma pending_spec kept applied rest w : world_at kept applied rest w ->
  let cp := cp_start + zlen applied in
  (gap cp (w_kept w) = false -> pending_rows cp (w_kept w) = rest \/ w_kept w = []) /\
  ((exists old, w_kept w = old ++ rest) -> rest <> [] -> gap cp (w_kept w) = false /\ pending_rows cp (w_kept w) = rest).
Proof.
  intros [Hhist [purged Hkept] Hseqs _]. cbv zeta. set (cp := cp_start + zlen applied).
  pose proof (applied_below applied rest) as Hbelow. pose proof cp_start_pos. pose proof (zlen_nonneg applied).
  assert (Hall : pending_rows cp (w_hist w) = rest).
  { rewrite Hhist, app_assoc. unfold pending_rows. rewrite List.filter_app, (filter_none _ (hist0 ++ applied)), (filter_all _ rest); [done| |].
    - intros r Hr. destruct (Hbelow r Hseqs) as [_ H2]. apply H2 in Hr. subst cp. lia.
    - intros r Hr. destruct (Hbelow r Hseqs) as [H1 _]. apply H1 in Hr. subst cp. lia. }
  assert (Hsorted : StronglySorted Z.lt (map j_seq (w_hist w))).
  { rewrite Hhist. apply rows_sorted; [done| |done]. apply Forall_forall. intros r Hr. by apply hist0_bound. }
  assert (Hold : forall min k, w_kept w = min :: k -> j_seq min - 1 <= cp -> pending_rows cp (w_kept w) = rest).
  { intros min k E Hmin. rewrite Hkept in Hall. unfold pending_rows in *. rewrite List.filter_app, (filter_none _ purged) in Hall; [done|].
    intros r Hr. rewrite Hkept, E, map_app in Hsorted.
    assert (j_seq r < j_seq min); [|lia]. apply (StronglySorted_app_1_elem_of Z.lt _ _ _ _ Hsorted); [|apply elem_of_cons; by left].
    apply list_elem_of_In, in_map, list_elem_of_In. done. }
  assert (Hpos' : forall r, r ∈ w_hist w -> 0 < j_seq r).
  { intros r Hr. rewrite Hhist, app_assoc in Hr. apply elem_of_app in Hr as [Hr|Hr].
    - apply elem_of_app in Hr as [Hr|Hr]; [by apply hist0_bound|].
      assert (Hs : j_seq r ∈ map j_seq (applied ++ rest)) by (apply list_elem_of_In, in_map, in_app_iff; left; by apply list_elem_of_In).
      rewrite Hseqs in Hs. apply elem_of_seqZ in Hs. lia.
    - destruct (Hbelow r Hseqs) as [_ H2]. apply H2 in Hr. lia. }
  unfold gap. split.
  - intros Hgap. destruct (w_kept w) as [|min k] eqn:E; [by right|]. left. apply (Hold min k eq_refl). cbn [journal_min] in Hgap.
    assert (0 < j_seq min); [|lia]. apply Hpos'. rewrite Hkept. apply elem_of_app. right. apply elem_of_cons. by left.
  - intros [old Hk] Hrest. destruct rest as [|r0 rest0] eqn:Er; [done|]. rewrite <- Er in *.
    assert (Hmin : exists min k, w_kept w = min :: k /\ j_seq min - 1 <= cp).
    { destruct old as [|min old].
      - exists r0, rest0. rewrite Hk, Er. split; [done|]. destruct (applied_seqs _ _ Hseqs) as [_ Hr].
        rewrite Er in Hr. unfold zlen in Hr. cbn [length map] in Hr. rewrite seqZ_cons in Hr by lia. injection Hr as Hr _. unfold cp, zlen. lia.
      - exists min, (old ++ rest). rewrite Hk. split; [done|]. rewrite Hhist, Hk, app_assoc, app_assoc in Hkept.
        apply app_inj_2 in Hkept as [Hdone _]; [|done]. destruct (Hbelow min Hseqs) as [H1 _].
        assert (Hin : min ∈ hist0 ++ applied) by (rewrite Hdone; apply elem_of_app; right; apply elem_of_cons; by left).
        specialize (H1 Hin). unfold cp. lia. }
    destruct Hmin as (min & k & E & Hmin). split; [|by apply (Hold min k)]. rewrite E. cbn [journal_min]. lia.
Qed.

(** What an event does to the replica: [more] rows get behind the checkpoint, [kmore] of them into the
    databases, and the others are skipped. *)
Definition moved (w : world) (e : site_event) (kept applied rest : list journal_row) (more kmore : list journal_row) : Prop :=
  more `prefix_of` rest /\ world_at (kept ++ kmore) (applied ++ more) (drop (length more) rest) (world_step w e) /\
  (forall r, r ∈ more -> r ∈ kmore \/ skipped w e r) /\ (no_busy e -> kmore = more).

(** A round that polls nothing, or nothing it can use. *)
Lemma site_same kept applied rest s s' : site_at d0 J0 cp_start kept applied rest s ->
  r_dbs (s_replica s') = r_dbs (s_replica s) -> s_journal s' = s_journal s -> s_checkpoint s' = s_checkpoint s ->
  site_at d0 J0 cp_start (kept ++ []) (applied ++ []) (drop (length (@nil journal_row)) rest) s'.
Proof. intros H E1 E2 E3. rewrite !app_nil_r. by apply (site_at_ext _ _ _ _ _ _ s). Qed.

(** A round moves the replica along the history; a round without faults takes all the rows a feed holds. *)
Lemma round_ok kept applied rest w open_ok reached fates fetch : world_at kept applied rest w ->
  cp_start + zlen (applied ++ rest) <= long_max ->
  exists more kmore, moved w (Round open_ok reached fates fetch) kept applied rest more kmore /\
    (open_ok = true -> reached = true -> (forall i, fates i = Row_done) -> (exists old, w_kept w = old ++ rest) ->
     more = take (Z.to_nat FLYWIRE_FEED_LIMIT) rest).
Proof.
  intros Hw Hmax. pose proof (pending_spec _ _ _ _ Hw) as Hpend. destruct Hw as [Hhist Hkept Hseqs Hsite].
  pose proof (at_checkpoint _ _ _ _ _ _ _ Hsite) as Hcp. rewrite (checkpoint_value _ _ Hseqs) in Hcp.
  pose proof cp_start_pos as Hcp0. pose proof (zlen_nonneg applied). pose proof (zlen_nonneg rest). rewrite zlen_app in Hmax.
  enough (Hgoal : exists more kmore, more `prefix_of` rest /\
    site_at d0 J0 cp_start (kept ++ kmore) (applied ++ more) (drop (length more) rest) (snd (round open_ok reached fates fetch w)) /\
    (forall r, r ∈ more -> r ∈ kmore \/ skipped w (Round open_ok reached fates fetch) r) /\ ((forall i, fates i <> Row_busy) -> kmore = more) /\
    (open_ok = true -> reached = true -> (forall i, fates i = Row_done) -> (exists old, w_kept w = old ++ rest) ->
     more = take (Z.to_nat FLYWIRE_FEED_LIMIT) rest)).
  { destruct Hgoal as (more & kmore & [rest' ->] & Hs & Hsk & Hb & Hall). exists more, kmore. split; [|done]. split; [by exists rest'|].
    rewrite drop_app_length in *. split; [|done]. split; cbn [world_step w_hist w_kept w_site]; [by rewrite <- app_assoc|done|by rewrite <- app_assoc|done]. }
  pose proof (iteration_poll open_ok (ask reached (w_kept w)) fates fetch (w_site w)) as Hiter. unfold round.
  destruct (flywire_replica_iteration _ _ _ _ _ _ _ _ _ _ _ _ _ _) as [[rc alive] s']. cbn [snd]. destruct Hiter as (E1 & E2 & E3).
  assert (Hnil : forall r : journal_row, r ∈ [] -> r ∈ [] \/ skipped w (Round open_ok reached fates fetch) r) by (by intros r ?%not_elem_of_nil).
  rewrite Hcp in *. destruct open_ok; last first.
  { exists [], []. split; [by exists rest|]. split; [|done]. by apply (site_same _ _ _ (w_site w)). }
  destruct reached; last first.
  { exists [], []. split; [by exists rest|]. split; [|done]. by apply (site_same _ _ _ (w_site w)). }
  destruct (ask_spec (w_kept w) (cp_start + zlen applied) ltac:(lia)) as (a & b & Eask). rewrite Eask in *.
  destruct Hpend as [Hpend Hpend'].
  destruct (gap (cp_start + zlen applied) (w_kept w)) eqn:Hgap.
  { exists [], []. split; [by exists rest|]. split; [by apply (site_same _ _ _ (w_site w))|]. split; [done|]. split; [done|].
    intros _ _ _ Hold. destruct rest as [|r rest]; [done|]. by destruct (Hpend' Hold) as [? _]. }
  rewrite poll_epoch in *. set (rows := take (Z.to_nat FLYWIRE_FEED_LIMIT) (pending_rows (cp_start + zlen applied) (w_kept w))) in *.
  assert (Hrows : rows `prefix_of` rest).
  { subst rows. destruct (Hpend eq_refl) as [-> |Hk]; [by apply prefix_take|]. rewrite Hk. unfold pending_rows. cbn. rewrite take_nil. by exists rest. }
  destruct (apply_rows_ok d0 J0 cp_start fates rows 0 (w_site w) kept applied rest Hrows) as (alive' & s2 & more & kmore & Eapp & Hmore & _ & Hs2 & Hsk & Hb & Hall);
    [by apply rows_sorted|done|].
  rewrite Eapp in *. cbn [snd] in *. exists more, kmore. split; [by etrans|]. split; [by apply (site_at_ext _ _ _ _ _ _ s2)|].
  split; [|split; [done|]].
  - intros r Hr. destruct (Hsk r Hr) as [? |(j & Hj & Hf)]; [by left|]. right. exists j. split; [|done]. rewrite Hcp.
    subst rows. by apply lookup_take_Some in Hj as [Hj _].
  - intros _ _ Hdone Hold. destruct (Hall Hdone) as [_ ->]. subst rows. destruct rest as [|r rest].
    + destruct Hrows as [k Hk]. symmetry in Hk. apply app_nil in Hk as [Hk _]. by rewrite Hk, take_nil.
    + by destruct (Hpend' Hold ltac:(done)) as [_ ->].
Qed.

Lemma next_seq_value kept applied rest w : world_at kept applied rest w -> next_seq (w_hist w) = cp_start + zlen (applied ++ rest) + 1.
Proof.
  intros [Hhist _ Hseqs _]. unfold next_seq. f_equal. rewrite Hhist. destruct (applied ++ rest) as [|r l _] using rev_ind.
  - rewrite app_nil_r. unfold zlen. cbn. unfold cp_start. lia.
  - rewrite app_assoc, map_app. cbn [map]. rewrite last_seq_snoc. rewrite map_app, zlen_app in *. change (zlen [r]) with 1 in *.
    pose proof (zlen_nonneg l). rewrite seqZ_app in Hseqs by lia. change (seqZ (cp_start + 1 + zlen l) 1) with [cp_start + 1 + zlen l] in Hseqs.
    apply app_inj_2 in Hseqs as [_ H']; [|done]. injection H' as H'. lia.
Qed.

(** A new row of the primary is the last of the rest. *)
Lemma journal_ok kept applied rest w entity id op payload : world_at kept applied rest w ->
  world_at kept applied (rest ++ [JournalRow (next_seq (w_hist w)) entity id op payload]) (world_step w (Journal_row entity id op payload)).
Proof.
  intros Hw. pose proof (next_seq_value _ _ _ _ Hw) as Hnext. destruct Hw as [Hhist [purged Hkept] Hseqs [Hcp Hsub (n & Hn & Hd) (m & Hm & HJ)]].
  assert (Htake : forall n, (n <= 1)%nat -> exists n', (n' <= 1)%nat /\ take n' (rest ++ [JournalRow (next_seq (w_hist w)) entity id op payload]) = take n rest).
  { intros k Hk. destruct rest as [|r rest]; [exists 0%nat; rewrite take_nil; split; [lia|done]|].
    exists k. split; [done|]. by rewrite take_app_le by (cbn; lia). }
  split; cbn [world_step w_hist w_kept w_site db_sync_journal_conn fst]; fold (next_seq (w_hist w)).
  - by rewrite Hhist, !app_assoc.
  - exists purged. by rewrite Hkept at 1; rewrite app_assoc.
  - rewrite !app_assoc, map_app, (zlen_app (applied ++ rest)), Hseqs. change (zlen [_]) with 1. pose proof (zlen_nonneg (applied ++ rest)).
    rewrite seqZ_app by lia. f_equal. cbn [map j_seq]. rewrite Hnext. change (seqZ ?a 1) with [a]. f_equal. lia.
  - split; [done|done| |].
    + destruct (Htake n Hn) as (n' & Hn' & E). exists n'. by rewrite E.
    + destruct (Htake m Hm) as (m' & Hm' & E). exists m'. by rewrite E.
Qed.

Lemma world_step_ok kept applied rest w e : world_at kept applied rest w -> cp_start + zlen (applied ++ rest) <= long_max ->
  exists more kmore rest', world_at (kept ++ kmore) (applied ++ more) rest' (world_step w e) /\
    (forall r, r ∈ more -> r ∈ kmore \/ skipped w e r) /\ (no_busy e -> kmore = more) /\
    zlen (applied ++ rest) <= zlen ((applied ++ more) ++ rest') <= zlen (applied ++ rest) + 1.
Proof.
  intros Hw Hmax. assert (Hnil : forall r : journal_row, r ∈ [] -> r ∈ [] \/ skipped w e r) by (by intros r ?%not_elem_of_nil).
  destruct e as [entity id op payload|n|open_ok reached fates fetch].
  - exists [], [], (rest ++ [JournalRow (next_seq (w_hist w)) entity id op payload]). rewrite !app_nil_r. split; [by apply journal_ok|]. split; [done|]. split; [done|].
    rewrite (app_assoc applied), (zlen_app (applied ++ rest)). change (zlen [_]) with 1. lia.
  - exists [], [], rest. rewrite !app_nil_r. split; [|by repeat split; try lia]. destruct Hw as [Hhist [purged Hkept] Hseqs Hsite]. split; [done| |done|done].
    exists (purged ++ take n (w_kept w)). cbn [world_step w_hist w_kept]. by rewrite <- app_assoc, take_drop.
  - destruct (round_ok kept applied rest w open_ok reached fates fetch Hw Hmax) as (more & kmore & ([rest' ->] & Hw' & Hsk & Hb) & _).
    rewrite drop_app_length in Hw'. exists more, kmore, rest'. split; [done|]. split; [done|]. split; [done|]. rewrite <- app_assoc. lia.
Qed.

Lemma world_run_ok es : forall kept applied rest w, world_at kept applied rest w ->
  cp_start + zlen (applied ++ rest) + zlen es <= long_max ->
  exists more kmore rest', world_at (kept ++ kmore) (applied ++ more) rest' (world_run es w) /\
    (forall r, r ∈ more -> r ∈ kmore \/ lost_in es w r) /\ (Forall no_busy es -> kmore = more) /\
    cp_start + zlen ((applied ++ more) ++ rest') <= long_max.
Proof.
  induction es as [|e es IH]; intros kept applied rest w Hw Hmax.
  { exists [], [], rest. rewrite !app_nil_r. split; [done|]. split; [by intros r ?%not_elem_of_nil|]. split; [done|]. change (zlen []) with 0 in Hmax. lia. }
  rewrite zlen_cons in Hmax. pose proof (zlen_nonneg es).
  destruct (world_step_ok _ _ _ _ e Hw ltac:(lia)) as (more1 & kmore1 & rest1 & Hw1 & Hsk1 & Hb1 & Hlen).
  destruct (IH _ _ _ _ Hw1 ltac:(lia)) as (more & kmore & rest' & Hw' & Hsk & Hb & Hl). rewrite <- !app_assoc in Hw'.
  exists (more1 ++ more), (kmore1 ++ kmore), rest'. split; [done|]. split; [|split; [|by rewrite (app_assoc applied more1)]].
  - intros r [Hr|Hr]%elem_of_app.
    + destruct (Hsk1 r Hr) as [?|Hs]; [left; apply elem_of_app; by left|]. right. by exists [], e, es.
    + destruct (Hsk r Hr) as [? |(es1 & e1 & es2 & -> & Hs)]; [left; apply elem_of_app; by right|]. right. by exists (e :: es1), e1, es2.
  - intros [He Hes]%Forall_cons. by rewrite Hb1, Hb.
Qed.

Definition clean_round (fetch : cstr -> Z -> response) : site_event := Round true true (fun _ => Row_done) fetch.

Lemma clean_ok fetches : forall kept applied rest w, world_at kept applied rest w -> (exists old, w_kept w = old ++ rest) ->
  cp_start + zlen (applied ++ rest) <= long_max -> (length rest <= length fetches * Z.to_nat FLYWIRE_FEED_LIMIT)%nat ->
  world_at (kept ++ rest) (applied ++ rest) [] (world_run (map clean_round fetches) w).
Proof.
  induction fetches as [|f fetches IH]; intros kept applied rest w Hw Hold Hmax Hlen.
  { destruct rest; [by rewrite !app_nil_r|cbn in Hlen; lia]. }
  destruct (round_ok kept applied rest w true true (fun _ => Row_done) f Hw Hmax) as (more & kmore & ([rest' Erest] & Hw' & _ & Hb) & Hall).
  rewrite Hb in Hw' by (by intros i). specialize (Hall eq_refl eq_refl ltac:(done) Hold).
  assert (Erest' : rest' = drop (Z.to_nat FLYWIRE_FEED_LIMIT) rest).
  { rewrite <- (take_drop (Z.to_nat FLYWIRE_FEED_LIMIT) rest), Hall in Erest at 1. by apply app_inv_head in Erest. }
  rewrite Erest, drop_app_length in Hw'. rewrite Erest, !app_assoc.
  cbn [map world_run foldl]. apply (IH (kept ++ more) (applied ++ more) rest'); [done| | |].
  - destruct Hold as [old Hk]. exists (old ++ more). cbn. by rewrite Hk, Erest, app_assoc.
  - by rewrite <- app_assoc, <- Erest.
  - rewrite Erest', length_drop. cbn [length] in Hlen. lia.
Qed.
End history.

(** C4: A replica follows the primary: started from an archive of the primary with its checkpoint, and
    whatever mix of journaled rows, purges, failing rounds and crashes follows, its databases hold, in
    the order of the history and once each, rows [kept] up to its checkpoint (or one row more, when
    it died before the checkpoint was written).  A row behind the checkpoint that is not among them was
    handled in a round while its own statement failed for a passing reason (a locked database, a full
    disk), which the code does not retry; where no statement fails so, they are all the rows up to the
    checkpoint.  Rounds without faults, five thousand rows each, bring all the later rows, as long
    as none of them was purged.  In a cluster its journal is then the primary's, so it can serve it. *)
Theorem flywire_replica_converges hist0 site0 es
    (Hne : hist0 <> []) (Hpos : Forall (fun r => 0 < j_seq r) hist0) (Hsort : StronglySorted Z.lt (map j_seq hist0))
    (Hcp : s_checkpoint site0 = cp_start hist0)
    (HsortJ : StronglySorted Z.lt (map j_seq (s_journal site0))) (HJ : Forall (fun r => j_seq r <= cp_start hist0) (s_journal site0))
    (Hmax : cp_start hist0 + zlen es <= 2 ^ 53) :
  let d0 := r_dbs (s_replica site0) in
  let w := world_run es (World hist0 hist0 site0) in
  exists kept applied rest, w_hist w = hist0 ++ applied ++ rest /\
    s_checkpoint (w_site w) = last_seq (cp_start hist0) (map j_seq applied) /\
    (exists n, (n <= 1)%nat /\ r_dbs (s_replica (w_site w)) = replay (kept ++ take n rest) d0) /\
    kept `sublist_of` applied /\ (forall r, r ∈ applied -> r ∈ kept \/ lost_in es (World hist0 hist0 site0) r) /\
    (Forall no_busy es -> kept = applied) /\
    forall fetches, (exists old, w_kept w = old ++ rest) -> (length rest <= length fetches * 5000)%nat ->
      let s := w_site (world_run (map clean_round fetches) w) in
      r_dbs (s_replica s) = replay (kept ++ rest) d0 /\
      s_checkpoint s = last_seq (cp_start hist0) (map j_seq (applied ++ rest)) /\
      s_journal s = if clustered then s_journal site0 ++ map sent_row (applied ++ rest) else s_journal site0.
Proof.
  intros d0 w.
  assert (Hstart : world_at hist0 (s_journal site0) d0 [] [] [] (World hist0 hist0 site0)).
  { split; cbn [w_hist w_kept w_site app]; [by rewrite app_nil_r|by exists []|done|]. split; [done|done| |]; exists 0%nat; (split; [lia|]); [done|].
    cbn. rewrite app_nil_r. by destruct clustered. }
  destruct (world_run_ok hist0 (s_journal site0) d0 Hne Hpos Hsort HsortJ HJ es [] [] [] _ Hstart) as (applied & kept & rest & Hw & Hsk & Hb & Hlen).
  { cbn [app]. change (zlen []) with 0. unfold long_max. lia. }
  cbn [app] in Hw, Hlen. fold w in Hw. exists kept, applied, rest. pose proof (wa_hist _ _ _ _ _ _ _ Hw) as Hhist.
  destruct (wa_site _ _ _ _ _ _ _ Hw) as [Hc Hsub Hd _]. do 6 (split; [done|]). intros fetches Hold Hl.
  destruct (clean_ok hist0 (s_journal site0) d0 Hne Hpos Hsort HsortJ HJ fetches kept applied rest w Hw Hold Hlen Hl) as [_ _ _ [Hc' _ (n & _ & Hd') (m & _ & HJ')]].
  rewrite take_nil, app_nil_r in *. done.
Qed.
End replication.

(** A post journaled on the primary reaches a replica that died right after applying it. *)
Section demo.
Definition demo_text : cstr := CS "{id:7,title:hi}".
Definition demo_object : json := JObject [(CS "id", JNumber 7); (CS "title", JString (CS "hi"))].
Definition demo_parse (s : cstr) : option json :=
  if streq s demo_text then Some demo_object else if streq s (CS "{}") then Some (JObject []) else None.
Definition demo_print (_ : json) : cstr := demo_text.
Definition demo_columns (_ : cstr) : list (list Z) := [CS "id"; CS "title"].
Definition demo_run := world_run demo_columns (fun _ _ => VNull) (fun _ _ => true) (fun _ _ d => d) demo_parse demo_print [] 0 (Some 3).
Definition demo_hist : list journal_row := [JournalRow 41 (CS "tag") 1 (CS "delete") []].
Definition demo_site : site := Site (Replica (Databases ∅ ∅ ∅ ∅) ∅ [] []) demo_hist 41 false.
Definition demo_fetch (_ : cstr) (_ : Z) : response := Response false 0 [].
(** A row is lost to a locked database, the next one is applied by a process that then dies. *)
Definition demo_events : list site_event :=
  [Journal_row (CS "post") 6 (CS "upsert") demo_text; Round true true (fun _ => Row_busy) demo_fetch;
   Journal_row (CS "post") 7 (CS "upsert") demo_text; Round true true (fun _ => Crash_applied) demo_fetch; Purge 1].
End demo.

Lemma flywire_replica_converges_witness :
  let w := demo_run demo_events (World demo_hist demo_hist demo_site) in
  s_checkpoint (w_site w) = 42 /\ db_rows (r_dbs (s_replica (w_site w))) !! (CS "posts", 7) <> None /\
  let s := w_site (demo_run [clean_round demo_fetch] w) in
  s_checkpoint s = 43 /\ map j_seq (s_journal s) = [41; 42; 43] /\
  db_rows (r_dbs (s_replica s)) !! (CS "posts", 7) = Some (<[CS "title" := VText (CS "hi")]> {[CS "id" := VInt 7]}).
Proof.
  intros w.
  destruct (flywire_replica_converges demo_columns (fun _ _ => VNull) (fun _ _ => true) (fun _ _ d => d) demo_parse demo_print [] 0 (Some 3)
    demo_hist demo_site demo_events ltac:(done) ltac:(by repeat constructor) ltac:(by repeat constructor) ltac:(done)
    ltac:(by repeat constructor) ltac:(by repeat constructor) ltac:(by vm_compute))
    as (kept & applied & rest & Hhist & Hcp & _ & Hsub & _ & _ & Hclean).
  assert (Hsplit : applied = [JournalRow 42 (CS "post") 6 (CS "upsert") demo_text] /\ rest = [JournalRow 43 (CS "post") 7 (CS "upsert") demo_text]).
  { vm_compute in Hhist, Hcp. destruct applied as [|r [|r' [|r2 applied]]]; cbn in Hhist; simplify_eq; done. }
  destruct Hsplit as [-> ->]. destruct (Hclean [demo_fetch]) as (Hd & Hc & HJ); [by eexists [_]|cbn; lia|].
  split; [by vm_compute|]. split; [by vm_compute|]. cbn [map] in *. unfold demo_run, w.
  split; [exact Hc|]. split; [etransitivity; [exact (f_equal (map j_seq) HJ)|by vm_compute]|].
  etransitivity; [exact (f_equal (fun d => db_rows d !! (CS "posts", 7)) Hd)|].
  destruct (sublist_one _ _ Hsub) as [-> | ->]; by vm_compute.
Defined.

(** ** A row arrives as it was *)

(** What [sqlite3_column_int] makes of a column. *)
Definition truncated (v : value) : value := match v with VInt n => VInt (i32 n) | _ => v end.

Lemma bind_column v : bind_value (column_to_json v) = truncated v.
Proof. by destruct v. Qed.

Section snapshot.
Context (table_info : list Z -> list (list Z)) (column_default : list Z -> list Z -> value).
Context (accepts : databases -> databases -> bool) (cascade : list Z -> Z -> databases -> databases).
Context (cJSON_Parse : list Z -> option json) (cJSON_PrintUnformatted : json -> list Z).

(** cJSON reads back what it printed. *)
Definition reads_back (j : json) : Prop := cJSON_Parse (cJSON_PrintUnformatted j) = Some j /\ cJSON_PrintUnformatted j <> [].

Lemma sent_object l : reads_back (JObject l) -> sent_text cJSON_PrintUnformatted (feed_json cJSON_Parse (cJSON_PrintUnformatted (JObject l))) = cJSON_PrintUnformatted (JObject l) /\
  parse_payload cJSON_Parse (cJSON_PrintUnformatted (JObject l)) = Some (JObject l).
Proof.
  intros [Hparse Hprint]. unfold feed_json, parse_payload. rewrite (proj2 (streq_neq _ _) Hprint), Hparse. done.
Qed.

Lemma item_at (f : cstr -> json) cols c : NoDup (map (map tolower) cols) -> c ∈ cols ->
  cJSON_GetObjectItem (map (fun c => (c, f c)) cols) c = Some (f c).
Proof.
  unfold cJSON_GetObjectItem. induction cols as [|c' cols IH]; intros Hnd Hc; [by apply not_elem_of_nil in Hc|].
  apply NoDup_cons in Hnd as [Hnew Hnd]. cbn [map List.find]. destruct (streq (map tolower c') (map tolower c)) eqn:E.
  - apply streq_eq in E. apply elem_of_cons in Hc as [-> |Hc]; [done|]. exfalso. apply Hnew. rewrite E.
    by apply list_elem_of_In, in_map, list_elem_of_In.
  - apply elem_of_cons in Hc as [-> |Hc]; [by rewrite streq_refl in E|]. by apply IH.
Qed.

Lemma default_row_other table c : c ∉ table_info table -> default_row table_info column_default table !! c = None.
Proof.
  unfold default_row. intros Hc. assert (H : forall (cs : list (list Z)) (row : columns), c ∉ cs -> row !! c = None ->
    foldl (fun row c => <[c := column_default table c]> row) row cs !! c = None).
  { induction cs as [|c' cs IH]; intros row Hn Hr; [done|]. cbn. apply not_elem_of_cons in Hn as [Hne Hn]. apply IH; [done|].
    by rewrite lookup_insert_ne by congruence. }
  by apply H.
Qed.

Lemma plain_entity e : e ∈ k_entities -> e_special e = false ->
  flywire_entity (e_entity e) = Some e /\ existsb (streq (e_table e)) cols_tables = true.
Proof.
  intros H%list_elem_of_In Hp. cbn [In k_entities] in H. repeat (destruct H as [<- |H]; [first [discriminate|by vm_compute]|]). done.
Qed.

(** The statement of a snapshot of [row], on a table that may have a row of that key. *)
Lemma upsert_snapshot (table key_col : cstr) (id : Z) (row : columns) (d : databases) :
  (forall c, is_Some (row !! c) <-> c ∈ table_info table) -> row !! key_col = Some (VInt id) -> i32 id = id ->
  NoDup (map (map tolower) (table_info table)) ->
  (forall row', db_rows d !! (table, id) = Some row' -> row' !! key_col = Some (VInt id) /\ forall c, c ∉ table_info table -> row' !! c = None) ->
  let fields := map (fun c => (c, column_to_json (default VNull (row !! c)))) (table_info table) in
  db_rows (upsert table_info column_default table key_col id fields (table_info table) d) !! (table, id) = Some (truncated <$> row).
Proof.
  intros Hdom Hid Hfit Hnd Hold fields. unfold upsert. cbn [upd_rows db_rows].
  assert (Hitem : forall c, c ∈ table_info table -> cJSON_GetObjectItem fields c = Some (column_to_json (default VNull (row !! c)))).
  { intros c Hc. by apply (item_at (fun c => column_to_json (default VNull (row !! c)))). }
  assert (Hset : forall c, c ∈ table_info table -> Some (bind_value (column_to_json (default VNull (row !! c)))) = (truncated <$> row) !! c).
  { intros c Hc. apply Hdom in Hc as [v Hv]. rewrite lookup_fmap, Hv. cbn. by rewrite bind_column. }
  assert (Hnone : forall c, c ∉ table_info table -> (truncated <$> row) !! c = None).
  { intros c Hc. rewrite lookup_fmap, fmap_None. apply eq_None_not_Some. by rewrite Hdom. }
  destruct (db_rows d !! (table, id)) as [row'|] eqn:E; rewrite lookup_insert_eq; f_equal; apply map_eq; intros c.
  - destruct (Hold _ eq_refl) as [Hkey Hrest].
    destruct (decide (c ∈ List.filter (fun c => negb (streq c key_col)) (table_info table))) as [Hin|Hin].
    + assert (Hc : c ∈ table_info table) by (apply list_elem_of_In, filter_In in Hin as [Hin _]; by apply list_elem_of_In).
      rewrite (set_columns_at _ _ _ _ _ Hin (Hitem c Hc)). by apply Hset.
    + rewrite set_columns_other by done. destruct (decide (c ∈ table_info table)) as [Hc|Hc].
      * assert (c = key_col) as ->.
        { destruct (streq c key_col) eqn:Es; [by apply streq_eq|]. exfalso. apply Hin, list_elem_of_In, filter_In.
          split; [by apply list_elem_of_In|]. by rewrite Es. }
        rewrite Hkey, lookup_fmap, Hid. cbn. by rewrite Hfit.
      * by rewrite Hrest, Hnone.
  - destruct (decide (c ∈ table_info table)) as [Hc|Hc].
    + rewrite (set_columns_at _ _ _ _ _ Hc (Hitem c Hc)). by apply Hset.
    + rewrite set_columns_other by done. by rewrite default_row_other, Hnone.
Qed.

Lemma apply_upsert_snapshot (e : flywire_entity_t) (key : Z) (row : columns) (d : databases) : existsb (streq (e_table e)) cols_tables = true ->
  NoDup (map (map tolower) (table_info (e_table e))) -> (length (table_info (e_table e)) <= 32)%nat ->
  Forall (fun c => (length c < 48)%nat) (table_info (e_table e)) -> key_column e ∈ table_info (e_table e) ->
  row !! key_column e = Some (VInt key) -> i32 key = key -> (forall d2, accepts d d2 = true) ->
  let fields := map (fun c => (c, column_to_json (default VNull (row !! c)))) (table_info (e_table e)) in
  snd (flywire_apply_upsert table_info column_default accepts false e (JObject fields) d) =
  upsert table_info column_default (e_table e) (key_column e) key fields (table_info (e_table e)) d.
Proof.
  intros Htab Hnd Hlen Hnames Hkey Hid Hfit Hacc fields.
  assert (Hcols : flywire_table_cols table_info (e_table e) = table_info (e_table e)).
  { unfold flywire_table_cols. rewrite take_ge by (unfold FLYWIRE_COLS_MAX; lia). clear -Hnames.
    induction Hnames as [|c cs Hc _ IH]; [done|]. cbn [map]. by rewrite IH, snprintf_s_id. }
  assert (Hitem : forall c, c ∈ table_info (e_table e) -> cJSON_GetObjectItem fields c = Some (column_to_json (default VNull (row !! c)))).
  { intros c Hc. by apply (item_at (fun c => column_to_json (default VNull (row !! c)))). }
  unfold flywire_apply_upsert. rewrite Htab, Hcols. cbn [negb].
  assert (Hfilter : List.filter (fun c => bool_decide (is_Some (cJSON_GetObjectItem fields c))) (table_info (e_table e)) = table_info (e_table e)).
  { apply filter_all. intros c Hc. apply bool_decide_eq_true. rewrite Hitem by done. by eexists. }
  rewrite Hfilter.
  assert (Hhas : existsb (streq (key_column e)) (table_info (e_table e)) = true).
  { apply existsb_exists. exists (key_column e). split; [by apply list_elem_of_In|apply streq_refl]. }
  rewrite Hhas, (Hitem _ Hkey), Hid. cbn. rewrite Hfit.
  assert (Hn : (length (table_info (e_table e)) =? 0)%nat = false).
  { destruct (table_info (e_table e)); [by apply not_elem_of_nil in Hkey|done]. }
  rewrite Hn. unfold exec. by rewrite Hacc.
Qed.

(** Replication of one row: the snapshot the primary journals of a row, sent through the feed and
    applied by a replica whose constraints take it, leaves the replica with that row, whether it had
    one of that key or not, and every other row as it was; except that an integer that does not fit
    in 32 bits arrives as its low 32 bits. *)
Theorem flywire_snapshot_roundtrip (auth_admin_username : cstr) (auth_site_admin_uid : Z) (e : flywire_entity_t) (id : Z) (row : columns) (d d' : databases) (payload : cstr)
    (He : e ∈ k_entities) (Hplain : e_special e = false) (Huser : e_entity e <> CS "user")
    (Hcols : NoDup (map (map tolower) (table_info (e_table e)))) (Hlen : (length (table_info (e_table e)) <= 32)%nat)
    (Hnames : Forall (fun c => (length c < 48)%nat) (table_info (e_table e))) (Hkey : key_column e ∈ table_info (e_table e))
    (Hdom : forall c, is_Some (row !! c) <-> c ∈ table_info (e_table e)) (Hid : row !! key_column e = Some (VInt id)) (Hpos : 0 < id <= INT_MAX)
    (Hrow : db_rows d !! (e_table e, id) = Some row)
    (Hold : forall row', db_rows d' !! (e_table e, id) = Some row' ->
      row' !! key_column e = Some (VInt id) /\ forall c, c ∉ table_info (e_table e) -> row' !! c = None)
    (Haccepts : forall d2, accepts d' d2 = true) (Hjson : reads_back (row_to_json table_info (e_table e) row))
    (Hpayload : db_sync_journal_row table_info cJSON_PrintUnformatted (e_table e) id d = Some payload) :
  let d2 := row_dbs table_info column_default accepts cascade cJSON_Parse auth_admin_username auth_site_admin_uid (e_entity e) id (CS "upsert")
              (sent_text cJSON_PrintUnformatted (feed_json cJSON_Parse payload)) d' in
  db_rows d2 !! (e_table e, id) = Some (truncated <$> row) /\
  (forall k, k <> (e_table e, id) -> db_rows d2 !! k = db_rows d' !! k) /\
  ((forall c n, row !! c = Some (VInt n) -> - 2 ^ 31 <= n < 2 ^ 31) -> db_rows d2 !! (e_table e, id) = Some row).
Proof.
  unfold db_sync_journal_row in Hpayload. replace (id <=? 0) with false in Hpayload by lia. rewrite Hrow in Hpayload. injection Hpayload as <-.
  set (fields := map (fun c => (c, column_to_json (default VNull (row !! c)))) (table_info (e_table e))).
  change (row_to_json table_info (e_table e) row) with (JObject fields) in *.
  destruct (sent_object fields Hjson) as [-> Hp].
  destruct (plain_entity e He Hplain) as [Hent Htab].
  assert (Hbody : row_dbs table_info column_default accepts cascade cJSON_Parse auth_admin_username auth_site_admin_uid (e_entity e) id (CS "upsert")
      (cJSON_PrintUnformatted (JObject fields)) d' = upsert table_info column_default (e_table e) (key_column e) id fields (table_info (e_table e)) d').
  { unfold row_dbs, flywire_apply_row. rewrite Hent. replace (match e_db e with FLYWIRE_DB_MAIN => false | _ => negb true end) with false by (by destruct (e_db e)).
    rewrite (proj2 (streq_neq (e_entity e) (CS "user")) Huser), Hplain, Hp. cbn [andb snd].
    replace (streq (CS "upsert") (CS "delete")) with false by (by vm_compute). rewrite apply_snapshot_dbs. cbn [only_dbs r_dbs].
    apply apply_upsert_snapshot; try done. apply i32_small. unfold INT_MAX in Hpos. lia. }
  cbv zeta. rewrite Hbody.
  assert (Hat : db_rows (upsert table_info column_default (e_table e) (key_column e) id fields (table_info (e_table e)) d') !! (e_table e, id) = Some (truncated <$> row)).
  { apply upsert_snapshot; [done|done|apply i32_small; unfold INT_MAX in Hpos; lia|done|done]. }
  split; [done|]. split.
  - intros k Hk. unfold upsert. cbn [upd_rows db_rows]. destruct (db_rows d' !! (e_table e, id)); by rewrite lookup_insert_ne by congruence.
  - intros Hfit. rewrite Hat. f_equal. apply map_eq. intros c. rewrite lookup_fmap. destruct (row !! c) as [[n|s|]|] eqn:E; try done.
    cbn. by rewrite i32_small by (by eapply Hfit).
Qed.
End snapshot.

(** A file of 2 GiB: its size arrives negative; a smaller one arrives as it is. *)
Section snapshot_demo.
Definition files_entity : flywire_entity_t := FlywireEntity (CS "file") (CS "files") FLYWIRE_DB_MAIN false.
Definition files_columns (_ : cstr) : list (list Z) := [CS "id"; CS "size"].
Definition file_row (size : Z) : columns := <[CS "size" := VInt size]> {[CS "id" := VInt 9]}.
Definition file_dbs (size : Z) : databases := Databases {[(CS "files", 9) := file_row size]} ∅ ∅ ∅.
Definition file_text : cstr := CS "{}{}".
End snapshot_demo.

Lemma flywire_snapshot_roundtrip_witness :
  let object := row_to_json files_columns (CS "files") (file_row (2 ^ 31)) in
  let parse (s : cstr) := if streq s file_text then Some object else None in
  db_rows (row_dbs files_columns (fun _ _ => VNull) (fun _ _ => true) (fun _ _ d => d) parse [] 0 (CS "file") 9 (CS "upsert")
    (sent_text (fun _ => file_text) (feed_json parse file_text)) (Databases ∅ ∅ ∅ ∅)) !! (CS "files", 9) = Some (file_row (- 2 ^ 31)).
Proof.
  intros object parse.
  destruct (flywire_snapshot_roundtrip files_columns (fun _ _ => VNull) (fun _ _ => true) (fun _ _ d => d) parse (fun _ => file_text) [] 0
    files_entity 9 (file_row (2 ^ 31)) (file_dbs (2 ^ 31)) (Databases ∅ ∅ ∅ ∅) file_text) as (H & _ & _); try done.
  - apply list_elem_of_In. cbn. tauto.
  - by vm_compute; repeat constructor; rewrite ?list_elem_of_In; cbn; intuition congruence.
  - cbn. lia.
  - by repeat constructor.
  - apply list_elem_of_In. cbn. tauto.
  - intros c. unfold file_row, files_columns. rewrite !elem_of_cons, elem_of_nil. split.
    + intros [v Hv]. apply lookup_insert_Some in Hv as [[<- _]|[_ Hv]]; [by right; left|]. apply lookup_singleton_Some in Hv as [<- _]. by left.
    + intros [-> |[-> |[]]]; by eexists.
Defined.

(** ** What is lost *)

(** The queue of missing files holds 64 ids: of the distinct files of one feed whose bytes are
    missing the first 64 are queued, in order, and the rest are forgotten. *)
Theorem flywire_pending_bound ids (Hpos : Forall (fun id => 0 < id) ids) (Hnd : NoDup ids) :
  foldl (fun q id => flywire_enqueue_file id q) [] ids = take FLYWIRE_PENDING_MAX ids.
Proof.
  assert (H : forall l q, NoDup (q ++ l) -> Forall (fun id => 0 < id) l -> (length q <= FLYWIRE_PENDING_MAX)%nat ->
    foldl (fun q id => flywire_enqueue_file id q) q l = take FLYWIRE_PENDING_MAX (q ++ l)).
  { induction l as [|id l IH]; intros q Hq Hl Hlen; cbn [foldl].
    - by rewrite app_nil_r, take_ge by done.
    - apply Forall_cons in Hl as [Hid Hl].
      assert (Hnew : existsb (Z.eqb id) q = false).
      { apply not_true_is_false. intros (x & Hx & ->%Z.eqb_eq)%existsb_exists. apply list_elem_of_In in Hx.
        apply NoDup_app in Hq as (_ & Hq & _). apply (Hq x Hx), elem_of_cons. by left. }
      unfold flywire_enqueue_file at 2. replace (id <=? 0) with false by lia. rewrite Hnew.
      destruct (length q <? FLYWIRE_PENDING_MAX)%nat eqn:E.
      + rewrite IH; [by rewrite <- app_assoc|by rewrite <- app_assoc|done|rewrite length_app; cbn; apply Nat.ltb_lt in E; lia].
      + apply Nat.ltb_ge in E. rewrite IH; [by rewrite !take_app_le by lia| |done|done].
        apply (sublist_NoDup (q ++ l) (q ++ id :: l)); [done|]. apply sublist_app; [done|]. by apply sublist_cons. }
  apply H; [done|done|cbn; lia].
Qed.

Lemma flywire_pending_bound_witness :
  let ids := map Z.of_nat (seq 1 100) in
  foldl (fun q id => flywire_enqueue_file id q) [] ids = take FLYWIRE_PENDING_MAX ids /\
  flywire_enqueue_file 65 (take FLYWIRE_PENDING_MAX ids) = take FLYWIRE_PENDING_MAX ids.
Proof.
  split; [|by vm_compute]. apply flywire_pending_bound.
  - apply Forall_forall. intros x (k & <- & Hk%in_seq)%list_elem_of_In%in_map_iff. lia.
  - apply NoDup_fmap_2; [intros x y; lia|apply NoDup_seq].
Defined.

Section busy.
Context (table_info : list Z -> list (list Z)) (column_default : list Z -> list Z -> value).
Context (accepts : databases -> databases -> bool) (cascade : list Z -> Z -> databases -> databases).
Context (cJSON_Parse : list Z -> option json) (cJSON_PrintUnformatted : json -> list Z).
Context (auth_admin_username : list Z) (auth_site_admin_uid : Z).

(** A row whose statement fails for a passing reason (a locked database, a full disk) is counted as
    applied: the databases stay as they are, the checkpoint moves past the row, and no later feed
    has it again. *)
Theorem flywire_busy_row_lost cluster row s :
  let '(alive, s') := apply_rows table_info column_default accepts cascade cJSON_Parse cJSON_PrintUnformatted auth_admin_username
                        auth_site_admin_uid cluster (fun _ => Row_busy) 0 [row] s in
  alive = true /\ r_dbs (s_replica s') = r_dbs (s_replica s) /\ s_checkpoint s' = f_seq row /\
  forall journal r, j_seq r = f_seq row -> r ∉ pending_rows (s_checkpoint s') journal.
Proof.
  cbn [apply_rows]. pose proof (apply_row_dbs table_info column_default accepts cascade cJSON_Parse auth_admin_username auth_site_admin_uid
    true true (f_entity row) (f_id row) (f_op row) (sent_text cJSON_PrintUnformatted (f_payload row)) (s_replica s)) as H.
  destruct (flywire_apply_row _ _ _ _ _ _ _ _ _ _ _ _ _ _) as [ok r']. destruct H as (H1 & _ & H3). rewrite (H3 eq_refl) in *.
  specialize (H1 eq_refl). cbn. split; [done|]. split; [done|]. split; [done|].
  intros journal r Hr Hin%list_elem_of_In%filter_In. destruct Hin as [_ Hin]. lia.
Qed.
End busy.
