(* ===== verification/AntiEntropyPeer.v ===== *)
(** * The exchange of mutation logs (src/src/engine/flywire.c, the anti-entropy channel)

    A site serves its mutation log page by page in the order of the ids
    ([handler_flywire_anti_entropy]); another imports every mutation of a page and applies the winner
    of its row ([flywire_anti_entropy_peer_iteration]), keeping one cursor per peer.  A prepared
    statement is stepped as SQLite documents it: after [SQLITE_DONE] the next step starts it again.
    HTTP and the order of JSON fields are not modelled. *)
From S2P Require Import Prelude CStr Files AntiEntropy Flywire.

(** ** Stepping a statement *)

(** [pos] is the number of steps taken, one more than the rows when the statement is done. *)
Definition sqlite3_step {A} (rows : list A) (pos : nat) : option A * nat :=
  let pos := if (pos =? S (length rows))%nat then 0%nat else pos in (rows !! pos, S pos).

(** [while (sqlite3_step(st) == SQLITE_ROW && count < limit)] *)
Fixpoint read_page {A} (fuel limit : nat) (rows : list A) (pos : nat) (page : list A) : list A * nat :=
  match fuel with
  | O => (page, pos)
  | S fuel =>
      match sqlite3_step rows pos with
      | (Some row, pos) => if (length page <? limit)%nat then read_page fuel limit rows pos (page ++ [row]) else (page, pos)
      | (None, pos) => (page, pos)
      end
  end.

(** ** The page of a site *)

Record page_row := PageRow {
  pr_mutation_id : cstr;
  pr_entity : cstr;
  pr_id : Z;
  pr_op : cstr;
  pr_payload : json;
  pr_changed_at : Z;
  pr_hash : cstr;
}.

Inductive page_reply := Page_not_found | Page_unauthorized | Page (rows : list page_row) (has_more : bool) (next_cursor : cstr).

(** [ORDER BY mutation_id] *)
Fixpoint insert_by_id (m : db_sync_mutation) (l : list db_sync_mutation) : list db_sync_mutation :=
  match l with
  | [] => [m]
  | x :: l' => match bytes_cmp (mutation_id m) (mutation_id x) with Gt => x :: insert_by_id m l' | _ => m :: l end
  end.
Definition by_id (log : mutation_log) : list db_sync_mutation := foldr insert_by_id [] (map snd (map_to_list log)).

Definition after_cursor (cursor : cstr) (m : db_sync_mutation) : bool :=
  match bytes_cmp (mutation_id m) cursor with Gt => true | _ => false end.

Section page.
Context (cJSON_Parse : list Z -> option json).

Definition to_page (m : db_sync_mutation) : page_row :=
  PageRow (mutation_id m) (m_entity m) (m_entity_id m) (m_op m) (feed_json cJSON_Parse (m_payload m)) (m_changed_at m) (m_payload_hash m).

Definition handler_flywire_anti_entropy (active authorized : bool) (cursor limit_s : option cstr) (log : mutation_log) : page_reply :=
  if negb active then Page_not_found
  else if negb authorized then Page_unauthorized
  else
    let limit := match limit_s with Some (c :: s) => atoi (c :: s) | _ => 200 end in
    let limit := Z.to_nat (if limit <? 1 then 200 else if 500 <? limit then 500 else limit) in
    let rows := take (S limit) (List.filter (after_cursor (default [] cursor)) (by_id log)) in
    let '(page, pos) := read_page (S (length rows)) limit rows 0 [] in
    let has_more := (length page =? limit)%nat && bool_decide (is_Some (fst (sqlite3_step rows pos))) in
    Page (map to_page page) has_more (snprintf_s 129 (List.last (map mutation_id page) [])).
End page.

(** ** The import *)

Record peer_state := PeerState { ps_replica : replica; ps_log : mutation_log; ps_cursor : cstr }.

Section import.
Context (sha256_hex : list Z -> list Z).
Context (table_info : list Z -> list (list Z)) (column_default : list Z -> list Z -> value).
Context (accepts : databases -> databases -> bool) (cascade : list Z -> Z -> databases -> databases).
Context (cJSON_Parse : list Z -> option json) (cJSON_PrintUnformatted : json -> list Z).
Context (auth_admin_username : list Z) (auth_site_admin_uid : Z).

Definition to_mutation (r : page_row) : db_sync_mutation :=
  Mutation (pr_mutation_id r) (pr_entity r) (pr_id r) (pr_op r) (sent_text cJSON_PrintUnformatted (pr_payload r)) (pr_changed_at r) (pr_hash r).

(** Import one mutation and apply the winner of its row. *)
Definition import_row (r : page_row) (s : peer_state) : peer_state :=
  let '(ok, _, log) := insert_mutation sha256_hex (to_mutation r) (ps_log s) in
  if negb ok then s
  else
    match db_sync_anti_entropy_winner log (pr_entity r) (pr_id r) with
    | Some w =>
        PeerState (snd (flywire_apply_row table_info column_default accepts cascade cJSON_Parse auth_admin_username auth_site_admin_uid
                          false true (m_entity w) (m_entity_id w) (m_op w) (m_payload w) (ps_replica s))) log (ps_cursor s)
    | None => PeerState (ps_replica s) log (ps_cursor s)
    end.

(** The cursor moves on while the peer has more, and starts over otherwise. *)
Definition flywire_anti_entropy_peer_iteration (reply : option page_reply) (s : peer_state) : Z * peer_state :=
  match reply with
  | Some (Page rows has_more next_cursor) =>
      let s := foldl (fun s r => import_row r s) s rows in
      let cursor := if has_more && negb (streq next_cursor []) then snprintf_s 129 next_cursor else [] in
      (0, PeerState (ps_replica s) (ps_log s) cursor)
  | _ => (-1, s)
  end.

(** One iteration against a peer that holds [log]: the request asks for pages of 200. *)
Definition exchange (log : mutation_log) (s : peer_state) : peer_state :=
  snd (flywire_anti_entropy_peer_iteration
         (Some (handler_flywire_anti_entropy cJSON_Parse true true (Some (ps_cursor s)) (Some (CS "200")) log)) s).
End import.

(** ** One step too many *)

Lemma read_page_full {A} (rows : list A) limit : (limit < length rows)%nat -> forall fuel p, (limit < fuel + p)%nat -> (p <= limit)%nat ->
  read_page fuel limit rows p (take p rows) = (take limit rows, S limit).
Proof.
  intros Hlong. induction fuel as [|fuel IH]; intros p Hf Hp; [lia|]. cbn [read_page sqlite3_step].
  rewrite (proj2 (Nat.eqb_neq p _)) by lia. destruct (lookup_lt_is_Some_2 rows p) as [row Hrow]; [lia|]. rewrite Hrow.
  rewrite length_take_le by lia. destruct (Nat.ltb_spec p limit).
  - rewrite <- (take_S_r _ _ _ Hrow). apply IH; lia.
  - by replace p with limit by lia.
Qed.

(** The loop has stepped past the row that would show that there is more. *)
Lemma read_page_no_more {A} (rows : list A) limit : length rows = S limit ->
  let '(page, pos) := read_page (S (length rows)) limit rows 0 [] in page = take limit rows /\ fst (sqlite3_step rows pos) = None.
Proof.
  intros Hlen. rewrite (read_page_full rows limit ltac:(lia) _ 0%nat) by lia. split; [done|]. unfold sqlite3_step.
  rewrite (proj2 (Nat.eqb_neq _ _)) by lia. apply lookup_ge_None. lia.
Qed.

(** With exactly a page left the statement starts again, and the answer is that there is more. *)
Lemma read_page_exact {A} (rows : list A) : rows <> [] ->
  let '(page, pos) := read_page (S (length rows)) (length rows) rows 0 [] in page = rows /\ is_Some (fst (sqlite3_step rows pos)).
Proof.
  intros Hne. assert (H : forall fuel p, (length rows < fuel + p)%nat -> (p <= length rows)%nat ->
    read_page fuel (length rows) rows p (take p rows) = (rows, S (length rows))).
  { induction fuel as [|fuel IH]; intros p Hf Hp; [lia|]. cbn [read_page sqlite3_step]. rewrite (proj2 (Nat.eqb_neq p _)) by lia.
    destruct (rows !! p) as [row|] eqn:Hrow.
    - apply lookup_lt_Some in Hrow as Hlt. rewrite length_take_le, (proj2 (Nat.ltb_lt p _)) by lia.
      rewrite <- (take_S_r _ _ _ Hrow). apply IH; lia.
    - apply lookup_ge_None in Hrow. rewrite take_ge by lia. by replace p with (length rows) by lia. }
  rewrite (H _ 0%nat) by lia. split; [done|]. unfold sqlite3_step. rewrite Nat.eqb_refl. by destruct rows.
Qed.

(** ** What is ever imported *)

Lemma insert_by_id_perm m l : insert_by_id m l ≡ₚ m :: l.
Proof. induction l as [|x l IH]; [done|]. cbn. destruct (bytes_cmp _ _); try done. rewrite IH. constructor. Qed.
Lemma by_id_perm log : by_id log ≡ₚ map snd (map_to_list log).
Proof.
  unfold by_id. generalize (map snd (map_to_list log)). intros l. induction l as [|m l IH]; [done|]. cbn [foldr].
  by rewrite insert_by_id_perm, IH.
Qed.

Section never.
Context (sha256_hex : list Z -> list Z).
Context (table_info : list Z -> list (list Z)) (column_default : list Z -> list Z -> value).
Context (accepts : databases -> databases -> bool) (cascade : list Z -> Z -> databases -> databases).
Context (cJSON_Parse : list Z -> option json) (cJSON_PrintUnformatted : json -> list Z).
Context (auth_admin_username : list Z) (auth_site_admin_uid : Z).

#[local] Abbreviation serve := (handler_flywire_anti_entropy cJSON_Parse true true).
#[local] Abbreviation exchange' := (exchange sha256_hex table_info column_default accepts cascade cJSON_Parse cJSON_PrintUnformatted
                                      auth_admin_username auth_site_admin_uid).
#[local] Abbreviation import_row' := (import_row sha256_hex table_info column_default accepts cascade cJSON_Parse cJSON_PrintUnformatted
                                      auth_admin_username auth_site_admin_uid).

Lemma by_id_NoDup log : log_ok sha256_hex log -> NoDup (map mutation_id (by_id log)).
Proof.
  intros Hok. change (map mutation_id (by_id log)) with (mutation_id <$> by_id log). rewrite by_id_perm.
  change (map snd (map_to_list log)) with ((map_to_list log).*2). rewrite <- list_fmap_compose.
  erewrite list_fmap_ext; [apply NoDup_fst_map_to_list|]. intros i [k m] Hin. cbn.
  apply list_elem_of_lookup_2, elem_of_map_to_list in Hin. by destruct (Hok _ _ Hin).
Qed.

Lemma by_id_after_empty log : log_ok sha256_hex log -> List.filter (after_cursor []) (by_id log) = by_id log.
Proof.
  intros Hok. assert (H : Forall (fun m => after_cursor [] m = true) (by_id log)).
  { rewrite by_id_perm. apply Forall_fmap, Forall_forall. intros [k m] Hin. apply elem_of_map_to_list in Hin. cbn.
    destruct (Hok _ _ Hin) as (_ & Hv & _). unfold after_cursor. destruct (mutation_id m) eqn:E; [|done].
    unfold mutation_valid in Hv. rewrite E in Hv. by destruct (_ || _) in Hv. }
  induction H as [|m l Hm _ IH]; [done|]. cbn [List.filter]. by rewrite Hm, IH.
Qed.

(** The first page of a log with more than 200 mutations ends the traversal. *)
Lemma first_page log : log_ok sha256_hex log -> (200 < size log)%nat ->
  exists next, serve (Some []) (Some (CS "200")) log = Page (map (to_page cJSON_Parse) (take 200 (by_id log))) false next.
Proof.
  intros Hok Hsize. unfold handler_flywire_anti_entropy. cbn [negb default]. change (atoi (CS "200")) with 200.
  change (CS "200") with [50; 48; 48]. cbv iota. replace (Z.to_nat _) with 200%nat by done.
  rewrite by_id_after_empty by done. set (rows := take 201 (by_id log)).
  assert (Hlen : length rows = 201%nat).
  { subst rows. apply length_take_le. rewrite by_id_perm, length_map. rewrite length_map_to_list. lia. }
  pose proof (read_page_no_more rows 200 Hlen) as H. destruct (read_page _ _ _ _ _) as [page pos]. destruct H as [-> ->].
  rewrite bool_decide_eq_false_2 by (by intros [? ?]). rewrite andb_false_r. subst rows. rewrite take_take. by eexists.
Qed.

Lemma import_row_log r s id : id <> pr_mutation_id r -> ps_log (import_row' r s) !! id = ps_log s !! id.
Proof.
  intros Hne. unfold import_row, insert_mutation. destruct (mutation_valid _ _); cbn [negb]; [|done].
  destruct (ps_log s !! _); cbn [negb]; (destruct (db_sync_anti_entropy_winner _ _ _); cbn [ps_log]; [|]); try done; by rewrite lookup_insert_ne.
Qed.
Lemma import_rows_log rows id : forall s, ~ In id (map pr_mutation_id rows) ->
  ps_log (foldl (fun s r => import_row' r s) s rows) !! id = ps_log s !! id.
Proof.
  induction rows as [|r rows IH]; intros s Hin; [done|]. cbn [foldl]. rewrite IH by (by intros H; apply Hin; right).
  apply import_row_log. intros ->. by apply Hin; left.
Qed.

(** Anti-entropy never gets past the first page of a long log.  The answer of a peer with more
    than 200 mutations says that there is no more - the loop has already stepped past the row that
    would show it - so the cursor stays at the start however many exchanges follow, and a mutation
    after the first 200 is never imported.  There is such a mutation. *)
Theorem anti_entropy_never_pages log s : log_ok sha256_hex log -> (200 < size log)%nat -> ps_cursor s = [] ->
  drop 200 (by_id log) <> [] /\
  forall k, let s' := Nat.iter k (exchange' log) s in
    ps_cursor s' = [] /\
    forall m, m ∈ drop 200 (by_id log) -> ps_log s !! mutation_id m = None -> ps_log s' !! mutation_id m = None.
Proof.
  intros Hok Hsize Hcur. split.
  { intros H. apply (f_equal length) in H. rewrite length_drop, by_id_perm, length_map, length_map_to_list in H. cbn in H. lia. }
  induction k as [|k [IHc IH]]; [by split; [|auto]|]. rewrite Nat.iter_succ. set (s1 := Nat.iter k _ s) in *. cbv zeta.
  unfold exchange. rewrite IHc. destruct (first_page log Hok Hsize) as [next ->].
  cbn [flywire_anti_entropy_peer_iteration andb snd ps_cursor ps_log]. split; [done|].
  intros m Hm Hnone. rewrite import_rows_log; [by apply IH|]. rewrite map_map.
  intros (m' & Hid & Hin)%in_map_iff. cbn in Hid. apply list_elem_of_In in Hin.
  pose proof (by_id_NoDup log Hok) as Hd. rewrite <- (take_drop 200 (by_id log)), map_app in Hd.
  apply NoDup_app in Hd as (_ & Hd & _). apply (Hd (mutation_id m)).
  - rewrite <- Hid. by apply list_elem_of_fmap_2.
  - by apply list_elem_of_fmap_2.
Qed.
End never.

(** A peer that holds 201 mutations, and the last of them. *)
Section never_demo.
Definition long_mutation (k : nat) : db_sync_mutation := toy_mutation (print_int (1000 + Z.of_nat k)) (CS "upsert") [] (Z.of_nat k).
Definition long_list : list (list Z * db_sync_mutation) := map (fun k => (mutation_id (long_mutation k), long_mutation k)) (seq 1 201).
Definition long_log : mutation_log := list_to_map long_list.
Definition empty_peer : peer_state := PeerState (Replica (Databases ∅ ∅ ∅ ∅) ∅ [] []) ∅ [].
Definition log_entry_ok (e : list Z * db_sync_mutation) : bool :=
  streq (mutation_id e.2) e.1 && mutation_valid toy_hash e.2 && (m_changed_at e.2 <=? LLONG_MAX).

Lemma log_entries_ok l : forallb log_entry_ok l = true -> log_ok toy_hash (list_to_map l).
Proof.
  intros H k m Hm. apply elem_of_list_to_map_2, list_elem_of_In in Hm. rewrite forallb_forall in H. apply H in Hm.
  unfold log_entry_ok in Hm. cbn [fst snd] in Hm. bool_split. apply streq_eq in H0. by repeat split.
Qed.
End never_demo.

Lemma anti_entropy_never_pages_witness :
  let round := exchange toy_hash (fun _ => []) (fun _ _ => VNull) (fun _ _ => true) (fun _ _ d => d) (fun _ => None) (fun _ => CS "{}") [] 0 long_log in
  ps_log (Nat.iter 1000 round empty_peer) !! CS "1201" = None /\ is_Some (long_log !! CS "1201").
Proof.
  intros round. split; [|by vm_compute; eexists].
  destruct (anti_entropy_never_pages toy_hash (fun _ => []) (fun _ _ => VNull) (fun _ _ => true) (fun _ _ d => d) (fun _ => None)
    (fun _ => CS "{}") [] 0 long_log empty_peer) as [_ H].
  - apply log_entries_ok. by vm_compute.
  - apply Nat.ltb_lt. by vm_compute.
  - done.
  - destruct (H 1000%nat) as [_ Hm]. apply (Hm (long_mutation 201)); [|done].
    apply list_elem_of_In. replace (drop 200 (by_id long_log)) with [long_mutation 201] by (by vm_compute). by left.
Defined.
