(* ===== verification/WritePolicy.v ===== *)
(** * Who may write (src/src/config/write_policy.c)

    The policy is five settings, mirrored in shared memory with a generation number that the keys of
    cached pages carry.  Every function is one step; shared memory that cannot be mapped is not
    modelled. *)
From S2P Require Import Prelude CStr SiteSettings.

Inductive write_scope := WRITE_SCOPE_GUEST | WRITE_SCOPE_MEMBER | WRITE_SCOPE_ADMIN.

Record write_policy := WritePolicy {
  wp_post : write_scope;
  wp_comment : write_scope;
  wp_require_board : bool;
  wp_spam_honeypot : bool;
  wp_spam_rate_limit : Z;
}.

Definition SPAM_RATE_LIMIT_MAX : Z := 1000.

Record shared_policy := SharedPolicy { sp_policy : write_policy; sp_generation : Z }.

Definition KEY_POST_SCOPE : string := "write_post_scope".
Definition KEY_COMMENT_SCOPE : string := "write_comment_scope".
Definition KEY_REQUIRE_BOARD : string := "write_require_board".
Definition KEY_SPAM_HONEYPOT : string := "spam_honeypot".
Definition KEY_SPAM_RATE_LIMIT : string := "spam_rate_limit".

Definition write_scope_name (scope : write_scope) : cstr :=
  match scope with
  | WRITE_SCOPE_MEMBER => CS "member"
  | WRITE_SCOPE_ADMIN => CS "admin"
  | WRITE_SCOPE_GUEST => CS "guest"
  end.

Definition write_scope_parse (name : cstr) : option write_scope :=
  if streq name (CS "guest") then Some WRITE_SCOPE_GUEST
  else if streq name (CS "member") then Some WRITE_SCOPE_MEMBER
  else if streq name (CS "admin") then Some WRITE_SCOPE_ADMIN
  else None.

Definition load_scope (db : settings) (key : string) : write_scope :=
  match db_site_setting_get db key 32 with
  | Some value => default WRITE_SCOPE_GUEST (write_scope_parse value)
  | None => WRITE_SCOPE_GUEST
  end.

Definition load_flag (db : settings) (key : string) : bool :=
  match db_site_setting_get db key 8 with Some value => streq value (CS "1") | None => false end.

Definition load_limit (db : settings) : Z :=
  match db_site_setting_get db KEY_SPAM_RATE_LIMIT 8 with
  | Some value => let limit := atoi value in if limit <? 0 then 0 else if SPAM_RATE_LIMIT_MAX <? limit then SPAM_RATE_LIMIT_MAX else limit
  | None => 0
  end.

Definition publish (policy : write_policy) (s : shared_policy) : shared_policy := SharedPolicy policy (sp_generation s).

Definition write_policy_init (db : settings) (s : shared_policy) : shared_policy :=
  publish (WritePolicy (load_scope db KEY_POST_SCOPE) (load_scope db KEY_COMMENT_SCOPE) (load_flag db KEY_REQUIRE_BOARD)
             (load_flag db KEY_SPAM_HONEYPOT) (load_limit db)) s.

Definition write_policy_get (s : shared_policy) : write_policy := sp_policy s.
Definition write_policy_generation (s : shared_policy) : Z := sp_generation s.

Definition flag_text (b : bool) : cstr := if b then CS "1" else CS "0".

Definition policy_rows (p : write_policy) : list (string * cstr) :=
  [(KEY_POST_SCOPE, write_scope_name (wp_post p));
   (KEY_COMMENT_SCOPE, write_scope_name (wp_comment p));
   (KEY_REQUIRE_BOARD, flag_text (wp_require_board p));
   (KEY_SPAM_HONEYPOT, flag_text (wp_spam_honeypot p));
   (KEY_SPAM_RATE_LIMIT, snprintf_s 16 (print_int (wp_spam_rate_limit p)))].

(** [ok i] tells whether the [i]th write succeeds. *)
Definition write_policy_set (ok : nat -> bool) (p : write_policy) (db : settings) (s : shared_policy) : bool * settings * shared_policy :=
  let '(written, db') := write_settings ok 0 (policy_rows p) db in
  if negb written then (false, db', s)
  else (true, db', SharedPolicy (sp_policy (publish p s)) (u32 (sp_generation s + 1))).

(** [role] is the empty string for guests. *)
Definition write_scope_allows (scope : write_scope) (role : cstr) : bool :=
  let logged_in := negb (streq role []) in
  match scope with
  | WRITE_SCOPE_MEMBER => logged_in
  | WRITE_SCOPE_ADMIN => logged_in && streq role (CS "admin")
  | WRITE_SCOPE_GUEST => true
  end.

Definition write_policy_can_post (role : cstr) (s : shared_policy) : bool := write_scope_allows (wp_post (write_policy_get s)) role.
Definition write_policy_can_comment (role : cstr) (s : shared_policy) : bool := write_scope_allows (wp_comment (write_policy_get s)) role.

(** ** Lemmas *)

Lemma write_scope_parse_name scope : write_scope_parse (write_scope_name scope) = Some scope.
Proof. by destruct scope. Qed.

(** Each tier includes the ones above it. *)
Lemma write_scope_tiers role :
  (write_scope_allows WRITE_SCOPE_ADMIN role = true -> write_scope_allows WRITE_SCOPE_MEMBER role = true) /\
  (write_scope_allows WRITE_SCOPE_MEMBER role = true -> write_scope_allows WRITE_SCOPE_GUEST role = true).
Proof. split; [|done]. cbn. by intros [-> _]%andb_true_iff. Qed.

Lemma limit_reads_back n : 0 <= n <= SPAM_RATE_LIMIT_MAX ->
  let v := snprintf_s 8 (snprintf_s 16 (print_int n)) in
  (if atoi v <? 0 then 0 else if SPAM_RATE_LIMIT_MAX <? atoi v then SPAM_RATE_LIMIT_MAX else atoi v) = n.
Proof.
  intros Hn v.
  assert (Hall : forallb (fun k => atoi (snprintf_s 8 (snprintf_s 16 (print_int (Z.of_nat k)))) =? Z.of_nat k) (seq 0 1001) = true)
    by (vm_compute; reflexivity).
  rewrite forallb_forall in Hall. specialize (Hall (Z.to_nat n) ltac:(apply in_seq; unfold SPAM_RATE_LIMIT_MAX in *; lia)).
  rewrite Z2Nat.id in Hall by lia. apply Z.eqb_eq in Hall. subst v. rewrite Hall.
  rewrite (proj2 (Z.ltb_ge _ _)), (proj2 (Z.ltb_ge _ _)) by lia. done.
Qed.

(** What a start reads after the rows of a policy were written. *)
Lemma init_reads_back p db s : 0 <= wp_spam_rate_limit p <= SPAM_RATE_LIMIT_MAX ->
  sp_policy (write_policy_init (foldl (fun db kv => <[kv.1 := kv.2]> db) db (policy_rows p)) s) = p.
Proof.
  intros Hl. unfold write_policy_init, load_scope, load_flag, load_limit, db_site_setting_get, policy_rows. cbn [foldl fst snd publish sp_policy].
  repeat (rewrite lookup_insert_eq || rewrite lookup_insert_ne by done). cbn [fmap option_fmap option_map].
  rewrite (limit_reads_back (wp_spam_rate_limit p) Hl). destruct p as [post comment board honeypot limit]. cbn in *.
  f_equal; [by destruct post|by destruct comment|by destruct board|by destruct honeypot].
Qed.

(** A policy that was saved is the one a restart loads, and caches of pages are told apart by the
    generation; when a write fails the policy in force stays, but the rows before it were written:
    a restart then loads a mix of the two policies. *)
Theorem write_policy_persists ok p db s s0 : 0 <= wp_spam_rate_limit p <= SPAM_RATE_LIMIT_MAX ->
  let '(saved, db', s') := write_policy_set ok p db s in
  if saved : bool then
    write_policy_get s' = p /\ write_policy_generation s' = u32 (write_policy_generation s + 1) /\
    write_policy_get (write_policy_init db' s0) = p
  else
    s' = s /\ exists n, (n < 5)%nat /\ db' = foldl (fun db kv => <[kv.1 := kv.2]> db) db (take n (policy_rows p)).
Proof.
  intros Hl. unfold write_policy_set. destruct (write_settings ok 0 (policy_rows p) db) as [[|] db'] eqn:E; cbn [negb].
  - split; [done|]. split; [done|]. apply write_settings_all in E as ->. by apply init_reads_back.
  - split; [done|]. by apply write_settings_failed in E.
Qed.

Lemma write_policy_persists_witness :
  let members := WritePolicy WRITE_SCOPE_MEMBER WRITE_SCOPE_GUEST true true 20 in
  let '(saved, db', s') := write_policy_set (fun _ => true) members ∅ (SharedPolicy members 4294967295) in
  if saved : bool then
    write_policy_get s' = members /\ write_policy_generation s' = u32 (write_policy_generation (SharedPolicy members 4294967295) + 1) /\
    write_policy_get (write_policy_init db' (SharedPolicy members 0)) = members
  else
    s' = SharedPolicy members 4294967295 /\
    exists n, (n < 5)%nat /\ db' = foldl (fun db kv => <[kv.1 := kv.2]> db) ∅ (take n (policy_rows members)).
Proof.
  exact (write_policy_persists (fun _ => true) (WritePolicy WRITE_SCOPE_MEMBER WRITE_SCOPE_GUEST true true 20) ∅
           (SharedPolicy (WritePolicy WRITE_SCOPE_MEMBER WRITE_SCOPE_GUEST true true 20) 4294967295)
           (SharedPolicy (WritePolicy WRITE_SCOPE_MEMBER WRITE_SCOPE_GUEST true true 20) 0) ltac:(unfold SPAM_RATE_LIMIT_MAX; cbn; lia)).
Defined.
