(* ===== verification/SpamGuard.v ===== *)
(** * The spam guard (src/src/utils/spam_guard.c)

    Forms carry a trap field and a signed time; submissions are counted per writer and window of ten
    minutes in a table in shared memory, open addressing with at most 16 probes.  The mutex makes a
    count one step.  HMAC is OpenSSL's and a parameter. *)
From stdpp Require Import sorting.
From S2P Require Import Prelude CStr SiteSettings WritePolicy.

Definition RATE_WINDOW_SECONDS : Z := 600.
Definition RATE_SLOTS : nat := Z.to_nat 8192.
Definition RATE_PROBE : nat := 16.
Definition SPAM_MIN_FILL_SECONDS : Z := 3.
Definition SPAM_FIELD_TRAP : cstr := CS "fb_extra".
Definition SPAM_FIELD_TOKEN : cstr := CS "form_ts".

Inductive spam_verdict := SPAM_OK | SPAM_REJECTED | SPAM_RATE_LIMITED.

(** [sl_key = 0] is an empty slot. *)
Record rate_slot := RateSlot { sl_key : Z; sl_window : Z; sl_count : Z }.
Definition empty_slot : rate_slot := RateSlot 0 0 0.

Record rate_table := RateTable { rt_key : list Z; rt_slots : list rate_slot }.

(** The address of the client, when the socket has one. *)
Inductive peer := Peer_none | Peer_inet (addr : list Z) | Peer_inet6 (addr : list Z).

Definition v4mapped (addr : list Z) : bool := bool_decide (take 12 addr = replicate 10 0 ++ [255; 255]).

(** The writer as bytes: the account, or the address cut to its network. *)
Definition writer_id (p : peer) (uid : Z) : option (list Z) :=
  if 0 <? uid then Some (snprintf_s 32 (CS "u:" ++ print_int uid))
  else match p with
  | Peer_none => None
  | Peer_inet addr => Some (CH "4" :: take 4 addr)
  | Peer_inet6 addr => Some (if v4mapped addr then CH "4" :: take 4 (drop 12 addr) else CH "6" :: take 8 addr)
  end.

(** ** The table of counts *)

(** The i-th slot of the walk of a key; a slot is free when it was never used or is of another window. *)
Definition probe_at (key : Z) (i : nat) : nat := ((Z.to_nat (key `mod` Z.of_nat RATE_SLOTS) + i) mod RATE_SLOTS)%nat.
Definition slot_of (slots : list rate_slot) (j : nat) : rate_slot := nth j slots empty_slot.
Definition takeable (window : Z) (s : rate_slot) : bool := (sl_key s =? 0) || negb (sl_window s =? window).

(** The walk of the probes: the slot of the key, or the first that may be taken. *)
Definition rate_probe (key window : Z) (slots : list rate_slot) : ctl (option nat) nat :=
  for_loop RATE_PROBE 0
    (fun i free_slot =>
      let s := slot_of slots (probe_at key i) in
      if sl_key s =? key then Stop (probe_at key i)
      else Next (match free_slot with
                 | Some _ => free_slot
                 | None => if takeable window s then Some (probe_at key i) else None
                 end)) None.

Definition rate_count (key window limit : Z) (slots : list rate_slot) : bool * list rate_slot :=
  match rate_probe key window slots with
  | Stop j =>
      let s := slot_of slots j in
      let s := if sl_window s =? window then s else RateSlot (sl_key s) window 0 in
      if limit <=? i32 (sl_count s) then (false, <[j := s]> slots)
      else (true, <[j := RateSlot (sl_key s) (sl_window s) (u32 (sl_count s + 1))]> slots)
  | Next (Some j) => (true, <[j := RateSlot key window 1]> slots)
  | Next None => (true, slots)
  end.

Section guard.
Context (hmac_sha256 : list Z -> list Z -> list Z) (auth_jwt_secret : option (list Z)).

(** ** The token of a form *)

Definition token_mac (ts : Z) : cstr :=
  concat (map hex_byte (take 16 (hmac_sha256 (default [] auth_jwt_secret) (CS "fly.board/form/" ++ print_int ts)))).

Definition form_token (now : Z) : cstr := snprintf_s 64 (print_int now ++ CS "." ++ token_mac now).

Definition spam_guard_append_fields (policy : write_policy) (now : Z) (b : cstr) : cstr :=
  if negb (wp_spam_honeypot policy) then b
  else
    b ++ CS "<div aria-hidden='true' style='position:absolute;left:-10000px;width:1px;height:1px;overflow:hidden'>"
      ++ CS "<label>Leave this empty<input type='text' name='" ++ SPAM_FIELD_TRAP ++ CS "' value='' tabindex='-1' autocomplete='off'></label></div>"
      ++ CS "<input type='hidden' name='" ++ SPAM_FIELD_TOKEN ++ CS "' value='" ++ form_token now ++ CS "'>".

Definition token_ok (now : Z) (token : option cstr) : bool :=
  match token with
  | None => false
  | Some t =>
      match strtol10 t with
      | (ts, dot :: mac) =>
          if negb (dot =? CH ".") || negb (zlen mac =? 32) then false
          else if negb (streq (token_mac ts) mac) then false
          else SPAM_MIN_FILL_SECONDS <=? now - ts
      | _ => false
      end
  end.

(** ** The check *)

(** The first eight bytes, little endian. *)
Definition le64 (bytes : list Z) : Z := foldr (fun b acc => b + 256 * acc) 0 (take 8 bytes).

Definition rate_key (id : list Z) (t : rate_table) : Z :=
  let key := le64 (hmac_sha256 (rt_key t) id) in if key =? 0 then 1 else key.

Definition rate_allow (now : Z) (id : list Z) (limit : Z) (t : rate_table) : bool * rate_table :=
  let '(allow, slots) := rate_count (rate_key id t) (u32 (now / RATE_WINDOW_SECONDS)) limit (rt_slots t) in
  (allow, RateTable (rt_key t) slots).

(** No table means that the shared memory could not be mapped. *)
Definition spam_guard_check (policy : write_policy) (now : Z) (p : peer) (uid : Z) (role trap token : option cstr)
    (t : option rate_table) : spam_verdict * option rate_table :=
  if match role with Some r => streq r (CS "admin") | None => false end then (SPAM_OK, t)
  else if wp_spam_honeypot policy && (match trap with Some (_ :: _) => true | _ => false end || negb (token_ok now token)) then (SPAM_REJECTED, t)
  else match t with
  | Some table =>
      if 0 <? wp_spam_rate_limit policy then
        match writer_id p uid with
        | Some id =>
            let '(allow, table) := rate_allow now id (wp_spam_rate_limit policy) table in
            (if allow : bool then SPAM_OK else SPAM_RATE_LIMITED, Some table)
        | None => (SPAM_OK, t)
        end
      else (SPAM_OK, t)
  | None => (SPAM_OK, t)
  end.
End guard.

(** ** The walk *)

Lemma probe_at_lt key i : (probe_at key i < RATE_SLOTS)%nat.
Proof. apply Nat.mod_upper_bound. unfold RATE_SLOTS. lia. Qed.

(** All probes of the key hold other writers of this window. *)
Definition saturated (key window : Z) (slots : list rate_slot) : bool :=
  forallb (fun i => let s := slot_of slots (probe_at key i) in negb (sl_key s =? key) && negb (takeable window s)) (seq 0 RATE_PROBE).

Lemma rate_probe_spec key window slots :
  match rate_probe key window slots with
  | Stop j => (exists i, (i < RATE_PROBE)%nat /\ j = probe_at key i) /\ sl_key (slot_of slots j) = key
  | Next free =>
      (forall i, (i < RATE_PROBE)%nat -> sl_key (slot_of slots (probe_at key i)) <> key) /\
      match free with
      | Some j => (exists i, (i < RATE_PROBE)%nat /\ j = probe_at key i) /\ takeable window (slot_of slots j) = true
      | None => forall i, (i < RATE_PROBE)%nat -> takeable window (slot_of slots (probe_at key i)) = false
      end
  end.
Proof.
  unfold rate_probe.
  apply (for_loop_inv _ (fun n (free : option nat) =>
    (forall i, (i < n)%nat -> sl_key (slot_of slots (probe_at key i)) <> key) /\
    match free with
    | Some j => (exists i, (i < n)%nat /\ j = probe_at key i) /\ takeable window (slot_of slots j) = true
    | None => forall i, (i < n)%nat -> takeable window (slot_of slots (probe_at key i)) = false
    end)
    (fun j => (exists i, (i < RATE_PROBE)%nat /\ j = probe_at key i) /\ sl_key (slot_of slots j) = key)).
  { split; [lia|]. intros i. lia. }
  intros n free Hn [Hkeys Hfree].
  set (s := slot_of slots (probe_at key n)). destruct (Z.eqb_spec (sl_key s) key) as [Heq|Hne].
  { split; [|done]. exists n. split; [lia|done]. }
  assert (Hkeys' : forall i, (i < S n)%nat -> sl_key (slot_of slots (probe_at key i)) <> key).
  { intros i Hi. destruct (decide (i = n)) as [-> |]; [done|apply Hkeys; lia]. }
  split; [done|]. destruct free as [j|].
  { destruct Hfree as [(i & Hi & ->) Ht]. split; [exists i; split; [lia|done]|done]. }
  destruct (takeable window s) eqn:Et.
  - split; [exists n; split; [lia|done]|done].
  - intros i Hi. destruct (decide (i = n)) as [-> |]; [done|apply Hfree; lia].
Qed.

Lemma saturated_spec key window slots :
  saturated key window slots = match rate_probe key window slots with Next None => true | _ => false end.
Proof.
  pose proof (rate_probe_spec key window slots) as H. unfold saturated. destruct (rate_probe key window slots) as [[j|]|j].
  - destruct H as [_ [(i & Hi & ->) Ht]]. apply not_true_is_false. rewrite forallb_forall. intros Hall.
    specialize (Hall i ltac:(apply in_seq; lia)). by rewrite Ht, andb_false_r in Hall.
  - destruct H as [Hk Ht]. apply forallb_forall. intros i Hi%in_seq. rewrite Ht by lia.
    rewrite (proj2 (Z.eqb_neq _ _)); [done|]. apply Hk. lia.
  - destruct H as [(i & Hi & ->) Hk]. apply not_true_is_false. rewrite forallb_forall. intros Hall.
    specialize (Hall i ltac:(apply in_seq; lia)). by rewrite Hk, Z.eqb_refl in Hall.
Qed.

(** ** A run of counted submissions *)

Record rate_call := RateCall { c_key : Z; c_window : Z; c_limit : Z }.
(** [o_open]: the call found its probes full of other writers of the window. *)
Record outcome := Outcome { o_call : rate_call; o_allowed : bool; o_open : bool }.

Fixpoint rate_run (calls : list rate_call) (slots : list rate_slot) : list outcome :=
  match calls with
  | [] => []
  | c :: calls' =>
      let '(allowed, slots') := rate_count (c_key c) (c_window c) (c_limit c) slots in
      Outcome c allowed (saturated (c_key c) (c_window c) slots) :: rate_run calls' slots'
  end.

(** The outcome counts for [key] in [window]. *)
Definition counts_for (key window : Z) (o : outcome) : bool :=
  o_allowed o && negb (o_open o) && (c_key (o_call o) =? key) && (c_window (o_call o) =? window).

(** The table after the outcomes [past], the last of them in [window] or before. *)
Record table_at (past : list outcome) (window : Z) (slots : list rate_slot) : Prop := {
  ta_length : length slots = RATE_SLOTS;
  ta_place : forall j, sl_key (slot_of slots j) <> 0 -> exists i, (i < RATE_PROBE)%nat /\ j = probe_at (sl_key (slot_of slots j)) i;
  ta_unique : forall j j', sl_key (slot_of slots j) <> 0 -> sl_key (slot_of slots j) = sl_key (slot_of slots j') -> j = j';
  ta_window : forall j, sl_window (slot_of slots j) <= window;
  ta_past : Forall (fun o => c_window (o_call o) <= window) past;
  ta_count : forall j, sl_key (slot_of slots j) <> 0 -> sl_window (slot_of slots j) = window ->
    sl_count (slot_of slots j) = Z.of_nat (countb (counts_for (sl_key (slot_of slots j)) window) past) /\ sl_count (slot_of slots j) < 2 ^ 31;
  ta_absent : forall key, key <> 0 -> (forall j, sl_key (slot_of slots j) = key -> sl_window (slot_of slots j) <> window) ->
    countb (counts_for key window) past = 0%nat;
}.

(** Nothing was counted in a later window. *)
Lemma table_later past window window' slots : table_at past window slots -> window <= window' -> table_at past window' slots.
Proof.
  intros Ht Hle. destruct (decide (window' = window)) as [-> |Hne]; [done|]. destruct Ht. split; try done.
  - intros j. specialize (ta_window0 j). lia.
  - eapply Forall_impl; [done|]. cbn. lia.
  - intros j Hk Hw. specialize (ta_window0 j). lia.
  - intros key Hk _. apply countb_zero. intros o Ho. rewrite Forall_forall in ta_past0. specialize (ta_past0 o Ho). unfold counts_for.
    rewrite (proj2 (Z.eqb_neq (c_window (o_call o)) window')), andb_false_r by lia. done.
Qed.

Lemma slot_of_insert slots j s j' : (j < length slots)%nat ->
  slot_of (<[j := s]> slots) j' = if decide (j' = j) then s else slot_of slots j'.
Proof.
  intros Hj. unfold slot_of. rewrite !nth_lookup. destruct (decide (j' = j)) as [-> |Hne].
  - by rewrite list_lookup_insert_eq.
  - by rewrite list_lookup_insert_ne.
Qed.

Lemma countb_snoc {A} (P : A -> bool) l x : countb P (l ++ [x]) = (countb P l + if P x then 1 else 0)%nat.
Proof. rewrite countb_app. cbn. lia. Qed.

Lemma counts_for_other key key' window o : c_key (o_call o) = key -> key' <> key -> counts_for key' window o = false.
Proof. intros Hk Hne. unfold counts_for. rewrite Hk, (proj2 (Z.eqb_neq key key')) by done. by rewrite andb_false_r. Qed.

(** Writing the slot of a writer with the right count. *)
Lemma table_put past o window slots j cnt : table_at past window slots -> c_window (o_call o) = window ->
  let key := c_key (o_call o) in
  key <> 0 -> (j < RATE_SLOTS)%nat -> (exists i, (i < RATE_PROBE)%nat /\ j = probe_at key i) ->
  sl_key (slot_of slots j) = key \/ takeable window (slot_of slots j) = true /\ (forall j', sl_key (slot_of slots j') <> key) ->
  cnt = Z.of_nat (countb (counts_for key window) (past ++ [o])) -> cnt < 2 ^ 31 ->
  table_at (past ++ [o]) window (<[j := RateSlot key window cnt]> slots).
Proof.
  intros Ht Hw key Hkey Hj Hprobe Hslot Hcnt Hlt. pose proof (ta_length _ _ _ Ht) as Hlen.
  assert (Hget : forall j', slot_of (<[j := RateSlot key window cnt]> slots) j' = if decide (j' = j) then RateSlot key window cnt else slot_of slots j')
    by (intros j'; apply slot_of_insert; lia).
  assert (Helse : forall j', sl_key (slot_of slots j') = key -> j' = j).
  { intros j' Hk. destruct Hslot as [H|[_ H]]; [|by destruct (H j')]. apply (ta_unique _ _ _ Ht); congruence. }
  split.
  - by rewrite length_insert.
  - intros j' Hk. rewrite Hget in *. destruct (decide (j' = j)) as [-> |]; [done|]. by apply (ta_place _ _ _ Ht).
  - intros j1 j2. rewrite !Hget. destruct (decide (j1 = j)) as [-> |], (decide (j2 = j)) as [-> |]; cbn [sl_key]; [done| | |].
    + intros _ Hk. symmetry. by apply Helse.
    + intros _ Hk. by apply Helse.
    + apply (ta_unique _ _ _ Ht).
  - intros j'. rewrite Hget. destruct (decide (j' = j)); [cbn; lia|]. apply (ta_window _ _ _ Ht).
  - apply Forall_app. split; [apply (ta_past _ _ _ Ht)|]. constructor; [lia|constructor].
  - intros j'. rewrite Hget. destruct (decide (j' = j)) as [-> |Hne]; cbn [sl_key sl_window sl_count]; [done|]. intros Hk Hwin.
    rewrite countb_snoc, (counts_for_other key); [|done|].
    + rewrite Nat.add_0_r. by apply (ta_count _ _ _ Ht).
    + intros Hk'. by apply Hne, Helse.
  - intros key' Hkey' Habs. assert (Hne : key' <> key).
    { intros ->. apply (Habs j); rewrite Hget, decide_True by done; done. }
    rewrite countb_snoc, (counts_for_other key) by done. rewrite (ta_absent _ _ _ Ht key'); [done..|].
    intros j' Hk Hwin. destruct (decide (j' = j)) as [-> |Hj'].
    + destruct Hslot as [H|[H _]]; [congruence|]. unfold takeable in H. rewrite Hwin, Z.eqb_refl, orb_false_r in H. apply Z.eqb_eq in H. congruence.
    + by apply (Habs j'); rewrite Hget, decide_False by done.
Qed.

(** A call that is not counted changes nothing. *)
Lemma table_uncounted past o window slots : table_at past window slots -> c_window (o_call o) = window ->
  (forall key, counts_for key window o = false) -> table_at (past ++ [o]) window slots.
Proof.
  intros Ht Hw Ho. assert (Hc : forall key, countb (counts_for key window) (past ++ [o]) = countb (counts_for key window) past)
    by (intros key; rewrite countb_snoc, Ho; lia).
  destruct Ht. split; try done.
  - apply Forall_app. split; [done|]. constructor; [lia|constructor].
  - intros j. rewrite Hc. apply ta_count0.
  - intros key. rewrite Hc. apply ta_absent0.
Qed.

Lemma rate_count_step past c slots : table_at past (c_window c) slots -> c_key c <> 0 -> 0 < c_limit c < 2 ^ 31 ->
  let '(allowed, slots') := rate_count (c_key c) (c_window c) (c_limit c) slots in
  let o := Outcome c allowed (saturated (c_key c) (c_window c) slots) in
  allowed = o_open o || (Z.of_nat (countb (counts_for (c_key c) (c_window c)) past) <? c_limit c) /\
  table_at (past ++ [o]) (c_window c) slots'.
Proof.
  intros Ht Hkey Hlim. unfold rate_count. rewrite saturated_spec. pose proof (rate_probe_spec (c_key c) (c_window c) slots) as Hp.
  set (n := countb (counts_for (c_key c) (c_window c)) past).
  assert (Hmine : forall o, o_call o = c -> o_allowed o = true -> o_open o = false ->
            countb (counts_for (c_key c) (c_window c)) (past ++ [o]) = S n).
  { intros o Ho Ha Hop. rewrite countb_snoc. unfold counts_for at 2. rewrite Ho, Ha, Hop, !Z.eqb_refl. fold n. cbn. lia. }
  assert (Hplace : (forall i, (i < RATE_PROBE)%nat -> sl_key (slot_of slots (probe_at (c_key c) i)) <> c_key c) ->
            forall j', sl_key (slot_of slots j') <> c_key c).
  { intros Hno j' Hk. destruct (ta_place _ _ _ Ht j') as (i & Hi & Hj'); [congruence|]. apply (Hno i Hi). rewrite Hk in Hj'. by rewrite <- Hj'. }
  destruct (rate_probe _ _ _) as [[j|]|j].
  - destruct Hp as [Hno [Hprobe Htake]]. specialize (Hplace Hno).
    assert (Hn : n = 0%nat) by (apply (ta_absent _ _ _ Ht); [done|]; intros j' Hk; by destruct (Hplace j')).
    rewrite Hn. split; [symmetry; apply Z.ltb_lt; lia|]. apply table_put; [done|done|done| |done|by right; split| |done].
    + destruct Hprobe as (i & _ & ->). apply probe_at_lt.
    + by rewrite Hmine, Hn.
  - destruct Hp as [Hno Hfull]. split; [done|]. apply table_uncounted; [done|done|]. intros key. unfold counts_for. by rewrite andb_false_r.
  - destruct Hp as [Hprobe Hk]. fold (slot_of slots j). set (s := slot_of slots j) in *.
    assert (Hj : (j < RATE_SLOTS)%nat) by (destruct Hprobe as (i & _ & ->); apply probe_at_lt).
    set (s' := if sl_window s =? c_window c then s else RateSlot (sl_key s) (c_window c) 0).
    assert (Hs' : s' = RateSlot (c_key c) (c_window c) (Z.of_nat n) /\ Z.of_nat n < 2 ^ 31).
    { subst s'. destruct (Z.eqb_spec (sl_window s) (c_window c)) as [Hw|Hw].
      - destruct (ta_count _ _ _ Ht j) as [Hcnt Hlt]; [by fold s; rewrite Hk|done|]. fold s in Hcnt, Hlt. rewrite Hk in Hcnt. fold n in Hcnt.
        split; [|lia]. rewrite <- Hcnt, <- Hk, <- Hw. by destruct s.
      - assert (n = 0%nat) as ->; [|by rewrite Hk]. apply (ta_absent _ _ _ Ht); [done|]. intros j' Hk' Hw'.
        assert (j' = j) as -> by (apply (ta_unique _ _ _ Ht); unfold s in Hk; congruence). by fold s in Hw'. }
    destruct Hs' as [-> Hn]. cbn [sl_key sl_window sl_count]. rewrite i32_small by lia.
    destruct (Z.leb_spec (c_limit c) (Z.of_nat n)) as [Hle|Hgt].
    + split; [symmetry; apply Z.ltb_ge; lia|]. apply table_put; [done|done|done|done|done|by left| |done].
      rewrite countb_snoc. unfold counts_for at 2. cbn. fold n. lia.
    + split; [symmetry; apply Z.ltb_lt; lia|]. rewrite u32_small by lia. apply table_put; [done|done|done|done|done|by left| |lia].
      rewrite Hmine by done. lia.
Qed.

Lemma rate_run_at calls : forall past window slots, table_at past window slots ->
  Forall (fun c => c_key c <> 0 /\ 0 < c_limit c < 2 ^ 31 /\ window <= c_window c) calls -> StronglySorted Z.le (map c_window calls) ->
  forall pre o post, rate_run calls slots = pre ++ o :: post ->
  o_allowed o = o_open o || (Z.of_nat (countb (counts_for (c_key (o_call o)) (c_window (o_call o))) (past ++ pre)) <? c_limit (o_call o)).
Proof.
  induction calls as [|c calls IH]; intros past window slots Ht Hc Hs pre o post H; cbn [rate_run] in H; [by destruct pre|].
  apply Forall_cons in Hc as [(Hk & Hl & Hw) Hc]. cbn [map] in Hs. apply StronglySorted_inv in Hs as [Hs Hle].
  pose proof (rate_count_step past c slots (table_later _ _ _ _ Ht Hw) Hk Hl) as Hstep.
  destruct (rate_count _ _ _ _) as [allowed slots']. destruct Hstep as [Ha Ht'].
  destruct pre as [|o0 pre]; cbn in H; injection H as Ho Hrest.
  - subst o. cbn [o_allowed o_open o_call]. by rewrite app_nil_r.
  - subst o0. rewrite (cons_middle _ past pre), app_assoc. apply (IH _ (c_window c) slots' Ht') with (post := post); try done.
    rewrite Forall_map, Forall_forall in Hle. rewrite Forall_forall in Hc |- *. intros c' Hin. destruct (Hc c' Hin) as (? & ? & _). split; [done|]. split; [done|]. by apply Hle.
Qed.

Lemma empty_slots j : slot_of (replicate RATE_SLOTS empty_slot) j = empty_slot.
Proof.
  unfold slot_of. rewrite nth_lookup. destruct (_ !! j) as [s|] eqn:E; [|done]. by apply lookup_replicate in E as [-> _].
Qed.

Lemma empty_table : table_at [] 0 (replicate RATE_SLOTS empty_slot).
Proof. split; [by rewrite length_replicate|..]; intros; rewrite ?empty_slots in *; try done. Qed.

Definition call_ok (c : rate_call) : Prop := c_key c <> 0 /\ 0 < c_limit c < 2 ^ 31 /\ 0 <= c_window c.

(** C20: The limiter is exact: from the empty table, with a clock that does not run backwards, a
    submission passes exactly when its writer has fewer counted submissions in this window than the
    limit, or when all sixteen probes hold other writers of the window.  So a writer never has more
    counted submissions in a window than the largest limit, however many writers there are. *)
Theorem spam_rate_exact calls : Forall call_ok calls -> StronglySorted Z.le (map c_window calls) ->
  let outcomes := rate_run calls (replicate RATE_SLOTS empty_slot) in
  (forall pre o post, outcomes = pre ++ o :: post ->
     let '(RateCall key window limit) := o_call o in
     o_allowed o = o_open o || (Z.of_nat (countb (counts_for key window) pre) <? limit)) /\
  forall key window limit, 0 <= limit -> Forall (fun o => c_limit (o_call o) <= limit) outcomes ->
    Z.of_nat (countb (counts_for key window) outcomes) <= limit.
Proof.
  intros Hc Hs outcomes.
  assert (Hexact : forall pre o post, outcomes = pre ++ o :: post ->
    o_allowed o = o_open o || (Z.of_nat (countb (counts_for (c_key (o_call o)) (c_window (o_call o))) pre) <? c_limit (o_call o)))
    by (exact (rate_run_at calls [] 0 _ empty_table Hc Hs)).
  split; [intros pre o post H; specialize (Hexact pre o post H); by destruct (o_call o)|].
  intros key window limit Hlim Hall.
  assert (Hpre : forall pre post, outcomes = pre ++ post -> Z.of_nat (countb (counts_for key window) pre) <= limit).
  { intros pre. induction pre as [|o pre IH] using rev_ind; intros post H; [cbn; lia|]. rewrite <- app_assoc in H. cbn [app] in H.
    specialize (IH _ H). rewrite countb_snoc. destruct (counts_for key window o) eqn:Eo; [|lia].
    unfold counts_for in Eo. bool_split. specialize (Hexact _ _ _ H). rewrite H0, H3, H2, H1 in Hexact. cbn [orb] in Hexact.
    symmetry in Hexact. apply Z.ltb_lt in Hexact. rewrite H, Forall_app, Forall_cons in Hall. destruct Hall as (_ & Hl & _). lia. }
  apply (Hpre outcomes []). by rewrite app_nil_r.
Qed.

(** Three submissions of a writer in a window with limit two, one in the next, another writer between. *)
Lemma spam_rate_exact_witness :
  let calls := [RateCall 7 1 2; RateCall 8199 1 2; RateCall 7 1 2; RateCall 7 1 2; RateCall 7 2 2] in
  map o_allowed (rate_run calls (replicate RATE_SLOTS empty_slot)) = [true; true; true; false; true] /\
  Z.of_nat (countb (counts_for 7 1) (rate_run calls (replicate RATE_SLOTS empty_slot))) <= 2.
Proof.
  intros calls. split; [by vm_compute|].
  refine (proj2 (spam_rate_exact calls _ _) 7 1 2 _ _).
  - repeat constructor; cbn; lia.
  - repeat constructor; cbn; lia.
  - lia.
  - by vm_compute; repeat constructor.
Defined.

(** ** The token of a form is read back *)

Section token.
Context (hmac_sha256 : list Z -> list Z -> list Z) (auth_jwt_secret : option (list Z)).

Lemma length_hex l : length (concat (map hex_byte l)) = (2 * length l)%nat.
Proof. induction l as [|b l IH]; [done|]. cbn in *. lia. Qed.

(** The token of a form rendered at [t] is accepted from three seconds later on, for ever, and never
    before; a token is accepted only with the code of its time. *)
Theorem spam_token_roundtrip (Hmac : forall k m, length (hmac_sha256 k m) = 32%nat) t now : 0 <= t <= long_max ->
  token_ok hmac_sha256 auth_jwt_secret now (Some (form_token hmac_sha256 auth_jwt_secret t)) = (SPAM_MIN_FILL_SECONDS <=? now - t) /\
  forall mac, mac <> token_mac hmac_sha256 auth_jwt_secret t ->
    token_ok hmac_sha256 auth_jwt_secret now (Some (print_int t ++ CS "." ++ mac)) = false.
Proof.
  intros Ht. assert (Hlen : length (token_mac hmac_sha256 auth_jwt_secret t) = 32%nat)
    by (unfold token_mac; rewrite length_hex, length_take_le; [done|rewrite Hmac; lia]).
  assert (Hread : forall m, strtol10 (print_int t ++ CS "." ++ m) = (t, CH "." :: m)).
  { intros m. apply strtol10_print_int_app; [done|]. by intros c r' [= <- _]. }
  split.
  - unfold form_token. rewrite snprintf_s_id by (rewrite !length_app, Hlen; pose proof (length_print_int t); cbn; lia).
    unfold token_ok. rewrite Hread. cbn [negb]. unfold zlen. rewrite Hlen. by rewrite streq_refl.
  - intros mac Hne. unfold token_ok. rewrite Hread. cbn [negb]. destruct (zlen mac =? 32); [|done]. cbn [orb negb].
    by rewrite (proj2 (streq_neq _ _)) by done.
Qed.
End token.

Lemma spam_token_roundtrip_witness :
  let hmac (k m : list Z) := take 32 (m ++ replicate 32 7) in
  token_ok hmac (Some (CS "secret")) 1700000003 (Some (form_token hmac (Some (CS "secret")) 1700000000)) = true.
Proof.
  intros hmac. refine (eq_trans (proj1 (spam_token_roundtrip hmac (Some (CS "secret")) _ 1700000000 1700000003 _)) _).
  - intros k m. unfold hmac. rewrite length_take, length_app, length_replicate. lia.
  - unfold long_max. lia.
  - done.
Defined.
