(* ===== verification/IpBan.v ===== *)
(** * Banned addresses (src/src/utils/ipban.c)

    Failed logins are counted per address in a table in shared memory: 64 stripes of 64 slots, a key
    is looked for in at most 32 slots of its stripe.  The lock of the stripe makes every function one
    step.  Statistics and the audit log are not modelled. *)
From stdpp Require Import sorting.
From S2P Require Import Prelude CStr.

Definition IPBAN_SLOTS : nat := Z.to_nat 4096.
Definition IPBAN_PROBE : nat := 32.
Definition IPBAN_LOCKS : nat := 64.
Definition IPBAN_SLOTS_PER_LOCK : nat := 64.

Record ipban_slot := IpbanSlot {
  is_key : Z;
  is_addr : list Z;
  is_fails : Z;
  is_window_start : Z;
  is_banned_until : Z;
}.
Definition no_slot : ipban_slot := IpbanSlot 0 [] 0 0 0.

Abbreviation ipban_table := (list ipban_slot).

(** [g_threshold], [g_window_sec], [g_duration_sec]. *)
Record ipban_config := IpbanConfig { g_threshold : Z; g_window_sec : Z; g_duration_sec : Z }.

Definition env_long (v : option cstr) (fallback : Z) : Z :=
  match v with
  | Some (c :: s) => let n := fst (strtol10 (c :: s)) in if 0 <? n then n else fallback
  | _ => fallback
  end.

(** ** Keys *)

Inductive sockaddr := Sock_none | Sock_inet (addr : list Z) | Sock_inet6 (addr : list Z) | Sock_other.

Definition fnv1a_step (h b : Z) : Z := u64 (Z.lxor h b * 1099511628211).

Definition peer_key (s : sockaddr) : option (list Z * Z) :=
  let keyed addr := let h := foldl fnv1a_step 1469598103934665603 addr in Some (addr, if h =? 0 then 1 else h) in
  match s with
  | Sock_none | Sock_other => None
  | Sock_inet addr => keyed (CH "4" :: take 4 addr)
  | Sock_inet6 addr =>
      if bool_decide (take 12 addr = replicate 10 0 ++ [255; 255]) then keyed (CH "4" :: take 4 (drop 12 addr))
      else keyed (CH "6" :: take 16 addr)
  end.

(** ** The walk of a stripe *)

Definition slot_index (key : Z) (i : nat) : nat :=
  let region := Z.to_nat (key `mod` Z.of_nat IPBAN_LOCKS) in
  let base := (region * IPBAN_SLOTS_PER_LOCK)%nat in
  let off := Z.to_nat ((key / Z.of_nat IPBAN_LOCKS) `mod` Z.of_nat IPBAN_SLOTS_PER_LOCK) in
  (base + (off + i) mod IPBAN_SLOTS_PER_LOCK)%nat.

Definition addr_matches (s : ipban_slot) (addr : list Z) : bool := bool_decide (is_addr s = addr).

Inductive walk := Found (j : nat) | Free (j : nat) | Collision.

Definition walk_stripe (key : Z) (addr : list Z) (t : ipban_table) : ctl unit walk :=
  for_loop IPBAN_PROBE 0
    (fun i _ =>
      let j := slot_index key i in
      let s := nth j t no_slot in
      if is_key s =? key then Stop (if addr_matches s addr then Found j else Collision)
      else if is_key s =? 0 then Stop (Free j) else Next tt) tt.

Definition slot_for (t : ipban_table) (key : Z) (addr : list Z) (insert : bool) : option nat * ipban_table :=
  match walk_stripe key addr t with
  | Stop (Found j) => (Some j, t)
  | Stop (Free j) => if insert then (Some j, <[j := IpbanSlot key addr 0 0 0]> t) else (None, t)
  | Stop Collision | Next _ => (None, t)
  end.

(** ** Operations *)

Section ipban.
Context (cfg : ipban_config).

(** The counting of [ipban_note_failure]; [fails] is a [uint8_t]. *)
Definition count_failure (now : Z) (s : ipban_slot) : ipban_slot :=
  if now <? is_banned_until s then s
  else
    let s := if (is_fails s =? 0) || (g_window_sec cfg <? now - is_window_start s)
             then IpbanSlot (is_key s) (is_addr s) 0 now (is_banned_until s) else s in
    let fails := u8 (is_fails s + 1) in
    IpbanSlot (is_key s) (is_addr s) fails (is_window_start s)
      (if g_threshold cfg <=? fails then now + g_duration_sec cfg else is_banned_until s).

Definition ipban_note_failure (now : Z) (s : sockaddr) (t : ipban_table) : ipban_table :=
  match peer_key s with
  | None => t
  | Some (addr, key) =>
      match slot_for t key addr true with
      | (Some j, t) => <[j := count_failure now (nth j t no_slot)]> t
      | (None, t) => t
      end
  end.

Definition ipban_note_success (s : sockaddr) (t : ipban_table) : ipban_table :=
  match peer_key s with
  | None => t
  | Some (addr, key) =>
      match slot_for t key addr false with
      | (Some j, t) => let e := nth j t no_slot in <[j := IpbanSlot (is_key e) (is_addr e) 0 0 0]> t
      | (None, t) => t
      end
  end.

(** Whether the request is refused; an expired ban is evicted. *)
Definition ipban_middleware (now : Z) (s : sockaddr) (t : ipban_table) : bool * ipban_table :=
  match peer_key s with
  | None => (false, t)
  | Some (addr, key) =>
      match slot_for t key addr false with
      | (Some j, t) =>
          let e := nth j t no_slot in
          if 0 <? is_banned_until e then
            if is_banned_until e <=? now then (false, <[j := IpbanSlot 0 (is_addr e) 0 0 0]> t) else (true, t)
          else (false, t)
      | (None, t) => (false, t)
      end
  end.

Definition ipban_banned_count (now : Z) (t : ipban_table) : nat :=
  countb (fun s => negb (is_key s =? 0) && (now <? is_banned_until s)) t.

(** ** Runs *)

Inductive ip_event := Failure (now : Z) (s : sockaddr) | Success (s : sockaddr) | Request (now : Z) (s : sockaddr).

Definition ip_step (t : ipban_table) (e : ip_event) : ipban_table :=
  match e with
  | Failure now s => ipban_note_failure now s t
  | Success s => ipban_note_success s t
  | Request now s => snd (ipban_middleware now s t)
  end.
Definition ip_run (es : list ip_event) (t : ipban_table) : ipban_table := foldl ip_step t es.
End ipban.

Definition ipban_init : ipban_table := replicate IPBAN_SLOTS no_slot.

(** ** The walk ends at the first slot that is empty or has the key *)

Definition key_at (t : ipban_table) (j : nat) : Z := is_key (nth j t no_slot).
Definition passed (key : Z) (t : ipban_table) (n : nat) : Prop :=
  forall i, (i < n)%nat -> key_at t (slot_index key i) <> key /\ key_at t (slot_index key i) <> 0.

Lemma slot_index_lt key i : (slot_index key i < IPBAN_SLOTS)%nat.
Proof.
  unfold slot_index, IPBAN_SLOTS_PER_LOCK, IPBAN_SLOTS, IPBAN_LOCKS.
  pose proof (Z.mod_pos_bound key (Z.of_nat 64) ltac:(lia)). pose proof (Nat.mod_upper_bound (Z.to_nat ((key / Z.of_nat 64) `mod` Z.of_nat 64) + i) 64 ltac:(lia)). lia.
Qed.

Definition walk_result (key : Z) (addr : list Z) (t : ipban_table) (w : ctl unit walk) : Prop :=
  match w with
  | Next _ => passed key t IPBAN_PROBE
  | Stop w =>
      exists i, (i < IPBAN_PROBE)%nat /\ passed key t i /\
        let s := nth (slot_index key i) t no_slot in
        w = (if is_key s =? key then (if addr_matches s addr then Found (slot_index key i) else Collision) else Free (slot_index key i))
        /\ (is_key s = key \/ is_key s = 0)
  end.

Lemma walk_stripe_spec key addr t : walk_result key addr t (walk_stripe key addr t).
Proof.
  unfold walk_stripe.
  pose proof (for_loop_inv (S := unit) (R := walk)
    (fun i _ => let j := slot_index key i in let s := nth j t no_slot in
       if is_key s =? key then Stop (if addr_matches s addr then Found j else Collision) else if is_key s =? 0 then Stop (Free j) else Next tt)
    (fun n _ => passed key t n) (fun w => walk_result key addr t (Stop w)) IPBAN_PROBE 0 tt) as H.
  assert (Hinit : passed key t 0) by (intros i Hi; lia). specialize (H Hinit). cbv zeta in H.
  match type of H with ?P -> _ => assert (Hstep : P) end.
  { intros j [] Hj Hp. destruct (Z.eqb_spec (is_key (nth (slot_index key j) t no_slot)) key) as [Hk|Hk].
    - exists j. split; [lia|]. split; [done|]. cbv zeta. rewrite Hk, Z.eqb_refl. split; [done|by left].
    - destruct (Z.eqb_spec (is_key (nth (slot_index key j) t no_slot)) 0) as [H0|H0].
      + exists j. split; [lia|]. split; [done|]. cbv zeta. rewrite (proj2 (Z.eqb_neq _ key)) by done. split; [done|by right].
      + intros i Hi. destruct (decide (i = j)) as [-> |]; [by split|apply Hp; lia]. }
  specialize (H Hstep). cbn [Nat.add] in H. by destruct (for_loop _ _ _ _) as [[]|w].
Qed.

(** The walk only depends on the slots it looks at: it is the one result that fits. *)
Lemma walk_stripe_unique key addr t w : walk_result key addr t w -> walk_stripe key addr t = w.
Proof.
  pose proof (walk_stripe_spec key addr t) as H. intros Hw. destruct (walk_stripe key addr t) as [[]|w1], w as [[]|w2]; cbn in *.
  - done.
  - destruct Hw as (i & Hi & _ & _ & Hend). destruct (H i Hi). unfold key_at in *. by destruct Hend.
  - destruct H as (i & Hi & _ & _ & Hend). destruct (Hw i Hi). unfold key_at in *. by destruct Hend.
  - destruct H as (i & Hi & Hp & Hr & Hend), Hw as (i' & Hi' & Hp' & Hr' & Hend').
    assert (i = i') as <-.
    { destruct (lt_eq_lt_dec i i') as [[Hlt| ->]|Hlt]; [|done|].
      - destruct (Hp' i Hlt). unfold key_at in *. by destruct Hend.
      - destruct (Hp i' Hlt). unfold key_at in *. by destruct Hend'. }
    by rewrite Hr, Hr'.
Qed.

(** ** What the table says about an address *)

Definition view (key : Z) (addr : list Z) (t : ipban_table) : ipban_slot :=
  match walk_stripe key addr t with Stop (Found j) => nth j t no_slot | _ => IpbanSlot key addr 0 0 0 end.

Lemma nth_insert_slot (t : ipban_table) j s j' : length t = IPBAN_SLOTS -> (j < IPBAN_SLOTS)%nat ->
  nth j' (<[j := s]> t) no_slot = if decide (j' = j) then s else nth j' t no_slot.
Proof.
  intros Hl Hj. rewrite !nth_lookup. destruct (decide (j' = j)) as [-> |Hne].
  - by rewrite list_lookup_insert_eq by lia.
  - by rewrite list_lookup_insert_ne.
Qed.

Lemma walk_target key addr t j : walk_stripe key addr t = Stop (Found j) \/ walk_stripe key addr t = Stop (Free j) ->
  (j < IPBAN_SLOTS)%nat.
Proof.
  intros H. pose proof (walk_stripe_spec key addr t) as Hw.
  destruct H as [E|E]; rewrite E in Hw; destruct Hw as (i & Hi & _ & Hr & _); cbv zeta in Hr;
    (destruct (_ =? _); [destruct (addr_matches _ _)|]); simplify_eq; apply slot_index_lt.
Qed.

Lemma found_slot key addr t j : walk_stripe key addr t = Stop (Found j) ->
  is_key (nth j t no_slot) = key /\ is_addr (nth j t no_slot) = addr.
Proof.
  intros E. pose proof (walk_stripe_spec key addr t) as Hw. rewrite E in Hw. destruct Hw as (i & Hi & _ & Hr & _). cbv zeta in Hr.
  destruct (Z.eqb_spec (is_key (nth (slot_index key i) t no_slot)) key) as [Hk|]; [|done].
  destruct (addr_matches _ _) eqn:Ea; [|done]. injection Hr as ->. apply bool_decide_eq_true in Ea. done.
Qed.

(** Changing the counters of an entry only changes what is known of its address. *)
Lemma walk_counters key addr t j s : length t = IPBAN_SLOTS -> (j < IPBAN_SLOTS)%nat ->
  is_key s = is_key (nth j t no_slot) -> is_addr s = is_addr (nth j t no_slot) ->
  walk_stripe key addr (<[j := s]> t) = walk_stripe key addr t.
Proof.
  intros Hl Hj Hk Ha. apply walk_stripe_unique. pose proof (walk_stripe_spec key addr t) as Hw.
  assert (Hget : forall j', is_key (nth j' (<[j := s]> t) no_slot) = is_key (nth j' t no_slot) /\
                   addr_matches (nth j' (<[j := s]> t) no_slot) addr = addr_matches (nth j' t no_slot) addr).
  { intros j'. rewrite nth_insert_slot by done. unfold addr_matches. destruct (decide (j' = j)) as [-> |]; [|done]. by rewrite Hk, Ha. }
  assert (Hpass : forall n, passed key t n -> passed key (<[j := s]> t) n).
  { intros n Hp i Hi. unfold key_at. destruct (Hget (slot_index key i)) as [-> _]. by apply Hp. }
  destruct (walk_stripe key addr t) as [[]|w]; cbn in *; [by apply Hpass|].
  destruct Hw as (i & Hi & Hp & Hr & Hend). exists i. split; [done|]. split; [by apply Hpass|].
  destruct (Hget (slot_index key i)) as [-> ->]. done.
Qed.

Lemma view_counters key addr t j s : length t = IPBAN_SLOTS -> (j < IPBAN_SLOTS)%nat ->
  is_key s = is_key (nth j t no_slot) -> is_addr s = is_addr (nth j t no_slot) ->
  view key addr (<[j := s]> t) = match walk_stripe key addr t with
                                | Stop (Found j') => if decide (j' = j) then s else nth j' t no_slot
                                | _ => IpbanSlot key addr 0 0 0 end.
Proof.
  intros. unfold view. rewrite walk_counters by done. destruct (walk_stripe key addr t) as [|[j'| |]]; try done. by rewrite nth_insert_slot.
Qed.

(** A walk that finds its entry passes no empty slot. *)
Lemma found_stays key addr t j j' s : length t = IPBAN_SLOTS -> (j' < IPBAN_SLOTS)%nat -> key <> 0 -> is_key (nth j' t no_slot) = 0 ->
  walk_stripe key addr t = Stop (Found j) -> walk_stripe key addr (<[j' := s]> t) = Stop (Found j).
Proof.
  intros Hl Hj' Hkey H0 E. pose proof (walk_stripe_spec key addr t) as Hw. rewrite E in Hw. destruct Hw as (i & Hi & Hp & Hr & Hend).
  cbv zeta in Hr. apply walk_stripe_unique. exists i. split; [done|]. split.
  - intros i' Hi'. specialize (Hp i' Hi'). unfold key_at in *. rewrite nth_insert_slot by done. destruct (decide _) as [Ej|]; [|done].
    rewrite Ej, H0 in Hp. by destruct Hp.
  - cbv zeta. rewrite nth_insert_slot by done. destruct (decide _) as [Ej|]; [|done].
    rewrite Ej, H0 in Hr. rewrite (proj2 (Z.eqb_neq 0 key)) in Hr by done. done.
Qed.

(** An entry of the address. *)
Definition mine (key : Z) (addr : list Z) (s : ipban_slot) : Prop := is_key s = key /\ is_addr s = addr.

(** Every entry of the address is the one its walk finds. *)
Record findable (key : Z) (addr : list Z) (t : ipban_table) : Prop := {
  fi_length : length t = IPBAN_SLOTS;
  fi_found : forall j, mine key addr (nth j t no_slot) -> walk_stripe key addr t = Stop (Found j);
}.

Lemma nth_init j : nth j ipban_init no_slot = no_slot.
Proof. unfold ipban_init. rewrite nth_lookup. destruct (_ !! j) as [s|] eqn:E; [|done]. by apply lookup_replicate in E as [-> _]. Qed.

Lemma findable_init key addr : key <> 0 -> findable key addr ipban_init.
Proof. intros Hkey. split; [unfold ipban_init; apply length_replicate|]. intros j. rewrite nth_init. by intros [? _]. Qed.

Lemma view_found key addr t j : walk_stripe key addr t = Stop (Found j) -> view key addr t = nth j t no_slot.
Proof. unfold view. by intros ->. Qed.

Lemma view_none key addr t : (forall j, walk_stripe key addr t <> Stop (Found j)) -> view key addr t = IpbanSlot key addr 0 0 0.
Proof. intros H. unfold view. destruct (walk_stripe key addr t) as [|[j| |]]; try done. by destruct (H j). Qed.

Lemma found_or_not key addr t : (exists j, walk_stripe key addr t = Stop (Found j)) \/ forall j, walk_stripe key addr t <> Stop (Found j).
Proof. destruct (walk_stripe key addr t) as [|[j| |]]; [by right|left; by exists j|by right..]. Qed.

(** A slot that is not of the address is changed to another such, and its entry is still found. *)
Lemma other_insert key addr t j s : findable key addr t -> (j < IPBAN_SLOTS)%nat -> ~ mine key addr (nth j t no_slot) -> ~ mine key addr s ->
  (forall i, walk_stripe key addr t = Stop (Found i) -> walk_stripe key addr (<[j := s]> t) = Stop (Found i)) ->
  findable key addr (<[j := s]> t) /\ view key addr (<[j := s]> t) = view key addr t.
Proof.
  intros [Hl Hfound] Hj Hold Hnew Hkeep.
  assert (Hsame : forall i, mine key addr (nth i (<[j := s]> t) no_slot) -> nth i (<[j := s]> t) no_slot = nth i t no_slot).
  { intros i. rewrite nth_insert_slot by done. by destruct (decide (i = j)). }
  assert (Hfi : findable key addr (<[j := s]> t)).
  { split; [by rewrite length_insert|]. intros i Hi. apply Hkeep, Hfound. by rewrite <- Hsame. }
  split; [done|]. destruct (found_or_not key addr t) as [[i Hi]|Hno].
  - rewrite (view_found _ _ _ _ Hi), (view_found _ _ _ _ (Hkeep i Hi)). apply Hsame. exact (found_slot _ _ _ _ (Hkeep i Hi)).
  - rewrite (view_none _ _ _ Hno). apply view_none. intros i Hi. apply (Hno i), Hfound. pose proof (found_slot _ _ _ _ Hi) as Hm. rewrite <- Hsame; exact Hm.
Qed.

Lemma free_slot key addr t j : walk_stripe key addr t = Stop (Free j) -> key <> 0 -> is_key (nth j t no_slot) = 0.
Proof.
  intros E Hkey. pose proof (walk_stripe_spec key addr t) as Hw. rewrite E in Hw. destruct Hw as (i & Hi & Hp & Hr & Hend). cbv zeta in Hr.
  destruct (Z.eqb_spec (is_key (nth (slot_index key i) t no_slot)) key) as [Hk|Hk]; [by destruct (addr_matches _ _)|]. injection Hr as ->. by destruct Hend.
Qed.

(** A new entry is where the walk of its address ends. *)
Lemma new_found key addr t j : length t = IPBAN_SLOTS -> key <> 0 -> walk_stripe key addr t = Stop (Free j) ->
  walk_stripe key addr (<[j := IpbanSlot key addr 0 0 0]> t) = Stop (Found j).
Proof.
  intros Hl Hkey E. assert (Hj : (j < IPBAN_SLOTS)%nat) by (apply (walk_target key addr t); by right). pose proof (free_slot _ _ _ _ E Hkey) as H0.
  pose proof (walk_stripe_spec key addr t) as Hw. rewrite E in Hw. destruct Hw as (i & Hi & Hp & Hr & _). cbv zeta in Hr.
  destruct (Z.eqb_spec (is_key (nth (slot_index key i) t no_slot)) key) as [Hk|Hk]; [by destruct (addr_matches _ _)|]. injection Hr as ->.
  set (j := slot_index key i) in *. apply walk_stripe_unique. exists i. split; [done|]. split.
  - intros i' Hi'. specialize (Hp i' Hi'). unfold key_at in *. rewrite nth_insert_slot by done. destruct (decide _) as [Ej|]; [|done].
    rewrite Ej, H0 in Hp. by destruct Hp.
  - cbv zeta. fold j. rewrite nth_insert_slot, decide_True by done. cbn [is_key]. rewrite Z.eqb_refl. unfold addr_matches.
    rewrite bool_decide_eq_true_2 by done. split; [done|by left].
Qed.

(** New counters in the entry of the address. *)
Lemma own_update key addr t j s : findable key addr t -> walk_stripe key addr t = Stop (Found j) -> mine key addr s ->
  findable key addr (<[j := s]> t) /\ view key addr (<[j := s]> t) = s.
Proof.
  intros [Hl Hfound] E [Hks Has]. destruct (found_slot _ _ _ _ E) as [Hk Ha]. assert (Hj : (j < IPBAN_SLOTS)%nat) by (apply (walk_target key addr t); by left).
  assert (Hwalk : walk_stripe key addr (<[j := s]> t) = Stop (Found j)) by (rewrite <- E; apply walk_counters; congruence).
  split; [split; [by rewrite length_insert|]|].
  - intros i. rewrite nth_insert_slot by done. destruct (decide (i = j)) as [-> |]; [done|]. intros Hi%Hfound. congruence.
  - rewrite (view_found _ _ _ _ Hwalk), nth_insert_slot by done. by rewrite decide_True.
Qed.

(** The first failure of an address makes its entry. *)
Lemma own_insert key addr t j : findable key addr t -> key <> 0 -> walk_stripe key addr t = Stop (Free j) ->
  let t' := <[j := IpbanSlot key addr 0 0 0]> t in
  findable key addr t' /\ walk_stripe key addr t' = Stop (Found j) /\ view key addr t' = view key addr t.
Proof.
  intros [Hl Hfound] Hkey E t'. assert (Hj : (j < IPBAN_SLOTS)%nat) by (apply (walk_target key addr t); by right).
  pose proof (new_found _ _ _ _ Hl Hkey E) as Hnew. fold t' in Hnew. split; [split; [by unfold t'; rewrite length_insert|]|split; [done|]].
  - intros i. unfold t' at 1. rewrite nth_insert_slot by done. destruct (decide (i = j)) as [-> |]; [done|]. intros Hi%Hfound. congruence.
  - rewrite (view_found _ _ _ _ Hnew). unfold t'. rewrite nth_insert_slot, decide_True by done. symmetry. apply view_none. intros i. by rewrite E.
Qed.

(** The entry of the address is emptied. *)
Lemma own_evict key addr t j s : findable key addr t -> walk_stripe key addr t = Stop (Found j) -> ~ mine key addr s ->
  findable key addr (<[j := s]> t) /\ view key addr (<[j := s]> t) = IpbanSlot key addr 0 0 0.
Proof.
  intros [Hl Hfound] E Hs. assert (Hj : (j < IPBAN_SLOTS)%nat) by (apply (walk_target key addr t); by left).
  assert (Hnone : forall i, ~ mine key addr (nth i (<[j := s]> t) no_slot)).
  { intros i. rewrite nth_insert_slot by done. destruct (decide (i = j)) as [-> |]; [done|]. intros Hi%Hfound. congruence. }
  split; [split; [by rewrite length_insert|]; by intros i Hi%Hnone|]. apply view_none. intros i Hi. exact (Hnone i (found_slot _ _ _ _ Hi)).
Qed.

(** The walk of the address looks at the slot before it comes to its entry. *)
Definition ahead (key : Z) (addr : list Z) (t : ipban_table) (j' : nat) : bool :=
  match walk_stripe key addr t with
  | Stop (Found j) =>
      existsb (fun i => (slot_index key i =? j')%nat && forallb (fun k => negb (slot_index key k =? j)%nat) (seq 0 (S i))) (seq 0 IPBAN_PROBE)
  | _ => false
  end.

Lemma emptied_behind key addr t j' s : findable key addr t -> key <> 0 -> (j' < IPBAN_SLOTS)%nat -> ~ mine key addr (nth j' t no_slot) -> is_key s = 0 ->
  ahead key addr t j' = false -> forall j, walk_stripe key addr t = Stop (Found j) -> walk_stripe key addr (<[j' := s]> t) = Stop (Found j).
Proof.
  intros [Hl Hfound] Hkey Hj' Hold Hs Hahead j E. pose proof (found_slot _ _ _ _ E) as Hmine. unfold ahead in Hahead. rewrite E in Hahead.
  pose proof (walk_stripe_spec key addr t) as Hw. rewrite E in Hw. destruct Hw as (i & Hi & Hp & Hr & Hend). cbv zeta in Hr.
  assert (Hji : j = slot_index key i) by (destruct (_ =? key); [destruct (addr_matches _ _)|]; congruence).
  assert (Hne : forall k, (k <= i)%nat -> slot_index key k <> j').
  { intros k Hk Ek. destruct (decide (k = i)) as [-> |]; [rewrite <- Ek, <- Hji in Hold; by apply Hold|].
    apply not_true_iff_false in Hahead. apply Hahead, existsb_exists. exists k. split; [apply in_seq; lia|]. rewrite Ek, Nat.eqb_refl. cbn [andb].
    apply forallb_forall. intros k' Hk'%in_seq. apply negb_true_iff, Nat.eqb_neq. intros Ekj. destruct (Hp k' ltac:(lia)) as [Hpk _].
    apply Hpk. unfold key_at. rewrite Ekj. apply Hmine. }
  apply walk_stripe_unique. exists i. split; [done|]. split.
  - intros k Hk. unfold key_at. rewrite nth_insert_slot, decide_False by (try done; apply Hne; lia). by apply Hp.
  - cbv zeta. rewrite nth_insert_slot, decide_False by (try done; apply Hne; lia). done.
Qed.

Section contract.
Context (cfg : ipban_config).

(** What an address does itself: a failed login, one that succeeds, a request. *)
Inductive own_event := Failed (now : Z) | Succeeded | Asked (now : Z).
Definition own (key : Z) (addr : list Z) (e : ip_event) : option own_event :=
  let by_it s l := if bool_decide (peer_key s = Some (addr, key)) then Some l else None in
  match e with Failure now s => by_it s (Failed now) | Success s => by_it s Succeeded | Request now s => by_it s (Asked now) end.
Definition own_events (key : Z) (addr : list Z) (es : list ip_event) : list own_event := omap (own key addr) es.
Definition failures (l : list own_event) : list Z := omap (fun e => match e with Failed now => Some now | _ => None end) l.

(** What the counters of an address would be if it were the only one. *)
Definition alone_step (key : Z) (addr : list Z) (v : ipban_slot) (l : own_event) : ipban_slot :=
  match l with
  | Failed now => count_failure cfg now v
  | Succeeded => IpbanSlot key addr 0 0 0
  | Asked now => if (0 <? is_banned_until v) && (is_banned_until v <=? now) then IpbanSlot key addr 0 0 0 else v
  end.
Definition alone_run (key : Z) (addr : list Z) (v : ipban_slot) (l : list own_event) : ipban_slot := foldl (alone_step key addr) v l.
Definition banned_at (now : Z) (v : ipban_slot) : bool := (0 <? is_banned_until v) && (now <? is_banned_until v).

(** An event does not disturb an address: its own failure finds a slot, and no other address whose ban
    has ended has its entry emptied where the walk of the address passes. *)
Definition undisturbed (key : Z) (addr : list Z) (t : ipban_table) (e : ip_event) : bool :=
  match e with
  | Failure _ s => negb (bool_decide (peer_key s = Some (addr, key))) || bool_decide (is_Some (fst (slot_for t key addr true)))
  | Success _ => true
  | Request now s =>
      match peer_key s with
      | Some (addr', key') =>
          match walk_stripe key' addr' t with
          | Stop (Found j) =>
              let ends := is_banned_until (nth j t no_slot) in
              bool_decide ((addr', key') = (addr, key)) || negb ((0 <? ends) && (ends <=? now)) || negb (ahead key addr t j)
          | _ => true
          end
      | None => true
      end
  end.
Fixpoint undisturbed_run (key : Z) (addr : list Z) (es : list ip_event) (t : ipban_table) : bool :=
  match es with [] => true | e :: es' => undisturbed key addr t e && undisturbed_run key addr es' (ip_step cfg t e) end.

Lemma peer_key_nonzero s addr key : peer_key s = Some (addr, key) -> key <> 0.
Proof.
  assert (H : forall a, (let h := foldl fnv1a_step 1469598103934665603 a in Some (a, if h =? 0 then 1 else h)) = Some (addr, key) -> key <> 0).
  { intros a. cbv zeta. destruct (Z.eqb_spec (foldl fnv1a_step 1469598103934665603 a) 0); intros; simplify_eq; congruence. }
  unfold peer_key. destruct s; try done; [apply H|]. destruct (bool_decide _); apply H.
Qed.

Lemma count_failure_same now s : is_key (count_failure cfg now s) = is_key s /\ is_addr (count_failure cfg now s) = is_addr s.
Proof. unfold count_failure. destruct (_ <? _); [done|]. by destruct (_ || _). Qed.

Lemma count_failure_mine key addr now s : mine key addr (count_failure cfg now s) <-> mine key addr s.
Proof. destruct (count_failure_same now s) as [H1 H2]. unfold mine. by rewrite H1, H2. Qed.

(** ** What each event does to the entry of an address *)

Lemma others_mine key addr key' addr' s : mine key' addr' s -> (addr', key') <> (addr, key) -> ~ mine key addr s.
Proof. intros [<- <-] Hne [<- <-]. by apply Hne. Qed.

Lemma other_update key addr key' addr' t j s : findable key addr t -> walk_stripe key' addr' t = Stop (Found j) -> (addr', key') <> (addr, key) ->
  mine key' addr' s -> findable key addr (<[j := s]> t) /\ view key addr (<[j := s]> t) = view key addr t.
Proof.
  intros Hf E Hne Hs. pose proof (found_slot _ _ _ _ E) as Hm. assert (Hj : (j < IPBAN_SLOTS)%nat) by (apply (walk_target key' addr' t); by left).
  apply other_insert; [done|done|by eapply others_mine|by eapply others_mine|]. intros i <-. apply walk_counters; [apply Hf|done|..]; destruct Hs, Hm; congruence.
Qed.

Lemma other_failure key addr key' addr' t now s : findable key addr t -> key <> 0 -> peer_key s = Some (addr', key') -> (addr', key') <> (addr, key) ->
  findable key addr (ipban_note_failure cfg now s t) /\ view key addr (ipban_note_failure cfg now s t) = view key addr t.
Proof.
  intros Hf Hkey Es Hne. pose proof (peer_key_nonzero _ _ _ Es) as Hkey'. unfold ipban_note_failure, slot_for. rewrite Es.
  destruct (walk_stripe key' addr' t) as [|[j|j|]] eqn:E; [done| | |done].
  - apply (other_update key addr key' addr'); [done..|]. apply count_failure_mine. exact (found_slot _ _ _ _ E).
  - assert (Hj : (j < IPBAN_SLOTS)%nat) by (apply (walk_target key' addr' t); by right). pose proof (free_slot _ _ _ _ E Hkey') as H0.
    assert (Hnew : mine key' addr' (IpbanSlot key' addr' 0 0 0)) by done.
    destruct (other_insert key addr t j (IpbanSlot key' addr' 0 0 0) Hf Hj) as [Hf1 Hv1].
    + intros [Hk _]. congruence.
    + by eapply others_mine.
    + intros i Hi. apply found_stays; [apply Hf|done..].
    + pose proof (new_found _ _ _ _ (fi_length _ _ _ Hf) Hkey' E) as Hw. rewrite <- Hv1. apply (other_update key addr key' addr'); [done..|].
      apply count_failure_mine. exact (found_slot _ _ _ _ Hw).
Qed.

Lemma own_failure key addr t now s : findable key addr t -> key <> 0 -> peer_key s = Some (addr, key) -> is_Some (fst (slot_for t key addr true)) ->
  findable key addr (ipban_note_failure cfg now s t) /\ view key addr (ipban_note_failure cfg now s t) = count_failure cfg now (view key addr t).
Proof.
  intros Hf Hkey Es. unfold ipban_note_failure, slot_for. rewrite Es. destruct (walk_stripe key addr t) as [|[j|j|]] eqn:E; [by intros [? ?]| | |by intros [? ?]]; intros _.
  - rewrite (view_found _ _ _ _ E). apply own_update; [done..|]. apply count_failure_mine. exact (found_slot _ _ _ _ E).
  - destruct (own_insert _ _ _ _ Hf Hkey E) as (Hf1 & Hw1 & Hv1). rewrite <- Hv1, (view_found _ _ _ _ Hw1). apply own_update; [done..|].
    apply count_failure_mine. exact (found_slot _ _ _ _ Hw1).
Qed.

Lemma success_step key addr t s : findable key addr t ->
  findable key addr (ipban_note_success s t) /\
  view key addr (ipban_note_success s t) = if bool_decide (peer_key s = Some (addr, key)) then IpbanSlot key addr 0 0 0 else view key addr t.
Proof.
  intros Hf. unfold ipban_note_success, slot_for. destruct (peer_key s) as [[addr' key']|] eqn:Es; [|done].
  destruct (decide ((addr', key') = (addr, key))) as [[= -> ->]|Hne].
  - rewrite bool_decide_eq_true_2 by done. destruct (walk_stripe key addr t) as [|[j|j|]] eqn:E.
    2: destruct (found_slot _ _ _ _ E) as [Hk Ha]; rewrite Hk, Ha; by apply own_update.
    all: split; [done|]; apply view_none; intros i; by rewrite E.
  - rewrite bool_decide_eq_false_2 by congruence. destruct (walk_stripe key' addr' t) as [|[j|j|]] eqn:E; [done| |done|done].
    apply (other_update key addr key' addr'); [done..|]. exact (found_slot _ _ _ _ E).
Qed.

Lemma request_step key addr t now s : findable key addr t -> key <> 0 -> undisturbed key addr t (Request now s) = true ->
  findable key addr (snd (ipban_middleware now s t)) /\
  view key addr (snd (ipban_middleware now s t)) =
    if bool_decide (peer_key s = Some (addr, key)) then alone_step key addr (view key addr t) (Asked now) else view key addr t.
Proof.
  intros Hf Hkey. cbn [undisturbed]. unfold ipban_middleware, slot_for. destruct (peer_key s) as [[addr' key']|] eqn:Es; [|done].
  destruct (decide ((addr', key') = (addr, key))) as [[= -> ->]|Hne].
  - intros _. rewrite bool_decide_eq_true_2 by done. cbn [alone_step]. destruct (walk_stripe key addr t) as [|[j|j|]] eqn:E.
    2:{ rewrite (view_found _ _ _ _ E). cbv zeta. destruct (0 <? _); cbn [andb snd]; [|by rewrite (view_found _ _ _ _ E)].
        destruct (_ <=? now); cbn [snd]; [|by rewrite (view_found _ _ _ _ E)]. apply own_evict; [done..|]. intros [H _]. by apply Hkey. }
    all: cbn [snd]; rewrite view_none by (intros i; by rewrite E); done.
  - rewrite (bool_decide_eq_false_2 (Some (addr', key') = _)) by congruence. destruct (walk_stripe key' addr' t) as [|[j|j|]] eqn:E; [done| |done|done].
    cbv zeta. rewrite bool_decide_eq_false_2 by done. cbn [orb]. destruct (0 <? _); [|done]. cbn [andb]. destruct (_ <=? now); [|done]. cbn [negb orb snd]. intros Ha%negb_true_iff.
    pose proof (found_slot _ _ _ _ E) as Hm. assert (Hj : (j < IPBAN_SLOTS)%nat) by (apply (walk_target key' addr' t); by left).
    apply other_insert; [done|done|by eapply others_mine| |].
    + intros [H _]. by apply Hkey.
    + apply emptied_behind; [done..| |done|done]. by eapply others_mine.
Qed.

Lemma ip_step_spec t e key addr : findable key addr t -> undisturbed key addr t e = true -> key <> 0 ->
  findable key addr (ip_step cfg t e) /\
  view key addr (ip_step cfg t e) = match own key addr e with Some l => alone_step key addr (view key addr t) l | None => view key addr t end.
Proof.
  intros Hf Ho Hkey. destruct e as [now s|s|now s]; cbn [ip_step own].
  - destruct (decide (peer_key s = Some (addr, key))) as [Es|Es].
    + rewrite bool_decide_eq_true_2 by done. cbn [undisturbed] in Ho. rewrite bool_decide_eq_true_2 in Ho by done. cbn [negb orb] in Ho. apply bool_decide_eq_true in Ho. by apply own_failure.
    + rewrite bool_decide_eq_false_2 by done. destruct (peer_key s) as [[addr' key']|] eqn:Ep; [|unfold ipban_note_failure; by rewrite Ep].
      apply (other_failure key addr key' addr'); [done..|]. congruence.
  - destruct (success_step key addr t s Hf) as [H1 H2]. split; [done|]. rewrite H2. by destruct (bool_decide _).
  - destruct (request_step key addr t now s Hf Hkey Ho) as [H1 H2]. split; [done|]. rewrite H2. by destruct (bool_decide _).
Qed.

Lemma ip_run_spec es key addr : key <> 0 -> forall t, findable key addr t -> undisturbed_run key addr es t = true ->
  findable key addr (ip_run cfg es t) /\ view key addr (ip_run cfg es t) = alone_run key addr (view key addr t) (own_events key addr es).
Proof.
  intros Hkey. induction es as [|e es IH]; intros t Hf Ho; [done|]. cbn [undisturbed_run] in Ho. apply andb_true_iff in Ho as [He Ho].
  destruct (ip_step_spec t e key addr Hf He Hkey) as [Hf' Hv]. cbn [ip_run foldl]. destruct (IH _ Hf' Ho) as [H1 H2].
  split; [done|]. change (foldl (ip_step cfg) (ip_step cfg t e) es) with (ip_run cfg es (ip_step cfg t e)). rewrite H2, Hv.
  unfold own_events. cbn [omap list_omap]. by destruct (own key addr e).
Qed.

Lemma middleware_view now s addr key t : peer_key s = Some (addr, key) -> fst (ipban_middleware now s t) = banned_at now (view key addr t).
Proof.
  intros Hpeer. unfold ipban_middleware, slot_for, banned_at. rewrite Hpeer. unfold view. destruct (walk_stripe key addr t) as [|[j|j|]]; cbn [fst is_banned_until]; try done.
  destruct (0 <? _); [|done]. cbn [andb]. destruct (Z.leb_spec (is_banned_until (nth j t no_slot)) now), (Z.ltb_spec now (is_banned_until (nth j t no_slot))); try lia; done.
Qed.

(** ** The count of an address by itself *)

Lemma count_next now v k first : is_banned_until v = 0 -> is_fails v = k -> 0 <= k < 255 -> (1 <= k -> is_window_start v = first) -> (k = 0 -> now = first) ->
  0 < now -> first <= now <= first + g_window_sec cfg ->
  count_failure cfg now v = IpbanSlot (is_key v) (is_addr v) (k + 1) first (if g_threshold cfg <=? k + 1 then now + g_duration_sec cfg else 0).
Proof.
  intros Hb Hf Hk Hs H0 Hnow Hw. unfold count_failure. rewrite Hb, Hf. rewrite (proj2 (Z.ltb_ge now 0)) by lia.
  destruct (Z.eqb_spec k 0) as [-> |]; cbn [orb]; [by rewrite (H0 eq_refl)|]. rewrite (Hs ltac:(lia)), (proj2 (Z.ltb_ge _ _)) by lia. by rewrite Hf, u8_small, Hs, Hb by lia.
Qed.

(** No request after the one in question. *)
Definition asked_before (now : Z) (l : own_event) : Prop := match l with Asked r => r <= now | Failed _ => True | Succeeded => False end.

(** Without a failure a ban only ends with its time. *)
Lemma ban_outlasts_requests key addr now l : Forall (asked_before now) l -> failures l = [] -> forall v, banned_at now (alone_run key addr v l) = banned_at now v.
Proof.
  induction 1 as [|e l He Hl IH]; intros Hno v; [done|]. destruct e as [t| |r]; [done|done|]. cbn [alone_run foldl]. fold (alone_run key addr).
  unfold alone_run in IH. rewrite IH by done. cbn [alone_step asked_before] in *. unfold banned_at.
  destruct (Z.ltb_spec 0 (is_banned_until v)), (Z.leb_spec (is_banned_until v) r), (Z.ltb_spec now (is_banned_until v)); cbn [andb is_banned_until]; try lia; try done;
  by rewrite ?(proj2 (Z.ltb_lt _ _)), ?(proj2 (Z.ltb_ge _ _)) by lia.
Qed.

(** Failures within one window, counted from an entry with [k] of them. *)
Lemma count_run key addr now first l : 1 <= g_threshold cfg <= 255 -> 0 <= g_duration_sec cfg -> Forall (asked_before now) l ->
  Forall (fun t => 0 < t /\ first <= t <= first + g_window_sec cfg) (failures l) ->
  forall v k, is_banned_until v = 0 -> is_fails v = k -> 0 <= k -> (1 <= k -> is_window_start v = first) -> (k = 0 -> head (failures l) = Some first \/ failures l = []) ->
  k < g_threshold cfg -> k + zlen (failures l) <= g_threshold cfg ->
  banned_at now (alone_run key addr v l) = (k + zlen (failures l) =? g_threshold cfg) && (now <? List.last (failures l) 0 + g_duration_sec cfg).
Proof.
  intros Hthr Hdur. induction 1 as [|e l He Hl IH]; intros Htimes v k Hb Hf Hk Hs H0 Hlt Hlen.
  { cbn. change (zlen []) with 0. unfold banned_at. rewrite Hb. by rewrite (proj2 (Z.eqb_neq (k + 0) _)) by lia. }
  destruct e as [t| |r]; [|done|].
  - change (failures (Failed t :: l)) with (t :: failures l) in *. rewrite zlen_cons in *. pose proof (zlen_nonneg (failures l)).
    apply Forall_cons in Htimes as [[Ht Hw] Htimes]. cbn [alone_run foldl alone_step].
    rewrite (count_next t v k first) by (try done; try lia; intros ->; destruct (H0 eq_refl) as [[= ->]|]; done).
    destruct (Z.leb_spec (g_threshold cfg) (k + 1)) as [Hfull|Hmore].
    + assert (Hno : failures l = []) by (destruct (failures l); [done|rewrite zlen_cons in *; pose proof (zlen_nonneg l0); lia]).
      fold (alone_run key addr (IpbanSlot (is_key v) (is_addr v) (k + 1) first (t + g_duration_sec cfg)) l). rewrite ban_outlasts_requests by done.
      rewrite Hno. change (zlen []) with 0. cbn [List.last]. unfold banned_at. cbn [is_banned_until]. rewrite (proj2 (Z.ltb_lt 0 _)) by lia. by rewrite (proj2 (Z.eqb_eq (k + (1 + 0)) _)) by lia.
    + fold (alone_run key addr (IpbanSlot (is_key v) (is_addr v) (k + 1) first 0) l). rewrite (IH Htimes _ (k + 1)) by (done || (cbn; lia)).
      replace (k + 1 + zlen (failures l)) with (k + (1 + zlen (failures l))) by lia. destruct (Z.eqb_spec (k + (1 + zlen (failures l))) (g_threshold cfg)) as [E|]; [|done]. cbn [andb].
      destruct (failures l) as [|t' times]; [change (zlen []) with 0 in E; lia|done].
  - change (failures (Asked r :: l)) with (failures l) in *. cbn [alone_run foldl alone_step]. rewrite Hb. cbn [Z.ltb Z.compare andb]. by apply IH.
Qed.

Lemma alone_run_app key addr v l l' : alone_run key addr v (l ++ l') = alone_run key addr (alone_run key addr v l) l'.
Proof. apply foldl_app. Qed.

Lemma after_success key addr past : past = [] \/ List.last past (Asked 0) = Succeeded -> alone_run key addr (IpbanSlot key addr 0 0 0) past = IpbanSlot key addr 0 0 0.
Proof.
  intros Hp. destruct past as [|x past _] using rev_ind; [done|]. destruct Hp as [Hp|Hp]; [by destruct past|]. rewrite List.last_last in Hp. subst x.
  unfold alone_run. by rewrite foldl_app.
Qed.

(** ** Only its own failures ban an address *)

(** The counters of an entry come from failures of its address. *)
Definition earned (own_fails : list Z) (s : ipban_slot) : Prop :=
  0 <= is_fails s <= zlen own_fails /\
  (0 < is_banned_until s -> g_threshold cfg <= zlen own_fails /\ exists t, t ∈ own_fails /\ is_banned_until s = t + g_duration_sec cfg).
Definition all_earned (key : Z) (addr : list Z) (own_fails : list Z) (t : ipban_table) : Prop :=
  length t = IPBAN_SLOTS /\ forall j, mine key addr (nth j t no_slot) -> earned own_fails (nth j t no_slot).

Lemma earned_fresh key addr fs : earned fs (IpbanSlot key addr 0 0 0).
Proof. split; cbn; [pose proof (zlen_nonneg fs)|]; lia. Qed.

Lemma earned_more fs t s : earned fs s -> earned (fs ++ [t]) s.
Proof.
  intros [Hf Hb]. unfold earned. rewrite zlen_app. change (zlen [t]) with 1. split; [lia|]. intros H. destruct (Hb H) as (H1 & t' & H2 & H3).
  split; [lia|]. exists t'. split; [|done]. apply elem_of_app. by left.
Qed.

Lemma u8_le x : 0 <= x -> 0 <= u8 x <= x.
Proof. intros H. unfold u8. Z.to_euclidean_division_equations. lia. Qed.

Lemma earned_counted fs now s : earned fs s -> earned (fs ++ [now]) (count_failure cfg now s).
Proof.
  intros H. pose proof (earned_more fs now s H) as Hmore. unfold count_failure. destruct (now <? is_banned_until s); [done|].
  set (s' := if _ || _ then _ else s). assert (Hs' : 0 <= is_fails s' <= zlen fs /\ is_banned_until s' = is_banned_until s).
  { destruct H as [Hf _]. unfold s'. destruct (_ || _); cbn; lia. }
  clearbody s'. destruct Hs' as [Hf Hb]. pose proof (u8_le (is_fails s' + 1) ltac:(lia)). split; cbn [is_fails is_banned_until].
  - rewrite zlen_app. change (zlen [now]) with 1. lia.
  - destruct (Z.leb_spec (g_threshold cfg) (u8 (is_fails s' + 1))); [|rewrite Hb; apply Hmore]. intros _. rewrite zlen_app. change (zlen [now]) with 1.
    split; [lia|]. exists now. split; [|done]. apply elem_of_app. right. by left.
Qed.

Lemma all_earned_insert key addr fs t j s : all_earned key addr fs t -> (mine key addr s -> earned fs s) -> (j < IPBAN_SLOTS)%nat -> all_earned key addr fs (<[j := s]> t).
Proof.
  intros [Hl H] Hs Hj. split; [by rewrite length_insert|]. intros i. rewrite nth_insert_slot by done. destruct (decide (i = j)); [done|apply H].
Qed.

Lemma all_earned_more key addr fs t now : all_earned key addr fs t -> all_earned key addr (fs ++ [now]) t.
Proof. intros [Hl H]. split; [done|]. intros j Hj. by apply earned_more, H. Qed.

Lemma slot_for_earned key addr fs t key' addr' insert j t' : all_earned key addr fs t -> key' <> 0 -> slot_for t key' addr' insert = (Some j, t') ->
  all_earned key addr fs t' /\ mine key' addr' (nth j t' no_slot) /\ (j < IPBAN_SLOTS)%nat.
Proof.
  intros H Hkey'. unfold slot_for. destruct (walk_stripe key' addr' t) as [|[i|i|]] eqn:E; [done| | |done].
  - intros [= -> <-]. split; [done|]. split; [exact (found_slot _ _ _ _ E)|]. apply (walk_target key' addr' t). by left.
  - destruct insert; [|done]. intros [= -> <-]. assert (Hj : (j < IPBAN_SLOTS)%nat) by (apply (walk_target key' addr' t); by right). split.
    + apply all_earned_insert; [done| |done]. intros _. apply earned_fresh.
    + split; [|done]. exact (found_slot _ _ _ _ (new_found _ _ _ _ (proj1 H) Hkey' E)).
Qed.

Lemma event_earned key addr fs t e : key <> 0 -> all_earned key addr fs t ->
  all_earned key addr (fs ++ match own key addr e with Some (Failed now) => [now] | _ => [] end) (ip_step cfg t e).
Proof.
  intros Hkey H. destruct e as [now s|s|now s]; cbn [ip_step own].
  - unfold ipban_note_failure. destruct (peer_key s) as [[addr' key']|] eqn:Es; [|by rewrite app_nil_r]. pose proof (peer_key_nonzero _ _ _ Es) as Hkey'.
    destruct (slot_for t key' addr' true) as [[j|] t1] eqn:E.
    + destruct (slot_for_earned _ _ _ _ _ _ _ _ _ H Hkey' E) as (H1 & Hm & Hj). destruct (decide ((addr', key') = (addr, key))) as [[= -> ->]|Hne].
      * rewrite bool_decide_eq_true_2 by done. apply all_earned_insert; [by apply all_earned_more| |done]. intros _. by apply earned_counted, H1.
      * rewrite bool_decide_eq_false_2, app_nil_r by congruence. apply all_earned_insert; [done| |done]. intros Hc%count_failure_mine. by destruct (others_mine _ _ _ _ _ Hm Hne).
    + assert (t1 = t) as -> by (unfold slot_for in E; by destruct (walk_stripe key' addr' t) as [|[]]; simplify_eq). destruct (bool_decide _); [by apply all_earned_more|by rewrite app_nil_r].
  - assert (Hs : all_earned key addr fs (ipban_note_success s t)); [|by destruct (bool_decide _); rewrite app_nil_r].
    unfold ipban_note_success. destruct (peer_key s) as [[addr' key']|] eqn:Es; [|done]. destruct (slot_for t key' addr' false) as [[j|] t1] eqn:E.
    + destruct (slot_for_earned _ _ _ _ _ _ _ _ _ H (peer_key_nonzero _ _ _ Es) E) as (H1 & Hm & Hj). apply all_earned_insert; [done| |done]. intros _. apply earned_fresh.
    + unfold slot_for in E. by destruct (walk_stripe key' addr' t) as [|[]]; simplify_eq.
  - assert (Hs : all_earned key addr fs (snd (ipban_middleware now s t))); [|by destruct (bool_decide _); rewrite app_nil_r].
    unfold ipban_middleware. destruct (peer_key s) as [[addr' key']|] eqn:Es; [|done]. destruct (slot_for t key' addr' false) as [[j|] t1] eqn:E.
    + destruct (slot_for_earned _ _ _ _ _ _ _ _ _ H (peer_key_nonzero _ _ _ Es) E) as (H1 & Hm & Hj). cbv zeta. destruct (0 <? _); [|done]. destruct (_ <=? now); [|done]. cbn [snd].
      apply all_earned_insert; [done| |done]. intros _. apply earned_fresh.
    + unfold slot_for in E. by destruct (walk_stripe key' addr' t) as [|[]]; simplify_eq.
Qed.

Lemma run_earned key addr es : key <> 0 -> forall fs t, all_earned key addr fs t -> all_earned key addr (fs ++ failures (own_events key addr es)) (ip_run cfg es t).
Proof.
  intros Hkey. induction es as [|e es IH]; intros fs t H; [by rewrite app_nil_r|]. cbn [ip_run foldl].
  replace (fs ++ failures (own_events key addr (e :: es))) with ((fs ++ match own key addr e with Some (Failed now) => [now] | _ => [] end) ++ failures (own_events key addr es)).
  - apply IH. by apply event_earned.
  - rewrite <- app_assoc. unfold own_events. cbn [omap list_omap]. by destruct (own key addr e) as [[]|].
Qed.

(** C21: Bans by address.  Whatever other addresses do, an address is refused only after at least
    [threshold] failures of its own, and only while one of them is less than the duration of a ban ago.  As
    long as each of its failures finds a slot in its stripe and no expired ban of another address is evicted
    from a slot its walk passes before its own entry ([undisturbed_run]; [ipban_hole_frees] shows what
    happens otherwise), the others do not matter at all: it is refused exactly as if it were the only
    address.  In that case, if since its last successful login it failed at most [threshold] times, all within
    one window, it is refused exactly when it failed [threshold] times and the last failure is less than the duration
    of a ban ago, whether or not it asked in between. *)
Theorem ipban_bans es s addr key now (Hthr : 1 <= g_threshold cfg <= 255) (Hdur : 0 <= g_duration_sec cfg) (Hpeer : peer_key s = Some (addr, key)) :
  let refused := fst (ipban_middleware now s (ip_run cfg es ipban_init)) in
  let itself := own_events key addr es in
  (refused = true -> g_threshold cfg <= zlen (failures itself) /\ exists t, t ∈ failures itself /\ now < t + g_duration_sec cfg) /\
  (undisturbed_run key addr es ipban_init = true ->
   refused = banned_at now (alone_run key addr (IpbanSlot key addr 0 0 0) itself) /\
   forall past recent first, itself = past ++ recent -> (past = [] \/ List.last past (Asked 0) = Succeeded) -> Forall (asked_before now) recent ->
     (head (failures recent) = Some first \/ failures recent = []) -> Forall (fun t => 0 < t /\ first <= t <= first + g_window_sec cfg) (failures recent) ->
     zlen (failures recent) <= g_threshold cfg ->
     refused = (zlen (failures recent) =? g_threshold cfg) && (now <? List.last (failures recent) 0 + g_duration_sec cfg)).
Proof.
  intros refused itself. pose proof (peer_key_nonzero _ _ _ Hpeer) as Hkey. pose proof (middleware_view now s addr key (ip_run cfg es ipban_init) Hpeer) as Href. fold refused in Href.
  split.
  - rewrite Href. unfold banned_at. intros [Hb Hn]%andb_true_iff. apply Z.ltb_lt in Hb, Hn.
    assert (H0 : all_earned key addr [] ipban_init).
    { split; [unfold ipban_init; apply length_replicate|]. intros j [Hk _]. rewrite nth_init in Hk. by destruct Hkey. }
    destruct (run_earned key addr es Hkey _ _ H0) as [_ Hall]. cbn [app] in Hall. fold itself in Hall.
    destruct (found_or_not key addr (ip_run cfg es ipban_init)) as [[j Hj]|Hno]; [|rewrite (view_none _ _ _ Hno) in Hb; cbn in Hb; lia].
    rewrite (view_found _ _ _ _ Hj) in Hb, Hn. destruct (Hall j (found_slot _ _ _ _ Hj)) as [_ Hbanned]. destruct (Hbanned Hb) as (H1 & t & Ht & E).
    split; [done|]. exists t. split; [done|lia].
  - intros Hun. destruct (ip_run_spec es key addr Hkey _ (findable_init _ _ Hkey) Hun) as [_ Hview].
    assert (Hstart : view key addr ipban_init = IpbanSlot key addr 0 0 0).
    { apply view_none. intros j Hj. destruct (found_slot _ _ _ _ Hj) as [Hk _]. rewrite nth_init in Hk. by destruct Hkey. }
    rewrite Hstart in Hview. fold itself in Hview. rewrite Hview in Href. split; [exact Href|]. intros past recent first E Hpast Hrecent Hfirst Htimes Hlen.
    rewrite Href, E, alone_run_app, after_success by done. apply (count_run key addr now first recent Hthr Hdur Hrecent Htimes _ 0); cbn; first [done|lia|by intros _|intros; lia].
Qed.
End contract.

Definition default_config : ipban_config := IpbanConfig 5 600 3600.
Definition host (c d : Z) : sockaddr := Sock_inet [10; 0; c; d].
Definition fails (now : Z) (s : sockaddr) : list ip_event := replicate 5 (Failure now s).

Lemma ipban_bans_witness :
  let es := Failure 900 (host 0 1) :: Success (host 0 1) :: fails 900 (host 7 7) ++ Failure 950 (host 19 88) :: fails 1000 (host 0 1) ++ [Request 2000 (host 0 1); Request 4550 (host 7 7)] in
  map (fun now => fst (ipban_middleware now (host 0 1) (ip_run default_config es ipban_init))) [4599; 4600] = [true; false].
Proof.
  intros es. cbn [map].
  assert (H : forall now, 4000 <= now -> fst (ipban_middleware now (host 0 1) (ip_run default_config es ipban_init)) = (now <? 4600)).
  { intros now Hnow. destruct (peer_key (host 0 1)) as [[addr key]|] eqn:E; [|by vm_compute in E].
    destruct (ipban_bans default_config es (host 0 1) addr key now ltac:(cbn; lia) ltac:(cbn; lia) E) as [_ H].
    assert (Hun : undisturbed_run default_config key addr es ipban_init = true) by (vm_compute in E; injection E as <- <-; by vm_compute).
    assert (Hown : own_events key addr es = [Failed 900; Succeeded] ++ replicate 5 (Failed 1000) ++ [Asked 2000]) by (vm_compute in E; injection E as <- <-; by vm_compute).
    destruct (H Hun) as [_ Hexact]. rewrite (Hexact [Failed 900; Succeeded] (replicate 5 (Failed 1000) ++ [Asked 2000]) 1000 Hown).
    - done.
    - by right.
    - repeat constructor; cbn; lia.
    - by left.
    - repeat constructor; cbn; lia.
    - vm_compute. discriminate. }
  by rewrite !H by lia.
Defined.

(** An expired ban may free a banned address.  Two addresses share a stripe and the start of their
    walks.  Both are banned, the first until 4600, the second until 6600; the first request of the
    first address after its ban empties its slot, the walk of the second ends there, and its requests
    pass although its ban is still in the table. *)
Theorem ipban_hole_frees :
  let banned := ip_run default_config (fails 1000 (host 0 1) ++ fails 3000 (host 19 88)) ipban_init in
  let evicted := ip_run default_config [Request 5000 (host 0 1)] banned in
  fst (ipban_middleware 5001 (host 19 88) banned) = true /\
  fst (ipban_middleware 5001 (host 19 88) evicted) = false /\
  ipban_banned_count 5001 evicted = 1%nat.
Proof. vm_compute. repeat split. Qed.
