(* ===== verification/Community.v ===== *)
(** * The optional community features (src/src/engine/community.c)

    [community.settings] is a text of lines [key = value], read once at the start; a value that is not
    a boolean, or a line without [=], turns every feature off. *)
From S2P Require Import Prelude CStr.

Record community_config := Community {
  cc_roles : bool;
  cc_new_user_limits : bool;
  cc_trust : bool;
  cc_spam_detection : bool;
  cc_approval_queue : bool;
  cc_board_delegations : bool;
}.
Definition community_off : community_config := Community false false false false false false.

Definition parse_bool (value : cstr) : option bool :=
  if strcaseeq value (CS "true") || streq value (CS "1") then Some true
  else if strcaseeq value (CS "false") || streq value (CS "0") then Some false
  else None.

Definition blank (c : Z) : bool := (c =? 32) || (c =? 9).
Definition line_end (c : Z) : bool := (c =? 13) || (c =? 10).

(** The feature of a key, set to [b]. *)
Definition set_feature (key : cstr) (b : bool) (c : community_config) : option community_config :=
  if streq key (CS "roles") then Some (Community b (cc_new_user_limits c) (cc_trust c) (cc_spam_detection c) (cc_approval_queue c) (cc_board_delegations c))
  else if streq key (CS "new_user_limits") then Some (Community (cc_roles c) b (cc_trust c) (cc_spam_detection c) (cc_approval_queue c) (cc_board_delegations c))
  else if streq key (CS "trust") then Some (Community (cc_roles c) (cc_new_user_limits c) b (cc_spam_detection c) (cc_approval_queue c) (cc_board_delegations c))
  else if streq key (CS "spam_detection") then Some (Community (cc_roles c) (cc_new_user_limits c) (cc_trust c) b (cc_approval_queue c) (cc_board_delegations c))
  else if streq key (CS "approval_queue") then Some (Community (cc_roles c) (cc_new_user_limits c) (cc_trust c) (cc_spam_detection c) b (cc_board_delegations c))
  else if streq key (CS "board_delegations") then Some (Community (cc_roles c) (cc_new_user_limits c) (cc_trust c) (cc_spam_detection c) (cc_approval_queue c) b)
  else None.

(** One line: the features and whether the file is still in order. *)
Definition config_line (line : cstr) (c : community_config) (ok : bool) : community_config * bool :=
  match skip blank line with
  | [] => (c, ok)
  | (first :: _) as p =>
      if line_end first || (first =? CH "#") then (c, ok)
      else
        let p := fst (span (fun c => negb (line_end c)) p) in
        match strchr p (CH "=") with
        | None => (c, false)
        | Some (key, eq_value) =>
            let key := trim_end blank key in
            let value := trim_end blank (skip blank (drop 1 eq_value)) in
            match set_feature key false c with
            | None => (c, ok)
            | Some _ =>
                match parse_bool value with
                | Some b => (default c (set_feature key b c), ok)
                | None => (c, false)
                end
            end
        end
  end.

Fixpoint config_lines (fuel : nat) (text : cstr) (c : community_config) (ok : bool) : community_config * bool :=
  match fuel with
  | O => (c, ok)
  | S fuel =>
      match fgets 256 text with
      | None => (c, ok)
      | Some (line, rest) => let '(c, ok) := config_line line c ok in config_lines fuel rest c ok
      end
  end.

(** [text] is the file, [None] when it cannot be opened; every line consumes a byte. *)
Definition community_config_load (text : option cstr) : bool * community_config :=
  match text with
  | None => (true, community_off)
  | Some text =>
      let '(c, ok) := config_lines (S (length text)) text community_off true in
      if ok then (true, c) else (false, community_off)
  end.

Definition community_roles_enabled (c : community_config) : bool := cc_roles c.
Definition community_role_can_moderate (c : community_config) (role : cstr) : bool :=
  streq role (CS "admin") || (cc_roles c && streq role (CS "moderator")).

(** ** Malformed settings turn everything off *)

Lemma community_config_fails_closed text : fst (community_config_load text) = false -> snd (community_config_load text) = community_off.
Proof. unfold community_config_load. destruct text as [text|]; [|done]. by destruct (config_lines _ _ _ _) as [c [|]]. Qed.

(** The settings as the documentation writes them. *)
Definition feature_lines (c : community_config) : list (list Z * bool) :=
  [(CS "roles", cc_roles c); (CS "new_user_limits", cc_new_user_limits c); (CS "trust", cc_trust c);
   (CS "spam_detection", cc_spam_detection c); (CS "approval_queue", cc_approval_queue c); (CS "board_delegations", cc_board_delegations c)].
Definition settings_text (c : community_config) : cstr :=
  concat (map (fun '(k, b) => k ++ CS "=" ++ (if b : bool then CS "true" else CS "false") ++ [10]) (feature_lines c)).

Lemma community_config_reads_back c : community_config_load (Some (settings_text c)) = (true, c).
Proof. destruct c as [[|] [|] [|] [|] [|] [|]]; vm_compute; reflexivity. Qed.
