(* ===== verification/Auth.v ===== *)
(** * Accounts, passwords and sessions (src/src/auth/auth.c)

    Passwords are hashed with Argon2id or PBKDF2 behind SHA-512; a session is a signed token in a
    cookie or a bearer header, and every request reads the account of its token.  Functions that
    write through pointers return the values of their targets.  OpenSSL's hashes and cwist's tokens
    are parameters; a token's claims are a function from names to the strings they hold. *)
From S2P Require Import Prelude CStr Community.

Definition CLIENT_NONCE : cstr := CS "fly.board".
Definition SESSION_COOKIE_NAME : cstr := CS "docker_blog_session".
Definition PBKDF2_ITERATIONS : Z := 100000.
Definition AUTH_SESSION_LIFETIME : Z := 43200.
Definition AUTH_TIME_LEEWAY_SECONDS : Z := 300.

Definition auth_constant_time_streq (a b : cstr) : bool := (zlen a =? zlen b) && streq a b.

(** [%02x] of every byte. *)
Definition hex_text (bytes : list Z) : cstr := concat (map hex_byte bytes).

Definition auth_hex_val (c : Z) : Z :=
  if isdigit c then c - CH "0"
  else if (CH "a" <=? c) && (c <=? CH "f") then c - CH "a" + 10
  else if (CH "A" <=? c) && (c <=? CH "F") then c - CH "A" + 10
  else -1.

(** [sscanf(s, "%02x", &byte)]: blanks, then at most two characters, a sign or hexadecimal digits
    ([0x] reads as 0 here). *)
Definition scan_byte (s : cstr) : option Z :=
  match skip isspace s with
  | a :: rest =>
      if (a =? CH "+") || (a =? CH "-") then
        match rest with
        | b :: _ => if auth_hex_val b <? 0 then None else Some (if a =? CH "-" then u8 (- auth_hex_val b) else auth_hex_val b)
        | [] => None
        end
      else if auth_hex_val a <? 0 then None
      else match rest with
           | b :: _ => Some (if auth_hex_val b <? 0 then auth_hex_val a else 16 * auth_hex_val a + auth_hex_val b)
           | [] => Some (auth_hex_val a)
           end
  | [] => None
  end.
(** [n] bytes, two characters apart. *)
Fixpoint scan_bytes (n : nat) (s : cstr) : option (list Z) :=
  match n with
  | O => Some []
  | S n =>
      match scan_byte s with
      | None => None
      | Some b => match scan_bytes n (drop 2 s) with Some bs => Some (b :: bs) | None => None end
      end
  end.

Section auth.
(** SHA-512; the derivations of a password, a salt and their costs. *)
Context (sha512 : list Z -> list Z).
Context (pbkdf2 : list Z -> list Z -> Z -> list Z).
(** [None] when the library has no Argon2id. *)
Context (argon2id : list Z -> list Z -> Z * Z * Z * Z -> option (list Z)).

Definition sha512_hex (input : cstr) : cstr := hex_text (sha512 input).
(** [snprintf(combined, 512, "%s%s", CLIENT_NONCE, s)], hashed. *)
Definition prehash (s : cstr) : cstr := sha512_hex (snprintf_s 512 (CLIENT_NONCE ++ s)).

(** ** Password hashes *)

Definition pbkdf2_hash_create (salt : list Z) (password : cstr) : cstr :=
  hex_text salt ++ CS ":" ++ print_int PBKDF2_ITERATIONS ++ CS ":" ++ hex_text (pbkdf2 password salt PBKDF2_ITERATIONS).

Definition pbkdf2_hash_verify (password hash : cstr) : bool :=
  let buf := snprintf_s 256 hash in
  match strchr buf (CH ":") with
  | Some (salt_hex, _ :: rest) =>
      match strchr rest (CH ":") with
      | Some (iter, _ :: key_hex) =>
          let iterations := atoi iter in
          if negb (zlen salt_hex =? 32) || (iterations <=? 0) || negb (zlen key_hex =? 64) then false
          else match scan_bytes 16 salt_hex with
               | Some salt => auth_constant_time_streq (hex_text (pbkdf2 password salt iterations)) key_hex
               | None => false
               end
      | _ => false
      end
  | _ => false
  end.

(** Version, memory, iterations and lanes. *)
Definition argon2_costs : Z * Z * Z * Z := (19, 65536, 3, 4).

Definition argon2id_hash_create (salt salt16 : list Z) (password : cstr) : cstr :=
  match argon2id password salt argon2_costs with
  | None => pbkdf2_hash_create salt16 password
  | Some key => CS "$argon2id$v=19$m=65536,t=3,p=4$" ++ hex_text salt ++ CS "$" ++ hex_text key
  end.

(** [sscanf] with ["$argon2id$v=%u$m=%u,t=%u,p=%u$%64[^$]$%128s"]; the numbers of a hash have no
    sign. *)
Definition scan_literal (lit s : cstr) : option cstr := if starts_with lit s then Some (drop (length lit) s) else None.
Definition scan_unsigned (s : cstr) : option (Z * cstr) :=
  match skip isspace s with
  | c :: r => if isdigit c then let '(n, r) := digits (c :: r) 0 in Some (u32 n, r) else None
  | [] => None
  end.
Definition scan_salt (s : cstr) : option (cstr * cstr) :=
  let n := Nat.min 64 (length (fst (span (fun c => negb (c =? CH "$")) s))) in
  match n with O => None | _ => Some (take n s, drop n s) end.
Definition scan_word (s : cstr) : option cstr :=
  match take 128 (fst (span (fun c => negb (isspace c)) (skip isspace s))) with [] => None | w => Some w end.

Definition scan_argon2 (s : cstr) : option ((Z * Z * Z * Z) * cstr * cstr) :=
  s ← scan_literal (CS "$argon2id$v=") s; '(version, s) ← scan_unsigned s;
  s ← scan_literal (CS "$m=") s; '(memcost, s) ← scan_unsigned s;
  s ← scan_literal (CS ",t=") s; '(iter, s) ← scan_unsigned s;
  s ← scan_literal (CS ",p=") s; '(lanes, s) ← scan_unsigned s;
  s ← scan_literal (CS "$") s; '(salt, s) ← scan_salt s;
  s ← scan_literal (CS "$") s; key ← scan_word s;
  Some ((version, memcost, iter, lanes), salt, key).

Definition argon2id_hash_verify (password hash : cstr) : bool :=
  match scan_argon2 hash with
  | None => false
  | Some (costs, salt_hex, key_hex) =>
      match scan_bytes 32 salt_hex with
      | None => false
      | Some salt =>
          match argon2id password salt costs with
          | None => false
          | Some derived => auth_constant_time_streq (hex_text derived) key_hex
          end
      end
  end.

(** [cap] is the size of the caller's buffer. *)
Definition auth_hash_password (salt salt16 : list Z) (password : cstr) (cap : nat) : cstr :=
  snprintf_s cap (argon2id_hash_create salt salt16 (prehash password)).

Definition verify_raw_hash_candidate (candidate hash : cstr) : bool :=
  if starts_with (CS "$argon2id$") hash then argon2id_hash_verify candidate hash else pbkdf2_hash_verify candidate hash.

(** What a client may send: the password, or its hash. *)
Definition auth_verify_password (password hash : cstr) : bool :=
  verify_raw_hash_candidate (prehash password) hash ||
  verify_raw_hash_candidate (prehash (prehash password)) hash ||
  verify_raw_hash_candidate password hash.

(** ** The account of admin.settings *)

Record admin_state := Admin { g_admin_id : cstr; g_admin_pw : cstr; g_admin_plain_pw : cstr }.

Definition strip_line (line : cstr) : cstr := trim_end (fun c => (c =? 13) || (c =? 10)) line.
Definition strip_key (key line : cstr) : cstr := if starts_with key line then drop (length key) line else line.

(** [file] is the text of the settings; without one the default account is written. *)
Definition auth_admin_load (file : option cstr) (st : admin_state) : bool * admin_state * option cstr :=
  match file with
  | None => (true, Admin (CS "admin") (prehash (CS "fly.board")) (CS "fly.board"), Some (CS "admin" ++ [10] ++ CS "fly.board" ++ [10]))
  | Some text =>
      let '(id, rest) := match fgets 64 text with Some (line, rest) => (strip_line line, rest) | None => (g_admin_id st, []) end in
      let plain := match fgets 128 rest with Some (line, _) => strip_line line | None => [] end in
      let id := strip_key (CS "id=") id in
      let plain := strip_key (CS "pw=") plain in
      let st := Admin id (prehash plain) (snprintf_s 128 plain) in
      (negb (streq id []) && (negb (streq (g_admin_pw st) []) || negb (streq (g_admin_plain_pw st) [])), st, file)
  end.

Definition auth_admin_check (username password : cstr) (st : admin_state) : bool :=
  if streq (g_admin_id st) [] then false
  else if negb (auth_constant_time_streq username (g_admin_id st)) then false
  else (negb (streq (g_admin_pw st) []) && auth_constant_time_streq password (g_admin_pw st)) ||
       (negb (streq (g_admin_plain_pw st) []) && auth_constant_time_streq password (g_admin_plain_pw st)) ||
       (negb (streq (g_admin_pw st) []) && auth_constant_time_streq (prehash password) (g_admin_pw st)).

Definition auth_admin_username (st : admin_state) : cstr := if streq (g_admin_id st) [] then CS "admin" else g_admin_id st.

(** The file is written and read back. *)
Definition auth_admin_update_password (current_pw new_pw : cstr) (st : admin_state) (file : option cstr) : bool * admin_state * option cstr :=
  if (zlen new_pw <? 6) then (false, st, file)
  else if negb (auth_admin_check (auth_admin_username st) current_pw st) then (false, st, file)
  else auth_admin_load (Some (auth_admin_username st ++ [10] ++ new_pw ++ [10])) st.

(** ** The secret of the tokens *)

(** [random] is the result of [RAND_bytes]; [writable] whether the file can be written. *)
Definition auth_jwt_init (file : option cstr) (random : option (list Z)) (writable : bool) : bool * cstr * option cstr :=
  let stored := match file with Some text => match fgets 65 text with Some (line, _) => strip_line line | None => [] end | None => [] end in
  if negb (streq stored []) then (true, stored, file)
  else match random with
       | None => (false, [], file)
       | Some bytes =>
           let secret := hex_text (take 32 bytes) in
           if writable then (true, secret, Some (secret ++ [10])) else (false, secret, file)
       end.
End auth.

(** ** Facts about hexadecimal text *)

Definition bytes (l : list Z) : Prop := Forall (fun b => 0 <= b < 256) l.

Lemma auth_hex_digit_val n : 0 <= n < 16 -> auth_hex_val (hex_digit n) = n /\ isspace (hex_digit n) = false /\ hex_digit n <> 43 /\ hex_digit n <> 45 /\
  hex_digit n <> 36 /\ hex_digit n <> 58.
Proof.
  intros Hn. unfold hex_digit, auth_hex_val, isspace, isdigit. destruct (Z.ltb_spec n 10).
  - rewrite !(proj2 (Z.leb_le _ _)) by lia. cbn [andb]. repeat split; lia.
  - rewrite (proj2 (Z.leb_gt (CH "a" + (n - 10)) 57)) by lia. rewrite andb_false_r, !(proj2 (Z.leb_le _ _)) by lia. cbn [andb].
    repeat split; lia.
Qed.

Lemma length_hex_text l : length (hex_text l) = (2 * length l)%nat.
Proof. unfold hex_text. induction l as [|b l IH]; [done|]. cbn in *. lia. Qed.

Lemma hex_text_chars l : bytes l -> Forall (fun c => isspace c = false /\ c <> CH "$" /\ c <> CH ":") (hex_text l).
Proof.
  intros H. induction H as [|b l Hb _ IH]; [constructor|]. unfold hex_text in *. cbn [map concat]. apply Forall_app. split; [|done].
  destruct (auth_hex_digit_val (b / 16)) as (_ & ? & _ & _ & ? & ?); [split; [apply Z.div_pos|apply Z.div_lt_upper_bound]; lia|].
  destruct (auth_hex_digit_val (b `mod` 16)) as (_ & ? & _ & _ & ? & ?); [apply Z.mod_pos_bound; lia|]. by repeat constructor.
Qed.

Lemma scan_byte_hex b rest : 0 <= b < 256 -> scan_byte (hex_byte b ++ rest) = Some b.
Proof.
  intros Hb. unfold scan_byte, hex_byte. cbn [app].
  destruct (auth_hex_digit_val (b / 16)) as (H1 & Hs & ? & ? & _); [split; [apply Z.div_pos|apply Z.div_lt_upper_bound]; lia|].
  destruct (auth_hex_digit_val (b `mod` 16)) as (H2 & _); [apply Z.mod_pos_bound; lia|].
  rewrite skip_none by (by intros ? ? [= <- _]). rewrite (proj2 (Z.eqb_neq _ 43)), (proj2 (Z.eqb_neq _ 45)) by done. cbn [orb]. rewrite H1, H2.
  pose proof (Z.div_pos b 16). pose proof (Z.mod_pos_bound b 16).
  rewrite (proj2 (Z.ltb_ge _ _)), (proj2 (Z.ltb_ge _ _)) by lia. f_equal. pose proof (Z.div_mod b 16). lia.
Qed.

Lemma scan_bytes_hex l rest : bytes l -> scan_bytes (length l) (hex_text l ++ rest) = Some l.
Proof.
  intros H. revert rest. induction H as [|b l Hb _ IH]; intros rest; [done|]. unfold hex_text in *. cbn [map concat length scan_bytes].
  rewrite <-app_assoc, scan_byte_hex by done. cbn [hex_byte app drop]. by rewrite drop_0, IH.
Qed.

Lemma hex_text_inj a b : bytes a -> bytes b -> hex_text a = hex_text b -> a = b.
Proof.
  intros Ha Hb E. assert (Hl : length a = length b) by (apply (f_equal length) in E; rewrite !length_hex_text in E; lia).
  pose proof (scan_bytes_hex a [] Ha) as H1. pose proof (scan_bytes_hex b [] Hb) as H2. rewrite E, Hl in H1. congruence.
Qed.

Lemma streq_hex a b : bytes a -> bytes b -> auth_constant_time_streq (hex_text a) (hex_text b) = bool_decide (a = b).
Proof.
  intros Ha Hb. unfold auth_constant_time_streq, streq, zlen. case_bool_decide as E.
  - rewrite E, Z.eqb_refl. symmetry. apply bool_decide_eq_true. by apply hex_text_inj.
  - rewrite andb_false_r. symmetry. apply bool_decide_eq_false. by intros ->.
Qed.

(** ** Passwords *)

Section passwords.
Context (sha512 : list Z -> list Z).
Context (pbkdf2 : list Z -> list Z -> Z -> list Z).
Context (argon2id : list Z -> list Z -> Z * Z * Z * Z -> option (list Z)).
Hypothesis (Hpbkdf2 : forall p s n, length (pbkdf2 p s n) = 32%nat /\ bytes (pbkdf2 p s n)).
Hypothesis (Hargon : forall p s costs key, argon2id p s costs = Some key -> length key = 64%nat /\ bytes key).

Abbreviation verify_raw := (verify_raw_hash_candidate pbkdf2 argon2id).

Lemma pbkdf2_verify salt p0 p : length salt = 16%nat -> bytes salt ->
  pbkdf2_hash_verify pbkdf2 p (pbkdf2_hash_create pbkdf2 salt p0) = bool_decide (pbkdf2 p salt PBKDF2_ITERATIONS = pbkdf2 p0 salt PBKDF2_ITERATIONS).
Proof.
  intros Hl Hs. unfold pbkdf2_hash_verify, pbkdf2_hash_create. cbv zeta. destruct (Hpbkdf2 p0 salt PBKDF2_ITERATIONS) as [Hkl Hk].
  assert (Hno : forall l, bytes l -> CH ":" ∉ hex_text l).
  { intros l Hb Hin. pose proof (hex_text_chars l Hb) as Hc. rewrite Forall_forall in Hc. by destruct (Hc _ Hin) as (_ & _ & ?). }
  rewrite snprintf_s_id by (rewrite !length_app, !length_hex_text, Hl, Hkl; vm_compute; lia).
  change (CS ":") with [CH ":"]. cbn [app]. rewrite strchr_app by auto. rewrite strchr_app by (by apply (bool_decide_unpack _); vm_compute).
  replace (atoi (print_int PBKDF2_ITERATIONS)) with PBKDF2_ITERATIONS by (by vm_compute).
  replace (zlen (hex_text salt)) with 32 by (unfold zlen; rewrite length_hex_text, Hl; done).
  replace (zlen (hex_text (pbkdf2 p0 salt PBKDF2_ITERATIONS))) with 64 by (unfold zlen; rewrite length_hex_text, Hkl; done).
  change (negb (32 =? 32) || (PBKDF2_ITERATIONS <=? 0) || negb (64 =? 64)) with false. cbv iota.
  replace (scan_bytes 16 (hex_text salt)) with (Some salt) by (pose proof (scan_bytes_hex salt [] Hs) as H; rewrite app_nil_r, Hl in H; by rewrite H).
  apply streq_hex; [apply Hpbkdf2|done].
Qed.

Lemma scan_salt_hex l rest : bytes l -> (0 < length l <= 32)%nat -> (forall c s, rest = c :: s -> c = CH "$") ->
  scan_salt (hex_text l ++ rest) = Some (hex_text l, rest).
Proof.
  intros Hb Hl Hr. unfold scan_salt. cbv zeta. rewrite (span_stop _ (hex_text l) rest); cycle 1.
  - apply forallb_forall. intros c Hc. apply list_elem_of_In in Hc. pose proof (hex_text_chars l Hb) as H. rewrite Forall_forall in H.
    destruct (H c Hc) as (_ & ? & _). by apply negb_true_iff, Z.eqb_neq.
  - intros c s E. by rewrite (Hr c s E).
  - cbn [fst]. rewrite Nat.min_r by (rewrite length_hex_text; lia). rewrite take_app_length, drop_app_length.
    pose proof (length_hex_text l). destruct (length (hex_text l)); [lia|done].
Qed.

Lemma scan_word_hex l : bytes l -> length l = 64%nat -> scan_word (hex_text l) = Some (hex_text l).
Proof.
  intros Hb Hl. unfold scan_word. pose proof (hex_text_chars l Hb) as H. pose proof (length_hex_text l) as Hlen. rewrite skip_none.
  - rewrite <-(app_nil_r (hex_text l)) at 1. rewrite (span_stop _ (hex_text l) []); [|apply forallb_forall; intros c Hc; apply list_elem_of_In in Hc|done].
    + cbn [fst]. rewrite take_ge by lia. destruct (hex_text l); [cbn in Hlen; lia|done].
    + rewrite Forall_forall in H. by destruct (H c Hc) as (-> & _).
  - intros c s E. rewrite E in H. by apply Forall_cons in H as [(? & _) _].
Qed.

Lemma argon2id_verify salt salt16 p0 p key : length salt = 32%nat -> bytes salt -> argon2id p0 salt argon2_costs = Some key ->
  argon2id_hash_verify argon2id p (argon2id_hash_create pbkdf2 argon2id salt salt16 p0) = bool_decide (argon2id p salt argon2_costs = Some key).
Proof.
  intros Hl Hs Hk. destruct (Hargon _ _ _ _ Hk) as [Hkl Hkb]. unfold argon2id_hash_verify, argon2id_hash_create. rewrite Hk.
  assert (E : scan_argon2 (CS "$argon2id$v=19$m=65536,t=3,p=4$" ++ hex_text salt ++ CS "$" ++ hex_text key) = Some (argon2_costs, hex_text salt, hex_text key)).
  { assert (H1 : scan_salt (hex_text salt ++ CS "$" ++ hex_text key) = Some (hex_text salt, CS "$" ++ hex_text key)).
    { apply scan_salt_hex; [done|lia|]. by intros ? ? [= <- _]. }
    unfold scan_argon2. cbn -[scan_salt scan_word hex_text]. rewrite drop_0. cbn [app] in H1. rewrite H1.
    cbn -[scan_salt scan_word hex_text]. by rewrite drop_0, scan_word_hex. }
  rewrite E. replace (scan_bytes 32 (hex_text salt)) with (Some salt) by (pose proof (scan_bytes_hex salt [] Hs) as H; rewrite app_nil_r, Hl in H; by rewrite H).
  destruct (argon2id p salt argon2_costs) as [d|] eqn:Ed; [|done]. destruct (Hargon _ _ _ _ Ed). rewrite streq_hex by done. apply bool_decide_ext. naive_solver.
Qed.

Lemma pbkdf2_not_argon salt p : length salt = 16%nat -> bytes salt -> starts_with (CS "$argon2id$") (pbkdf2_hash_create pbkdf2 salt p) = false.
Proof.
  intros Hl Hs. pose proof (hex_text_chars salt Hs) as H. pose proof (length_hex_text salt) as Hlen. unfold pbkdf2_hash_create.
  destruct (hex_text salt) as [|c h]; [cbn in Hlen; lia|]. apply Forall_cons in H as [(_ & Hc & _) _]. cbn [app starts_with].
  by rewrite (proj2 (Z.eqb_neq _ _)) by (by intros <-).
Qed.

(** The key a candidate derives with the costs and the salt of a stored hash. *)
Definition derive (salt salt16 : list Z) (p0 candidate : cstr) : option (list Z) :=
  match argon2id (prehash sha512 p0) salt argon2_costs with
  | Some _ => argon2id candidate salt argon2_costs
  | None => Some (pbkdf2 candidate salt16 PBKDF2_ITERATIONS)
  end.

Lemma verify_derives salt salt16 p0 p (cap : nat) :
  length salt = 32%nat -> bytes salt -> length salt16 = 16%nat -> bytes salt16 -> (224 < cap)%nat ->
  auth_verify_password sha512 pbkdf2 argon2id p (auth_hash_password sha512 pbkdf2 argon2id salt salt16 p0 cap) = true <->
  derive salt salt16 p0 (prehash sha512 p) = derive salt salt16 p0 (prehash sha512 p0) \/
  derive salt salt16 p0 (prehash sha512 (prehash sha512 p)) = derive salt salt16 p0 (prehash sha512 p0) \/
  derive salt salt16 p0 p = derive salt salt16 p0 (prehash sha512 p0).
Proof.
  intros Hl Hs Hl16 Hs16 Hcap.
  enough (H : forall c, verify_raw c (auth_hash_password sha512 pbkdf2 argon2id salt salt16 p0 cap) = true <->
    derive salt salt16 p0 c = derive salt salt16 p0 (prehash sha512 p0)).
  { unfold auth_verify_password. rewrite !orb_true_iff, !H. tauto. }
  intros c. unfold auth_hash_password, derive. destruct (argon2id (prehash sha512 p0) salt argon2_costs) as [key|] eqn:Ek.
  - assert (Hlen : (length (argon2id_hash_create pbkdf2 argon2id salt salt16 (prehash sha512 p0)) = 224)%nat).
    { unfold argon2id_hash_create. rewrite Ek, !length_app, !length_hex_text, Hl, (proj1 (Hargon _ _ _ _ Ek)). done. }
    rewrite snprintf_s_id by lia. unfold verify_raw_hash_candidate.
    replace (starts_with _ _) with true by (symmetry; unfold argon2id_hash_create; rewrite Ek; done).
    rewrite (argon2id_verify salt salt16 _ c key) by done. by rewrite bool_decide_eq_true.
  - unfold argon2id_hash_create. rewrite Ek.
    assert (Hlen : (length (pbkdf2_hash_create pbkdf2 salt16 (prehash sha512 p0)) = 104)%nat).
    { unfold pbkdf2_hash_create. rewrite !length_app, !length_hex_text, Hl16, (proj1 (Hpbkdf2 _ _ _)). done. }
    rewrite snprintf_s_id by lia. unfold verify_raw_hash_candidate.
    replace (starts_with _ _) with false; [|symmetry; by apply pbkdf2_not_argon].
    rewrite (pbkdf2_verify salt16 _ c) by done. rewrite bool_decide_eq_true. split; [by intros ->|by intros [=]].
Qed.

(** C19: A stored hash checks a password by comparing derived keys: the password that was hashed is
    accepted, and another one only when what a client may send for it - the password, its hash, or the
    hash of its hash - derives the key of the stored one. *)
Theorem auth_password_exact salt salt16 p0 p (cap : nat) :
  length salt = 32%nat -> bytes salt -> length salt16 = 16%nat -> bytes salt16 -> (224 < cap)%nat ->
  let hash := auth_hash_password sha512 pbkdf2 argon2id salt salt16 p0 cap in
  auth_verify_password sha512 pbkdf2 argon2id p0 hash = true /\
  (auth_verify_password sha512 pbkdf2 argon2id p hash = true <->
   derive salt salt16 p0 (prehash sha512 p) = derive salt salt16 p0 (prehash sha512 p0) \/
   derive salt salt16 p0 (prehash sha512 (prehash sha512 p)) = derive salt salt16 p0 (prehash sha512 p0) \/
   derive salt salt16 p0 p = derive salt salt16 p0 (prehash sha512 p0)).
Proof. intros Hl Hs Hl16 Hs16 Hcap. cbv zeta. rewrite !verify_derives by done. split; [by left|done]. Qed.

End passwords.

(** Functions with outputs of the right lengths. *)
Definition demo_out (n : nat) (l : list Z) : list Z := map u8 (take n (rev l ++ replicate n 0)).
Lemma demo_out_bytes n l : bytes (demo_out n l).
Proof. apply Forall_map, Forall_forall. intros x _. apply u8_range. Qed.
Lemma length_demo_out n l : length (demo_out n l) = n.
Proof. unfold demo_out. rewrite length_map, length_take, length_app, length_replicate. lia. Qed.

Lemma auth_password_exact_witness :
  let hash := auth_hash_password (demo_out 64) (fun p s n => demo_out 32 p) (fun p s c => Some (demo_out 64 (rev p))) (replicate 32 7) (replicate 16 9) (CS "hunter2") 256 in
  auth_verify_password (demo_out 64) (fun p s n => demo_out 32 p) (fun p s c => Some (demo_out 64 (rev p))) (CS "hunter2") hash = true /\
  auth_verify_password (demo_out 64) (fun p s n => demo_out 32 p) (fun p s c => Some (demo_out 64 (rev p))) (CS "hunter3") hash <> true.
Proof.
  pose proof (fun p => auth_password_exact (demo_out 64) (fun p s n => demo_out 32 p) (fun p s c => Some (demo_out 64 (rev p)))
    (fun p s n => conj (length_demo_out 32 p) (demo_out_bytes 32 p))
    (fun p s c key H => match H in _ = k return (match k with Some key => length key = 64%nat /\ bytes key | None => True end) with eq_refl => conj (length_demo_out 64 (rev p)) (demo_out_bytes 64 (rev p)) end)
    (replicate 32 7) (replicate 16 9) (CS "hunter2") p 256 eq_refl
    ltac:(repeat constructor; done) eq_refl ltac:(repeat constructor; done) ltac:(lia)) as H.
  cbv zeta in H |- *. split; [exact (proj1 (H []))|]. intros E. destruct (proj1 (proj2 (H (CS "hunter3"))) E) as [E'|[E'|E']]; vm_compute in E'; discriminate E'.
Defined.

(** ** The administrator's password *)

Section admin.
Context (sha512 : list Z -> list Z).
Hypothesis (Hsha : forall x, length (sha512 x) = 64%nat).

Lemma prehash_not_empty s : prehash sha512 s <> [].
Proof. unfold prehash, sha512_hex. pose proof (length_hex_text (sha512 (snprintf_s 512 (CLIENT_NONCE ++ s)))) as H. rewrite Hsha in H. by destruct (hex_text _). Qed.

(** A line [fgets] reads back as it was written. *)
Definition line_ok (cap : nat) (line : cstr) : Prop := line <> [] /\ (length line + 1 < cap)%nat /\ Forall (fun c => c <> 10 /\ c <> 13) line.

Lemma strip_line_ok cap line rest : line_ok cap line -> exists l r, fgets cap (line ++ 10 :: rest) = Some (l, r) /\ strip_line l = line /\ r = rest.
Proof.
  intros (Hne & Hlen & Hc). exists (line ++ [10]), rest. split; [|split; [|done]].
  - apply fgets_line; [|lia]. intros Hin. rewrite Forall_forall in Hc. by destruct (Hc _ Hin).
  - unfold strip_line, trim_end. rewrite rev_app_distr. cbn [rev app]. unfold skip. cbn [span Z.eqb Pos.eqb orb]. cbn [snd].
    destruct (exists_last Hne) as (l & c & ->). apply Forall_app in Hc as [_ Hc]. apply Forall_cons in Hc as [[H10 H13] _].
    rewrite rev_app_distr. cbn [rev app span]. rewrite (proj2 (Z.eqb_neq c 13)), (proj2 (Z.eqb_neq c 10)) by done. cbn [orb snd rev].
    by rewrite rev_involutive.
Qed.

Lemma admin_load_written id pw st : line_ok 64 id -> line_ok 128 pw -> starts_with (CS "id=") id = false -> starts_with (CS "pw=") pw = false ->
  auth_admin_load sha512 (Some (id ++ [10] ++ pw ++ [10])) st = (true, Admin id (prehash sha512 pw) pw, Some (id ++ [10] ++ pw ++ [10])).
Proof.
  intros Hid Hpw Hi Hp. unfold auth_admin_load. destruct (strip_line_ok 64 id (pw ++ [10]) Hid) as (l & r & E & El & ->).
  cbn [app] in E |- *. rewrite E, El. destruct (strip_line_ok 128 pw [] Hpw) as (l' & r' & E' & El' & _). rewrite E', El'.
  unfold strip_key. rewrite Hi, Hp. cbn [g_admin_pw g_admin_plain_pw]. rewrite (snprintf_s_id 128 pw) by (destruct Hpw; lia).
  rewrite (proj2 (streq_neq id [])), (proj2 (streq_neq (prehash sha512 pw) [])) by (apply Hid || apply prehash_not_empty). done.
Qed.

Lemma admin_check_exact id pw q : id <> [] -> pw <> [] ->
  auth_admin_check sha512 id q (Admin id (prehash sha512 pw) pw) = true <-> q = prehash sha512 pw \/ q = pw \/ prehash sha512 q = prehash sha512 pw.
Proof.
  intros Hid Hpw. unfold auth_admin_check. cbn [g_admin_id g_admin_pw g_admin_plain_pw]. unfold auth_constant_time_streq.
  rewrite (proj2 (streq_neq id [])), (proj2 (streq_neq pw [])), (proj2 (streq_neq (prehash sha512 pw) [])), streq_refl, Z.eqb_refl by (done || apply prehash_not_empty).
  cbn [negb andb]. rewrite !orb_true_iff, !andb_true_iff, !streq_eq, !Z.eqb_eq.
  split; [intros [[[_ H]|[_ H]]|[_ H]]; auto|]. intros [-> |[-> |H]]; [by left; left|by left; right|right; by rewrite H].
Qed.

(** The administrator's new password is in force at once and after a restart, whatever was loaded
    before; a wrong or missing current password and a new one of fewer than six characters change
    nothing.  The new password must be one line that the settings file holds whole: at most 126
    characters, no line breaks, and no [pw=] at its start. *)
Theorem admin_update_persists st file cur new : line_ok 64 (g_admin_id st) -> line_ok 128 new ->
  starts_with (CS "id=") (g_admin_id st) = false -> starts_with (CS "pw=") new = false ->
  let allowed := (6 <=? zlen new) && auth_admin_check sha512 (auth_admin_username st) cur st in
  let '(ok, st', file') := auth_admin_update_password sha512 cur new st file in
  ok = allowed /\
  (if allowed then
     (forall q, auth_admin_check sha512 (auth_admin_username st) q st' = true <->
                q = prehash sha512 new \/ q = new \/ prehash sha512 q = prehash sha512 new) /\
     (forall st0, auth_admin_load sha512 file' st0 = (true, st', file'))
   else st' = st /\ file' = file).
Proof.
  intros Hid Hnew Hi Hp. cbv zeta. unfold auth_admin_update_password. rewrite Z.ltb_antisym.
  destruct (6 <=? zlen new); cbn [negb andb]; [|done].
  destruct (auth_admin_check sha512 (auth_admin_username st) cur st); cbn [negb]; [|done].
  assert (Hu : auth_admin_username st = g_admin_id st).
  { unfold auth_admin_username. rewrite (proj2 (streq_neq _ _)) by apply Hid. done. }
  rewrite Hu, admin_load_written by done. split; [done|]. split; [|by intros; apply admin_load_written].
  intros q. apply admin_check_exact; [apply Hid|apply Hnew].
Qed.

(** A new password of another form locks the administrator out: here its first three characters are
    not kept. *)
Lemma admin_update_drops_prefix st file cur new : line_ok 64 (g_admin_id st) -> starts_with (CS "id=") (g_admin_id st) = false ->
  auth_admin_check sha512 (auth_admin_username st) cur st = true -> line_ok 125 new -> 3 <= zlen new -> starts_with (CS "pw=") new = false ->
  exists st' file', auth_admin_update_password sha512 cur (CS "pw=" ++ new) st file = (true, st', file') /\ g_admin_plain_pw st' = new.
Proof.
  intros Hid Hi Hcur (Hn & Hlen & Hc) Hl Hp. unfold auth_admin_update_password. rewrite (proj2 (Z.ltb_ge _ _)) by (rewrite zlen_app; vm_compute (zlen (CS "pw=")); lia).
  rewrite Hcur. cbn [negb]. assert (Hu : auth_admin_username st = g_admin_id st).
  { unfold auth_admin_username. rewrite (proj2 (streq_neq _ _)) by apply Hid. done. }
  assert (Hpw : line_ok 128 (CS "pw=" ++ new)).
  { repeat split; [by destruct new|rewrite length_app; cbn [length]; lia|]. apply Forall_app; split; [by repeat constructor|done]. }
  rewrite Hu. unfold auth_admin_load. destruct (strip_line_ok 64 (g_admin_id st) ((CS "pw=" ++ new) ++ [10]) Hid) as (l & r & E & El & ->).
  cbn [app] in E |- *. rewrite E, El. destruct (strip_line_ok 128 _ [] Hpw) as (l' & r' & E' & El' & _). cbn [app] in E'. rewrite E', El'.
  unfold strip_key. rewrite Hi, starts_with_app. cbn [length drop app g_admin_pw g_admin_plain_pw]. rewrite drop_0, (snprintf_s_id 128 new) by lia.
  rewrite (proj2 (streq_neq (g_admin_id st) [])), (proj2 (streq_neq (prehash sha512 new) [])) by (apply Hid || apply prehash_not_empty).
  eexists _, _. split; [reflexivity|done].
Qed.

End admin.

Lemma admin_update_persists_witness :
  auth_admin_update_password (demo_out 64) (CS "fly.board") (CS "correct horse") (Admin (CS "admin") (prehash (demo_out 64) (CS "fly.board")) (CS "fly.board")) None =
  (true, Admin (CS "admin") (prehash (demo_out 64) (CS "correct horse")) (CS "correct horse"), Some (CS "admin" ++ [10] ++ CS "correct horse" ++ [10])) /\
  auth_admin_load (demo_out 64) (Some (CS "admin" ++ [10] ++ CS "correct horse" ++ [10])) (Admin [] [] []) =
  (true, Admin (CS "admin") (prehash (demo_out 64) (CS "correct horse")) (CS "correct horse"), Some (CS "admin" ++ [10] ++ CS "correct horse" ++ [10])).
Proof.
  pose proof (admin_update_persists (demo_out 64) (length_demo_out 64) (Admin (CS "admin") (prehash (demo_out 64) (CS "fly.board")) (CS "fly.board")) None (CS "fly.board") (CS "correct horse")
    ltac:(repeat split; [done|cbn; lia|by repeat constructor]) ltac:(repeat split; [done|cbn; lia|by repeat constructor]) eq_refl eq_refl) as H.
  split; [by vm_compute|]. vm_compute in H. destruct H as [_ [_ H]]. exact (H (Admin [] [] [])). 
Defined.
