(* ===== verification/AuthSession.v ===== *)
(** * Sessions and requests (src/src/auth/auth.c)

    A request carries its token in a cookie or in a bearer header.  Every candidate is verified and its
    account read; the identity is written through pointers as soon as a token is verified, so the
    result is a boolean with the values of the targets.  cwist's tokens are a parameter: the claims of
    a verified token are a function from names to strings.  The value of the Authorization header is
    the one cwist finds. *)
From S2P Require Import Prelude CStr Community Auth.

(** ** Cookies *)

Definition blank_or_end (c : Z) : bool := blank c || line_end c.
Definition quote : Z := 34.

Definition unquote (v : cstr) : cstr :=
  match v with
  | q :: r =>
      if (2 <=? zlen v) && (q =? quote) && (List.last r 0 =? quote) then take (length r - 1) r else v
  | [] => v
  end.

(** The next cookie: its name, its value, and the cursor after it. *)
Definition auth_cookie_iter_next (cursor : cstr) : option (cstr * cstr * cstr) :=
  let p := skip blank cursor in
  if streq p [] then None
  else
    let '(name, rest) := span (fun c => negb ((c =? CH "=") || (c =? CH ";"))) p in
    let name := trim_end blank name in
    let '(value, rest) :=
      match rest with
      | 61 :: r =>
          let '(value, r) := span (fun c => negb (c =? CH ";")) (skip blank r) in
          (unquote (trim_end blank_or_end value), r)
      | _ => ([], rest)
      end in
    Some (name, value, match rest with 59 :: r => r | _ => rest end).

Fixpoint cookies (fuel : nat) (cursor : cstr) : list (list Z * list Z) :=
  match fuel with
  | O => []
  | S fuel =>
      match auth_cookie_iter_next cursor with
      | None => []
      | Some (name, value, cursor) => (name, value) :: cookies fuel cursor
      end
  end.
(** Every step of the iterator consumes a byte. *)
Definition cookies_of (header : cstr) : list (list Z * list Z) := cookies (S (length header)) header.

Definition is_auth_cookie_name (name : cstr) : bool := streq name SESSION_COOKIE_NAME || streq name (CS "jwt_access").

Fixpoint url_decode (fuel : nat) (s : cstr) : list Z :=
  match fuel with
  | O => []
  | S fuel =>
      match s with
      | [] => []
      | c :: r =>
          let plain := (if (c =? CH "+") then CH " " else c) :: url_decode fuel r in
          if c =? CH "%" then
            match r with
            | a :: b :: r' =>
                if (0 <=? auth_hex_val a) && (0 <=? auth_hex_val b)
                then (16 * auth_hex_val a + auth_hex_val b) :: url_decode fuel r' else plain
            | _ => plain
            end
          else plain
      end
  end.
Definition url_decode_inplace (s : cstr) : cstr := until_nul (url_decode (length s) s).

(** ** Accounts *)

(** What the row of a user holds; [None] where the field is not of its type. *)
Record account := Account { ac_active : option Z; ac_ghosted : option Z; ac_role : option (list Z); ac_username : cstr }.

Definition claims := (list Z -> option (list Z)).

Record request := Request {
  rq_headers : list (list Z * list Z);
  rq_authorization : option (list Z);
  rq_path : cstr;
}.

Section session.
Context (cwist_jwt_verify : list Z -> list Z -> option claims).
Context (community : community_config) (auth_admin_username : list Z) (g_site_admin_uid : Z).
Context (auth_jwt_secret : option (list Z)).
(** [None] when the request has no database. *)
Context (users : option (Z -> option account)).

Definition auth_is_site_admin (uid : Z) : bool := (0 <? uid) && (uid =? g_site_admin_uid).

Definition auth_verify_token (token secret : cstr) (role_len : nat) : option (Z * cstr) :=
  if streq token [] || (4096 <=? zlen token) then None
  else match cwist_jwt_verify token secret with
  | None => None
  | Some get =>
      match get (CS "sub"), get (CS "role") with
      | Some sub, Some role =>
          let uid := atoi sub in
          let legacy_site_admin :=
            bool_decide (get (CS "v") = None) && (uid =? 1) && negb (g_site_admin_uid =? 1) && streq role (CS "admin") &&
            match get (CS "username") with Some u => streq u auth_admin_username | None => false end in
          if (0 <? uid) && negb legacy_site_admin then Some (uid, snprintf_s role_len role) else None
      | _, _ => None
      end
  end.

Definition auth_verify_token_len (token secret : cstr) (role_len : nat) : option (Z * cstr) :=
  if streq token [] || (4096 <=? zlen token) then None
  else
    let p := trim_end (fun c => blank_or_end c || (c =? quote)) (skip (fun c => blank c || (c =? quote)) token) in
    if streq p [] then None
    else auth_verify_token (if bool_decide (is_Some (strchr p (CH "%"))) then url_decode_inplace p else p) secret role_len.

(** Whether the account may act, and the role it acts in. *)
Definition auth_current_account (uid : Z) (role : cstr) (role_len : nat) : bool * cstr :=
  match users with
  | None => (negb (community_roles_enabled community), role)
  | Some users =>
      match users uid with
      | None => (false, role)
      | Some user =>
          match ac_role user with
          | Some current_role =>
              if match ac_active user with Some a => negb (a =? 0) | None => true end &&
                 match ac_ghosted user with Some g => g =? 0 | None => true end
              then (true, snprintf_s role_len (if auth_is_site_admin uid then CS "admin" else current_role))
              else (false, role)
          | None => (false, role)
          end
      end
  end.

(** One candidate; the identity is written as soon as the token is verified. *)
Definition try_token (secret token : cstr) (role_len : nat) (out : Z * cstr) : bool * (Z * cstr) :=
  match auth_verify_token_len token secret role_len with
  | None => (false, out)
  | Some (uid, role) => let '(ok, role) := auth_current_account uid role role_len in (ok, (uid, role))
  end.

Fixpoint try_tokens (secret : cstr) (tokens : list (list Z)) (role_len : nat) (out : Z * cstr) : bool * (Z * cstr) :=
  match tokens with
  | [] => (false, out)
  | t :: tokens =>
      let '(ok, out) := try_token secret t role_len out in
      if ok : bool then (true, out) else try_tokens secret tokens role_len out
  end.

(** The values of the session cookies, in the order of the headers. *)
Definition cookie_tokens (req : request) : list (list Z) :=
  concat (map (fun '(key, value) =>
    if strcaseeq key (CS "Cookie")
    then map snd (List.filter (fun '(name, v) => is_auth_cookie_name name && negb (streq v [])) (cookies_of value)) else [])
    (rq_headers req)).

Definition bearer_token (req : request) : option cstr :=
  match rq_authorization req with
  | Some h =>
      if strcaseeq (take 7 h) (CS "Bearer ") then Some (unquote (trim_end blank_or_end (skip blank (drop 7 h)))) else None
  | None => None
  end.

Definition auth_jwt_verify_from_request (req : request) (role_len : nat) (out : Z * cstr) : bool * (Z * cstr) :=
  match auth_jwt_secret with
  | None => (false, out)
  | Some secret =>
      let '(ok, out) := try_tokens secret (cookie_tokens req) role_len out in
      if ok : bool then (true, out)
      else match bearer_token req with
           | Some t => try_token secret t role_len out
           | None => (false, out)
           end
  end.

Definition auth_is_logged_in (req : request) (role_len : nat) (out : Z * cstr) : bool * (Z * cstr) :=
  auth_jwt_verify_from_request req role_len out.

Definition auth_has_session_cookie (req : request) : bool := match cookie_tokens req with [] => false | _ => true end.

Definition auth_get_cookie (req : request) (name : cstr) (out_len : nat) : option cstr :=
  match List.find (fun '(n, _) => streq n name)
          (concat (map (fun '(key, value) => if strcaseeq key (CS "Cookie") then cookies_of value else []) (rq_headers req))) with
  | Some (_, v) => Some (take (out_len - 1) v)
  | None => None
  end.

(** ** Gates of handlers *)

Inductive gate := Pass (uid : Z) (role : cstr) | Redirect_login (location : cstr) | Gate_forbidden.

Definition login_location (req : request) : cstr :=
  if (1 <? zlen (rq_path req)) && negb (streq (rq_path req) (CS "/login")) && negb (streq (rq_path req) (CS "/logout"))
  then snprintf_s 512 (CS "/login?redirect=" ++ rq_path req) else CS "/login".

Definition auth_require_login (req : request) (role_len : nat) : gate :=
  let '(ok, (uid, role)) := auth_is_logged_in req role_len (0, []) in
  if ok then Pass uid role else Redirect_login (login_location req).

Definition auth_require_admin (req : request) : gate :=
  match auth_require_login req 32 with
  | Pass uid role => if streq role (CS "admin") then Pass uid role else Gate_forbidden
  | g => g
  end.

Definition auth_require_moderator (req : request) : gate :=
  if negb (community_roles_enabled community) then auth_require_admin req
  else match auth_require_login req 32 with
  | Pass uid role => if community_role_can_moderate community role then Pass uid role else Gate_forbidden
  | g => g
  end.
End session.

(** ** A browser's cookies are read back *)

Definition cookie_char (c : Z) : bool := negb (blank_or_end c || (c =? CH ";") || (c =? quote)).
Definition name_ok (n : cstr) : Prop := n <> [] /\ Forall (fun c => cookie_char c = true /\ c <> CH "=") n.
Definition value_ok (v : cstr) : Prop := Forall (fun c => cookie_char c = true) v.

Fixpoint print_cookies (l : list (list Z * list Z)) : cstr :=
  match l with
  | [] => []
  | [(n, v)] => n ++ CS "=" ++ v
  | (n, v) :: l => n ++ CS "=" ++ v ++ CS "; " ++ print_cookies l
  end.

Lemma cookie_char_not_blank c : cookie_char c = true -> blank c = false /\ line_end c = false /\ c <> CH ";" /\ c <> quote.
Proof.
  unfold cookie_char, blank_or_end. intros H. apply negb_true_iff in H. bool_split. done.
Qed.

Lemma trim_end_id p v : Forall (fun c => p c = false) v -> trim_end p v = v.
Proof.
  intros Hv. destruct v as [|c v _] using rev_ind; [done|]. apply trim_end_none. by apply Forall_app in Hv as [_ [Hc _]%Forall_cons].
Qed.

Lemma unquote_id v : value_ok v -> unquote v = v.
Proof.
  intros Hv. destruct v as [|c v]; [done|]. apply Forall_cons in Hv as [Hc _]. apply cookie_char_not_blank in Hc as (_ & _ & _ & Hq).
  cbn [unquote]. rewrite (proj2 (Z.eqb_neq c quote)) by done. by rewrite andb_false_r.
Qed.

Lemma skip_space s : skip blank (32 :: s) = skip blank s.
Proof. unfold skip. cbn. by destruct (span blank s). Qed.

Lemma next_cookie n v rest : name_ok n -> value_ok v -> (rest = [] \/ exists r, rest = 59 :: r) ->
  auth_cookie_iter_next (n ++ CS "=" ++ v ++ rest) = Some (n, v, drop 1 rest) /\
  auth_cookie_iter_next (32 :: n ++ CS "=" ++ v ++ rest) = Some (n, v, drop 1 rest).
Proof.
  intros [Hn0 Hn] Hv Hrest. unfold value_ok in Hv.
  assert (Hgo : skip blank (n ++ CS "=" ++ v ++ rest) = n ++ CS "=" ++ v ++ rest).
  { apply skip_none. destruct n as [|c n]; [done|]. intros ? ? [= <- _]. apply Forall_cons in Hn as [[Hc _] _]. by destruct (cookie_char_not_blank _ Hc). }
  assert (H : auth_cookie_iter_next (n ++ CS "=" ++ v ++ rest) = Some (n, v, drop 1 rest)).
  { unfold auth_cookie_iter_next. rewrite Hgo, (proj2 (streq_neq _ _)) by (by destruct n).
    rewrite (span_stop _ n (CS "=" ++ v ++ rest)); last first.
    - by intros ? ? [= <- _].
    - apply forallb_forall. intros c Hc. apply list_elem_of_In in Hc. rewrite Forall_forall in Hn. destruct (Hn c Hc) as [Hcc Hne].
      apply cookie_char_not_blank in Hcc as (_ & _ & Hs & _). by rewrite !(proj2 (Z.eqb_neq c _)).
    - change (CS "=" ++ v ++ rest) with (61 :: v ++ rest). cbv iota beta.
      assert (Hsv : skip blank (v ++ rest) = v ++ rest).
      { apply skip_none. intros c s' E. destruct v as [|c' v]; cbn in E.
        - destruct Hrest as [-> |[r ->]]; [done|]. by injection E as <- _.
        - injection E as <- _. apply Forall_cons in Hv as [Hc _]. by destruct (cookie_char_not_blank _ Hc). }
      rewrite Hsv, (span_stop _ v rest); last first.
      + intros ? ? ->. destruct Hrest as [|[r [= -> _]]]; [done|]. done.
      + apply forallb_forall. intros c Hc. apply list_elem_of_In in Hc. rewrite Forall_forall in Hv.
        destruct (cookie_char_not_blank c (Hv c Hc)) as (_ & _ & Hs & _). by rewrite (proj2 (Z.eqb_neq c _)).
      + rewrite (trim_end_id blank n), (trim_end_id blank_or_end v), unquote_id.
        * destruct n as [|c n]; [done|]. destruct Hrest as [-> |[r ->]]; done.
        * done.
        * eapply Forall_impl; [exact Hv|]. cbn. intros c Hc. apply cookie_char_not_blank in Hc as (H1 & H2 & _). unfold blank_or_end. by rewrite H1, H2.
        * eapply Forall_impl; [exact Hn|]. cbn. intros c [Hc _]. by destruct (cookie_char_not_blank _ Hc). }
  split; [done|]. unfold auth_cookie_iter_next in *. by rewrite skip_space.
Qed.

Lemma cookies_of_print l : Forall (fun c => name_ok c.1 /\ value_ok c.2) l -> cookies_of (print_cookies l) = l.
Proof.
  intros Hl. unfold cookies_of.
  assert (H : forall fuel, (length l < fuel)%nat -> cookies fuel (print_cookies l) = l /\ cookies fuel (32 :: print_cookies l) = l).
  { induction Hl as [|[n v] l [Hn Hv] Hl IH]; intros fuel Hf; [by destruct fuel|]. destruct fuel as [|fuel]; [lia|]. cbn [length fst snd] in *.
    cbn [print_cookies]. destruct l as [|c l].
    - destruct (next_cookie n v [] Hn Hv (or_introl eq_refl)) as [H1 H2]. rewrite app_nil_r in H1, H2. cbn [cookies].
      rewrite H1, H2. cbn [drop]. by destruct fuel.
    - destruct (next_cookie n v (59 :: 32 :: print_cookies (c :: l)) Hn Hv (or_intror (ex_intro _ _ eq_refl))) as [H1 H2].
      destruct (IH fuel ltac:(lia)) as [_ IH2]. cbn [cookies].
      change (CS "; " ++ print_cookies (c :: l)) with (59 :: 32 :: print_cookies (c :: l)). rewrite H1, H2. cbn [drop]. by rewrite IH2. }
  apply H. clear H. induction Hl as [|[n v] l [[Hn _] _] _ IH]; [cbn; lia|]. cbn [length print_cookies fst] in *.
  destruct l as [|c l]; [rewrite length_app; destruct n; cbn; [done|lia]|]. rewrite !length_app. destruct n; [done|]. cbn [length] in *. lia.
Qed.

(** The cookies of a header are read back as they were printed: names and values without blanks,
    quotes and semicolons, however many, an empty value included. *)
Theorem cookies_roundtrip l : Forall (fun c => name_ok c.1 /\ value_ok c.2) l -> cookies_of (print_cookies l) = l.
Proof. apply cookies_of_print. Qed.

Lemma cookies_roundtrip_witness :
  cookies_of (print_cookies [(CS "theme", CS "dark"); (CS "docker_blog_session", CS "aaa.bbb.ccc"); (CS "empty", [])]) =
  [(CS "theme", CS "dark"); (CS "docker_blog_session", CS "aaa.bbb.ccc"); (CS "empty", [])].
Proof. apply cookies_roundtrip. repeat constructor; done. Defined.

(** ** Who is logged in *)

Section exact.
Context (cwist_jwt_verify : list Z -> list Z -> option claims).
Context (community : community_config) (auth_admin_username : list Z) (g_site_admin_uid : Z).
Context (users : option (Z -> option account)).

Abbreviation try := (try_token cwist_jwt_verify community auth_admin_username g_site_admin_uid users).
Abbreviation verify_len := (auth_verify_token_len cwist_jwt_verify auth_admin_username g_site_admin_uid).
Abbreviation logged_in := (auth_is_logged_in cwist_jwt_verify community auth_admin_username g_site_admin_uid).

(** The candidates of a request, in the order they are tried. *)
Definition credentials (req : request) : list (list Z) := cookie_tokens req ++ option_list (bearer_token req).

(** An account that may act. *)
Definition may_act (a : account) : Prop :=
  ac_active a <> Some 0 /\ (ac_ghosted a = None \/ ac_ghosted a = Some 0) /\ ac_role a <> None.

(** The signed text of a credential: without the blanks, line ends and quotes around it, decoded when
    it has a percent sign, and neither empty nor of 4096 bytes or more. *)
Definition token_text (token raw : cstr) : Prop :=
  let p := trim_end (fun c => blank_or_end c || (c =? quote)) (skip (fun c => blank c || (c =? quote)) token) in
  zlen token < 4096 /\ p <> [] /\ raw = (if bool_decide (CH "%" ∈ p) then url_decode_inplace p else p) /\ raw <> [] /\ zlen raw < 4096.

(** A token of the site admin from before the accounts had their own row. *)
Definition legacy_admin_token (get : claims) (uid : Z) : Prop :=
  get (CS "v") = None /\ uid = 1 /\ g_site_admin_uid <> 1 /\ get (CS "role") = Some (CS "admin") /\
  get (CS "username") = Some auth_admin_username.

(** The identity a token gives: cwist verifies it, its claims name an account, and the account may act
    now and in this role; without a database only where roles are off, and in the role of the token. *)
Definition stands_for (secret token : cstr) (role_len : nat) (who : Z * cstr) : Prop :=
  exists raw get sub role, token_text token raw /\ cwist_jwt_verify raw secret = Some get /\
    get (CS "sub") = Some sub /\ get (CS "role") = Some role /\ fst who = atoi sub /\ 0 < fst who /\ ~ legacy_admin_token get (fst who) /\
    match users with
    | Some table => exists a current, table (fst who) = Some a /\ may_act a /\ ac_role a = Some current /\
        snd who = snprintf_s role_len (if bool_decide (fst who = g_site_admin_uid) then CS "admin" else current)
    | None => community_roles_enabled community = false /\ snd who = snprintf_s role_len role
    end.

Definition stands_for_nobody (secret : cstr) (role_len : nat) (token : list Z) : Prop := forall who, ~ stands_for secret token role_len who.

Lemma strchr_is_Some s c : is_Some (strchr s c) <-> c ∈ s.
Proof.
  pose proof (strchr_none s c) as H. destruct (strchr s c) as [x|].
  - split; [|by exists x]. intros _. destruct (decide (c ∈ s)) as [|Hn]; [done|]. by apply H in Hn.
  - split; [by intros [? ?]|]. intros Hin. by apply H in Hin.
Qed.

Lemma current_account_spec uid role role_len role' : 0 < uid ->
  auth_current_account community g_site_admin_uid users uid role role_len = (true, role') <->
  match users with
  | Some table => exists a current, table uid = Some a /\ may_act a /\ ac_role a = Some current /\
      role' = snprintf_s role_len (if bool_decide (uid = g_site_admin_uid) then CS "admin" else current)
  | None => community_roles_enabled community = false /\ role' = role
  end.
Proof.
  intros Hu. unfold auth_current_account. destruct users as [table|].
  2: { destruct (community_roles_enabled community); cbn; split; [done|by intros [? _]|by intros [= <-]|by intros [_ ->]]. }
  assert (Eadmin : auth_is_site_admin g_site_admin_uid uid = bool_decide (uid = g_site_admin_uid)).
  { unfold auth_is_site_admin. rewrite (proj2 (Z.ltb_lt _ _) Hu). by destruct (Z.eqb_spec uid g_site_admin_uid), (bool_decide_reflect (uid = g_site_admin_uid)). }
  rewrite Eadmin. destruct (table uid) as [a|]; [|split; [done|by intros (? & ? & ? & _)]].
  assert (Hact : may_act a <-> (match ac_active a with Some a => negb (a =? 0) | None => true end &&
                   match ac_ghosted a with Some g => g =? 0 | None => true end = true) /\ ac_role a <> None).
  { unfold may_act. rewrite andb_true_iff. destruct (ac_active a) as [x|], (ac_ghosted a) as [g|]; rewrite ?negb_true_iff, ?Z.eqb_eq, ?Z.eqb_neq;
      intuition (try congruence). }
  destruct (ac_role a) as [current|] eqn:Er; [|split; [done|by intros (? & ? & [= <-] & _ & E & _); rewrite Er in E]].
  destruct (_ && _).
  - split; [intros [= <-]|intros (? & ? & [= <-] & _ & E & ->)].
    + exists a, current. repeat split; try done; by apply Hact.
    + rewrite Er in E. by injection E as ->.
  - split; [done|]. intros (? & ? & [= <-] & [E _]%Hact & _). done.
Qed.

Lemma legacy_spec get uid role : get (CS "role") = Some role ->
  bool_decide (get (CS "v") = None) && (uid =? 1) && negb (g_site_admin_uid =? 1) && streq role (CS "admin") &&
    match get (CS "username") with Some u => streq u auth_admin_username | None => false end = true <-> legacy_admin_token get uid.
Proof.
  intros Hr. unfold legacy_admin_token. rewrite !andb_true_iff, bool_decide_eq_true, Z.eqb_eq, negb_true_iff, Z.eqb_neq, streq_eq, Hr.
  destruct (get (CS "username")) as [u|]; [rewrite streq_eq|]; intuition congruence.
Qed.

(** The text of a token is what is verified. *)
Lemma verify_len_spec token secret role_len uid role' :
  verify_len token secret role_len = Some (uid, role') <->
  exists raw get sub role, token_text token raw /\ cwist_jwt_verify raw secret = Some get /\
    get (CS "sub") = Some sub /\ get (CS "role") = Some role /\ uid = atoi sub /\ 0 < uid /\ ~ legacy_admin_token get uid /\ role' = snprintf_s role_len role.
Proof.
  unfold auth_verify_token_len. set (p := trim_end _ _).
  assert (Etext : forall raw, token_text token raw <->
    (streq token [] || (4096 <=? zlen token) = false /\ streq p [] = false) /\
    (streq (if bool_decide (is_Some (strchr p (CH "%"))) then url_decode_inplace p else p) [] ||
     (4096 <=? zlen (if bool_decide (is_Some (strchr p (CH "%"))) then url_decode_inplace p else p)) = false /\
     raw = if bool_decide (is_Some (strchr p (CH "%"))) then url_decode_inplace p else p)).
  { intros raw. unfold token_text. fold p. cbv zeta. rewrite (bool_decide_ext _ _ (strchr_is_Some p (CH "%"))). set (r := if _ : bool then _ else p).
    rewrite !orb_false_iff, !Z.leb_gt, !streq_neq. split; [|intuition (try congruence)].
    intros (H1 & H2 & -> & H4 & H5). repeat split; try done. intros ->. by apply H2. }
  set (r := if bool_decide (is_Some _) then _ else p) in *. unfold auth_verify_token.
  destruct (streq token [] || (4096 <=? zlen token)) eqn:E1; [split; [done|intros (raw & get & sub & role & [[? _] _]%Etext & _); done]|].
  destruct (streq p []) eqn:E2; [split; [done|intros (raw & get & sub & role & [[_ ?] _]%Etext & _); done]|].
  destruct (streq r [] || (4096 <=? zlen r)) eqn:E3; [split; [done|intros (raw & get & sub & role & [_ [? _]]%Etext & _); done]|].
  destruct (cwist_jwt_verify r secret) as [get|] eqn:E4.
  2: { split; [done|]. intros (raw & get & sub & role & [_ [_ ->]]%Etext & E & _). by rewrite E4 in E. }
  destruct (get (CS "sub")) as [sub|] eqn:E5, (get (CS "role")) as [role|] eqn:E6;
    try (split; [done|intros (raw & get' & sub' & role0 & [_ [_ ->]]%Etext & E & ? & ? & _); rewrite E4 in E; injection E as <-; congruence]).
  cbv zeta. pose proof (legacy_spec get (atoi sub) role E6) as Hleg. destruct (Z.ltb_spec 0 (atoi sub)); cbn [andb].
  2: { split; [done|]. intros (raw & get' & sub' & role0 & [_ [_ ->]]%Etext & E & E' & _ & -> & ? & _). rewrite E4 in E. injection E as <-.
       rewrite E5 in E'. injection E' as ->. lia. }
  destruct (_ && _) eqn:El; cbn [negb].
  - split; [done|]. intros (raw & get' & sub' & role0 & [_ [_ ->]]%Etext & E & E' & _ & -> & _ & Hn & _). rewrite E4 in E. injection E as <-.
    rewrite E5 in E'. injection E' as ->. destruct Hn. by apply Hleg.
  - split.
    + intros [= <- <-]. exists r, get, sub, role. split; [by apply Etext|]. repeat split; try done. by intros E%Hleg.
    + intros (raw & get' & sub' & role0 & [_ [_ ->]]%Etext & E & E' & E'' & -> & _ & _ & ->). rewrite E4 in E. injection E as <-.
      rewrite E5 in E'. rewrite E6 in E''. by injection E' as ->; injection E'' as ->.
Qed.

Lemma try_exact secret token role_len out who : try secret token role_len out = (true, who) <-> stands_for secret token role_len who.
Proof.
  destruct who as [uid role']. unfold try_token, stands_for. cbn [fst snd].
  destruct (verify_len token secret role_len) as [[u r]|] eqn:E.
  - apply verify_len_spec in E as E'. destruct E' as (raw & get & sub & role & H1 & H2 & H3 & H4 & -> & H6 & H7 & ->).
    pose proof (current_account_spec (atoi sub) (snprintf_s role_len role) role_len) as Hc.
    destruct (auth_current_account _ _ _ _ _ _) as [ok r'] eqn:Ea. split.
    + intros [= -> <- ->]. exists raw, get, sub, role. do 7 (split; [done|]). specialize (Hc role' H6). destruct users; by apply Hc.
    + intros (raw' & get' & sub' & role0 & T1 & T2 & T3 & T4 & -> & T6 & T7 & T8).
      assert (Hv : verify_len token secret role_len = Some (atoi sub', snprintf_s role_len role0)).
      { apply verify_len_spec. by exists raw', get', sub', role0. }
      rewrite E in Hv. injection Hv as Eu Er. rewrite <- Eu, <- Er in T8. rewrite <- Eu. pose proof (proj2 (Hc role' H6)) as Hc'.
      f_equal; [|f_equal]; (assert (X : (ok, r') = (true, role')) by (apply Hc'; by destruct users)); by injection X.
  - split; [done|]. intros (raw & get & sub & role & T1 & T2 & T3 & T4 & -> & T6 & T7 & T8).
    rewrite (proj2 (verify_len_spec token secret role_len (atoi sub) (snprintf_s role_len role))) in E; [done|]. by exists raw, get, sub, role.
Qed.

Abbreviation tries := (try_tokens cwist_jwt_verify community auth_admin_username g_site_admin_uid users).

Lemma tries_app secret l1 l2 role_len : forall out, tries secret (l1 ++ l2) role_len out =
  let '(ok, out) := tries secret l1 role_len out in if ok : bool then (true, out) else tries secret l2 role_len out.
Proof.
  induction l1 as [|t l1 IH]; intros out; [done|]. cbn [app try_tokens]. destruct (try secret t role_len out) as [[|] out']; [done|apply IH].
Qed.

(** A request is answered by its credentials, one after the other. *)
Lemma logged_in_tries secret req role_len out :
  logged_in (Some secret) users req role_len out = tries secret (credentials req) role_len out.
Proof.
  unfold auth_is_logged_in, auth_jwt_verify_from_request, credentials. rewrite tries_app. destruct (tries _ _ _ _) as [[|] out']; [done|].
  destruct (bearer_token req) as [t|]; [|done]. cbn. by destruct (try secret t role_len out') as [[|] out2].
Qed.

Lemma tries_false secret tokens role_len : forall out,
  fst (tries secret tokens role_len out) = false <-> Forall (stands_for_nobody secret role_len) tokens.
Proof.
  induction tokens as [|t tokens IH]; intros out; [done|]. cbn [try_tokens]. rewrite Forall_cons, <- (IH (snd (try secret t role_len out))).
  pose proof (try_exact secret t role_len out) as Ht. destruct (try secret t role_len out) as [[|] out'].
  - split; [done|]. intros [Hn _]. destruct (Hn out'). by apply Ht.
  - cbn [snd]. split; [|by intros []]. intros H. split; [|done]. intros who Hw. by apply Ht in Hw.
Qed.

Lemma tries_true secret tokens role_len who : forall out,
  tries secret tokens role_len out = (true, who) <->
  exists before token after, tokens = before ++ token :: after /\ Forall (stands_for_nobody secret role_len) before /\ stands_for secret token role_len who.
Proof.
  induction tokens as [|t tokens IH]; intros out; [split; [done|by intros ([|] & ? & ? & [=] & _)]|]. cbn [try_tokens].
  pose proof (try_exact secret t role_len out) as Ht. destruct (try secret t role_len out) as [[|] out'].
  - split; [intros [= ->]; exists [], t, tokens; repeat split; [done|by apply Ht]|].
    intros ([|t' before] & token & after & [= <- ->] & Hb & Hs); [by apply Ht in Hs|]. apply Forall_cons in Hb as [Hn _].
    destruct (Hn out'). by apply Ht.
  - rewrite IH. split.
    + intros (before & token & after & -> & Hb & Hs). exists (t :: before), token, after. repeat split; [|done].
      apply Forall_cons. split; [|done]. intros w Hw. by apply Ht in Hw.
    + intros ([|t' before] & token & after & [= <- ->] & Hb & Hs); [by apply Ht in Hs|]. apply Forall_cons in Hb as [_ Hb].
      by exists before, token, after.
Qed.

(** What a browser sends: its cookies in headers of their own, and a bearer token. *)
Definition session_values (l : list (list Z * list Z)) : list (list Z) :=
  map snd (List.filter (fun c => (streq (fst c) SESSION_COOKIE_NAME || streq (fst c) (CS "jwt_access")) && negb (streq (snd c) [])) l).

Lemma credentials_sent req sent t : rq_headers req = map (fun l => (CS "Cookie", print_cookies l)) sent ->
  Forall (Forall (fun c => name_ok c.1 /\ value_ok c.2)) sent -> rq_authorization req = Some (CS "Bearer " ++ t) -> value_ok t ->
  credentials req = concat (map session_values sent) ++ [t].
Proof.
  intros Hh Hs Ha Ht. unfold credentials, cookie_tokens, bearer_token. rewrite Hh, Ha, map_map. f_equal.
  - f_equal. apply map_ext_in. intros l Hl. rewrite Forall_forall in Hs. rewrite cookies_of_print by (by apply Hs, list_elem_of_In).
    cbn [fst]. unfold session_values. replace (strcaseeq (CS "Cookie") (CS "Cookie")) with true by done. f_equal. apply filter_ext. by intros [].
  - replace (strcaseeq (take 7 (CS "Bearer " ++ t)) (CS "Bearer ")) with true by done. change (drop 7 (CS "Bearer " ++ t)) with t.
    rewrite skip_none, trim_end_id, unquote_id; [done|done| |].
    + eapply Forall_impl; [exact Ht|]. cbn. intros c Hc. apply cookie_char_not_blank in Hc as (H1 & H2 & _). unfold blank_or_end. by rewrite H1, H2.
    + intros c s' ->. apply Forall_cons in Ht as [Hc _]. by destruct (cookie_char_not_blank _ Hc).
Qed.

(** C3: a request is logged in, as [who], exactly when [who] is what the first of its credentials that
    stands for anybody stands for.  The credentials are its session cookies in the order of the
    headers, then its bearer token; a token stands for an account exactly when cwist verifies its text
    under the secret, its subject is positive, it is not an admin token from before the accounts, and
    the account exists, is active and not ghosted, and then in the role the account has now, the site
    admin's for the site admin, whatever role the token names; without a database, where roles are off,
    in the token's role.  A request is refused exactly when no credential stands for anybody, and always
    when there is no secret. *)
Theorem auth_session_exact secret req role_len out :
  (forall who, logged_in (Some secret) users req role_len out = (true, who) <->
    exists before token after, credentials req = before ++ token :: after /\ Forall (stands_for_nobody secret role_len) before /\
      stands_for secret token role_len who) /\
  (fst (logged_in (Some secret) users req role_len out) = false <-> Forall (stands_for_nobody secret role_len) (credentials req)) /\
  fst (logged_in None users req role_len out) = false /\
  (forall sent t, rq_headers req = map (fun l => (CS "Cookie", print_cookies l)) sent ->
    Forall (Forall (fun c => name_ok c.1 /\ value_ok c.2)) sent -> rq_authorization req = Some (CS "Bearer " ++ t) -> value_ok t ->
    credentials req = concat (map session_values sent) ++ [t]).
Proof.
  split; [intros who; rewrite logged_in_tries; apply tries_true|]. split; [rewrite logged_in_tries; apply tries_false|].
  split; [done|]. intros sent t. apply credentials_sent.
Qed.

End exact.

(** A member whose token names another role than his account. *)
Section exact_demo.
Definition demo_claims (uid role : cstr) : claims := fun name => if streq name (CS "sub") then Some uid else if streq name (CS "role") then Some role else None.
Definition demo_verify (token secret : cstr) : option claims := if streq token (CS "tok") then Some (demo_claims (CS "7") (CS "admin")) else None.
Definition demo_users (active : Z) (role : cstr) : option (Z -> option account) :=
  Some (fun uid => if uid =? 7 then Some (Account (Some active) (Some 0) (Some role) (CS "eve")) else None).
Definition demo_request : request := Request [(CS "Cookie", CS "x=1; docker_blog_session=gone")] (Some (CS "Bearer tok")) (CS "/comment/new").
Definition demo_community : community_config := Community true false false false false false.
End exact_demo.

Lemma auth_session_exact_witness :
  auth_is_logged_in demo_verify demo_community (CS "root") 1 (Some (CS "s")) (demo_users 1 (CS "user")) demo_request 32 (0, []) = (true, (7, CS "user")) /\
  credentials demo_request = [CS "gone"; CS "tok"].
Proof.
  destruct (auth_session_exact demo_verify demo_community (CS "root") 1 (demo_users 1 (CS "user")) (CS "s") demo_request 32 (0, [])) as (H1 & _ & _ & H4).
  assert (Hc : credentials demo_request = [CS "gone"; CS "tok"]).
  { apply (H4 [[(CS "x", CS "1"); (CS "docker_blog_session", CS "gone")]] (CS "tok")); [done| |done|]; repeat constructor; done. }
  split; [|done]. apply H1. exists [CS "gone"], (CS "tok"), []. split; [done|]. split.
  - apply Forall_cons. split; [|done]. intros who (raw & get & sub & role & (_ & _ & -> & _) & Hv & _). done.
  - exists (CS "tok"), (demo_claims (CS "7") (CS "admin")), (CS "7"), (CS "admin"). repeat split; try done.
    + by intros [_ [? _]].
    + exists (Account (Some 1) (Some 0) (Some (CS "user")) (CS "eve")), (CS "user"). repeat split; try done. by right.
Defined.
