(* ===== verification/Middleware.v ===== *)
(** * What every request passes through (src/src/handlers/handlers.c)

    The redirect to the site's own host, the headers of every answer, the requests a replica forwards
    or refuses, HEAD requests, and the redirects back to a referring page.  A handler is a function
    from a request to an answer; the header fields a function reads are fields of the request. *)
From S2P Require Import Prelude CStr.

Inductive method := GET | HEAD | POST | PUT | PATCH | DELETE | OPTIONS.
#[global] Instance method_eq_dec : EqDecision method.
Proof. solve_decision. Defined.

Record http_request := Http_request {
  hr_method : method;
  hr_path : option (list Z);
  hr_query : option (list Z);
  hr_host : option (list Z);
  hr_origin : option (list Z);
  hr_accept : option (list Z);
  (** the header X-Fly-Head-Rewrite *)
  hr_head_rewrite : bool;
}.

Abbreviation header := (list Z * list Z)%type.

Record http_response := Http_response {
  rs_status : Z;
  rs_headers : list header;
  rs_body : list Z;
  rs_deferred : bool;
  rs_file_stream : bool;
}.

Definition add_header (k v : cstr) (r : http_response) : http_response :=
  Http_response (rs_status r) (rs_headers r ++ [(k, v)]) (rs_body r) (rs_deferred r) (rs_file_stream r).
Definition add_headers (l : list header) (r : http_response) : http_response :=
  Http_response (rs_status r) (rs_headers r ++ l) (rs_body r) (rs_deferred r) (rs_file_stream r).
(** All the headers of a name are removed. *)
Definition remove_header (k : cstr) (r : http_response) : http_response :=
  Http_response (rs_status r) (List.filter (fun h => negb (streq (fst h) k)) (rs_headers r)) (rs_body r) (rs_deferred r) (rs_file_stream r).
Definition set_status (s : Z) (r : http_response) : http_response :=
  Http_response s (rs_headers r) (rs_body r) (rs_deferred r) (rs_file_stream r).
Definition set_body (b : list Z) (r : http_response) : http_response :=
  Http_response (rs_status r) (rs_headers r) b (rs_deferred r) (rs_file_stream r).

(** [strstr]: the text from the first occurrence on. *)
Fixpoint strstr (s pat : cstr) : option cstr :=
  if starts_with pat s then Some s
  else match s with [] => None | _ :: s' => strstr s' pat end.
Definition contains (s pat : cstr) : bool := match strstr s pat with Some _ => true | None => false end.

(** ** The site's origin *)

Section site.
(** [g_config.root_url] *)
Context (root_url : list Z).

Definition site_origin : cstr :=
  let url := if streq root_url [] then CS "https://localhost" else root_url in
  match strstr url (CS "://") with
  | None => snprintf_s 256 url
  | Some p =>
      let host := fst (span (fun c => negb ((c =? CH "/") || (c =? CH "?") || (c =? CH "#"))) (drop 3 p)) in
      take 255 (take (length url - length p + 3 + length host) url)
  end.

(** Upper case letters are lowered by hand; the port is compared too. *)
Definition origins_match (a b : cstr) : bool := (zlen a =? zlen b) && streq (map tolower a) (map tolower b).

Definition local_or_ip_host (host : option cstr) : bool :=
  match host with
  | None => true
  | Some host =>
      if streq host [] then true
      else
        let name := snprintf_s 256 host in
        let name :=
          match after_last name (CH ":") with
          | Some port => if bool_decide (CH "]" ∈ port) then name else take (length name - length port - 1) name
          | None => name
          end in
        if strcaseeq name (CS "localhost") then true
        else forallb (fun c => isxdigit c || (c =? CH ".") || (c =? CH ":") || (c =? CH "[") || (c =? CH "]")) name
  end.

Definition root_host : cstr := match strstr site_origin (CS "://") with Some p => drop 3 p | None => site_origin end.

Definition canonical_redirect_needed (req : http_request) : bool :=
  if negb (bool_decide (hr_method req = GET) || bool_decide (hr_method req = HEAD)) then false
  else if local_or_ip_host (hr_host req) then false
  else if local_or_ip_host (Some root_host) || strcaseeq (default [] (hr_host req)) root_host then false
  else true.

Definition canonical_target (req : http_request) : cstr :=
  snprintf_s 2048 (site_origin ++ default (CS "/") (hr_path req) ++
                   (if streq (default [] (hr_query req)) [] then [] else CS "?") ++ default [] (hr_query req)).

(** ** Back to the referring page *)

Definition is_asset_or_sw_path (path : cstr) : bool :=
  starts_with (CS "/assets/") path || streq path (CS "/sw.js") || starts_with (CS "/sw.js?") path.

(** The first two characters are a slash and not a slash. *)
Definition local_path (s : cstr) : bool :=
  match s with 47 :: c :: _ => negb (c =? CH "/") | [47] => true | _ => false end.

(** The target of the redirect. *)
Definition redirect_referer_safe (referer : option cstr) (fallback : cstr) : cstr :=
  match referer with
  | None => fallback
  | Some referer =>
      if streq referer [] then fallback
      else if local_path referer && negb (is_asset_or_sw_path referer) then referer
      else
        let path := drop (length site_origin) referer in
        let target := if starts_with (CS "/") path then path else CS "/" in
        if starts_with site_origin referer && (streq path [] || starts_with (CS "/") path) && negb (is_asset_or_sw_path target) then target
        else match strstr referer (CS "://") with
             | None => fallback
             | Some sep =>
                 match strchr (drop 3 sep) (CH "/") with
                 | Some (_, path_start) => if local_path path_start && negb (is_asset_or_sw_path path_start) then path_start else fallback
                 | None => fallback
                 end
             end
  end.

(** ** The headers of every answer *)

Definition cors_headers (origin : option cstr) : list header :=
  match origin with
  | Some ((_ :: _) as origin) =>
      if origins_match origin site_origin
      then [(CS "Access-Control-Allow-Origin", origin); (CS "Vary", CS "Origin"); (CS "Access-Control-Allow-Credentials", CS "true")]
      else [(CS "Access-Control-Allow-Origin", CS "*")]
  | _ => [(CS "Access-Control-Allow-Origin", site_origin)]
  end ++
  [(CS "Access-Control-Allow-Methods", CS "GET, POST, PUT, PATCH, DELETE, OPTIONS, HEAD");
   (CS "Access-Control-Allow-Headers", CS "*");
   (CS "Access-Control-Expose-Headers", CS "Content-Length, Content-Type, X-Request-Id, X-TASFA-Chunk-Index, X-TASFA-Chunk-Count, X-TASFA-Predicted-Remaining-Ms");
   (CS "Access-Control-Max-Age", CS "86400")].

(** [g_config.use_tls] *)
Context (use_tls : bool).

Definition csp : cstr :=
  snprintf_s 1024 (
    CS "default-src 'self' 'unsafe-inline' 'unsafe-eval' https://cdnjs.cloudflare.com https://cdn.jsdelivr.net https://cdn.plyr.io https://tikzjax.com data: blob:; " ++
    CS "script-src 'self' 'unsafe-inline' 'unsafe-eval' https://cdnjs.cloudflare.com https://cdn.jsdelivr.net https://cdn.plyr.io https://tikzjax.com data: blob:; " ++
    CS "style-src 'self' 'unsafe-inline' 'unsafe-eval' https://fonts.googleapis.com https://cdn.jsdelivr.net https://cdnjs.cloudflare.com https://cdn.plyr.io https://tikzjax.com data: blob:; " ++
    CS "font-src 'self' https://fonts.gstatic.com https://cdn.jsdelivr.net https://tikzjax.com data:; " ++
    CS "img-src 'self' blob: data: https:; " ++
    CS "media-src 'self' blob: data: https:; " ++
    CS "connect-src 'self' https:; " ++
    CS "frame-src 'self' https:; " ++
    CS "worker-src 'self' blob:; " ++
    CS "manifest-src 'self'; " ++
    CS "frame-ancestors 'none'; base-uri 'self'; form-action 'self'; object-src 'self' https://latexonline.cc https://texlive.net" ++
    (if use_tls then CS "; upgrade-insecure-requests" else [])).

Definition replace_csp (r : http_response) : http_response :=
  add_header (CS "Content-Security-Policy") csp (remove_header (CS "Content-Security-Policy") r).

(** A text with its quotes doubled. *)
Definition double_quoted (s : cstr) : cstr := map (fun c => if c =? CH "'" then 34 else c) s.

Definition security_headers (is_static_asset : bool) : list header :=
  [(CS "Strict-Transport-Security", CS "max-age=31536000; includeSubDomains; preload");
   (CS "X-Content-Type-Options", CS "nosniff");
   (CS "X-Frame-Options", CS "DENY");
   (CS "Referrer-Policy", CS "strict-origin-when-cross-origin");
   (CS "Cross-Origin-Resource-Policy", if is_static_asset then CS "cross-origin" else CS "same-origin");
   (CS "Cross-Origin-Opener-Policy", CS "same-origin-allow-popups");
   (CS "Cross-Origin-Embedder-Policy", CS "credentialless");
   (CS "Permissions-Policy",
    CS "accelerometer=(), camera=(), geolocation=(), gyroscope=(), magnetometer=(), " ++
    CS "microphone=(), payment=(), usb=(), interest-cohort=(), browsing-topics=(), " ++
    CS "display-capture=(), document-domain=(), encrypted-media=(), fullscreen=(self), " ++
    CS "picture-in-picture=(self), publickey-credentials-get=(), screen-wake-lock=(), " ++
    CS "web-share=(), xr-spatial-tracking=()");
   (CS "X-DNS-Prefetch-Control", CS "off");
   (CS "Origin-Agent-Cluster", CS "?1");
   (CS "X-Permitted-Cross-Domain-Policies", CS "none");
   (CS "Accept-CH", CS "DPR, Width, Viewport-Width");
   (CS "Critical-CH", CS "DPR");
   (CS "Report-To", double_quoted (CS "{'group':'default','max_age':31536000,'endpoints':[{'url':'/api/reports'}]}"));
   (CS "NEL", double_quoted (CS "{'report_to':'default','max_age':31536000,'include_subdomains':true,'success_fraction':0.0,'failure_fraction':1.0}"))].

Definition apply_security_headers (is_static_asset : bool) (r : http_response) : http_response :=
  add_headers (security_headers is_static_asset) r.

(** [g_config.blog_logo], [g_config.use_rss] and [g_config.title] *)
Context (blog_logo : list Z) (use_rss : bool) (title : list Z).

Definition link_headers : list header :=
  [(CS "Link", CS "<https://fonts.gstatic.com>; rel=preconnect; crossorigin");
   (CS "Link", CS "<https://fonts.gstatic.com>; rel=dns-prefetch; crossorigin");
   (CS "Link", CS "<https://cdnjs.cloudflare.com>; rel=preconnect");
   (CS "Link", CS "<https://cdnjs.cloudflare.com>; rel=dns-prefetch")] ++
  (if negb (streq blog_logo []) && negb (starts_with (CS "data:") blog_logo)
   then [(CS "Link", snprintf_s 448 (CS "</assets/img/" ++ blog_logo ++ CS "?w=128&h=128>; rel=preload; as=image; fetchpriority=low"))] else []) ++
  (if use_rss
   then [(CS "Link", snprintf_s 320 (CS "</rss.xml>; rel=alternate; type=" ++ [34] ++ CS "application/rss+xml" ++ [34] ++ CS "; title=" ++ [34] ++
                                     (if streq title [] then CS "Fly Board" else title) ++ CS " RSS" ++ [34]))] else []).

(** ** Which requests reach a handler of this process *)

Definition path_of (req : http_request) : cstr := default [] (hr_path req).

Definition is_static_path (path : cstr) : bool := starts_with (CS "/assets/") path || streq path (CS "/sw.js").

Definition mutating_get (path : cstr) : bool :=
  ((starts_with (CS "/post/delete/") path || starts_with (CS "/board/") path) && contains path (CS "/delete")) ||
  (starts_with (CS "/comment/") path && contains path (CS "/delete")).

(** What a fenced primary refuses and a replica forwards. *)
Definition is_write (req : http_request) : bool :=
  (negb (bool_decide (hr_method req = GET)) || mutating_get (path_of req)) &&
  negb (bool_decide (hr_method req = HEAD)) && negb (starts_with (CS "/flywire/") (path_of req)).

Inductive outcome :=
  | Answered (r : http_response)
  (** the request is sent to the primary by a worker, on the lane of bulk transfers or not *)
  | Forwarded (bulk : bool) (r : http_response).

Section next.
(** The handler of the route, which fills the answer. *)
Context (next : http_request -> http_response -> http_response).

Definition empty_png : list Z :=
  [137;80;78;71;13;10;26;10;0;0;0;13;73;72;68;82;0;0;0;1;0;0;0;1;8;6;0;0;0;31;21;196;
   137;0;0;0;10;73;68;65;84;120;156;99;96;0;0;0;2;0;1;115;117;1;24;0;0;0;0;73;69;78;68;174;66;96;130].

Definition image_wanted (req : http_request) : bool :=
  let path := path_of req in
  starts_with (CS "/assets/img/") path || starts_with (CS "/assets/uploads/") path || starts_with (CS "/assets/profile/") path ||
  match hr_accept req with
  | Some accept => starts_with (CS "image/") (skip (fun c => (c =? 32) || (c =? 9)) accept)
  | None => false
  end.

(** [strstr] stops at the first zero byte of the body; the length is what follows it. *)
Definition strip_html_binary_prefix (r : http_response) : http_response :=
  let body := until_nul (rs_body r) in
  match strstr body (CS "<!doctype html>") with
  | None => r
  | Some doctype =>
      if (length doctype =? length body)%nat then r
      else add_header (CS "Content-Length") (print_int (zlen doctype)) (remove_header (CS "Content-Length") (set_body doctype r))
  end.

Definition head_body (req : http_request) (r : http_response) : http_response :=
  if bool_decide (hr_method req = HEAD) then Http_response (rs_status r) (rs_headers r) [] (rs_deferred r) false else r.

Definition missing_image (req : http_request) (r : http_response) : http_response :=
  if (rs_status r =? 404) && bool_decide (hr_method req = GET) && image_wanted req
  then set_body empty_png
         (add_header (CS "Content-Length") (print_int (zlen empty_png))
            (add_header (CS "Cache-Control") (CS "no-store, no-cache, must-revalidate")
               (add_header (CS "Content-Type") (CS "image/png")
                  (remove_header (CS "Cache-Control") (remove_header (CS "Content-Length") (remove_header (CS "Content-Type") r))))))
  else r.

Definition global_middleware_finish (req : http_request) (r : http_response) : http_response :=
  let req := if hr_head_rewrite req
             then Http_request HEAD (hr_path req) (hr_query req) (hr_host req) (hr_origin req) (hr_accept req) true else req in
  let r := missing_image req (head_body req (strip_html_binary_prefix r)) in
  let r := if is_static_path (path_of req) then add_header (CS "Vary") (CS "Accept-Encoding") r else r in
  add_header (CS "X-Robots-Tag") (if 400 <=? rs_status r then CS "noindex, nofollow" else CS "all") r.

(** The headers set before the request is routed. *)
Definition prepare (req : http_request) (r : http_response) : http_response :=
  let static := is_static_path (path_of req) in
  let r := remove_header (CS "Content-Security-Policy") (add_headers (cors_headers (hr_origin req)) r) in
  let r := if static then r else replace_csp r in
  let r := apply_security_headers static r in
  if static then add_header (CS "Timing-Allow-Origin") (CS "*") r else add_headers link_headers r.

(** A HEAD request is routed as a GET. *)
Definition as_get (req : http_request) : http_request :=
  if bool_decide (hr_method req = HEAD)
  then Http_request GET (hr_path req) (hr_query req) (hr_host req) (hr_origin req) (hr_accept req) true else req.

Definition global_middleware (flywire_write_fenced flywire_is_replica : bool) (req : http_request) (r : http_response) : outcome :=
  if canonical_redirect_needed req
  then Answered (set_body [] (add_header (CS "Location") (canonical_target req) (set_status 301 r)))
  else
    let r := prepare req r in
    if bool_decide (hr_method req = OPTIONS) then Answered (set_body [] (set_status 204 r))
    else if flywire_write_fenced && is_write req
    then Answered (set_body (CS "The site is briefly read-only while FlyWire confirms or moves the primary role; try again shortly.")
                     (add_header (CS "Retry-After") (CS "10") (set_status 503 r)))
    else if flywire_is_replica && is_write req then Forwarded (streq (path_of req) (CS "/file/upload")) r
    else
      let r := next (as_get req) r in
      Answered (if rs_deferred r then r else global_middleware_finish (as_get req) r).
End next.
End site.

(** ** Searching in a text *)

Lemma contains_app a pat b : contains (a ++ pat ++ b) pat = true.
Proof.
  unfold contains. induction a as [|c a IH]; cbn [app].
  - destruct (pat ++ b) eqn:E; cbn [strstr]; rewrite <-?E, starts_with_app; [|done]. apply app_eq_nil in E as [-> _]. done.
  - cbn [strstr]. destruct (starts_with pat _); [done|exact IH].
Qed.

(** ** A replica forwards every write *)

(** C22: On a replica, or on a primary that is fenced, no request of another method than GET, HEAD and
    OPTIONS reaches a handler, nor a GET of the three routes that delete a post, a board or a comment,
    whatever their ids: the answer does not depend on the handler.  A replica forwards such a request
    and a fenced primary refuses it with 503; everywhere else the handler of a GET runs, with the
    routes that follow a link of a mail among them. *)
Theorem middleware_keeps_writes root_url use_tls blog_logo use_rss title fenced replica req r :
  let run next := global_middleware root_url use_tls blog_logo use_rss title next fenced replica req r in
  hr_method req <> OPTIONS -> hr_method req <> HEAD -> canonical_redirect_needed root_url req = false ->
  let deletes := exists id, hr_path req = Some (CS "/post/delete/" ++ id) \/ hr_path req = Some (CS "/board/" ++ id ++ CS "/delete") \/
                            hr_path req = Some (CS "/comment/" ++ id ++ CS "/delete") in
  let mails := exists q, In q [CS "/verify-email"; CS "/confirm-subscription"; CS "/unsubscribe"] /\ hr_path req = Some q in
  (starts_with (CS "/flywire/") (path_of req) = false -> hr_method req <> GET \/ deletes ->
     (fenced = true -> exists r', (forall next, run next = Answered r') /\ rs_status r' = 503) /\
     (fenced = false -> replica = true -> exists bulk r', forall next, run next = Forwarded bulk r')) /\
  (hr_method req = GET -> mails -> rs_deferred r = false ->
     exists r', forall handler, (forall req r, rs_deferred (handler req r) = rs_deferred r) ->
       run handler = Answered (global_middleware_finish req (handler req r'))).
Proof.
  cbv zeta. intros Hopt Hhead Hcan. unfold global_middleware. rewrite Hcan, (bool_decide_false _ Hopt). split.
  - intros Hfly Hw. assert (Hwrite : is_write req = true).
    { unfold is_write. rewrite (bool_decide_false _ Hhead), Hfly. cbn [negb]. rewrite !andb_true_r. destruct Hw as [Hg|[id Hw]].
      - by rewrite (bool_decide_false _ Hg).
      - apply orb_true_iff. right. unfold path_of. destruct Hw as [E|[E|E]]; rewrite E; cbn [default]; unfold mutating_get, Datatypes.id.
        + by rewrite (contains_app (CS "/post") (CS "/delete") (CS "/" ++ id) : contains (CS "/post/delete/" ++ id) _ = true).
        + pose proof (contains_app (CS "/board/" ++ id) (CS "/delete") []) as H. rewrite app_nil_r, <-app_assoc in H.
          rewrite H, starts_with_app. by rewrite orb_true_r.
        + pose proof (contains_app (CS "/comment/" ++ id) (CS "/delete") []) as H. rewrite app_nil_r, <-app_assoc in H.
          rewrite H, starts_with_app. apply orb_true_r. }
    rewrite Hwrite, !andb_true_r. split.
    + intros ->. eexists. split; [by intros|done].
    + intros -> ->. eexists _, _. by intros.
  - intros Hget [q [Hq Hp]] Hdef. assert (Hwrite : is_write req = false).
    { unfold is_write, path_of. rewrite Hp, (bool_decide_true _ Hget). cbn [default negb orb]. by destruct Hq as [<-|[<-|[<-|[]]]]. }
    rewrite Hwrite, !andb_false_r. unfold as_get. rewrite (bool_decide_false _ Hhead). exists (prepare root_url use_tls blog_logo use_rss title req r).
    intros handler Hh. rewrite Hh. replace (rs_deferred (prepare _ _ _ _ _ req r)) with false; [done|].
    symmetry. rewrite <-Hdef. unfold prepare. by destruct (is_static_path (path_of req)).
Qed.

Lemma middleware_keeps_writes_witness :
  let run replica req next := global_middleware (CS "https://fly.board/") true [] false [] next false replica req (Http_response 200 [] [] false false) in
  (exists bulk r', forall next, run true (Http_request GET (Some (CS "/board/7/delete")) None (Some (CS "fly.board")) None None false) next = Forwarded bulk r') /\
  (exists bulk r', forall next, run true (Http_request POST (Some (CS "/post/new")) None (Some (CS "fly.board")) None None false) next = Forwarded bulk r') /\
  exists r', forall body, run true (Http_request GET (Some (CS "/verify-email")) None (Some (CS "fly.board")) None None false) (fun _ => set_body body) =
    Answered (global_middleware_finish (Http_request GET (Some (CS "/verify-email")) None (Some (CS "fly.board")) None None false) (set_body body r')).
Proof.
  pose proof (fun req => middleware_keeps_writes (CS "https://fly.board/") true [] false [] false true req (Http_response 200 [] [] false false)) as H.
  cbv zeta in H |- *. split; [|split].
  - apply H; [done|done|by vm_compute|by vm_compute|right; exists (CS "7"); by right; left|done|done].
  - apply H; [done|done|by vm_compute|by vm_compute|by left|done|done].
  - destruct (H (Http_request GET (Some (CS "/verify-email")) None (Some (CS "fly.board")) None None false)) as [_ H2]; [done|done|by vm_compute|].
    destruct H2 as [r' Hr]; [done|exists (CS "/verify-email"); split; [by left|done]|done|]. exists r'. intros body. by apply Hr.
Defined.

(** ** A HEAD request is answered like a GET *)

Definition with_method (m : method) (req : http_request) : http_request :=
  Http_request m (hr_path req) (hr_query req) (hr_host req) (hr_origin req) (hr_accept req) (hr_head_rewrite req).

Lemma strip_keeps r : rs_status (strip_html_binary_prefix r) = rs_status r /\ rs_deferred (strip_html_binary_prefix r) = rs_deferred r.
Proof. unfold strip_html_binary_prefix. destruct (strstr _ _); [|done]. by destruct (_ =? _)%nat. Qed.

(** Where the handler does not ask for the marker a HEAD request carries, the answer to a HEAD has
    the status and the headers of the answer to a GET and no body, unless nothing is found: the
    transparent image of a missing picture is sent for a GET only. *)
Theorem middleware_head_as_get root_url use_tls blog_logo use_rss title next fenced replica req r :
  let run m := global_middleware root_url use_tls blog_logo use_rss title next fenced replica (with_method m req) r in
  (forall q r, next (as_get (with_method HEAD q)) r = next (with_method GET q) r) -> hr_head_rewrite req = false ->
  mutating_get (path_of req) = false ->
  match run GET, run HEAD with
  | Answered g, Answered h =>
      rs_status h = rs_status g /\ (rs_deferred g = true -> h = g) /\
      (rs_deferred g = false -> rs_status g <> 404 -> rs_headers h = rs_headers g /\ rs_body h = [])
  | _, _ => False
  end.
Proof.
  cbv zeta. intros Hnext Hmark Hmut. unfold global_middleware.
  assert (Hc : canonical_redirect_needed root_url (with_method HEAD req) = canonical_redirect_needed root_url (with_method GET req)) by done.
  rewrite Hc. destruct (canonical_redirect_needed root_url (with_method GET req)); [done|].
  rewrite !bool_decide_false by done. assert (Hw : forall m, m = GET \/ m = HEAD -> is_write (with_method m req) = false).
  { intros m [-> | ->]; unfold is_write; cbn [with_method hr_method]; [|done].
    unfold path_of in *. cbn [hr_path with_method]. by rewrite Hmut. }
  rewrite !Hw by auto. rewrite !andb_false_r. rewrite Hnext.
  change (prepare _ _ _ _ _ (with_method HEAD req) r) with (prepare root_url use_tls blog_logo use_rss title (with_method GET req) r).
  change (as_get (with_method GET req)) with (with_method GET req).
  destruct (next (with_method GET req) _) as [st hs body def fs]. cbn [rs_deferred]. destruct def; [done|].
  unfold global_middleware_finish, as_get. cbn [with_method hr_method hr_head_rewrite]. rewrite Hmark. cbn [bool_decide decide_rel].
  rewrite !bool_decide_true by done. cbn [hr_head_rewrite hr_path hr_query hr_host hr_origin hr_accept hr_method].
  pose proof (strip_keeps (Http_response st hs body false fs)) as [Hst Hdef]. cbn in Hst, Hdef.
  set (r1 := strip_html_binary_prefix _) in *. unfold head_body, missing_image, path_of. cbn [hr_method hr_path hr_accept].
  rewrite (bool_decide_true (GET = GET)), (bool_decide_true (HEAD = HEAD)), !(bool_decide_false (GET = HEAD)), !(bool_decide_false (HEAD = GET)), andb_false_r by done. cbn [andb rs_status].
  destruct (Z.eqb_spec (rs_status r1) 404) as [E404|E404]; cbn [andb].
  - destruct (is_static_path _), (image_wanted _); cbn; (split; [done|split; [intros H; congruence|intros _ H; by destruct H]]).
  - destruct (is_static_path _); cbn; (split; [done|split; [intros H; congruence|done]]).
Qed.

Lemma middleware_head_as_get_witness :
  match global_middleware (CS "https://fly.board/") true [] false [] (fun _ => set_body (CS "hello")) false false
          (Http_request HEAD (Some (CS "/post/1")) None None None None false) (Http_response 200 [] [] false false) with
  | Answered h => rs_status h = 200 /\ rs_body h = [] /\ rs_headers h <> []
  | Forwarded _ _ => False
  end.
Proof.
  pose proof (middleware_head_as_get (CS "https://fly.board/") true [] false [] (fun _ => set_body (CS "hello")) false false
    (Http_request HEAD (Some (CS "/post/1")) None None None None false) (Http_response 200 [] [] false false) ltac:(done) eq_refl eq_refl) as H.
  vm_compute in H |- *. destruct H as (Hs & _ & H). destruct H as [_ Hb]; [done|done|]. by repeat split.
Defined.

(** ** Where a redirect leads *)

Lemma strchr_head s c pre suf : strchr s c = Some (pre, suf) -> exists r, suf = c :: r.
Proof. intros H. apply strchr_spec in H. naive_solver. Qed.

(** The first two characters of a text are slashes: a browser reads a host after them. *)
Definition leaves_site (s : cstr) : bool := starts_with (CS "//") s.

Lemma local_path_stays s : local_path s = true -> starts_with (CS "/") s = true /\ leaves_site s = false.
Proof.
  unfold local_path, leaves_site. destruct s as [|c s]; [done|]. destruct (Z.eqb_spec c 47) as [->|Hc].
  - destruct s as [|c' s]; [done|]. intros H. split; [done|]. cbn [starts_with]. apply negb_true_iff, Z.eqb_neq in H. rewrite (proj2 (Z.eqb_neq 47 c')) by congruence. done.
  - intros H. exfalso. destruct c as [|c|c]; [done| |done].
    repeat (destruct c as [c|c|]; try discriminate). by destruct Hc.
Qed.

(** A redirect to a referring page goes to the fallback or to a path of this site that is no asset,
    except that a referer of the site's origin followed by two slashes leads to the host it names. *)
Theorem redirect_leaves_site_exactly root_url referer fallback :
  let target := redirect_referer_safe root_url referer fallback in
  (target = fallback \/ starts_with (CS "/") target = true /\ is_asset_or_sw_path target = false /\
     (leaves_site target = true -> exists host, referer = Some (site_origin root_url ++ CS "//" ++ host) /\ target = CS "//" ++ host)) /\
  forall host, starts_with (CS "/") (site_origin root_url) = false ->
    redirect_referer_safe root_url (Some (site_origin root_url ++ CS "//" ++ host)) fallback = CS "//" ++ host.
Proof.
  cbv zeta. split.
  - unfold redirect_referer_safe. destruct referer as [s|]; [|by left]. destruct (streq s []); [by left|].
    destruct (local_path s && negb (is_asset_or_sw_path s)) eqn:E1.
    { apply andb_true_iff in E1 as [H1 H2%negb_true_iff]. apply local_path_stays in H1 as [H1 H1']. right. rewrite H1'. by repeat split. }
    clear E1. set (path := drop (length (site_origin root_url)) s). set (target := if starts_with (CS "/") path then path else CS "/").
    destruct (starts_with (site_origin root_url) s && (streq path [] || starts_with (CS "/") path) && negb (is_asset_or_sw_path target)) eqn:E2.
    { apply andb_true_iff in E2 as [[H1 H2]%andb_true_iff H3%negb_true_iff]. right. apply starts_with_spec in H1 as [r ->].
      assert (Hp : path = r) by apply drop_app_length. split; [|split; [done|]].
      - unfold target. by destruct (starts_with (CS "/") path) eqn:E.
      - unfold target, leaves_site. destruct (starts_with (CS "/") path); [|done]. rewrite Hp. intros [host ->]%starts_with_spec. by exists host. }
    clear E2. destruct (strstr s (CS "://")) as [sep|]; [|by left]. destruct (strchr (drop 3 sep) (CH "/")) as [[pre p]|]; [|by left].
    destruct (local_path p && negb (is_asset_or_sw_path p)) eqn:E3; [|by left]. right.
    apply andb_true_iff in E3 as [H1 H2%negb_true_iff]. apply local_path_stays in H1 as [H1 H1']. rewrite H1'. by repeat split.
  - intros host Ho. unfold redirect_referer_safe.
    assert (Hne : streq (site_origin root_url ++ CS "//" ++ host) [] = false) by (apply streq_neq; by destruct (site_origin root_url)).
    rewrite Hne. replace (local_path _) with false; last first.
    { symmetry. destruct (local_path _) eqn:E; [|done]. apply local_path_stays in E as [E1 E2]. destruct (site_origin root_url) as [|c o]; [done|].
      cbn in Ho, E1. congruence. }
    cbn [andb]. rewrite drop_app_length, starts_with_app. cbn [starts_with Z.eqb Pos.eqb andb orb app negb]. by rewrite orb_true_r.
Qed.

Lemma redirect_leaves_site_exactly_witness :
  redirect_referer_safe (CS "https://fly.board/") (Some (CS "https://fly.board//evil.example/login")) (CS "/") = CS "//evil.example/login".
Proof.
  destruct (redirect_leaves_site_exactly (CS "https://fly.board/") None (CS "/")) as [_ H]. exact (H (CS "evil.example/login") eq_refl).
Defined.

(** ** Which sites may read an answer with credentials *)

Definition ALLOW_ORIGIN : cstr := CS "Access-Control-Allow-Origin".
Definition ALLOW_CREDENTIALS : cstr := CS "Access-Control-Allow-Credentials".
(** The values of a header. *)
Definition values (k : cstr) (l : list header) : list (list Z) := map snd (List.filter (fun h => streq (fst h) k) l).

Lemma values_app k a b : values k (a ++ b) = values k a ++ values k b.
Proof. unfold values. by rewrite List.filter_app, map_app. Qed.

Lemma values_remove k k' r : streq k' k = false -> values k (rs_headers (remove_header k' r)) = values k (rs_headers r).
Proof.
  intros Hk. unfold values, remove_header. cbn [rs_headers]. induction (rs_headers r) as [|[n v] l IH]; [done|]. cbn [List.filter fst].
  destruct (streq n k') eqn:E; cbn [negb List.filter fst].
  - apply streq_eq in E as ->. by rewrite Hk.
  - destruct (streq n k); cbn [map]; by rewrite IH.
Qed.

Lemma origins_match_iff a b : origins_match a b = true <-> map tolower a = map tolower b.
Proof.
  unfold origins_match. rewrite andb_true_iff, streq_eq, Z.eqb_eq. split; [tauto|]. intros E. split; [|done].
  apply (f_equal length) in E. rewrite !length_map in E. unfold zlen. lia.
Qed.

(** An answer names one origin that may read it, and lets it send credentials exactly when the
    request names the origin of the site, in any case of letters; another origin gets the wildcard. *)
Theorem cors_credentials_exact root_url use_tls blog_logo use_rss title req r :
  values ALLOW_ORIGIN (rs_headers r) = [] -> values ALLOW_CREDENTIALS (rs_headers r) = [] ->
  let hs := rs_headers (prepare root_url use_tls blog_logo use_rss title req r) in
  match hr_origin req with
  | Some ((_ :: _) as o) =>
      if decide (map tolower o = map tolower (site_origin root_url))
      then values ALLOW_ORIGIN hs = [o] /\ values ALLOW_CREDENTIALS hs = [CS "true"]
      else values ALLOW_ORIGIN hs = [CS "*"] /\ values ALLOW_CREDENTIALS hs = []
  | _ => values ALLOW_ORIGIN hs = [site_origin root_url] /\ values ALLOW_CREDENTIALS hs = []
  end.
Proof.
  intros Ho Hc hs.
  assert (H : forall k, In k [ALLOW_ORIGIN; ALLOW_CREDENTIALS] -> values k hs = values k (rs_headers r) ++ values k (cors_headers root_url (hr_origin req))).
  { intros k Hk. unfold hs, prepare.
    assert (Hsec : forall b, values k (security_headers b) = []) by (intros b; by destruct Hk as [<-|[<-|[]]]).
    assert (Hlink : values k (link_headers blog_logo use_rss title) = []).
    { unfold link_headers. rewrite !values_app. destruct (negb _ && _), use_rss; by destruct Hk as [<-|[<-|[]]]. }
    assert (Hbase : values k (rs_headers (remove_header (CS "Content-Security-Policy") (add_headers (cors_headers root_url (hr_origin req)) r))) =
      values k (rs_headers r) ++ values k (cors_headers root_url (hr_origin req))).
    { rewrite values_remove by (by destruct Hk as [<-|[<-|[]]]). cbn [add_headers rs_headers]. apply values_app. }
    destruct (is_static_path (path_of req)); unfold apply_security_headers, replace_csp, add_header; cbn [add_headers rs_headers].
    - rewrite !values_app, Hbase, Hsec. destruct Hk as [<-|[<-|[]]]; by rewrite !app_nil_r.
    - rewrite !values_app, Hlink, Hsec, values_remove, Hbase by (by destruct Hk as [<-|[<-|[]]]).
      destruct Hk as [<-|[<-|[]]]; cbn -[values]; by rewrite !app_nil_r. }
  rewrite !H by (cbn; tauto). rewrite Ho, Hc. cbn [app]. unfold cors_headers. destruct (hr_origin req) as [[|c o]|]; [done| |done].
  destruct (decide _) as [E|E].
  - by rewrite (proj2 (origins_match_iff _ _) E).
  - destruct (origins_match _ _) eqn:E'; [|done]. by apply origins_match_iff in E'.
Qed.

Lemma cors_credentials_exact_witness :
  let hs o := rs_headers (prepare (CS "https://fly.board/") true [] false [] (Http_request POST (Some (CS "/x")) None None (Some o) None false) (Http_response 200 [] [] false false)) in
  values ALLOW_CREDENTIALS (hs (CS "https://FLY.board")) = [CS "true"] /\ values ALLOW_CREDENTIALS (hs (CS "https://fly.board.evil")) = [].
Proof.
  pose proof (fun o => cors_credentials_exact (CS "https://fly.board/") true [] false [] (Http_request POST (Some (CS "/x")) None None (Some o) None false)
    (Http_response 200 [] [] false false) eq_refl eq_refl) as H.
  split; [exact (proj2 (H (CS "https://FLY.board")))|exact (proj2 (H (CS "https://fly.board.evil")))].
Defined.
