(* ===== verification/Users.v ===== *)
(** * The table of accounts (src/src/db/user.c)

    The rows, the tokens of confirmation mails, and the id the next account gets.  The schema's
    constraints are SQLite's and are written out where a statement relies on them: an INSERT fails when
    its id, name or address is taken ([insert_user]), an UPDATE when another row has the new name; a
    row without an id of its own gets one above all that were ever given (AUTOINCREMENT), and a row
    with one, which only a replica inserts, moves that counter.  A statement that fails ([ok] is false:
    the database is locked or full) changes nothing.  The journal of the sites is Flywire's; the tables
    of content a deletion clears are not modelled. *)
From S2P Require Import Prelude CStr SiteSettings.

Record user := User {
  u_id : Z;
  u_username : list Z;
  u_email : list Z;
  u_password_hash : list Z;
  (** [None] where the column is NULL *)
  u_role : option (list Z);
  u_active : Z;
  u_ghosted : Z;
  u_email_verified : Z;
  u_totp_enabled : Z;
  u_totp_secret : list Z;
  u_totp_recovery : list Z;
}.

Record email_token := EmailToken { et_user : Z; et_token : list Z; et_expires : Z; et_created : Z }.

Record accounts_db := AccountsDb { db_users : list user; db_tokens : list email_token; db_next_id : Z }.

Definition set_users (l : list user) (db : accounts_db) : accounts_db := AccountsDb l (db_tokens db) (db_next_id db).

Definition db_user_get_by_username (db : accounts_db) (username : cstr) : option user :=
  List.find (fun u => streq (u_username u) username) (db_users db).
Definition db_user_get_by_id (db : accounts_db) (id : Z) : option user :=
  List.find (fun u => u_id u =? id) (db_users db).

(** [UPDATE users SET ... WHERE id=?] *)
Definition update_user (ok : bool) (id : Z) (f : user -> user) (db : accounts_db) : bool * accounts_db :=
  (ok, if ok then set_users (map (fun u => if u_id u =? id then f u else u) (db_users db)) db else db).

(** [INSERT INTO users ...], with an id of its own or without. *)
Definition insert_user (ok : bool) (own_id : option Z) (row : Z -> user) (db : accounts_db) : option (Z * accounts_db) :=
  let id := default (db_next_id db) own_id in
  let u := row id in
  if negb ok || existsb (fun v => (u_id v =? id) || (streq (u_username v) (u_username u) || streq (u_email v) (u_email u))) (db_users db) then None
  else Some (id, AccountsDb (db_users db ++ [u]) (db_tokens db) (Z.max (db_next_id db) (id + 1))).

(** The defaults of the columns: role user, active, and verified. *)
Definition db_user_create (ok : bool) (username email password_hash : cstr) (db : accounts_db) : bool * accounts_db :=
  match insert_user ok None (fun id => User id username email password_hash (Some (CS "user")) 1 0 1 0 [] []) db with
  | Some (_, db) => (true, db)
  | None => (false, db)
  end.

(** The row a replica applies to its table ([INSERT ... ON CONFLICT(id) DO UPDATE SET] every column). *)
Definition replica_upsert (ok : bool) (row : user) (db : accounts_db) : bool * accounts_db :=
  let taken := existsb (fun v => negb (u_id v =? u_id row) && (streq (u_username v) (u_username row) || streq (u_email v) (u_email row))) (db_users db) in
  match db_user_get_by_id db (u_id row) with
  | Some _ =>
      if negb ok || taken then (false, db)
      else (true, set_users (map (fun v => if u_id v =? u_id row then row else v) (db_users db)) db)
  | None => match insert_user ok (Some (u_id row)) (fun _ => row) db with Some (_, db) => (true, db) | None => (false, db) end
  end.

Definition db_user_update_role (ok : bool) (id : Z) (role : cstr) : accounts_db -> bool * accounts_db :=
  update_user ok id (fun u => User (u_id u) (u_username u) (u_email u) (u_password_hash u) (Some role) (u_active u) (u_ghosted u)
    (u_email_verified u) (u_totp_enabled u) (u_totp_secret u) (u_totp_recovery u)).

(** True when a row was changed. *)
Definition community_user_set_active (ok : bool) (id : Z) (active : bool) (db : accounts_db) : bool * accounts_db :=
  let '(done, db') := update_user ok id (fun u => User (u_id u) (u_username u) (u_email u) (u_password_hash u) (u_role u)
    (if active then 1 else 0) (u_ghosted u) (u_email_verified u) (u_totp_enabled u) (u_totp_secret u) (u_totp_recovery u)) db in
  (done && (Z.of_nat (countb (fun u => u_id u =? id) (db_users db)) =? 1), db').

Definition db_user_update_password (ok : bool) (id : Z) (password_hash : cstr) : accounts_db -> bool * accounts_db :=
  update_user ok id (fun u => User (u_id u) (u_username u) (u_email u) password_hash (u_role u) (u_active u) (u_ghosted u)
    (u_email_verified u) (u_totp_enabled u) (u_totp_secret u) (u_totp_recovery u)).

Definition db_user_update_totp (ok : bool) (id : Z) (secret_b32 : cstr) (enabled : bool) : accounts_db -> bool * accounts_db :=
  update_user ok id (fun u => User (u_id u) (u_username u) (u_email u) (u_password_hash u) (u_role u) (u_active u) (u_ghosted u)
    (u_email_verified u) (if enabled then 1 else 0) secret_b32 (u_totp_recovery u)).

Definition db_user_update_totp_recovery (ok : bool) (id : Z) (recovery_csv : cstr) : accounts_db -> bool * accounts_db :=
  update_user ok id (fun u => User (u_id u) (u_username u) (u_email u) (u_password_hash u) (u_role u) (u_active u) (u_ghosted u)
    (u_email_verified u) (u_totp_enabled u) (u_totp_secret u) recovery_csv).

Definition db_user_set_email_verified (ok : bool) (id : Z) (verified : bool) : accounts_db -> bool * accounts_db :=
  update_user ok id (fun u => User (u_id u) (u_username u) (u_email u) (u_password_hash u) (u_role u) (u_active u) (u_ghosted u)
    (if verified then 1 else 0) (u_totp_enabled u) (u_totp_secret u) (u_totp_recovery u)).

(** ** Tokens of mails *)

Definition db_email_token_create (ok : bool) (user_id : Z) (token : cstr) (expires_at now : Z) (db : accounts_db) : bool * accounts_db :=
  (ok, if ok then AccountsDb (db_users db) (db_tokens db ++ [EmailToken user_id token expires_at now]) (db_next_id db) else db).

Definition db_email_token_delete_for_user (ok : bool) (user_id : Z) (db : accounts_db) : bool * accounts_db :=
  (ok, if ok then AccountsDb (db_users db) (List.filter (fun t => negb (et_user t =? user_id)) (db_tokens db)) (db_next_id db) else db).

(** The account is marked and its tokens are deleted, each if its statement succeeds. *)
Definition db_email_token_consume (ok : nat -> bool) (now : Z) (token : cstr) (db : accounts_db) : Z * accounts_db :=
  match List.find (fun t => streq (et_token t) token) (db_tokens db) with
  | None => (0, db)
  | Some t =>
      if (et_user t <=? 0) || (et_expires t <? now) then (0, db)
      else
        let '(_, db) := db_user_set_email_verified (ok 0%nat) (et_user t) true db in
        let '(_, db) := db_email_token_delete_for_user (ok 1%nat) (et_user t) db in
        (et_user t, db)
  end.

(** The unverified accounts with a token older than a day, and the tokens without an account; the
    count of the accounts. *)
Definition db_user_delete_unverified_expired (ok : nat -> bool) (now : Z) (db : accounts_db) : Z * accounts_db :=
  if negb (ok 0%nat) then (0, db)
  else
    let expired u := (u_email_verified u =? 0) && existsb (fun t => (et_user t =? u_id u) && (et_created t <? now - 86400)) (db_tokens db) in
    let users := List.filter (fun u => negb (expired u)) (db_users db) in
    let tokens := if ok 1%nat then List.filter (fun t => existsb (fun u => u_id u =? et_user t) users) (db_tokens db) else db_tokens db in
    (zlen (List.filter expired (db_users db)), AccountsDb users tokens (db_next_id db)).

(** ** Deletion *)

(** The row of an account that is deleted by its owner: it stays, without its data.  The two databases
    are committed one after the other; [ok] tells whether everything succeeds. *)
Definition ghost_name (id : Z) : cstr := snprintf_s 64 (CS "ghost-" ++ print_int id).
Definition ghost_email (id : Z) : cstr := snprintf_s 96 (CS "ghost+" ++ print_int id ++ CS "@deleted.invalid").
Definition ghost_row (id : Z) (u : user) : user := User (u_id u) (ghost_name id) (ghost_email id) (CS "!") (Some (CS "user")) 0 1 0 0 [] [].

(** Another account that holds the name or the address makes the statement fail. *)
Definition db_user_ghost (ok : bool) (id : Z) (db : accounts_db) : bool * accounts_db :=
  let rows := List.filter (fun u => (u_id u =? id) && (u_ghosted u =? 0)) (db_users db) in
  let taken := existsb (fun u => negb (u_id u =? id) && (streq (u_username u) (ghost_name id) || streq (u_email u) (ghost_email id))) (db_users db) in
  if (id <=? 0) || negb ok || taken || negb (zlen rows =? 1) then (false, db)
  else (true, AccountsDb (map (fun u => if (u_id u =? id) && (u_ghosted u =? 0) then ghost_row id u else u) (db_users db))
                (List.filter (fun t => negb (et_user t =? id)) (db_tokens db)) (db_next_id db)).

(** Only the accounts and the tokens. *)
Definition db_user_delete_with_cascade (ok_tokens ok : bool) (id : Z) (db : accounts_db) : bool * accounts_db :=
  let '(_, db) := db_email_token_delete_for_user ok_tokens id db in
  (ok, if ok then set_users (List.filter (fun u => negb (u_id u =? id)) (db_users db)) db else db).

(** ** The account of admin.settings *)

Definition SITE_ADMIN_SETTING : string := "site_admin_user_id".

Definition username_taken (db : accounts_db) (username : cstr) (except_id : Z) : bool :=
  match db_user_get_by_username db username with Some u => negb (u_id u =? except_id) | None => false end.

(** The name of the [n]th attempt, cut to its buffer. *)
Definition site_admin_candidate (wanted : cstr) (n : nat) : cstr :=
  snprintf_s 128 (match n with
                  | 1%nat => wanted
                  | 2%nat => wanted ++ CS "-admin"
                  | _ => wanted ++ CS "-admin" ++ print_int (Z.of_nat n - 1)
                  end).

Definition pick_site_admin_name (db : accounts_db) (wanted : cstr) (except_id : Z) : option cstr :=
  List.find (fun name => negb (username_taken db name except_id)) (map (site_admin_candidate wanted) (seq 1 100)).

(** [UPDATE users SET username=?, role='admin', active=1 WHERE id=?] *)
Definition update_site_admin (ok : bool) (id : Z) (name : cstr) (db : accounts_db) : bool * accounts_db :=
  if existsb (fun v => negb (u_id v =? id) && streq (u_username v) name) (db_users db) then (false, db)
  else update_user ok id (fun u => User (u_id u) name (u_email u) (u_password_hash u) (Some (CS "admin")) 1 (u_ghosted u)
    (u_email_verified u) (u_totp_enabled u) (u_totp_secret u) (u_totp_recovery u)) db.

Definition site_admin_email (now : Z) : cstr := snprintf_s 160 (CS "site-admin+" ++ print_int now ++ CS "@localhost.invalid").

(** The id of the account, 0 on an error.  [ok] tells of the reading of the setting, the reading of the
    account, the writing of the account and that of the setting; the reading of a name succeeds. *)
Definition db_user_ensure_site_admin (ok : nat -> bool) (username : option cstr) (now : Z) (db : accounts_db) (st : settings) :
    Z * accounts_db * settings :=
  match username with
  | None | Some [] => (0, db, st)
  | Some username =>
      let id := match (if ok 0%nat then db_site_setting_get st SITE_ADMIN_SETTING 32 else None) with Some value => atoi value | None => 0 end in
      match (if (0 <? id) && ok 1%nat then db_user_get_by_id db id else None) with
      | Some existing =>
          let current := u_username existing in
          let name := snprintf_s 128 (if negb (streq current username) && negb (username_taken db username id) then username else current) in
          let '(done, db) := update_site_admin (ok 2%nat) id name db in (if done : bool then id else 0, db, st)
      | None =>
          match pick_site_admin_name db username 0 with
          | None => (0, db, st)
          | Some name =>
              match insert_user (ok 2%nat) None (fun id => User id name (site_admin_email now) (CS "!") (Some (CS "admin")) 1 0 1 0 [] []) db with
              | None => (0, db, st)
              | Some (id, db) =>
                  let '(stored, st) := db_site_setting_set (ok 3%nat) SITE_ADMIN_SETTING (snprintf_s 32 (print_int id)) st in
                  (if stored : bool then id else 0, db, st)
              end
          end
      end
  end.

(** ** Well-formed tables *)

(** Ids are positive, used once and below the next one; names are unique. *)
Record accounts_wf (db : accounts_db) : Prop := {
  wf_ids : Forall (fun u => 0 < u_id u < db_next_id db) (db_users db);
  wf_unique : NoDup (map u_id (db_users db));
  wf_names : NoDup (map u_username (db_users db));
  wf_tokens : Forall (fun t => et_user t < db_next_id db) (db_tokens db);
}.

Lemma get_by_id_spec db id u : accounts_wf db -> db_user_get_by_id db id = Some u <-> u ∈ db_users db /\ u_id u = id.
Proof.
  intros Hwf. unfold db_user_get_by_id. pose proof (wf_unique _ Hwf) as Hn. induction (db_users db) as [|v l IH]; cbn.
  - split; [done|]. intros [[]%not_elem_of_nil _].
  - cbn in Hn. apply NoDup_cons in Hn as [Hv Hn]. destruct (Z.eqb_spec (u_id v) id) as [E|E].
    + split; [intros [= ->]; split; [left|done]|]. intros [[->|H]%elem_of_cons Hu]; [done|]. exfalso. apply Hv, list_elem_of_fmap.
      exists u. split; [congruence|done].
    + rewrite IH by done. split; [intros [H Hu]; split; [by right|done]|]. intros [[->|H]%elem_of_cons Hu]; done.
Qed.

Lemma update_user_get ok id f db id' : (forall u, u_id (f u) = u_id u) ->
  db_user_get_by_id (snd (update_user ok id f db)) id' =
  (if ok && (id' =? id) then f <$> db_user_get_by_id db id' else db_user_get_by_id db id').
Proof.
  intros Hf. unfold update_user, db_user_get_by_id. destruct ok; [|done]. cbn [snd andb set_users db_users].
  induction (db_users db) as [|u l IH]; cbn; [by destruct (_ =? _)|].
  destruct (Z.eqb_spec (u_id u) id) as [E|E].
  - rewrite Hf. destruct (Z.eqb_spec (u_id u) id') as [E'|E']; [|exact IH]. subst. by rewrite (proj2 (Z.eqb_eq _ _)).
  - destruct (Z.eqb_spec (u_id u) id') as [E'|E']; [|exact IH]. by rewrite (proj2 (Z.eqb_neq id' id)) by congruence.
Qed.

Lemma get_by_username_spec db name u : accounts_wf db -> db_user_get_by_username db name = Some u <-> u ∈ db_users db /\ u_username u = name.
Proof.
  intros Hwf. unfold db_user_get_by_username. pose proof (wf_names _ Hwf) as Hn. induction (db_users db) as [|v l IH]; cbn.
  - split; [done|]. intros [[]%not_elem_of_nil _].
  - cbn in Hn. apply NoDup_cons in Hn as [Hv Hn]. destruct (streq (u_username v) name) eqn:E.
    + apply streq_eq in E. split; [intros [= ->]; split; [left|done]|]. intros [[->|H]%elem_of_cons Hu]; [done|]. exfalso. apply Hv, list_elem_of_fmap.
      exists u. split; [congruence|done].
    + apply streq_neq in E. rewrite IH by done. split; [intros [H Hu]; split; [by right|done]|]. intros [[->|H]%elem_of_cons Hu]; done.
Qed.

Lemma update_user_get_name id f db name : (forall u, u_username (f u) = u_username u) ->
  db_user_get_by_username (snd (update_user true id f db)) name = (fun u => if u_id u =? id then f u else u) <$> db_user_get_by_username db name.
Proof.
  intros Hf. unfold db_user_get_by_username. cbn. induction (db_users db) as [|u l IH]; [done|]. cbn.
  replace (u_username (if u_id u =? id then f u else u)) with (u_username u) by (by destruct (_ =? _)).
  by destruct (streq _ _).
Qed.

(** ** Every operation keeps the table well-formed *)

Inductive accounts_op :=
  | Create (username email password_hash : list Z)
  | Update_role (id : Z) (role : list Z)
  | Set_active (id : Z) (active : bool)
  | Update_password (id : Z) (password_hash : list Z)
  | Update_totp (id : Z) (secret : list Z) (enabled : bool)
  | Update_recovery (id : Z) (recovery : list Z)
  | Set_verified (id : Z) (verified : bool)
  | Token_create (id : Z) (token : list Z) (expires now : Z)
  | Token_delete (id : Z)
  | Token_consume (now : Z) (token : list Z)
  | Delete_expired (now : Z)
  | Ghost (id : Z)
  | Delete (id : Z)
  | Upsert (row : user).

Definition run_op (ok : nat -> bool) (o : accounts_op) (db : accounts_db) : accounts_db :=
  match o with
  | Create u e p => snd (db_user_create (ok 0%nat) u e p db)
  | Update_role id r => snd (db_user_update_role (ok 0%nat) id r db)
  | Set_active id a => snd (community_user_set_active (ok 0%nat) id a db)
  | Update_password id p => snd (db_user_update_password (ok 0%nat) id p db)
  | Update_totp id s e => snd (db_user_update_totp (ok 0%nat) id s e db)
  | Update_recovery id r => snd (db_user_update_totp_recovery (ok 0%nat) id r db)
  | Set_verified id v => snd (db_user_set_email_verified (ok 0%nat) id v db)
  | Token_create id t e now => if 0 <? id then if id <? db_next_id db then snd (db_email_token_create (ok 0%nat) id t e now db) else db else db
  | Token_delete id => snd (db_email_token_delete_for_user (ok 0%nat) id db)
  | Token_consume now t => snd (db_email_token_consume ok now t db)
  | Delete_expired now => snd (db_user_delete_unverified_expired ok now db)
  | Ghost id => snd (db_user_ghost (ok 0%nat) id db)
  | Delete id => snd (db_user_delete_with_cascade (ok 0%nat) (ok 1%nat) id db)
  | Upsert row => if 0 <? u_id row then snd (replica_upsert (ok 0%nat) row db) else db
  end.

Lemma NoDup_map_filter {A B} (f : A -> B) (p : A -> bool) l : NoDup (map f l) -> NoDup (map f (List.filter p l)).
Proof.
  induction l as [|a l IH]; cbn; [done|]. intros [Ha Hl]%NoDup_cons. destruct (p a); cbn; [|by apply IH].
  apply NoDup_cons. split; [|by apply IH]. intros Hin. apply Ha. apply list_elem_of_fmap in Hin as (x & E & Hx).
  apply list_elem_of_fmap. exists x. split; [done|]. apply list_elem_of_In, filter_In in Hx as [Hx _]. by apply list_elem_of_In.
Qed.

Lemma Forall_filter {A} (P : A -> Prop) (p : A -> bool) l : Forall P l -> Forall P (List.filter p l).
Proof. intros H. induction H as [|a l Ha _ IH]; cbn; [done|]. destruct (p a); [by constructor|done]. Qed.

Lemma wf_map f db : (forall u, u_id (f u) = u_id u /\ u_username (f u) = u_username u) -> accounts_wf db -> accounts_wf (set_users (map f (db_users db)) db).
Proof.
  intros Hf [H1 H2 H3 H4]. split; cbn; [|by rewrite map_map, (map_ext _ u_id) by apply Hf|by rewrite map_map, (map_ext _ u_username) by apply Hf|done].
  apply Forall_map. eapply Forall_impl; [exact H1|]. intros u Hu. cbn. by rewrite (proj1 (Hf u)).
Qed.

Lemma wf_filter p q db : accounts_wf db -> accounts_wf (AccountsDb (List.filter p (db_users db)) (List.filter q (db_tokens db)) (db_next_id db)).
Proof. intros [H1 H2 H3 H4]. split; cbn; [by apply Forall_filter|by apply NoDup_map_filter|by apply NoDup_map_filter|by apply Forall_filter]. Qed.

Lemma filter_true {A} (l : list A) : List.filter (fun _ => true) l = l.
Proof. induction l as [|a l IH]; [done|]. cbn. by rewrite IH. Qed.

Lemma wf_filter_users p db : accounts_wf db -> accounts_wf (AccountsDb (List.filter p (db_users db)) (db_tokens db) (db_next_id db)).
Proof. intros H. apply (wf_filter p (fun _ => true)) in H. by rewrite filter_true in H. Qed.

Lemma wf_update ok id f db : (forall u, u_id (f u) = u_id u /\ u_username (f u) = u_username u) -> accounts_wf db -> accounts_wf (snd (update_user ok id f db)).
Proof.
  intros Hf Hwf. unfold update_user. destruct ok; [|done]. cbn [snd]. apply wf_map; [|done]. intros u. destruct (u_id u =? id); [apply Hf|done].
Qed.

Lemma wf_tokens_delete ok id db : accounts_wf db -> accounts_wf (snd (db_email_token_delete_for_user ok id db)).
Proof.
  intros Hwf. unfold db_email_token_delete_for_user. destruct ok; [|done]. cbn [snd].
  rewrite <-(filter_true (db_users db)). by apply (wf_filter (fun _ => true)).
Qed.

Lemma insert_user_spec ok own_id row db id db' : insert_user ok own_id row db = Some (id, db') ->
  ok = true /\ id = default (db_next_id db) own_id /\ db' = AccountsDb (db_users db ++ [row id]) (db_tokens db) (Z.max (db_next_id db) (id + 1)) /\
  forall v, v ∈ db_users db -> u_id v <> id /\ u_username v <> u_username (row id) /\ u_email v <> u_email (row id).
Proof.
  unfold insert_user. destruct (negb ok || _) eqn:E; [done|]. apply orb_false_iff in E as [Hok%negb_false_iff Hex].
  intros [= <- <-]. do 3 (split; [done|]). intros v Hv. rewrite <-not_true_iff_false, existsb_exists in Hex.
  assert (Hn : (u_id v =? default (db_next_id db) own_id) || (streq (u_username v) (u_username (row (default (db_next_id db) own_id))) ||
    streq (u_email v) (u_email (row (default (db_next_id db) own_id)))) = false).
  { apply not_true_iff_false. intros Ht. apply Hex. exists v. split; [by apply list_elem_of_In|done]. }
  apply orb_false_iff in Hn as [H1 [H2 H3]%orb_false_iff]. split; [by apply Z.eqb_neq|]. split; by apply streq_neq.
Qed.

Lemma existsb_ext_in {A} (p q : A -> bool) l : (forall x, In x l -> p x = q x) -> existsb p l = existsb q l.
Proof. induction l as [|x l IH]; intros H; [done|]. cbn. rewrite (H x) by (by left). rewrite IH; [done|]. intros y Hy. apply H. by right. Qed.

Lemma fresh_append {A B} (f : A -> B) l x : NoDup (map f l) -> (forall y, y ∈ l -> f y <> f x) -> NoDup (map f (l ++ [x])).
Proof.
  intros Hl Hx. rewrite map_app. apply NoDup_app. split; [done|]. split; [|apply NoDup_singleton]. cbn. intros z Hz ->%list_elem_of_singleton.
  apply list_elem_of_fmap in Hz as (y & E & Hy). by apply (Hx y Hy).
Qed.

Lemma wf_insert ok own_id row db id db' : insert_user ok own_id row db = Some (id, db') -> u_id (row id) = id -> 0 < id ->
  accounts_wf db -> accounts_wf db'.
Proof.
  intros E Hrow Hpos [H1 H2 H3 H4]. destruct (insert_user_spec _ _ _ _ _ _ E) as (_ & _ & -> & Hfree).
  split; cbn.
  - apply Forall_app. split; [eapply Forall_impl; [exact H1|]; cbn; lia|]. constructor; [lia|done].
  - apply fresh_append; [done|]. intros y Hy. rewrite Hrow. by apply Hfree.
  - apply fresh_append; [done|]. intros y Hy. by apply Hfree.
  - eapply Forall_impl; [exact H4|]. cbn. lia.
Qed.

(** A free name and address are taken. *)
Lemma insert_free row db : accounts_wf db -> u_id (row (db_next_id db)) = db_next_id db ->
  existsb (fun v => streq (u_username v) (u_username (row (db_next_id db))) || streq (u_email v) (u_email (row (db_next_id db)))) (db_users db) = false ->
  insert_user true None row db = Some (db_next_id db, AccountsDb (db_users db ++ [row (db_next_id db)]) (db_tokens db) (Z.max (db_next_id db) (db_next_id db + 1))).
Proof.
  intros Hwf Hid Hfree. unfold insert_user. cbn [negb orb default from_option]. replace (existsb _ (db_users db)) with false; [done|].
  symmetry. rewrite <- Hfree. apply existsb_ext_in. intros v Hv%list_elem_of_In. pose proof (wf_ids _ Hwf) as Hids. rewrite Forall_forall in Hids.
  by rewrite (proj2 (Z.eqb_neq _ _)) by (specialize (Hids v Hv); lia).
Qed.

Lemma wf_create ok u e p db : 0 < db_next_id db -> accounts_wf db -> accounts_wf (snd (db_user_create ok u e p db)).
Proof.
  intros Hpos Hwf. unfold db_user_create. destruct (insert_user _ _ _ _) as [[id db']|] eqn:E; [|done].
  apply (wf_insert _ _ _ _ _ _ E); [done| |done]. destruct (insert_user_spec _ _ _ _ _ _ E) as (_ & -> & _). done.
Qed.

(** A row is replaced by one of the same id. *)
Lemma wf_replace id f db : (forall u, u_id u = id -> u_id (f u) = id) ->
  (forall u v, u ∈ db_users db -> v ∈ db_users db -> u_id u = id -> u_id v <> id -> u_username v <> u_username (f u)) ->
  accounts_wf db -> accounts_wf (set_users (map (fun u => if u_id u =? id then f u else u) (db_users db)) db).
Proof.
  intros Hf Hfree [H1 H2 H3 H4]. set (g := fun u => if u_id u =? id then f u else u).
  assert (Hid : forall u, u_id (g u) = u_id u) by (intros u; unfold g; destruct (Z.eqb_spec (u_id u) id); [rewrite Hf|]; done).
  split; cbn; [|by rewrite map_map, (map_ext _ u_id)| |done].
  - apply Forall_map. eapply Forall_impl; [exact H1|]. intros u Hu. cbn. fold (g u). by rewrite Hid.
  - clear H1 H4. revert H2 H3 Hfree. induction (db_users db) as [|u l IH]; cbn; [done|]. intros [Hu H2]%NoDup_cons [Hn H3]%NoDup_cons Hfree.
    apply NoDup_cons. split; [|apply IH; [done|done|]; intros a b Ha Hb; apply Hfree; by right].
    intros Hin. apply list_elem_of_fmap in Hin as (w & E & Hw). apply list_elem_of_fmap in Hw as (v & -> & Hv).
    assert (Huv : u_id u <> u_id v) by (intros Ee; apply Hu; rewrite Ee; by apply list_elem_of_fmap_2).
    fold (g u) (g v) in E. unfold g in E. destruct (Z.eqb_spec (u_id u) id) as [Eu|Eu], (Z.eqb_spec (u_id v) id) as [Ev|Ev]; [congruence| | |].
    + by apply (Hfree u v ltac:(left) ltac:(by right) Eu Ev).
    + by apply (Hfree v u ltac:(by right) ltac:(left) Ev Eu).
    + apply Hn. rewrite E. by apply list_elem_of_fmap_2.
Qed.

Lemma none_other (name : cstr) id l : existsb (fun v => negb (u_id v =? id) && streq (u_username v) name) l = false ->
  forall v, v ∈ l -> u_id v <> id -> u_username v <> name.
Proof.
  rewrite <-not_true_iff_false, existsb_exists. intros H v Hv Hne E. apply H. exists v. split; [by apply list_elem_of_In|].
  by rewrite (proj2 (Z.eqb_neq _ _) Hne), E, streq_refl.
Qed.

Lemma wf_replica_upsert ok row db : 0 < u_id row -> accounts_wf db -> accounts_wf (snd (replica_upsert ok row db)).
Proof.
  intros Hpos Hwf. unfold replica_upsert. destruct (db_user_get_by_id db (u_id row)) as [old|].
  - destruct (negb ok || _) eqn:E; [done|]. apply orb_false_iff in E as [_ Hex]. apply (wf_replace (u_id row) (fun _ => row)); [done| |done].
    intros u v _ Hv _ Hne E. rewrite <-not_true_iff_false, existsb_exists in Hex. apply Hex. exists v. split; [by apply list_elem_of_In|].
    by rewrite (proj2 (Z.eqb_neq _ _) Hne), E, streq_refl.
  - destruct (insert_user _ _ _ _) as [[id db']|] eqn:E; [|done]. destruct (insert_user_spec _ _ _ _ _ _ E) as (_ & -> & _).
    by apply (wf_insert _ _ _ _ _ _ E).
Qed.

Lemma wf_ghost ok id db : accounts_wf db -> accounts_wf (snd (db_user_ghost ok id db)).
Proof.
  intros Hwf. unfold db_user_ghost. destruct (_ || _) eqn:E; [done|]. apply orb_false_iff in E as [[_ Hex]%orb_false_iff _].
  destruct Hwf as [H1 H2 H3 H4]. cbn [snd].
  assert (Hid : forall u, u_id (if (u_id u =? id) && (u_ghosted u =? 0) then ghost_row id u else u) = u_id u) by (intros u; by destruct (_ && _)).
  split; cbn.
  - apply Forall_map. eapply Forall_impl; [exact H1|]. intros u Hu. cbn. by rewrite Hid.
  - by rewrite map_map, (map_ext _ u_id).
  - rewrite <-not_true_iff_false, existsb_exists in Hex.
    assert (Hfree : forall u, u ∈ db_users db -> u_id u <> id -> u_username u <> ghost_name id).
    { intros u Hu Hne E. apply Hex. exists u. split; [by apply list_elem_of_In|]. by rewrite (proj2 (Z.eqb_neq _ _) Hne), E, streq_refl. }
    clear Hex H1 H4 Hid. revert H2 H3 Hfree. induction (db_users db) as [|u l IH]; cbn; [done|]. intros [Hu H2]%NoDup_cons [Hn H3]%NoDup_cons Hfree.
    assert (Hrest : forall v, v ∈ l -> u_id v <> id -> u_username v <> ghost_name id) by (intros v Hv; apply Hfree; by right).
    apply NoDup_cons. split; [|by apply IH]. intros Hin. apply list_elem_of_fmap in Hin as (w & E & Hw). apply list_elem_of_fmap in Hw as (v & -> & Hv).
    assert (Huv : u_id u <> u_id v) by (intros Ee; apply Hu; rewrite Ee; by apply list_elem_of_fmap_2).
    destruct (Z.eqb_spec (u_id u) id) as [Eu|Eu], (Z.eqb_spec (u_id v) id) as [Ev|Ev]; cbn [andb] in E; [congruence| | |].
    + destruct (u_ghosted u =? 0); cbn in E; [by apply (Hrest v Hv Ev)|]. apply Hn. rewrite E. by apply list_elem_of_fmap_2.
    + destruct (u_ghosted v =? 0); cbn in E; [by apply (Hfree u ltac:(left) Eu)|]. apply Hn. rewrite E. by apply list_elem_of_fmap_2.
    + apply Hn. rewrite E. by apply list_elem_of_fmap_2.
  - by apply Forall_filter.
Qed.

Lemma run_op_next ok o db : db_next_id db <= db_next_id (run_op ok o db).
Proof.
  destruct o; cbn; unfold db_user_create, replica_upsert, insert_user, update_user, db_email_token_create, db_email_token_delete_for_user, db_email_token_consume,
    db_user_delete_unverified_expired, db_user_ghost, db_user_delete_with_cascade, db_user_set_email_verified, update_user, db_email_token_delete_for_user, set_users;
  repeat (case_match; simplify_eq/=; try lia).
Qed.

Lemma run_op_wf ok o db : 0 < db_next_id db -> accounts_wf db -> accounts_wf (run_op ok o db).
Proof.
  intros Hpos Hwf. destruct o as [u e p|id r|id a|id p|id s e|id r|id v|id t e now|id|now t|now|id|id|row]; cbn; try (by apply wf_update).
  - by apply wf_create.
  - destruct (Z.ltb_spec 0 id), (Z.ltb_spec id (db_next_id db)); try done. unfold db_email_token_create. destruct (ok 0%nat); [|done].
    destruct Hwf as [H1 H2 H3 H4]. split; cbn; try done. apply Forall_app. split; [done|]. constructor; [done|done].
  - by apply wf_tokens_delete.
  - unfold db_email_token_consume. destruct (List.find _ _) as [tk|]; [|done]. destruct (_ || _); [done|].
    pose proof (wf_update (ok 0%nat) (et_user tk) (fun u => User (u_id u) (u_username u) (u_email u) (u_password_hash u) (u_role u) (u_active u) (u_ghosted u)
      1 (u_totp_enabled u) (u_totp_secret u) (u_totp_recovery u)) db ltac:(done) Hwf) as H.
    unfold db_user_set_email_verified. destruct (update_user _ _ _ db) as [d db']. cbn in H. pose proof (wf_tokens_delete (ok 1%nat) (et_user tk) db' H) as H'.
    by destruct (db_email_token_delete_for_user _ _ db').
  - unfold db_user_delete_unverified_expired. destruct (ok 0%nat); [|done]. cbn [negb snd]. destruct (ok 1%nat); [by apply wf_filter|].
    by apply wf_filter_users.
  - by apply wf_ghost.
  - pose proof (wf_tokens_delete (ok 0%nat) id db Hwf) as H. cbn in H. destruct (ok 1%nat); [by apply wf_filter_users|done].
  - destruct (Z.ltb_spec 0 (u_id row)); [by apply wf_replica_upsert|done].
Qed.

(** Through any sequence of operations, whichever of their statements fail, ids and names stay unique. *)
Theorem accounts_stay_wf ops db : 0 < db_next_id db -> accounts_wf db ->
  accounts_wf (foldl (fun db op => run_op (fst op) (snd op) db) db ops).
Proof.
  revert db. induction ops as [|[ok o] ops IH]; intros db Hpos Hwf; [done|]. cbn [foldl fst snd].
  pose proof (run_op_next ok o db) as Hnext. apply IH; [lia|by apply run_op_wf].
Qed.

(** ** The account of admin.settings at a start *)

Definition site_admin_of (st : settings) : Z :=
  match db_site_setting_get st SITE_ADMIN_SETTING 32 with Some v => atoi v | None => 0 end.

Lemma atoi_setting id : 0 <= id < 2 ^ 31 -> atoi (snprintf_s 32 (snprintf_s 32 (print_int id))) = id.
Proof.
  intros Hid. pose proof (length_print_int id). rewrite !snprintf_s_id by (rewrite ?snprintf_s_id; lia).
  unfold atoi. rewrite strtol10_print_int by (unfold long_max; lia). apply i32_small. lia.
Qed.

Lemma username_taken_spec db name id : accounts_wf db ->
  username_taken db name id = true <-> exists v, v ∈ db_users db /\ u_id v <> id /\ u_username v = name.
Proof.
  intros Hwf. unfold username_taken. pose proof (fun u => get_by_username_spec db name u Hwf) as Hs.
  destruct (db_user_get_by_username db name) as [v|].
  - destruct (proj1 (Hs v) eq_refl) as [Hv Hn]. rewrite negb_true_iff, Z.eqb_neq. split; [intros Hne; by exists v|].
    intros (w & Hw & Hne & E). assert (Some v = Some w) as [= <-] by (by apply Hs). done.
  - split; [done|]. intros (w & Hw & _ & E). assert (None = Some w) by (by apply Hs). done.
Qed.

(** The row that is to be the site admin's. *)
Definition site_admin_row (name : cstr) (u : user) : Prop := u_username u = name /\ u_role u = Some (CS "admin") /\ u_active u = 1.

(** A row of the admin's that is in order is written again as it is. *)
Lemma update_again ok id name u db : accounts_wf db -> db_user_get_by_id db id = Some u -> site_admin_row name u ->
  update_site_admin ok id name db = (ok, db).
Proof.
  intros Hwf Hu (Hn & Hr & Ha). apply get_by_id_spec in Hu as [Hin Hid]; [|done]. unfold update_site_admin.
  replace (existsb _ (db_users db)) with false.
  2: { symmetry. apply not_true_iff_false. rewrite existsb_exists. intros (v & Hv & [Hne Hvn]%andb_true_iff).
       apply list_elem_of_In in Hv. apply streq_eq in Hvn. apply negb_true_iff, Z.eqb_neq in Hne. apply Hne.
       assert (Some v = Some u) as [= ->]; [|done]. rewrite <- Hn in Hvn. rewrite <- (proj2 (get_by_username_spec db _ v Hwf) (conj Hv Hvn)).
       by apply get_by_username_spec. }
  unfold update_user. destruct ok; [|done]. f_equal. destruct db as [users tokens next]. unfold set_users. cbn in *. f_equal.
  rewrite <- (map_id users) at 2. apply map_ext_in. intros v Hv%list_elem_of_In. destruct (Z.eqb_spec (u_id v) id) as [E|]; [|done].
  assert (v = u) as ->; [|destruct u; cbn in *; by subst].
  assert (Some v = Some u) as [= ->]; [|done]. rewrite <- (proj2 (get_by_id_spec _ id v Hwf) (conj Hv E)). by apply get_by_id_spec.
Qed.

(** With the setting and its row in order, a start changes nothing. *)
Lemma ensure_again username now db st id u : accounts_wf db -> username <> [] -> (length username < 128)%nat -> site_admin_of st = id -> 0 < id ->
  db_user_get_by_id db id = Some u -> site_admin_row (u_username u) u -> (length (u_username u) < 128)%nat ->
  u_username u = username \/ username_taken db username id = true ->
  db_user_ensure_site_admin (fun _ => true) (Some username) now db st = (id, db, st).
Proof.
  intros Hwf Hne Hlen Hid Hpos Hu Hrow Hul Hname. unfold db_user_ensure_site_admin. destruct username as [|c username]; [done|]. set (name := c :: username) in *.
  fold (site_admin_of st). rewrite Hid, (proj2 (Z.ltb_lt _ _) Hpos), Hu. cbn [andb].
  replace (if negb (streq (u_username u) name) && _ then name else u_username u) with (u_username u).
  2: { destruct Hname as [E|E]; [rewrite <- E; by destruct (negb _ && _)|]. by rewrite E, andb_false_r. }
  rewrite (snprintf_s_id 128) by done. by rewrite (update_again _ _ _ u).
Qed.

Lemma update_site_admin_spec ok id name db done db' : accounts_wf db -> update_site_admin ok id name db = (done, db') ->
  accounts_wf db' /\ (forall k, k <> id -> db_user_get_by_id db' k = db_user_get_by_id db k) /\ (done = false -> db' = db) /\
  (done = true -> forall u, db_user_get_by_id db id = Some u -> exists u', db_user_get_by_id db' id = Some u' /\ site_admin_row name u').
Proof.
  intros Hwf. unfold update_site_admin. destruct (existsb _ _) eqn:Hex; [by intros [= <- <-]|].
  set (f := fun u => User (u_id u) name _ _ _ _ _ _ _ _ _). intros E.
  pose proof (fun k => update_user_get ok id f db k ltac:(done)) as Hget. rewrite E in Hget. cbn [snd] in Hget.
  unfold update_user in E. injection E as <- <-. split; [|split; [|split]].
  - destruct ok; [|done]. apply wf_replace; [done| |done]. intros u v _ Hv _ Hne. by apply (none_other name id (db_users db)).
  - intros k Hk. by rewrite Hget, (proj2 (Z.eqb_neq k id) Hk), andb_false_r.
  - by intros ->.
  - intros Ht u Hu. rewrite Hget, Ht, Z.eqb_refl, Hu. eexists. split; [reflexivity|]. done.
Qed.

Lemma insert_get ok row db id db' : accounts_wf db -> insert_user ok None row db = Some (id, db') -> u_id (row id) = id -> 0 < db_next_id db ->
  id = db_next_id db /\ accounts_wf db' /\ (forall v, v ∈ db_users db -> v ∈ db_users db') /\
  (forall k, k <> db_next_id db -> db_user_get_by_id db' k = db_user_get_by_id db k) /\ db_user_get_by_id db' id = Some (row id).
Proof.
  intros Hwf E Hrow Hpos. pose proof (wf_insert _ _ _ _ _ _ E Hrow) as Hwf'. destruct (insert_user_spec _ _ _ _ _ _ E) as (_ & Hid & -> & Hfree).
  cbn in Hid. specialize (Hwf' ltac:(lia) Hwf). split; [done|]. split; [done|]. split; [intros v Hv; cbn; apply elem_of_app; by left|]. split.
  - intros k Hk. unfold db_user_get_by_id. cbn. clear E Hfree Hwf' Hwf. induction (db_users db) as [|v l IH]; cbn.
    + by rewrite Hrow, (proj2 (Z.eqb_neq id k)) by congruence.
    + by destruct (u_id v =? k).
  - apply get_by_id_spec; [done|]. split; [|done]. cbn. apply elem_of_app. right. by left.
Qed.

Lemma pick_spec db wanted name : accounts_wf db -> (length wanted < 64)%nat -> pick_site_admin_name db wanted 0 = Some name ->
  (length name < 128)%nat /\ (name = wanted \/ exists v, v ∈ db_users db /\ u_username v = wanted).
Proof.
  intros Hwf Hlen H. unfold pick_site_admin_name in H. split.
  - apply find_some in H as [H _]. apply in_map_iff in H as (n & <- & _). unfold site_admin_candidate, snprintf_s. rewrite length_take. lia.
  - change (seq 1 100) with (1%nat :: seq 2 99) in H. cbn [map List.find] in H. destruct (negb (username_taken db (site_admin_candidate wanted 1) 0)) eqn:E.
    + injection H as <-. left. by apply snprintf_s_id; lia.
    + right. apply negb_false_iff in E. apply username_taken_spec in E as (v & Hv & _ & Hn); [|done]. exists v. split; [done|].
      rewrite Hn. apply snprintf_s_id. lia.
Qed.

(** C25: A start gives the account of admin.settings its row, or none, whatever statements fail: the
    table stays well-formed and no other row changes, apart from the one a new id is given to.  When it
    returns an id, this is the one the setting names; its row is an active administrator's, and is
    named after admin.settings unless another account has that name; and a second start, if its
    statements succeed, returns the same id and changes nothing. *)
Theorem site_admin_account ok username now db st : accounts_wf db -> 0 < db_next_id db < 2 ^ 31 -> username <> [] -> (length username < 64)%nat ->
  let '(id, db', st') := db_user_ensure_site_admin ok (Some username) now db st in
  accounts_wf db' /\ 0 <= id /\
  (forall k, k <> site_admin_of st -> k <> db_next_id db -> db_user_get_by_id db' k = db_user_get_by_id db k) /\
  (0 < id -> site_admin_of st' = id /\
    (exists u, db_user_get_by_id db' id = Some u /\ u_role u = Some (CS "admin") /\ u_active u = 1 /\
      (u_username u = username \/ exists v, v ∈ db_users db' /\ u_id v <> id /\ u_username v = username)) /\
    forall now2, db_user_ensure_site_admin (fun _ => true) (Some username) now2 db' st' = (id, db', st')).
Proof.
  intros Hwf Hnext Hne Hlen. destruct (db_user_ensure_site_admin ok (Some username) now db st) as [[id db'] st'] eqn:E.
  (* What a returned id needs: its row, and what an account with it does at the next start. *)
  assert (Hgoal : forall name, accounts_wf db' -> (length name < 128)%nat -> 0 < id -> site_admin_of st' = id ->
    (exists u, db_user_get_by_id db' id = Some u /\ site_admin_row name u) -> name = username \/ username_taken db' username id = true ->
    site_admin_of st' = id /\ (exists u, db_user_get_by_id db' id = Some u /\ u_role u = Some (CS "admin") /\ u_active u = 1 /\
      (u_username u = username \/ exists v, v ∈ db_users db' /\ u_id v <> id /\ u_username v = username)) /\
    forall now2, db_user_ensure_site_admin (fun _ => true) (Some username) now2 db' st' = (id, db', st')).
  { intros name Hwf' Hl Hpos Hst (u & Hu & Hn & Hr & Ha) Hname. split; [done|]. split.
    - exists u. rewrite Hn, <- username_taken_spec by done. done.
    - intros now2. apply (ensure_again _ _ _ _ _ u); rewrite ?Hn; try done; lia. }
  unfold db_user_ensure_site_admin in E. destruct username as [|c username]; [done|]. set (w := c :: username) in *.
  fold (site_admin_of st) in E. set (id0 := match (if ok 0%nat then _ else None) with Some v => _ | None => 0 end) in E.
  assert (Hid0 : 0 < id0 -> site_admin_of st = id0) by (subst id0; destruct (ok 0%nat); [done|lia]).
  destruct (if (0 <? id0) && ok 1%nat then _ else None) as [existing|] eqn:Eex.
  - destruct ((0 <? id0) && ok 1%nat) eqn:E0; [|done]. apply andb_true_iff in E0 as [Hpos%Z.ltb_lt _]. specialize (Hid0 Hpos).
    destruct (update_site_admin _ _ _ _) as [done db2] eqn:Eup. destruct (update_site_admin_spec _ _ _ _ _ _ Hwf Eup) as (Hwf2 & Hother & _ & Hrow).
    injection E as <- <- <-. split; [done|]. split; [destruct done; lia|]. split; [intros k Hk _; apply Hother; congruence|].
    destruct done; [intros _|lia]. specialize (Hrow eq_refl existing Eex).
    apply (Hgoal (snprintf_s 128 (if negb (streq (u_username existing) w) && negb (username_taken db w id0) then w else u_username existing))); try done.
    { unfold snprintf_s. rewrite length_take. lia. }
    destruct (streq (u_username existing) w) eqn:Es; cbn [negb andb].
    + left. apply streq_eq in Es as ->. apply snprintf_s_id. lia.
    + destruct (username_taken db w id0) eqn:Et; cbn [negb]; [|left; apply snprintf_s_id; lia]. right.
      apply username_taken_spec in Et as (v & Hv & Hvid & Hvn); [|done]. apply username_taken_spec; [done|]. exists v. split; [|done].
      assert (Hg : db_user_get_by_id db2 (u_id v) = Some v) by (rewrite Hother by done; by apply get_by_id_spec). by apply get_by_id_spec in Hg as [].
  - destruct (pick_site_admin_name db w 0) as [name|] eqn:Ep; [|by injection E as <- <- <-].
    destruct (pick_spec db w name Hwf Hlen Ep) as [Hl Hname].
    destruct (insert_user _ _ _ _) as [[id1 db2]|] eqn:Ei; [|by injection E as <- <- <-].
    destruct (insert_get _ _ _ _ _ Hwf Ei eq_refl ltac:(lia)) as (Hid1 & Hwf2 & Hin & Hother & Hrow).
    unfold db_site_setting_set in E. injection E as <- <- <-. split; [done|]. split; [destruct (ok 3%nat); lia|]. split; [intros k _ Hk; by apply Hother|].
    destruct (ok 3%nat); [intros _|lia]. apply (Hgoal name); try done; [lia| | |].
    + unfold site_admin_of, db_site_setting_get. rewrite lookup_insert_eq. apply atoi_setting. lia.
    + eexists. split; [exact Hrow|]. done.
    + destruct Hname as [?|(v & Hv & Hvn)]; [by left|]. right. apply username_taken_spec; [done|]. exists v. split; [by apply Hin|]. split; [|done].
      pose proof (wf_ids _ Hwf) as Hids. rewrite Forall_forall in Hids. specialize (Hids v Hv). lia.
Qed.

(** A member called root has the name first; a new administrator of the settings is root-admin. *)
Lemma site_admin_account_witness :
  let db := snd (db_user_create true (CS "root") (CS "r@x") (CS "h") (AccountsDb [] [] 1)) in
  let '(id, db', st') := db_user_ensure_site_admin (fun _ => true) (Some (CS "root")) 100 db ∅ in
  id = 2 /\ map u_username (db_users db') = [CS "root"; CS "root-admin"] /\
  forall now2, db_user_ensure_site_admin (fun _ => true) (Some (CS "root")) now2 db' st' = (id, db', st').
Proof.
  intros db. assert (Hwf : accounts_wf db) by (apply wf_create; [done|split; cbn; done || apply NoDup_nil_2]).
  pose proof (site_admin_account (fun _ => true) (CS "root") 100 db ∅ Hwf ltac:(by vm_compute) ltac:(done) ltac:(cbn; lia)) as H.
  destruct (db_user_ensure_site_admin _ _ 100 db ∅) as [[id db'] st'] eqn:E. vm_compute in E. injection E as <- <- <-.
  split; [done|]. split; [done|]. destruct H as (_ & _ & _ & H). by destruct (H ltac:(done)) as (_ & _ & H2).
Defined.

(** When the setting cannot be written the new row stays: the start fails, and the next one inserts
    another administrator's row. *)
Lemma site_admin_rows_pile_up :
  let ok k := negb (k =? 3)%nat in
  let '(id1, db1, st1) := db_user_ensure_site_admin ok (Some (CS "root")) 100 (AccountsDb [] [] 1) ∅ in
  let '(id2, db2, st2) := db_user_ensure_site_admin (fun _ => true) (Some (CS "root")) 200 db1 st1 in
  id1 = 0 /\ id2 = 2 /\ map (fun u => (u_username u, u_role u)) (db_users db2) = [(CS "root", Some (CS "admin")); (CS "root-admin", Some (CS "admin"))].
Proof. by vm_compute. Qed.

(** ** Deletion can be blocked *)

(** Whoever registers the name an account is to get when it is deleted keeps it from being
    deleted: the statement fails on the unique name, for ever. *)
Theorem ghost_name_blocks_deletion ok id db : existsb (fun u => negb (u_id u =? id) && streq (u_username u) (ghost_name id)) (db_users db) = true ->
  db_user_ghost ok id db = (false, db).
Proof.
  intros (u & Hu & H)%existsb_exists. apply andb_true_iff in H as [H1 H2]. unfold db_user_ghost. replace (existsb _ (db_users db)) with true.
  - by rewrite orb_true_r.
  - symmetry. apply existsb_exists. exists u. by rewrite H1, H2.
Qed.

Lemma ghost_name_blocks_deletion_witness :
  let db := AccountsDb [] [] 7 in
  let '(_, db) := db_user_create true (CS "alice") (CS "alice@x") (CS "h") db in
  let '(_, db) := db_user_create true (CS "ghost-7") (CS "eve@x") (CS "h") db in
  db_user_ghost true 7 db = (false, db).
Proof. cbv zeta. apply ghost_name_blocks_deletion. by vm_compute. Defined.
