(* ===== verification/Login.v ===== *)
(** * Signing in and two-factor codes (src/src/handlers/auth.c)

    A handler reads the fields of its form and returns the page it answers with, what it notes about
    the address for the bans of IpBan, and the accounts.  [ok i] tells whether the handler's [i]th
    statement succeeds, and the random bytes and the clock are arguments.  The hashes of OpenSSL, the
    signed tokens of cwist and the mail server are parameters. *)
From S2P Require Import Prelude CStr Community Auth AuthSession Totp SiteSettings WritePolicy SpamGuard Middleware Users.

Inductive reply :=
  | Redirect (location : list Z)
  | Page (message : list Z)
  (** the form for the code, with the token that stands for the proven password *)
  | Code_page (pending : list Z) (failed : bool)
  (** a session: the two cookies, and where it starts *)
  | Signed_in (cookies : list header) (location : list Z)
  (** both cookies are cleared *)
  | Signed_out (cookies : list header)
  | Recovery_codes (shown : list (list Z))
  | Error_status (status : Z).

(** [ipban_note_success] and [ipban_note_failure] *)
Inductive ban_note := Note_success | Note_failure.

(** ** Cookies *)

Definition cookie_attributes (use_tls : bool) : cstr := if use_tls then CS "; Secure" else [].

Definition set_auth_cookies (token : cstr) (use_tls : bool) : list header :=
  [(CS "Set-Cookie", snprintf_s 2048 (SESSION_COOKIE_NAME ++ CS "=" ++ token ++ CS "; Path=/; Max-Age=" ++ print_int AUTH_SESSION_LIFETIME ++
                       CS "; HttpOnly; SameSite=Lax" ++ cookie_attributes use_tls));
   (CS "Set-Cookie", snprintf_s 2048 (CS "jwt_access=" ++ token ++ CS "; Path=/; Max-Age=" ++ print_int AUTH_SESSION_LIFETIME ++
                       CS "; SameSite=Lax" ++ cookie_attributes use_tls))].

Definition clear_auth_cookies (use_tls : bool) : list header :=
  [(CS "Set-Cookie", snprintf_s 512 (SESSION_COOKIE_NAME ++ CS "=; Path=/; Max-Age=0; HttpOnly; SameSite=Lax" ++ cookie_attributes use_tls));
   (CS "Set-Cookie", snprintf_s 512 (CS "jwt_access=; Path=/; Max-Age=0; SameSite=Lax" ++ cookie_attributes use_tls))].

(** ** Tokens of sessions *)

Definition json_char (c : Z) : cstr :=
  if c =? 34 then [92; 34]
  else if c =? 92 then [92; 92]
  else if c <? 32 then CS "\u00" ++ hex_byte c
  else [c].
Definition append_json_escaped (s : cstr) : cstr := concat (map json_char s).

(** A string member of an object. *)
Definition json_member (name value : cstr) : cstr := [34] ++ name ++ [34] ++ CS ":" ++ [34] ++ value ++ [34].

Definition session_payload (user_id : Z) (username role : cstr) (now : Z) : cstr :=
  CS "{" ++ json_member (CS "sub") (print_int user_id) ++ CS "," ++ json_member (CS "username") (append_json_escaped username) ++ CS "," ++
  json_member (CS "role") (append_json_escaped role) ++ CS "," ++
  [34] ++ CS "iat" ++ [34] ++ CS ":" ++ print_int (now - AUTH_TIME_LEEWAY_SECONDS) ++ CS "," ++
  [34] ++ CS "nbf" ++ [34] ++ CS ":" ++ print_int (now - AUTH_TIME_LEEWAY_SECONDS) ++ CS "," ++
  [34] ++ CS "exp" ++ [34] ++ CS ":" ++ print_int (now + AUTH_SESSION_LIFETIME + AUTH_TIME_LEEWAY_SECONDS) ++ CS "," ++
  json_member (CS "v") (CS "2") ++ CS "}".

(** The token of a proven password. *)
Definition pending_payload (user_id : Z) : cstr :=
  snprintf_s 96 (CS "{" ++ json_member (CS "p") (CS "2fa") ++ CS "," ++ json_member (CS "sub") (print_int user_id) ++ CS "}").

Definition toupper (c : Z) : Z := if islower c then c - 32 else c.

(** [strtok_r] with a comma: empty pieces are skipped. *)
Fixpoint pieces (fuel : nat) (s : cstr) : list (list Z) :=
  match fuel with
  | O => []
  | S fuel =>
      match strchr s (CH ",") with
      | Some (a, _ :: r) => (if streq a [] then [] else [a]) ++ pieces fuel r
      | _ => if streq s [] then [] else [s]
      end
  end.
Definition csv (s : cstr) : list (list Z) := pieces (S (length s)) s.
Fixpoint join_csv (l : list (list Z)) : cstr :=
  match l with [] => [] | [a] => a | a :: l => a ++ CS "," ++ join_csv l end.

Section login.
Context (sha512 : list Z -> list Z) (sha256 : list Z -> list Z).
Context (pbkdf2 : list Z -> list Z -> Z -> list Z).
Context (argon2id : list Z -> list Z -> Z * Z * Z * Z -> option (list Z)).
Context (HMAC_sha1 : list Z -> list Z -> option (list Z)).
(** [cwist_jwt_sign payload secret lifetime] at a time; a token is verified at a time. *)
Context (cwist_jwt_sign : Z -> list Z -> list Z -> Z -> option (list Z)).
Context (cwist_jwt_verify : Z -> list Z -> list Z -> option claims).
Context (auth_jwt_secret : option (list Z)).
Context (g_site_admin_uid : Z) (email_cert_enabled : bool) (root_url : list Z).

Abbreviation verify_password := (auth_verify_password sha512 pbkdf2 argon2id).

Definition auth_jwt_issue (user_id : Z) (username role : cstr) (now : Z) : option cstr :=
  secret ← auth_jwt_secret; cwist_jwt_sign now (session_payload user_id username role now) secret 0.

Definition totp_verify (secret_b32 : cstr) (code : option cstr) (now : Z) : bool :=
  match code with Some code => totp_verify_at HMAC_sha1 secret_b32 code now | None => false end.

Definition sign_in (token : cstr) (tls : bool) (redirect_target : option cstr) (fallback : cstr) : reply :=
  Signed_in (set_auth_cookies token tls) (redirect_referer_safe root_url redirect_target fallback).

Definition home_of (role : cstr) : cstr := if streq role (CS "admin") then CS "/admin" else CS "/".

(** [session] is what [auth_is_logged_in] finds. *)
Definition handler_login_post (session : bool * (Z * cstr)) (tls : bool) (username password redirect_target : option cstr)
    (admin : admin_state) (now : Z) (db : accounts_db) : reply * option ban_note :=
  if fst session then (Redirect (home_of (snd (snd session))), None)
  else match username, password with
  | Some username, Some password =>
      if streq username [] || streq password [] then (Page (CS "Missing fields"), None)
      else if auth_admin_check sha512 username password admin then
        match auth_jwt_issue g_site_admin_uid username (CS "admin") now with
        | None => (Page (CS "Server error"), Some Note_success)
        | Some token => (sign_in token tls redirect_target (CS "/admin"), Some Note_success)
        end
      else match db_user_get_by_username db username with
      | None => (Page (CS "Invalid credentials"), Some Note_failure)
      | Some user =>
          if streq (u_password_hash user) [] || negb (verify_password password (u_password_hash user))
          then (Page (CS "Invalid credentials"), Some Note_failure)
          else match u_role user with
          | None => (Page (CS "Server error"), None)
          | Some role =>
              if u_id user <=? 0 then (Page (CS "Server error"), None)
              else if email_cert_enabled && (u_email_verified user =? 0)
              then (Page (CS "Email not verified. Check your inbox."), None)
              else if (u_totp_enabled user =? 1) && negb (streq (u_totp_secret user) []) then
                match (secret ← auth_jwt_secret; cwist_jwt_sign now (pending_payload (u_id user)) secret 300) with
                | None => (Page (CS "Server error"), None)
                | Some pending => (Code_page pending false, None)
                end
              else match auth_jwt_issue (u_id user) (u_username user) role now with
              | None => (Page (CS "Server error"), None)
              | Some token => (sign_in token tls redirect_target (CS "/"), Some Note_success)
              end
          end
      end
  | _, _ => (Page (CS "Missing fields"), None)
  end.

Definition handler_logout (tls : bool) : reply := Signed_out (clear_auth_cookies tls).

(** ** Recovery codes *)

Definition sha256_hex (input : cstr) : cstr := hex_text (sha256 input).

(** [%02X] *)
Definition hex_upper (bytes : list Z) : cstr := map toupper (hex_text bytes).

Definition TOTP_RECOVERY_COUNT : nat := 5.

(** The codes shown, and the stored hashes; [random] holds five bytes for each of them. *)
Definition recovery_code (raw : list Z) : cstr := hex_upper (take 5 raw).
Definition shown_code (raw : list Z) : cstr := take 5 (recovery_code raw) ++ CS "-" ++ drop 5 (recovery_code raw).

Definition totp_recovery_generate (ok : bool) (random : list (option (list Z))) (uid : Z) (db : accounts_db) : option (list (list Z)) * accounts_db :=
  match mapM id (take TOTP_RECOVERY_COUNT random) with
  | None => (None, db)
  | Some raws =>
      let hashes := join_csv (map (fun raw => sha256_hex (recovery_code raw)) raws) in
      let '(ok, db) := db_user_update_totp_recovery ok uid hashes db in
      (if ok then Some (map shown_code raws) else None, db)
  end.

(** The first five characters and the last four are raised to upper case. *)
Definition normalize_code (code : cstr) : cstr :=
  imap (fun i c => if (i <? 5)%nat || ((6 <=? i)%nat && (i <? 10)%nat) then toupper c else c) (take 5 code ++ take 5 (drop 6 code)).

(** The first hash that matches is left out. *)
Fixpoint remove_hash (hex : cstr) (l : list (list Z)) : bool * list (list Z) :=
  match l with
  | [] => (false, [])
  | tok :: l => if streq tok hex then (true, l) else let '(found, l) := remove_hash hex l in (found, tok :: l)
  end.

Definition totp_recovery_consume (ok : bool) (uid : Z) (stored_csv : cstr) (code : option cstr) (db : accounts_db) : bool * accounts_db :=
  match code with
  | None => (false, db)
  | Some code =>
      if negb (zlen code =? 11) || negb (nth 5 code 0 =? CH "-") then (false, db)
      else
        let hex := sha256_hex (normalize_code code) in
        let '(found, remaining) := remove_hash hex (csv (snprintf_s 600 stored_csv)) in
        (found, if found then snd (db_user_update_totp_recovery ok uid (join_csv remaining) db) else db)
  end.

(** ** The second step *)

Definition complete_login (tls : bool) (uid : Z) (username role : cstr) (redirect_target : option cstr) (now : Z) : reply * option ban_note :=
  match auth_jwt_issue uid username role now with
  | None => (Error_status 500, None)
  | Some token => (sign_in token tls redirect_target (CS "/"), Some Note_success)
  end.

(** The account of a pending token; 0 when it is none. *)
Definition pending_uid (pending : option cstr) (now : Z) : Z :=
  match pending, auth_jwt_secret with
  | Some pending, Some secret =>
      match cwist_jwt_verify now pending secret with
      | Some get =>
          match get (CS "p") with
          | Some p => if streq p (CS "2fa") then match get (CS "sub") with Some sub => atoi sub | None => 0 end else 0
          | None => 0
          end
      | None => 0
      end
  | _, _ => 0
  end.

Definition handler_login_2fa_post (ok : bool) (tls : bool) (pending code redirect_target : option cstr) (now : Z) (db : accounts_db)
    : reply * option ban_note * accounts_db :=
  let uid := pending_uid pending now in
  let failed := (Code_page (default [] pending) true, Some Note_failure) in
  if uid <=? 0 then (failed, db)
  else match db_user_get_by_id db uid with
  | None => (failed, db)
  | Some user =>
      if streq (u_totp_secret user) [] then (failed, db)
      else if totp_verify (u_totp_secret user) code now
      then (complete_login tls uid (u_username user) (default [] (u_role user)) redirect_target now, db)
      else if streq (u_totp_recovery user) [] then (failed, db)
      else
        let '(found, db) := totp_recovery_consume ok uid (u_totp_recovery user) code db in
        if found : bool then (complete_login tls uid (u_username user) (default [] (u_role user)) redirect_target now, db)
        else (failed, db)
  end.

(** ** The controls of the account page *)

Inductive totp_action := Totp_enable | Totp_confirm | Totp_disable | Totp_none.
Definition action_of (action : option cstr) : totp_action :=
  match action with
  | Some a => if streq a (CS "enable") then Totp_enable else if streq a (CS "confirm") then Totp_confirm
              else if streq a (CS "disable") then Totp_disable else Totp_none
  | None => Totp_none
  end.

(** [g] is the gate the request passed; [random] are the bytes of a fresh secret, [randoms] those of
    the recovery codes. *)
Definition handler_account_totp_post (ok : nat -> bool) (g : gate) (action password code : option cstr) (random : option (list Z))
    (randoms : list (option (list Z))) (now : Z) (db : accounts_db) : reply * accounts_db :=
  match g with
  | Redirect_login l => (Redirect l, db)
  | Gate_forbidden => (Error_status 403, db)
  | Pass uid _ =>
      match db_user_get_by_id db uid with
      | None => (Redirect (CS "/account/settings"), db)
      | Some user =>
          match action_of action with
          | Totp_enable =>
              (Redirect (CS "/account/settings"),
               match totp_secret_generate random with
               | Some secret => snd (db_user_update_totp (ok 0%nat) uid secret false db)
               | None => db
               end)
          | Totp_confirm =>
              if negb (streq (u_totp_secret user) []) && totp_verify (u_totp_secret user) code now then
                let '(done, db) := db_user_update_totp (ok 0%nat) uid (u_totp_secret user) true db in
                if negb done then (Page (CS "Could not finish two-factor setup. Try again."), db)
                else match totp_recovery_generate (ok 1%nat) randoms uid db with
                     | (Some shown, db) => (Recovery_codes shown, db)
                     | (None, db) => (Page (CS "Could not finish two-factor setup. Try again."), db)
                     end
              else (Page (CS "That code does not match. Check your app's clock and try again."), db)
          | Totp_disable =>
              let password_ok := match password with Some p => verify_password p (u_password_hash user) | None => false end in
              let '(code_ok, db) :=
                if negb (streq (u_totp_secret user) []) && totp_verify (u_totp_secret user) code now then (true, db)
                else totp_recovery_consume (ok 0%nat) uid (u_totp_recovery user) code db in
              if password_ok && code_ok then
                let '(_, db) := db_user_update_totp (ok 1%nat) uid [] false db in
                let '(_, db) := db_user_update_totp_recovery (ok 2%nat) uid [] db in
                (Redirect (CS "/account/settings"), db)
              else (Page (CS "Two-factor was NOT disabled: the password or code did not match."), db)
          | Totp_none => (Redirect (CS "/account/settings"), db)
          end
      end
  end.
End login.

(** ** The codes of a form are stored and read back *)

Lemma pieces_nil fuel : pieces fuel [] = [].
Proof. by destruct fuel. Qed.

Lemma csv_join l : Forall (fun s => s <> [] /\ CH "," ∉ s) l -> csv (join_csv l) = l.
Proof.
  intros Hl. unfold csv. assert (H : forall fuel, (length (join_csv l) < fuel)%nat -> pieces fuel (join_csv l) = l); [|apply H; lia].
  induction Hl as [|s l [Hne Hc] Hl IH]; intros fuel Hf; [apply pieces_nil|]. cbn [join_csv] in *. destruct l as [|s' l].
  - destruct fuel as [|fuel]; [lia|]. cbn [pieces]. rewrite (proj2 (strchr_none _ _)) by done. by rewrite (proj2 (streq_neq s [])) by done.
  - destruct fuel as [|fuel]; [lia|]. cbn [pieces]. change (CS "," ++ join_csv (s' :: l)) with (CH "," :: join_csv (s' :: l)).
    rewrite strchr_app by done. rewrite (proj2 (streq_neq _ _)) by done. cbn [app]. f_equal. apply IH. rewrite !length_app in Hf. cbn [length] in Hf. lia.
Qed.

(** What is left after a hash is taken out. *)
Fixpoint without (hex : cstr) (l : list (list Z)) : list (list Z) :=
  match l with [] => [] | tok :: l => if streq tok hex then l else tok :: without hex l end.

Lemma remove_hash_without hex l : remove_hash hex l = (bool_decide (hex ∈ l), without hex l).
Proof.
  induction l as [|tok l IH]; cbn [remove_hash without]; [done|]. destruct (streq tok hex) eqn:E.
  - apply streq_eq in E as ->. by rewrite bool_decide_true by left.
  - rewrite IH. f_equal. apply bool_decide_ext. apply streq_neq in E. rewrite elem_of_cons. naive_solver.
Qed.

Lemma without_sub hex l : forall x, x ∈ without hex l -> x ∈ l.
Proof. induction l as [|tok l IH]; cbn; [done|]. intros x. destruct (streq tok hex); rewrite ?elem_of_cons; naive_solver. Qed.

Lemma without_spec hex l : NoDup l -> NoDup (without hex l) /\ forall x, x ∈ without hex l <-> x ∈ l /\ x <> hex.
Proof.
  induction 1 as [|tok l Ht Hl [IH1 IH2]]; cbn.
  - split; [by constructor|]. set_solver.
  - destruct (streq tok hex) eqn:E.
    + apply streq_eq in E as ->. split; [done|]. intros x. rewrite elem_of_cons. naive_solver.
    + apply streq_neq in E. split.
      * apply NoDup_cons. split; [|done]. intros H. by apply Ht, without_sub with hex.
      * intros x. rewrite !elem_of_cons, IH2. naive_solver.
Qed.

Lemma length_without hex l : (length (join_csv (without hex l)) <= length (join_csv l))%nat.
Proof.
  induction l as [|tok l IH]; cbn [without]; [done|]. destruct (streq tok hex).
  - destruct l as [|s l]; [cbn; lia|]. cbn [join_csv]. rewrite !length_app. lia.
  - destruct l as [|s l]; [done|]. cbn [join_csv] in *. rewrite !length_app. destruct (without hex (s :: l)); cbn [length] in *; [lia|]. rewrite !length_app. cbn [length]. lia.
Qed.

(** A hash as it is stored. *)
Definition stored_hash (h : cstr) : Prop := length h = 64%nat /\ CH "," ∉ h.

Lemma hex_text_no_comma l : bytes l -> CH "," ∉ hex_text l.
Proof.
  intros Hl. assert (H : Forall (fun c => 0 <= auth_hex_val c) (hex_text l)).
  { induction Hl as [|b l Hb _ IH]; [constructor|]. unfold hex_text in *. cbn [map concat]. apply Forall_app. split; [|done].
    destruct (auth_hex_digit_val (b / 16)) as (H1 & _); [split; [apply Z.div_pos|apply Z.div_lt_upper_bound]; lia|].
    pose proof (Z.mod_pos_bound b 16 ltac:(lia)). destruct (auth_hex_digit_val (b `mod` 16)) as (H2 & _); [lia|]. pose proof (Z.div_pos b 16).
    repeat constructor; lia. }
  intros Hin. rewrite Forall_forall in H. specialize (H _ Hin). vm_compute in H. by apply H.
Qed.

Lemma length_join_hashes l : Forall stored_hash l -> (length (join_csv l) <= 65 * length l)%nat.
Proof.
  induction 1 as [|h l [Hh _] Hl IH]; [cbn; lia|]. cbn [join_csv]. destruct l as [|h' l]; [cbn [length]; lia|].
  rewrite !length_app, Hh. cbn [length] in *. lia.
Qed.

Lemma csv_hashes l : Forall stored_hash l -> csv (join_csv l) = l.
Proof. intros H. apply csv_join. eapply Forall_impl; [exact H|]. intros h [Hl Hc]. split; [|done]. by intros ->. Qed.

Lemma toupper_idem c : toupper (toupper c) = toupper c.
Proof. unfold toupper, islower. destruct ((97 <=? c) && (c <=? 122)) eqn:E; [|by rewrite E]. rewrite (proj2 (andb_false_iff _ _)); [done|]. left. lia. Qed.

Lemma length_recovery_code raw : length raw = 5%nat -> length (recovery_code raw) = 10%nat.
Proof. intros H. unfold recovery_code, hex_upper. rewrite length_map, length_hex_text, length_take. lia. Qed.

Definition code_form (code : cstr) : bool := (zlen code =? 11) && (nth 5 code 0 =? CH "-").

Lemma shown_code_form raw : length raw = 5%nat -> code_form (shown_code raw) = true /\ take 5 (shown_code raw) ++ take 5 (drop 6 (shown_code raw)) = recovery_code raw.
Proof.
  intros H. pose proof (length_recovery_code raw H) as Hl. unfold shown_code, code_form. set (c := recovery_code raw) in *. clearbody c.
  do 11 (destruct c as [|? c]; try discriminate Hl). done.
Qed.

Lemma normalize_shown raw : length raw = 5%nat -> normalize_code (shown_code raw) = recovery_code raw.
Proof.
  intros H. unfold normalize_code. rewrite (proj2 (shown_code_form raw H)).
  assert (Hup : Forall (fun c => toupper c = c) (recovery_code raw)).
  { unfold recovery_code, hex_upper. apply Forall_map, Forall_true. intros c. apply toupper_idem. }
  pose proof (length_recovery_code raw H) as Hl. set (c := recovery_code raw) in *. clearbody c.
  do 11 (destruct c as [|? c]; try discriminate Hl). repeat (apply Forall_cons in Hup as [? Hup]). cbn. congruence.
Qed.

Section recovery.
Context (sha256 : list Z -> list Z).
Hypothesis (Hsha256 : forall x, length (sha256 x) = 32%nat /\ bytes (sha256 x)).

(** The account is read and a typed code is tried. *)
Definition try_code (uid : Z) (code : cstr) (db : accounts_db) : bool * accounts_db :=
  match db_user_get_by_id db uid with
  | Some u => totp_recovery_consume sha256 true uid (u_totp_recovery u) (Some code) db
  | None => (false, db)
  end.
Fixpoint attempts (uid : Z) (typed : list (list Z)) (db : accounts_db) : list bool :=
  match typed with
  | [] => []
  | c :: typed => let '(ok, db) := try_code uid c db in ok :: attempts uid typed db
  end.

(** A typed code is right when it stands for one of the hashes, and then only once. *)
Fixpoint expected (hashes : list (list Z)) (typed : list (list Z)) : list bool :=
  match typed with
  | [] => []
  | c :: typed =>
      let h := sha256_hex sha256 (normalize_code c) in
      if code_form c && bool_decide (h ∈ hashes) then true :: expected (List.filter (fun h' => negb (streq h' h)) hashes) typed
      else false :: expected hashes typed
  end.

Lemma stored_sha x : stored_hash (sha256_hex sha256 x).
Proof. unfold sha256_hex. destruct (Hsha256 x) as [Hl Hb]. split; [by rewrite length_hex_text, Hl|by apply hex_text_no_comma]. Qed.

Lemma filter_without h l : NoDup l -> List.filter (fun h' => negb (streq h' h)) l = without h l.
Proof.
  induction 1 as [|t l Ht Hl IH]; [done|]. cbn. destruct (streq t h) eqn:E; cbn [negb]; [|by rewrite IH].
  apply streq_eq in E as ->. clear -Ht. induction l as [|t l IH]; [done|]. apply not_elem_of_cons in Ht as [Hne Ht]. cbn.
  rewrite (proj2 (streq_neq t h)) by congruence. cbn [negb]. by rewrite IH.
Qed.

Lemma attempts_expected uid typed : forall hashes db u, NoDup hashes -> Forall stored_hash hashes -> (length hashes <= 5)%nat ->
  db_user_get_by_id db uid = Some u -> u_totp_recovery u = join_csv hashes -> attempts uid typed db = expected hashes typed.
Proof.
  induction typed as [|c typed IH]; intros hashes db u Hn Hs Hlen Hu Hr; [done|]. cbn [attempts expected]. unfold try_code. rewrite Hu, Hr.
  unfold totp_recovery_consume, code_form. pose proof (length_join_hashes _ Hs) as Hj. rewrite snprintf_s_id, csv_hashes, remove_hash_without by (done || lia).
  destruct (zlen c =? 11); cbn [negb orb andb]; [|f_equal; by eapply IH]. destruct (nth 5 c 0 =? CH "-"); cbn [negb orb]; [|f_equal; by eapply IH].
  case_bool_decide as Hin; [|f_equal; by eapply IH]. f_equal. rewrite filter_without by done. destruct (without_spec (sha256_hex sha256 (normalize_code c)) hashes Hn) as [Hn' Hs'].
  eapply IH; [done| | |unfold db_user_update_totp_recovery; rewrite update_user_get by done; cbn [andb]; rewrite Z.eqb_refl, Hu; done|done].
  - apply Forall_forall. intros x Hx%without_sub. rewrite Forall_forall in Hs. by apply Hs.
  - etrans; [|exact Hlen]. clear. induction hashes as [|t l IH]; [done|]. cbn [without]. destruct (streq t _); cbn [length]; lia.
Qed.

End recovery.


(** ** Two factors *)

Section factors.
Context (sha512 : list Z -> list Z) (sha256 : list Z -> list Z).
Context (pbkdf2 : list Z -> list Z -> Z -> list Z).
Context (argon2id : list Z -> list Z -> Z * Z * Z * Z -> option (list Z)).
Context (HMAC_sha1 : list Z -> list Z -> option (list Z)).
Context (cwist_jwt_sign : Z -> list Z -> list Z -> Z -> option (list Z)).
Context (cwist_jwt_verify : Z -> list Z -> list Z -> option claims).
Context (secret : list Z) (g_site_admin_uid : Z) (email_cert_enabled : bool) (root_url : list Z).
(** A token that verifies has the claims that were signed. *)
Hypothesis (Hverify : forall now uid life token now' get,
  cwist_jwt_sign now (pending_payload uid) secret life = Some token -> cwist_jwt_verify now' token secret = Some get ->
  get (CS "sub") = Some (print_int uid)).

Abbreviation verify_password := (auth_verify_password sha512 pbkdf2 argon2id).
Abbreviation login_post := (handler_login_post sha512 pbkdf2 argon2id cwist_jwt_sign (Some secret) g_site_admin_uid email_cert_enabled root_url).
Abbreviation code_post := (handler_login_2fa_post sha256 HMAC_sha1 cwist_jwt_sign cwist_jwt_verify (Some secret) root_url).
Abbreviation issue := (auth_jwt_issue cwist_jwt_sign (Some secret)).
Abbreviation uid_of := (pending_uid cwist_jwt_verify (Some secret)).

(** What a visitor sends. *)
Inductive visit_form :=
  | Form_login (username password : option (list Z)) (admin : admin_state)
  | Form_code (pending code : option (list Z)).
Record visit := Visit { v_form : visit_form; v_tls : bool; v_now : Z; v_accounts : accounts_db; v_reply : reply }.

Definition small_ids (db : accounts_db) : Prop := Forall (fun u => u_id u < 2 ^ 31) (db_users db).

(** The visits of a server, the latest first, and its accounts: between two of them the accounts
    change in any way.  A visitor cannot forge a token: one that stands for a proven password was
    sent by the server. *)
Inductive history : list visit -> accounts_db -> Prop :=
  | h_start db : small_ids db -> history [] db
  | h_login h db tls username password target admin now : history h db ->
      history (Visit (Form_login username password admin) tls now db (fst (login_post (false, (0, [])) tls username password target admin now db)) :: h) db
  | h_code h db ok tls pending code target now : history h db ->
      (0 < uid_of pending now -> exists v token, v ∈ h /\ pending = Some token /\ v_reply v = Code_page token false) ->
      history (Visit (Form_code pending code) tls now db (fst (fst (code_post ok tls pending code target now db))) :: h)
        (snd (code_post ok tls pending code target now db))
  | h_change h db db' : history h db -> small_ids db' -> history h db'.

(** The password of an account was typed. *)
Definition proved_password (uid : Z) (v : visit) : Prop :=
  exists username password admin row, v_form v = Form_login (Some username) (Some password) admin /\
    db_user_get_by_username (v_accounts v) username = Some row /\ u_id row = uid /\ verify_password password (u_password_hash row) = true.
(** A code that the account's secret gives now, or a recovery code, was typed. *)
Definition proved_code (row : user) (code : option (list Z)) (now : Z) : Prop :=
  totp_verify HMAC_sha1 (u_totp_secret row) code now = true \/
  exists c, code = Some c /\ sha256_hex sha256 (normalize_code c) ∈ csv (snprintf_s 600 (u_totp_recovery row)).
Definition two_factors (row : user) : bool := (u_totp_enabled row =? 1) && negb (streq (u_totp_secret row) []).

(** What a session stands for. *)
Definition session_earned (v : visit) (earlier : list visit) (cookies : list header) : Prop :=
  match v_form v with
  | Form_login username password admin =>
      exists u p, username = Some u /\ password = Some p /\
      ((auth_admin_check sha512 u p admin = true /\
        exists token, issue g_site_admin_uid u (CS "admin") (v_now v) = Some token /\ cookies = set_auth_cookies token (v_tls v)) \/
       (exists row role token, db_user_get_by_username (v_accounts v) u = Some row /\ u_role row = Some role /\
          verify_password p (u_password_hash row) = true /\ two_factors row = false /\
          (email_cert_enabled = true -> u_email_verified row <> 0) /\
          issue (u_id row) (u_username row) role (v_now v) = Some token /\ cookies = set_auth_cookies token (v_tls v)))
  | Form_code pending code =>
      exists uid row token, db_user_get_by_id (v_accounts v) uid = Some row /\ proved_code row code (v_now v) /\
        issue uid (u_username row) (default [] (u_role row)) (v_now v) = Some token /\ cookies = set_auth_cookies token (v_tls v) /\
        exists v0, v0 ∈ earlier /\ proved_password uid v0
  end.

Lemma find_some {A} (p : A -> bool) l a : List.find p l = Some a -> p a = true /\ a ∈ l.
Proof. intros H. apply List.find_some in H as [H1 H2]. split; [done|]. by apply list_elem_of_In. Qed.

Lemma small_update ok id f db : (forall u, u_id (f u) = u_id u) -> small_ids db -> small_ids (snd (update_user ok id f db)).
Proof.
  intros Hf H. unfold update_user. destruct ok; [|done]. cbn. apply Forall_map. eapply Forall_impl; [exact H|]. cbn. intros u Hu.
  destruct (u_id u =? id); [by rewrite Hf|done].
Qed.

Lemma recovery_consume_spec ok uid stored code db : let r := totp_recovery_consume sha256 ok uid stored code db in
  (small_ids db -> small_ids (snd r)) /\
  (fst r = true -> exists c, code = Some c /\ sha256_hex sha256 (normalize_code c) ∈ csv (snprintf_s 600 stored)).
Proof.
  unfold totp_recovery_consume. destruct code as [c|]; [|done]. destruct (_ || _); [done|]. rewrite remove_hash_without. cbn [fst snd].
  case_bool_decide as Hin; [|done]. split; [|by exists c]. by apply small_update.
Qed.

Lemma consume_db ok uid stored code db : let r := totp_recovery_consume sha256 ok uid stored code db in
  if fst r then exists csv, snd r = snd (db_user_update_totp_recovery ok uid csv db) else snd r = db.
Proof.
  unfold totp_recovery_consume. destruct code as [c|]; [|done]. destruct (_ || _); [done|]. rewrite remove_hash_without. cbn [fst snd].
  case_bool_decide; [by eexists|done].
Qed.

Lemma history_small h db : history h db -> small_ids db.
Proof.
  induction 1 as [| |h db ok tls pending code target now H IH Hf|]; try done.
  unfold handler_login_2fa_post. destruct (_ <=? 0); [done|]. destruct (db_user_get_by_id _ _) as [row|]; [|done].
  destruct (streq _ _); [done|]. destruct (totp_verify _ _ _ _); [done|]. destruct (streq _ _); [done|].
  pose proof (recovery_consume_spec ok (uid_of pending now) (u_totp_recovery row) code db) as [Hs _].
  destruct (totp_recovery_consume _ _ _ _ _ _) as [[|] db']; by apply Hs.
Qed.

(** The reply of a password: what it shows. *)
Lemma login_post_spec tls username password target admin now db :
  match fst (login_post (false, (0, [])) tls username password target admin now db) with
  | Signed_in cookies _ =>
      exists u p, username = Some u /\ password = Some p /\
      ((auth_admin_check sha512 u p admin = true /\
        exists token, issue g_site_admin_uid u (CS "admin") now = Some token /\ cookies = set_auth_cookies token tls) \/
       (exists row role token, db_user_get_by_username db u = Some row /\ u_role row = Some role /\
          verify_password p (u_password_hash row) = true /\ two_factors row = false /\
          (email_cert_enabled = true -> u_email_verified row <> 0) /\
          issue (u_id row) (u_username row) role now = Some token /\ cookies = set_auth_cookies token tls))
  | Code_page token false =>
      exists u p row, username = Some u /\ password = Some p /\ db_user_get_by_username db u = Some row /\
        verify_password p (u_password_hash row) = true /\ 0 < u_id row /\ cwist_jwt_sign now (pending_payload (u_id row)) secret 300 = Some token
  | _ => True
  end.
Proof.
  unfold handler_login_post. cbn [fst]. destruct username as [u|]; [|done]. destruct password as [p|]; [|done].
  destruct (_ || _); [done|]. destruct (auth_admin_check _ _ _ _) eqn:Ea.
  { destruct (issue _ _ _ _) as [token|] eqn:Et; [|done]. cbn. exists u, p. repeat split; try done. left. split; [done|]. by exists token. }
  destruct (db_user_get_by_username db u) as [row|] eqn:Er; [|done]. destruct (_ || negb _) eqn:Ep; [done|].
  apply orb_false_iff in Ep as [_ Ep%negb_false_iff]. destruct (u_role row) as [role|] eqn:Erole; [|done].
  destruct (Z.leb_spec (u_id row) 0); [done|]. destruct (email_cert_enabled && (u_email_verified row =? 0)) eqn:Ee; [done|].
  destruct ((u_totp_enabled row =? 1) && _) eqn:E2.
  - cbn [option_bind mbind]. destruct (cwist_jwt_sign _ _ _ _) as [token|] eqn:Et; [|done]. cbn. by exists u, p, row.
  - destruct (issue _ _ _ _) as [token|] eqn:Et; [|done]. cbn. exists u, p. repeat split; try done. right. exists row, role, token.
    repeat split; try done. intros ->. cbn in Ee. by apply Z.eqb_neq.
Qed.

Lemma pending_payload_fits uid : pending_payload uid = CS "{" ++ json_member (CS "p") (CS "2fa") ++ CS "," ++ json_member (CS "sub") (print_int uid) ++ CS "}".
Proof. unfold pending_payload. apply snprintf_s_id. pose proof (length_print_int uid). rewrite !length_app. unfold json_member. rewrite !length_app. cbn [length]. lia. Qed.

(** Every pending token the server sent was sent for a proven password of the account it names. *)
Lemma pending_proved h db v token : history h db -> v ∈ h -> v_reply v = Code_page token false ->
  exists uid life now, proved_password uid v /\ 0 < uid < 2 ^ 31 /\ cwist_jwt_sign now (pending_payload uid) secret life = Some token.
Proof.
  induction 1 as [|h db tls username password target admin now H IH|h db ok tls pending code target now H IH Hf|h db db' H IH Hs]; intros Hv Hr.
  - by apply not_elem_of_nil in Hv.
  - apply elem_of_cons in Hv as [->|Hv]; [|by apply IH]. cbn [v_reply v_form v_accounts] in *.
    pose proof (login_post_spec tls username password target admin now db) as Hs. rewrite Hr in Hs.
    destruct Hs as (u & p & row & -> & -> & Hrow & Hp & Hid & Hsign). exists (u_id row), 300, now. split; [|split; [|done]].
    + by exists u, p, admin, row.
    + pose proof (history_small _ _ H) as Hsm. unfold small_ids in Hsm. rewrite Forall_forall in Hsm. apply find_some in Hrow as [_ Hrow]. specialize (Hsm _ Hrow). lia.
  - apply elem_of_cons in Hv as [->|Hv]; [|by apply IH]. exfalso. revert Hr. cbn [v_reply]. unfold handler_login_2fa_post.
    destruct (_ <=? 0); [done|]. destruct (db_user_get_by_id _ _) as [row|]; [|done]. destruct (streq _ _); [done|]. unfold complete_login, sign_in.
    destruct (totp_verify _ _ _ _); [by destruct (issue _ _ _ _)|]. destruct (streq _ _); [done|].
    destruct (totp_recovery_consume _ _ _ _ _ _) as [[|] db']; [by destruct (issue _ _ _ _)|done].
  - by apply IH.
Qed.

(** C2: Whatever visitors send and however the accounts change in between, a session is given only to
    the administrator's password; to the password of an account without two factors whose address is
    confirmed where that is required; or to a code of an account, the current one or an unused
    recovery code, whose password was proven to the server before. *)
Theorem login_two_factors h db v earlier later cookies location : history h db -> h = later ++ v :: earlier ->
  v_reply v = Signed_in cookies location -> session_earned v earlier cookies.
Proof.
  intros H. revert later. induction H as [|h db tls username password target admin now H IH|h db ok tls pending code target now H IH Hf|h db db' H IH Hs]; intros later Hh Hr.
  - by destruct later.
  - destruct later as [|v' later]; [|injection Hh as _ ->; by eapply IH]. injection Hh as <- <-. cbn [v_reply] in Hr. unfold session_earned. cbn [v_form v_accounts v_now v_tls].
    pose proof (login_post_spec tls username password target admin now db) as Hs. by rewrite Hr in Hs.
  - destruct later as [|v' later]; [|injection Hh as _ ->; by eapply IH]. injection Hh as <- <-. cbn [v_reply] in Hr. unfold session_earned. cbn [v_form v_accounts v_now v_tls].
    unfold handler_login_2fa_post in Hr. destruct (Z.leb_spec (uid_of pending now) 0) as [|Huid]; [done|].
    destruct (Hf Huid) as (v0 & token0 & Hv0 & -> & Hr0). destruct (pending_proved h db v0 token0 H Hv0 Hr0) as (uid & life & now0 & Hp & Hid & Hsign).
    assert (Euid : uid_of (Some token0) now = uid).
    { unfold pending_uid in Huid |- *. destruct (cwist_jwt_verify now token0 secret) as [get|] eqn:Ev; [|lia]. destruct (get (CS "p")) as [q|]; [|lia].
      destruct (streq q _); [|lia]. rewrite (Hverify _ _ _ _ _ _ Hsign Ev). unfold atoi.
      rewrite strtol10_print_int by (unfold long_max; lia). apply i32_small. lia. }
    rewrite Euid in Hr. destruct (db_user_get_by_id db uid) as [row|] eqn:Erow; [|done]. destruct (streq (u_totp_secret row) []); [done|].
    exists uid, row. destruct (totp_verify HMAC_sha1 (u_totp_secret row) code now) eqn:Et.
    + cbn [fst] in Hr. unfold complete_login in Hr. destruct (issue _ _ _ _) as [token|]; [|done]. injection Hr as <- _. exists token.
      repeat split; try done; [by left|by exists v0].
    + destruct (streq (u_totp_recovery row) []); [done|]. pose proof (recovery_consume_spec ok uid (u_totp_recovery row) code db) as [_ Hc].
      destruct (totp_recovery_consume _ _ _ _ _ _) as [[|] db']; [|done]. cbn [fst] in Hr, Hc. unfold complete_login in Hr.
      destruct (issue _ _ _ _) as [token|]; [|done]. injection Hr as <- _. exists token. repeat split; try done; [right; by apply Hc|by exists v0].
  - by eapply IH.
Qed.
(** C24: Two-factor codes are turned off with the password and a code only by the action that says so:
    without both it leaves them on.  But starting their setup again takes neither: after it, the
    password alone signs in. *)
Theorem totp_enable_strips uid role db row : accounts_wf db -> db_user_get_by_id db uid = Some row ->
  let post := handler_account_totp_post sha512 sha256 pbkdf2 argon2id HMAC_sha1 in
  (forall ok password code random randoms now,
     ~ ((exists p, password = Some p /\ verify_password p (u_password_hash row) = true) /\ proved_code row code now) ->
     exists row', db_user_get_by_id (snd (post ok (Pass uid role) (Some (CS "disable")) password code random randoms now db)) uid = Some row' /\
       two_factors row' = two_factors row) /\
  (forall ok random s randoms now tls password target admin r token, ok 0%nat = true -> totp_secret_generate (Some random) = Some s ->
     0 < uid -> u_username row <> [] -> password <> [] -> u_password_hash row <> [] -> u_role row = Some r -> u_email_verified row <> 0 ->
     auth_admin_check sha512 (u_username row) password admin = false ->
     verify_password password (u_password_hash row) = true -> issue uid (u_username row) r now = Some token ->
     let db' := snd (post ok (Pass uid role) (Some (CS "enable")) None None (Some random) randoms now db) in
     exists location, fst (login_post (false, (0, [])) tls (Some (u_username row)) (Some password) target admin now db') = Signed_in (set_auth_cookies token tls) location).
Proof.
  intros Hwf Hrow. cbv zeta. split.
  - intros ok password code random randoms now Hno. unfold handler_account_totp_post. rewrite Hrow.
    change (action_of (Some (CS "disable"))) with Totp_disable. cbv iota.
    set (password_ok := match password with Some p => _ | None => false end).
    assert (Hpw : password_ok = true -> exists p, password = Some p /\ verify_password p (u_password_hash row) = true).
    { unfold password_ok. destruct password as [p|]; [by exists p|done]. }
    destruct (negb (streq (u_totp_secret row) []) && totp_verify HMAC_sha1 (u_totp_secret row) code now) eqn:Et.
    + apply andb_true_iff in Et as [_ Et]. destruct password_ok; [destruct Hno; split; [by apply Hpw|by left]|]. by exists row.
    + pose proof (recovery_consume_spec (ok 0%nat) uid (u_totp_recovery row) code db) as [_ Hc].
      pose proof (consume_db (ok 0%nat) uid (u_totp_recovery row) code db) as Hd.
      destruct (totp_recovery_consume _ _ _ _ _ _) as [[|] db']; cbn [fst snd] in *.
      * destruct password_ok; [destruct Hno; split; [by apply Hpw|right; by apply Hc]|]. destruct Hd as [csv ->]. cbn [andb snd].
        unfold db_user_update_totp_recovery. rewrite update_user_get, Z.eqb_refl, Hrow by done. destruct (ok 0%nat); by eexists.
      * rewrite andb_false_r, Hd. by exists row.
  - intros ok random s randoms now tls password target admin r token Hok Hs Huid Hname Hpw Hhash Hr Hem Hadm Hv Hi.
    unfold handler_account_totp_post. rewrite Hrow. change (action_of (Some (CS "enable"))) with Totp_enable. cbv iota. rewrite Hs, Hok. cbn [snd].
    apply get_by_id_spec in Hrow as Hin; [|done]. destruct Hin as [Hin Hid].
    assert (Hbyname : db_user_get_by_username db (u_username row) = Some row) by (by apply get_by_username_spec).
    unfold handler_login_post. cbn [fst]. rewrite (proj2 (streq_neq (u_username row) [])), (proj2 (streq_neq password [])), Hadm by done. cbn [orb].
    unfold db_user_update_totp. rewrite update_user_get_name, Hbyname by done. cbn [fmap option_fmap option_map]. rewrite (proj2 (Z.eqb_eq _ _) Hid).
    cbn [u_password_hash u_role u_id u_email_verified u_totp_enabled u_totp_secret u_username].
    rewrite (proj2 (streq_neq (u_password_hash row) [])), Hv, Hr, Hid by done. cbn [orb negb]. rewrite (proj2 (Z.leb_gt _ _)), (proj2 (Z.eqb_neq _ _) Hem), andb_false_r by done.
    cbn [Z.eqb andb]. rewrite Hi. by eexists.
Qed.
End factors.

(** A site with one account that uses two factors; tokens are their payloads. *)
Module Demo.
Definition prefix : cstr := CS "{" ++ json_member (CS "p") (CS "2fa") ++ CS "," ++ [34] ++ CS "sub" ++ [34] ++ CS ":" ++ [34].
Definition sign (now : Z) (payload secret : list Z) (life : Z) : option (list Z) := Some payload.
Definition verify (now : Z) (token secret : list Z) : option claims :=
  if starts_with prefix token then
    Some (fun name => if streq name (CS "p") then Some (CS "2fa")
                      else if streq name (CS "sub") then Some (fst (span (fun c => negb (c =? 34)) (drop (length prefix) token))) else None)
  else None.
Definition pbkdf2 (p s : list Z) (n : Z) : list Z := demo_out 32 p.
Definition argon2id (p s : list Z) (costs : Z * Z * Z * Z) : option (list Z) := Some (demo_out 64 (rev p)).
Definition hmac (key msg : list Z) : option (list Z) := Some (take 20 (msg ++ key ++ key)).
Definition hash : cstr := auth_hash_password (demo_out 64) pbkdf2 argon2id (replicate 32 7) (replicate 16 9) (CS "hunter2") 256.
Definition eve : user := User 7 (CS "eve") (CS "eve@x") hash (Some (CS "user")) 1 0 1 1 (replicate 32 65) [].
Definition db : accounts_db := AccountsDb [eve] [] 8.
Definition admin : admin_state := Admin (CS "root") (CS "x") (CS "y").
End Demo.

Lemma print_int_no_quote n : Forall (fun c => c <> 34) (print_int n).
Proof.
  assert (H : forall m, 0 <= m -> Forall (fun c => c <> 34) (print_dec m)).
  { intros m Hm. eapply Forall_impl; [apply print_dec_aux_digits; [done|constructor]|]. cbn. intros c Hc. unfold isdigit in Hc. lia. }
  unfold print_int. destruct (Z.ltb_spec n 0); [constructor; [done|]|]; apply H; lia.
Qed.

Lemma demo_verify_law now uid life token now' get : Demo.sign now (pending_payload uid) (CS "s") life = Some token ->
  Demo.verify now' token (CS "s") = Some get -> get (CS "sub") = Some (print_int uid).
Proof.
  intros [= <-]. rewrite pending_payload_fits. unfold Demo.verify.
  assert (E : CS "{" ++ json_member (CS "p") (CS "2fa") ++ CS "," ++ json_member (CS "sub") (print_int uid) ++ CS "}" = Demo.prefix ++ print_int uid ++ [34] ++ CS "}").
  { unfold Demo.prefix, json_member. by rewrite <-!app_assoc. }
  rewrite E, starts_with_app, drop_app_length. intros [= <-]. cbn -[span print_int app]. f_equal.
  rewrite (span_stop _ (print_int uid) ([34] ++ CS "}")); [done| |by intros ? ? [= <- _]].
  apply forallb_forall. intros c Hc. apply list_elem_of_In in Hc. pose proof (print_int_no_quote uid) as H. rewrite Forall_forall in H. by apply negb_true_iff, Z.eqb_neq, H.
Qed.

Lemma login_two_factors_witness :
  exists v0 v cookies location db',
    history (demo_out 64) (demo_out 32) Demo.pbkdf2 Demo.argon2id Demo.hmac Demo.sign Demo.verify (CS "s") 1 true (CS "https://fly.board/") [v; v0] db' /\
    v_reply v = Signed_in cookies location /\ proved_password (demo_out 64) Demo.pbkdf2 Demo.argon2id 7 v0.
Proof.
  pose (hist := history (demo_out 64) (demo_out 32) Demo.pbkdf2 Demo.argon2id Demo.hmac Demo.sign Demo.verify (CS "s") 1 true (CS "https://fly.board/")).
  assert (H0 : hist [] Demo.db) by (apply h_start; by repeat constructor).
  pose proof (h_login (demo_out 64) (demo_out 32) Demo.pbkdf2 Demo.argon2id Demo.hmac Demo.sign Demo.verify (CS "s") 1 true (CS "https://fly.board/")
    [] Demo.db false (Some (CS "eve")) (Some (CS "hunter2")) None Demo.admin 600 H0) as H1.
  pose proof (h_code (demo_out 64) (demo_out 32) Demo.pbkdf2 Demo.argon2id Demo.hmac Demo.sign Demo.verify (CS "s") 1 true (CS "https://fly.board/")
    _ Demo.db true false (Some (pending_payload 7)) (Some (CS "000000")) None 600 H1) as H2.
  specialize (H2 ltac:(intros _; eexists _, _; split; [left|split; [reflexivity|by vm_compute]])).
  eexists _, _, _, _, _. split; [exact H2|]. split; [by vm_compute|].
  pose proof (login_two_factors (demo_out 64) (demo_out 32) Demo.pbkdf2 Demo.argon2id Demo.hmac Demo.sign Demo.verify (CS "s") 1 true (CS "https://fly.board/")
    demo_verify_law _ _ _ _ [] _ _ H2 eq_refl ltac:(by vm_compute)) as H3.
  destruct H3 as (uid & row & token & Hrow & _ & _ & _ & v' & Hv' & Hp). apply list_elem_of_singleton in Hv' as ->.
  unfold db_user_get_by_id in Hrow. cbn [v_accounts Demo.db db_users List.find] in Hrow. destruct (Z.eqb_spec (u_id Demo.eve) uid) as [<-|]; [exact Hp|done].
Defined.

Lemma totp_enable_strips_witness :
  let login := handler_login_post (demo_out 64) Demo.pbkdf2 Demo.argon2id Demo.sign (Some (CS "s")) 1 true (CS "https://fly.board/") (false, (0, []))
                 false (Some (CS "eve")) (Some (CS "hunter2")) None Demo.admin 600 in
  let db' := snd (handler_account_totp_post (demo_out 64) (demo_out 32) Demo.pbkdf2 Demo.argon2id Demo.hmac (fun _ => true) (Pass 7 (CS "user"))
                    (Some (CS "enable")) None None (Some (replicate 20 5)) [] 600 Demo.db) in
  fst (login Demo.db) = Code_page (pending_payload 7) false /\ exists cookies location, fst (login db') = Signed_in cookies location.
Proof.
  assert (Hwf : accounts_wf Demo.db).
  { split; cbn; [by repeat constructor|apply NoDup_singleton|apply NoDup_singleton|constructor]. }
  split; [by vm_compute|].
  destruct (totp_enable_strips (demo_out 64) (demo_out 32) Demo.pbkdf2 Demo.argon2id Demo.hmac Demo.sign (CS "s") 1 true (CS "https://fly.board/")
    7 (CS "user") Demo.db Demo.eve Hwf eq_refl) as [_ H].
  edestruct (H (fun _ => true) (replicate 20 5) _ [] 600 false (CS "hunter2") None Demo.admin (CS "user") (session_payload 7 (CS "eve") (CS "user") 600) eq_refl
    ltac:(by vm_compute) ltac:(done) ltac:(done) ltac:(done) ltac:(by vm_compute) eq_refl ltac:(done) ltac:(by vm_compute) ltac:(by vm_compute) eq_refl) as [location Hl].
  eexists _, location. exact Hl.
Defined.
