(* ===== verification/Account.v ===== *)
(** * Accounts: registration, confirmation, passwords, deletion (src/src/handlers/auth.c)

    The handlers of forms as in Login; [ok i] tells whether the handler's [i]th statement succeeds, and
    random bytes, the mail server's answer and the clock are arguments. *)
From S2P Require Import Prelude CStr Community Auth AuthSession Totp SiteSettings WritePolicy SpamGuard Middleware Users Login.

Definition k_reserved_usernames : list (list Z) :=
  [CS "postmaster"; CS "abuse"; CS "admin"; CS "administrator"; CS "support"; CS "help";
   CS "noreply"; CS "mailer-daemon"; CS "root"; CS "info"; CS "webmaster"; CS "hostmaster"; CS "noc"; CS "security"].

Definition is_reserved_username (username : cstr) : bool := existsb (fun r => strcaseeq username r) k_reserved_usernames.

Section account.
Context (sha512 : list Z -> list Z) (sha256 : list Z -> list Z).
Context (pbkdf2 : list Z -> list Z -> Z -> list Z).
Context (argon2id : list Z -> list Z -> Z * Z * Z * Z -> option (list Z)).
Context (HMAC_sha1 : list Z -> list Z -> option (list Z)) (hmac_sha256 : list Z -> list Z -> list Z).
Context (auth_jwt_secret : option (list Z)) (g_site_admin_uid : Z) (email_cert_enabled : bool).

Abbreviation verify_password := (auth_verify_password sha512 pbkdf2 argon2id).

(** ** Registration *)

Definition VERIFICATION_LIFETIME : Z := 24 * 3600.

(** The token of the mail: 32 random bytes in hexadecimal. *)
Definition mail_token (random : list Z) : cstr := hex_text (take 32 random).

Definition spam_status (v : spam_verdict) : Z := match v with SPAM_RATE_LIMITED => 429 | _ => 400 end.

(** [random] is [None] when no random bytes can be had, [mailed] whether the mail is accepted. *)
Definition handler_register_post (ok : nat -> bool) (policy : write_policy) (p : peer) (rates : option rate_table)
    (username email password trap form_ts : option cstr) (salt salt16 : list Z) (random : option (list Z)) (mailed : bool) (now : Z) (db : accounts_db)
    : reply * accounts_db * option rate_table :=
  let '(verdict, rates) := spam_guard_check hmac_sha256 auth_jwt_secret policy now p 0 (Some []) trap form_ts rates in
  match verdict with
  | SPAM_OK =>
      match username, email, password with
      | Some username, Some email, Some password =>
          if zlen password <? 6 then (Page (CS "Invalid input (password min 6 chars)"), db, rates)
          else if is_reserved_username username then (Page (CS "This username is reserved"), db, rates)
          else
            let hash := auth_hash_password sha512 pbkdf2 argon2id salt salt16 password 256 in
            let '(created, db) := db_user_create (ok 0%nat) username email hash db in
            if negb created then (Page (CS "Username or email already exists"), db, rates)
            else if negb email_cert_enabled then (Redirect (CS "/login"), db, rates)
            else
              let user_id := match db_user_get_by_username db username with Some u => u_id u | None => 0 end in
              let '(sent, db) :=
                match random with
                | Some bytes =>
                    if 0 <? user_id then
                      let '(_, db) := db_user_set_email_verified (ok 1%nat) user_id false db in
                      let '(stored, db) := db_email_token_create (ok 2%nat) user_id (mail_token bytes) (now + VERIFICATION_LIFETIME) now db in
                      (stored && mailed, db)
                    else (false, db)
                | None => (false, db)
                end in
              (Page (if sent then CS "Verification email sent. Check your inbox to activate your account."
                     else CS "Could not send verification email; contact the administrator."), db, rates)
      | _, _, _ => (Page (CS "Invalid input (password min 6 chars)"), db, rates)
      end
  | v => (Error_status (spam_status v), db, rates)
  end.

Definition handler_verify_email_get (ok : nat -> bool) (token : option cstr) (now : Z) (db : accounts_db) : reply * accounts_db :=
  match token with
  | Some token =>
      if negb email_cert_enabled || streq token [] then (Redirect (CS "/login"), db)
      else
        let '(user_id, db) := db_email_token_consume ok now token db in
        (Page (if user_id <=? 0 then CS "Invalid or expired verification link" else CS "Email verified. Please log in."), db)
  | None => (Redirect (CS "/login"), db)
  end.

(** The outstanding tokens are dropped before a new one is made; an unknown or confirmed account gets
    the answer of one that was mailed. *)
Definition handler_resend_verification_post (ok : nat -> bool) (username : option cstr) (random : option (list Z)) (mailed : bool) (now : Z)
    (db : accounts_db) : reply * accounts_db :=
  if negb email_cert_enabled then (Redirect (CS "/login"), db)
  else
    let user := match username with Some u => if streq u [] then None else db_user_get_by_username db u | None => None end in
    let user_id := match user with Some u => u_id u | None => 0 end in
    let needs_verification := match user with Some u => u_email_verified u =? 0 | None => false end in
    let '(sent, db) :=
      match user, random with
      | Some u, Some bytes =>
          if (0 <? user_id) && needs_verification && negb (streq (u_email u) []) then
            let '(_, db) := db_email_token_delete_for_user (ok 0%nat) user_id db in
            let '(stored, db) := db_email_token_create (ok 1%nat) user_id (mail_token bytes) (now + VERIFICATION_LIFETIME) now db in
            (stored && mailed, db)
          else (false, db)
      | _, _ => (false, db)
      end in
    (Page (if sent || negb needs_verification
           then CS "If this account exists and is not verified yet, a new verification email is on its way."
           else CS "Could not send the verification email; contact the administrator."), db).

(** ** Passwords *)

(** [file] is the text of admin.settings. *)
Definition handler_password_change_post (ok : bool) (g : gate) (current new_pw confirm : option cstr) (salt salt16 : list Z)
    (admin : admin_state) (file : option cstr) (db : accounts_db) : reply * accounts_db * admin_state * option cstr :=
  match g with
  | Redirect_login l => (Redirect l, db, admin, file)
  | Gate_forbidden => (Error_status 403, db, admin, file)
  | Pass uid _ =>
      match current, new_pw, confirm with
      | Some current, Some new_pw, Some confirm =>
          if zlen new_pw <? 6 then (Page (CS "Invalid input (password min 6 chars)"), db, admin, file)
          else if negb (streq new_pw confirm) then (Page (CS "New passwords do not match"), db, admin, file)
          else if auth_is_site_admin g_site_admin_uid uid then
            let '(changed, admin, file) := auth_admin_update_password sha512 current new_pw admin file in
            (if changed : bool then Redirect (CS "/admin") else Page (CS "Current password is incorrect"), db, admin, file)
          else match db_user_get_by_id db uid with
          | None => (Page (CS "User not found"), db, admin, file)
          | Some user =>
              if negb (verify_password current (u_password_hash user)) then (Page (CS "Current password is incorrect"), db, admin, file)
              else (Redirect (CS "/profile"),
                    snd (db_user_update_password ok uid (auth_hash_password sha512 pbkdf2 argon2id salt salt16 new_pw 256) db), admin, file)
          end
      | _, _, _ => (Page (CS "Invalid input (password min 6 chars)"), db, admin, file)
      end
  end.

(** ** Deletion *)

(** The administrator of admin.settings cannot be removed; an account is removed by itself or by an
    administrator. *)
Definition handler_unregister_post (ok_tokens ok : bool) (tls : bool) (g : gate) (id_str : option cstr) (db : accounts_db) : reply * accounts_db :=
  match g with
  | Redirect_login l => (Redirect l, db)
  | Gate_forbidden => (Error_status 403, db)
  | Pass uid role =>
      match id_str with
      | None => (Redirect (CS "/admin/users"), db)
      | Some id_str =>
          let target := atoi id_str in
          if auth_is_site_admin g_site_admin_uid target then (Redirect (CS "/admin/users"), db)
          else if (0 <? target) && ((target =? uid) || streq role (CS "admin")) then
            let '(_, db) := db_user_delete_with_cascade ok_tokens ok target db in
            (if target =? uid then handler_logout tls else Redirect (CS "/admin/users"), db)
          else (Redirect (CS "/admin/users"), db)
      end
  end.

(** [ok 0] is the statement of a used recovery code, [ok 1] the transactions of the deletion. *)
Definition handler_account_delete_post (ok : nat -> bool) (tls : bool) (g : gate) (password confirmation code : option cstr) (now : Z)
    (db : accounts_db) : reply * accounts_db :=
  match g with
  | Redirect_login l => (Redirect l, db)
  | Gate_forbidden => (Error_status 403, db)
  | Pass uid _ =>
      if auth_is_site_admin g_site_admin_uid uid then (Error_status 403, db)
      else
        let refused := Page (CS "Account was NOT deleted. Check the password, DELETE confirmation, and two-factor code.") in
        match db_user_get_by_id db uid with
        | None => (refused, db)
        | Some user =>
            let password_ok := match password with Some p => verify_password p (u_password_hash user) | None => false end in
            let confirmed := match confirmation with Some c => streq c (CS "DELETE") | None => false end in
            let '(code_ok, db) :=
              if u_totp_enabled user =? 1 then
                if negb (streq (u_totp_secret user) []) && totp_verify HMAC_sha1 (u_totp_secret user) code now then (true, db)
                else if password_ok && confirmed then totp_recovery_consume sha256 (ok 0%nat) uid (u_totp_recovery user) code db
                else (false, db)
              else (true, db) in
            if negb password_ok || negb confirmed || negb code_ok then (refused, db)
            else
              let '(ghosted, db) := db_user_ghost (ok 1%nat) uid db in
              (if ghosted : bool then handler_logout tls else Error_status 500, db)
        end
  end.
End account.

(** ** From registration to the first session *)

Lemma find_fresh token tokens t : Forall (fun t => et_token t <> token) tokens -> et_token t = token ->
  List.find (fun t => streq (et_token t) token) (tokens ++ [t]) = Some t.
Proof.
  intros H Ht. induction H as [|x l Hx _ IH]; cbn; [by rewrite Ht, streq_refl|]. by rewrite (proj2 (streq_neq _ _) Hx).
Qed.

Section registration.
Context (sha512 : list Z -> list Z).
Context (pbkdf2 : list Z -> list Z -> Z -> list Z).
Context (argon2id : list Z -> list Z -> Z * Z * Z * Z -> option (list Z)).
Context (hmac_sha256 : list Z -> list Z -> list Z).
Context (cwist_jwt_sign : Z -> list Z -> list Z -> Z -> option (list Z)).
Context (auth_jwt_secret : option (list Z)) (g_site_admin_uid : Z) (root_url : list Z).
Hypothesis (Hpbkdf2 : forall p s n, length (pbkdf2 p s n) = 32%nat /\ bytes (pbkdf2 p s n)).
Hypothesis (Hargon : forall p s costs key, argon2id p s costs = Some key -> length key = 64%nat /\ bytes key).

Abbreviation verify_password := (auth_verify_password sha512 pbkdf2 argon2id).
Abbreviation hash_of := (fun salt salt16 password => auth_hash_password sha512 pbkdf2 argon2id salt salt16 password 256).
Abbreviation login_post := (fun cert => handler_login_post sha512 pbkdf2 argon2id cwist_jwt_sign auth_jwt_secret g_site_admin_uid cert root_url).
Abbreviation issue := (auth_jwt_issue cwist_jwt_sign auth_jwt_secret).

Lemma login_plain cert tls username password target admin now db row r token :
  db_user_get_by_username db username = Some row -> auth_admin_check sha512 username password admin = false -> username <> [] -> password <> [] ->
  u_password_hash row <> [] -> verify_password password (u_password_hash row) = true -> u_role row = Some r -> 0 < u_id row ->
  (cert = true -> u_email_verified row <> 0) -> two_factors row = false -> issue (u_id row) (u_username row) r now = Some token ->
  fst (login_post cert (false, (0, [])) tls (Some username) (Some password) target admin now db) = sign_in root_url token tls target (CS "/").
Proof.
  intros Hrow Hadm Hu Hp Hh Hv Hr Hid He H2 Hi. unfold handler_login_post. cbn [fst]. rewrite (proj2 (streq_neq _ _) Hu), (proj2 (streq_neq _ _) Hp), Hadm, Hrow.
  cbn [orb]. rewrite (proj2 (streq_neq _ _) Hh), Hv, Hr, (proj2 (Z.leb_gt _ _) Hid). cbn [orb negb]. unfold two_factors in H2. rewrite H2, Hi.
  destruct cert; [|done]. cbn [andb]. by rewrite (proj2 (Z.eqb_neq _ _) (He eq_refl)).
Qed.

Lemma login_unverified tls username password target admin now db row :
  db_user_get_by_username db username = Some row -> auth_admin_check sha512 username password admin = false -> u_email_verified row = 0 ->
  exists msg, fst (login_post true (false, (0, [])) tls (Some username) (Some password) target admin now db) = Page msg.
Proof.
  intros Hrow Hadm He. unfold handler_login_post. cbn [fst]. destruct (_ || _); [by eexists|]. rewrite Hadm, Hrow. destruct (_ || _); [by eexists|].
  destruct (u_role row); [|by eexists]. destruct (_ <=? _); [by eexists|]. rewrite He. by eexists.
Qed.

Lemma hash_not_empty salt salt16 password : length salt = 32%nat -> length salt16 = 16%nat -> hash_of salt salt16 password <> [].
Proof.
  intros Hl Hl16. unfold auth_hash_password, argon2id_hash_create. destruct (argon2id _ salt _).
  - done.
  - unfold pbkdf2_hash_create. pose proof (length_hex_text salt16) as H. rewrite Hl16 in H. by destruct (hex_text salt16).
Qed.

(** The account a registration makes. *)
Definition new_account (id : Z) (username email : list Z) (hash : cstr) (verified : Z) : user :=
  User id username email hash (Some (CS "user")) 1 0 verified 0 [] [].

Lemma create_spec username email hash db : accounts_wf db -> 0 < db_next_id db ->
  existsb (fun u => streq (u_username u) username || streq (u_email u) email) (db_users db) = false ->
  exists db0, db_user_create true username email hash db = (true, db0) /\ accounts_wf db0 /\ db_tokens db0 = db_tokens db /\
    db_user_get_by_username db0 username = Some (new_account (db_next_id db) username email hash 1).
Proof.
  intros Hwf Hpos Hfree. pose proof (wf_create true username email hash db Hpos Hwf) as Hwf0. unfold db_user_create in *.
  rewrite insert_free in * by done. cbn [snd] in *.
  eexists. split; [reflexivity|]. split; [done|]. split; [done|]. apply get_by_username_spec; [done|]. split; [|done]. cbn. apply elem_of_app. right. by left.
Qed.

Lemma set_verified_get b db0 id username email hash v : db_user_get_by_username db0 username = Some (new_account id username email hash v) ->
  db_user_get_by_username (snd (db_user_set_email_verified true id b db0)) username = Some (new_account id username email hash (if b then 1 else 0)).
Proof. intros H. unfold db_user_set_email_verified. rewrite update_user_get_name, H by done. cbn. by rewrite Z.eqb_refl. Qed.

(** The table after a registration: whether the account is held back until its address is confirmed,
    and the token that is mailed. *)
Lemma register_db ok policy p rates username email password trap form_ts salt salt16 random mailed now db :
  accounts_wf db -> 0 < db_next_id db ->
  existsb (fun u => streq (u_username u) username || streq (u_email u) email) (db_users db) = false ->
  is_reserved_username username = false -> 6 <= zlen password ->
  fst (spam_guard_check hmac_sha256 auth_jwt_secret policy now p 0 (Some []) trap form_ts rates) = SPAM_OK ->
  let '(reply, db1, _) := handler_register_post sha512 pbkdf2 argon2id hmac_sha256 auth_jwt_secret true ok policy p rates
                    (Some username) (Some email) (Some password) trap form_ts salt salt16 random mailed now db in
  if ok 0%nat then
    db_user_get_by_username db1 username =
      Some (new_account (db_next_id db) username email (hash_of salt salt16 password) (if bool_decide (is_Some random) && ok 1%nat then 0 else 1)) /\
    db_tokens db1 = db_tokens db ++ (match random with Some b => if ok 2%nat then [EmailToken (db_next_id db) (mail_token b) (now + VERIFICATION_LIFETIME) now] else [] | None => [] end) /\
    reply = Page (if bool_decide (is_Some random) && ok 2%nat && mailed then CS "Verification email sent. Check your inbox to activate your account."
                  else CS "Could not send verification email; contact the administrator.")
  else db1 = db /\ reply = Page (CS "Username or email already exists").
Proof.
  intros Hwf Hpos Hfree Hres Hlen Hspam. unfold handler_register_post.
  destruct (spam_guard_check _ _ _ _ _ _ _ _ _ _) as [verdict rates']. cbn [fst] in Hspam. subst verdict.
  rewrite (proj2 (Z.ltb_ge _ _) Hlen), Hres. destruct (ok 0%nat); [|done].
  destruct (create_spec username email (hash_of salt salt16 password) db Hwf Hpos Hfree) as (db0 & Hc & Hwf0 & Ht0 & Hu0). rewrite Hc, Hu0. cbn [negb u_id new_account].
  rewrite (proj2 (Z.ltb_lt _ _) Hpos). destruct random as [b|]; [|by rewrite app_nil_r]. cbn [bool_decide andb].
  pose proof (set_verified_get false db0 _ _ _ _ _ Hu0) as Hu1. unfold db_user_set_email_verified, update_user, db_email_token_create in *.
  cbn [snd set_users] in Hu1. rewrite bool_decide_eq_true_2 by done.
  destruct (ok 1%nat), (ok 2%nat); cbn [fst snd andb]; rewrite ?app_nil_r; (split; [done|split; [by rewrite <- Ht0|by destruct mailed]]).
Qed.

Definition verified_row (u : user) : user :=
  User (u_id u) (u_username u) (u_email u) (u_password_hash u) (u_role u) (u_active u) (u_ghosted u) 1 (u_totp_enabled u) (u_totp_secret u) (u_totp_recovery u).

Lemma find_none_all token tokens : Forall (fun t => et_token t <> token) tokens -> List.find (fun t => streq (et_token t) token) tokens = None.
Proof. induction 1 as [|t l Ht _ IH]; [done|]. cbn. by rewrite (proj2 (streq_neq _ _) Ht). Qed.

(** What the link of an account does, with the statements of its request. *)
Lemma verify_db okv token now id expires created tokens db row :
  token <> [] -> Forall (fun t => et_token t <> token) tokens -> 0 < id ->
  db_tokens db = tokens ++ [EmailToken id token expires created] -> db_user_get_by_username db (u_username row) = Some row -> u_id row = id ->
  let '(reply, db') := handler_verify_email_get true okv (Some token) now db in
  if expires <? now then reply = Page (CS "Invalid or expired verification link") /\ db' = db
  else reply = Page (CS "Email verified. Please log in.") /\
    db_user_get_by_username db' (u_username row) = Some (if okv 0%nat then verified_row row else row) /\
    (okv 1%nat = true -> List.find (fun t => streq (et_token t) token) (db_tokens db') = None).
Proof.
  intros Hne Htok Hid Ht Hrow Hrid. unfold handler_verify_email_get, db_email_token_consume. rewrite (proj2 (streq_neq _ _) Hne), Ht.
  rewrite (find_fresh token tokens) by done. cbn [et_user et_expires negb orb]. rewrite (proj2 (Z.leb_gt _ _) Hid). cbn [orb].
  destruct (expires <? now); [done|].
  assert (Hrow' : db_user_get_by_username (snd (db_user_set_email_verified (okv 0%nat) id true db)) (u_username row) =
                  Some (if okv 0%nat then verified_row row else row)).
  { destruct (okv 0%nat); [|done]. unfold db_user_set_email_verified. rewrite update_user_get_name, Hrow by done. cbn. by rewrite (proj2 (Z.eqb_eq _ _) Hrid). }
  assert (Ht' : db_tokens (snd (db_user_set_email_verified (okv 0%nat) id true db)) = db_tokens db)
    by (unfold db_user_set_email_verified, update_user; by destruct (okv 0%nat)).
  destruct (db_user_set_email_verified _ _ _ _) as [v db']. cbn [snd] in *. unfold db_email_token_delete_for_user. cbn [fst snd].
  rewrite (proj2 (Z.leb_gt _ _) Hid). split; [done|]. split; [by destruct (okv 1%nat)|]. intros ->. cbn [db_tokens]. rewrite Ht', Ht, List.filter_app. cbn [List.filter et_user].
  rewrite Z.eqb_refl. cbn [negb]. rewrite app_nil_r. apply find_none_all. by apply Forall_filter.
Qed.

(** The password of an account signs in to it; and no password does. *)
Definition signs_in (id : Z) (username password : cstr) (db : accounts_db) : Prop :=
  forall tls target admin now token, auth_admin_check sha512 username password admin = false -> issue id username (CS "user") now = Some token ->
    fst (login_post true (false, (0, [])) tls (Some username) (Some password) target admin now db) = sign_in root_url token tls target (CS "/").
Definition held_back (username : cstr) (db : accounts_db) : Prop :=
  forall tls pw target admin now, auth_admin_check sha512 username pw admin = false ->
    exists msg, fst (login_post true (false, (0, [])) tls (Some username) (Some pw) target admin now db) = Page msg.

Lemma signs_in_spec id username email password salt salt16 db : 0 < id -> username <> [] -> 6 <= zlen password ->
  length salt = 32%nat -> bytes salt -> length salt16 = 16%nat -> bytes salt16 ->
  db_user_get_by_username db username = Some (new_account id username email (hash_of salt salt16 password) 1) -> signs_in id username password db.
Proof.
  intros Hid Hname Hlen Hl Hs Hl16 Hs16 Hu tls target admin now token Hadm Hi. eapply login_plain; try done.
  - by destruct password.
  - by apply hash_not_empty.
  - apply (verify_derives sha512 pbkdf2 argon2id Hpbkdf2 Hargon salt salt16 password password 256); try done; [lia|by left].
Qed.

(** C8: Where addresses must be confirmed, a registration makes an account and mails its link.  The
    account is held back exactly when random bytes are had and the statement that marks it succeeds;
    then no password signs in to it, and otherwise, which the code does not check, its password signs
    in at once.  The mailed link does nothing once a day has passed; within the day it answers that
    the address is confirmed, the password then signs in if the statement that marks the account
    succeeds, and once the statement that deletes the tokens has succeeded the link does nothing any
    more, at any time. *)
Theorem registration_confirmed ok policy p rates username email password trap form_ts salt salt16 (rng : bool) random mailed now db :
  accounts_wf db -> 0 < db_next_id db ->
  existsb (fun u => streq (u_username u) username || streq (u_email u) email) (db_users db) = false ->
  Forall (fun t => et_token t <> mail_token random) (db_tokens db) -> mail_token random <> [] ->
  username <> [] -> is_reserved_username username = false -> 6 <= zlen password ->
  length salt = 32%nat -> bytes salt -> length salt16 = 16%nat -> bytes salt16 ->
  fst (spam_guard_check hmac_sha256 auth_jwt_secret policy now p 0 (Some []) trap form_ts rates) = SPAM_OK -> ok 0%nat = true ->
  let register := handler_register_post sha512 pbkdf2 argon2id hmac_sha256 auth_jwt_secret true ok policy p rates
                    (Some username) (Some email) (Some password) trap form_ts salt salt16 (if rng then Some random else None) mailed now db in
  let verify okv := handler_verify_email_get true okv (Some (mail_token random)) in
  let useless := Page (CS "Invalid or expired verification link") in
  let db1 := snd (fst register) in
  fst (fst register) = Page (if rng && ok 2%nat && mailed then CS "Verification email sent. Check your inbox to activate your account."
                             else CS "Could not send verification email; contact the administrator.") /\
  (if rng && ok 1%nat then held_back username db1 else signs_in (db_next_id db) username password db1) /\
  (rng = true -> ok 2%nat = true -> forall okv now',
    if now + VERIFICATION_LIFETIME <? now' then verify okv now' db1 = (useless, db1)
    else let '(reply, db2) := verify okv now' db1 in
      reply = Page (CS "Email verified. Please log in.") /\
      (okv 0%nat = true -> signs_in (db_next_id db) username password db2) /\
      (okv 1%nat = true -> forall okw now2, verify okw now2 db2 = (useless, db2))).
Proof.
  intros Hwf Hpos Hfree Htok Hmt Hname Hres Hlen Hl Hs Hl16 Hs16 Hspam H0. cbv zeta.
  pose proof (register_db ok policy p rates username email password trap form_ts salt salt16 (if rng then Some random else None) mailed now db
    Hwf Hpos Hfree Hres Hlen Hspam) as Hreg. destruct (handler_register_post _ _ _ _ _ _ _ _ _ _ _ _ _ _ _ _ _ _ _ _ _) as [[reply db1] rates'].
  rewrite H0 in Hreg. destruct Hreg as (Hu & Ht & ->). cbn [fst snd].
  replace (bool_decide (is_Some (if rng then Some random else None))) with rng in * by (by destruct rng).
  assert (Hin : forall dbx, db_user_get_by_username dbx username = Some (new_account (db_next_id db) username email (hash_of salt salt16 password) 1) ->
    signs_in (db_next_id db) username password dbx) by (intros dbx Hx; by eapply signs_in_spec).
  split; [done|]. split.
  { destruct (rng && ok 1%nat); [|by apply Hin]. intros tls pw target admin now' Hadm. by eapply login_unverified. }
  intros -> H2 okv now'. rewrite H2 in Ht.
  pose proof (verify_db okv (mail_token random) now' (db_next_id db) (now + VERIFICATION_LIFETIME) now (db_tokens db) db1
    (new_account (db_next_id db) username email (hash_of salt salt16 password) (if true && ok 1%nat then 0 else 1)) Hmt Htok Hpos Ht Hu eq_refl) as Hv.
  destruct (handler_verify_email_get true okv (Some (mail_token random)) now' db1) as [reply db2]. destruct (_ <? now'); [by destruct Hv as [-> ->]|].
  destruct Hv as (-> & Hu2 & Hgone). split; [done|]. split.
  - intros Hv0. rewrite Hv0 in Hu2. by apply Hin.
  - intros Hv1 okw now2. unfold handler_verify_email_get, db_email_token_consume. by rewrite (proj2 (streq_neq _ _) Hmt), (Hgone Hv1).
Qed.
(** A password is changed with the current one and a new one typed twice: then the new one is
    accepted, and another only if it derives the same key; otherwise no account changes.  No other
    account ever changes. *)
Theorem password_change_replaces ok uid role current new_pw confirm salt salt16 admin file db user :
  length salt = 32%nat -> bytes salt -> length salt16 = 16%nat -> bytes salt16 ->
  auth_is_site_admin g_site_admin_uid uid = false -> db_user_get_by_id db uid = Some user ->
  let db' := snd (fst (fst (handler_password_change_post sha512 pbkdf2 argon2id g_site_admin_uid ok (Pass uid role)
                              (Some current) (Some new_pw) (Some confirm) salt salt16 admin file db))) in
  (forall id, id <> uid -> db_user_get_by_id db' id = db_user_get_by_id db id) /\
  if ok && verify_password current (u_password_hash user) && bool_decide (new_pw = confirm) && (6 <=? zlen new_pw)
  then exists user', db_user_get_by_id db' uid = Some user' /\ verify_password new_pw (u_password_hash user') = true /\
         forall q, verify_password q (u_password_hash user') = true <->
           let key := derive sha512 pbkdf2 argon2id salt salt16 new_pw in
           key (prehash sha512 q) = key (prehash sha512 new_pw) \/ key (prehash sha512 (prehash sha512 q)) = key (prehash sha512 new_pw) \/ key q = key (prehash sha512 new_pw)
  else db' = db.
Proof.
  intros Hl Hs Hl16 Hs16 Hadm Huser. cbv zeta. unfold handler_password_change_post. rewrite Z.leb_antisym. destruct (zlen new_pw <? 6); cbn [negb].
  { by rewrite andb_false_r. }
  rewrite andb_true_r. unfold streq. case_bool_decide as Heq; cbn [negb]; [|by rewrite andb_false_r]. rewrite andb_true_r, Hadm, Huser.
  destruct (verify_password current (u_password_hash user)); cbn [negb]; [|by rewrite andb_false_r]. rewrite andb_true_r. cbn [fst snd].
  split; [intros id Hid; unfold db_user_update_password; rewrite update_user_get, (proj2 (Z.eqb_neq _ _) Hid), andb_false_r by done; done|].
  destruct ok; [|done]. eexists. split; [unfold db_user_update_password; rewrite update_user_get, Z.eqb_refl, Huser by done; done|].
  pose proof (fun q => verify_derives sha512 pbkdf2 argon2id Hpbkdf2 Hargon salt salt16 new_pw q 256 Hl Hs Hl16 Hs16 ltac:(lia)) as H.
  split; [apply H; by left|exact H].
Qed.
End registration.

(** ** Who can remove an account *)

Section removal.
Context (sha512 : list Z -> list Z) (sha256 : list Z -> list Z).
Context (pbkdf2 : list Z -> list Z -> Z -> list Z).
Context (argon2id : list Z -> list Z -> Z * Z * Z * Z -> option (list Z)).
Context (HMAC_sha1 : list Z -> list Z -> option (list Z)) (g_site_admin_uid : Z).

Lemma get_filtered p db id : (forall u, u_id u = id -> p u = true) ->
  db_user_get_by_id (set_users (List.filter p (db_users db)) db) id = db_user_get_by_id db id.
Proof.
  intros Hp. unfold db_user_get_by_id. cbn. induction (db_users db) as [|u l IH]; [done|]. cbn. destruct (Z.eqb_spec (u_id u) id) as [E|E].
  - rewrite (Hp _ E). cbn. by rewrite (proj2 (Z.eqb_eq _ _) E).
  - destruct (p u); cbn; [by rewrite (proj2 (Z.eqb_neq _ _) E)|done].
Qed.

Lemma ghost_others ok uid db id : id <> uid -> db_user_get_by_id (snd (db_user_ghost ok uid db)) id = db_user_get_by_id db id.
Proof.
  intros Hid. unfold db_user_ghost. destruct (_ || _); [done|]. unfold db_user_get_by_id. cbn. induction (db_users db) as [|u l IH]; [done|]. cbn.
  destruct (Z.eqb_spec (u_id u) uid) as [E|E]; cbn [andb].
  - rewrite !(proj2 (Z.eqb_neq (u_id u) id)) by congruence. destruct (u_ghosted u =? 0); cbn; by rewrite (proj2 (Z.eqb_neq (u_id u) id)) by congruence.
  - by destruct (u_id u =? id).
Qed.

Lemma delete_post_others ok tls uid role password confirmation code now db id : id <> uid ->
  db_user_get_by_id (snd (handler_account_delete_post sha512 sha256 pbkdf2 argon2id HMAC_sha1 g_site_admin_uid ok tls (Pass uid role) password confirmation code now db)) id =
  db_user_get_by_id db id.
Proof.
  intros Hne. unfold handler_account_delete_post. destruct (auth_is_site_admin _ _); [done|]. destruct (db_user_get_by_id db uid) as [user|]; [|done].
  set (password_ok := match password with Some p => _ | None => false end). set (confirmed := match confirmation with Some c => _ | None => false end).
  assert (Hg : forall d, db_user_get_by_id d id = db_user_get_by_id db id -> forall b, db_user_get_by_id (snd (db_user_ghost b uid d)) id = db_user_get_by_id db id).
  { intros d Hd b. by rewrite ghost_others by congruence. }
  assert (Hcons : db_user_get_by_id (snd (totp_recovery_consume sha256 (ok 0%nat) uid (u_totp_recovery user) code db)) id = db_user_get_by_id db id).
  { pose proof (consume_db sha256 (ok 0%nat) uid (u_totp_recovery user) code db) as Hd. destruct (totp_recovery_consume _ _ _ _ _ _) as [[|] db']; cbn [fst snd] in *.
    - destruct Hd as [csv ->]. unfold db_user_update_totp_recovery. rewrite update_user_get by done. by rewrite (proj2 (Z.eqb_neq id uid)), andb_false_r by congruence.
    - by rewrite Hd. }
  destruct (u_totp_enabled user =? 1).
  - destruct (_ && totp_verify _ _ _ _); [destruct (negb password_ok || _ || _); [done|]; pose proof (Hg db eq_refl (ok 1%nat)) as H; by destruct (db_user_ghost _ _ _)|].
    destruct (password_ok && confirmed); [|by rewrite !orb_true_r].
    destruct (totp_recovery_consume _ _ _ _ _ _) as [found db']; cbn [snd] in Hcons. destruct (_ || _ || _); [done|].
    pose proof (Hg db' Hcons (ok 1%nat)) as H. by destruct (db_user_ghost _ _ _).
  - destruct (_ || _ || _); [done|]. pose proof (Hg db eq_refl (ok 1%nat)) as H. by destruct (db_user_ghost _ _ _).
Qed.

Lemma unregister_removes tls uid role id id_str db : uid = id \/ role = CS "admin" -> auth_is_site_admin g_site_admin_uid id = false -> 0 < id ->
  atoi id_str = id -> db_user_get_by_id (snd (handler_unregister_post g_site_admin_uid true true tls (Pass uid role) (Some id_str) db)) id = None.
Proof.
  intros Hwho Hadm Hpos Hid. unfold handler_unregister_post. rewrite Hid, Hadm, (proj2 (Z.ltb_lt _ _) Hpos). cbn [andb].
  replace ((id =? uid) || streq role (CS "admin")) with true.
  2: { symmetry. apply orb_true_iff. destruct Hwho as [-> | ->]; [left; apply Z.eqb_refl|right; apply streq_refl]. }
  unfold db_user_delete_with_cascade, db_email_token_delete_for_user, db_user_get_by_id. cbn.
  induction (db_users db) as [|u l IH]; [done|]. cbn. destruct (Z.eqb_spec (u_id u) id) as [E|E]; cbn; [done|]. by rewrite (proj2 (Z.eqb_neq _ _) E).
Qed.

End removal.

(** ** The cookies of a session authenticate the next request *)

(** What a browser keeps of a [Set-Cookie] header: the pair before the first semicolon. *)
Definition browser_cookie (h : header) : list Z * list Z :=
  let pair := fst (span (fun c => negb (c =? CH ";")) (snd h)) in
  match strchr pair (CH "=") with
  | Some (n, _ :: v) => (n, v)
  | _ => (pair, [])
  end.

(** The rows as the sessions read them. *)
Definition accounts_of (db : accounts_db) (uid : Z) : option account :=
  (fun u => Account (Some (u_active u)) (Some (u_ghosted u)) (u_role u) (u_username u)) <$> db_user_get_by_id db uid.

(** The characters of a signed token. *)
Definition jwt_char (c : Z) : bool := isalnum c || (c =? CH "-") || (c =? CH "_") || (c =? CH ".").

Lemma jwt_char_cookie c : jwt_char c = true -> cookie_char c = true /\ c <> CH "=" /\ c <> CH "%" /\ blank c = false /\ line_end c = false /\ c <> 34 /\ c <> CH ";".
Proof.
  intros H. assert (Hr : 45 <= c <= 46 \/ 48 <= c <= 57 \/ 65 <= c <= 90 \/ c = 95 \/ 97 <= c <= 122).
  { unfold jwt_char, isalnum, isdigit, isupper, islower in H. rewrite !orb_true_iff, !andb_true_iff, !Z.leb_le, !Z.eqb_eq in H. lia. }
  clear H. unfold cookie_char, blank_or_end, blank, line_end, quote. repeat (rewrite (proj2 (Z.eqb_neq _ _)) by lia). cbn. repeat split; lia.
Qed.

Lemma browser_reads name token attrs : Forall (fun c => c <> CH ";" /\ c <> CH "=") name -> Forall (fun c => jwt_char c = true) token ->
  (length (name ++ CS "=" ++ token ++ CS ";" ++ attrs) < 2048)%nat ->
  browser_cookie (CS "Set-Cookie", snprintf_s 2048 (name ++ CS "=" ++ token ++ CS ";" ++ attrs)) = (name, token).
Proof.
  intros Hn Ht Hl. unfold browser_cookie. cbn [snd]. rewrite snprintf_s_id by done.
  replace (name ++ CS "=" ++ token ++ CS ";" ++ attrs) with ((name ++ CS "=" ++ token) ++ CH ";" :: attrs) by (by rewrite <-!app_assoc).
  rewrite (span_stop _ (name ++ CS "=" ++ token)).
  - cbn [fst app]. rewrite strchr_app; [done|]. intros Hin. rewrite Forall_forall in Hn. by destruct (Hn _ Hin).
  - apply forallb_forall. intros c Hc. apply list_elem_of_In in Hc. apply negb_true_iff, Z.eqb_neq. apply elem_of_app in Hc as [Hc|Hc].
    + rewrite Forall_forall in Hn. by destruct (Hn _ Hc).
    + cbn [app] in Hc. apply elem_of_cons in Hc as [->|Hc]; [done|]. rewrite Forall_forall in Ht. by destruct (jwt_char_cookie c (Ht _ Hc)) as (_ & _ & _ & _ & _ & _ & ?).
  - by intros ? ? [= <- _].
Qed.

Section session.
Context (cwist_jwt_verify : list Z -> list Z -> option claims).
Context (community : community_config) (auth_admin_username : list Z) (g_site_admin_uid : Z) (secret : list Z).

(** C18: The cookies of a session, sent back by a browser, authenticate a request as the account the
    session was given to, in the role the account has at that time, as long as it may act. *)
Theorem session_authenticates db row token tls path role_len r0 r out get :
  Forall (fun c => jwt_char c = true) token -> token <> [] -> (length token <= 1900)%nat ->
  cwist_jwt_verify token secret = Some get -> get (CS "sub") = Some (print_int (u_id row)) -> get (CS "role") = Some r0 -> get (CS "v") = Some (CS "2") ->
  0 < u_id row < 2 ^ 31 -> db_user_get_by_id db (u_id row) = Some row -> u_active row <> 0 -> u_ghosted row = 0 -> u_role row = Some r ->
  auth_is_logged_in cwist_jwt_verify community auth_admin_username g_site_admin_uid (Some secret) (Some (accounts_of db))
    (Request [(CS "cookie", print_cookies (map browser_cookie (set_auth_cookies token tls)))] None path) role_len out =
  (true, (u_id row, snprintf_s role_len (if auth_is_site_admin g_site_admin_uid (u_id row) then CS "admin" else r))).
Proof.
  intros Ht Hne Hlen Hv Hsub Hrole Hver Hid Hrow Hact Hgh Hr.
  assert (Hcook : map browser_cookie (set_auth_cookies token tls) = [(SESSION_COOKIE_NAME, token); (CS "jwt_access", token)]).
  { unfold set_auth_cookies. cbn [map]. f_equal; [|f_equal].
    - apply (browser_reads SESSION_COOKIE_NAME token (CS " Path=/; Max-Age=" ++ print_int AUTH_SESSION_LIFETIME ++ CS "; HttpOnly; SameSite=Lax" ++ cookie_attributes tls)); [by repeat constructor|done|].
      rewrite !length_app. pose proof (length_print_int AUTH_SESSION_LIFETIME). destruct tls; cbn [length cookie_attributes SESSION_COOKIE_NAME]; lia.
    - apply (browser_reads (CS "jwt_access") token (CS " Path=/; Max-Age=" ++ print_int AUTH_SESSION_LIFETIME ++ CS "; SameSite=Lax" ++ cookie_attributes tls)); [by repeat constructor|done|].
      rewrite !length_app. pose proof (length_print_int AUTH_SESSION_LIFETIME). destruct tls; cbn [length cookie_attributes SESSION_COOKIE_NAME]; lia. }
  assert (Hval : value_ok token) by (eapply Forall_impl; [exact Ht|]; intros c Hc; by destruct (jwt_char_cookie c Hc)).
  unfold auth_is_logged_in, auth_jwt_verify_from_request. unfold cookie_tokens. cbn [map rq_headers concat].
  replace (strcaseeq (CS "cookie") (CS "Cookie")) with true by (by vm_compute).
  rewrite Hcook, cookies_of_print; last first.
  { constructor; [|constructor; [|constructor]]; (split; [split; [done|by repeat constructor]|done]). }
  cbn [List.filter is_auth_cookie_name map snd]. rewrite (proj2 (streq_neq _ _) Hne). cbn [negb andb app].
  replace (is_auth_cookie_name SESSION_COOKIE_NAME) with true by (by vm_compute). cbn [andb map snd app try_tokens].
  unfold try_token, auth_verify_token_len. rewrite (proj2 (streq_neq _ _) Hne), (proj2 (Z.leb_gt 4096 _)) by (unfold zlen; lia). cbn [orb]. cbv zeta.
  rewrite skip_none, trim_end_id.
  - rewrite (proj2 (streq_neq _ _) Hne), bool_decide_false.
    + unfold auth_verify_token. rewrite (proj2 (streq_neq _ _) Hne), (proj2 (Z.leb_gt 4096 _)), Hv, Hsub, Hrole, Hver by (unfold zlen; lia). cbn [orb].
      replace (atoi (print_int (u_id row))) with (u_id row) by (unfold atoi; rewrite strtol10_print_int by (unfold long_max; lia); symmetry; apply i32_small; cbn; lia).
      rewrite (proj2 (Z.ltb_lt _ _)), bool_decide_false by (lia || done). cbn [andb negb]. unfold auth_current_account, accounts_of. rewrite Hrow. cbn [fmap option_fmap option_map ac_role ac_active ac_ghosted].
      by rewrite Hr, (proj2 (Z.eqb_neq _ _) Hact), Hgh.
    + intros [[pre suf] H]. destruct (strchr_none token (CH "%")) as [_ Hn]. rewrite Hn in H; [done|]. intros Hin.
      rewrite Forall_forall in Ht. by destruct (jwt_char_cookie _ (Ht _ Hin)) as (_ & _ & ? & _).
  - eapply Forall_impl; [exact Ht|]. intros c Hc. destruct (jwt_char_cookie c Hc) as (_ & _ & _ & Hb & Hle & Hq & _). unfold blank_or_end, quote.
    by rewrite Hb, Hle, (proj2 (Z.eqb_neq _ _) Hq).
  - intros c s ->. apply Forall_cons in Ht as [Hc _]. destruct (jwt_char_cookie c Hc) as (_ & _ & _ & Hb & _ & Hq & _). unfold quote. by rewrite Hb, (proj2 (Z.eqb_neq _ _) Hq).
Qed.
End session.

Lemma session_authenticates_witness :
  auth_is_logged_in (fun t _ => if streq t (CS "aaa.bbb.ccc")
      then Some (fun n => if streq n (CS "sub") then Some (CS "7") else if streq n (CS "role") then Some (CS "admin") else if streq n (CS "v") then Some (CS "2") else None) else None)
    (Community true false false false false false) (CS "root") 1 (Some (CS "s")) (Some (accounts_of Demo.db))
    (Request [(CS "cookie", CS "docker_blog_session=aaa.bbb.ccc; jwt_access=aaa.bbb.ccc")] None (CS "/drafts")) 32 (0, []) = (true, (7, CS "user")).
Proof.
  change (CS "docker_blog_session=aaa.bbb.ccc; jwt_access=aaa.bbb.ccc") with (print_cookies (map browser_cookie (set_auth_cookies (CS "aaa.bbb.ccc") true))).
  change (CS "user") with (snprintf_s 32 (if auth_is_site_admin 1 (u_id Demo.eve) then CS "admin" else CS "user")). change (7, ?r) with (u_id Demo.eve, r).
  eapply session_authenticates; [by repeat constructor|done|by cbn; lia|reflexivity|by vm_compute|by vm_compute|by vm_compute|done|by vm_compute|done|done|done].
Defined.

Lemma registration_confirmed_witness :
  let register := handler_register_post (demo_out 64) Demo.pbkdf2 Demo.argon2id (fun k m => []) (Some (CS "s")) true (fun _ => true) (WritePolicy WRITE_SCOPE_GUEST WRITE_SCOPE_GUEST false false 0)
                    Peer_none None (Some (CS "mallory")) (Some (CS "m@x")) (Some (CS "secret1")) None None (replicate 32 7) (replicate 16 9) (Some (replicate 32 171)) true 100 Demo.db in
  let verify := handler_verify_email_get true (fun _ => true) (Some (mail_token (replicate 32 171))) in
  let login db := fst (handler_login_post (demo_out 64) Demo.pbkdf2 Demo.argon2id Demo.sign (Some (CS "s")) 1 true (CS "https://fly.board/") (false, (0, []))
                         false (Some (CS "mallory")) (Some (CS "secret1")) None Demo.admin 200 db) in
  (exists msg, login (snd (fst register)) = Page msg) /\ (exists cookies, login (snd (verify 200 (snd (fst register)))) = Signed_in cookies (CS "/")) /\
  verify 300 (snd (verify 200 (snd (fst register)))) = (Page (CS "Invalid or expired verification link"), snd (verify 200 (snd (fst register)))).
Proof.
  assert (Hwf : accounts_wf Demo.db).
  { split; cbn; [by repeat constructor|apply NoDup_singleton|apply NoDup_singleton|constructor]. }
  assert (Hp : forall p (s : list Z) (n : Z), length (Demo.pbkdf2 p s n) = 32%nat /\ bytes (Demo.pbkdf2 p s n)) by (intros; split; [apply length_demo_out|apply demo_out_bytes]).
  assert (Ha : forall p s costs key, Demo.argon2id p s costs = Some key -> length key = 64%nat /\ bytes key)
    by (intros ? ? ? ? [= <-]; split; [apply length_demo_out|apply demo_out_bytes]).
  destruct (registration_confirmed (demo_out 64) Demo.pbkdf2 Demo.argon2id (fun k m => []) Demo.sign (Some (CS "s")) 1 (CS "https://fly.board/") Hp Ha
    (fun _ => true) (WritePolicy WRITE_SCOPE_GUEST WRITE_SCOPE_GUEST false false 0) Peer_none None (CS "mallory") (CS "m@x") (CS "secret1") None None
    (replicate 32 7) (replicate 16 9) true (replicate 32 171) true 100 Demo.db Hwf) as (_ & H1 & H2);
    [done|by vm_compute|by repeat constructor|by vm_compute|done|by vm_compute|by vm_compute|done|by repeat constructor|done|by repeat constructor|by vm_compute|done|].
  cbv zeta. split; [apply H1; by vm_compute|]. specialize (H2 eq_refl eq_refl (fun _ => true) 200). replace (100 + VERIFICATION_LIFETIME <? 200) with false in H2 by (by vm_compute).
  destruct (handler_verify_email_get _ _ _ 200 _) as [reply db2]. destruct H2 as (_ & H2 & H3). cbn [snd].
  split; [|by apply H3]. rewrite (H2 eq_refl false None Demo.admin 200 _ ltac:(by vm_compute) eq_refl). by eexists.
Defined.

Lemma password_change_replaces_witness :
  let db' := snd (fst (fst (handler_password_change_post (demo_out 64) Demo.pbkdf2 Demo.argon2id 1 true (Pass 7 (CS "user"))
               (Some (CS "hunter2")) (Some (CS "secret1")) (Some (CS "secret1")) (replicate 32 7) (replicate 16 9) Demo.admin None Demo.db))) in
  exists user', db_user_get_by_id db' 7 = Some user' /\ auth_verify_password (demo_out 64) Demo.pbkdf2 Demo.argon2id (CS "secret1") (u_password_hash user') = true.
Proof.
  assert (Hp : forall p (s : list Z) (n : Z), length (Demo.pbkdf2 p s n) = 32%nat /\ bytes (Demo.pbkdf2 p s n)) by (intros; split; [apply length_demo_out|apply demo_out_bytes]).
  assert (Ha : forall p s costs key, Demo.argon2id p s costs = Some key -> length key = 64%nat /\ bytes key)
    by (intros ? ? ? ? [= <-]; split; [apply length_demo_out|apply demo_out_bytes]).
  destruct (password_change_replaces (demo_out 64) Demo.pbkdf2 Demo.argon2id 1 Hp Ha true 7 (CS "user") (CS "hunter2") (CS "secret1") (CS "secret1")
    (replicate 32 7) (replicate 16 9) Demo.admin None Demo.db Demo.eve ltac:(done) ltac:(by repeat constructor) ltac:(done) ltac:(by repeat constructor) eq_refl eq_refl) as [_ H].
  replace (true && _ && _ && _) with true in H by (by vm_compute). destruct H as (user' & H1 & H2 & _). exists user'. exact (conj H1 H2).
Defined.

