(* ===== verification/SigningKeys.v ===== *)
(** * Signing keys (src/src/crypto/fly_crypto.c, src/src/db/pqc_keys.c)

    The key that signs, the ring of keys that verify, signatures that name their key, the file of the
    seed and the table of public keys.  ML-DSA-65, SHA-256 and the base64 blocks are BoringSSL's and
    parameters, with their sizes.  Memory is not exhausted. *)
From S2P Require Import Prelude CStr Auth.

Definition FLY_PQC_KEY_ID_LEN : nat := 16.
Definition MAX_VERIFY_KEYS : nat := 32.
Definition CTX_POST : cstr := CS "fly.board/post/v1".
Definition CTX_BACKUP : cstr := CS "fly.board/backup-manifest/v1".
Definition CTX_MODERATION_REQUEST : cstr := CS "fly.board/moderation-request/v1".
Definition CTX_MODERATION_DECISION : cstr := CS "fly.board/moderation-decision/v1".
Definition CTX_AUDIT : cstr := CS "fly.board/audit/v1".

(** The file of the seed. *)
Inductive seed_file := Seed_absent | Seed_unreadable | Seed_text (text : list Z).

Record pqc_post := PqcPost { pp_id : Z; pp_title : list Z; pp_content : list Z; pp_signature : list Z }.

Section pqc.
Context {private_key public_key : Type} (MLDSA_SEED_BYTES MLDSA65_SIGNATURE_BYTES MLDSA65_PUBLIC_KEY_BYTES : nat).
Context (private_key_from_seed : list Z -> option private_key) (public_from_private : private_key -> option public_key).
Context (marshal_public_key : public_key -> option (list Z)) (parse_encoded : list Z -> option public_key).
Context (MLDSA65_sign : private_key -> list Z -> list Z -> option (list Z)) (MLDSA65_verify : public_key -> list Z -> list Z -> list Z -> bool).
Context (SHA256 : list Z -> list Z) (EVP_EncodeBlock : list Z -> list Z) (EVP_DecodeBlock : list Z -> option (list Z)).

(** An empty slot has no id and no key. *)
Record verify_key := VerifyKey { vk_id : list Z; vk_pub : option public_key }.
Definition empty_key : verify_key := VerifyKey [] None.

Record key_state := KeyState {
  g_priv : option private_key;
  g_pub_encoded : list Z;
  g_keys : list verify_key;
  g_ready : bool;
}.
Definition no_keys : key_state := KeyState None [] [] false.

Definition base64_encode (data : list Z) : cstr := EVP_EncodeBlock data.

(** 1 when the [n]-th character is padding. *)
Definition pad_at (str : cstr) (n : nat) : nat := if nth n str 0 =? CH "=" then 1%nat else 0%nat.

Definition base64_decode (str : cstr) : option (list Z) :=
  if (length str =? 0)%nat || negb (length str mod 4 =? 0)%nat then None
  else match EVP_DecodeBlock str with
       | None => None
       | Some out =>
           Some (take (length out - pad_at str (length str - 1) - pad_at str (length str - 2)) out)
       end.

Definition key_id_of (encoded : list Z) : cstr := concat (map hex_byte (take (FLY_PQC_KEY_ID_LEN / 2) (SHA256 encoded))).

(** The seed, and the file afterwards; [ok] tells whether the file can be created and written. *)
Definition load_or_create_seed (ok : nat -> bool) (fresh : option (list Z)) (file : seed_file) : option (list Z) * seed_file :=
  match file with
  | Seed_text text =>
      (match fgets (2 * MLDSA_SEED_BYTES + 2) text with
       | Some (hex, _) => if (length hex <? 2 * MLDSA_SEED_BYTES)%nat then None else scan_bytes MLDSA_SEED_BYTES hex
       | None => None
       end, file)
  | Seed_unreadable => (None, file)
  | Seed_absent =>
      match fresh with
      | None => (None, file)
      | Some seed =>
          if negb (ok 0%nat) then (None, file)
          else if ok 1%nat then (Some seed, Seed_text (hex_text seed ++ [10])) else (None, Seed_absent)
      end
  end.

(** The first slot of the ring is the signing key's. *)
Definition set_first (k : verify_key) (ring : list verify_key) : list verify_key := match ring with [] => [k] | _ :: l => k :: l end.

Definition fly_crypto_init (ok : nat -> bool) (fresh : option (list Z)) (file : seed_file) (st : key_state) : bool * seed_file * key_state :=
  if g_ready st then (true, file, st)
  else match load_or_create_seed ok fresh file with
       | (None, file) => (false, file, st)
       | (Some seed, file) =>
           match private_key_from_seed seed with
           | None => (false, file, st)
           | Some priv =>
               match public_from_private priv with
               | None => (false, file, st)
               | Some pub =>
                   match marshal_public_key pub with
                   | None => (false, file, st)
                   | Some encoded =>
                       if negb (length encoded =? MLDSA65_PUBLIC_KEY_BYTES)%nat then (false, file, st)
                       else (true, file, KeyState (Some priv) encoded (set_first (VerifyKey (key_id_of encoded) (Some pub)) (g_keys st)) true)
                   end
               end
           end
       end.

Definition fly_crypto_key_id (st : key_state) : option cstr :=
  if g_ready st then match g_keys st with k :: _ => Some (vk_id k) | [] => None end else None.

(** The key and its id. *)
Definition parse_public_key (pk_b64 : cstr) : option (public_key * cstr) :=
  match base64_decode pk_b64 with
  | None => None
  | Some raw =>
      if negb (length raw =? MLDSA65_PUBLIC_KEY_BYTES)%nat then None
      else match parse_encoded raw with Some pub => Some (pub, key_id_of raw) | None => None end
  end.

Definition fly_crypto_add_public_key (pk_b64 : cstr) (st : key_state) : bool * key_state :=
  match parse_public_key pk_b64 with
  | None => (false, st)
  | Some (pub, id) =>
      if existsb (fun k => streq (vk_id k) id) (g_keys st) then (true, st)
      else if (MAX_VERIFY_KEYS <=? length (g_keys st))%nat then (false, st)
      else
        let ring := if (length (g_keys st) =? 0)%nat && negb (g_ready st) then [empty_key] else g_keys st in
        (true, KeyState (g_priv st) (g_pub_encoded st) (ring ++ [VerifyKey id (Some pub)]) (g_ready st))
  end.

Definition sign_ctx (ctx : cstr) (msg : list Z) (st : key_state) : option cstr :=
  if negb (g_ready st) then None
  else match g_priv st, g_keys st with
       | Some priv, k :: _ =>
           match MLDSA65_sign priv msg ctx with
           | None => None
           | Some sig => Some (vk_id k ++ CS ":" ++ base64_encode sig)
           end
       | _, _ => None
       end.

(** The key a signature names, when none is given. *)
Definition named_key (sig_str : cstr) (st : key_state) : option public_key :=
  match List.find (fun k => negb (length (vk_id k) =? 0)%nat && streq (take FLY_PQC_KEY_ID_LEN (vk_id k)) (take FLY_PQC_KEY_ID_LEN sig_str)) (g_keys st) with
  | Some k => vk_pub k
  | None => None
  end.

Definition check_base64 (ctx : cstr) (pub : public_key) (msg : list Z) (b64 : cstr) : bool :=
  match base64_decode b64 with
  | None => false
  | Some sig => (length sig =? MLDSA65_SIGNATURE_BYTES)%nat && MLDSA65_verify pub sig msg ctx
  end.

Definition verify_ctx (ctx : cstr) (only : option public_key) (msg : list Z) (sig_str : option cstr) (st : key_state) : bool :=
  match sig_str with
  | None | Some [] => false
  | Some sig =>
      match strchr sig (CH ":") with
      | Some (before, rest) =>
          if negb (length before =? FLY_PQC_KEY_ID_LEN)%nat then false
          else match (match only with Some pub => Some pub | None => named_key sig st end) with
               | Some pub => check_base64 ctx pub msg (drop 1 rest)
               | None => false
               end
      | None =>
          match only with
          | Some pub => check_base64 ctx pub msg sig
          | None =>
              if negb (g_ready st) then false
              else match g_keys st with
                   | VerifyKey _ (Some pub) :: _ => check_base64 ctx pub msg sig
                   | _ => false
                   end
          end
      end
  end.

Definition fly_crypto_sign : list Z -> key_state -> option cstr := sign_ctx CTX_POST.
Definition fly_crypto_verify (msg : list Z) (sig : option cstr) : key_state -> bool := verify_ctx CTX_POST None msg sig.
Definition fly_crypto_sign_manifest : list Z -> key_state -> option cstr := sign_ctx CTX_BACKUP.
Definition fly_crypto_sign_moderation_request : list Z -> key_state -> option cstr := sign_ctx CTX_MODERATION_REQUEST.
Definition fly_crypto_sign_moderation_decision : list Z -> key_state -> option cstr := sign_ctx CTX_MODERATION_DECISION.
Definition fly_crypto_sign_audit : list Z -> key_state -> option cstr := sign_ctx CTX_AUDIT.
Definition fly_crypto_verify_audit (msg : list Z) (sig : option cstr) : key_state -> bool := verify_ctx CTX_AUDIT None msg sig.

(** A signature that must name the key it is checked against. *)
Definition verify_against (ctx pk_b64 : cstr) (msg : list Z) (sig : option cstr) (st : key_state) : bool :=
  match parse_public_key pk_b64 with
  | None => false
  | Some (pub, id) =>
      match sig with
      | None => false
      | Some s =>
          if negb (streq (take FLY_PQC_KEY_ID_LEN s) id) || negb (streq (take 1 (drop FLY_PQC_KEY_ID_LEN s)) (CS ":")) then false
          else verify_ctx ctx (Some pub) msg sig st
      end
  end.
Definition fly_crypto_verify_manifest : cstr -> list Z -> option cstr -> key_state -> bool := verify_against CTX_BACKUP.
Definition fly_crypto_verify_moderation_decision : cstr -> list Z -> option cstr -> key_state -> bool := verify_against CTX_MODERATION_DECISION.

Definition fly_crypto_key_id_of (pk_b64 : cstr) : option cstr := snd <$> parse_public_key pk_b64.
Definition fly_crypto_pubkey_export (st : key_state) : option cstr := if g_ready st then Some (base64_encode (g_pub_encoded st)) else None.
Definition fly_crypto_cleanup (st : key_state) : key_state := KeyState None (g_pub_encoded st) [] false.

(** ** The table of public keys *)

(** Signatures without an id that the current key verifies get its id. *)
Definition prefix_legacy_signature (ok : nat -> bool) (key_id : cstr) (st : key_state) (n : nat) (p : pqc_post) : pqc_post :=
  if (length (pp_signature p) =? 0)%nat || bool_decide (CH ":" ∈ pp_signature p) then p
  else if fly_crypto_verify (pp_title p ++ [10] ++ pp_content p) (Some (pp_signature p)) st && ok n
  then PqcPost (pp_id p) (pp_title p) (pp_content p) (key_id ++ CS ":" ++ pp_signature p)
  else p.
Definition prefix_legacy_signatures (ok : nat -> bool) (key_id : cstr) (st : key_state) (posts : list pqc_post) : list pqc_post :=
  imap (prefix_legacy_signature ok key_id st) posts.

(** A row whose id is not that of its key is passed over. *)
Definition load_row (st : key_state) (row : list Z * list Z) : key_state :=
  match fly_crypto_key_id_of (snd row) with
  | Some id => if streq id (fst row) then snd (fly_crypto_add_public_key (snd row) st) else st
  | None => st
  end.

Definition pqc_keys_sync_conn (ok : bool) (ok_posts : nat -> bool) (register_current : bool) (rows : list (list Z * list Z)) (posts : list pqc_post)
    (st : key_state) : bool * list (list Z * list Z) * list pqc_post * key_state :=
  let cur := if register_current then fly_crypto_key_id st else None in
  match cur, fly_crypto_pubkey_export st with
  | Some _, None => (false, rows, posts, st)
  | Some id, Some pk =>
      if negb ok then (false, rows, posts, st)
      else
        let rows := if existsb (fun row => streq (fst row) id) rows then rows else rows ++ [(id, pk)] in
        let st := foldl load_row st rows in
        (true, rows, prefix_legacy_signatures ok_posts id st posts, st)
  | None, _ => (true, rows, posts, foldl load_row st rows)
  end.

(** ** What is relied on of BoringSSL *)

Record boringssl_ok : Prop := {
  bo_base64 : forall d, d <> [] -> bytes d -> base64_decode (base64_encode d) = Some d;
  bo_sha : forall m, length (SHA256 m) = 32%nat /\ bytes (SHA256 m);
  bo_public : forall pub e, marshal_public_key pub = Some e -> bytes e /\ parse_encoded e = Some pub;
  bo_sign : forall priv pub msg ctx sig, public_from_private priv = Some pub -> MLDSA65_sign priv msg ctx = Some sig ->
    length sig = MLDSA65_SIGNATURE_BYTES /\ bytes sig /\ MLDSA65_verify pub sig msg ctx = true;
  bo_sizes : (0 < MLDSA65_SIGNATURE_BYTES)%nat /\ (0 < MLDSA65_PUBLIC_KEY_BYTES)%nat;
}.
Context (Hssl : boringssl_ok).

(** A signing key in the first slot. *)
Definition signs_with (st : key_state) (priv : private_key) (pub : public_key) : Prop :=
  g_ready st = true /\ g_priv st = Some priv /\ public_from_private priv = Some pub /\ marshal_public_key pub = Some (g_pub_encoded st) /\
  length (g_pub_encoded st) = MLDSA65_PUBLIC_KEY_BYTES /\ exists l, g_keys st = VerifyKey (key_id_of (g_pub_encoded st)) (Some pub) :: l.

Lemma init_signs ok fresh file st file' st' : g_ready st = false -> fly_crypto_init ok fresh file st = (true, file', st') ->
  exists seed priv pub, fst (load_or_create_seed ok fresh file) = Some seed /\ private_key_from_seed seed = Some priv /\ signs_with st' priv pub.
Proof.
  intros Hr. unfold fly_crypto_init. rewrite Hr. destruct (load_or_create_seed ok fresh file) as [[seed|] file1]; [|done].
  destruct (private_key_from_seed seed) as [priv|] eqn:E1; [|done]. destruct (public_from_private priv) as [pub|] eqn:E2; [|done].
  destruct (marshal_public_key pub) as [e|] eqn:E3; [|done]. destruct (Nat.eqb_spec (length e) MLDSA65_PUBLIC_KEY_BYTES); [|done]. cbn [negb].
  intros [= <- <-]. exists seed, priv, pub. split_and!; [done..|]. split_and!; try done. cbn. by destruct (g_keys st) as [|k l]; eexists.
Qed.

Lemma key_id_spec e : length (key_id_of e) = FLY_PQC_KEY_ID_LEN /\ CH ":" ∉ key_id_of e.
Proof.
  destruct (bo_sha Hssl e) as [Hl Hb]. unfold key_id_of. change (FLY_PQC_KEY_ID_LEN / 2)%nat with 8%nat.
  change (concat (map hex_byte (take 8 (SHA256 e)))) with (hex_text (take 8 (SHA256 e))). split.
  - rewrite length_hex_text, length_take, Hl. done.
  - intros H. assert (Hf : bytes (take 8 (SHA256 e))) by (by apply Forall_take).
    pose proof (hex_text_chars _ Hf) as Hc. rewrite Forall_forall in Hc. destruct (Hc _ H) as (_ & _ & Hn). by apply Hn.
Qed.

(** A signature with an id is checked with the key it names. *)
Lemma verify_named ctx only msg id b64 st : length id = FLY_PQC_KEY_ID_LEN -> CH ":" ∉ id ->
  verify_ctx ctx only msg (Some (id ++ CS ":" ++ b64)) st =
  match (match only with Some pub => Some pub | None => named_key (id ++ CS ":" ++ b64) st end) with
  | Some pub => check_base64 ctx pub msg b64
  | None => false
  end.
Proof.
  intros Hl Hn. unfold verify_ctx. destruct (id ++ CS ":" ++ b64) as [|c s] eqn:E; [by destruct id|]. rewrite <- E.
  change (CS ":" ++ b64) with (CH ":" :: b64). rewrite strchr_app by done. rewrite Hl, Nat.eqb_refl. cbn [negb drop]. by rewrite drop_0.
Qed.

Lemma check_signed ctx pub msg sig : length sig = MLDSA65_SIGNATURE_BYTES -> bytes sig ->
  check_base64 ctx pub msg (base64_encode sig) = MLDSA65_verify pub sig msg ctx.
Proof.
  intros Hl Hb. unfold check_base64. rewrite (bo_base64 Hssl); [by rewrite Hl, Nat.eqb_refl| |done].
  destruct (bo_sizes Hssl). intros ->. cbn in *. lia.
Qed.

Lemma sign_spec ctx msg st priv pub sig_str : signs_with st priv pub -> sign_ctx ctx msg st = Some sig_str ->
  exists sig, sig_str = key_id_of (g_pub_encoded st) ++ CS ":" ++ base64_encode sig /\ length sig = MLDSA65_SIGNATURE_BYTES /\ bytes sig /\
    MLDSA65_verify pub sig msg ctx = true.
Proof.
  intros (Hr & Hp & Hpub & He & Hlen & l & Hk). unfold sign_ctx. rewrite Hr, Hp, Hk. cbn [negb vk_id].
  destruct (MLDSA65_sign priv msg ctx) as [sig|] eqn:E; [|done]. intros [= <-]. exists sig. split; [done|]. by eapply bo_sign.
Qed.

Lemma export_parse st priv pub pk : signs_with st priv pub -> fly_crypto_pubkey_export st = Some pk ->
  parse_public_key pk = Some (pub, key_id_of (g_pub_encoded st)).
Proof.
  intros (Hr & _ & _ & He & Hlen & _). unfold fly_crypto_pubkey_export. rewrite Hr. intros [= <-]. destruct (bo_public Hssl _ _ He) as [Hb Hp].
  unfold parse_public_key. rewrite (bo_base64 Hssl); [|destruct (bo_sizes Hssl); intros E; rewrite E in Hlen; cbn in Hlen; lia|done].
  by rewrite Hlen, Nat.eqb_refl, Hp.
Qed.

(** ** Keys added later keep their place *)

Lemma add_key_app pk st : g_keys st <> [] -> exists l, g_keys (snd (fly_crypto_add_public_key pk st)) = g_keys st ++ l.
Proof.
  intros Hne. unfold fly_crypto_add_public_key. destruct (parse_public_key pk) as [[pub id]|]; [|exists []; by rewrite app_nil_r].
  destruct (existsb _ _); [exists []; by rewrite app_nil_r|]. destruct (_ <=? _)%nat; [exists []; by rewrite app_nil_r|].
  destruct (Nat.eqb_spec (length (g_keys st)) 0) as [E|E]; [by destruct (g_keys st)|]. by eexists.
Qed.

Lemma find_app_some {A} (f : A -> bool) l k x : List.find f l = Some x -> List.find f (l ++ k) = Some x.
Proof. induction l as [|y l IH]; [done|]. cbn. by destruct (f y). Qed.

Lemma adds_app pks : forall st, g_keys st <> [] -> exists l, g_keys (foldl (fun st pk => snd (fly_crypto_add_public_key pk st)) st pks) = g_keys st ++ l.
Proof.
  induction pks as [|pk pks IH]; intros st Hne; [exists []; by rewrite app_nil_r|]. cbn [foldl]. destruct (add_key_app pk st Hne) as [l Hl].
  destruct (IH (snd (fly_crypto_add_public_key pk st))) as [l' Hl']; [rewrite Hl; by destruct (g_keys st)|]. exists (l ++ l'). by rewrite Hl', Hl, app_assoc.
Qed.

(** ** The ring *)

(** Ids are of at most sixteen characters, and there are at most 32 keys. *)
Definition keys_ok (st : key_state) : Prop :=
  Forall (fun k => (length (vk_id k) <= FLY_PQC_KEY_ID_LEN)%nat) (g_keys st) /\ (length (g_keys st) <= MAX_VERIFY_KEYS)%nat.

Lemma parse_id pk pub id : parse_public_key pk = Some (pub, id) -> length id = FLY_PQC_KEY_ID_LEN.
Proof.
  unfold parse_public_key. destruct (base64_decode pk) as [raw|]; [|done]. destruct (negb _); [done|]. destruct (parse_encoded raw); [|done].
  intros [= _ <-]. apply key_id_spec.
Qed.

Lemma add_key_ok pk st : keys_ok st -> keys_ok (snd (fly_crypto_add_public_key pk st)).
Proof.
  intros [H1 H2]. unfold fly_crypto_add_public_key. destruct (parse_public_key pk) as [[pub id]|] eqn:E; [|done]. apply parse_id in E.
  destruct (existsb _ _); [done|]. destruct (Nat.leb_spec MAX_VERIFY_KEYS (length (g_keys st))) as [|Hlt]; [done|]. unfold keys_ok. cbn [snd g_keys].
  rewrite length_app, Forall_app. destruct (Nat.eqb_spec (length (g_keys st)) 0) as [E0|E0]; cbn [andb].
  - unfold MAX_VERIFY_KEYS in *. destruct (g_ready st); cbn [negb].
    + split; [|cbn; lia]. split; [done|]. constructor; [cbn; lia|done].
    + split; [|cbn; lia]. split; constructor; [cbn; lia|done|cbn; lia|done].
  - split; [|cbn; lia]. split; [done|]. constructor; [cbn; lia|done].
Qed.

Lemma init_keys_ok ok fresh file st : keys_ok st -> keys_ok (snd (fly_crypto_init ok fresh file st)).
Proof.
  intros [H1 H2]. unfold fly_crypto_init. destruct (g_ready st); [done|]. destruct (load_or_create_seed ok fresh file) as [[seed|] file1]; [|done].
  destruct (private_key_from_seed seed); [|done]. destruct (public_from_private _); [|done]. destruct (marshal_public_key _) as [e|]; [|done].
  destruct (negb _); [done|]. unfold keys_ok. cbn [snd g_keys]. destruct (key_id_spec e) as [Hl _].
  destruct (g_keys st) as [|k l]; cbn [set_first].
  - split; [|cbn; unfold MAX_VERIFY_KEYS; lia]. constructor; [unfold vk_id; lia|done].
  - apply Forall_cons in H1 as [_ H1]. split; [|done]. constructor; [unfold vk_id; lia|done].
Qed.

(** A signature names a key of the ring when all the keys of its id are the same one. *)
Lemma named_in pub id s st : keys_ok st -> length id = FLY_PQC_KEY_ID_LEN -> take FLY_PQC_KEY_ID_LEN s = id ->
  (exists k, k ∈ g_keys st /\ vk_id k = id) -> Forall (fun k => vk_id k = id -> vk_pub k = Some pub) (g_keys st) -> named_key s st = Some pub.
Proof.
  intros [Hlen _] Hid Hs (k0 & Hk0 & Hk0id) Hall. rewrite Forall_forall in Hlen, Hall. unfold named_key. rewrite Hs.
  destruct (List.find _ (g_keys st)) as [k|] eqn:E.
  - apply find_some in E as [Hk%list_elem_of_In [_ Ek]%andb_true_iff]. apply streq_eq in Ek. apply Hall; [done|]. by rewrite take_ge in Ek by by apply Hlen.
  - exfalso. apply (find_none _ _) with (x := k0) in E; [|by apply list_elem_of_In]. rewrite Hk0id, take_ge, streq_refl, Hid in E by (by rewrite Hid). done.
Qed.

Lemma add_present pk pub id st st' : parse_public_key pk = Some (pub, id) -> fly_crypto_add_public_key pk st = (true, st') ->
  (exists k, k ∈ g_keys st' /\ vk_id k = id) /\ (forall k, k ∈ g_keys st' -> k ∈ g_keys st \/ k = VerifyKey id (Some pub) \/ k = empty_key).
Proof.
  intros Hp. unfold fly_crypto_add_public_key. rewrite Hp. destruct (existsb _ _) eqn:E.
  - intros [= <-]. apply existsb_exists in E as (k & Hk%list_elem_of_In & Ek%streq_eq). split; [by exists k|by left].
  - destruct (_ <=? _)%nat; [done|]. intros [= <-]. cbn [g_keys]. split.
    + exists (VerifyKey id (Some pub)). split; [|done]. apply elem_of_app. right. by left.
    + intros k [Hk|[->|[]%not_elem_of_nil]%elem_of_cons]%elem_of_app; [|by auto].
      destruct (_ && _); [|by left]. apply list_elem_of_singleton in Hk. by auto.
Qed.

(** ** Signatures move with their public key *)

(** A key is in the ring after a registration, or the ring has no place for it. *)
Lemma add_key_result pk pub id st : parse_public_key pk = Some (pub, id) ->
  let '(added, st') := fly_crypto_add_public_key pk st in
  let known := existsb (fun k => streq (vk_id k) id) (g_keys st) in
  added = known || (length (g_keys st) <? MAX_VERIFY_KEYS)%nat /\ (added = false -> st' = st).
Proof.
  intros Hp. unfold fly_crypto_add_public_key. rewrite Hp. destruct (existsb _ _); [done|]. cbn [orb].
  destruct (Nat.leb_spec MAX_VERIFY_KEYS (length (g_keys st))); destruct (Nat.ltb_spec (length (g_keys st)) MAX_VERIFY_KEYS); try lia; done.
Qed.

(** A full ring stays as it is. *)
Lemma full_ring_stays pks st : (MAX_VERIFY_KEYS <= length (g_keys st))%nat -> foldl (fun st pk => snd (fly_crypto_add_public_key pk st)) st pks = st.
Proof.
  intros Hfull. induction pks as [|pk pks IH]; [done|]. cbn [foldl]. replace (snd (fly_crypto_add_public_key pk st)) with st; [done|].
  unfold fly_crypto_add_public_key. destruct (parse_public_key pk) as [[pub id]|]; [|done]. destruct (existsb _ _); [done|].
  by rewrite (proj2 (Nat.leb_le _ _) Hfull).
Qed.

(** The key found for an id stays the one found. *)
Lemma named_later s pub st pks : g_keys st <> [] -> named_key s st = Some pub ->
  named_key s (foldl (fun st pk => snd (fly_crypto_add_public_key pk st)) st pks) = Some pub.
Proof.
  intros Hne. destruct (adds_app pks st Hne) as [l Hl]. unfold named_key. rewrite Hl. destruct (List.find _ (g_keys st)) as [k|] eqn:E; [|done].
  by rewrite (find_app_some _ _ _ _ E).
Qed.

(** An id that no key of the ring has names none. *)
Lemma named_nowhere id s st : keys_ok st -> take FLY_PQC_KEY_ID_LEN s = id -> existsb (fun k => streq (vk_id k) id) (g_keys st) = false -> named_key s st = None.
Proof.
  intros [Hlen _] Hs Hno. unfold named_key. rewrite Hs. destruct (List.find _ (g_keys st)) as [k|] eqn:E; [|done]. exfalso.
  apply find_some in E as [Hk [_ Ek]%andb_true_iff]. rewrite Forall_forall in Hlen. rewrite take_ge in Ek by (apply Hlen; by apply list_elem_of_In).
  assert (H : existsb (fun k => streq (vk_id k) id) (g_keys st) = true) by (apply existsb_exists; by exists k). congruence.
Qed.

(** A registered key is the one its id names, unless another key has that id. *)
Lemma registered_named pk pub id st st' : parse_public_key pk = Some (pub, id) -> keys_ok st -> fly_crypto_add_public_key pk st = (true, st') ->
  Forall (fun k => vk_id k = id -> vk_pub k = Some pub) (g_keys st) ->
  g_keys st' <> [] /\ forall s, take FLY_PQC_KEY_ID_LEN s = id -> named_key s st' = Some pub.
Proof.
  intros Hp Hok Hadd Hcol. destruct (add_present _ _ _ _ _ Hp Hadd) as [Hin Hback]. pose proof (parse_id _ _ _ Hp) as Hid.
  assert (Hok' : keys_ok st') by (replace st' with (snd (fly_crypto_add_public_key pk st)) by (by rewrite Hadd); by apply add_key_ok).
  split; [destruct Hin as (k & Hk & _); intros E; rewrite E in Hk; by apply not_elem_of_nil in Hk|]. intros s Hs. apply (named_in pub id); [done..|].
  apply Forall_forall. intros k Hk Ek. rewrite Forall_forall in Hcol.
  destruct (Hback k Hk) as [Hold|[-> | ->]]; [by apply Hcol|done|]. change ([] = id) in Ek. by rewrite <- Ek in Hid.
Qed.

(** C17: A signature made here is judged on another site as ML-DSA judges it with this site's public key, once that
    site registered the key: it verifies, whatever keys are registered later, and in the context it was made for
    alone as far as ML-DSA tells contexts apart.  The registration succeeds exactly when a key of that id is already
    known or fewer than 32 keys are; if it does not, the signature never verifies there from the ring.  Checked
    against the public key itself it needs no registration.  Of the other site it is asked that it knows no
    other key with the same id (64 bits of a hash) and that its ring came from the operations here ([keys_ok]). *)
Theorem signature_survives_move a priv pub ctx msg sig pk b pks : signs_with a priv pub -> sign_ctx ctx msg a = Some sig ->
  fly_crypto_pubkey_export a = Some pk -> keys_ok b ->
  Forall (fun k => vk_id k = key_id_of (g_pub_encoded a) -> vk_pub k = Some pub) (g_keys b) ->
  let '(added, b') := fly_crypto_add_public_key pk b in
  let later := foldl (fun st pk => snd (fly_crypto_add_public_key pk st)) b' pks in
  added = existsb (fun k => streq (vk_id k) (key_id_of (g_pub_encoded a))) (g_keys b) || (length (g_keys b) <? MAX_VERIFY_KEYS)%nat /\
  verify_ctx ctx None msg (Some sig) later = added /\ verify_against ctx pk msg (Some sig) b = true /\
  exists raw, MLDSA65_verify pub raw msg ctx = true /\ forall ctx' msg',
    verify_ctx ctx' None msg' (Some sig) later = added && MLDSA65_verify pub raw msg' ctx' /\
    verify_against ctx' pk msg' (Some sig) b = MLDSA65_verify pub raw msg' ctx'.
Proof.
  intros Ha Hsig Hpk Hb Hcol. destruct (sign_spec _ _ _ _ _ _ Ha Hsig) as (raw & -> & Hl & Hby & Hv).
  pose proof (export_parse _ _ _ _ Ha Hpk) as Hp. set (id := key_id_of (g_pub_encoded a)) in *. destruct (key_id_spec (g_pub_encoded a)) as [Hid Hcolon].
  fold id in Hid, Hcolon. pose proof (add_key_result _ _ _ b Hp) as Hres. destruct (fly_crypto_add_public_key pk b) as [added b'] eqn:Hadd. cbv zeta in *.
  destruct Hres as [Hadded Hsame]. set (later := foldl _ b' pks).
  assert (Htake : take FLY_PQC_KEY_ID_LEN (id ++ CS ":" ++ base64_encode raw) = id) by (rewrite <- Hid; apply take_app_length).
  assert (Hname : named_key (id ++ CS ":" ++ base64_encode raw) later = if added then Some pub else None).
  { destruct added.
    - destruct (registered_named _ _ _ _ _ Hp Hb Hadd Hcol) as [Hne Hn]. apply named_later; [done|by apply Hn].
    - symmetry in Hadded. apply orb_false_iff in Hadded as [Hno Hfull%Nat.ltb_ge]. unfold later. rewrite Hsame, full_ring_stays by done. by apply (named_nowhere id). }
  assert (Hv1 : forall ctx' msg', verify_ctx ctx' None msg' (Some (id ++ CS ":" ++ base64_encode raw)) later = added && MLDSA65_verify pub raw msg' ctx').
  { intros ctx' msg'. rewrite verify_named by done. rewrite Hname. destruct added; [by apply check_signed|done]. }
  assert (Hv2 : forall ctx' msg', verify_against ctx' pk msg' (Some (id ++ CS ":" ++ base64_encode raw)) b = MLDSA65_verify pub raw msg' ctx').
  { intros ctx' msg'. unfold verify_against. rewrite Hp, Htake, streq_refl. rewrite drop_app_length' by done. change (streq (take 1 (CS ":" ++ base64_encode raw)) (CS ":")) with true. cbn [negb orb].
    rewrite verify_named by done. by apply check_signed. }
  split_and!; [exact Hadded|by rewrite Hv1, Hv, andb_true_r|by rewrite Hv2|]. exists raw. by auto.
Qed.

(** ** Signatures from before key ids *)

Lemma map_imap_id {A B} (g : A -> B) (f : nat -> A -> A) l : (forall n x, g (f n x) = g x) -> map g (imap f l) = map g l.
Proof. revert f. induction l as [|x l IH]; intros f H; [done|]. cbn. by rewrite H, (IH (f ∘ S)) by (intros n; apply H). Qed.

Lemma Forall_imap_all {A} (P : A -> Prop) (f : nat -> A -> A) l : (forall n x, P (f n x)) -> Forall P (imap f l).
Proof. revert f. induction l as [|x l IH]; intros f H; cbn; constructor; [apply H|]. apply (IH (f ∘ S)). intros n. apply H. Qed.

(** Naming the key of old signatures changes neither what verifies nor the posts; afterwards every
    signature of the current key names it, when every statement succeeds. *)
Theorem legacy_prefix_keeps_verdicts st priv pub ok posts : signs_with st priv pub ->
  let id := key_id_of (g_pub_encoded st) in
  let verdict p := fly_crypto_verify (pp_title p ++ [10] ++ pp_content p) (Some (pp_signature p)) st in
  let tagged := prefix_legacy_signatures ok id st posts in
  map verdict tagged = map verdict posts /\ map pp_title tagged = map pp_title posts /\ map pp_content tagged = map pp_content posts /\
  ((forall n, ok n = true) -> Forall (fun p => CH ":" ∉ pp_signature p -> verdict p = false) tagged).
Proof.
  intros Hs id verdict tagged. pose proof Hs as (Hr & _ & _ & _ & _ & l & Hk). destruct (key_id_spec (g_pub_encoded st)) as [Hid Hcolon]. fold id in Hid, Hcolon.
  assert (Hbare : forall msg s, s <> [] -> CH ":" ∉ s -> fly_crypto_verify msg (Some s) st = check_base64 CTX_POST pub msg s).
  { intros msg s Hne Hn. unfold fly_crypto_verify, verify_ctx. destruct s as [|c s]; [done|].
    replace (strchr (c :: s) (CH ":")) with (@None (list Z * list Z)) by (symmetry; by apply strchr_none). by rewrite Hr, Hk. }
  assert (Hnamed : forall msg s, fly_crypto_verify msg (Some (id ++ CS ":" ++ s)) st = check_base64 CTX_POST pub msg s).
  { intros msg s. unfold fly_crypto_verify. rewrite verify_named by done. unfold named_key. rewrite Hk. cbn [List.find vk_id]. fold id.
    assert (Htake : take FLY_PQC_KEY_ID_LEN (id ++ CS ":" ++ s) = id) by (rewrite <- Hid; apply take_app_length).
    rewrite Htake, take_ge, streq_refl, Hid by (by rewrite Hid). done. }
  assert (Hone : forall n p, let q := prefix_legacy_signature ok id st n p in verdict q = verdict p /\ pp_title q = pp_title p /\ pp_content q = pp_content p /\
            (ok n = true -> CH ":" ∉ pp_signature q -> verdict q = false)).
  { intros n p. unfold prefix_legacy_signature. destruct (Nat.eqb_spec (length (pp_signature p)) 0) as [E|E]; cbn [orb].
    { split_and!; [done..|]. intros _ _. unfold verdict. by destruct (pp_signature p). }
    destruct (bool_decide (CH ":" ∈ pp_signature p)) eqn:Ec; [apply bool_decide_eq_true in Ec; by split_and!|]. apply bool_decide_eq_false in Ec.
    fold (verdict p). destruct (verdict p && ok n) eqn:Ev.
    - split_and!; [|done|done|].
      + unfold verdict. cbn [pp_title pp_content pp_signature]. rewrite Hnamed, Hbare; [done| |done]. intros E'. by rewrite E' in E.
      + intros _ Hn. exfalso. apply Hn. cbn [pp_signature]. apply elem_of_app. right. by left.
    - split_and!; [done..|]. intros Hokn _. by rewrite Hokn, andb_true_r in Ev. }
  unfold tagged, prefix_legacy_signatures. split_and!; [apply map_imap_id|apply map_imap_id|apply map_imap_id|]; try (intros n p; apply Hone).
  intros Hall. apply Forall_imap_all. intros n p. apply Hone, Hall.
Qed.

(** ** The key survives a restart *)

(** C32: The first start makes a seed and a later one reads the same key back from its file, with the same
    id, whatever random numbers it would have drawn; and no start ever changes or replaces a file that
    exists, readable or not. *)
Theorem seed_restart_same_key ok fresh st file st1 : bytes fresh -> length fresh = MLDSA_SEED_BYTES -> g_ready st = false ->
  fly_crypto_init ok (Some fresh) Seed_absent st = (true, file, st1) ->
  (forall ok' fresh', exists st2, fly_crypto_init ok' fresh' file no_keys = (true, file, st2) /\
     g_priv st2 = g_priv st1 /\ g_pub_encoded st2 = g_pub_encoded st1 /\ fly_crypto_key_id st2 = fly_crypto_key_id st1) /\
  forall ok' fresh' st' file', file' <> Seed_absent -> snd (fst (fly_crypto_init ok' fresh' file' st')) = file'.
Proof.
  intros Hb Hl Hr Hinit. split.
  - intros ok' fresh'. assert (Hfile : file = Seed_text (hex_text fresh ++ [10]) /\ fst (load_or_create_seed ok (Some fresh) Seed_absent) = Some fresh).
    { unfold fly_crypto_init in Hinit. rewrite Hr in Hinit. cbn [load_or_create_seed] in *. destruct (ok 0%nat); [|done]. cbn [negb] in *. destruct (ok 1%nat); [|done].
      split; [|done]. destruct (private_key_from_seed fresh); [|done]. destruct (public_from_private _); [|done]. destruct (marshal_public_key _); [|done].
      destruct (negb _); [done|]. congruence. }
    destruct Hfile as [-> Hseed]. destruct (init_signs _ _ _ _ _ _ Hr Hinit) as (seed & priv & pub & Hs & Hpriv & _ & Hp1 & Hpub & He & Hlen & l & Hk).
    rewrite Hseed in Hs. injection Hs as <-.
    assert (Hload : load_or_create_seed ok' fresh' (Seed_text (hex_text fresh ++ [10])) = (Some fresh, Seed_text (hex_text fresh ++ [10]))).
    { cbn [load_or_create_seed]. assert (Hn : 10 ∉ hex_text fresh).
      { intros H. pose proof (hex_text_chars _ Hb) as Hc. rewrite Forall_forall in Hc. by destruct (Hc _ H). }
      rewrite (fgets_line _ _ []) by (done || rewrite length_hex_text; lia). rewrite length_app, length_hex_text, (proj2 (Nat.ltb_ge _ _)) by lia.
      by rewrite <- Hl, scan_bytes_hex. }
    unfold fly_crypto_init. cbn [g_ready no_keys]. rewrite Hload, Hpriv, Hpub, He, Hlen, Nat.eqb_refl. cbn [negb].
    eexists. split; [done|]. cbn. split_and!; [done|done|]. unfold fly_crypto_key_id.
    assert (Hready : g_ready st1 = true) by (unfold fly_crypto_init in Hinit; rewrite Hr in Hinit; destruct (load_or_create_seed _ _ _) as [[?|] ?]; [|done];
      repeat (case_match; try done); by simplify_eq). by rewrite Hready, Hk.
  - intros ok' fresh' st' file' Hf. unfold fly_crypto_init. destruct (g_ready st'); [done|].
    assert (Hsame : snd (load_or_create_seed ok' fresh' file') = file') by by destruct file'.
    destruct (load_or_create_seed ok' fresh' file') as [[seed|] f]; cbn in Hsame; subst f; [|done]. by repeat case_match.
Qed.
End pqc.

(** ** A concrete library for the witnesses *)

Module Demo.
Definition b64_char (n : Z) : Z := if n <? 26 then 65 + n else if n <? 52 then 71 + n else if n <? 62 then n - 4 else if n =? 62 then 43 else 47.
Definition b64_val (c : Z) : Z :=
  if (65 <=? c) && (c <=? 90) then c - 65 else if (97 <=? c) && (c <=? 122) then c - 71 else if (48 <=? c) && (c <=? 57) then c + 4 else if c =? 43 then 62
  else if c =? 47 then 63 else 0.

Fixpoint encode (d : list Z) : list Z :=
  match d with
  | [] => []
  | [a] => [b64_char (a / 4); b64_char (a `mod` 4 * 16); 61; 61]
  | [a; b] => [b64_char (a / 4); b64_char (a `mod` 4 * 16 + b / 16); b64_char (b `mod` 16 * 4); 61]
  | a :: b :: c :: r => [b64_char (a / 4); b64_char (a `mod` 4 * 16 + b / 16); b64_char (b `mod` 16 * 4 + c / 64); b64_char (c `mod` 64)] ++ encode r
  end.
Definition group (w x y z : Z) : list Z :=
  [b64_val w * 4 + b64_val x / 16; b64_val x `mod` 16 * 16 + b64_val y / 4; b64_val y `mod` 4 * 64 + b64_val z].
Fixpoint decode (s : list Z) : option (list Z) :=
  match s with
  | [] => Some []
  | w :: x :: y :: z :: r => app (group w x y z) <$> decode r
  | _ => None
  end.

Lemma b64_val_char n : 0 <= n < 64 -> b64_val (b64_char n) = n /\ b64_char n <> 61 /\ b64_char n <> 58.
Proof. intros H. unfold b64_char, b64_val. repeat case_match; lia. Qed.

Lemma group_ok a b c : 0 <= a < 256 -> 0 <= b < 256 -> 0 <= c < 256 ->
  group (b64_char (a / 4)) (b64_char (a `mod` 4 * 16 + b / 16)) (b64_char (b `mod` 16 * 4 + c / 64)) (b64_char (c `mod` 64)) = [a; b; c].
Proof.
  intros. unfold group. rewrite !(fun n H => proj1 (b64_val_char n H)) by (Z.to_euclidean_division_equations; lia).
  repeat f_equal; Z.to_euclidean_division_equations; lia.
Qed.

Definition base64 : list Z -> option (list Z) := base64_decode decode.

Definition pads (d : list Z) : nat := match length d mod 3 with 0 => 0 | 1 => 2 | _ => 1 end%nat.

Lemma nth_pad_cons4 w x y z r n : (n = 1 \/ n = 2)%nat -> r <> [] -> (4 <= length r)%nat ->
  pad_at ([w; x; y; z] ++ r) (length ([w; x; y; z] ++ r) - n) = pad_at r (length r - n).
Proof.
  intros Hn Hr Hl. unfold pad_at. rewrite length_app, app_nth2 by (cbn [length]; lia). cbn [length].
  replace (4 + length r - n - 4)%nat with (length r - n)%nat by lia. done.
Qed.

Lemma encode_spec n : forall d, (length d <= n)%nat -> bytes d ->
  decode (encode d) = Some (d ++ replicate (pads d) 0) /\ (length (encode d) mod 4 = 0)%nat /\ (d <> [] -> 4 <= length (encode d))%nat /\
  (d <> [] -> pads d = pad_at (encode d) (length (encode d) - 1) + pad_at (encode d) (length (encode d) - 2))%nat /\ 58 ∉ encode d.
Proof.
  induction n as [|n IH]; intros d Hn Hd; [destruct d; [|cbn in Hn; lia]; split_and!; try done; apply not_elem_of_nil|].
  assert (Hlow : forall a, 0 <= a < 256 -> 0 <= a / 4 < 64 /\ 0 <= a `mod` 4 * 16 < 64 /\ 0 <= a `mod` 16 * 4 < 64) by (intros; Z.to_euclidean_division_equations; lia).
  destruct d as [|a [|b [|c r]]]; [split_and!; try done; apply not_elem_of_nil| | |].
  - apply Forall_cons in Hd as [Ha _]. destruct (Hlow a Ha) as (H1 & H2 & _). cbn [encode decode]. unfold group. change (b64_val 61) with 0.
    destruct (b64_val_char _ H1) as (-> & _ & N1), (b64_val_char _ H2) as (-> & _ & N2). split_and!; [|done|cbn; lia|done|by rewrite !not_elem_of_cons; split_and!; [congruence..|apply not_elem_of_nil]].
    cbn. repeat f_equal; Z.to_euclidean_division_equations; lia.
  - apply Forall_cons in Hd as [Ha [Hb _]%Forall_cons]. destruct (Hlow a Ha) as (H1 & _ & _), (Hlow b Hb) as (_ & _ & H3).
    assert (H2 : 0 <= a `mod` 4 * 16 + b / 16 < 64) by (Z.to_euclidean_division_equations; lia). cbn [encode decode]. unfold group. change (b64_val 61) with 0.
    destruct (b64_val_char _ H1) as (-> & _ & N1), (b64_val_char _ H2) as (-> & _ & N2), (b64_val_char _ H3) as (-> & P3 & N3).
    split_and!; [|done|cbn; lia| |by rewrite !not_elem_of_cons; split_and!; [congruence..|apply not_elem_of_nil]].
    + cbn. repeat f_equal; Z.to_euclidean_division_equations; lia.
    + intros _. unfold pad_at. cbn [length nth Nat.sub]. by rewrite (proj2 (Z.eqb_neq _ _) P3).
  - apply Forall_cons in Hd as [Ha [Hb [Hc Hr]%Forall_cons]%Forall_cons]. destruct (IH r) as (D1 & D2 & D3 & D4 & D5); [cbn in Hn; lia|done|].
    cbn [encode]. set (g := [_; _; _; _]). assert (Hg : forall s, decode (g ++ s) = app [a; b; c] <$> decode s) by (intros s; cbn [g app decode]; by rewrite group_ok).
    assert (Hpads : pads (a :: b :: c :: r) = pads r) by (unfold pads; cbn [length]; replace (S (S (S (length r)))) with (length r + 1 * 3)%nat by lia; by rewrite Nat.Div0.mod_add).
    assert (Hchars : (58 ∉ g) /\ b64_char (c `mod` 64) <> 61 /\ b64_char (b `mod` 16 * 4 + c / 64) <> 61).
    { assert (Hx : forall x, 0 <= x < 64 -> b64_char x <> 61 /\ b64_char x <> 58) by (intros x H; by destruct (b64_val_char x H) as (_ & ? & ?)).
      split_and!; [|apply Hx; Z.to_euclidean_division_equations; lia..].
      unfold g. rewrite !not_elem_of_cons. split_and!; [apply not_eq_sym, Hx; Z.to_euclidean_division_equations; lia..|apply not_elem_of_nil]. }
    destruct Hchars as (N1 & N2 & N3). split_and!.
    + rewrite Hg, D1, Hpads. done.
    + rewrite length_app. cbn [length g]. replace (4 + length (encode r))%nat with (length (encode r) + 1 * 4)%nat by lia. by rewrite Nat.Div0.mod_add.
    + intros _. rewrite length_app. cbn [length g]. lia.
    + intros _. rewrite Hpads. destruct (decide (r = [])) as [-> |Hne].
      * cbn [encode]. rewrite app_nil_r. unfold pad_at, g. cbn [length nth Nat.sub]. by rewrite (proj2 (Z.eqb_neq _ _) N2), (proj2 (Z.eqb_neq _ _) N3).
      * assert (encode r <> []) by (intros E; specialize (D3 Hne); rewrite E in D3; cbn in D3; lia).
        unfold g. rewrite !nth_pad_cons4 by (auto || by apply D3). by apply D4.
    + rewrite elem_of_app. by intros [?|?].
Qed.

Lemma base64_roundtrip d : d <> [] -> bytes d -> base64_decode decode (base64_encode encode d) = Some d.
Proof.
  intros Hne Hd. destruct (encode_spec (length d) d ltac:(lia) Hd) as (D1 & D2 & D3 & D4 & _). specialize (D3 Hne). specialize (D4 Hne).
  unfold base64_decode, base64_encode. rewrite D2. destruct (Nat.eqb_spec (length (encode d)) 0) as [E|_]; [lia|]. cbn [orb negb Nat.eqb]. rewrite D1.
  rewrite length_app, length_replicate. f_equal. rewrite take_app_le by lia. apply take_ge. lia.
Qed.

(** Keys are their seed, and a signature is a sum; only the sizes are not the real ones. *)
Definition marshal (pub : list Z) : option (list Z) := if forallb (fun b => (0 <=? b) && (b <? 256)) pub then Some pub else None.
Definition tag (key msg ctx : list Z) : list Z := [u8 (zsum key + zsum msg + 7 * zsum ctx)].
Definition sign (key msg ctx : list Z) : option (list Z) := Some (tag key msg ctx).
Definition verify (pub sig msg ctx : list Z) : bool := bool_decide (sig = tag pub msg ctx).

Lemma marshal_bytes pub e : marshal pub = Some e -> bytes e /\ Some e = Some pub.
Proof.
  unfold marshal. destruct (forallb _ _) eqn:E; [|done]. intros [= <-]. split; [|done]. apply Forall_forall. intros x Hx.
  rewrite forallb_forall in E. specialize (E x (proj1 (list_elem_of_In _ _) Hx)). lia.
Qed.

Lemma ssl_ok : boringssl_ok 1 1 (@Some (list Z)) marshal (@Some (list Z)) sign verify (demo_out 32) encode decode.
Proof.
  split.
  - exact base64_roundtrip.
  - intros m. split; [apply length_demo_out|apply demo_out_bytes].
  - intros pub e H. destruct (marshal_bytes _ _ H) as [Hb He]. split; [done|]. exact He.
  - intros priv pub msg ctx sig [= ->] [= <-]. split_and!; [done| |by apply bool_decide_eq_true]. repeat constructor; apply u8_range.
  - lia.
Qed.
End Demo.

(** Two sites, with the keys 7 and 9. *)
Definition start (seed : list Z) : key_state :=
  snd (fly_crypto_init 1 1 (@Some (list Z)) (@Some (list Z)) Demo.marshal (demo_out 32) (fun _ => true) (Some seed) Seed_absent no_keys).

Lemma start_signs n : 0 <= n < 256 -> signs_with 1 (@Some (list Z)) Demo.marshal (demo_out 32) (start [n]) [n] [n].
Proof.
  intros Hn. unfold start, fly_crypto_init. cbn [g_ready no_keys load_or_create_seed negb].
  assert (Hm : Demo.marshal [n] = Some [n]) by (unfold Demo.marshal; cbn; by rewrite (proj2 (Z.leb_le _ _)), (proj2 (Z.ltb_lt _ _)) by lia).
  rewrite Hm. cbn. split_and!; try done. by eexists.
Qed.

Lemma start_keys_ok seed : keys_ok (start seed).
Proof.
  apply (init_keys_ok 1 1 1 (@Some (list Z)) (@Some (list Z)) Demo.marshal (@Some (list Z)) Demo.sign Demo.verify (demo_out 32) Demo.encode Demo.decode Demo.ssl_ok).
  split; [constructor|cbn; lia].
Qed.

Lemma signature_survives_move_witness :
  let add := fly_crypto_add_public_key 1 (@Some (list Z)) (demo_out 32) Demo.decode in
  let verify := verify_ctx 1 Demo.verify Demo.decode in
  match sign_ctx Demo.sign Demo.encode CTX_POST (CS "hello") (start [7]), fly_crypto_pubkey_export Demo.encode (start [7]) with
  | Some sig, Some pk =>
      let '(added, site) := add pk (start [9]) in
      let later := foldl (fun st pk => snd (add pk st)) site [CS "BQ=="; CS "not a key"] in
      verify CTX_POST None (CS "hello") (Some sig) (start [9]) = false /\ added = true /\
      verify CTX_POST None (CS "hello") (Some sig) later = true /\ verify CTX_BACKUP None (CS "hello") (Some sig) later = false
  | _, _ => False
  end.
Proof.
  cbv zeta. destruct (sign_ctx Demo.sign Demo.encode CTX_POST (CS "hello") (start [7])) as [sig|] eqn:Es; [|by vm_compute in Es].
  destruct (fly_crypto_pubkey_export Demo.encode (start [7])) as [pk|] eqn:Ep; [|by vm_compute in Ep].
  destruct (fly_crypto_add_public_key 1 (@Some (list Z)) (demo_out 32) Demo.decode pk (start [9])) as [added site] eqn:Ea.
  assert (Hcol : Forall (fun k => vk_id k = key_id_of (demo_out 32) (g_pub_encoded (start [7])) -> vk_pub k = Some [7]) (g_keys (start [9])))
    by (repeat constructor; vm_compute; discriminate).
  pose proof (signature_survives_move 1 1 (@Some (list Z)) Demo.marshal (@Some (list Z)) Demo.sign Demo.verify (demo_out 32) Demo.encode Demo.decode Demo.ssl_ok
    (start [7]) [7] [7] CTX_POST (CS "hello") sig pk (start [9]) [CS "BQ=="; CS "not a key"] (start_signs 7 ltac:(lia)) Es Ep (start_keys_ok [9]) Hcol) as H.
  rewrite Ea in H. cbv zeta in H. destruct H as (Hadded & H1 & _ & raw & Hraw & H). assert (added = true) as -> by (rewrite Hadded; by vm_compute).
  split_and!; [|done|exact H1|].
  - vm_compute in Es. injection Es as <-. by vm_compute.
  - rewrite (proj1 (H CTX_BACKUP (CS "hello"))). unfold Demo.verify in *. apply bool_decide_eq_true in Hraw as ->. by vm_compute.
Defined.

Lemma legacy_prefix_keeps_verdicts_witness :
  let st := start [7] in
  let id := key_id_of (demo_out 32) (g_pub_encoded st) in
  let old := base64_encode Demo.encode (Demo.tag [7] (CS "t" ++ [10] ++ CS "c") CTX_POST) in
  let posts := [PqcPost 1 (CS "t") (CS "c") old; PqcPost 2 (CS "t") (CS "altered") old] in
  let verdict p := fly_crypto_verify 1 Demo.verify Demo.decode (pp_title p ++ [10] ++ pp_content p) (Some (pp_signature p)) st in
  let tagged := prefix_legacy_signatures 1 Demo.verify Demo.decode (fun _ => true) id st posts in
  map verdict tagged = [true; false] /\ map pp_signature tagged = [id ++ CS ":" ++ old; old].
Proof.
  cbv zeta. split; [|by vm_compute].
  pose proof (legacy_prefix_keeps_verdicts 1 1 (@Some (list Z)) Demo.marshal (@Some (list Z)) Demo.sign Demo.verify (demo_out 32) Demo.encode Demo.decode Demo.ssl_ok
    (start [7]) [7] [7] (fun _ => true)
    [PqcPost 1 (CS "t") (CS "c") (base64_encode Demo.encode (Demo.tag [7] (CS "t" ++ [10] ++ CS "c") CTX_POST));
     PqcPost 2 (CS "t") (CS "altered") (base64_encode Demo.encode (Demo.tag [7] (CS "t" ++ [10] ++ CS "c") CTX_POST))] (start_signs 7 ltac:(lia))) as H.
  cbv zeta in H. rewrite (proj1 H). by vm_compute.
Defined.

Lemma seed_restart_same_key_witness :
  let init := fly_crypto_init 2 2 (@Some (list Z)) (@Some (list Z)) Demo.marshal (demo_out 32) in
  let '(_, file, st1) := init (fun _ => true) (Some [7; 200]) Seed_absent no_keys in
  file = Seed_text (CS "07c8" ++ [10]) /\ exists st2, init (fun _ => false) (Some [1; 2]) file no_keys = (true, file, st2) /\ g_priv st2 = g_priv st1.
Proof.
  cbv zeta. destruct (fly_crypto_init 2 2 (@Some (list Z)) (@Some (list Z)) Demo.marshal (demo_out 32) (fun _ => true) (Some [7; 200]) Seed_absent no_keys) as [[ok file] st1] eqn:E.
  assert (ok = true) as -> by (vm_compute in E; congruence). split; [vm_compute in E; by injection E as <- _|].
  destruct (proj1 (seed_restart_same_key 2 2 (@Some (list Z)) (@Some (list Z)) Demo.marshal (demo_out 32) (fun _ => true) [7; 200] no_keys file st1
    ltac:(repeat constructor; lia) eq_refl eq_refl E) (fun _ => false) (Some [1; 2])) as (st2 & H1 & H2 & _). by exists st2.
Defined.
