(* ===== verification/Backup.v ===== *)
(** * Backups (src/src/tools/backup.c)

    The archive of a site, its check and its restoration.  The stream of ustar members is written out
    byte by byte; zstd, SHA-256, base64, scrypt, AES-GCM and the printer and parser of JSON are
    parameters, and the keys come through the interface [ManifestKeys], which those of a process
    implement ([process_keys_laws]).  A site is its files by path; the snapshot SQLite makes of a
    database, the names [scandir] lists in a directory and the times of change are parameters.  The
    numbers of a document are integers.  Messages, the terminal and the temporary file of the archive,
    a write that stops half-way, the copy of a file to another file system, the purge of the journal,
    the report on the restored signatures and the export to Markdown are not modelled. *)
From stdpp Require Import gmap.
From S2P Require Import Prelude CStr Strutil Files Auth SigningKeys.

Definition FORMAT_NAME : cstr := CS "fly.board-backup".
Definition FORMAT_VERSION : Z := 1.
Definition SECRETS_AD : cstr := CS "fly.board-backup-secrets-v1".
Definition SCRYPT_N : Z := Z.shiftl 1 17.
Definition SCRYPT_R : Z := 8.
Definition SCRYPT_P : Z := 1.
Definition MAX_MANIFEST : Z := 64 * 1024 * 1024.
Definition MAX_SECRETS : Z := 1024 * 1024.
Definition k_db_paths : list (list Z) := [CS "data/blog.db"; CS "data/comments.db"; CS "data/board_tree.db"].
Definition k_file_dirs : list (list Z) := [CS "public/uploads"; CS "public/profile"; CS "public/img"].
Definition k_settings : list (list Z) := [CS "blog.settings"; CS "fonts.settings"; CS "robots.settings"; CS "upload.settings"].
Definition k_secret_paths : list (list Z) :=
  [CS "data/.pqc_mldsa65_seed"; CS "data/.jwt_secret"; CS "admin.settings"; CS "s3.settings"; CS "backup.settings"].

(** Below a directory. *)
Definition under_dir (p dir : list Z) : bool := starts_with (dir ++ CS "/") p && (S (length dir) <? length p)%nat.

(** ** JSON documents *)

Inductive doc := DNumber (n : Z) | DString (s : list Z) | DArray (items : list doc) | DObject (fields : list (list Z * doc)) | DOther.

(** [cJSON_GetObjectItem]: the first member of the name, in any case. *)
Definition get (o : option doc) (name : cstr) : option doc :=
  match o with
  | Some (DObject fields) => snd <$> List.find (fun f => strcaseeq (fst f) name) fields
  | _ => None
  end.
Definition text_of (o : option doc) : option cstr := match o with Some (DString s) => Some s | _ => None end.
(** [(int)valuedouble], as the processor converts. *)
Definition to_int (n : Z) : Z := if (- 2 ^ 31 <=? n) && (n <? 2 ^ 31) then n else - 2 ^ 31.
Definition jint (o : option doc) (key : cstr) (def : Z) : Z := match get o key with Some (DNumber n) => to_int n | _ => def end.
(** What [cJSON_ArrayForEach] goes through. *)
Definition children (o : option doc) : list doc :=
  match o with Some (DArray l) => l | Some (DObject l) => map snd l | _ => [] end.

(** ** ustar *)

(** [%0<w>llo] and [%0<w>d] of a number of at most [w] digits. *)
Fixpoint digits_of (base : Z) (w : nat) (n : Z) : cstr :=
  match w with O => [] | S w => digits_of base w (n / base) ++ [48 + n `mod` base] end.

Definition tar_fields (name : cstr) (size mtime : Z) (sum : list Z) : list Z :=
  pad_to 100 (take 99 name) ++ digits_of 8 7 420 ++ [0] ++ digits_of 8 7 0 ++ [0] ++ digits_of 8 7 0 ++ [0] ++
  digits_of 8 11 (Z.land size (Z.ones 33)) ++ [0] ++ digits_of 8 11 (Z.land (Z.max mtime 0) (Z.ones 33)) ++ [0] ++
  sum ++ [48] ++ replicate 100 0 ++ CS "ustar" ++ [0] ++ CS "00" ++ replicate 247 0.

(** The sum is taken with blanks in its own field. *)
Definition tar_header (name : cstr) (size mtime : Z) : list Z :=
  tar_fields name size mtime (digits_of 8 6 (zsum (tar_fields name size mtime (replicate 8 32))) ++ [0; 32]).

Definition tar_pad (size : Z) : Z := (512 - size `mod` 512) `mod` 512.

(** One member: its header, its content and zeros up to the next block. *)
Definition tar_put (name : cstr) (data : list Z) (mtime : Z) : list Z :=
  tar_header name (zlen data) mtime ++ data ++ replicate (Z.to_nat (tar_pad (zlen data))) 0.

Fixpoint parse_octal_from (s : list Z) (v : Z) : Z :=
  match s with c :: s => if (48 <=? c) && (c <=? 55) then parse_octal_from s (v * 8 + (c - 48)) else v | [] => v end.
Definition parse_octal (s : list Z) : Z := parse_octal_from s 0.

Definition tar_header_valid (h : list Z) : bool :=
  (zsum (take 148 h) + 8 * 32 + zsum (drop 156 h) =? parse_octal (take 8 (drop 148 h))) && streq (take 5 (drop 257 h)) (CS "ustar").

Definition blob_name_ok (name : cstr) : bool :=
  starts_with (CS "b/") name && (length name =? 8)%nat && forallb isdigit (drop 2 name).

(** ** The keys *)

Class ManifestKeys := {
  sign_manifest : list Z -> option (list Z);
  own_public_key : option (list Z);
  own_key_id : option (list Z);
  key_id_of_public : list Z -> option (list Z);
  verify_manifest : list Z -> list Z -> list Z -> bool;
}.

(** The keys of a process. *)
Definition process_keys {private_key public_key} (SIG PUB : nat) parse_encoded MLDSA65_sign MLDSA65_verify SHA256 EVP_EncodeBlock EVP_DecodeBlock
    (st : @key_state private_key public_key) : ManifestKeys := {|
  sign_manifest msg := fly_crypto_sign_manifest MLDSA65_sign EVP_EncodeBlock msg st;
  own_public_key := fly_crypto_pubkey_export EVP_EncodeBlock st;
  own_key_id := fly_crypto_key_id st;
  key_id_of_public pk := fly_crypto_key_id_of PUB parse_encoded SHA256 EVP_DecodeBlock pk;
  verify_manifest pk msg sig := fly_crypto_verify_manifest SIG PUB parse_encoded MLDSA65_verify SHA256 EVP_DecodeBlock pk msg (Some sig) st;
|}.

(** What a backup says of its site. *)
Record site_report := SiteReport { sr_created : list Z; sr_host : list Z; sr_posts : Z; sr_signed : Z; sr_checkpoint : Z }.

Section backup.
Context (ZSTD_compress ZSTD_stream : list Z -> list Z) (SHA256 : list Z -> list Z) (EVP_EncodeBlock : list Z -> list Z) (EVP_DecodeBlock : list Z -> option (list Z)).
Context (scrypt : list Z -> list Z -> Z -> Z -> Z -> option (list Z)) (gcm_seal gcm_open : list Z -> list Z -> list Z -> list Z -> option (list Z)).
Context (cJSON_Print cJSON_PrintUnformatted : doc -> list Z) (cJSON_Parse : list Z -> option doc).
Context (sqlite_snapshot : list Z -> option (list Z)) (scandir : fs -> list Z -> list (list Z)) (mtime snapshot_time : list Z -> Z) (realpath : list Z -> option (list Z)).
Context `{keys : ManifestKeys}.

Definition b64_encode (d : list Z) : cstr := base64_encode EVP_EncodeBlock d.
Definition b64_decode (s : cstr) : option (list Z) := base64_decode EVP_DecodeBlock s.
Definition sha_hex (d : list Z) : cstr := hex_text (SHA256 d).

(** ** Writing *)

Record backup_ctx := BackupCtx { bc_stream : list Z; bc_entries : list doc; bc_next_blob : Z; bc_bytes : Z; bc_files : Z }.

Definition entry_doc (rel_path blob : cstr) (data : list Z) (kind : cstr) : doc :=
  DObject [(CS "path", DString rel_path); (CS "blob", DString blob); (CS "size", DNumber (zlen data)); (CS "sha256", DString (sha_hex data)); (CS "kind", DString kind)].

Definition add_entry (rel_path : cstr) (data : option (list Z)) (time : Z) (kind : cstr) (c : backup_ctx) : option backup_ctx :=
  let next := bc_next_blob c + 1 in
  let blob := CS "b/" ++ digits_of 10 6 next in
  if 999999 <? next then None
  else match data with
  | None => None
  | Some data =>
      if Z.ones 33 <? zlen data then None
      else Some (BackupCtx (bc_stream c ++ tar_put blob data time) (bc_entries c ++ [entry_doc rel_path blob data kind]) next (bc_bytes c + zlen data) (bc_files c + 1))
  end.

(** One after the other, up to the first failure. *)
Definition each {A} (f : A -> backup_ctx -> option backup_ctx) (l : list A) (c : option backup_ctx) : option backup_ctx :=
  foldl (fun c x => c ≫= f x) c l.

Definition add_db (site : fs) (path : list Z) (c : backup_ctx) : option backup_ctx :=
  match site !! path with
  | None => Some c
  | Some db => match sqlite_snapshot db with Some snap => add_entry path (Some snap) (snapshot_time path) (CS "db") c | None => None end
  end.
Definition add_setting (site : fs) (path : list Z) (c : backup_ctx) : option backup_ctx :=
  match site !! path with None => Some c | Some data => add_entry path (Some data) (mtime path) (CS "settings") c end.
Definition is_dir (site : fs) (path : list Z) : bool := existsb (fun f => under_dir (fst f) path) (map_to_list site).
Definition in_dir (dir name : list Z) : list Z := dir ++ CS "/" ++ name.

(** Directories are gone into; what is neither a directory nor a file is passed over. *)
Fixpoint add_dir (fuel : nat) (site : fs) (dir : list Z) (c : backup_ctx) : option backup_ctx :=
  match fuel with
  | O => None
  | S fuel =>
      each (fun name c =>
        if streq name (CS ".") || streq name (CS "..") then Some c
        else if is_dir site (in_dir dir name) then add_dir fuel site (in_dir dir name) c
        else match site !! in_dir dir name with
        | Some data => add_entry (in_dir dir name) (Some data) (mtime (in_dir dir name)) (CS "file") c
        | None => Some c
        end) (scandir site dir) (Some c)
  end.
(** A path has fewer characters. *)
Definition PATH_MAX : nat := Z.to_nat 4096.

Definition secrets_doc (site : fs) : doc :=
  DObject [(CS "files", DArray (omap (fun path =>
    match site !! path with
    | Some data => if MAX_SECRETS / 4 <? zlen data then None else Some (DObject [(CS "path", DString path); (CS "data", DString (b64_encode data))])
    | None => None
    end) k_secret_paths))].

(** The sealed secrets and what the manifest says of them. *)
Definition seal_secrets (random : option (list Z * list Z)) (pass : cstr) (site : fs) : option (list Z * list (list Z * doc)) :=
  match random with
  | None => None
  | Some (salt, nonce) =>
      key ← scrypt pass salt SCRYPT_N SCRYPT_R SCRYPT_P;
      sealed ← gcm_seal key nonce (cJSON_PrintUnformatted (secrets_doc site)) SECRETS_AD;
      Some (sealed,
        [(CS "cipher", DString (CS "aes-256-gcm")); (CS "kdf", DString (CS "scrypt")); (CS "N", DNumber SCRYPT_N); (CS "r", DNumber SCRYPT_R); (CS "p", DNumber SCRYPT_P);
         (CS "salt", DString (b64_encode salt)); (CS "nonce", DString (b64_encode nonce)); (CS "sha256", DString (sha_hex sealed));
         (CS "files", DNumber (zlen (children (get (Some (secrets_doc site)) (CS "files")))))])
  end.

Definition manifest_doc (r : site_report) (key_id pk : cstr) (c : backup_ctx) (secrets : option (list (list Z * doc))) : doc :=
  DObject ([(CS "format", DString FORMAT_NAME); (CS "version", DNumber FORMAT_VERSION); (CS "created_at", DString (sr_created r)); (CS "source_host", DString (sr_host r));
    (CS "signing_key", DObject [(CS "key_id", DString key_id); (CS "public_key", DString pk)]);
    (CS "counts", DObject [(CS "posts", DNumber (sr_posts r)); (CS "signed_posts", DNumber (sr_signed r)); (CS "files", DNumber (bc_files c)); (CS "bytes", DNumber (bc_bytes c))]);
    (CS "flywire_checkpoint", DNumber (sr_checkpoint r))] ++
    match secrets with Some desc => [(CS "secrets", DObject desc)] | None => [] end ++ [(CS "entries", DArray (bc_entries c))]).

Definition output_path_safe (out : cstr) : bool :=
  let dir := match after_last out (CH "/") with Some name => take (length out - length name - 1) out | None => CS "." end in
  match realpath dir with
  | None => false
  | Some real_dir =>
      match realpath (CS "public") with
      | Some real_public => negb (starts_with real_public real_dir && match drop (length real_public) real_dir with [] => true | c :: _ => c =? CH "/" end)
      | None => true
      end
  end.

(** The members of an archive before its manifest. *)
Definition collect (site : fs) : option backup_ctx :=
  each (add_dir PATH_MAX site) k_file_dirs (each (add_setting site) k_settings (each (add_db site) k_db_paths (Some (BackupCtx [] [] 0 0 0)))).

(** The archive of a site whose databases already list the current key. *)
Definition fly_backup_write (out : cstr) (pass : option cstr) (random : option (list Z * list Z)) (now : Z) (r : site_report) (site : fs) : option (list Z) :=
  let with_secrets := match pass with Some (_ :: _) => true | _ => false end in
  if negb (output_path_safe out) then None
  else match site !! CS "data/blog.db", own_key_id with
  | Some _, Some key_id =>
      c ← collect site;
      secrets ← (if with_secrets then Some <$> seal_secrets random (default [] pass) site else Some None);
      let manifest := cJSON_Print (manifest_doc r key_id (default [] own_public_key) c (snd <$> secrets)) in
      sig ← sign_manifest manifest;
      Some (ZSTD_compress (bc_stream c ++ match secrets with Some (sealed, _) => tar_put (CS "secrets.enc") sealed now | None => [] end ++
                           tar_put (CS "manifest.json") manifest now ++ tar_put (CS "manifest.sig") sig now ++ replicate 1024 0))
  | _, _ => None
  end.

Definition cmd_backup (out : cstr) (with_secrets : bool) (pass : option cstr) (random : option (list Z * list Z)) (now : Z) (r : site_report) (site : fs) : option (list Z) :=
  if with_secrets then
    match pass with
    | Some p => if (length p <? 12)%nat then None else fly_backup_write out pass random now r site
    | None => None
    end
  else fly_backup_write out None random now r site.

(** ** Reading *)

Record archive_read := ArchiveRead {
  (** in the order they were read *)
  ar_blobs : list (list Z * list Z);
  ar_manifest : option (list Z);
  ar_signature : option (list Z);
  ar_secrets : option (list Z);
}.
Definition no_archive : archive_read := ArchiveRead [] None None None.

Inductive read_result := Read_failed | Read_end | Read_member (a : archive_read) (rest : list Z).

(** Exactly [n] bytes, or a failure. *)
Definition zr_read (n : Z) (s : list Z) : option (list Z * list Z) :=
  if zlen s <? n then None else Some (take (Z.to_nat n) s, drop (Z.to_nat n) s).

Definition find_blob (a : archive_read) (name : cstr) : option (list Z) :=
  snd <$> List.find (fun b => strcaseeq (fst b) name) (ar_blobs a).

(** The signature ends at a line end. *)
Definition sig_line (data : list Z) : cstr := fst (span (fun c => negb ((c =? 13) || (c =? 10))) (until_nul data)).

Definition is_some {A} (o : option A) : bool := match o with Some _ => true | None => false end.

Definition read_one (a : archive_read) (s : list Z) : read_result :=
  match zr_read 512 s with
  | None => Read_failed
  | Some (h, s) =>
      if forallb (Z.eqb 0) h then Read_end
      else if negb (tar_header_valid h) then Read_failed
      else
        let name := until_nul (take 100 h) in
        let size := parse_octal (take 12 (drop 124 h)) in
        let is_blob := blob_name_ok name in
        let is_secrets := streq name (CS "secrets.enc") in
        let is_manifest := streq name (CS "manifest.json") in
        let is_sig := streq name (CS "manifest.sig") in
        if negb is_blob && negb is_secrets && negb is_manifest && negb is_sig then Read_failed
        else if is_some (find_blob a name) || (is_manifest && is_some (ar_manifest a)) || (is_sig && is_some (ar_signature a)) || (is_secrets && is_some (ar_secrets a))
        then Read_failed
        else if (is_manifest && (MAX_MANIFEST <? size)) || (is_secrets && (MAX_SECRETS <? size)) || (is_sig && (16384 <? size)) then Read_failed
        else match zr_read size s with
        | None => Read_failed
        | Some (data, s) =>
            match zr_read (tar_pad size) s with
            | None => Read_failed
            | Some (_, s) =>
                Read_member (if is_blob then ArchiveRead (ar_blobs a ++ [(name, data)]) (ar_manifest a) (ar_signature a) (ar_secrets a)
                             else if is_manifest then ArchiveRead (ar_blobs a) (Some data) (ar_signature a) (ar_secrets a)
                             else if is_sig then ArchiveRead (ar_blobs a) (ar_manifest a) (Some (sig_line data)) (ar_secrets a)
                             else ArchiveRead (ar_blobs a) (ar_manifest a) (ar_signature a) (Some data)) s
            end
        end
  end.

(** Every member takes a block, so the length of the stream is enough fuel. *)
Fixpoint read_members (fuel : nat) (a : archive_read) (s : list Z) : option archive_read :=
  match fuel with
  | O => None
  | S fuel => match read_one a s with Read_failed => None | Read_end => Some a | Read_member a s => read_members fuel a s end
  end.

Definition read_archive (file : list Z) : option (archive_read * list Z * list Z) :=
  let s := ZSTD_stream file in
  a ← read_members (S (length s)) no_archive s;
  match ar_manifest a, ar_signature a with Some manifest, Some sig => Some (a, manifest, sig) | _, _ => None end.

Definition contains (s needle : cstr) : bool := existsb (fun i => starts_with needle (drop i s)) (seq 0 (S (length s))).

Definition restore_path_ok (p : cstr) : bool :=
  match p with
  | [] => false
  | c :: _ =>
      if (c =? CH "/") || contains p (CS "..") || contains p (CS "//") || existsb (Z.eqb 92) p then false
      else existsb (streq p) k_db_paths || existsb (streq p) k_settings || existsb (streq p) k_secret_paths || existsb (under_dir p) k_file_dirs
  end.
Definition secret_path_ok (p : cstr) : bool := existsb (streq p) k_secret_paths.

Definition entry_ok (a : archive_read) (e : doc) : bool :=
  match text_of (get (Some e) (CS "path")) with
  | Some path =>
      restore_path_ok path && negb (secret_path_ok path) &&
      match text_of (get (Some e) (CS "blob")), text_of (get (Some e) (CS "sha256")) with
      | Some blob, Some sha =>
          match find_blob a blob with
          | Some data => streq sha (sha_hex data) && (to_int (zlen data) =? jint (Some e) (CS "size") (-2))
          | None => false
          end
      | _, _ => false
      end
  | None => false
  end.

Definition check_archive (a : archive_read) (manifest sig : list Z) : option doc :=
  match cJSON_Parse manifest with
  | None => None
  | Some m =>
      let m' := Some m in
      if negb (match text_of (get m' (CS "format")) with Some f => streq f FORMAT_NAME | None => false end) then None
      else if negb (jint m' (CS "version") 0 =? FORMAT_VERSION) then None
      else match text_of (get (get m' (CS "signing_key")) (CS "public_key")) with
      | None => None
      | Some pk =>
          if negb (is_some (key_id_of_public pk)) || negb (verify_manifest pk manifest sig) then None
          else
            let secrets_ok :=
              match get m' (CS "secrets") with
              | Some (DObject desc) =>
                  match ar_secrets a, text_of (get (Some (DObject desc)) (CS "sha256")) with
                  | Some sealed, Some sha => streq (sha_hex sealed) sha
                  | _, _ => false
                  end
              | _ => true
              end in
            if forallb (entry_ok a) (children (get m' (CS "entries"))) && secrets_ok then Some m else None
      end
  end.

Definition open_secrets (pass : cstr) (desc : option doc) (sealed : list Z) : option doc :=
  if negb (jint desc (CS "N") 0 =? SCRYPT_N) || negb (jint desc (CS "r") 0 =? SCRYPT_R) || negb (jint desc (CS "p") 0 =? SCRYPT_P) then None
  else
    salt ← text_of (get desc (CS "salt")) ≫= b64_decode;
    nonce ← text_of (get desc (CS "nonce")) ≫= b64_decode;
    if negb (length nonce =? 12)%nat then None
    else
      key ← scrypt pass salt SCRYPT_N SCRYPT_R SCRYPT_P;
      plain ← gcm_open key nonce sealed SECRETS_AD;
      cJSON_Parse plain.

Definition cmd_verify (pass : option cstr) (file : list Z) : bool :=
  match read_archive file with
  | None => false
  | Some (a, manifest, sig) =>
      match check_archive a manifest sig with
      | None => false
      | Some m =>
          match get (Some m) (CS "secrets"), pass with
          | Some (DObject desc), Some pass => is_some (open_secrets pass (Some (DObject desc)) (default [] (ar_secrets a)))
          | _, _ => true
          end
      end
  end.

(** ** Restoring *)

Definition aside_name (path suffix : list Z) : list Z := path ++ CS ".pre-restore-" ++ suffix.

Definition move_aside (ok : bool) (path suffix : list Z) (files : fs) : bool * fs :=
  match files !! path with
  | None => (true, files)
  | Some data => if ok then (true, <[aside_name path suffix := data]> (delete path files)) else (false, files)
  end.

(** What the restoration has done: the staged blobs that are left, the files of the site, failures. *)
Record restoring := Restoring { rs_stage : gmap (list Z) (list Z); rs_files : fs; rs_failed : Z }.

(** The rename of a staged blob to its place, the directories made. *)
Definition place_file (ok : bool) (src dst : list Z) (stage : gmap (list Z) (list Z)) (files : fs) : option (gmap (list Z) (list Z) * fs) :=
  match stage !! src with
  | Some data => if ok then Some (delete src stage, <[dst := data]> files) else None
  | None => None
  end.

(** The way is cleared for an entry; [ok] tells for each rename whether it succeeds. *)
Definition clear_way (ok : nat -> bool) (existing is_db : bool) (suffix path : list Z) (files : fs) : bool * fs :=
  if existing then
    let '(r, files) := move_aside (ok 0%nat) path suffix files in
    if r && is_db then
      let '(r, files) := move_aside (ok 1%nat) (path ++ CS "-wal") suffix files in
      if r : bool then move_aside (ok 2%nat) (path ++ CS "-shm") suffix files else (false, files)
    else (r, files)
  else (true, if is_db then delete (path ++ CS "-shm") (delete (path ++ CS "-wal") files) else files).

Definition restore_entry (existing : bool) (suffix : list Z) (st : restoring) (item : (nat -> bool) * doc) : restoring :=
  let '(ok, e) := item in
  let path := default [] (text_of (get (Some e) (CS "path"))) in
  let blob := default [] (text_of (get (Some e) (CS "blob"))) in
  let is_db := match text_of (get (Some e) (CS "kind")) with Some k => streq k (CS "db") | None => false end in
  let '(step_ok, files) := clear_way ok existing is_db suffix path (rs_files st) in
  match (if step_ok : bool then place_file (ok 3%nat) (drop 2 blob) path (rs_stage st) files else None) with
  | Some (stage, files) => Restoring stage files (rs_failed st)
  | None => Restoring (rs_stage st) files (rs_failed st + 1)
  end.

Definition restore_secret (existing : bool) (suffix : list Z) (st : restoring) (item : (nat -> bool) * doc) : restoring :=
  let '(ok, sf) := item in
  match text_of (get (Some sf) (CS "path")), text_of (get (Some sf) (CS "data")) ≫= b64_decode with
  | Some path, Some raw =>
      if negb (secret_path_ok path) then Restoring (rs_stage st) (rs_files st) (rs_failed st + 1)
      else
        let '(r, files) := if existing then move_aside (ok 0%nat) path suffix (rs_files st) else (true, rs_files st) in
        if r && ok 1%nat then Restoring (rs_stage st) (<[path := raw]> files) (rs_failed st) else Restoring (rs_stage st) files (rs_failed st + 1)
  | _, _ => Restoring (rs_stage st) (rs_files st) (rs_failed st + 1)
  end.

(** The operations of the n-th item. *)
Definition numbered_items (ok : nat -> nat -> bool) (l : list doc) : list ((nat -> bool) * doc) := imap (fun n e => (ok n, e)) l.

Definition put_checkpoint (ok : bool) (m : doc) (files : fs) : fs :=
  if ok then <[CS "data/.flywire_seq" := print_int match get (Some m) (CS "flywire_checkpoint") with Some (DNumber n) => n | _ => 0 end]> files else files.

(** The return code, 0 for success, and the site.  [ok_stage] is the staging directory, [ok] the
    entries, [ok_secrets] the secret files and [ok_seq] the checkpoint; [integrity_check] is SQLite's. *)
Definition cmd_restore (ok_stage : bool) (ok ok_secrets : nat -> nat -> bool) (ok_seq : bool) (integrity_check : list Z -> bool)
    (force : bool) (pass : option cstr) (suffix file : list Z) (files : fs) : Z * fs :=
  let existing := is_some (files !! CS "data/blog.db") in
  if existing && negb force then (1, files)
  else if negb ok_stage then (1, files)
  else match read_archive file with
  | None => (1, files)
  | Some (a, manifest, sig) =>
      match check_archive a manifest sig with
      | None => (1, files)
      | Some m =>
          let secrets :=
            match get (Some m) (CS "secrets"), pass with
            | Some (DObject desc), Some pass => Some (open_secrets pass (Some (DObject desc)) (default [] (ar_secrets a)))
            | _, _ => None
            end in
          match secrets with
          | Some None => (1, files)
          | _ =>
              let stage : gmap (list Z) (list Z) := list_to_map (map (fun b => (drop 2 (fst b), snd b)) (ar_blobs a)) in
              let st := foldl (restore_entry existing suffix) (Restoring stage files 0) (numbered_items ok (children (get (Some m) (CS "entries")))) in
              let st := foldl (restore_secret existing suffix) st (numbered_items ok_secrets (children (get (mjoin secrets) (CS "files")))) in
              let db_ok := match rs_files st !! CS "data/blog.db" with Some db => integrity_check db | None => false end in
              (if (0 <? rs_failed st) || negb db_ok then 1 else 0, put_checkpoint ok_seq m (rs_files st))
          end
      end
  end.

(** ** Numbers of a fixed width *)

Lemma length_digits_of base w n : length (digits_of base w n) = w.
Proof. revert n. induction w as [|w IH]; intros n; [done|]. cbn [digits_of]. rewrite length_app, IH. cbn. lia. Qed.

Lemma digits_of_bytes base w n : 0 < base <= 10 -> Forall (fun c => 48 <= c < 58) (digits_of base w n).
Proof.
  intros Hb. revert n. induction w as [|w IH]; intros n; [by constructor|]. cbn [digits_of]. apply Forall_app. split; [apply IH|].
  constructor; [|by constructor]. pose proof (Z.mod_pos_bound n base ltac:(lia)). lia.
Qed.

Lemma parse_digits_of w n v r : 0 <= n < 8 ^ Z.of_nat w -> parse_octal_from (digits_of 8 w n ++ r) v = parse_octal_from r (v * 8 ^ Z.of_nat w + n).
Proof.
  revert n v r. induction w as [|w IH]; intros n v r Hn; [cbn in *; f_equal; lia|]. cbn [digits_of]. rewrite Nat2Z.inj_succ, Z.pow_succ_r in * by lia.
  pose proof (Z.div_mod n 8 ltac:(lia)) as Hd. pose proof (Z.mod_pos_bound n 8 ltac:(lia)) as Hm.
  rewrite <- app_assoc, IH by (split; [apply Z.div_pos; lia|apply Z.div_lt_upper_bound; lia]). cbn [app parse_octal_from].
  replace ((48 <=? 48 + n `mod` 8) && (48 + n `mod` 8 <=? 55)) with true by lia. f_equal. lia.
Qed.

Lemma parse_octal_digits w n c r : 0 <= n < 8 ^ Z.of_nat w -> (c < 48 \/ 55 < c) -> parse_octal (digits_of 8 w n ++ c :: r) = n.
Proof.
  intros Hn Hc. unfold parse_octal. rewrite parse_digits_of by done. cbn [parse_octal_from]. replace ((48 <=? c) && (c <=? 55)) with false by lia. lia.
Qed.

Lemma digits_of_inj base w a b : 0 < base -> 0 <= a < base ^ Z.of_nat w -> 0 <= b < base ^ Z.of_nat w -> digits_of base w a = digits_of base w b -> a = b.
Proof.
  intros Hb. revert a b. induction w as [|w IH]; intros a b Ha Hc H; [cbn in *; lia|]. cbn [digits_of] in H. rewrite Nat2Z.inj_succ, Z.pow_succ_r in * by lia.
  apply app_inj_2 in H as [H1 H2]; [|done]. injection H2 as H2. apply IH in H1; [|split; [apply Z.div_pos; lia|apply Z.div_lt_upper_bound; lia]..].
  pose proof (Z.div_mod a base ltac:(lia)). pose proof (Z.div_mod b base ltac:(lia)). assert (a `mod` base = b `mod` base) by lia. congruence.
Qed.

(** ** A member is read back *)

Lemma length_tar_fields name size time sum : length sum = 8%nat -> length (tar_fields name size time sum) = 512%nat.
Proof.
  intros Hs. unfold tar_fields. rewrite !length_app, !length_digits_of, !length_replicate, Hs. rewrite length_pad_to by (rewrite length_take; lia). done.
Qed.

(** The fields before and after the sum. *)
Definition header_front (name : cstr) (size time : Z) : list Z :=
  pad_to 100 (take 99 name) ++ digits_of 8 7 420 ++ [0] ++ digits_of 8 7 0 ++ [0] ++ digits_of 8 7 0 ++ [0] ++
  digits_of 8 11 (Z.land size (Z.ones 33)) ++ [0] ++ digits_of 8 11 (Z.land (Z.max time 0) (Z.ones 33)) ++ [0].
Definition header_back : list Z := [48] ++ replicate 100 0 ++ CS "ustar" ++ [0] ++ CS "00" ++ replicate 247 0.

Lemma tar_fields_split name size time sum : tar_fields name size time sum = header_front name size time ++ sum ++ header_back.
Proof. unfold tar_fields, header_front, header_back. by rewrite <- !app_assoc. Qed.

Lemma length_header_front name size time : length (header_front name size time) = 148%nat.
Proof. unfold header_front. rewrite !length_app, !length_digits_of, length_pad_to by (rewrite length_take; lia). done. Qed.

Lemma zsum_bytes l : bytes l -> 0 <= zsum l <= 255 * zlen l.
Proof. induction 1 as [|b l Hb Hl IH]; [done|]. cbn [zsum foldr] in *. rewrite zlen_cons. unfold zsum in *. lia. Qed.

Lemma digits_bytes w n : bytes (digits_of 8 w n).
Proof. eapply Forall_impl; [apply (digits_of_bytes 8); lia|]. cbn. lia. Qed.

Lemma zeros_bytes n : bytes (replicate n 0).
Proof. apply Forall_replicate. lia. Qed.

Lemma header_front_bytes name size time : bytes name -> bytes (header_front name size time).
Proof.
  intros Hn. assert (Hz : bytes [0]) by (by constructor). unfold header_front, bytes.
  rewrite !Forall_app. split_and!; try apply digits_bytes; try done.
  unfold pad_to. apply Forall_app_2; [by apply Forall_take|apply zeros_bytes].
Qed.

Lemma header_back_bytes : bytes header_back /\ length header_back = 356%nat.
Proof. split; [|done]. unfold bytes. apply (bool_decide_unpack _). by vm_compute. Qed.

Lemma tar_header_parts name size time : bytes name -> exists sum, 0 <= sum < 8 ^ 6 /\
  zsum (header_front name size time) + 256 + zsum header_back = sum /\
  tar_header name size time = header_front name size time ++ (digits_of 8 6 sum ++ [0; 32]) ++ header_back.
Proof.
  intros Hn. exists (zsum (tar_fields name size time (replicate 8 32))). rewrite tar_fields_split, !zsum_app. change (zsum (replicate 8 32)) with 256.
  pose proof (zsum_bytes _ (header_front_bytes name size time Hn)) as H1. destruct header_back_bytes as [Hb Hl]. pose proof (zsum_bytes _ Hb) as H2.
  unfold zlen in *. rewrite length_header_front in H1. rewrite Hl in H2. change (8 ^ 6) with 262144. split; [lia|]. split; [lia|].
  unfold tar_header. by rewrite !tar_fields_split, !zsum_app.
Qed.

Lemma size_field name size time : exists A R, length A = 124%nat /\
  header_front name size time = A ++ digits_of 8 11 (Z.land size (Z.ones 33)) ++ [0] ++ R.
Proof.
  exists (pad_to 100 (take 99 name) ++ digits_of 8 7 420 ++ [0] ++ digits_of 8 7 0 ++ [0] ++ digits_of 8 7 0 ++ [0]), (digits_of 8 11 (Z.land (Z.max time 0) (Z.ones 33)) ++ [0]).
  split; [by rewrite !length_app, !length_digits_of, length_pad_to by (rewrite length_take; lia)|]. unfold header_front. by rewrite <- !app_assoc.
Qed.

Lemma tar_header_spec name size time : bytes name -> (length name <= 99)%nat -> 0 <= size < 8 ^ 11 ->
  length (tar_header name size time) = 512%nat /\ tar_header_valid (tar_header name size time) = true /\
  take 100 (tar_header name size time) = pad_to 100 name /\ parse_octal (take 12 (drop 124 (tar_header name size time))) = size.
Proof.
  intros Hn Hl Hs. destruct (tar_header_parts name size time Hn) as (sum & Hsum & Hz & ->).
  pose proof (length_header_front name size time) as Hf. destruct header_back_bytes as [_ Hlb].
  assert (Hmid : length (digits_of 8 6 sum ++ [0; 32]) = 8%nat) by (by rewrite length_app, length_digits_of). split_and!.
  - by rewrite length_app, length_app, Hf, Hmid, Hlb.
  - unfold tar_header_valid. set (mid := digits_of 8 6 sum ++ [0; 32]) in *. set (F := header_front name size time) in *.
    assert (E1 : take 148 (F ++ mid ++ header_back) = F) by (by apply take_app_length').
    assert (E2 : drop 148 (F ++ mid ++ header_back) = mid ++ header_back) by (by apply drop_app_length').
    assert (E3 : drop 156 (F ++ mid ++ header_back) = header_back) by (change 156%nat with (148 + 8)%nat; rewrite <- drop_drop, E2; by apply drop_app_length').
    assert (E4 : drop 257 (F ++ mid ++ header_back) = drop 101 header_back) by (change 257%nat with (156 + 101)%nat; by rewrite <- drop_drop, E3).
    assert (E5 : parse_octal (take 8 (mid ++ header_back)) = sum) by (rewrite take_app_length' by done; apply parse_octal_digits; [done|left; lia]).
    rewrite E1, E2, E3, E4, E5. apply andb_true_iff. split; [lia|by vm_compute].
  - rewrite take_app_le by (rewrite Hf; lia). unfold header_front. rewrite take_app_length' by (rewrite length_pad_to; [done|rewrite length_take; lia]).
    by rewrite take_ge.
  - destruct (size_field name size time) as (A & R & HA & ->). rewrite <- !app_assoc, drop_app_length' by done.
    rewrite app_assoc, take_app_length' by (by rewrite length_app, length_digits_of).
    rewrite Z.land_ones by lia. change (2 ^ 33) with (8 ^ 11). rewrite Z.mod_small by done. by apply parse_octal_digits; [|left].
Qed.

Lemma zr_read_app n a b : zlen a = n -> zr_read n (a ++ b) = Some (a, b).
Proof.
  intros <-. unfold zr_read. rewrite zlen_app. pose proof (zlen_nonneg b). replace (zlen a + zlen b <? zlen a) with false by lia.
  unfold zlen. by rewrite Nat2Z.id, take_app_length, drop_app_length.
Qed.

Lemma until_nul_app s r : 0 ∉ s -> until_nul (s ++ 0 :: r) = s.
Proof.
  induction s as [|c s IH]; intros Hs; [done|]. apply not_elem_of_cons in Hs as [Hc Hs]. cbn. replace (c =? 0) with false by lia. by rewrite IH.
Qed.

Lemma until_nul_pad name : 0 ∉ name -> (length name < 100)%nat -> until_nul (pad_to 100 name) = name.
Proof.
  intros Hn Hl. unfold pad_to. destruct (100 - length name)%nat as [|n] eqn:E; [lia|]. by apply until_nul_app.
Qed.

Lemma valid_not_zero h : tar_header_valid h = true -> forallb (Z.eqb 0) h = false.
Proof.
  unfold tar_header_valid. intros [_ Hu%streq_eq]%andb_true_iff. apply not_true_iff_false. intros Hz. rewrite forallb_forall in Hz.
  assert (Hin : h !! 257%nat = Some (CH "u")).
  { replace 257%nat with (257 + 0)%nat by lia. rewrite <- lookup_drop, <- (lookup_take_lt _ 5) by lia. by rewrite Hu. }
  apply list_elem_of_lookup_2, list_elem_of_In in Hin. by specialize (Hz _ Hin).
Qed.

(** What an archive becomes with one more member. *)
Definition stored (a : archive_read) (name : cstr) (data : list Z) : archive_read :=
  if blob_name_ok name then ArchiveRead (ar_blobs a ++ [(name, data)]) (ar_manifest a) (ar_signature a) (ar_secrets a)
  else if streq name (CS "manifest.json") then ArchiveRead (ar_blobs a) (Some data) (ar_signature a) (ar_secrets a)
  else if streq name (CS "manifest.sig") then ArchiveRead (ar_blobs a) (ar_manifest a) (Some (sig_line data)) (ar_secrets a)
  else ArchiveRead (ar_blobs a) (ar_manifest a) (ar_signature a) (Some data).

(** A member the archive can take. *)
Definition takes (a : archive_read) (name : cstr) (data : list Z) : Prop :=
  find_blob a name = None /\
  (blob_name_ok name = true \/ (name = CS "secrets.enc" /\ ar_secrets a = None /\ zlen data <= MAX_SECRETS) \/
   (name = CS "manifest.json" /\ ar_manifest a = None /\ zlen data <= MAX_MANIFEST) \/ (name = CS "manifest.sig" /\ ar_signature a = None /\ zlen data <= 16384)).

Lemma blob_name_chars name : blob_name_ok name = true -> length name = 8%nat /\ (0 ∉ name) /\ bytes name.
Proof.
  unfold blob_name_ok. intros [[H1 H2%Nat.eqb_eq]%andb_true_iff H3]%andb_true_iff. split; [done|].
  apply starts_with_spec in H1 as [r ->]. change (drop 2 (CS "b/" ++ r)) with r in H3. rewrite forallb_forall in H3.
  assert (Hr : Forall (fun c => 48 <= c <= 57) r).
  { apply Forall_forall. intros c Hc. apply list_elem_of_In, H3 in Hc. unfold isdigit in Hc. lia. }
  split.
  - change (CS "b/" ++ r) with (98 :: 47 :: r). intros [H|[H|H]%elem_of_cons]%elem_of_cons; [done|done|]. rewrite Forall_forall in Hr. specialize (Hr _ H). cbn in Hr. lia.
  - change (CS "b/" ++ r) with (98 :: 47 :: r). do 2 (constructor; [lia|]). eapply Forall_impl; [exact Hr|]. cbn. lia.
Qed.

Lemma takes_chars a name data : takes a name data -> (length name <= 99)%nat /\ (0 ∉ name) /\ bytes name.
Proof.
  intros [_ [H|[(-> & _)|[(-> & _)|(-> & _)]]]].
  - apply blob_name_chars in H as (-> & ? & ?). split; [lia|done].
  - split; [cbn; lia|]. split; [|apply (bool_decide_unpack _); by vm_compute]. apply (bool_decide_unpack _). by vm_compute.
  - split; [cbn; lia|]. split; [|apply (bool_decide_unpack _); by vm_compute]. apply (bool_decide_unpack _). by vm_compute.
  - split; [cbn; lia|]. split; [|apply (bool_decide_unpack _); by vm_compute]. apply (bool_decide_unpack _). by vm_compute.
Qed.

Lemma tar_pad_range n : 0 <= tar_pad n < 512.
Proof. unfold tar_pad. apply Z.mod_pos_bound. lia. Qed.

Lemma zlen_zeros n : 0 <= n -> zlen (replicate (Z.to_nat n) 0) = n.
Proof. intros Hn. unfold zlen. rewrite length_replicate. lia. Qed.

(** The reader finds the member the writer put. *)
Lemma read_one_put a name data time rest : takes a name data -> zlen data <= Z.ones 33 ->
  read_one a (tar_put name data time ++ rest) = Read_member (stored a name data) rest.
Proof.
  intros Ht Hs. destruct (takes_chars _ _ _ Ht) as (Hl & H0 & Hb). pose proof (zlen_nonneg data).
  destruct (tar_header_spec name (zlen data) time Hb Hl ltac:(change (Z.ones 33) with (8 ^ 11 - 1) in Hs; lia)) as (Hhl & Hv & Hname & Hsize).
  unfold tar_put. rewrite <- !app_assoc. unfold read_one. rewrite (zr_read_app 512) by exact (f_equal Z.of_nat Hhl).
  rewrite valid_not_zero by done. rewrite Hv. cbn [negb]. rewrite Hname, until_nul_pad by (done || lia). rewrite Hsize.
  destruct Ht as [Hf Hk]. rewrite Hf. cbn [is_some orb].
  rewrite (zr_read_app (zlen data)) by done. pose proof (tar_pad_range (zlen data)).
  rewrite (zr_read_app (tar_pad (zlen data))) by (apply zlen_zeros; lia).
  unfold stored. destruct Hk as [Hk|[(-> & Hn & Hm)|[(-> & Hn & Hm)|(-> & Hn & Hm)]]].
  - destruct (blob_name_chars _ Hk) as (Hlen & _). rewrite Hk. cbn [negb andb].
    assert (E : forall s, length s <> 8%nat -> streq name s = false) by (intros s Hne; apply streq_neq; intros ->; lia).
    by rewrite !E by (cbn; lia).
  - rewrite Hn. cbn [is_some]. replace (MAX_SECRETS <? zlen data) with false by lia. done.
  - rewrite Hn. cbn [is_some]. replace (MAX_MANIFEST <? zlen data) with false by lia. done.
  - rewrite Hn. cbn [is_some]. replace (16384 <? zlen data) with false by lia. done.
Qed.

(** ** A stream of members is read back *)

Fixpoint takes_all (a : archive_read) (ms : list (list Z * list Z * Z)) : Prop :=
  match ms with
  | [] => True
  | (name, data, _) :: ms => takes a name data /\ zlen data <= Z.ones 33 /\ takes_all (stored a name data) ms
  end.
Definition put_all (ms : list (list Z * list Z * Z)) : list Z := concat (map (fun m => tar_put (fst (fst m)) (snd (fst m)) (snd m)) ms).
Definition store_all (a : archive_read) (ms : list (list Z * list Z * Z)) : archive_read := foldl (fun a m => stored a (fst (fst m)) (snd (fst m))) a ms.

Lemma put_all_app ms ms' : put_all (ms ++ ms') = put_all ms ++ put_all ms'.
Proof. unfold put_all. by rewrite map_app, concat_app. Qed.

Lemma takes_all_app a ms ms' : takes_all a (ms ++ ms') <-> takes_all a ms /\ takes_all (store_all a ms) ms'.
Proof.
  revert a. induction ms as [|[[name data] time] ms IH]; intros a; cbn; [tauto|]. rewrite IH. unfold store_all. cbn. tauto.
Qed.

Lemma read_all ms : forall fuel a rest, takes_all a ms -> (length ms <= fuel)%nat ->
  read_members fuel a (put_all ms ++ rest) = read_members (fuel - length ms) (store_all a ms) rest.
Proof.
  induction ms as [|[[name data] time] ms IH]; intros fuel a rest Ht Hf; [cbn; by rewrite Nat.sub_0_r|].
  destruct Ht as (Ht & Hs & Ht'). destruct fuel as [|fuel]; [cbn in Hf; lia|]. unfold put_all. cbn [map concat fst snd]. rewrite <- app_assoc.
  cbn [read_members]. rewrite read_one_put by done. fold (put_all ms). rewrite IH by (done || cbn in Hf; lia). done.
Qed.

Lemma length_put_all ms : (length ms <= length (put_all ms))%nat.
Proof.
  induction ms as [|m ms IH]; [done|]. unfold put_all. cbn [map concat]. rewrite length_app. fold (put_all ms).
  unfold tar_put, tar_header. rewrite length_app, length_tar_fields by (by rewrite length_app, length_digits_of). cbn. lia.
Qed.

Lemma read_stream a ms : takes_all a ms -> read_members (S (length (put_all ms ++ replicate 1024 0))) a (put_all ms ++ replicate 1024 0) = Some (store_all a ms).
Proof.
  intros Ht. pose proof (length_put_all ms). rewrite read_all by (done || rewrite length_app; lia).
  replace (S _ - length ms)%nat with (S (length (put_all ms ++ replicate 1024 0) - length ms)) by (rewrite length_app; lia).
  cbn [read_members]. by replace (read_one (store_all a ms) (replicate 1024 0)) with Read_end by (by vm_compute).
Qed.

(** ** The numbered blobs *)

Definition blob_name (n : nat) : list Z := CS "b/" ++ digits_of 10 6 (Z.of_nat n + 1).
Definition blob_members (l : list (list Z * Z)) : list (list Z * list Z * Z) := imap (fun n d => (blob_name n, fst d, snd d)) l.
Definition named (l : list (list Z * Z)) : list (list Z * list Z) := imap (fun n d => (blob_name n, fst d)) l.

Lemma blob_name_is_ok n : blob_name_ok (blob_name n) = true.
Proof.
  unfold blob_name_ok, blob_name. rewrite starts_with_app, length_app, length_digits_of. change (length (CS "b/") + 6 =? 8)%nat with true. cbn [andb].
  change (drop 2 (CS "b/" ++ digits_of 10 6 (Z.of_nat n + 1))) with (digits_of 10 6 (Z.of_nat n + 1)). apply forallb_forall. intros c Hc%list_elem_of_In.
  pose proof (digits_of_bytes 10 6 (Z.of_nat n + 1) ltac:(lia)) as H. rewrite Forall_forall in H. specialize (H c Hc). unfold isdigit. cbn in H. lia.
Qed.

Lemma digits_lower w n : map tolower (digits_of 10 w n) = digits_of 10 w n.
Proof.
  rewrite <- (map_id (digits_of 10 w n)) at 2. apply map_ext_in. intros c Hc%list_elem_of_In.
  pose proof (digits_of_bytes 10 w n ltac:(lia)) as H. rewrite Forall_forall in H. specialize (H c Hc). cbn in H. unfold tolower, isupper.
  by replace (_ && _) with false by lia.
Qed.

Lemma blob_name_inj m n : Z.of_nat m < 999999 -> Z.of_nat n < 999999 -> strcaseeq (blob_name m) (blob_name n) = true -> m = n.
Proof.
  intros Hm Hn H. unfold strcaseeq, blob_name in H. rewrite !map_app, !digits_lower in H. apply streq_eq, app_inv_head in H.
  apply digits_of_inj in H; [lia|lia|..]; change (10 ^ Z.of_nat 6) with 1000000; lia.
Qed.

Lemma find_named l n : zlen l <= 999999 -> Z.of_nat n < 999999 ->
  List.find (fun b => strcaseeq (fst b) (blob_name n)) (named l) = (fun d => (blob_name n, fst d)) <$> l !! n.
Proof.
  intros Hl Hn. destruct (l !! n) as [d|] eqn:E; cbn [fmap option_fmap option_map].
  - assert (Hin : named l !! n = Some (blob_name n, fst d)) by (unfold named; by rewrite list_lookup_imap, E).
    destruct (List.find _ (named l)) as [b|] eqn:F.
    + apply find_some in F as [Hb%list_elem_of_In Eb]. apply list_elem_of_lookup in Hb as [m Hm]. pose proof Hm as Hm'. unfold named in Hm.
      rewrite list_lookup_imap in Hm. destruct (l !! m) as [d'|] eqn:E'; [|done]. injection Hm as <-. cbn [fst] in Eb.
      pose proof (lookup_lt_Some _ _ _ E'). apply blob_name_inj in Eb as ->; [congruence|unfold zlen in Hl; lia|done].
    + apply list_elem_of_lookup_2, list_elem_of_In in Hin. apply (find_none _ _ F) in Hin. cbn [fst] in Hin. unfold strcaseeq in Hin. by rewrite streq_refl in Hin.
  - destruct (List.find _ (named l)) as [b|] eqn:F; [|done]. exfalso.
    apply find_some in F as [Hb%list_elem_of_In Eb]. apply list_elem_of_lookup in Hb as [m Hm]. unfold named in Hm.
    rewrite list_lookup_imap in Hm. destruct (l !! m) as [d'|] eqn:E'; [|done]. injection Hm as <-. cbn [fst] in Eb.
    pose proof (lookup_lt_Some _ _ _ E'). apply blob_name_inj in Eb as ->; [congruence|unfold zlen in Hl; lia|done].
Qed.

Lemma imap_snoc {A B} (f : nat -> A -> B) l x : imap f (l ++ [x]) = imap f l ++ [f (length l) x].
Proof. rewrite imap_app. cbn. by rewrite Nat.add_0_r. Qed.

Lemma take_blobs l : zlen l <= 999999 -> Forall (fun d => zlen (fst d) <= Z.ones 33) l ->
  takes_all no_archive (blob_members l) /\ store_all no_archive (blob_members l) = ArchiveRead (named l) None None None.
Proof.
  induction l as [|[d t] l IH] using rev_ind; intros Hl Hs; [done|]. rewrite zlen_app, zlen_cons, zlen_nil in Hl. apply Forall_app in Hs as [Hs Hd].
  destruct (IH ltac:(lia) Hs) as [Ht He]. unfold blob_members. rewrite imap_snoc. fold (blob_members l). cbn [fst snd]. split.
  - apply takes_all_app. split; [done|]. rewrite He. cbn [takes_all]. split_and!; [|by apply Forall_cons in Hd as [? _]|done]. split.
    + unfold find_blob. cbn [ar_blobs]. rewrite find_named by (unfold zlen in *; lia). by rewrite lookup_ge_None_2.
    + left. apply blob_name_is_ok.
  - unfold store_all in *. rewrite foldl_app, He. cbn [foldl fst snd]. unfold stored. rewrite blob_name_is_ok. unfold named. by rewrite imap_snoc.
Qed.

(** The parts after the blobs. *)
Definition tail_members (sealed : option (list Z)) (manifest sig : list Z) (now : Z) : list (list Z * list Z * Z) :=
  match sealed with Some s => [(CS "secrets.enc", s, now)] | None => [] end ++ [(CS "manifest.json", manifest, now); (CS "manifest.sig", sig, now)].

Lemma blob_is_not name l : zlen l <= 999999 -> (forall n, strcaseeq (blob_name n) name = false) -> List.find (fun b => strcaseeq (fst b) name) (named l) = None.
Proof.
  intros Hl Hn. destruct (List.find _ _) as [b|] eqn:F; [|done]. apply find_some in F as [Hb%list_elem_of_In Eb].
  apply list_elem_of_lookup in Hb as [m Hm]. unfold named in Hm. rewrite list_lookup_imap in Hm. destruct (l !! m); [|done]. injection Hm as <-. cbn [fst] in Eb. by rewrite Hn in Eb.
Qed.

Lemma read_backup l sealed manifest sig now : zlen l <= 999999 -> Forall (fun d => zlen (fst d) <= Z.ones 33) l ->
  match sealed with Some s => zlen s <= MAX_SECRETS | None => True end -> zlen manifest <= MAX_MANIFEST -> zlen sig <= 16384 ->
  let s := put_all (blob_members l) ++ put_all (tail_members sealed manifest sig now) ++ replicate 1024 0 in
  read_members (S (length s)) no_archive s = Some (ArchiveRead (named l) (Some manifest) (Some (sig_line sig)) sealed).
Proof.
  intros Hl Hs Hsec Hm Hsig. cbv zeta. rewrite app_assoc, <- put_all_app. destruct (take_blobs l Hl Hs) as [Ht He].
  assert (Hb : forall n c r, tolower c <> 98 -> strcaseeq (blob_name n) (c :: r) = false).
  { intros n c r Hc. apply streq_neq. change (blob_name n) with (98 :: 47 :: digits_of 10 6 (Z.of_nat n + 1)). cbn [map]. intros E. injection E as E _. by apply Hc. }
  assert (Hfind : forall c r m g q, tolower c <> 98 -> find_blob (ArchiveRead (named l) m g q) (c :: r) = None).
  { intros c r m g q Hc. unfold find_blob. cbn [ar_blobs]. rewrite blob_is_not; [done..|]. intros n. by apply Hb. }
  rewrite read_stream.
  - unfold store_all in *. rewrite foldl_app, He. by destruct sealed.
  - apply takes_all_app. split; [done|]. rewrite He. unfold tail_members, MAX_SECRETS, MAX_MANIFEST in *.
    destruct sealed as [s|]; cbn; split_and!; try done; try (change (Z.ones 33) with 8589934591; lia); split; try (by apply Hfind); auto 10.
Qed.

(** ** What a backup writes *)

(** A member: the path it restores, its content, time and kind. *)
Record saved := Saved { sv_path : list Z; sv_data : list Z; sv_time : Z; sv_kind : list Z }.

Definition put_item (c : backup_ctx) (s : saved) : backup_ctx :=
  let blob := CS "b/" ++ digits_of 10 6 (bc_next_blob c + 1) in
  BackupCtx (bc_stream c ++ tar_put blob (sv_data s) (sv_time s)) (bc_entries c ++ [entry_doc (sv_path s) blob (sv_data s) (sv_kind s)])
    (bc_next_blob c + 1) (bc_bytes c + zlen (sv_data s)) (bc_files c + 1).

Definition adds (c : backup_ctx) (l : list saved) (c' : backup_ctx) : Prop :=
  c' = foldl put_item c l /\ Forall (fun s => zlen (sv_data s) <= Z.ones 33) l /\ (bc_next_blob c <= 999999 -> bc_next_blob c' <= 999999).

Lemma items_app c l c' l' c'' : adds c l c' -> adds c' l' c'' -> adds c (l ++ l') c''.
Proof. intros (-> & H1 & H2) (-> & H3 & H4). split; [by rewrite foldl_app|]. split; [by apply Forall_app|tauto]. Qed.

Lemma adds_nil c : adds c [] c.
Proof. done. Qed.

Lemma add_entry_adds p d t k c c' : add_entry p (Some d) t k c = Some c' -> adds c [Saved p d t k] c'.
Proof.
  unfold add_entry. cbv zeta. destruct (Z.ltb_spec 999999 (bc_next_blob c + 1)); [done|]. destruct (Z.ltb_spec (Z.ones 33) (zlen d)); [done|].
  intros [= <-]. split; [done|]. split; [by constructor|]. cbn. lia.
Qed.

Lemma each_none {A} (f : A -> backup_ctx -> option backup_ctx) l : each f l None = None.
Proof. by induction l. Qed.

Lemma each_adds {A} (f : A -> backup_ctx -> option backup_ctx) (g : A -> list saved) (P : A -> Prop) l :
  (forall x c c', f x c = Some c' -> adds c (g x) c' /\ P x) ->
  forall c c', each f l c = Some c' -> exists c0, c = Some c0 /\ adds c0 (concat (map g l)) c' /\ Forall P l.
Proof.
  intros Hf. induction l as [|x l IH]; intros c c' H; [exists c'; split; [done|]; split; [apply adds_nil|done]|].
  unfold each in H. cbn [foldl] in H. destruct c as [c|]; [|cbn in H; pose proof (each_none f l) as Hn; unfold each in Hn; by rewrite Hn in H].
  cbn in H. apply IH in H as (c0 & H0 & Ha & Hl). destruct (Hf x c c0 H0) as [Hx Hp]. exists c. split; [done|]. split; [by eapply items_app|by constructor].
Qed.

(** The files below a directory, in the order they are added. *)
Definition walk_name (go : list Z -> list (list Z)) (site : fs) (dir name : list Z) : list (list Z) :=
  if streq name (CS ".") || streq name (CS "..") then []
  else if is_dir site (in_dir dir name) then go (in_dir dir name)
  else match site !! in_dir dir name with Some _ => [in_dir dir name] | None => [] end.
Fixpoint walk (fuel : nat) (site : fs) (dir : list Z) : list (list Z) :=
  match fuel with O => [] | S fuel => concat (map (walk_name (walk fuel site) site dir) (scandir site dir)) end.
Definition listing (site : fs) (dir : list Z) : list (list Z) := walk PATH_MAX site dir.

Lemma concat_map_concat {A B C} (f : B -> list C) (g : A -> list B) l : concat (map f (concat (map g l))) = concat (map (fun x => concat (map f (g x))) l).
Proof. induction l as [|x l IH]; [done|]. cbn. by rewrite map_app, concat_app, IH. Qed.

Definition db_item (site : fs) (path : list Z) : list saved :=
  match site !! path ≫= sqlite_snapshot with Some snap => [Saved path snap (snapshot_time path) (CS "db")] | None => [] end.
Definition file_item (site : fs) (kind path : list Z) : list saved :=
  match site !! path with Some data => [Saved path data (mtime path) kind] | None => [] end.
Definition saved_files (site : fs) : list saved :=
  concat (map (db_item site) k_db_paths) ++ concat (map (file_item site (CS "settings")) k_settings) ++
  concat (map (fun dir => concat (map (file_item site (CS "file")) (listing site dir))) k_file_dirs).

Lemma add_dir_adds site fuel : forall dir c c', add_dir fuel site dir c = Some c' -> adds c (concat (map (file_item site (CS "file")) (walk fuel site dir))) c'.
Proof.
  induction fuel as [|fuel IH]; intros dir c c' H; [done|]. cbn [add_dir walk] in *.
  apply (each_adds _ (fun name => concat (map (file_item site (CS "file")) (walk_name (walk fuel site) site dir name))) (fun _ => True)) in H as (c0 & [= <-] & Ha & _).
  - by rewrite concat_map_concat.
  - intros name c1 c2 H1. split; [|done]. unfold walk_name. destruct (_ || _); [injection H1 as <-; apply adds_nil|].
    destruct (is_dir site (in_dir dir name)); [by apply IH|]. destruct (site !! in_dir dir name) as [d|] eqn:E; [|injection H1 as <-; apply adds_nil].
    cbn [map concat]. rewrite app_nil_r. unfold file_item. rewrite E. by apply add_entry_adds.
Qed.

Lemma collect_adds site c : collect site = Some c ->
  adds (BackupCtx [] [] 0 0 0) (saved_files site) c /\ Forall (fun p => forall db, site !! p = Some db -> is_Some (sqlite_snapshot db)) k_db_paths.
Proof.
  unfold collect. intros H.
  apply (each_adds _ (fun dir => concat (map (file_item site (CS "file")) (listing site dir))) (fun _ => True)) in H as (c2 & H2 & Ha2 & _).
  2:{ intros dir c0 c1 H1. split; [by apply add_dir_adds|done]. }
  apply (each_adds _ (file_item site (CS "settings")) (fun _ => True)) in H2 as (c1 & H1 & Ha1 & _).
  2:{ intros p c3 c4 H4. unfold file_item. unfold add_setting in H4. split; [|done]. destruct (site !! p) as [d|]; [by apply add_entry_adds|]. injection H4 as <-. apply adds_nil. }
  apply (each_adds _ (db_item site) (fun p => forall db, site !! p = Some db -> is_Some (sqlite_snapshot db))) in H1 as (c0 & [= <-] & Ha0 & Hl0).
  2:{ intros p c3 c4 H4. unfold db_item. unfold add_db in H4. destruct (site !! p) as [db|]; [|injection H4 as <-; split; [apply adds_nil|done]].
      cbn. destruct (sqlite_snapshot db) as [snap|] eqn:E; [|done]. split; [by apply add_entry_adds|]. intros db' [= <-]. by rewrite E. }
  split; [|done]. unfold saved_files. by eapply items_app; [|eapply items_app].
Qed.

Definition stored_entries (l : list saved) : list doc := imap (fun n s => entry_doc (sv_path s) (blob_name n) (sv_data s) (sv_kind s)) l.
Definition contents (l : list saved) : list (list Z * Z) := map (fun s => (sv_data s, sv_time s)) l.

Lemma put_all_one name data time : put_all [(name, data, time)] = tar_put name data time.
Proof. unfold put_all. cbn [map concat fst snd]. apply app_nil_r. Qed.

Lemma put_all_items l :
  foldl put_item (BackupCtx [] [] 0 0 0) l =
  BackupCtx (put_all (blob_members (contents l))) (stored_entries l) (zlen l) (zsum (map (fun s => zlen (sv_data s)) l)) (zlen l).
Proof.
  induction l as [|s l IH] using rev_ind; [done|]. rewrite foldl_app, IH. cbn [foldl]. unfold put_item. cbn [bc_stream bc_entries bc_next_blob bc_bytes bc_files].
  unfold stored_entries, contents, blob_members. rewrite map_app. cbn [map]. rewrite !imap_snoc, put_all_app, length_map, map_app, zsum_app, zlen_app. cbn [map fst snd].
  rewrite put_all_one. f_equal. cbn. lia.
Qed.

(** ** What the check of a backup sees *)

(** What is relied on of the keys. *)
Class ManifestLaws : Prop := {
  ml_own : forall id, own_key_id = Some id -> exists pk, own_public_key = Some pk /\ is_Some (key_id_of_public pk);
  ml_sign : forall msg sig pk, sign_manifest msg = Some sig -> own_public_key = Some pk -> verify_manifest pk msg sig = true;
  ml_line : forall msg sig, sign_manifest msg = Some sig -> sig_line sig = sig /\ zlen sig <= 16384;
}.
Context `{laws : ManifestLaws}.

Lemma manifest_get r id pk c secrets :
  let m := Some (manifest_doc r id pk c secrets) in
  get m (CS "format") = Some (DString FORMAT_NAME) /\ jint m (CS "version") 0 = FORMAT_VERSION /\
  get (get m (CS "signing_key")) (CS "public_key") = Some (DString pk) /\ get m (CS "entries") = Some (DArray (bc_entries c)) /\
  get m (CS "secrets") = DObject <$> secrets /\ get m (CS "flywire_checkpoint") = Some (DNumber (sr_checkpoint r)).
Proof. destruct secrets; by vm_compute. Qed.

Definition restorable (s : saved) : Prop := restore_path_ok (sv_path s) = true /\ secret_path_ok (sv_path s) = false.

Lemma find_contents l n s a : zlen l <= 999999 -> ar_blobs a = named (contents l) -> l !! n = Some s -> find_blob a (blob_name n) = Some (sv_data s).
Proof.
  intros Hl Ha Hs. pose proof (lookup_lt_Some _ _ _ Hs). unfold find_blob. rewrite Ha, find_named by (unfold contents, zlen in *; rewrite ?length_map; lia).
  unfold contents. by rewrite list_lookup_fmap, Hs.
Qed.

Lemma entries_pass l a : zlen l <= 999999 -> ar_blobs a = named (contents l) -> Forall restorable l -> forallb (entry_ok a) (stored_entries l) = true.
Proof.
  intros Hl Ha Hr. apply forallb_forall. intros e He%list_elem_of_In. apply list_elem_of_lookup in He as [n Hn]. unfold stored_entries in Hn.
  rewrite list_lookup_imap in Hn. destruct (l !! n) as [s|] eqn:E; [|done]. injection Hn as <-.
  destruct (proj1 (Forall_lookup _ _) Hr n s E) as [Hp Hsec].
  change (entry_ok a (entry_doc (sv_path s) (blob_name n) (sv_data s) (sv_kind s))) with
    (restore_path_ok (sv_path s) && negb (secret_path_ok (sv_path s)) &&
     match find_blob a (blob_name n) with
     | Some data => streq (sha_hex (sv_data s)) (sha_hex data) && (to_int (zlen data) =? to_int (zlen (sv_data s)))
     | None => false end).
  rewrite Hp, Hsec, (find_contents l n s) by done. by rewrite streq_refl, Z.eqb_refl.
Qed.

(** ** The entries in their places *)

Definition stage_key (n : nat) : list Z := drop 2 (blob_name n).

Lemma stage_key_inj m n : Z.of_nat m < 999999 -> Z.of_nat n < 999999 -> stage_key m = stage_key n -> m = n.
Proof.
  intros Hm Hn H. apply blob_name_inj; [done..|]. unfold strcaseeq. change (blob_name m) with (CS "b/" ++ stage_key m). rewrite H. apply streq_refl.
Qed.

Definition place (files : fs) (s : saved) : fs :=
  <[sv_path s := sv_data s]> (if streq (sv_kind s) (CS "db") then delete (sv_path s ++ CS "-shm") (delete (sv_path s ++ CS "-wal") files) else files).

Definition staged (l : list saved) : gmap (list Z) (list Z) := list_to_map (map (fun b => (drop 2 (fst b), snd b)) (named (contents l))).

Lemma staged_lookup l n s : zlen l <= 999999 -> l !! n = Some s -> staged l !! stage_key n = Some (sv_data s).
Proof.
  intros Hl Hs. assert (E : forall i, map (fun b => (drop 2 (fst b), snd b)) (named (contents l)) !! i = (fun s => (stage_key i, sv_data s)) <$> l !! i).
  { intros i. unfold named, contents. rewrite list_lookup_fmap, list_lookup_imap, list_lookup_fmap. by destruct (l !! i). }
  unfold staged. apply elem_of_list_to_map_1.
  - apply NoDup_alt. intros i j k. rewrite (list_lookup_fmap fst _ i), (list_lookup_fmap fst _ j), !E.
    destruct (l !! i) as [s1|] eqn:E1; [|done]. destruct (l !! j) as [s2|] eqn:E2; [|done]. cbn [fmap option_fmap option_map fst]. intros [= H1] [= H2].
    pose proof (lookup_lt_Some _ _ _ E1). pose proof (lookup_lt_Some _ _ _ E2). unfold zlen in Hl. apply stage_key_inj; [lia|lia|congruence].
  - apply list_elem_of_lookup. exists n. by rewrite E, Hs.
Qed.

(** A restoration of the entries in which everything succeeds. *)
Lemma restore_items suffix files l1 l2 ok : zlen (l1 ++ l2) <= 999999 -> (forall n, ok n 3%nat = true) ->
  exists stage, foldl (restore_entry false suffix) (Restoring (staged (l1 ++ l2)) files 0) (numbered_items ok (stored_entries l1)) =
                Restoring stage (foldl place files l1) 0 /\ forall n, (length l1 <= n)%nat -> Z.of_nat n < 999999 -> stage !! stage_key n = staged (l1 ++ l2) !! stage_key n.
Proof.
  revert l2. induction l1 as [|s l1 IH] using rev_ind; intros l2 Hl Hok; [by exists (staged l2)|]. rewrite <- app_assoc in *.
  destruct (IH ([s] ++ l2) Hl Hok) as (stage & Hf & Hst). set (l := l1 ++ [s] ++ l2) in *.
  assert (Hs : l !! length l1 = Some s) by (unfold l; rewrite lookup_app_r by done; by rewrite Nat.sub_diag).
  pose proof (lookup_lt_Some _ _ _ Hs) as Hlt. exists (delete (stage_key (length l1)) stage).
  unfold numbered_items, stored_entries in *. rewrite imap_snoc, imap_snoc, foldl_app, Hf, length_imap. cbn [foldl].
  assert (Hn : Z.of_nat (length l1) < 999999) by (unfold zlen in Hl; lia).
  assert (Hdata : stage !! stage_key (length l1) = Some (sv_data s)) by (rewrite Hst by done; by apply staged_lookup). split.
  - rewrite foldl_app. cbn [foldl]. unfold restore_entry.
    change (default [] (text_of (get (Some (entry_doc (sv_path s) (blob_name (length l1)) (sv_data s) (sv_kind s))) (CS "path")))) with (sv_path s).
    change (drop 2 (default [] (text_of (get (Some (entry_doc (sv_path s) (blob_name (length l1)) (sv_data s) (sv_kind s))) (CS "blob"))))) with (stage_key (length l1)).
    change (text_of (get (Some (entry_doc (sv_path s) (blob_name (length l1)) (sv_data s) (sv_kind s))) (CS "kind"))) with (Some (sv_kind s)).
    cbn [clear_way rs_files rs_stage rs_failed]. unfold place_file. rewrite Hdata, Hok. done.
  - intros n Hn1 Hn2. rewrite length_app in Hn1. cbn in Hn1. rewrite lookup_delete_ne; [apply Hst; lia|].
    intros E. apply stage_key_inj in E; [lia|done..].
Qed.

(** ** What a restoration leaves *)

(** The files that belong to a database. *)
Definition side_of (db p : list Z) : bool := streq p (db ++ CS "-wal") || streq p (db ++ CS "-shm").
Definition side_of_saved (s : saved) (p : list Z) : bool := streq (sv_kind s) (CS "db") && side_of (sv_path s) p.

Lemma place_lookup (copy : list Z -> option (list Z)) l files p :
  Forall (fun s => copy (sv_path s) = Some (sv_data s) /\ forall q, side_of_saved s q = true -> copy q = None) l ->
  foldl place files l !! p = if bool_decide (p ∈ map sv_path l) then copy p else if existsb (fun s => side_of_saved s p) l then None else files !! p.
Proof.
  induction l as [|s l IH] using rev_ind; intros Hl; [done|]. apply Forall_app in Hl as [Hl [[Hs Hside] _]%Forall_cons]. specialize (IH Hl).
  rewrite foldl_app, map_app, existsb_app. cbn [foldl map existsb]. rewrite orb_false_r. unfold place at 1.
  destruct (decide (p = sv_path s)) as [->|Hne].
  - rewrite lookup_insert_eq, bool_decide_true; [done|]. apply elem_of_app. right. by left.
  - rewrite lookup_insert_ne by done. rewrite (bool_decide_ext _ (p ∈ map sv_path l)) by (rewrite elem_of_app, list_elem_of_singleton; tauto).
    unfold side_of_saved, side_of at 2. destruct (streq (sv_kind s) (CS "db")) eqn:Ek; cbn [andb]; [|by rewrite IH, orb_false_r].
    assert (Hcp : side_of (sv_path s) p = true -> p ∉ map sv_path l).
    { intros E Hin. apply list_elem_of_In, in_map_iff in Hin as (s' & <- & Hin%list_elem_of_In). rewrite Forall_forall in Hl. destruct (Hl _ Hin) as [Hc _].
      rewrite Hside in Hc; [done|]. unfold side_of_saved. by rewrite Ek. }
    destruct (decide (p = sv_path s ++ CS "-shm")) as [E|Hshm].
    { subst p. rewrite lookup_delete_eq. assert (Hsd : side_of (sv_path s) (sv_path s ++ CS "-shm") = true) by (unfold side_of; by rewrite streq_refl, orb_true_r).
      rewrite bool_decide_false by (by apply Hcp). rewrite streq_refl, !orb_true_r. done. }
    rewrite lookup_delete_ne by done. destruct (decide (p = sv_path s ++ CS "-wal")) as [E|Hwal].
    { subst p. rewrite lookup_delete_eq. assert (Hsd : side_of (sv_path s) (sv_path s ++ CS "-wal") = true) by (unfold side_of; by rewrite streq_refl).
      rewrite bool_decide_false by (by apply Hcp). rewrite streq_refl. cbn [orb]. rewrite orb_true_r. done. }
    rewrite lookup_delete_ne by done. rewrite (proj2 (streq_neq p _) Hshm), (proj2 (streq_neq p _) Hwal). cbn [orb]. by rewrite orb_false_r.
Qed.

(** What a backup keeps of a path. *)
Definition saved_copy (site : fs) (p : list Z) : option (list Z) :=
  if existsb (streq p) k_db_paths then site !! p ≫= sqlite_snapshot
  else if existsb (streq p) k_settings || existsb (under_dir p) k_file_dirs then site !! p else None.

Definition scans (site : fs) : Prop := forall dir p, p ∈ listing site dir <-> under_dir p dir = true /\ is_Some (site !! p).

(** The end of a path after one of its names. *)
Definition path_rest (r : list Z) : Prop := match r with [] => True | c :: _ => c = CH "/" end.

(** What is relied on of [scandir], and what holds of the paths of files. *)
Record tree_ok (site : fs) : Prop := {
  to_names : forall dir name, name ∈ scandir site dir <-> name = CS "." \/ name = CS ".." \/
    (name <> [] /\ (CH "/" ∉ name) /\ exists r, path_rest r /\ is_Some (site !! (dir ++ CS "/" ++ name ++ r)));
  to_paths : forall dir name r, is_Some (site !! (dir ++ CS "/" ++ name ++ r)) -> CH "/" ∉ name -> path_rest r -> name <> [] /\ name <> CS "." /\ name <> CS "..";
  to_files : forall p r, is_Some (site !! p) -> site !! (p ++ CS "/" ++ r) = None;
  to_length : forall p, is_Some (site !! p) -> (length p < PATH_MAX)%nat;
}.

Lemma under_dir_spec p dir : under_dir p dir = true <-> exists r, r <> [] /\ p = dir ++ CS "/" ++ r.
Proof.
  unfold under_dir. rewrite andb_true_iff, Nat.ltb_lt. split.
  - intros [[r ->]%starts_with_spec Hl]. exists r. rewrite !length_app in Hl. cbn in Hl. rewrite <- app_assoc. split; [|done]. intros ->. cbn in Hl. lia.
  - intros (r & Hr & ->). rewrite app_assoc, starts_with_app, !length_app. split; [done|]. destruct r; [done|]. cbn. lia.
Qed.

Lemma is_dir_spec site path : is_dir site path = true <-> exists p, is_Some (site !! p) /\ under_dir p path = true.
Proof.
  unfold is_dir. rewrite existsb_exists. split.
  - intros ([p d] & Hin%list_elem_of_In%elem_of_map_to_list & Hu). exists p. by split; [eexists|].
  - intros (p & [d Hd] & Hu). exists (p, d). split; [|done]. by apply list_elem_of_In, elem_of_map_to_list.
Qed.

Lemma first_name (s : list Z) : exists name r, s = name ++ r /\ (CH "/" ∉ name) /\ path_rest r.
Proof.
  induction s as [|c s (name & r & -> & Hn & Hr)]; [exists [], []; split_and!; [done|apply not_elem_of_nil|done]|].
  destruct (decide (c = CH "/")) as [-> |Hc]; [exists [], (CH "/" :: name ++ r); split_and!; [done|apply not_elem_of_nil|done]|].
  exists (c :: name), r. split_and!; [done| |done]. by apply not_elem_of_cons.
Qed.

Lemma under_in_dir p dir name : name <> [] -> under_dir p (in_dir dir name) = true -> under_dir p dir = true.
Proof.
  intros Hn (r & _ & ->)%under_dir_spec. apply under_dir_spec. exists (name ++ CS "/" ++ r). split; [by destruct name|]. unfold in_dir. by rewrite <- !app_assoc.
Qed.

Lemma walk_sound site fuel : tree_ok site -> forall dir p, p ∈ walk fuel site dir -> under_dir p dir = true /\ is_Some (site !! p).
Proof.
  intros T. induction fuel as [|fuel IH]; intros dir p Hp; [by apply elem_of_nil in Hp|]. cbn [walk] in Hp.
  apply list_elem_of_In, in_concat in Hp as (x & (name & <- & Hname%list_elem_of_In)%in_map_iff & Hp%list_elem_of_In). unfold walk_name in Hp.
  destruct (_ || _) eqn:Ed; [by apply elem_of_nil in Hp|]. apply (to_names _ T) in Hname as [-> |[-> |(Hne & _)]]; [done|done|].
  destruct (is_dir site (in_dir dir name)).
  - apply IH in Hp as [Hu Hs]. split; [by eapply under_in_dir|done].
  - destruct (site !! in_dir dir name) eqn:E; [|by apply elem_of_nil in Hp]. apply list_elem_of_singleton in Hp as ->. rewrite E. split; [|done].
    apply under_dir_spec. by exists name.
Qed.

Lemma walk_complete site fuel : tree_ok site -> forall dir p, (length p <= length dir + fuel)%nat -> under_dir p dir = true -> is_Some (site !! p) -> p ∈ walk fuel site dir.
Proof.
  intros T. induction fuel as [|fuel IH]; intros dir p Hl (s & Hs & ->)%under_dir_spec Hsome; [rewrite !length_app in Hl; cbn in Hl; lia|].
  destruct (first_name s) as (name & r & -> & Hn & Hr). destruct (to_paths _ T _ _ _ Hsome Hn Hr) as (Hne & Hd1 & Hd2).
  cbn [walk]. apply list_elem_of_In, in_concat. exists (walk_name (walk fuel site) site dir name). split.
  - apply in_map_iff. exists name. split; [done|]. apply list_elem_of_In, (to_names _ T). right. right. split_and!; [done..|]. by exists r.
  - apply list_elem_of_In. unfold walk_name. rewrite (proj2 (streq_neq _ _) Hd1), (proj2 (streq_neq _ _) Hd2). cbn [orb]. destruct r as [|c r].
    + rewrite app_nil_r in *. destruct (is_dir site (in_dir dir name)) eqn:E.
      * apply is_dir_spec in E as (q & [d Hq] & (t & _ & ->)%under_dir_spec). pose proof (to_files _ T _ t Hsome) as Hf. unfold in_dir in Hq. congruence.
      * destruct Hsome as [d Hd]. unfold in_dir. rewrite Hd. by left.
    + cbn in Hr. subst c. change (CH "/" :: r) with (CS "/" ++ r) in *.
      assert (Hu : under_dir (dir ++ CS "/" ++ name ++ CS "/" ++ r) (in_dir dir name) = true).
      { apply under_dir_spec. exists r. unfold in_dir. rewrite <- !app_assoc. split; [|done]. intros ->.
        destruct (to_paths _ T (dir ++ CS "/" ++ name) [] []) as [H _]; [by rewrite <- !app_assoc|apply not_elem_of_nil|done|done]. }
      rewrite (proj2 (is_dir_spec _ _)) by (by eexists). apply IH; [|done|done]. unfold in_dir. rewrite !length_app in *. destruct name; [done|]. cbn in *. lia.
Qed.

Lemma tree_scans site : tree_ok site -> scans site.
Proof.
  intros T dir p. split; [by apply walk_sound|]. intros [Hu Hs]. apply walk_complete; [done| |done|done]. pose proof (to_length _ T p Hs). lia.
Qed.

Lemma existsb_streq p l : existsb (streq p) l = true <-> p ∈ l.
Proof. rewrite existsb_exists, list_elem_of_In. setoid_rewrite streq_eq. naive_solver. Qed.

Lemma under_public p : existsb (under_dir p) k_file_dirs = true -> exists r, p = CS "public/" ++ r.
Proof.
  intros H. apply existsb_exists in H as (dir & Hd%list_elem_of_In & Hu). unfold under_dir in Hu. apply andb_true_iff in Hu as [Hu _].
  apply starts_with_spec in Hu as [r ->]. unfold k_file_dirs in Hd.
  repeat (apply elem_of_cons in Hd as [->|Hd]; [rewrite <- app_assoc; by eexists (_ ++ _)|]). by apply elem_of_nil in Hd.
Qed.

Lemma public_not_fixed r : existsb (streq (CS "public/" ++ r)) k_db_paths = false /\ existsb (streq (CS "public/" ++ r)) k_settings = false.
Proof. done. Qed.

Lemma in_file_items site kind l s : s ∈ concat (map (file_item site kind) l) <-> sv_path s ∈ l /\ site !! sv_path s = Some (sv_data s) /\ s = Saved (sv_path s) (sv_data s) (mtime (sv_path s)) kind.
Proof.
  rewrite list_elem_of_In, in_concat. split.
  - intros (x & (p & <- & Hp%list_elem_of_In)%in_map_iff & Hs%list_elem_of_In). unfold file_item in Hs. destruct (site !! p) as [d|] eqn:E; [|by apply elem_of_nil in Hs].
    by apply list_elem_of_singleton in Hs as ->.
  - intros (Hp & Hs & E). exists [s]. split; [|by left]. apply in_map_iff. exists (sv_path s). split; [|by apply list_elem_of_In]. unfold file_item. by rewrite Hs, <- E.
Qed.

Lemma in_db_items site l s : s ∈ concat (map (db_item site) l) <-> sv_path s ∈ l /\ site !! sv_path s ≫= sqlite_snapshot = Some (sv_data s) /\ s = Saved (sv_path s) (sv_data s) (snapshot_time (sv_path s)) (CS "db").
Proof.
  rewrite list_elem_of_In, in_concat. split.
  - intros (x & (p & <- & Hp%list_elem_of_In)%in_map_iff & Hs%list_elem_of_In). unfold db_item in Hs. destruct (site !! p ≫= sqlite_snapshot) as [d|] eqn:E; [|by apply elem_of_nil in Hs].
    by apply list_elem_of_singleton in Hs as ->.
  - intros (Hp & Hs & E). exists [s]. split; [|by left]. apply in_map_iff. exists (sv_path s). split; [|by apply list_elem_of_In]. unfold db_item. by rewrite Hs, <- E.
Qed.

Lemma in_saved_files site s : s ∈ saved_files site <->
  (sv_path s ∈ k_db_paths /\ site !! sv_path s ≫= sqlite_snapshot = Some (sv_data s) /\ s = Saved (sv_path s) (sv_data s) (snapshot_time (sv_path s)) (CS "db")) \/
  (sv_path s ∈ k_settings /\ site !! sv_path s = Some (sv_data s) /\ s = Saved (sv_path s) (sv_data s) (mtime (sv_path s)) (CS "settings")) \/
  (exists dir, dir ∈ k_file_dirs /\ sv_path s ∈ listing site dir /\ site !! sv_path s = Some (sv_data s) /\ s = Saved (sv_path s) (sv_data s) (mtime (sv_path s)) (CS "file")).
Proof.
  unfold saved_files. rewrite !elem_of_app, in_db_items, in_file_items. apply or_iff_compat_l, or_iff_compat_l.
  rewrite list_elem_of_In, in_concat. split.
  - intros (x & (dir & <- & Hd%list_elem_of_In)%in_map_iff & Hs%list_elem_of_In). apply in_file_items in Hs as (H1 & H2 & H3). by exists dir.
  - intros (dir & Hd & H1 & H2 & H3). eexists. split; [apply in_map_iff; exists dir; split; [done|by apply list_elem_of_In]|]. apply list_elem_of_In. by apply in_file_items.
Qed.

Lemma saved_spec site s : scans site -> s ∈ saved_files site ->
  saved_copy site (sv_path s) = Some (sv_data s) /\ (sv_path s ∈ k_db_paths /\ sv_kind s = CS "db" \/ streq (sv_kind s) (CS "db") = false).
Proof.
  intros Hscan [(Hp & Hs & ->)|[(Hp & Hs & ->)|(dir & Hd & Hp & Hs & ->)]]%in_saved_files; cbn [sv_path sv_data sv_kind] in *; unfold saved_copy.
  - rewrite (proj2 (existsb_streq _ _)) by done. split; [done|by left].
  - assert (Hn : existsb (streq (sv_path s)) k_db_paths = false).
    { apply not_true_iff_false. intros E%existsb_streq. unfold k_settings in Hp. revert E.
      repeat (apply elem_of_cons in Hp as [->|Hp]; [intros E; apply (bool_decide_pack _) in E; by vm_compute in E|]). by apply elem_of_nil in Hp. }
    rewrite Hn, (proj2 (existsb_streq _ k_settings)) by done. by split; [|right].
  - apply Hscan in Hp as [Hu _]. assert (Hu' : existsb (under_dir (sv_path s)) k_file_dirs = true) by (apply existsb_exists; exists dir; split; [by apply list_elem_of_In|done]).
    destruct (under_public _ Hu') as [r Hr]. rewrite Hu', orb_true_r.
    assert (Hn : existsb (streq (sv_path s)) k_db_paths = false) by (rewrite Hr; apply public_not_fixed). rewrite Hn. by split; [|right].
Qed.

Lemma saved_copy_in site p d : scans site -> saved_copy site p = Some d -> p ∈ map sv_path (saved_files site).
Proof.
  intros Hscan. unfold saved_copy. intros H. apply list_elem_of_In, in_map_iff. setoid_rewrite <- list_elem_of_In. setoid_rewrite in_saved_files.
  destruct (existsb (streq p) k_db_paths) eqn:E1.
  - apply existsb_streq in E1. exists (Saved p d (snapshot_time p) (CS "db")). split; [done|]. by left.
  - destruct (existsb (streq p) k_settings) eqn:E2.
    + apply existsb_streq in E2. exists (Saved p d (mtime p) (CS "settings")). split; [done|]. right. by left.
    + destruct (existsb (under_dir p) k_file_dirs) eqn:E3; [|done]. apply existsb_exists in E3 as (dir & Hd%list_elem_of_In & Hu).
      exists (Saved p d (mtime p) (CS "file")). split; [done|]. do 2 right. exists dir. split_and!; [done| |done|done]. by apply Hscan.
Qed.

Lemma sides_not_saved site s q : scans site -> s ∈ saved_files site -> side_of_saved s q = true -> saved_copy site q = None.
Proof.
  intros Hscan Hs Hq. destruct (saved_spec site s Hscan Hs) as [_ [[Hp Hk]|Hk]]; unfold side_of_saved in Hq; rewrite Hk in Hq; [|done]. cbn [andb] in Hq.
  unfold side_of in Hq. unfold k_db_paths in Hp. revert Hq.
  repeat (apply elem_of_cons in Hp as [->|Hp]; [by intros [->%streq_eq | ->%streq_eq]%orb_true_iff|]). by apply elem_of_nil in Hp.
Qed.

(** The sides of the databases a backup keeps. *)
Definition stale_side (site : fs) (p : list Z) : bool := existsb (fun db => is_some (site !! db) && side_of db p) k_db_paths.

Lemma placed_lookup site files p : scans site -> Forall (fun q => forall db, site !! q = Some db -> is_Some (sqlite_snapshot db)) k_db_paths ->
  foldl place files (saved_files site) !! p = match saved_copy site p with Some d => Some d | None => if stale_side site p then None else files !! p end.
Proof.
  intros Hscan Hsnap. rewrite (place_lookup (saved_copy site)).
  2:{ apply Forall_forall. intros s Hs. split; [by apply saved_spec|]. intros q. by apply sides_not_saved. }
  case_bool_decide as Hin.
  - apply list_elem_of_In, in_map_iff in Hin as (s & <- & Hs%list_elem_of_In). by destruct (saved_spec site s Hscan Hs) as [-> _].
  - destruct (saved_copy site p) as [d|] eqn:E; [by apply saved_copy_in in E|].
    replace (stale_side site p) with (existsb (fun s => side_of_saved s p) (saved_files site)); [done|].
    apply eq_iff_eq_true. unfold stale_side. rewrite !existsb_exists. setoid_rewrite <- list_elem_of_In. split.
    + intros (s & Hs & Hq). destruct (saved_spec site s Hscan Hs) as [Hc [[Hp Hk]|Hk]]; unfold side_of_saved in Hq; rewrite Hk in Hq; [|done].
      exists (sv_path s). split; [done|]. unfold saved_copy in Hc. rewrite (proj2 (existsb_streq _ _)) in Hc by done. by destruct (site !! sv_path s).
    + intros (db & Hdb & [Hd Hq]%andb_true_iff). destruct (site !! db) as [data|] eqn:Ed; [|done]. rewrite Forall_forall in Hsnap. destruct (Hsnap db Hdb data Ed) as [snap Hs].
      exists (Saved db snap (snapshot_time db) (CS "db")). split; [|done]. apply in_saved_files. left. cbn. by rewrite Ed.
Qed.

(** ** The secrets *)

Definition secret_files (site : fs) : list (list Z * list Z) :=
  omap (fun p => match site !! p with Some d => if MAX_SECRETS / 4 <? zlen d then None else Some (p, d) | None => None end) k_secret_paths.
Definition secret_doc (f : list Z * list Z) : doc := DObject [(CS "path", DString (fst f)); (CS "data", DString (b64_encode (snd f)))].

Lemma secrets_doc_files site : secrets_doc site = DObject [(CS "files", DArray (map secret_doc (secret_files site)))].
Proof.
  unfold secrets_doc, secret_files. do 4 f_equal. induction k_secret_paths as [|p l IH]; [done|]. cbn [omap list_omap].
  destruct (site !! p) as [d|]; [|done]. destruct (_ <? _); [done|]. cbn [map]. by f_equal.
Qed.

Lemma restore_secrets suffix st l ok : (forall n k, ok n k = true) ->
  Forall (fun f => secret_path_ok (fst f) = true /\ b64_decode (b64_encode (snd f)) = Some (snd f)) l ->
  foldl (restore_secret false suffix) st (numbered_items ok (map secret_doc l)) =
  Restoring (rs_stage st) (foldl (fun files f => <[fst f := snd f]> files) (rs_files st) l) (rs_failed st).
Proof.
  intros Hok Hl. unfold numbered_items. assert (E : imap (fun n e => (ok n, e)) (map secret_doc l) = imap (fun n f => (ok n, secret_doc f)) l) by (by rewrite imap_fmap).
  rewrite E. clear E. revert ok st Hok. induction Hl as [|f l [Hp Hd] _ IH]; intros ok st Hok; [by destruct st|]. cbn [imap foldl].
  assert (E : restore_secret false suffix st (ok 0%nat, secret_doc f) = Restoring (rs_stage st) (<[fst f := snd f]> (rs_files st)) (rs_failed st)).
  { unfold restore_secret. change (text_of (get (Some (secret_doc f)) (CS "path"))) with (Some (fst f)).
    change (text_of (get (Some (secret_doc f)) (CS "data"))) with (Some (b64_encode (snd f))). cbn [mbind option_bind]. by rewrite Hd, Hp, Hok. }
  rewrite E. by rewrite (IH (ok ∘ S)) by (intros n k; apply Hok).
Qed.

(** ** A backup is restored *)

(** What is relied on of the libraries. *)
Record tools_ok : Prop := {
  to_zstd : forall s, ZSTD_stream (ZSTD_compress s) = s;
  to_base64 : forall d, d <> [] -> bytes d -> b64_decode (b64_encode d) = Some d;
  to_gcm : forall key nonce plain ad sealed, gcm_seal key nonce plain ad = Some sealed -> gcm_open key nonce sealed ad = Some plain;
}.
Context (Htools : tools_ok).

Definition with_secrets (pass : option cstr) : bool := match pass with Some (_ :: _) => true | _ => false end.

(** The documents of this backup are read back, and the parts of the archive are within their limits. *)
Record documents_ok (pass : option cstr) (random : option (list Z * list Z)) (r : site_report) (site : fs) : Prop := {
  do_secrets : cJSON_Parse (cJSON_PrintUnformatted (secrets_doc site)) = Some (secrets_doc site);
  do_sealed : forall sealed desc, seal_secrets random (default [] pass) site = Some (sealed, desc) -> zlen sealed <= MAX_SECRETS;
  do_manifest : forall id pk c secrets, own_key_id = Some id -> own_public_key = Some pk -> collect site = Some c ->
    secrets = None \/ snd <$> seal_secrets random (default [] pass) site = secrets ->
    cJSON_Parse (cJSON_Print (manifest_doc r id pk c secrets)) = Some (manifest_doc r id pk c secrets) /\ zlen (cJSON_Print (manifest_doc r id pk c secrets)) <= MAX_MANIFEST;
}.

(** A site whose files a restoration takes: paths without double dots, double slashes and backslashes,
    and secret files that are not empty nor too large. *)
Record site_ok (site : fs) : Prop := {
  si_tree : tree_ok site;
  si_paths : forall p, is_Some (saved_copy site p) -> restore_path_ok p = true;
  si_secrets : forall p d, secret_path_ok p = true -> site !! p = Some d -> d <> [] /\ bytes d /\ zlen d <= MAX_SECRETS / 4;
}.

Definition random_ok (random : option (list Z * list Z)) : Prop :=
  forall salt nonce, random = Some (salt, nonce) -> salt <> [] /\ bytes salt /\ length nonce = 12%nat /\ bytes nonce.

Lemma sealed_opens random pass site sealed desc : random_ok random -> cJSON_Parse (cJSON_PrintUnformatted (secrets_doc site)) = Some (secrets_doc site) ->
  seal_secrets random pass site = Some (sealed, desc) ->
  open_secrets pass (Some (DObject desc)) sealed = Some (secrets_doc site) /\ get (Some (DObject desc)) (CS "sha256") = Some (DString (sha_hex sealed)).
Proof.
  intros Hr Hj. unfold seal_secrets. destruct random as [[salt nonce]|]; [|done]. destruct (Hr salt nonce eq_refl) as (Hs1 & Hs2 & Hn1 & Hn2).
  destruct (scrypt pass salt SCRYPT_N SCRYPT_R SCRYPT_P) as [key|] eqn:Ek; [|done]. cbn [mbind option_bind].
  destruct (gcm_seal key nonce _ SECRETS_AD) as [s|] eqn:Eg; [|done]. cbn [mbind option_bind]. intros [= <- <-]. split; [|done].
  unfold open_secrets. set (d := Some (DObject _)). change (jint d (CS "N") 0) with SCRYPT_N. change (jint d (CS "r") 0) with SCRYPT_R. change (jint d (CS "p") 0) with SCRYPT_P.
  rewrite !Z.eqb_refl. cbn [negb orb]. change (text_of (get d (CS "salt"))) with (Some (b64_encode salt)). change (text_of (get d (CS "nonce"))) with (Some (b64_encode nonce)).
  cbn [mbind option_bind]. rewrite (to_base64 Htools salt) by done. cbn [mbind option_bind].
  rewrite (to_base64 Htools nonce) by (done || by intros ->). cbn [mbind option_bind]. rewrite Hn1. cbn [Nat.eqb negb]. rewrite Ek. cbn [mbind option_bind].
  rewrite (to_gcm Htools _ _ _ _ _ Eg). done.
Qed.

(** A backup that was written: its manifest, its secrets, and the stream that was compressed. *)
Record written (pass : option cstr) (random : option (list Z * list Z)) (now : Z) (r : site_report) (site : fs) (archive : list Z)
    (id pk : list Z) (c : backup_ctx) (secrets : option (list Z * list (list Z * doc))) (sig : list Z) : Prop := {
  wr_id : own_key_id = Some id;
  wr_pk : own_public_key = Some pk;
  wr_blog : is_Some (site !! CS "data/blog.db");
  wr_collect : collect site = Some c;
  wr_secrets : secrets = (if with_secrets pass then seal_secrets random (default [] pass) site else None) /\ (with_secrets pass = true -> is_Some secrets);
  wr_sig : sign_manifest (cJSON_Print (manifest_doc r id pk c (snd <$> secrets))) = Some sig;
  wr_archive : archive = ZSTD_compress (put_all (blob_members (contents (saved_files site))) ++
    put_all (tail_members (fst <$> secrets) (cJSON_Print (manifest_doc r id pk c (snd <$> secrets))) sig now) ++ replicate 1024 0);
  wr_entries : bc_entries c = stored_entries (saved_files site);
  wr_small : Forall (fun s => zlen (sv_data s) <= Z.ones 33) (saved_files site) /\ zlen (saved_files site) <= 999999;
  wr_snapshots : Forall (fun q => forall db, site !! q = Some db -> is_Some (sqlite_snapshot db)) k_db_paths;
}.

Lemma backup_written out pass random now r site archive : fly_backup_write out pass random now r site = Some archive ->
  exists id pk c secrets sig, written pass random now r site archive id pk c secrets sig.
Proof.
  unfold fly_backup_write. fold (with_secrets pass). destruct (negb (output_path_safe out)); [done|].
  destruct (site !! CS "data/blog.db") as [blog|] eqn:Eblog; [|done]. destruct own_key_id as [id|] eqn:Eid; [|done].
  destruct (collect site) as [c|] eqn:Ec; [|done]. cbn [mbind option_bind]. destruct (collect_adds site c Ec) as ((Hc & Hsmall & Hnum) & Hsnap).
  rewrite put_all_items in Hc. cbn [bc_next_blob] in Hnum. specialize (Hnum ltac:(lia)).
  destruct (ml_own id Eid) as (pk & Epk & Hkid). rewrite Epk. change (default [] (Some pk)) with pk.
  destruct (if with_secrets pass then _ else _) as [secrets|] eqn:Esec; [|done]. cbn [mbind option_bind].
  destruct (sign_manifest _) as [sig|] eqn:Esig; [|done]. cbn [mbind option_bind]. intros Harch. apply (inj Some) in Harch. subst archive. exists id, pk, c, secrets, sig. split; try done.
  - destruct (with_secrets pass); [|by injection Esec as <-]. destruct (seal_secrets _ _ _); [|done]. by injection Esec as <-.
  - f_equal. rewrite Hc at 1. cbn [bc_stream]. f_equal. unfold tail_members. rewrite put_all_app, <- app_assoc.
    f_equal; [destruct secrets as [[sealed desc]|]; [cbn [fmap option_fmap option_map fst]; by rewrite put_all_one|done]|]. unfold put_all. cbn [map concat fst snd]. by rewrite app_nil_r, <- !app_assoc.
  - by rewrite Hc.
  - rewrite Hc in Hnum. by split.
Qed.

Section written.
Context pass random now r site archive id pk c secrets sig (W : written pass random now r site archive id pk c secrets sig).
Context (Hsite : site_ok site) (Hdoc : documents_ok pass random r site) (Hrand : random_ok random).

Let m := manifest_doc r id pk c (snd <$> secrets).
Let a := ArchiveRead (named (contents (saved_files site))) (Some (cJSON_Print m)) (Some sig) (fst <$> secrets).

Lemma written_secrets sealed desc : secrets = Some (sealed, desc) -> with_secrets pass = true /\ seal_secrets random (default [] pass) site = Some (sealed, desc).
Proof. destruct (wr_secrets _ _ _ _ _ _ _ _ _ _ _ W) as [E _]. intros ->. by destruct (with_secrets pass). Qed.

Lemma secrets_cases : secrets = None \/ exists sealed desc, secrets = Some (sealed, desc).
Proof. clear. destruct secrets as [[sealed desc]|]; eauto. Qed.

Lemma written_manifest : cJSON_Parse (cJSON_Print m) = Some m /\ zlen (cJSON_Print m) <= MAX_MANIFEST.
Proof.
  apply (do_manifest _ _ _ _ Hdoc); [by eapply wr_id|by eapply wr_pk|by eapply wr_collect|].
  destruct secrets_cases as [E|(sealed & desc & E)]; rewrite E; [by left|]. right. destruct (written_secrets sealed desc E) as [_ ->]. done.
Qed.

Lemma written_read : read_archive archive = Some (a, cJSON_Print m, sig).
Proof.
  destruct (wr_small _ _ _ _ _ _ _ _ _ _ _ W) as [Hs Hl]. destruct (ml_line _ _ (wr_sig _ _ _ _ _ _ _ _ _ _ _ W)) as [Hline Hsl].
  destruct written_manifest as [_ Hm]. unfold read_archive. rewrite (wr_archive _ _ _ _ _ _ _ _ _ _ _ W), (to_zstd Htools). fold m.
  rewrite read_backup; [by rewrite Hline| | | |done|done].
  - unfold contents, zlen in *. by rewrite length_map.
  - unfold contents. apply Forall_forall. intros d (s & -> & Hin)%list_elem_of_fmap. rewrite Forall_forall in Hs. by apply Hs.
  - destruct secrets_cases as [E|(sealed & desc & E)]; rewrite E; [done|]. destruct (written_secrets sealed desc E) as [_ Hseal]. by eapply (do_sealed _ _ _ _ Hdoc).
Qed.

Lemma saved_restorable : Forall restorable (saved_files site).
Proof.
  apply Forall_forall. intros s Hs. destruct (saved_spec site s (tree_scans _ (si_tree _ Hsite)) Hs) as [Hcopy _]. split; [apply (si_paths _ Hsite); by eexists|].
  apply not_true_iff_false. intros E%existsb_streq. unfold k_secret_paths in E.
  repeat (apply elem_of_cons in E as [E|E]; [rewrite E in Hcopy; by vm_compute in Hcopy|]). by apply elem_of_nil in E.
Qed.

Lemma written_checks : check_archive a (cJSON_Print m) sig = Some m.
Proof.
  destruct (manifest_get r id pk c (snd <$> secrets)) as (G1 & G2 & G3 & G4 & G5 & _). fold m in G1, G2, G3, G4, G5.
  unfold check_archive. rewrite (proj1 written_manifest). cbv zeta. rewrite G1, G2, G3, G5. cbn [text_of]. rewrite streq_refl, Z.eqb_refl. cbn [negb].
  destruct (ml_own id (wr_id _ _ _ _ _ _ _ _ _ _ _ W)) as (pk' & Epk & kid & Hkid). pose proof (wr_pk _ _ _ _ _ _ _ _ _ _ _ W) as Epk'. rewrite Epk' in Epk. injection Epk as <-.
  pose proof (ml_sign _ _ _ (wr_sig _ _ _ _ _ _ _ _ _ _ _ W) Epk') as Hv. fold m in Hv. rewrite Hkid, Hv. cbn [is_some negb orb]. rewrite G4. cbn [children].
  rewrite (wr_entries _ _ _ _ _ _ _ _ _ _ _ W), entries_pass; [|apply (wr_small _ _ _ _ _ _ _ _ _ _ _ W)|done|apply saved_restorable].
  cbn [andb ar_secrets a]. destruct secrets_cases as [E|(sealed & desc & E)]; rewrite E; [done|]. cbn [fmap option_fmap option_map snd fst ar_secrets a].
  destruct (written_secrets sealed desc E) as [_ Hseal]. destruct (sealed_opens _ _ _ _ _ Hrand (do_secrets _ _ _ _ Hdoc) Hseal) as [_ Hsha].
  rewrite Hsha. cbn [text_of]. by rewrite streq_refl.
Qed.
End written.

Lemma foldl_inserts (copy : list Z -> option (list Z)) (l : list (list Z * list Z)) files p : Forall (fun f => copy (fst f) = Some (snd f)) l ->
  foldl (fun files f => <[fst f := snd f]> files) files l !! p = if bool_decide (p ∈ map fst l) then copy p else (files : fs) !! p.
Proof.
  induction l as [|f l IH] using rev_ind; intros Hl; [done|]. apply Forall_app in Hl as [Hl [Hf _]%Forall_cons]. rewrite foldl_app, map_app. cbn [foldl map].
  destruct (decide (p = fst f)) as [->|Hne].
  - rewrite lookup_insert_eq, bool_decide_true; [done|]. apply elem_of_app. right. by left.
  - rewrite lookup_insert_ne, IH by done. by rewrite (bool_decide_ext (p ∈ map fst l ++ [fst f]) (p ∈ map fst l)) by (rewrite elem_of_app, list_elem_of_singleton; tauto).
Qed.

Lemma secret_files_spec site f : f ∈ secret_files site -> secret_path_ok (fst f) = true /\ site !! fst f = Some (snd f).
Proof.
  unfold secret_files. intros (p & Hp & Hf)%list_elem_of_omap. destruct (site !! p) as [d|] eqn:E; [|done]. destruct (_ <? _); [done|]. injection Hf as <-.
  split; [by apply existsb_streq|done].
Qed.

Lemma secret_files_in site p d : site_ok site -> secret_path_ok p = true -> site !! p = Some d -> p ∈ map fst (secret_files site).
Proof.
  intros Hsite Hp Hd. apply list_elem_of_In, in_map_iff. exists (p, d). split; [done|]. apply list_elem_of_In, list_elem_of_omap. exists p.
  split; [by apply existsb_streq|]. rewrite Hd. destruct (si_secrets _ Hsite p d Hp Hd) as (_ & _ & Hs). by replace (MAX_SECRETS / 4 <? zlen d) with false by lia.
Qed.

(** A path of the restored site. *)
Definition restored (pass : option cstr) (ok_seq : bool) (r : site_report) (site target : fs) (p : list Z) : option (list Z) :=
  if ok_seq && streq p (CS "data/.flywire_seq") then Some (print_int (sr_checkpoint r))
  else match (if with_secrets pass && secret_path_ok p then site !! p else None) with
  | Some d => Some d
  | None => match saved_copy site p with Some d => Some d | None => if stale_side site p then None else target !! p end
  end.

Lemma put_checkpoint_lookup ok_seq m n files p : get (Some m) (CS "flywire_checkpoint") = Some (DNumber n) ->
  put_checkpoint ok_seq m files !! p = if ok_seq && streq p (CS "data/.flywire_seq") then Some (print_int n) else files !! p.
Proof.
  intros Hn. unfold put_checkpoint. destruct ok_seq; [|done]. rewrite Hn. cbn [andb].
  destruct (streq p (CS "data/.flywire_seq")) eqn:E; [apply streq_eq in E as ->; by rewrite lookup_insert_eq|apply streq_neq in E; by rewrite lookup_insert_ne].
Qed.

Lemma secrets_lookup (pass : option cstr) (site files : fs) p : site_ok site ->
  (if with_secrets pass then foldl (fun files f => <[fst f := snd f]> files) files (secret_files site) else files) !! p =
  match (if with_secrets pass && secret_path_ok p then site !! p else None) with Some d => Some d | None => files !! p end.
Proof.
  intros Hsite. destruct (with_secrets pass); [|done]. cbn [andb]. rewrite (foldl_inserts (fun p => site !! p)) by (apply Forall_forall; intros f Hf; by apply secret_files_spec).
  case_bool_decide as Hin.
  - apply list_elem_of_In, in_map_iff in Hin as (f & <- & Hf%list_elem_of_In). destruct (secret_files_spec site f Hf) as [-> ->]. done.
  - destruct (secret_path_ok p) eqn:Ep; [|done]. destruct (site !! p) as [d|] eqn:Ed; [|done]. by apply (secret_files_in site p d Hsite) in Ep.
Qed.

Lemma restore_all_secrets (pass : option cstr) (site : fs) suffix stage files ok : site_ok site -> (forall n k, ok n k = true) ->
  foldl (restore_secret false suffix) (Restoring stage files 0)
    (numbered_items ok (children (get (mjoin (if with_secrets pass then Some (Some (secrets_doc site)) else None)) (CS "files")))) =
  Restoring stage (if with_secrets pass then foldl (fun files f => <[fst f := snd f]> files) files (secret_files site) else files) 0.
Proof.
  intros Hsite Hok. destruct (with_secrets pass); [|done]. cbn [mjoin option_join]. rewrite secrets_doc_files. cbn [get].
  change (children (snd <$> List.find _ _)) with (map secret_doc (secret_files site)). apply restore_secrets; [done|].
  apply Forall_forall. intros f Hf. destruct (secret_files_spec site f Hf) as [Hp Hd]. split; [done|].
  destruct (si_secrets _ Hsite _ _ Hp Hd) as (Hne & Hb & _). by apply (to_base64 Htools).
Qed.

(** The secrets of a backup open with its passphrase. *)
Lemma written_open pass random now r site archive id pk c secrets sig desc0 : written pass random now r site archive id pk c secrets sig ->
  documents_ok pass random r site -> random_ok random -> desc0 = DObject <$> (snd <$> secrets) ->
  match desc0, pass with
  | Some (DObject desc), Some pass => Some (open_secrets pass (Some (DObject desc)) (default [] (fst <$> secrets))) | _, _ => None end =
  if with_secrets pass then Some (Some (secrets_doc site)) else None.
Proof.
  intros W Hdoc Hrand ->. destruct (wr_secrets _ _ _ _ _ _ _ _ _ _ _ W) as [Es Hs]. destruct (with_secrets pass) eqn:Ew; [|by rewrite Es].
  destruct (Hs eq_refl) as [[sealed desc] E]. assert (Hseal : seal_secrets random (default [] pass) site = Some (sealed, desc)) by congruence.
  rewrite E. cbn. destruct pass as [pass|]; [|done]. do 2 f_equal. apply (sealed_opens random); [done|by apply (do_secrets _ _ _ _ Hdoc)|done].
Qed.

(** A backup that is read again, and its restoration when every operation succeeds. *)
Lemma backup_comes_back out pass random now r site archive target suffix force ok oks ok_seq integrity :
  site_ok site -> documents_ok pass random r site -> random_ok random -> fly_backup_write out pass random now r site = Some archive ->
  target !! CS "data/blog.db" = None -> (forall n k, ok n k = true) -> (forall n k, oks n k = true) ->
  cmd_verify pass archive = true /\
  let '(rc, files) := cmd_restore true ok oks ok_seq integrity force pass suffix archive target in
  (forall p, files !! p = restored pass ok_seq r site target p) /\
  (rc = 0 <-> exists db, saved_copy site (CS "data/blog.db") = Some db /\ integrity db = true).
Proof.
  intros Hsite Hdoc Hrand Hw Htarget Hok Hoks. destruct (backup_written _ _ _ _ _ _ _ Hw) as (id & pk & c & secrets & sig & W).
  pose proof (written_read _ _ _ _ _ _ _ _ _ _ _ W Hdoc) as Hread. pose proof (written_checks _ _ _ _ _ _ _ _ _ _ _ W Hsite Hdoc Hrand) as Hcheck.
  set (m := manifest_doc r id pk c (snd <$> secrets)) in *. set (a := ArchiveRead _ _ _ _) in *.
  destruct (manifest_get r id pk c (snd <$> secrets)) as (_ & _ & _ & G4 & G5 & G6). fold m in G4, G5, G6.
  pose proof (written_open _ _ _ _ _ _ _ _ _ _ _ _ W Hdoc Hrand G5) as Hopen. change (fst <$> secrets) with (ar_secrets a) in Hopen.
  split.
  - unfold cmd_verify. rewrite Hread, Hcheck. revert Hopen. destruct (get (Some m) (CS "secrets")) as [[]|]; try done. destruct pass as [pass|]; [|done].
    intros Hopen. destruct (with_secrets _); [|done]. apply (inj Some) in Hopen. by rewrite Hopen.
  - destruct (wr_small _ _ _ _ _ _ _ _ _ _ _ W) as [_ Hlen]. unfold cmd_restore. rewrite Htarget. cbn [is_some andb negb]. rewrite Hread, Hcheck. cbv zeta. rewrite Hopen.
    rewrite G4. cbn [children]. rewrite (wr_entries _ _ _ _ _ _ _ _ _ _ _ W).
    destruct (restore_items suffix target (saved_files site) [] ok) as (stage & Hst & _); [by rewrite app_nil_r|done|]. rewrite app_nil_r in Hst.
    change (list_to_map (map _ (ar_blobs a))) with (staged (saved_files site)). rewrite Hst.
    assert (Hplaced := fun p => placed_lookup site target p (tree_scans _ (si_tree _ Hsite)) (wr_snapshots _ _ _ _ _ _ _ _ _ _ _ W)).
    set (files := foldl place target (saved_files site)) in *.
    pose proof (restore_all_secrets pass site suffix stage files oks Hsite Hoks) as Hsec. assert (Hfinal := fun p => secrets_lookup pass site files p Hsite).
    set (F := if with_secrets pass then foldl _ files (secret_files site) else files) in *.
    assert (Hblog : F !! CS "data/blog.db" = saved_copy site (CS "data/blog.db")).
    { rewrite Hfinal. rewrite andb_comm. change (secret_path_ok (CS "data/blog.db")) with false. cbn [andb]. unfold files. rewrite Hplaced.
      destruct (saved_copy site _) as [d|]; [done|]. destruct (stale_side site _); done. }
    replace (match (if with_secrets pass then Some (Some (secrets_doc site)) else None) with Some None => _ | _ => _ end) with
      (if (0 <? 0) || negb match F !! CS "data/blog.db" with Some db => integrity db | None => false end then 1 else 0, put_checkpoint ok_seq m F)
      by (by destruct (with_secrets pass); rewrite Hsec).
    split.
    + intros p. rewrite (put_checkpoint_lookup _ _ _ _ _ G6). unfold restored. destruct (ok_seq && _); [done|]. rewrite Hfinal. destruct (if _ && _ then _ else _); [done|]. apply Hplaced.
    + rewrite Hblog. change (0 <? 0) with false. cbn [orb]. destruct (saved_copy site _) as [db|]; cbn [negb].
      * destruct (integrity db) eqn:Ei; cbn [negb]; [split; [by exists db|done]|]. split; [done|]. intros (db' & [= <-] & Hi). congruence.
      * split; [done|]. by intros (db' & ? & _).
Qed.

(** A step of a restoration counts its failure, or is the step in which every operation succeeds. *)
Definition counts_failures (f : restoring -> (nat -> bool) * doc -> restoring) : Prop :=
  forall st ok e, rs_failed st <= rs_failed (f st (ok, e)) /\ (rs_failed (f st (ok, e)) = rs_failed st -> f st (ok, e) = f st (fun _ => true, e)).

Lemma restore_entry_counts suffix : counts_failures (restore_entry false suffix).
Proof.
  intros st ok e. unfold restore_entry. cbn [clear_way]. unfold place_file. destruct (rs_stage st !! _) as [data|]; [|cbn; split; [lia|done]].
  destruct (ok 3%nat); cbn; split; [lia|done|lia|lia].
Qed.

Lemma restore_secret_counts suffix : counts_failures (restore_secret false suffix).
Proof.
  intros st ok e. unfold restore_secret. destruct (text_of _) as [path|]; [|cbn; split; [lia|done]]. destruct (_ ≫= b64_decode) as [raw|]; [|cbn; split; [lia|done]].
  destruct (negb _); [cbn; split; [lia|done]|]. destruct (ok 1%nat); cbn; split; [lia|done|lia|lia].
Qed.

Lemma restored_without_failure f l : counts_failures f -> forall st ok,
  let st' := foldl f st (numbered_items ok l) in
  rs_failed st <= rs_failed st' /\ (rs_failed st' = rs_failed st -> st' = foldl f st (numbered_items (fun _ _ => true) l)).
Proof.
  intros Hf. unfold numbered_items. induction l as [|e l IH] using rev_ind; intros st ok; [cbn; split; [lia|done]|]. cbv zeta.
  rewrite !imap_snoc, !foldl_app. cbn [foldl]. destruct (IH st ok) as [Hle Heq]. destruct (Hf (foldl f st (imap (fun n e => (ok n, e)) l)) (ok (length l)) e) as [Hle' Heq'].
  split; [lia|]. intros E. rewrite Heq' by lia. by rewrite Heq by lia.
Qed.

(** A restoration that reports success is the one in which nothing failed. *)
Lemma cmd_restore_succeeds ok_stage ok oks ok_seq integrity force pass suffix file target files : target !! CS "data/blog.db" = None ->
  cmd_restore ok_stage ok oks ok_seq integrity force pass suffix file target = (0, files) ->
  cmd_restore true (fun _ _ => true) (fun _ _ => true) ok_seq integrity force pass suffix file target = (0, files).
Proof.
  intros Ht. unfold cmd_restore. rewrite Ht. cbn [is_some andb negb]. destruct ok_stage; [|done]. cbn [negb].
  destruct (read_archive file) as [[[a manifest] sig]|]; [|done]. destruct (check_archive a manifest sig) as [m|]; [|done]. cbv zeta.
  set (secrets := match get (Some m) (CS "secrets") with Some (DObject _) => _ | _ => _ end). set (st := Restoring _ target 0).
  set (entries := children (get (Some m) (CS "entries"))). set (files' := children (get (mjoin secrets) (CS "files"))).
  destruct (restored_without_failure _ entries (restore_entry_counts suffix) st ok) as [Hle1 Heq1]. cbv zeta in Hle1, Heq1.
  set (st1 := foldl _ st (numbered_items ok entries)) in *. change (rs_failed st) with 0 in *.
  destruct (restored_without_failure _ files' (restore_secret_counts suffix) st1 oks) as [Hle2 Heq2]. cbv zeta in Hle2, Heq2.
  set (st2 := foldl _ st1 (numbered_items oks files')) in *.
  assert (H : forall d, ((if (0 <? rs_failed st2) || negb d then 1 else 0, put_checkpoint ok_seq m (rs_files st2)) : Z * fs) = (0, files) -> rs_failed st2 = 0).
  { intros d. destruct (Z.ltb_spec 0 (rs_failed st2)); [done|lia]. }
  assert (E : rs_failed st2 = 0 -> st2 = foldl (restore_secret false suffix) (foldl (restore_entry false suffix) st (numbered_items (fun _ _ => true) entries)) (numbered_items (fun _ _ => true) files')).
  { intros Hz. rewrite Heq2 by lia. by rewrite Heq1 by lia. }
  destruct secrets as [[s|]|]; [|done|]; intros Hr; rewrite <- (E (H _ Hr)); exact Hr.
Qed.


(** ** What a restoration refuses *)

Lemma dotted_not_ok p : contains p (CS "..") = true -> restore_path_ok p = false.
Proof. intros H. unfold restore_path_ok. destruct p as [|c p]; [done|]. by rewrite H, orb_true_r. Qed.

Lemma entries_fail l a n s : l !! n = Some s -> restore_path_ok (sv_path s) = false -> forallb (entry_ok a) (stored_entries l) = false.
Proof.
  intros Hn Hs. apply not_true_iff_false. intros H. rewrite forallb_forall in H.
  assert (Hin : stored_entries l !! n = Some (entry_doc (sv_path s) (blob_name n) (sv_data s) (sv_kind s))) by (unfold stored_entries; by rewrite list_lookup_imap, Hn).
  apply list_elem_of_lookup_2, list_elem_of_In, H in Hin. unfold entry_ok in Hin.
  change (text_of (get (Some (entry_doc (sv_path s) (blob_name n) (sv_data s) (sv_kind s))) (CS "path"))) with (Some (sv_path s)) in Hin.
  cbv beta iota in Hin. by rewrite Hs in Hin.
Qed.

Lemma dotted_fails pass random now r site archive id pk c secrets sig a manifest sig' p d : written pass random now r site archive id pk c secrets sig ->
  tree_ok site -> documents_ok pass random r site -> manifest = cJSON_Print (manifest_doc r id pk c (snd <$> secrets)) ->
  site !! p = Some d -> existsb (under_dir p) k_file_dirs = true -> contains p (CS "..") = true -> check_archive a manifest sig' = None.
Proof.
  intros W T Hdoc -> Hp Hdir Hdots. destruct (manifest_get r id pk c (snd <$> secrets)) as (_ & _ & _ & G4 & _).
  unfold check_archive. rewrite (proj1 (written_manifest _ _ _ _ _ _ _ _ _ _ _ W Hdoc)). cbv zeta. rewrite G4. cbn [children].
  rewrite (wr_entries _ _ _ _ _ _ _ _ _ _ _ W). assert (Hcopy : saved_copy site p = Some d).
  { destruct (under_public p Hdir) as [q ->]. unfold saved_copy. by rewrite (proj1 (public_not_fixed q)), Hdir, orb_true_r. }
  apply (saved_copy_in site p d (tree_scans site T)) in Hcopy as (s & -> & Hs)%list_elem_of_fmap. apply list_elem_of_lookup in Hs as [n Hn].
  rewrite (entries_fail _ _ n s Hn) by (by apply dotted_not_ok). cbn [andb]. by repeat case_match.
Qed.

(** C29: One uploaded file whose name has two dots in a row, as in [notes..txt], which uploads accept, makes
    every backup of the site useless: it is written without complaint, but no check accepts it and no
    restoration uses it, as the reader refuses any path with two dots. *)
Theorem dotted_backup_unusable out pass random now r site archive p d :
  tree_ok site -> documents_ok pass random r site -> fly_backup_write out pass random now r site = Some archive ->
  site !! p = Some d -> existsb (under_dir p) k_file_dirs = true -> contains p (CS "..") = true ->
  (forall pass, cmd_verify pass archive = false) /\
  forall ok_stage ok ok_secrets ok_seq integrity force pass suffix target,
    cmd_restore ok_stage ok ok_secrets ok_seq integrity force pass suffix archive target = (1, target).
Proof.
  intros T Hdoc Hw Hp Hdir Hdots. destruct (backup_written _ _ _ _ _ _ _ Hw) as (id & pk & c & secrets & sig & W).
  pose proof (written_read _ _ _ _ _ _ _ _ _ _ _ W Hdoc) as Hread.
  assert (Hcheck : check_archive (ArchiveRead (named (contents (saved_files site))) (Some (cJSON_Print (manifest_doc r id pk c (snd <$> secrets)))) (Some sig) (fst <$> secrets))
    (cJSON_Print (manifest_doc r id pk c (snd <$> secrets))) sig = None) by (by eapply dotted_fails).
  split; [intros pass'; unfold cmd_verify; by rewrite Hread, Hcheck|].
  intros. unfold cmd_restore. rewrite Hread, Hcheck. by repeat case_match.
Qed.

(** ** Any archive *)

Definition blobs_ok (a : archive_read) : Prop := Forall (fun b => blob_name_ok (fst b) = true) (ar_blobs a) /\ NoDup (map fst (ar_blobs a)).

Lemma find_blob_none a name : find_blob a name = None -> name ∉ map fst (ar_blobs a).
Proof.
  unfold find_blob. destruct (List.find _ _) eqn:E; [done|]. intros _ (b & -> & Hb)%list_elem_of_fmap. apply list_elem_of_In in Hb.
  apply (find_none _ _ E) in Hb. unfold strcaseeq in Hb. by rewrite streq_refl in Hb.
Qed.

Lemma read_one_blobs a s a' rest : blobs_ok a -> read_one a s = Read_member a' rest -> blobs_ok a'.
Proof.
  intros [Hn Hd]. unfold read_one. destruct (zr_read 512 s) as [[h s1]|]; [|done]. destruct (forallb _ h); [done|]. destruct (negb (tar_header_valid h)); [done|]. cbv zeta.
  set (name := until_nul (take 100 h)). destruct (_ && negb (streq name (CS "manifest.sig"))); [done|].
  destruct (is_some (find_blob a name)) eqn:Ef; [done|]. destruct (false || _ || _ || _); [done|]. destruct (_ || _ || _); [done|].
  destruct (zr_read _ s1) as [[data s2]|]; [|done]. destruct (zr_read _ s2) as [[pad s3]|]; [|done]. intros [= <- _].
  destruct (blob_name_ok name) eqn:Eb; [|by repeat case_match]. unfold blobs_ok. cbn [ar_blobs]. rewrite map_app. split.
  - apply Forall_app. split; [done|]. by constructor.
  - apply NoDup_app. split_and!; [done| |apply NoDup_singleton]. intros x Hx ->%list_elem_of_singleton. revert Hx. apply find_blob_none. cbn [fst]. revert Ef. by destruct (find_blob a name).
Qed.

Lemma read_members_blobs fuel : forall a s a', blobs_ok a -> read_members fuel a s = Some a' -> blobs_ok a'.
Proof.
  induction fuel as [|fuel IH]; intros a s a' Ha; [done|]. cbn [read_members]. destruct (read_one a s) as [| |a1 s1] eqn:E; [done|by intros [= <-]|].
  apply IH. by eapply read_one_blobs.
Qed.

Lemma read_archive_blobs file a manifest sig : read_archive file = Some (a, manifest, sig) -> blobs_ok a.
Proof.
  unfold read_archive. destruct (read_members _ _ _) as [a'|] eqn:E; [|done]. cbn [mbind option_bind]. destruct (ar_manifest a'), (ar_signature a'); intros [= -> _ _].
  eapply read_members_blobs; [|exact E]. split; constructor.
Qed.

Definition staged_blobs (a : archive_read) : gmap (list Z) (list Z) := list_to_map (map (fun b => (drop 2 (fst b), snd b)) (ar_blobs a)).

Lemma blob_name_digits name : blob_name_ok name = true -> name = CS "b/" ++ drop 2 name /\ map tolower (drop 2 name) = drop 2 name.
Proof.
  unfold blob_name_ok. rewrite !andb_true_iff. intros [[[r ->]%starts_with_spec _] H]. change (drop 2 (CS "b/" ++ r)) with r in *. split; [done|].
  rewrite <- (map_id r) at 2. apply map_ext_in. intros c Hc. rewrite forallb_forall in H. specialize (H c Hc). unfold isdigit in H. unfold tolower, isupper.
  by replace (_ && _) with false by lia.
Qed.

(** What is staged under the number of a blob is what the check saw. *)
Lemma staged_found a blob data d : blobs_ok a -> find_blob a blob = Some data -> staged_blobs a !! drop 2 blob = Some d -> d = data.
Proof.
  intros [Hok Hnd]. unfold find_blob, staged_blobs. destruct (List.find _ _) as [[name x]|] eqn:Ef; [|done]. intros [= ->].
  apply find_some in Ef as [Hin%list_elem_of_In Hcase]. cbn [fst] in Hcase. intros Hs. apply elem_of_list_to_map_2, list_elem_of_fmap in Hs as ([name' d'] & [= Hname ->] & Hin').
  rewrite Forall_forall in Hok. destruct (blob_name_digits name (Hok _ Hin)) as [E1 L1], (blob_name_digits name' (Hok _ Hin')) as [E2 L2].
  assert (name = name') as <-.
  { rewrite E1, E2. f_equal. transitivity (map tolower (drop 2 blob)); [|by rewrite Hname].
    rewrite <- L1. change (map tolower) with (fmap (M := list) tolower). rewrite !fmap_drop. f_equal. by apply streq_eq. }
  rewrite list_elem_of_lookup in Hin, Hin'. destruct Hin as [i Hi], Hin' as [j Hj].
  assert (i = j) as <- by (apply (NoDup_lookup _ _ _ name Hnd); rewrite list_lookup_fmap; [by rewrite Hi|by rewrite Hj]). congruence.
Qed.

(** The paths a restoration may write: those of the list, and beside a database its journals. *)
Definition site_path (x : list Z) : Prop := exists q, restore_path_ok q = true /\ (x = q \/ x = q ++ CS "-wal" \/ x = q ++ CS "-shm").

(** A content the manifest names with its sum, or a secret. *)
Definition vouched (entries : list doc) (p d : list Z) : Prop :=
  secret_path_ok p = true \/ exists e, e ∈ entries /\ text_of (get (Some e) (CS "path")) = Some p /\ text_of (get (Some e) (CS "sha256")) = Some (sha_hex d).

Definition may_become (entries : list doc) (suffix p : list Z) (v : option (list Z)) : Prop :=
  exists x, site_path x /\ (p = aside_name x suffix \/ (p = x /\ (v = None \/ exists d, v = Some d /\ vouched entries p d))).

Definition inside (entries : list doc) (suffix : list Z) (target files : fs) : Prop := forall p, files !! p = target !! p \/ may_become entries suffix p (files !! p).

Lemma inside_delete entries suffix target files x : site_path x -> inside entries suffix target files -> inside entries suffix target (delete x files).
Proof.
  intros Hx H p. destruct (decide (p = x)) as [-> |Hne]; [|rewrite lookup_delete_ne by done; apply H].
  right. exists x. split; [done|]. right. split; [done|]. left. apply lookup_delete_eq.
Qed.

Lemma inside_aside entries suffix target files ok x : site_path x -> inside entries suffix target files -> inside entries suffix target (snd (move_aside ok x suffix files)).
Proof.
  intros Hx H. unfold move_aside. destruct (files !! x) as [d|]; [|done]. destruct ok; [|done]. cbn [snd]. intros p.
  destruct (decide (p = aside_name x suffix)) as [-> |Hne]; [right; exists x; by split; [|left]|]. rewrite lookup_insert_ne by done. by apply inside_delete.
Qed.

Lemma inside_place entries suffix target files x d : restore_path_ok x = true -> vouched entries x d -> inside entries suffix target files ->
  inside entries suffix target (<[x := d]> files).
Proof.
  intros Hx Hd H p. destruct (decide (p = x)) as [-> |Hne]; [|rewrite lookup_insert_ne by done; apply H].
  right. exists x. split; [by exists x; split; [|left]|]. right. split; [done|]. right. exists d. by rewrite lookup_insert_eq.
Qed.

Lemma entry_ok_spec a e : entry_ok a e = true -> exists path blob data,
  text_of (get (Some e) (CS "path")) = Some path /\ restore_path_ok path = true /\ text_of (get (Some e) (CS "blob")) = Some blob /\
  find_blob a blob = Some data /\ text_of (get (Some e) (CS "sha256")) = Some (sha_hex data).
Proof.
  unfold entry_ok. destruct (text_of (get (Some e) (CS "path"))) as [path|]; [|done]. destruct (restore_path_ok path) eqn:Hp; [|done]. cbn [andb].
  destruct (negb _); [|done]. cbn [andb]. destruct (text_of (get (Some e) (CS "blob"))) as [blob|]; [|done]. destruct (text_of (get (Some e) (CS "sha256"))) as [sha|]; [|done].
  destruct (find_blob a blob) as [data|] eqn:Hb; [|done]. intros [->%streq_eq _]%andb_true_iff. by exists path, blob, data.
Qed.

Lemma clear_way_inside entries suffix target files ok existing is_db path : restore_path_ok path = true -> inside entries suffix target files ->
  inside entries suffix target (snd (clear_way ok existing is_db suffix path files)).
Proof.
  intros Hp H. assert (S1 : site_path path) by (exists path; auto). assert (S2 : site_path (path ++ CS "-wal")) by (exists path; auto).
  assert (S3 : site_path (path ++ CS "-shm")) by (exists path; auto). unfold clear_way. destruct existing.
  - pose proof (inside_aside entries suffix target files (ok 0%nat) path S1 H) as H1. destruct (move_aside (ok 0%nat) path suffix files) as [r1 f1]. cbn [snd] in H1.
    destruct (r1 && is_db); [|done]. pose proof (inside_aside entries suffix target f1 (ok 1%nat) _ S2 H1) as H2. destruct (move_aside (ok 1%nat) _ suffix f1) as [r2 f2]. cbn [snd] in H2.
    destruct r2; [|done]. by apply inside_aside.
  - cbn [snd]. destruct is_db; [|done]. by apply inside_delete, inside_delete.
Qed.

(** What is staged is of the archive, and the site is changed inside its places. *)
Definition restoring_ok (a : archive_read) (entries : list doc) (suffix : list Z) (target : fs) (st : restoring) : Prop :=
  (forall k d, rs_stage st !! k = Some d -> staged_blobs a !! k = Some d) /\ inside entries suffix target (rs_files st).

Lemma restore_entry_inside a entries suffix target existing st item : blobs_ok a -> snd item ∈ entries -> entry_ok a (snd item) = true ->
  restoring_ok a entries suffix target st -> restoring_ok a entries suffix target (restore_entry existing suffix st item).
Proof.
  destruct item as [ok e]. cbn [snd]. intros Ha He Hok [Hstage Hin]. destruct (entry_ok_spec a e Hok) as (path & blob & data & Ep & Hp & Eb & Hb & Esha).
  unfold restore_entry. rewrite Ep, Eb. change (default [] (Some path)) with path. change (default [] (Some blob)) with blob. set (is_db := match text_of (get (Some e) (CS "kind")) with Some k => _ | None => _ end).
  pose proof (clear_way_inside entries suffix target (rs_files st) ok existing is_db path Hp Hin) as Hc.
  destruct (clear_way ok existing is_db suffix path (rs_files st)) as [step_ok files]. cbn [snd] in Hc. destruct step_ok; [|exact (conj Hstage Hc)].
  unfold place_file. destruct (rs_stage st !! drop 2 blob) as [d|] eqn:Es; [|exact (conj Hstage Hc)]. destruct (ok 3%nat); [|exact (conj Hstage Hc)]. split; cbn [rs_stage rs_files].
  - intros k d' Hk. apply Hstage. by apply lookup_delete_Some in Hk as [_ Hk].
  - apply inside_place; [done| |done]. right. exists e. split; [done|]. split; [done|]. rewrite Esha. do 2 f_equal. symmetry. eapply staged_found; [done|exact Hb|]. by apply Hstage.
Qed.

Lemma secret_restorable p : secret_path_ok p = true -> restore_path_ok p = true.
Proof. intros Hp%existsb_streq. unfold k_secret_paths in Hp. repeat (apply elem_of_cons in Hp as [-> |Hp]; [by vm_compute|]). by apply elem_of_nil in Hp. Qed.

Lemma restore_secret_inside a entries suffix target existing st item : restoring_ok a entries suffix target st ->
  restoring_ok a entries suffix target (restore_secret existing suffix st item).
Proof.
  destruct item as [ok sf]. intros [Hstage Hin]. unfold restore_secret. destruct (text_of (get (Some sf) (CS "path"))) as [path|]; [|by split].
  destruct (_ ≫= b64_decode) as [raw|]; [|by split]. destruct (secret_path_ok path) eqn:Hs; [|by split]. cbn [negb]. pose proof (secret_restorable path Hs) as Hp.
  assert (Hm : inside entries suffix target (snd (if existing then move_aside (ok 0%nat) path suffix (rs_files st) else (true, rs_files st)))).
  { destruct existing; [|done]. apply inside_aside; [exists path; auto|done]. }
  destruct (if existing then _ else _) as [r files]. cbn [snd] in Hm. destruct (r && ok 1%nat); split; cbn [rs_stage rs_files]; try done.
  apply inside_place; [done|by left|done].
Qed.

Lemma numbered_items_in ok l item : item ∈ numbered_items ok l -> snd item ∈ l.
Proof. unfold numbered_items. intros [n Hn]%list_elem_of_lookup. rewrite list_lookup_imap in Hn. destruct (l !! n) as [e|] eqn:E; [|done]. injection Hn as <-. by eapply list_elem_of_lookup_2. Qed.

Lemma foldl_keeps {A B} (P : A -> Prop) (f : A -> B -> A) l : (forall x a, x ∈ l -> P a -> P (f a x)) -> forall a, P a -> P (foldl f a l).
Proof. induction l as [|x l IH]; intros Hf a Ha; [done|]. cbn. apply IH; [intros y b Hy; apply Hf; by right|]. apply Hf; [by left|done]. Qed.

Lemma check_archive_spec a manifest sig m : check_archive a manifest sig = Some m ->
  cJSON_Parse manifest = Some m /\ (exists pk, text_of (get (get (Some m) (CS "signing_key")) (CS "public_key")) = Some pk /\ verify_manifest pk manifest sig = true) /\
  forall e, e ∈ children (get (Some m) (CS "entries")) -> entry_ok a e = true.
Proof.
  unfold check_archive. destruct (cJSON_Parse manifest) as [m'|]; [|done]. cbv zeta. destruct (negb _); [done|]. destruct (negb _); [done|].
  destruct (text_of (get (get (Some m') (CS "signing_key")) (CS "public_key"))) as [pk|] eqn:Epk; [|done].
  destruct (is_some (key_id_of_public pk)); [|done]. destruct (verify_manifest pk manifest sig) eqn:Ev; [|done]. cbn [negb orb].
  destruct (forallb _ _) eqn:Ef; [|done]. cbn [andb]. destruct (match get (Some m') (CS "secrets") with Some (DObject _) => _ | _ => _ end); [|done]. intros [= <-].
  split; [done|]. split; [by exists pk|]. intros e He. rewrite forallb_forall in Ef. by apply Ef, list_elem_of_In.
Qed.

Lemma staged_blobs_eq a : list_to_map (map (fun b => (drop 2 (fst b), snd b)) (ar_blobs a)) = staged_blobs a.
Proof. done. Qed.

(** C27: Whatever the archive and the site, a restoration leaves the site as it was, or the manifest carries
    the signature of the key it names and every path that changes is one of the places of a backup, a
    journal beside one, or the name such a file is kept under; what is placed there is a secret or has
    the sum the manifest gives for the path.  The checkpoint of the replication apart. *)
Theorem restore_stays_inside ok_stage ok ok_secrets ok_seq integrity force pass suffix file target :
  let '(rc, files) := cmd_restore ok_stage ok ok_secrets ok_seq integrity force pass suffix file target in
  (rc = 1 /\ files = target) \/
  (is_some (target !! CS "data/blog.db") && negb force = false /\
   exists a manifest sig m pk, read_archive file = Some (a, manifest, sig) /\ cJSON_Parse manifest = Some m /\
     text_of (get (get (Some m) (CS "signing_key")) (CS "public_key")) = Some pk /\ verify_manifest pk manifest sig = true /\
     forall p, p <> CS "data/.flywire_seq" -> files !! p = target !! p \/ may_become (children (get (Some m) (CS "entries"))) suffix p (files !! p)).
Proof.
  unfold cmd_restore. cbv zeta. destruct (is_some _ && negb force); [by left|]. destruct ok_stage; [|by left]. cbn [negb].
  destruct (read_archive file) as [[[a manifest] sig]|] eqn:Er; [|by left]. destruct (check_archive a manifest sig) as [m|] eqn:Ec; [|by left].
  apply check_archive_spec in Ec as (Em & (pk & Epk & Ev) & Hentries). apply read_archive_blobs in Er as Ha. rewrite staged_blobs_eq.
  set (secrets := match get (Some m) (CS "secrets") with Some (DObject _) => _ | _ => _ end). set (entries := children (get (Some m) (CS "entries"))) in *.
  set (st1 := foldl (restore_entry _ suffix) _ _). set (st2 := foldl (restore_secret _ suffix) st1 _).
  assert (H2 : restoring_ok a entries suffix target st2).
  { unfold st2. apply foldl_keeps; [intros; by apply restore_secret_inside|]. unfold st1. apply foldl_keeps.
    - intros item st Hitem%numbered_items_in. by apply restore_entry_inside; [| |apply Hentries].
    - split; [done|]. by left. }
  destruct H2 as [_ Hin]. assert (Hout : forall p, p <> CS "data/.flywire_seq" -> put_checkpoint ok_seq m (rs_files st2) !! p = rs_files st2 !! p).
  { intros p Hp. unfold put_checkpoint. destruct ok_seq; [by rewrite lookup_insert_ne|done]. }
  destruct secrets as [[s|]|]; [|by left|]; right; (split; [done|]); exists a, manifest, sig, m, pk; (split_and!; [done..|]); intros p Hp; rewrite Hout by done; apply Hin.
Qed.
End backup.

(** ** The keys of a process are as a backup needs them *)

Section process_keys.
Context {private_key public_key : Type} (SIG PUB : nat) (public_from_private : private_key -> option public_key) (marshal_public_key : public_key -> option (list Z))
  (parse_encoded : list Z -> option public_key) (MLDSA65_sign : private_key -> list Z -> list Z -> option (list Z)) (MLDSA65_verify : public_key -> list Z -> list Z -> list Z -> bool)
  (SHA256 : list Z -> list Z) (EVP_EncodeBlock : list Z -> list Z) (EVP_DecodeBlock : list Z -> option (list Z)).
Context (Hssl : boringssl_ok SIG PUB public_from_private marshal_public_key parse_encoded MLDSA65_sign MLDSA65_verify SHA256 EVP_EncodeBlock EVP_DecodeBlock).
(** The text of a signature is one line. *)
Context (Hline : forall d, length d = SIG -> bytes d -> Forall (fun c => c <> 0 /\ c <> 10 /\ c <> 13) (EVP_EncodeBlock d) /\ zlen (EVP_EncodeBlock d) <= 16000).

Lemma hex_text_line l : bytes l -> Forall (fun c => c <> 0 /\ c <> 10 /\ c <> 13) (hex_text l).
Proof.
  intros H. cut (Forall (fun c => 48 <= c) (hex_text l)); [intros Hc; eapply Forall_impl; [exact Hc|cbn; lia]|].
  assert (Hd : forall n, 0 <= n -> 48 <= hex_digit n) by (intros n Hn; unfold hex_digit; destruct (Z.ltb_spec n 10); [change (CH "0") with 48|change (CH "a") with 97]; lia).
  induction H as [|b l Hb _ IH]; [constructor|]. unfold hex_text in *. cbn [map concat]. apply Forall_app. split; [|done].
  repeat constructor; apply Hd; [apply Z.div_pos|apply Z.mod_pos_bound]; lia.
Qed.

Lemma sig_line_id s : Forall (fun c => c <> 0 /\ c <> 10 /\ c <> 13) s -> sig_line s = s.
Proof.
  unfold sig_line. induction 1 as [|c s (H0 & H1 & H2) _ IH]; [done|]. cbn [until_nul]. rewrite (proj2 (Z.eqb_neq _ _) H0). cbn [span].
  rewrite (proj2 (Z.eqb_neq _ _) H1), (proj2 (Z.eqb_neq _ _) H2). cbn [orb negb]. destruct (span _ (until_nul s)) as [x y]. cbn [fst] in *. by rewrite IH.
Qed.

Lemma process_keys_laws st priv pub : signs_with PUB public_from_private marshal_public_key SHA256 st priv pub ->
  @ManifestLaws (process_keys SIG PUB parse_encoded MLDSA65_sign MLDSA65_verify SHA256 EVP_EncodeBlock EVP_DecodeBlock st).
Proof.
  intros Hst. assert (Hpk : fly_crypto_pubkey_export EVP_EncodeBlock st = Some (base64_encode EVP_EncodeBlock (g_pub_encoded st))) by (destruct Hst as (Hr & _); unfold fly_crypto_pubkey_export; by rewrite Hr).
  pose proof (export_parse SIG PUB public_from_private marshal_public_key parse_encoded MLDSA65_sign MLDSA65_verify SHA256 EVP_EncodeBlock EVP_DecodeBlock Hssl st priv pub _ Hst Hpk) as Hparse.
  split; cbn [own_key_id own_public_key key_id_of_public sign_manifest verify_manifest process_keys].
  - intros id _. eexists. split; [exact Hpk|]. unfold fly_crypto_key_id_of. by rewrite Hparse.
  - intros msg sig pk Hsign Hpk'. rewrite Hpk in Hpk'. apply (inj Some) in Hpk'. subst pk.
    destruct (sign_spec SIG PUB public_from_private marshal_public_key parse_encoded MLDSA65_sign MLDSA65_verify SHA256 EVP_EncodeBlock EVP_DecodeBlock Hssl _ _ _ _ _ _ Hst Hsign)
      as (raw & -> & Hl & Hb & Hv).
    destruct (key_id_spec SIG PUB public_from_private marshal_public_key parse_encoded MLDSA65_sign MLDSA65_verify SHA256 EVP_EncodeBlock EVP_DecodeBlock Hssl (g_pub_encoded st)) as [Hlen Hcolon].
    unfold fly_crypto_verify_manifest, verify_against. rewrite Hparse. rewrite take_app_length' by done. rewrite streq_refl, drop_app_length' by done.
    change (take 1 (CS ":" ++ base64_encode EVP_EncodeBlock raw)) with (CS ":"). rewrite streq_refl. cbn [negb orb].
    rewrite verify_named by done. rewrite (check_signed SIG PUB public_from_private marshal_public_key parse_encoded MLDSA65_sign MLDSA65_verify SHA256 EVP_EncodeBlock EVP_DecodeBlock Hssl) by done.
    done.
  - intros msg sig Hsign.
    destruct (sign_spec SIG PUB public_from_private marshal_public_key parse_encoded MLDSA65_sign MLDSA65_verify SHA256 EVP_EncodeBlock EVP_DecodeBlock Hssl _ _ _ _ _ _ Hst Hsign)
      as (raw & -> & Hl & Hb & _).
    destruct (Hline raw Hl Hb) as [Hc Hs]. destruct (bo_sha _ _ _ _ _ _ _ _ _ _ Hssl (g_pub_encoded st)) as [Hsl Hsb]. unfold base64_encode. split.
    + apply sig_line_id. unfold key_id_of. change (concat (map hex_byte (take (FLY_PQC_KEY_ID_LEN / 2) (SHA256 (g_pub_encoded st))))) with (hex_text (take 8 (SHA256 (g_pub_encoded st)))).
      apply Forall_app. split; [|by constructor]. assert (Hf : bytes (take 8 (SHA256 (g_pub_encoded st)))) by (by apply Forall_take).
      by apply hex_text_line.
    + destruct (key_id_spec SIG PUB public_from_private marshal_public_key parse_encoded MLDSA65_sign MLDSA65_verify SHA256 EVP_EncodeBlock EVP_DecodeBlock Hssl (g_pub_encoded st)) as [Hlen _].
      rewrite !zlen_app. unfold zlen at 1. rewrite Hlen. change (Z.of_nat FLY_PQC_KEY_ID_LEN) with 16. change (zlen (CS ":")) with 1. lia.
Qed.
End process_keys.

(** ** A concrete site *)

Module SiteDemo.
(** Documents as lists of numbers, each with its length in front. *)
Fixpoint print (d : doc) : list Z :=
  match d with
  | DNumber n => [1; n]
  | DString s => 2 :: zlen s :: s
  | DArray l => 3 :: zlen l :: concat (map print l)
  | DObject l => 4 :: zlen l :: concat (map (fun f => zlen (fst f) :: fst f ++ print (snd f)) l)
  | DOther => [5]
  end.

Fixpoint times {A} (p : list Z -> option (A * list Z)) (n : nat) (s : list Z) : option (list A * list Z) :=
  match n with
  | O => Some ([], s)
  | S n => '(x, s) ← p s; '(l, s) ← times p n s; Some (x :: l, s)
  end.
Definition parse_field (p : list Z -> option (doc * list Z)) (s : list Z) : option (list Z * doc * list Z) :=
  match s with
  | n :: s => '(d, r) ← p (drop (Z.to_nat n) s); Some (take (Z.to_nat n) s, d, r)
  | [] => None
  end.
Fixpoint parse_from (fuel : nat) (s : list Z) : option (doc * list Z) :=
  match fuel with
  | O => None
  | S fuel =>
      match s with
      | 1 :: n :: s => Some (DNumber n, s)
      | 2 :: n :: s => Some (DString (take (Z.to_nat n) s), drop (Z.to_nat n) s)
      | 3 :: n :: s => '(l, s) ← times (parse_from fuel) (Z.to_nat n) s; Some (DArray l, s)
      | 4 :: n :: s => '(l, s) ← times (parse_field (parse_from fuel)) (Z.to_nat n) s; Some (DObject l, s)
      | 5 :: s => Some (DOther, s)
      | _ => None
      end
  end.
Definition parse (s : list Z) : option doc := match parse_from 9 s with Some (d, []) => Some d | _ => None end.

(** The names in a directory, those of its files and of its directories. *)
Fixpoint name_of (s : list Z) : list Z := match s with [] => [] | c :: s => if c =? CH "/" then [] else c :: name_of s end.
Definition name_in (dir p : list Z) : option (list Z) :=
  if starts_with (dir ++ CS "/") p then match name_of (drop (length dir + 1) p) with [] => None | name => Some name end else None.
Definition names (site : fs) (dir : list Z) : list (list Z) :=
  CS "." :: CS ".." :: remove_dups (omap (fun f => name_in dir (fst f)) (map_to_list site)).

Lemma name_of_app name r : CH "/" ∉ name -> path_rest r -> name_of (name ++ r) = name.
Proof.
  induction name as [|c name IH]; intros Hn Hr; [destruct r; [done|]; cbn in Hr; by subst|]. apply not_elem_of_cons in Hn as [Hc Hn].
  cbn [app name_of]. replace (c =? CH "/") with false by lia. by rewrite IH.
Qed.

Lemma name_in_spec dir p name : name_in dir p = Some name <-> name <> [] /\ (CH "/" ∉ name) /\ exists r, path_rest r /\ p = dir ++ CS "/" ++ name ++ r.
Proof.
  unfold name_in. split.
  - destruct (starts_with _ p) eqn:E; [|done]. apply starts_with_spec in E as [s ->]. rewrite <- app_assoc. cbn [app].
    rewrite <- drop_drop, drop_app_length. cbn [drop]. destruct (first_name s) as (name' & r & -> & Hn & Hr). rewrite drop_0, name_of_app by done.
    destruct name'; [done|]. intros [= <-]. split_and!; [done..|]. by exists r.
  - intros (Hne & Hn & r & Hr & ->). assert (E : starts_with (dir ++ CS "/") (dir ++ CS "/" ++ name ++ r) = true) by (rewrite app_assoc; apply starts_with_app).
    rewrite E. rewrite <- drop_drop, drop_app_length. change (drop 1 (CS "/" ++ name ++ r)) with (drop 0 (name ++ r)). rewrite drop_0, name_of_app by done. by destruct name.
Qed.

(** Each name of a path can be that of a file. *)
Definition path_good (p : list Z) : bool :=
  forallb (fun i => match drop i p with
    | c :: s => negb (c =? CH "/") || negb (existsb (streq (name_of s)) [[]; CS "."; CS ".."])
    | [] => true end) (seq 0 (length p)).
Definition site_good (site : fs) : bool :=
  forallb (fun f => path_good (fst f) && (length (fst f) <? PATH_MAX)%nat && forallb (fun g => negb (starts_with (fst f ++ CS "/") (fst g))) (map_to_list site)) (map_to_list site).

Lemma good_tree site : site_good site = true -> tree_ok names site.
Proof.
  intros H. unfold site_good in H. rewrite forallb_forall in H.
  assert (Hf : forall p, is_Some (site !! p) -> path_good p = true /\ (length p < PATH_MAX)%nat /\ forall q, is_Some (site !! q) -> starts_with (p ++ CS "/") q = false).
  { intros p [d Hp]. apply elem_of_map_to_list, list_elem_of_In, H in Hp. cbn [fst] in Hp. rewrite !andb_true_iff in Hp. destruct Hp as [[Hg Hl] Hq].
    split; [done|]. split; [by apply Nat.ltb_lt|]. intros q [dq Hdq]. rewrite forallb_forall in Hq. apply elem_of_map_to_list, list_elem_of_In, Hq in Hdq. by destruct (starts_with _ _). }
  split.
  - intros dir name. unfold names. rewrite !elem_of_cons. do 2 apply or_iff_compat_l. rewrite elem_of_remove_dups, list_elem_of_omap. split.
    + intros ([p d] & Hp%elem_of_map_to_list & Hname). cbn [fst] in Hname. apply name_in_spec in Hname as (Hne & Hn & r & Hr & ->). split_and!; [done..|]. exists r. by split; [|eexists].
    + intros (Hne & Hn & r & Hr & [d Hd]). eexists (_, d). split; [by apply elem_of_map_to_list|]. apply name_in_spec. split_and!; [done..|]. by exists r.
  - intros dir name r Hs Hn Hr. destruct (Hf _ Hs) as [Hg _]. unfold path_good in Hg. rewrite forallb_forall in Hg. specialize (Hg (length dir)).
    rewrite drop_app_length in Hg. cbn [app] in Hg. rewrite name_of_app in Hg by done. rewrite Z.eqb_refl in Hg. cbn [negb orb] in Hg.
    assert (Hb : existsb (streq name) [[]; CS "."; CS ".."] = false).
    { apply negb_true_iff, Hg, in_seq. rewrite length_app. cbn. lia. }
    split_and!; intros ->; by vm_compute in Hb.
  - intros p r Hp. destruct (site !! (p ++ CS "/" ++ r)) as [d|] eqn:E; [|done]. destruct (Hf _ Hp) as (_ & _ & Hq). specialize (Hq _ (mk_is_Some _ _ E)).
    by rewrite app_assoc, starts_with_app in Hq.
  - intros p Hp. by apply Hf.
Qed.

(** The keys of a process whose seed is 7, the other libraries simplified. *)
#[global] Instance demo_keys : ManifestKeys := process_keys 1 1 (@Some (list Z)) Demo.sign Demo.verify (demo_out 32) Demo.encode Demo.decode (start [7]).
Definition scrypt (pass salt : list Z) (n r p : Z) : option (list Z) := Some (demo_out 32 (pass ++ salt)).
Definition seal (key nonce text ad : list Z) : option (list Z) := Some (text ++ demo_out 16 (key ++ nonce ++ text ++ ad)).
Definition unseal (key nonce sealed ad : list Z) : option (list Z) :=
  let text := take (length sealed - 16) sealed in if streq sealed (text ++ demo_out 16 (key ++ nonce ++ text ++ ad)) then Some text else None.
(** A snapshot is the database without its journal mode. *)
Definition snapshot (db : list Z) : option (list Z) := Some (0 :: db).
Definition time (p : list Z) : Z := 1700000000 + zlen p.
Definition real (p : list Z) : option (list Z) := Some (CS "/srv/" ++ p).

#[global] Instance demo_laws : ManifestLaws.
Proof.
  apply (process_keys_laws 1 1 (@Some (list Z)) Demo.marshal (@Some (list Z)) Demo.sign Demo.verify (demo_out 32) Demo.encode Demo.decode Demo.ssl_ok) with (priv := [7]) (pub := [7]).
  - intros d Hl Hb. destruct d as [|x [|]]; [done| |done]. apply Forall_cons in Hb as [Hx _]. split; [|by vm_compute].
    cbn [Demo.encode]. assert (Hc : forall n, 0 <= n < 64 -> 43 <= Demo.b64_char n) by (intros n Hn; unfold Demo.b64_char; repeat case_match; lia).
    pose proof (Hc (x / 4)). pose proof (Hc (x `mod` 4 * 16)). repeat constructor; Z.to_euclidean_division_equations; lia.
  - by apply start_signs.
Qed.

Lemma demo_tools : tools_ok (fun s => s) (fun s => s) Demo.encode Demo.decode seal unseal.
Proof.
  split; [done|exact Demo.base64_roundtrip|]. intros key nonce plain ad sealed [= <-]. unfold unseal. rewrite length_app, length_demo_out, Nat.add_sub.
  rewrite take_app_length. by rewrite streq_refl.
Qed.

Definition backup := fly_backup_write (fun s => s) (demo_out 32) Demo.encode scrypt seal print print snapshot names time time real.
Definition verify := cmd_verify (fun s => s) (demo_out 32) Demo.decode scrypt unseal parse.
Definition restore := cmd_restore (fun s => s) (demo_out 32) Demo.decode scrypt unseal parse.

Definition report : site_report := SiteReport (CS "2026-01-01T00:00:00Z") (CS "blog") 3 3 42.
Definition entropy : option (list Z * list Z) := Some (replicate 16 5, replicate 12 6).
Definition site : fs := list_to_map [(CS "data/blog.db", [1; 2; 3]); (CS "blog.settings", CS "title=Fly"); (CS "public/uploads/17_cat.png", [137; 80; 78; 71]);
  (CS "public/uploads/.thumbs/1.webp", [82; 73]); (CS "data/.jwt_secret", [9; 9])].
(** A fresh install with the journal of an empty database. *)
Definition fresh : fs := list_to_map [(CS "data/blog.db-wal", [66]); (CS "robots.settings", CS "x")].
End SiteDemo.

Lemma saved_copy_some (snap : list Z -> option (list Z)) (site : fs) p : is_Some (saved_copy snap site p) -> is_Some (site !! p).
Proof. unfold saved_copy. intros [d H]. destruct (site !! p); [done|]. by repeat case_match. Qed.

Lemma demo_site_ok : site_ok SiteDemo.snapshot SiteDemo.names SiteDemo.site.
Proof.
  assert (Hall : forall f, f ∈ map_to_list SiteDemo.site -> (restore_path_ok (fst f) && (negb (secret_path_ok (fst f)) || bool_decide (snd f = [9; 9]))) = true).
  { intros f Hf%list_elem_of_In. revert f Hf. apply forallb_forall. by vm_compute. }
  split.
  - apply SiteDemo.good_tree. by vm_compute.
  - intros p [d Hd]%saved_copy_some. apply elem_of_map_to_list, Hall in Hd. by apply andb_true_iff in Hd as [Hd _].
  - intros p d Hp Hd. apply elem_of_map_to_list, Hall in Hd. cbn [fst snd] in Hd. rewrite Hp in Hd. cbn [negb orb] in Hd. apply andb_true_iff in Hd as [_ Hd].
    apply bool_decide_eq_true in Hd as ->. split; [done|]. split; [|by vm_compute]. repeat constructor; lia.
Qed.

Lemma demo_random_ok : random_ok SiteDemo.entropy.
Proof. intros salt nonce [= <- <-]. split_and!; try done; repeat constructor; lia. Qed.

(** The documents of a concrete backup are printed and parsed. *)
Ltac demo_documents :=
  split;
  [by vm_compute
  |let H := fresh in intros ? ? H; vm_compute in H; apply (inj Some) in H; apply pair_equal_spec in H as [<- _]; by vm_compute
  |let H1 := fresh in let H2 := fresh in let H3 := fresh in let H4 := fresh in
   intros ? ? ? ? H1 H2 H3 H4; vm_compute in H1; apply (inj Some) in H1; vm_compute in H2; apply (inj Some) in H2; vm_compute in H3; apply (inj Some) in H3; subst;
   destruct H4 as [-> | <-]; split; by vm_compute].

Lemma demo_documents_ok : documents_ok (demo_out 32) Demo.encode SiteDemo.scrypt SiteDemo.seal SiteDemo.print SiteDemo.print SiteDemo.parse SiteDemo.snapshot SiteDemo.names
  SiteDemo.time SiteDemo.time (Some (CS "correct horse")) SiteDemo.entropy SiteDemo.report SiteDemo.site.
Proof. demo_documents. Qed.


(** An upload keeps the dots of its name. *)
Lemma dotted_backup_unusable_witness :
  let notes := CS "public/uploads/1700000000_notes..txt" in
  let site := <[notes := CS "x"]> SiteDemo.site in
  Strutil.fb_sanitize_filename (Some (CS "notes..txt")) = Some (CS "notes..txt") /\
  exists archive, SiteDemo.backup (CS "site.tar.zst") None SiteDemo.entropy 1700000000 SiteDemo.report site = Some archive /\ SiteDemo.verify None archive = false /\
    SiteDemo.restore true (fun _ _ => true) (fun _ _ => true) true (fun _ => true) true None (CS "20260101") archive SiteDemo.fresh = (1, SiteDemo.fresh).
Proof.
  cbv zeta. split; [by vm_compute|]. set (notes := CS "public/uploads/1700000000_notes..txt").
  destruct (SiteDemo.backup (CS "site.tar.zst") None SiteDemo.entropy 1700000000 SiteDemo.report (<[notes := CS "x"]> SiteDemo.site)) as [archive|] eqn:E; [|by vm_compute in E].
  exists archive. split; [done|].
  assert (T : tree_ok SiteDemo.names (<[notes := CS "x"]> SiteDemo.site)) by (apply SiteDemo.good_tree; by vm_compute).
  assert (D : documents_ok (demo_out 32) Demo.encode SiteDemo.scrypt SiteDemo.seal SiteDemo.print SiteDemo.print SiteDemo.parse SiteDemo.snapshot SiteDemo.names
    SiteDemo.time SiteDemo.time None SiteDemo.entropy SiteDemo.report (<[notes := CS "x"]> SiteDemo.site)) by demo_documents.
  destruct (dotted_backup_unusable _ _ _ _ _ _ _ _ _ _ _ _ _ _ _ _ SiteDemo.demo_tools _ _ _ _ _ _ _ notes (CS "x") T D E) as [H1 H2]; [by rewrite lookup_insert_eq|by vm_compute..|].
  split; [apply H1|apply H2].
Defined.

Lemma restore_stays_inside_witness :
  exists archive, SiteDemo.backup (CS "site.tar.zst") None SiteDemo.entropy 1700000000 SiteDemo.report SiteDemo.site = Some archive /\
    let '(rc, files) := SiteDemo.restore true (fun _ _ => true) (fun _ _ => true) true (fun _ => true) true None (CS "20260101") archive SiteDemo.site in
    rc = 0 /\ files !! CS "data/blog.db.pre-restore-20260101" = Some [1; 2; 3] /\
    exists manifest pk sig, verify_manifest pk manifest sig = true.
Proof.
  assert (HR : match SiteDemo.backup (CS "site.tar.zst") None SiteDemo.entropy 1700000000 SiteDemo.report SiteDemo.site with
    | Some archive =>
        let R := SiteDemo.restore true (fun _ _ => true) (fun _ _ => true) true (fun _ => true) true None (CS "20260101") archive SiteDemo.site in
        fst R = 0 /\ snd R !! CS "data/blog.db.pre-restore-20260101" = Some [1; 2; 3]
    | None => False end) by (by vm_compute).
  destruct (SiteDemo.backup (CS "site.tar.zst") None SiteDemo.entropy 1700000000 SiteDemo.report SiteDemo.site) as [archive|]; [|done].
  exists archive. split; [done|]. cbv zeta in HR.
  pose proof (restore_stays_inside (fun s => s) (fun s => s) (demo_out 32) Demo.encode Demo.decode SiteDemo.scrypt SiteDemo.seal SiteDemo.unseal SiteDemo.parse SiteDemo.snapshot
    SiteDemo.time SiteDemo.time SiteDemo.real true (fun _ _ => true) (fun _ _ => true) true (fun _ => true) true None (CS "20260101") archive SiteDemo.site) as H.
  unfold SiteDemo.restore in *. destruct (cmd_restore _ _ _ _ _ _ _ _ _ _ _ _ _ _ _ _) as [rc files]. cbn [fst snd] in HR. destruct HR as [-> Hf]. split; [done|]. split; [done|].
  destruct H as [[H _]|(_ & a & manifest & sig & m & pk & _ & _ & _ & Hv & _)]; [done|]. by exists manifest, pk, sig.
Defined.
