(* ===== verification/Moderation.v ===== *)
(** * The approval queue (src/src/db/moderation.c, with the statements of src/src/db/comment.c)

    Posts, comments, queued items, requests to an external reviewer and receipts of its decisions are
    tables keyed as their unique indexes say.  Posts and queue live in one database and comments in
    another, and nothing is a transaction: [ok] tells for the n-th statement of an operation that
    writes whether it succeeds, so a crash after the n-th is an [ok] that is false from there on.
    Times are seconds; queries are answered.  The journal of the sites is Flywire's. *)
From stdpp Require Import gmap.
From S2P Require Import Prelude CStr Aho ModerationFilter Community.

Definition MODERATION_NEW_ACCOUNT_HOURS : Z := 24.
Definition MODERATION_NEW_POST_LIMIT : Z := 1.
Definition MODERATION_NEW_COMMENT_LIMIT : Z := 3.
Definition MODERATION_TRUST_ACCOUNT_DAYS : Z := 7.
Definition MODERATION_TRUST_APPROVED_ITEMS : Z := 3.
Definition MODERATION_MAX_LINKS : Z := 5.
Definition MODERATION_POST : cstr := CS "post".
Definition MODERATION_COMMENT : cstr := CS "comment".

Inductive moderation_action := MODERATION_ALLOW | MODERATION_PENDING | MODERATION_REJECT.
Record moderation_decision := Decision { de_action : moderation_action; de_reason : list Z }.

#[export] Instance moderation_action_dec : EqDecision moderation_action.
Proof. solve_decision. Defined.

(** ** Texts *)

(** The loop of [normalized]: what was written, and whether a blank was read since. *)
Definition normalized_step (s : list Z * bool) (c : Z) : list Z * bool :=
  let '(out, space) := s in
  if isspace c then (out, (0 <? length out)%nat)
  else ((if space then out ++ [32] else out) ++ [tolower c], false).
Definition normalized (content : cstr) : cstr := fst (foldl normalized_step ([], false) content).

(** [skip] characters of the link that was counted last are passed over. *)
Fixpoint links_from (skip : nat) (s : cstr) : Z :=
  match s with
  | [] => 0
  | _ :: r =>
      match skip with
      | S skip => links_from skip r
      | O =>
          if starts_with (CS "http://") (map tolower s) then 1 + links_from 6 r
          else if starts_with (CS "https://") (map tolower s) then 1 + links_from 7 r
          else links_from 0 r
      end
  end.
Definition link_count (content : cstr) : Z := links_from 0 content.

(** ** Tables *)

Record post_row := PostRow { po_board : Z; po_user : Z; po_content : list Z; po_status : list Z; po_created : Z; po_announced : bool }.
Record comment_row := CommentRow {
  co_type : list Z; co_target : Z; co_user : Z; co_author : list Z; co_parent : option Z;
  co_content : list Z; co_created : Z; co_deleted : bool }.
Record moderation_item := Item {
  mi_user : Z; mi_content : list Z; mi_author : list Z; mi_kind : list Z; mi_ref : Z; mi_parent : Z;
  mi_reason : list Z; mi_status : list Z; mi_reviewer : option Z; mi_created : Z }.
Record external_request := Request { rq_type : list Z; rq_target : Z; rq_issued : Z; rq_expires : Z }.
Record decision_receipt := Receipt { rc_correlation : list Z; rc_action : list Z; rc_issued : Z; rc_reason : list Z }.

Record content_db := ContentDb {
  db_posts : gmap Z post_row;
  db_comments : gmap Z comment_row;
  db_next_comment : Z;
  db_items : gmap (list Z * Z) moderation_item;
  db_requests : gmap (list Z) external_request;
  db_receipts : gmap (list Z) decision_receipt;
  (** when the accounts were made *)
  db_members : gmap Z Z;
}.

Definition set_posts (t : gmap Z post_row) (db : content_db) : content_db :=
  ContentDb t (db_comments db) (db_next_comment db) (db_items db) (db_requests db) (db_receipts db) (db_members db).
Definition set_comments (t : gmap Z comment_row) (db : content_db) : content_db :=
  ContentDb (db_posts db) t (db_next_comment db) (db_items db) (db_requests db) (db_receipts db) (db_members db).
Definition set_items (t : gmap (list Z * Z) moderation_item) (db : content_db) : content_db :=
  ContentDb (db_posts db) (db_comments db) (db_next_comment db) t (db_requests db) (db_receipts db) (db_members db).
Definition set_requests (t : gmap (list Z) external_request) (db : content_db) : content_db :=
  ContentDb (db_posts db) (db_comments db) (db_next_comment db) (db_items db) t (db_receipts db) (db_members db).
Definition set_receipts (t : gmap (list Z) decision_receipt) (db : content_db) : content_db :=
  ContentDb (db_posts db) (db_comments db) (db_next_comment db) (db_items db) (db_requests db) t (db_members db).

(** ** Statements on comments *)

Definition db_comment_create (ok : bool) (now : Z) (target_type : cstr) (target_id user_id : Z) (author : cstr) (parent_id : Z)
    (content : cstr) (db : content_db) : Z * content_db :=
  if negb ok then (-1, db)
  else
    let row := CommentRow target_type target_id user_id author (if 0 <? parent_id then Some parent_id else None) content now false in
    (db_next_comment db,
     ContentDb (db_posts db) (<[db_next_comment db := row]> (db_comments db)) (db_next_comment db + 1)
       (db_items db) (db_requests db) (db_receipts db) (db_members db)).

Definition with_content (content : cstr) (deleted : bool) (r : comment_row) : comment_row :=
  CommentRow (co_type r) (co_target r) (co_user r) (co_author r) (co_parent r) content (co_created r) deleted.

(** [UPDATE comments SET ... WHERE id=? AND <guard>]: whether it succeeded and whether a row changed. *)
Definition update_comment (ok : bool) (id : Z) (guard : comment_row -> bool) (f : comment_row -> comment_row) (db : content_db) :
    bool * bool * content_db :=
  if negb ok then (false, false, db)
  else match db_comments db !! id with
       | Some r => if guard r then (true, true, set_comments (<[id := f r]> (db_comments db)) db) else (true, false, db)
       | None => (true, false, db)
       end.

Definition db_comment_update (ok : bool) (id user_id : Z) (content : cstr) (db : content_db) : bool * content_db :=
  let '(done, _, db) := update_comment ok id (fun r => (co_user r =? user_id) && negb (co_deleted r)) (with_content content false) db in (done, db).
Definition db_comment_delete (ok : bool) (id user_id : Z) (db : content_db) : bool * content_db :=
  let '(done, _, db) := update_comment ok id (fun r => (co_user r =? user_id) && negb (co_deleted r)) (with_content [] true) db in (done, db).
Definition db_comment_delete_admin (ok : bool) (id : Z) (db : content_db) : bool * content_db :=
  let '(done, _, db) := update_comment ok id (fun r => negb (co_deleted r)) (with_content [] true) db in (done, db).

Definition db_post_delete (ok : bool) (id : Z) (db : content_db) : bool * content_db :=
  (ok, if ok then set_posts (delete id (db_posts db)) db else db).

(** ** What a submission is checked for *)

(** The earlier bodies of a writer: posts of any state; comments that are shown, and those that wait. *)
Definition posts_of (uid : Z) (db : content_db) : list post_row :=
  List.filter (fun p => po_user p =? uid) (map snd (map_to_list (db_posts db))).
Definition comments_of (uid : Z) (db : content_db) : list comment_row :=
  List.filter (fun c => co_user c =? uid) (map snd (map_to_list (db_comments db))).
Definition items_of (uid : Z) (target_type : option cstr) (status : cstr) (db : content_db) : list moderation_item :=
  map snd (List.filter (fun kv => match target_type with Some t => streq (fst (fst kv)) t | None => true end &&
                                  (mi_user (snd kv) =? uid) && streq (mi_status (snd kv)) status) (map_to_list (db_items db))).

Definition duplicate_rows (rows : list (list Z)) (want : cstr) : bool := existsb (fun text => streq (normalized text) want) rows.

Definition duplicate_content (db : content_db) (uid : Z) (target_type want : cstr) : bool :=
  if streq target_type MODERATION_POST then duplicate_rows (map po_content (posts_of uid db)) want
  else duplicate_rows (map co_content (List.filter (fun c => negb (co_deleted c)) (comments_of uid db))) want ||
       duplicate_rows (map mi_content (items_of uid (Some MODERATION_COMMENT) (CS "pending") db)) want.

Definition account_is_new (now : Z) (db : content_db) (uid : Z) : bool :=
  if uid <=? 0 then false
  else match db_members db !! uid with
       | Some created => (now <? created) || (now - MODERATION_NEW_ACCOUNT_HOURS * 3600 <? created)
       | None => false
       end.

Definition recent_count (now : Z) (db : content_db) (uid : Z) (target_type : cstr) : Z :=
  let recent created := now - 24 * 3600 <=? created in
  if streq target_type MODERATION_POST then zlen (List.filter (fun p => recent (po_created p)) (posts_of uid db))
  else zlen (List.filter (fun c => recent (co_created c)) (comments_of uid db)) +
       zlen (List.filter (fun m => recent (mi_created m)) (items_of uid (Some MODERATION_COMMENT) (CS "pending") db)).

Definition trusted (now : Z) (db : content_db) (uid : Z) : bool :=
  if uid <=? 0 then false
  else match db_members db !! uid with
       | Some created => created <=? now - MODERATION_TRUST_ACCOUNT_DAYS * 86400
       | None => false
       end || (MODERATION_TRUST_APPROVED_ITEMS <=? zlen (items_of uid None (CS "approved") db)).

Definition moderation_can_review (c : community_config) (role : cstr) : bool := community_role_can_moderate c role.

(** The last part of the check: the heuristics and the queue. *)
Definition check_spam (c : community_config) (db : content_db) (uid : Z) (is_trusted : bool) (target_type content : cstr) : moderation_decision :=
  if cc_spam_detection c && (MODERATION_MAX_LINKS <? link_count content) then Decision MODERATION_PENDING (CS "excessive_links")
  else if cc_spam_detection c && duplicate_content db uid target_type (normalized content) then Decision MODERATION_PENDING (CS "duplicate_content")
  else if cc_approval_queue c && negb is_trusted then Decision MODERATION_PENDING (CS "approval_queue")
  else Decision MODERATION_ALLOW [].

Definition moderation_check_submission (c : community_config) (s : shared_filter) (m : process_matcher) (now : Z) (db : content_db)
    (uid : Z) (role : cstr) (target_type : option cstr) (content : cstr) : moderation_decision * process_matcher :=
  match target_type with
  | None => (Decision MODERATION_REJECT (CS "invalid"), m)
  | Some t =>
      if negb (streq t MODERATION_POST) && negb (streq t MODERATION_COMMENT) then (Decision MODERATION_REJECT (CS "invalid"), m)
      else if moderation_can_review c role then (Decision MODERATION_ALLOW [], m)
      else
        let filter := sf_policy s in
        if negb (mf_enabled filter) && negb (cc_new_user_limits c) && negb (cc_trust c) && negb (cc_spam_detection c) && negb (cc_approval_queue c)
        then (Decision MODERATION_ALLOW [], m)
        else
          let '(matched, action, m) := if mf_enabled filter then moderation_filter_check alone (Some content) s m else (false, None, m) in
          if matched : bool then
            (Decision (match action with Some MODERATION_FILTER_REJECT => MODERATION_REJECT | _ => MODERATION_PENDING end) (CS "banned_content"), m)
          else
            let is_trusted := cc_trust c && trusted now db uid in
            let limit := if streq t MODERATION_POST then MODERATION_NEW_POST_LIMIT else MODERATION_NEW_COMMENT_LIMIT in
            if cc_new_user_limits c && negb is_trusted && account_is_new now db uid && (limit <=? recent_count now db uid t) then
              (Decision MODERATION_REJECT (if streq t MODERATION_POST then CS "new_user_post_limit" else CS "new_user_comment_limit"), m)
            else (check_spam c db uid is_trusted t content, m)
  end.

(** ** The queue *)

Definition queue_row (ok : bool) (now : Z) (target_type : cstr) (target_id uid : Z) (content author kind : cstr) (ref parent : Z) (reason : cstr)
    (db : content_db) : bool * content_db :=
  match db_items db !! (target_type, target_id) with
  | None =>
      if ok then (true, set_items (<[(target_type, target_id) := Item uid content author kind ref parent reason (CS "pending") None now]> (db_items db)) db)
      else (false, db)
  | Some _ => (false, db)
  end.

Definition db_moderation_queue_post (ok : bool) (now post_id uid : Z) (reason : cstr) (db : content_db) : bool * content_db :=
  if 0 <? post_id then queue_row ok now MODERATION_POST post_id uid [] [] [] 0 0 reason db else (false, db).

(** The comment is stored as any other, then hidden, then queued. *)
Definition db_moderation_create_pending_comment (ok : nat -> bool) (now : Z) (target_type : cstr) (target_id uid : Z) (author : cstr) (parent_id : Z)
    (content reason : cstr) (db : content_db) : Z * content_db :=
  let '(id, db) := db_comment_create (ok 0%nat) now target_type target_id uid author parent_id content db in
  if id <=? 0 then (-1, db)
  else
    let '(hidden, db) := db_comment_delete_admin (ok 1%nat) id db in
    let '(queued, db) := if hidden then queue_row (ok 2%nat) now MODERATION_COMMENT id uid content author target_type target_id parent_id reason db
                         else (false, db) in
    if queued then (id, db)
    else (-1, if ok 3%nat then set_comments (delete id (db_comments db)) db else db).

Definition pending_item (db : content_db) (target_type : cstr) (target_id : Z) : option moderation_item :=
  match db_items db !! (target_type, target_id) with
  | Some i => if streq (mi_status i) (CS "pending") then Some i else None
  | None => None
  end.

Definition with_status (status : cstr) (reviewer : Z) (i : moderation_item) : moderation_item :=
  Item (mi_user i) (mi_content i) (mi_author i) (mi_kind i) (mi_ref i) (mi_parent i) (mi_reason i) status (Some reviewer) (mi_created i).

Definition finish_review (ok : bool) (target_type : cstr) (target_id reviewer : Z) (status : cstr) (db : content_db) : bool * content_db :=
  match pending_item db target_type target_id with
  | Some i => if ok then (true, set_items (<[(target_type, target_id) := with_status status reviewer i]> (db_items db)) db) else (false, db)
  | None => (false, db)
  end.

(** [UPDATE posts SET status='published' ... WHERE id=? AND status='pending'] *)
Definition publish_pending (ok : bool) (id : Z) (db : content_db) : bool * content_db :=
  match db_posts db !! id with
  | Some p =>
      if ok && streq (po_status p) (CS "pending")
      then (true, set_posts (<[id := PostRow (po_board p) (po_user p) (po_content p) (CS "published") (po_created p) false]> (db_posts db)) db)
      else (false, db)
  | None => (false, db)
  end.

Definition db_moderation_approve (ok : nat -> bool) (target_type : cstr) (target_id reviewer : Z) (db : content_db) : bool * content_db :=
  match pending_item db target_type target_id with
  | None => (false, db)
  | Some item =>
      let '(done, db) :=
        if streq target_type MODERATION_POST then publish_pending (ok 0%nat) target_id db
        else if streq target_type MODERATION_COMMENT then
          let '(_, changed, db) := update_comment (ok 0%nat) target_id co_deleted (with_content (mi_content item) false) db in (changed, db)
        else (false, db) in
      if done then finish_review (ok 1%nat) target_type target_id reviewer (CS "approved") db else (false, db)
  end.

Definition db_moderation_reject (ok : nat -> bool) (target_type : cstr) (target_id reviewer : Z) (db : content_db) : bool * content_db :=
  match pending_item db target_type target_id with
  | None => (false, db)
  | Some _ =>
      let '(done, db) :=
        if streq target_type MODERATION_POST then db_post_delete (ok 0%nat) target_id db
        else (streq target_type MODERATION_COMMENT, db) in
      if done then finish_review (ok 1%nat) target_type target_id reviewer (CS "rejected") db else (false, db)
  end.

(** The comments of a page without those that wait for review. *)
Definition db_moderation_filter_comments (db : content_db) (comments : list (Z * comment_row)) : list (Z * comment_row) :=
  List.filter (fun c => match pending_item db MODERATION_COMMENT (fst c) with Some _ => false | None => true end) comments.

Definition db_moderation_target_board_id (db : content_db) (target_type : cstr) (target_id : Z) : Z :=
  if target_id <=? 0 then 0
  else
    let post_id :=
      if streq target_type MODERATION_COMMENT then
        match db_comments db !! target_id with
        | Some c => if streq (co_type c) (CS "post") then co_target c else 0
        | None => 0
        end
      else if streq target_type MODERATION_POST then target_id else 0 in
    if post_id <=? 0 then 0 else match db_posts db !! post_id with Some p => po_board p | None => 0 end.

(** ** Decisions of an external reviewer *)

Inductive moderation_external_result :=
| MODERATION_EXTERNAL_ERROR | MODERATION_EXTERNAL_APPLIED | MODERATION_EXTERNAL_DUPLICATE | MODERATION_EXTERNAL_REJECTED.

#[export] Instance moderation_external_result_dec : EqDecision moderation_external_result.
Proof. solve_decision. Defined.

(** The content and the reason that go to the reviewer. *)
Definition db_moderation_external_create (ok : bool) (target_type : cstr) (target_id : Z) (correlation_id : cstr) (issued_at expires_at : Z)
    (db : content_db) : option (list Z * list Z) * content_db :=
  if (target_id <=? 0) || (expires_at <=? issued_at) then (None, db)
  else if negb ok || bool_decide (is_Some (db_requests db !! correlation_id)) ||
          existsb (fun kv => streq (rq_type (snd kv)) target_type && (rq_target (snd kv) =? target_id)) (map_to_list (db_requests db))
  then (None, db)
  else
    let db := set_requests (<[correlation_id := Request target_type target_id issued_at expires_at]> (db_requests db)) db in
    let kind := if streq target_type MODERATION_POST then MODERATION_POST else MODERATION_COMMENT in
    (match pending_item db kind target_id with
     | Some i =>
         if streq target_type MODERATION_POST then match db_posts db !! target_id with Some p => Some (po_content p, mi_reason i) | None => None end
         else Some (mi_content i, mi_reason i)
     | None => None
     end, db).

Definition external_action_name (a : moderation_action) : cstr :=
  match a with MODERATION_ALLOW => CS "allow" | MODERATION_PENDING => CS "pending" | MODERATION_REJECT => CS "reject" end.

Definition same_receipt (r : decision_receipt) (correlation_id : cstr) (action : moderation_action) (issued_at : Z) (reason : cstr) : bool :=
  streq (rc_correlation r) correlation_id && streq (rc_action r) (external_action_name action) && (rc_issued r =? issued_at) && streq (rc_reason r) reason.

(** The request of a decision, as long as its item waits. *)
Definition open_request (db : content_db) (correlation_id : cstr) : option external_request :=
  match db_requests db !! correlation_id with
  | Some q => match pending_item db (rq_type q) (rq_target q) with Some _ => Some q | None => None end
  | None => None
  end.

Definition in_time (q : external_request) (issued_at now : Z) : bool :=
  negb ((rq_expires q <? now) || (now + 300 <? issued_at) || (issued_at <? rq_issued q - 300)).

(** The receipt is written first and taken back when the decision cannot be applied; statements 0 and
    3 are the receipt's, 1 and 2 the review's. *)
Definition db_moderation_external_apply (ok : nat -> bool) (correlation_id decision_id : cstr) (action : moderation_action) (issued_at : Z)
    (reason : cstr) (now : Z) (db : content_db) : moderation_external_result * content_db :=
  match db_receipts db !! decision_id with
  | Some r => (if same_receipt r correlation_id action issued_at reason then MODERATION_EXTERNAL_DUPLICATE else MODERATION_EXTERNAL_REJECTED, db)
  | None =>
      match open_request db correlation_id with
      | None => (MODERATION_EXTERNAL_REJECTED, db)
      | Some q =>
          if negb (in_time q issued_at now) then (MODERATION_EXTERNAL_REJECTED, db)
          else if negb (ok 0%nat) then (MODERATION_EXTERNAL_DUPLICATE, db)
          else
            let db := set_receipts (<[decision_id := Receipt correlation_id (external_action_name action) issued_at reason]> (db_receipts db)) db in
            let target_type := snprintf_s 16 (rq_type q) in
            let ok' n := ok (S n) in
            let '(done, db) :=
              match action with
              | MODERATION_ALLOW => db_moderation_approve ok' target_type (rq_target q) 0 db
              | MODERATION_REJECT => db_moderation_reject ok' target_type (rq_target q) 0 db
              | MODERATION_PENDING => (true, db)
              end in
            if done then (MODERATION_EXTERNAL_APPLIED, db)
            else (MODERATION_EXTERNAL_ERROR, if ok 3%nat then set_receipts (delete decision_id (db_receipts db)) db else db)
      end
  end.

(** ** Histories *)

Inductive queue_op :=
| Create (ok : bool) (now : Z) (target_type : list Z) (target_id uid : Z) (author : list Z) (parent : Z) (content : list Z)
| Submit (ok : nat -> bool) (now : Z) (target_type : list Z) (target_id uid : Z) (author : list Z) (parent : Z) (content reason : list Z)
| Edit (ok : bool) (id uid : Z) (content : list Z)
| Remove (ok : bool) (id uid : Z)
| Remove_admin (ok : bool) (id : Z)
| Queue_post (ok : bool) (now id uid : Z) (reason : list Z)
| Approve (ok : nat -> bool) (target_type : list Z) (id reviewer : Z)
| Reject (ok : nat -> bool) (target_type : list Z) (id reviewer : Z)
| Ask (ok : bool) (target_type : list Z) (id : Z) (correlation : list Z) (issued expires : Z)
| Decide (ok : nat -> bool) (correlation decision : list Z) (action : moderation_action) (issued : Z) (reason : list Z) (now : Z).

(** The answer to a reviewer, for the operations that have one. *)
Definition queue_step (op : queue_op) (db : content_db) : option moderation_external_result * content_db :=
  match op with
  | Create ok now t id uid author parent content => (None, snd (db_comment_create ok now t id uid author parent content db))
  | Submit ok now t id uid author parent content reason => (None, snd (db_moderation_create_pending_comment ok now t id uid author parent content reason db))
  | Edit ok id uid content => (None, snd (db_comment_update ok id uid content db))
  | Remove ok id uid => (None, snd (db_comment_delete ok id uid db))
  | Remove_admin ok id => (None, snd (db_comment_delete_admin ok id db))
  | Queue_post ok now id uid reason => (None, snd (db_moderation_queue_post ok now id uid reason db))
  | Approve ok t id reviewer => (None, snd (db_moderation_approve ok t id reviewer db))
  | Reject ok t id reviewer => (None, snd (db_moderation_reject ok t id reviewer db))
  | Ask ok t id correlation issued expires => (None, snd (db_moderation_external_create ok t id correlation issued expires db))
  | Decide ok correlation decision action issued reason now =>
      let '(r, db) := db_moderation_external_apply ok correlation decision action issued reason now db in (Some r, db)
  end.

Definition queue_run (ops : list queue_op) (db : content_db) : content_db := foldl (fun db op => snd (queue_step op db)) db ops.
Fixpoint queue_answers (ops : list queue_op) (db : content_db) : list (queue_op * option moderation_external_result) :=
  match ops with
  | [] => []
  | op :: ops => (op, fst (queue_step op db)) :: queue_answers ops (snd (queue_step op db))
  end.

(** ** What no operation undoes *)

(** Queued items stay, and those decided stay as they are; so do requests and receipts. *)
Record extends (db db' : content_db) : Prop := {
  ex_items : forall k, is_Some (db_items db !! k) -> is_Some (db_items db' !! k);
  ex_final : forall k i, db_items db !! k = Some i -> mi_status i <> CS "pending" -> db_items db' !! k = Some i;
  ex_requests : forall c q, db_requests db !! c = Some q -> db_requests db' !! c = Some q;
  ex_receipts : forall d r, db_receipts db !! d = Some r -> db_receipts db' !! d = Some r;
}.

#[export] Instance extends_preorder : PreOrder extends.
Proof. split; [by split|]. intros a b c [] []. split; eauto. Qed.

(** Only posts and comments differ. *)
Lemma extends_contents db db' : db_items db' = db_items db -> db_requests db' = db_requests db -> db_receipts db' = db_receipts db -> extends db db'.
Proof. intros Hi Hr Hc. split; rewrite ?Hi, ?Hr, ?Hc; done. Qed.

Lemma update_comment_keeps ok id guard f db : let db' := snd (update_comment ok id guard f db) in
  db_items db' = db_items db /\ db_requests db' = db_requests db /\ db_receipts db' = db_receipts db /\ db_posts db' = db_posts db /\
  db_next_comment db' = db_next_comment db.
Proof. cbv zeta. unfold update_comment. destruct (negb ok); [done|]. destruct (_ !! id) as [r|]; [|done]. by destruct (guard r). Qed.

Lemma update_comment_extends ok id guard f db : extends db (snd (update_comment ok id guard f db)).
Proof. pose proof (update_comment_keeps ok id guard f db) as (? & ? & ? & _). by apply extends_contents. Qed.

Lemma queue_row_extends ok now t id uid content author kind ref parent reason db :
  extends db (snd (queue_row ok now t id uid content author kind ref parent reason db)).
Proof.
  unfold queue_row. destruct (_ !! (t, id)) as [i|] eqn:E; [done|]. destruct ok; [|done]. cbn. split; cbn; [| |done|done].
  - intros k Hk. destruct (decide (k = (t, id))) as [-> |]; [rewrite lookup_insert_eq; eauto|by rewrite lookup_insert_ne].
  - intros k i Hi _. rewrite lookup_insert_ne; [done|]. intros <-. by rewrite E in Hi.
Qed.

Lemma pending_item_iff db t id i : pending_item db t id = Some i <-> db_items db !! (t, id) = Some i /\ mi_status i = CS "pending".
Proof.
  unfold pending_item. destruct (_ !! (t, id)) as [j|]; [|split; [done|by intros [? _]]].
  destruct (streq (mi_status j) (CS "pending")) eqn:E.
  - apply streq_eq in E. split; [by intros [= ->]|by intros [[= ->] _]].
  - apply streq_neq in E. split; [done|]. by intros [[= ->] ?].
Qed.

Lemma pending_item_ext db db' t id : db_items db' = db_items db -> pending_item db' t id = pending_item db t id.
Proof. unfold pending_item. by intros ->. Qed.

Lemma finish_review_spec ok t id reviewer status db : let '(done, db') := finish_review ok t id reviewer status db in
  extends db db' /\ db_posts db' = db_posts db /\ db_comments db' = db_comments db /\ db_next_comment db' = db_next_comment db /\
  if done : bool then ok = true /\ exists i, pending_item db t id = Some i /\ db_items db' = <[(t, id) := with_status status reviewer i]> (db_items db)
  else db' = db.
Proof.
  unfold finish_review. destruct (pending_item db t id) as [i|] eqn:E; [|done]. destruct ok; [|done]. cbn. split_and!; try done.
  - apply pending_item_iff in E as [E Ep]. split; cbn; [| |done|done].
    + intros k Hk. destruct (decide (k = (t, id))) as [-> |]; [rewrite lookup_insert_eq; eauto|by rewrite lookup_insert_ne].
    + intros k j Hj Hs. rewrite lookup_insert_ne; [done|]. intros <-. congruence.
  - by exists i.
Qed.

Lemma approve_spec ok t id reviewer db : let '(done, db') := db_moderation_approve ok t id reviewer db in
  extends db db' /\
  (done = true -> (t = MODERATION_POST \/ t = MODERATION_COMMENT) /\
     exists i, pending_item db t id = Some i /\ db_items db' = <[(t, id) := with_status (CS "approved") reviewer i]> (db_items db)).
Proof.
  unfold db_moderation_approve. destruct (pending_item db t id) as [item|] eqn:Ei; [|done].
  set (first := if streq t MODERATION_POST then _ else _).
  assert (Hf : db_items (snd first) = db_items db /\ db_requests (snd first) = db_requests db /\ db_receipts (snd first) = db_receipts db /\
               (fst first = true -> t = MODERATION_POST \/ t = MODERATION_COMMENT)).
  { unfold first. destruct (streq t MODERATION_POST) eqn:Ep.
    - apply streq_eq in Ep as ->. unfold publish_pending. destruct (_ !! id) as [p|]; [|done]. destruct (ok 0%nat && _); cbn; by auto.
    - destruct (streq t MODERATION_COMMENT) eqn:Ec; [|done]. apply streq_eq in Ec as ->.
      pose proof (update_comment_keeps (ok 0%nat) id co_deleted (with_content (mi_content item) false) db) as Hu. cbv zeta in Hu.
      destruct (update_comment _ _ _ _ _) as [[b changed] db']. cbn in *. destruct Hu as (? & ? & ? & _). by auto. }
  destruct first as [done db1]. cbn in Hf. destruct Hf as (Hi & Hr & Hc & Ht). destruct done; [|by split; [apply extends_contents|]].
  pose proof (finish_review_spec (ok 1%nat) t id reviewer (CS "approved") db1) as Hfin.
  destruct (finish_review _ _ _ _ _ _) as [fin db2]. destruct Hfin as (Hx & _ & _ & _ & Hfin).
  split; [etransitivity; [by apply extends_contents|done]|]. intros ->. destruct Hfin as (_ & i & Hp & Hi2). split; [by apply Ht|].
  exists i. rewrite (pending_item_ext _ _ _ _ Hi), Ei in Hp. by rewrite Hi2, Hi.
Qed.

Lemma reject_spec ok t id reviewer db : let '(done, db') := db_moderation_reject ok t id reviewer db in
  extends db db' /\ db_comments db' = db_comments db /\ db_next_comment db' = db_next_comment db /\
  (done = true -> (t = MODERATION_POST \/ t = MODERATION_COMMENT) /\
     exists i, pending_item db t id = Some i /\ db_items db' = <[(t, id) := with_status (CS "rejected") reviewer i]> (db_items db)) /\
  (done = false -> db_items db' = db_items db).
Proof.
  unfold db_moderation_reject. destruct (pending_item db t id) as [item|] eqn:Ei; [|done].
  set (first := if streq t MODERATION_POST then _ else _).
  assert (Hf : db_items (snd first) = db_items db /\ db_requests (snd first) = db_requests db /\ db_receipts (snd first) = db_receipts db /\
               db_comments (snd first) = db_comments db /\ db_next_comment (snd first) = db_next_comment db /\
               (fst first = true -> t = MODERATION_POST \/ t = MODERATION_COMMENT)).
  { unfold first. destruct (streq t MODERATION_POST) eqn:Ep.
    - apply streq_eq in Ep as ->. unfold db_post_delete. destruct (ok 0%nat); cbn; by auto 10.
    - destruct (streq t MODERATION_COMMENT) eqn:Ec; [|done]. apply streq_eq in Ec as ->. cbn. by auto 10. }
  destruct first as [done db1]. cbn in Hf. destruct Hf as (Hi & Hr & Hc & Hcm & Hn & Ht). destruct done.
  2: { split_and!; try done. by apply extends_contents. }
  pose proof (finish_review_spec (ok 1%nat) t id reviewer (CS "rejected") db1) as Hfin.
  destruct (finish_review _ _ _ _ _ _) as [fin db2]. destruct Hfin as (Hx & _ & Hcm2 & Hn2 & Hfin). rewrite Hcm2, Hn2.
  split_and!; try done.
  - etransitivity; [by apply extends_contents|done].
  - intros ->. destruct Hfin as (_ & i & Hp & Hi2). split; [by apply Ht|].
    exists i. rewrite (pending_item_ext _ _ _ _ Hi), Ei in Hp. by rewrite Hi2, Hi.
  - intros ->. by rewrite Hfin.
Qed.

Lemma snprintf_s_literal t s : (length s < 15)%nat -> snprintf_s 16 t = s -> t = s.
Proof.
  unfold snprintf_s. change (16 - 1)%nat with 15%nat. intros Hl H. destruct (decide (length t <= 15)%nat) as [Hn|Hn]; [by rewrite take_ge in H|].
  apply (f_equal length) in H. rewrite length_take in H. lia.
Qed.

(** A decision that is applied had no receipt and an open request in time, and leaves its receipt; one
    that allows or rejects also decides the item of the request. *)
Lemma external_apply_spec ok c d action issued reason now db :
  let '(r, db') := db_moderation_external_apply ok c d action issued reason now db in
  extends db db' /\
  (r = MODERATION_EXTERNAL_APPLIED ->
     db_receipts db !! d = None /\ db_receipts db' !! d = Some (Receipt c (external_action_name action) issued reason) /\
     exists q, open_request db c = Some q /\ in_time q issued now = true /\
       (action <> MODERATION_PENDING -> exists i, db_items db' !! (rq_type q, rq_target q) = Some i /\ mi_status i <> CS "pending")).
Proof.
  unfold db_moderation_external_apply. destruct (db_receipts db !! d) as [r|] eqn:Ed; [by destruct (same_receipt _ _ _ _ _)|].
  destruct (open_request db c) as [q|] eqn:Eq; [|done]. destruct (in_time q issued now) eqn:Et; [|done]. cbn [negb].
  destruct (ok 0%nat); [|done]. cbn [negb]. set (db1 := set_receipts _ db). set (t := snprintf_s 16 (rq_type q)).
  assert (H1 : extends db db1) by (split; cbn; try done; intros d' r Hr; rewrite lookup_insert_ne; [done|]; intros <-; congruence).
  assert (Hlit : forall b : bool, b = true -> t = MODERATION_POST \/ t = MODERATION_COMMENT -> rq_type q = t).
  { intros _ _ [Ht|Ht]; rewrite Ht; apply snprintf_s_literal; try done; cbn; lia. }
  set (second := match action with MODERATION_ALLOW => _ | _ => _ end).
  assert (H2 : extends db1 (snd second) /\ (fst second = true -> action <> MODERATION_PENDING ->
            exists i, db_items (snd second) !! (rq_type q, rq_target q) = Some i /\ mi_status i <> CS "pending")).
  { unfold second. destruct action; [|done|].
    - pose proof (approve_spec (fun n => ok (S n)) t (rq_target q) 0 db1) as H. destruct (db_moderation_approve _ _ _ _ _) as [done db2].
      destruct H as [Hx H]. split; [done|]. cbn. intros -> _. destruct (H eq_refl) as (Ht & i & _ & Hi). rewrite (Hlit true eq_refl Ht), Hi, lookup_insert_eq. by eexists.
    - pose proof (reject_spec (fun n => ok (S n)) t (rq_target q) 0 db1) as H. destruct (db_moderation_reject _ _ _ _ _) as [done db2].
      destruct H as (Hx & _ & _ & H & _). split; [done|]. cbn. intros -> _. destruct (H eq_refl) as (Ht & i & _ & Hi). rewrite (Hlit true eq_refl Ht), Hi, lookup_insert_eq. by eexists. }
  destruct second as [done db2]. cbn in H2. destruct H2 as [H2 Hs]. destruct done.
  - split; [by etransitivity|]. intros _. split; [done|]. split; [apply (ex_receipts _ _ H2); cbn; by rewrite lookup_insert_eq|]. by exists q; auto.
  - split; [|done]. assert (H12 : extends db db2) by (by etransitivity). destruct (ok 3%nat); [|done]. destruct H12 as [Ha Hb Hc Hd]. split; cbn; try done.
    intros d' r Hr. rewrite lookup_delete_ne; [by apply Hd|]. intros <-. congruence.
Qed.

Lemma queue_step_extends op db : extends db (snd (queue_step op db)).
Proof.
  destruct op; cbn [queue_step snd].
  - unfold db_comment_create. destruct ok; [|done]. by apply extends_contents.
  - unfold db_moderation_create_pending_comment, db_comment_create. destruct (ok 0%nat); cbn; [|done].
    destruct (_ <=? 0); [by apply extends_contents|]. set (db1 := ContentDb _ _ _ _ _ _ _).
    assert (H1 : extends db db1) by by apply extends_contents. unfold db_comment_delete_admin.
    pose proof (update_comment_extends (ok 1%nat) (db_next_comment db) (fun r => negb (co_deleted r)) (with_content [] true) db1) as H2.
    destruct (update_comment _ _ _ _ _) as [[hidden b] db2]. cbn in H2. assert (H12 : extends db db2) by by etransitivity.
    assert (Hdel : forall db3, extends db db3 -> extends db (if ok 3%nat then set_comments (delete (db_next_comment db) (db_comments db3)) db3 else db3)).
    { intros db3 H3. destruct (ok 3%nat); [|done]. etransitivity; [exact H3|by apply extends_contents]. }
    destruct hidden; [|by apply Hdel]. match goal with |- context [queue_row ?a ?b ?c ?d ?e ?f ?g ?h ?i ?j ?k ?l] =>
      pose proof (queue_row_extends a b c d e f g h i j k l) as H3; destruct (queue_row a b c d e f g h i j k l) as [queued db3] end.
    assert (extends db db3) by by etransitivity. destruct queued; [done|]. by apply Hdel.
  - unfold db_comment_update. pose proof (update_comment_extends ok id (fun r => (co_user r =? uid) && negb (co_deleted r)) (with_content content false) db) as H.
    by destruct (update_comment _ _ _ _ _) as [[? ?] ?].
  - unfold db_comment_delete. pose proof (update_comment_extends ok id (fun r => (co_user r =? uid) && negb (co_deleted r)) (with_content [] true) db) as H.
    by destruct (update_comment _ _ _ _ _) as [[? ?] ?].
  - unfold db_comment_delete_admin. pose proof (update_comment_extends ok id (fun r => negb (co_deleted r)) (with_content [] true) db) as H.
    by destruct (update_comment _ _ _ _ _) as [[? ?] ?].
  - unfold db_moderation_queue_post. destruct (0 <? id); [|done]. apply queue_row_extends.
  - pose proof (approve_spec ok target_type id reviewer db) as H. destruct (db_moderation_approve _ _ _ _ _). exact (proj1 H).
  - pose proof (reject_spec ok target_type id reviewer db) as H. destruct (db_moderation_reject _ _ _ _ _). exact (proj1 H).
  - unfold db_moderation_external_create. destruct (_ || _); [done|]. destruct (negb ok || _ || _) eqn:E; [done|]. cbn [snd].
    apply orb_false_iff in E as [[_ E]%orb_false_iff _]. apply bool_decide_eq_false in E. split; cbn; try done.
    intros c q Hq. rewrite lookup_insert_ne; [done|]. intros <-. apply E. eauto.
  - pose proof (external_apply_spec ok correlation decision action issued reason now db) as H.
    destruct (db_moderation_external_apply _ _ _ _ _ _ _ _) as [r db']. exact (proj1 H).
Qed.

Lemma queue_run_extends ops : forall db, extends db (queue_run ops db).
Proof.
  induction ops as [|op ops IH]; intros db; [done|]. unfold queue_run. cbn [foldl]. etransitivity; [apply queue_step_extends|apply IH].
Qed.

(** ** A reviewer's decision counts once *)

(** An answer that allowed or rejected the item of a request. *)
Definition decided_by (c : cstr) (a : queue_op * option moderation_external_result) : bool :=
  match a with
  | (Decide _ c' _ action _ _ _, Some MODERATION_EXTERNAL_APPLIED) => streq c' c && negb (bool_decide (action = MODERATION_PENDING))
  | _ => false
  end.

Definition settled (db : content_db) (c : cstr) : Prop :=
  exists q i, db_requests db !! c = Some q /\ db_items db !! (rq_type q, rq_target q) = Some i /\ mi_status i <> CS "pending".

Lemma settled_extends db db' c : extends db db' -> settled db c -> settled db' c.
Proof. intros [] (q & i & Hq & Hi & Hs). exists q, i. eauto. Qed.

Lemma settled_closed db c : settled db c -> open_request db c = None.
Proof.
  intros (q & i & Hq & Hi & Hs). unfold open_request. rewrite Hq. destruct (pending_item db (rq_type q) (rq_target q)) as [j|] eqn:E; [|done].
  apply pending_item_iff in E as [E1 E2]. congruence.
Qed.

Lemma decided_settles op db c : decided_by c (op, fst (queue_step op db)) = true -> settled (snd (queue_step op db)) c /\ ~ settled db c.
Proof.
  destruct op; try done. cbn [queue_step]. pose proof (external_apply_spec ok correlation decision action issued reason now db) as H.
  destruct (db_moderation_external_apply _ _ _ _ _ _ _ _) as [r db']. destruct H as [Hx H]. cbn. destruct r; try done.
  intros [E Ha]%andb_true_iff. apply streq_eq in E as ->. apply negb_true_iff, bool_decide_eq_false in Ha.
  destruct (H eq_refl) as (_ & _ & q & Hq & _ & Hi). destruct (Hi Ha) as (i & Hi1 & Hi2). split.
  - exists q, i. split; [|done]. apply (ex_requests _ _ Hx). unfold open_request in Hq. destruct (_ !! c) as [q'|]; [|done]. by destruct (pending_item _ _ _); simplify_eq.
  - intros Hs%settled_closed. congruence.
Qed.

Lemma settled_no_decision ops c : forall db, settled db c -> countb (decided_by c) (queue_answers ops db) = 0%nat.
Proof.
  induction ops as [|op ops IH]; intros db Hs; [done|]. cbn [queue_answers countb]. destruct (decided_by c (op, fst (queue_step op db))) eqn:E.
  - by apply decided_settles in E as [_ ?].
  - apply IH. by eapply settled_extends; [apply queue_step_extends|].
Qed.

Lemma same_receipt_iff c action issued reason c' action' issued' reason' :
  same_receipt (Receipt c (external_action_name action) issued reason) c' action' issued' reason' =
  bool_decide ((c', action', issued', reason') = (c, action, issued, reason)).
Proof.
  symmetry. unfold same_receipt. cbn. destruct (bool_decide _) eqn:E.
  - apply bool_decide_eq_true in E. simplify_eq. by rewrite !streq_refl, Z.eqb_refl.
  - apply bool_decide_eq_false in E. symmetry. apply not_true_iff_false. intros [[[H1 H2]%andb_true_iff H3]%andb_true_iff H4]%andb_true_iff.
    apply E. apply streq_eq in H1, H2, H4. apply Z.eqb_eq in H3. destruct action, action'; cbn in H2; congruence.
Qed.

(** C11: Whatever is delivered, in whatever order and however often, and whichever statements fail: at
    most one decision of a request allows or rejects its item.  A decision that was applied is, when it
    is delivered again, answered as a duplicate, and one with the same id and another content is
    refused; neither changes anything, however much later. *)
Theorem external_decision_once ops db c :
  (countb (decided_by c) (queue_answers ops db) <= 1)%nat /\
  forall ok d action issued reason now db', db_moderation_external_apply ok c d action issued reason now db = (MODERATION_EXTERNAL_APPLIED, db') ->
    forall ok' c' action' issued' reason' now', let db'' := queue_run ops db' in
      db_moderation_external_apply ok' c' d action' issued' reason' now' db'' =
      (if bool_decide ((c', action', issued', reason') = (c, action, issued, reason)) then MODERATION_EXTERNAL_DUPLICATE else MODERATION_EXTERNAL_REJECTED, db'').
Proof.
  split.
  - revert db. induction ops as [|op ops IH]; intros db; [cbn; lia|]. cbn [queue_answers countb].
    destruct (decided_by c (op, fst (queue_step op db))) eqn:E; [|apply IH]. apply decided_settles in E as [E _]. rewrite settled_no_decision by done. lia.
  - intros ok d action issued reason now db' H ok' c' action' issued' reason' now'. cbv zeta.
    pose proof (external_apply_spec ok c d action issued reason now db) as Hs. rewrite H in Hs. destruct Hs as [_ Hs].
    destruct (Hs eq_refl) as (_ & Hr & _). apply (ex_receipts _ _ (queue_run_extends ops db')) in Hr.
    unfold db_moderation_external_apply at 1. rewrite Hr. by rewrite same_receipt_iff.
Qed.

(** A pending post, a request for its review, and a reviewer who allows it. *)
Module Demo.
Definition post : post_row := PostRow 0 7 (CS "hello") (CS "pending") 1000 false.
Definition asked : content_db :=
  queue_run [Queue_post true 1000 3 7 (CS "approval_queue"); Ask true MODERATION_POST 3 (CS "c0") 1000 1300]
    (ContentDb {[3 := post]} ∅ 1 ∅ ∅ ∅ ∅).
Definition allow : queue_op := Decide (fun _ => true) (CS "c0") (CS "d1") MODERATION_ALLOW 1010 (CS "fine") 1020.
Definition refuse : queue_op := Decide (fun _ => true) (CS "c0") (CS "d2") MODERATION_REJECT 1011 (CS "spam") 1021.
End Demo.

Lemma external_decision_once_witness :
  let '(r, db') := db_moderation_external_apply (fun _ => true) (CS "c0") (CS "d1") MODERATION_ALLOW 1010 (CS "fine") 1020 Demo.asked in
  r = MODERATION_EXTERNAL_APPLIED /\ (po_status <$> db_posts db' !! 3) = Some (CS "published") /\
  (countb (decided_by (CS "c0")) (queue_answers [Demo.allow; Demo.refuse; Demo.allow] Demo.asked) <= 1)%nat /\
  db_moderation_external_apply (fun _ => true) (CS "c0") (CS "d1") MODERATION_ALLOW 1010 (CS "fine") 2000 (queue_run [Demo.refuse] db') =
    (MODERATION_EXTERNAL_DUPLICATE, queue_run [Demo.refuse] db').
Proof.
  destruct (db_moderation_external_apply (fun _ => true) (CS "c0") (CS "d1") MODERATION_ALLOW 1010 (CS "fine") 1020 Demo.asked) as [r db'] eqn:E.
  assert (Hr : r = MODERATION_EXTERNAL_APPLIED) by (apply (f_equal fst) in E; vm_compute in E; by symmetry).
  assert (Hp : (po_status <$> db_posts db' !! 3) = Some (CS "published")) by (change db' with (snd (r, db')); rewrite <- E; by vm_compute).
  subst r. split_and!; [done|done|exact (proj1 (external_decision_once [Demo.allow; Demo.refuse; Demo.allow] Demo.asked (CS "c0")))|].
  exact (proj2 (external_decision_once [Demo.refuse] Demo.asked (CS "c0")) (fun _ => true) (CS "d1") MODERATION_ALLOW 1010 (CS "fine") 1020 db' E
           (fun _ => true) (CS "c0") MODERATION_ALLOW 1010 (CS "fine") 2000).
Defined.

(** ** A comment that waits is not shown *)

Definition shown (db : content_db) (id : Z) : Prop := exists r, db_comments db !! id = Some r /\ co_deleted r = false.

(** Ids of comments are below the next one, also those of items, and the comment of an item that was
    not approved is hidden, apart from those [X] excuses. *)
Record queue_wf_but (X : Z -> Prop) (db : content_db) : Prop := {
  qw_comments : forall id, is_Some (db_comments db !! id) -> id < db_next_comment db;
  qw_items : forall id, is_Some (db_items db !! (MODERATION_COMMENT, id)) -> id < db_next_comment db;
  qw_hidden : forall id i, db_items db !! (MODERATION_COMMENT, id) = Some i -> mi_status i <> CS "approved" -> shown db id -> X id;
}.
Abbreviation queue_wf := (queue_wf_but (fun _ => False)).

(** The operation is an approval of the comment that fails half-way: its first statement succeeds, the
    second one does not. *)
Definition half_approves (db : content_db) (op : queue_op) (id : Z) : Prop :=
  match op with
  | Approve ok t k _ => t = MODERATION_COMMENT /\ k = id /\ ok 0%nat = true /\ ok 1%nat = false
  | Decide ok c _ MODERATION_ALLOW _ _ _ => (exists q, open_request db c = Some q /\ snprintf_s 16 (rq_type q) = MODERATION_COMMENT /\ rq_target q = id) /\
      ok 1%nat = true /\ ok 2%nat = false
  | _ => False
  end.
Definition half_approved_in (ops : list queue_op) (db : content_db) (id : Z) : Prop :=
  exists pre op post, ops = pre ++ op :: post /\ half_approves (queue_run pre db) op id.

Section excused.
Context (X : Z -> Prop).
Abbreviation wf := (queue_wf_but X).

(** A statement on one comment that hides it, or changes one that is shown. *)
Lemma update_comment_wf ok id guard f db :
  (forall r, guard r = true -> co_deleted (f r) = false -> co_deleted r = false) ->
  wf db -> wf (snd (update_comment ok id guard f db)).
Proof.
  intros Hf Hwf. unfold update_comment. destruct (negb ok); [done|]. destruct (db_comments db !! id) as [r|] eqn:Er; [|done].
  destruct (guard r) eqn:Eg; [|done]. destruct Hwf as [Hc Hi Hh]. split; cbn; [|done|].
  - intros j Hj. apply Hc. destruct (decide (j = id)) as [-> |]; [eauto|by rewrite lookup_insert_ne in Hj].
  - intros j i Hj Hs (r' & Hr' & Hd). cbn in Hr'. apply (Hh j i Hj Hs). destruct (decide (j = id)) as [-> |].
    + rewrite lookup_insert_eq in Hr'. simplify_eq. exists r. eauto.
    + rewrite lookup_insert_ne in Hr' by done. by exists r'.
Qed.

Lemma finish_review_wf ok t id reviewer status db :
  (t = MODERATION_COMMENT -> status <> CS "approved" -> shown db id -> X id) -> wf db -> wf (snd (finish_review ok t id reviewer status db)).
Proof.
  intros Hshown Hwf. unfold finish_review. destruct (pending_item db t id) as [item|] eqn:Ei; [|done]. destruct ok; [|done].
  apply pending_item_iff in Ei as [Ei _]. destruct Hwf as [Hc Hi Hh]. split; cbn; [done| |].
  - intros j Hj. apply Hi. destruct (decide ((MODERATION_COMMENT, j) = (t, id))) as [E|E]; [rewrite E; eauto|by rewrite lookup_insert_ne in Hj].
  - intros j i Hj Hs (r & Hr & Hd). cbn in Hr. destruct (decide ((MODERATION_COMMENT, j) = (t, id))) as [E|E].
    + simplify_eq. rewrite lookup_insert_eq in Hj. simplify_eq. apply Hshown; [done|done|by exists r].
    + rewrite lookup_insert_ne in Hj by done. apply (Hh j i Hj Hs). by exists r.
Qed.

Lemma comments_only_wf db db' : db_comments db' = db_comments db -> db_next_comment db' = db_next_comment db ->
  (forall id, db_items db' !! (MODERATION_COMMENT, id) = db_items db !! (MODERATION_COMMENT, id)) -> wf db -> wf db'.
Proof.
  intros Hc Hn Hi [H1 H2 H3]. split; unfold shown in *; rewrite ?Hc, ?Hn; [done| |]; intros id; rewrite Hi; [apply H2|apply H3].
Qed.

Lemma create_wf ok now t target uid author parent content db : wf db ->
  wf (snd (db_comment_create ok now t target uid author parent content db)).
Proof.
  intros [Hc Hi Hh]. unfold db_comment_create. destruct ok; [|done]. split; cbn.
  - intros id Hid. destruct (decide (id = db_next_comment db)) as [-> |]; [lia|]. rewrite lookup_insert_ne in Hid by done. specialize (Hc id Hid). lia.
  - intros id Hid. specialize (Hi id Hid). lia.
  - intros id i Hid Hs (r & Hr & Hd). cbn in Hr. assert (id < db_next_comment db) by (apply Hi; eauto).
    rewrite lookup_insert_ne in Hr by lia. apply (Hh id i Hid Hs). by exists r.
Qed.

Lemma queue_row_wf ok now id uid content author kind ref parent reason db : wf db -> id < db_next_comment db -> ~ shown db id ->
  wf (snd (queue_row ok now MODERATION_COMMENT id uid content author kind ref parent reason db)).
Proof.
  intros [Hc Hi Hh] Hid Hn. unfold queue_row. destruct (_ !! _) as [j|]; [done|]. destruct ok; [|done]. split; cbn; [done| |].
  - intros j Hj. destruct (decide (j = id)) as [-> |]; [done|]. rewrite lookup_insert_ne in Hj by congruence. by apply Hi.
  - intros j i Hj Hs (r & Hr & Hd). cbn in Hr. destruct (decide (j = id)) as [-> |]; [by destruct Hn; exists r|].
    rewrite lookup_insert_ne in Hj by congruence. apply (Hh j i Hj Hs). by exists r.
Qed.

Lemma delete_comment_wf id db : wf db -> wf (set_comments (delete id (db_comments db)) db).
Proof.
  intros [Hc Hi Hh]. split; cbn; [|done|].
  - intros j Hj. apply Hc. destruct (decide (j = id)) as [-> |]; [rewrite lookup_delete_eq in Hj; by destruct Hj|by rewrite lookup_delete_ne in Hj].
  - intros j i Hj Hs (r & Hr & Hd). cbn in Hr. apply lookup_delete_Some in Hr as [_ Hr]. apply (Hh j i Hj Hs). by exists r.
Qed.

Lemma approve_wf ok t id reviewer db : (t = MODERATION_COMMENT -> ok 0%nat = true -> ok 1%nat = false -> X id) -> wf db ->
  wf (snd (db_moderation_approve ok t id reviewer db)).
Proof.
  intros Hok Hwf. unfold db_moderation_approve. destruct (pending_item db t id) as [item|] eqn:Ei; [|done].
  destruct (streq t MODERATION_POST) eqn:Ep.
  { apply streq_eq in Ep as ->. unfold publish_pending. destruct (db_posts db !! id) as [p|]; [|done]. destruct (ok 0%nat && _); [|done].
    apply finish_review_wf; [done|]. by eapply comments_only_wf; [..|exact Hwf]. }
  destruct (streq t MODERATION_COMMENT) eqn:Ec; [|done]. apply streq_eq in Ec as ->. unfold update_comment.
  destruct (ok 0%nat) eqn:E0; [|done]. cbn [negb]. destruct (db_comments db !! id) as [r|] eqn:Er; [|done]. destruct (co_deleted r) eqn:Ed; [|done].
  unfold finish_review. rewrite (pending_item_ext db) by done. rewrite Ei.
  apply pending_item_iff in Ei as [Ei _]. destruct Hwf as [Hc Hi Hh]. destruct (ok 1%nat) eqn:E1; split; cbn.
  - intros j Hj. apply Hc. destruct (decide (j = id)) as [-> |]; [eauto|by rewrite lookup_insert_ne in Hj].
  - intros j Hj. apply Hi. destruct (decide (j = id)) as [-> |]; [eauto|rewrite lookup_insert_ne in Hj; congruence].
  - intros j i Hj Hs (r' & Hr' & Hd). cbn in Hr'. destruct (decide (j = id)) as [-> |]; [by rewrite lookup_insert_eq in Hj; simplify_eq|].
    rewrite lookup_insert_ne in Hj by congruence. rewrite lookup_insert_ne in Hr' by done. apply (Hh j i Hj Hs). by exists r'.
  - intros j Hj. apply Hc. destruct (decide (j = id)) as [-> |]; [eauto|by rewrite lookup_insert_ne in Hj].
  - done.
  - intros j i Hj Hs (r' & Hr' & Hd). cbn in Hr'. destruct (decide (j = id)) as [-> |]; [by apply Hok|].
    rewrite lookup_insert_ne in Hr' by done. apply (Hh j i Hj Hs). by exists r'.
Qed.

Lemma reject_wf ok t id reviewer db : wf db -> wf (snd (db_moderation_reject ok t id reviewer db)).
Proof.
  intros Hwf. unfold db_moderation_reject. destruct (pending_item db t id) as [item|] eqn:Ei; [|done].
  assert (Hn : t = MODERATION_COMMENT -> shown db id -> X id).
  { intros ->. apply pending_item_iff in Ei as [Ei Es]. apply (qw_hidden _ _ Hwf id item Ei). by rewrite Es. }
  destruct (streq t MODERATION_POST) eqn:Ep.
  - apply streq_eq in Ep as ->. unfold db_post_delete. destruct (ok 0%nat); [|done].
    apply finish_review_wf; [done|]. by eapply comments_only_wf; [..|exact Hwf].
  - destruct (streq t MODERATION_COMMENT); [|done]. by apply finish_review_wf; [auto|].
Qed.

Lemma decide_wf ok c d action issued reason now db : (forall id, half_approves db (Decide ok c d action issued reason now) id -> X id) -> wf db ->
  wf (snd (db_moderation_external_apply ok c d action issued reason now db)).
Proof.
  intros Hok Hwf. unfold db_moderation_external_apply. destruct (db_receipts db !! d); [done|]. destruct (open_request db c) as [q|] eqn:Eq; [|done].
  destruct (in_time q issued now); [|done]. destruct (ok 0%nat); [|done]. cbn [negb]. set (db1 := set_receipts _ db).
  assert (H1 : wf db1) by by eapply comments_only_wf; [..|exact Hwf].
  set (second := match action with MODERATION_ALLOW => _ | _ => _ end).
  assert (H2 : wf (snd second)).
  { unfold second. destruct action; [|done|by apply reject_wf]. apply approve_wf; [|done]. intros Et E1 E2. apply Hok. unfold half_approves. split; [by exists q|done]. }
  destruct second as [[|] db2]; [done|]. cbn in *. destruct (ok 3%nat); [|done]. by eapply comments_only_wf; [..|exact H2].
Qed.

(** A submission that is accepted leaves a hidden comment and its item; one that is not leaves a shown
    comment only when it could be neither hidden nor removed. *)
Lemma submit_spec ok now t target uid author parent content reason db : wf db -> 0 < db_next_comment db ->
  let '(id, db') := db_moderation_create_pending_comment ok now t target uid author parent content reason db in
  wf db' /\
  (0 < id -> id = db_next_comment db /\ is_Some (db_items db' !! (MODERATION_COMMENT, id)) /\ ~ shown db' id) /\
  (id <= 0 -> shown db' (db_next_comment db) -> ok 0%nat = true /\ ok 1%nat = false /\ ok 3%nat = false).
Proof.
  intros Hwf Hpos. unfold db_moderation_create_pending_comment.
  pose proof (create_wf (ok 0%nat) now t target uid author parent content db Hwf) as H1.
  assert (Hfresh : db_comments db !! db_next_comment db = None).
  { apply eq_None_not_Some. intros H%(qw_comments _ _ Hwf). lia. }
  assert (Hnone : db_items db !! (MODERATION_COMMENT, db_next_comment db) = None).
  { apply eq_None_not_Some. intros H%(qw_items _ _ Hwf). lia. }
  unfold db_comment_create in *. destruct (ok 0%nat) eqn:E0; cbn [negb fst snd] in *.
  2: { cbn. split_and!; [done|lia|]. intros _ (r & Hr & _). congruence. }
  rewrite (proj2 (Z.leb_gt _ 0)) by lia. set (id := db_next_comment db) in *. set (row := CommentRow _ _ _ _ _ _ _ _) in *.
  set (db1 := ContentDb _ _ _ _ _ _ _) in *. unfold db_comment_delete_admin, update_comment. destruct (ok 1%nat) eqn:E1; cbn [negb].
  2: { cbn. split_and!; [|lia|].
       - destruct (ok 3%nat); [by apply delete_comment_wf|done].
       - intros _ Hs. split_and!; [done|done|]. destruct (ok 3%nat); [|done]. destruct Hs as (r & Hr & _). cbn in Hr. by rewrite lookup_delete_eq in Hr. }
  change (db_comments db1) with (<[id := row]> (db_comments db)). rewrite lookup_insert_eq. cbn [negb co_deleted row].
  set (db2 := set_comments _ db1).
  assert (Hhid : ~ shown db2 id) by (intros (r & Hr & Hd); cbn in Hr; rewrite lookup_insert_eq in Hr; by simplify_eq).
  assert (H2 : wf db2).
  { pose proof (update_comment_wf true id (fun r => negb (co_deleted r)) (with_content [] true) db1 ltac:(done) H1) as H.
    unfold update_comment in H. cbn [negb] in H. change (db_comments db1) with (<[id := row]> (db_comments db)) in H. by rewrite lookup_insert_eq in H. }
  pose proof (queue_row_wf (ok 2%nat) now id uid content author t target parent reason db2 H2 ltac:(cbn; lia) Hhid) as H3.
  pose proof (queue_row_extends (ok 2%nat) now MODERATION_COMMENT id uid content author t target parent reason db2) as Hx.
  unfold queue_row in *. change (db_items db2) with (db_items db) in *. rewrite Hnone in *. destruct (ok 2%nat); cbn [snd] in *.
  - split_and!; [done| |lia]. intros _. split_and!; [done|cbn; rewrite lookup_insert_eq; eauto|exact Hhid].
  - cbn. split_and!; [|lia|].
    + destruct (ok 3%nat); [by apply delete_comment_wf|done].
    + intros _ Hs. exfalso. destruct (ok 3%nat); [|by apply Hhid]. destruct Hs as (r & Hr & _). cbn in Hr. by rewrite lookup_delete_eq in Hr.
Qed.

Lemma queue_step_wf op db : (forall id, half_approves db op id -> X id) -> wf db -> 0 < db_next_comment db -> wf (snd (queue_step op db)).
Proof.
  intros Hop Hwf Hpos. destruct op; cbn [queue_step snd].
  - by apply create_wf.
  - pose proof (submit_spec ok now target_type target_id uid author parent content reason db Hwf Hpos) as H.
    destruct (db_moderation_create_pending_comment _ _ _ _ _ _ _ _ _ _). exact (proj1 H).
  - unfold db_comment_update. pose proof (update_comment_wf ok id (fun r => (co_user r =? uid) && negb (co_deleted r)) (with_content content false) db) as H.
    destruct (update_comment _ _ _ _ _) as [[? ?] ?]. apply H; [|done]. intros r [_ Hd%negb_true_iff]%andb_true_iff _. done.
  - unfold db_comment_delete. pose proof (update_comment_wf ok id (fun r => (co_user r =? uid) && negb (co_deleted r)) (with_content [] true) db) as H.
    destruct (update_comment _ _ _ _ _) as [[? ?] ?]. by apply H.
  - unfold db_comment_delete_admin. pose proof (update_comment_wf ok id (fun r => negb (co_deleted r)) (with_content [] true) db) as H.
    destruct (update_comment _ _ _ _ _) as [[? ?] ?]. by apply H.
  - unfold db_moderation_queue_post. destruct (0 <? id); [|done]. unfold queue_row. destruct (_ !! _); [done|]. destruct ok; [|done].
    eapply comments_only_wf; [..|exact Hwf]; try done. intros j. cbn. by rewrite lookup_insert_ne.
  - apply approve_wf; [|done]. intros -> E0 E1. apply Hop. by cbn.
  - by apply reject_wf.
  - unfold db_moderation_external_create. destruct (_ || _); [done|]. destruct (negb ok || _ || _); [done|]. by eapply comments_only_wf; [..|exact Hwf].
  - pose proof (decide_wf ok correlation decision action issued reason now db Hop Hwf) as H. by destruct (db_moderation_external_apply _ _ _ _ _ _ _ _).
Qed.

Lemma finish_next ok t id reviewer status db : db_next_comment (snd (finish_review ok t id reviewer status db)) = db_next_comment db.
Proof. unfold finish_review. destruct (pending_item _ _ _); [|done]. by destruct ok. Qed.

Lemma approve_next ok t id reviewer db : db_next_comment (snd (db_moderation_approve ok t id reviewer db)) = db_next_comment db.
Proof.
  unfold db_moderation_approve. destruct (pending_item db t id) as [item|]; [|done]. destruct (streq t MODERATION_POST).
  - unfold publish_pending. destruct (_ !! id) as [p|]; [|done]. destruct (_ && _); [|done]. by rewrite finish_next.
  - destruct (streq t MODERATION_COMMENT); [|done].
    pose proof (update_comment_keeps (ok 0%nat) id co_deleted (with_content (mi_content item) false) db) as (_ & _ & _ & _ & H).
    destruct (update_comment _ _ _ _ _) as [[b changed] db1]. destruct changed; [by rewrite finish_next|done].
Qed.

Lemma reject_next ok t id reviewer db : db_next_comment (snd (db_moderation_reject ok t id reviewer db)) = db_next_comment db.
Proof. pose proof (reject_spec ok t id reviewer db) as H. destruct (db_moderation_reject _ _ _ _ _). by destruct H as (_ & _ & H & _). Qed.

Lemma queue_step_next op db : db_next_comment db <= db_next_comment (snd (queue_step op db)).
Proof.
  assert (Hu : forall ok id guard f db, db_next_comment (snd (update_comment ok id guard f db)) = db_next_comment db).
  { intros ok id guard f db'. by pose proof (update_comment_keeps ok id guard f db') as (_ & _ & _ & _ & ?). }
  assert (Hq : forall ok now t id uid c a k r p re db, db_next_comment (snd (queue_row ok now t id uid c a k r p re db)) = db_next_comment db).
  { intros. unfold queue_row. destruct (_ !! _); [done|]. by destruct ok. }
  destruct op; cbn [queue_step snd].
  - unfold db_comment_create. destruct ok; cbn; lia.
  - unfold db_moderation_create_pending_comment, db_comment_create. destruct (ok 0%nat); cbn; [|lia]. destruct (_ <=? 0); cbn; [lia|].
    set (db1 := ContentDb _ _ _ _ _ _ _). assert (Hdb1 : db_next_comment db1 = db_next_comment db + 1) by done.
    unfold db_comment_delete_admin. pose proof (Hu (ok 1%nat) (db_next_comment db) (fun r => negb (co_deleted r)) (with_content [] true) db1) as H.
    destruct (update_comment _ _ _ _ _) as [[hidden b] db2]. cbn in H. destruct hidden; [|destruct (ok 3%nat); cbn; lia].
    match goal with |- context [queue_row ?a ?b ?c ?d ?e ?f ?g ?h ?i ?j ?k ?l] => pose proof (Hq a b c d e f g h i j k l) as H3; destruct (queue_row a b c d e f g h i j k l) as [queued db3] end.
    cbn in H3. destruct queued; [cbn; lia|]. destruct (ok 3%nat); cbn; lia.
  - unfold db_comment_update. pose proof (Hu ok id (fun r => (co_user r =? uid) && negb (co_deleted r)) (with_content content false) db) as H.
    destruct (update_comment _ _ _ _ _) as [[? ?] ?]. cbn in *. lia.
  - unfold db_comment_delete. pose proof (Hu ok id (fun r => (co_user r =? uid) && negb (co_deleted r)) (with_content [] true) db) as H.
    destruct (update_comment _ _ _ _ _) as [[? ?] ?]. cbn in *. lia.
  - unfold db_comment_delete_admin. pose proof (Hu ok id (fun r => negb (co_deleted r)) (with_content [] true) db) as H.
    destruct (update_comment _ _ _ _ _) as [[? ?] ?]. cbn in *. lia.
  - unfold db_moderation_queue_post. destruct (0 <? id); [|done]. by rewrite Hq.
  - by rewrite approve_next.
  - by rewrite reject_next.
  - unfold db_moderation_external_create. destruct (_ || _); [done|]. by destruct (negb ok || _ || _).
  - unfold db_moderation_external_apply. destruct (_ !! decision); [done|]. destruct (open_request _ _); [|done]. destruct (in_time _ _ _); [|done].
    destruct (ok 0%nat); [|done]. cbn [negb]. set (db1 := set_receipts _ db). set (second := match action with MODERATION_ALLOW => _ | _ => _ end).
    assert (H2 : db_next_comment (snd second) = db_next_comment db1) by (unfold second; destruct action; [apply approve_next|done|apply reject_next]).
    destruct second as [[|] db2]; cbn in *; [lia|]. destruct (ok 3%nat); cbn; lia.
Qed.

Lemma queue_run_wf ops : forall db, (forall id, half_approved_in ops db id -> X id) -> wf db -> 0 < db_next_comment db -> wf (queue_run ops db).
Proof.
  induction ops as [|op ops IH]; intros db Hops Hwf Hpos; [done|]. unfold queue_run. cbn [foldl]. apply IH.
  - intros id (pre & op' & post & -> & H). apply Hops. by exists (op :: pre), op', post.
  - apply queue_step_wf; [|done|done]. intros id H. apply Hops. by exists [], op, ops.
  - pose proof (queue_step_next op db). lia.
Qed.
End excused.

Lemma queue_wf_weaken X db : queue_wf db -> queue_wf_but X db.
Proof. intros [H1 H2 H3]. split; [done|done|]. intros id i Hi Hs Hsh. by destruct (H3 id i Hi Hs Hsh). Qed.

(** The comment is on the page of its post: not removed and not filtered. *)
Definition displayed (db : content_db) (id : Z) : Prop :=
  exists r, In (id, r) (db_moderation_filter_comments db (map_to_list (db_comments db))) /\ co_deleted r = false.

(** C15: A comment that was queued is on the page of its post only once its item was decided, whatever
    operations follow on any comments and posts, by whom and with whichever failures; then either it
    was approved, or it was rejected after an approval of it had failed half-way (its first statement
    shows the comment, its second one failed).  The row itself is hidden until the item is approved,
    or an approval of it has failed so.  A submission that fails leaves a shown comment only when the
    statement that hides it and the one that removes it both fail, as they do when the process dies
    after the comment was stored. *)
Theorem moderation_shows_approved ok now kind target uid author parent content reason db : queue_wf db -> 0 < db_next_comment db ->
  let '(id, db1) := db_moderation_create_pending_comment ok now kind target uid author parent content reason db in
  (0 < id -> forall later, let db2 := queue_run later db1 in
     exists i, db_items db2 !! (MODERATION_COMMENT, id) = Some i /\
       (displayed db2 id -> mi_status i = CS "approved" \/ mi_status i <> CS "pending" /\ half_approved_in later db1 id) /\
       (shown db2 id -> mi_status i = CS "approved" \/ half_approved_in later db1 id)) /\
  (id <= 0 -> shown db1 (db_next_comment db) -> ok 0%nat = true /\ ok 1%nat = false /\ ok 3%nat = false).
Proof.
  intros Hwf Hpos. pose proof (submit_spec _ ok now kind target uid author parent content reason db Hwf Hpos) as H.
  pose proof (queue_step_next (Submit ok now kind target uid author parent content reason) db) as Hn. cbn [queue_step snd] in Hn.
  destruct (db_moderation_create_pending_comment _ _ _ _ _ _ _ _ _ _) as [id db1]. cbn in Hn. destruct H as (H1 & H2 & H3). split; [|exact H3].
  intros Hid later. cbv zeta. destruct (H2 Hid) as (_ & Hitem & _). apply (ex_items _ _ (queue_run_extends later db1)) in Hitem as [i Hi]. exists i. split; [done|].
  assert (Hshown : shown (queue_run later db1) id -> mi_status i = CS "approved" \/ half_approved_in later db1 id).
  { intros Hs. destruct (decide (mi_status i = CS "approved")) as [|Hne]; [by left|]. right.
    exact (qw_hidden _ _ (queue_run_wf (half_approved_in later db1) later db1 ltac:(done) (queue_wf_weaken _ _ H1) ltac:(lia)) id i Hi Hne Hs). }
  split; [|done]. intros (r & Hr & Hd). apply filter_In in Hr as [Hr Hp]. cbn [fst] in Hp.
  assert (Hpend : mi_status i <> CS "pending").
  { intros E. unfold pending_item in Hp. rewrite Hi, E in Hp. done. }
  destruct Hshown as [?|?]; [|by left|by right]. exists r. split; [|done]. by apply elem_of_map_to_list, list_elem_of_In.
Qed.

Definition no_content : content_db := ContentDb ∅ ∅ 1 ∅ ∅ ∅ {[7 := 0]}.

Lemma no_content_wf : queue_wf no_content.
Proof. split; cbn; intros id; rewrite lookup_empty; by intros []. Qed.

Lemma moderation_shows_approved_witness :
  let '(id, db1) := db_moderation_create_pending_comment (fun _ => true) 1000 (CS "post") 3 7 (CS "eve") 0 (CS "hello") (CS "approval_queue") no_content in
  let later := [Remove true 1 7; Approve (fun _ => true) MODERATION_COMMENT 1 2; Edit true 1 7 (CS "bye"); Reject (fun _ => true) MODERATION_COMMENT 1 2] in
  id = 1 /\ shown (queue_run later db1) id /\
  exists i, db_items (queue_run later db1) !! (MODERATION_COMMENT, id) = Some i /\
    (shown (queue_run later db1) id -> mi_status i = CS "approved" \/ half_approved_in later db1 id).
Proof.
  pose proof (moderation_shows_approved (fun _ => true) 1000 (CS "post") 3 7 (CS "eve") 0 (CS "hello") (CS "approval_queue") no_content no_content_wf ltac:(cbn; lia)) as H.
  destruct (db_moderation_create_pending_comment _ _ _ _ _ _ _ _ _ _) as [id db1] eqn:E. destruct H as [H _].
  assert (Hid : id = 1) by (apply (f_equal fst) in E; vm_compute in E; by symmetry).
  assert (Hdb : db1 = snd (db_moderation_create_pending_comment (fun _ => true) 1000 (CS "post") 3 7 (CS "eve") 0 (CS "hello") (CS "approval_queue") no_content)) by by rewrite E.
  assert (Hs : shown (queue_run [Remove true 1 7; Approve (fun _ => true) MODERATION_COMMENT 1 2; Edit true 1 7 (CS "bye"); Reject (fun _ => true) MODERATION_COMMENT 1 2] db1) id)
    by (rewrite Hdb, Hid; eexists; by split; [vm_compute|]).
  cbv zeta. split_and!; [done|done|]. destruct (H ltac:(lia) [Remove true 1 7; Approve (fun _ => true) MODERATION_COMMENT 1 2; Edit true 1 7 (CS "bye"); Reject (fun _ => true) MODERATION_COMMENT 1 2])
    as (i & Hi & _ & Hsh). by exists i.
Defined.

(** ** An approval that fails half-way *)

(** C28: The comment is put back first and the item closed then.  When the second statement fails, the
    reviewer is told that the approval failed, but the comment is shown; it cannot be approved any
    more, and rejecting it succeeds without hiding it again. *)
Theorem half_approved_comment ok id reviewer db i r : pending_item db MODERATION_COMMENT id = Some i ->
  db_comments db !! id = Some r -> co_deleted r = true -> ok 0%nat = true -> ok 1%nat = false ->
  let '(approved, db1) := db_moderation_approve ok MODERATION_COMMENT id reviewer db in
  approved = false /\ shown db1 id /\
  (forall ok' reviewer', db_moderation_approve ok' MODERATION_COMMENT id reviewer' db1 = (false, db1)) /\
  forall ok' reviewer', ok' 1%nat = true ->
    let '(rejected, db2) := db_moderation_reject ok' MODERATION_COMMENT id reviewer' db1 in
    rejected = true /\ db_comments db2 !! id = Some (with_content (mi_content i) false r) /\
    (mi_status <$> db_items db2 !! (MODERATION_COMMENT, id)) = Some (CS "rejected").
Proof.
  intros Hi Hr Hd H0 H1. unfold db_moderation_approve at 1. rewrite Hi. change (streq MODERATION_COMMENT MODERATION_POST) with false.
  rewrite streq_refl. unfold update_comment at 1. rewrite H0, Hr, Hd. cbn [negb]. set (db1 := set_comments _ db).
  assert (Hi1 : pending_item db1 MODERATION_COMMENT id = Some i) by done.
  unfold finish_review at 1. rewrite Hi1, H1. set (r' := with_content (mi_content i) false r).
  assert (Hr1 : db_comments db1 !! id = Some r') by (cbn; by rewrite lookup_insert_eq).
  split_and!; [done|by exists r'| |].
  - intros ok' reviewer'. unfold db_moderation_approve. rewrite Hi1. change (streq MODERATION_COMMENT MODERATION_POST) with false.
    rewrite streq_refl. unfold update_comment. destruct (ok' 0%nat); [|done]. cbn [negb]. by rewrite Hr1.
  - intros ok' reviewer' H1'. unfold db_moderation_reject. rewrite Hi1. change (streq MODERATION_COMMENT MODERATION_POST) with false.
    rewrite streq_refl. unfold finish_review. rewrite Hi1, H1'. split_and!; [done|exact Hr1|]. cbn. by rewrite lookup_insert_eq.
Qed.

Lemma half_approved_comment_witness :
  let db := snd (db_moderation_create_pending_comment (fun _ => true) 1000 (CS "post") 3 7 (CS "eve") 0 (CS "hello") (CS "approval_queue") no_content) in
  let '(approved, db1) := db_moderation_approve (fun n => (n =? 0)%nat) MODERATION_COMMENT 1 2 db in
  approved = false /\ shown db1 1.
Proof.
  cbv zeta. set (db := snd _). 
  assert (Hi : is_Some (pending_item db MODERATION_COMMENT 1)) by (eexists; by vm_compute).
  assert (Hr : exists r, db_comments db !! 1 = Some r /\ co_deleted r = true) by (eexists; by split; [vm_compute|]).
  destruct Hi as [i Hi]. destruct Hr as (r & Hr & Hd).
  pose proof (half_approved_comment (fun n => (n =? 0)%nat) 1 2 db i r Hi Hr Hd eq_refl eq_refl) as H.
  destruct (db_moderation_approve _ _ _ _ _) as [approved db1]. destruct H as (H1 & H2 & _). by split.
Defined.

(** ** An approved comment is the one that was sent *)

(** Submitting and approving a comment leaves the same comments as storing it at once. *)
Theorem moderation_approve_roundtrip now kind target uid author parent content reason reviewer db : queue_wf db -> 0 < db_next_comment db ->
  let '(id, db1) := db_moderation_create_pending_comment (fun _ => true) now kind target uid author parent content reason db in
  let '(approved, db2) := db_moderation_approve (fun _ => true) MODERATION_COMMENT id reviewer db1 in
  let '(id', db') := db_comment_create true now kind target uid author parent content db in
  id = id' /\ approved = true /\ db_comments db2 = db_comments db' /\ db_next_comment db2 = db_next_comment db' /\
  (co_content <$> db_comments db1 !! id) = Some [] /\ (mi_content <$> db_items db1 !! (MODERATION_COMMENT, id)) = Some content.
Proof.
  intros Hwf Hpos. assert (Hnone : db_items db !! (MODERATION_COMMENT, db_next_comment db) = None).
  { apply eq_None_not_Some. intros H%(qw_items _ _ Hwf). lia. }
  unfold db_moderation_create_pending_comment, db_comment_create. cbn [negb]. rewrite (proj2 (Z.leb_gt _ 0)) by lia.
  set (id := db_next_comment db) in *. unfold db_comment_delete_admin, update_comment. cbn [negb db_comments]. rewrite lookup_insert_eq. cbn [negb co_deleted].
  unfold queue_row. cbn [db_items set_comments]. rewrite Hnone. cbn [snd].
  unfold db_moderation_approve, pending_item. cbn [db_items set_items]. rewrite lookup_insert_eq. cbn [mi_status]. rewrite streq_refl.
  change (streq MODERATION_COMMENT MODERATION_POST) with false. rewrite streq_refl. unfold update_comment. cbn [negb db_comments set_comments set_items].
  rewrite lookup_insert_eq. cbn [co_deleted with_content]. unfold finish_review, pending_item. cbn [db_items set_items set_comments]. rewrite lookup_insert_eq. cbn [mi_status].
  rewrite streq_refl. cbn. by rewrite !insert_insert_eq.
Qed.

Lemma moderation_approve_roundtrip_witness :
  let '(id, db1) := db_moderation_create_pending_comment (fun _ => true) 1000 (CS "post") 3 7 (CS "eve") 0 (CS "hello") (CS "approval_queue") no_content in
  let '(approved, db2) := db_moderation_approve (fun _ => true) MODERATION_COMMENT id 2 db1 in
  let '(id', db') := db_comment_create true 1000 (CS "post") 3 7 (CS "eve") 0 (CS "hello") no_content in
  id = id' /\ approved = true /\ db_comments db2 = db_comments db' /\ db_next_comment db2 = db_next_comment db' /\
  (co_content <$> db_comments db1 !! id) = Some [] /\ (mi_content <$> db_items db1 !! (MODERATION_COMMENT, id)) = Some (CS "hello").
Proof. apply moderation_approve_roundtrip; [exact no_content_wf|by vm_compute]. Defined.

(** ** Texts that count as equal, and links *)

(** The words of a text, [cur] being the one that was begun. *)
Fixpoint words (s cur : list Z) : list (list Z) :=
  match s with
  | [] => if bool_decide (cur = []) then [] else [cur]
  | c :: r => if isspace c then (if bool_decide (cur = []) then words r [] else cur :: words r []) else words r (cur ++ [c])
  end.
Definition with_blanks (ws : list (list Z)) : list Z := concat (map (cons 32) ws).
Definition join_words (ws : list (list Z)) : list Z := drop 1 (with_blanks ws).
Definition lower : list (list Z) -> list (list Z) := map (map tolower).

Lemma words_begun s : forall cur, cur <> [] -> words s cur <> [].
Proof.
  induction s as [|c s IH]; intros cur Hc; cbn; rewrite ?(bool_decide_false (cur = [])) by done; [done|].
  destruct (isspace c); [done|]. apply IH. by destruct cur.
Qed.

Lemma with_blanks_join ws : ws <> [] -> with_blanks ws = 32 :: join_words ws.
Proof. by destruct ws. Qed.

Lemma normalized_from s :
  (forall pre cur, cur <> [] -> fst (foldl normalized_step (pre ++ map tolower cur, false) s) = pre ++ join_words (lower (words s cur))) /\
  (forall out, out <> [] -> fst (foldl normalized_step (out, true) s) = out ++ with_blanks (lower (words s []))) /\
  fst (foldl normalized_step ([], false) s) = join_words (lower (words s [])).
Proof.
  assert (Hpos : forall out : list Z, out <> [] -> (0 <? length out)%nat = true) by by intros [].
  induction s as [|c s (IHa & IHb & IHc)]; cbn [foldl words].
  - rewrite (bool_decide_true ([] = [])) by done. split_and!; [|intros out _; by rewrite app_nil_r|done].
    intros pre cur Hc. rewrite bool_decide_false by done. unfold join_words, with_blanks. cbn. by rewrite drop_0, app_nil_r.
  - unfold normalized_step at 2 4 6. rewrite (bool_decide_true ([] = [])) by done. destruct (isspace c).
    + split_and!.
      * intros pre cur Hc. rewrite (Hpos (pre ++ map tolower cur)) by (by destruct pre, cur). rewrite (bool_decide_false (cur = [])) by done.
        rewrite IHb by (by destruct pre, cur). unfold join_words at 1, with_blanks at 1. cbn. by rewrite drop_0, <- app_assoc.
      * intros out Ho. rewrite Hpos by done. by apply IHb.
      * exact IHc.
    + split_and!.
      * intros pre cur Hc. rewrite <- app_assoc. change [tolower c] with (map tolower [c]). rewrite <- map_app. apply IHa. by destruct cur.
      * intros out Ho. change (([] ++ [c])) with [c]. change [tolower c] with (map tolower [c]). rewrite IHa by done.
        rewrite with_blanks_join, <- app_assoc; [done|]. unfold lower. pose proof (words_begun s [c] ltac:(done)). by destruct (words s [c]).
      * change (([] ++ [c])) with [c]. change ([] ++ [tolower c]) with (map tolower [c]). apply (IHa [] [c]). done.
Qed.

(** Words without blanks are read back from their line. *)
Definition word (w : list Z) : Prop := w <> [] /\ Forall (fun c => isspace c = false) w.

Lemma words_app w : Forall (fun c => isspace c = false) w -> forall cur s, words (w ++ s) cur = words s (cur ++ w).
Proof.
  induction 1 as [|c w Hc _ IH]; intros cur s; cbn [app words]; [by rewrite app_nil_r|]. rewrite Hc, IH, <- app_assoc. done.
Qed.

Lemma words_with_blanks ws : Forall word ws -> words (with_blanks ws) [] = ws /\ forall cur, cur <> [] -> words (with_blanks ws) cur = cur :: ws.
Proof.
  induction 1 as [|w ws [Hw Hs] _ [IH1 IH2]]; [split; [done|]; intros cur Hc; cbn; by rewrite bool_decide_false|].
  assert (H : words (w ++ with_blanks ws) [] = w :: ws) by (rewrite words_app by done; by apply IH2).
  unfold with_blanks in *. cbn [map concat app words]. rewrite (bool_decide_true ([] = [])) by done. change (isspace 32) with true. split; [exact H|].
  intros cur Hc. rewrite (bool_decide_false (cur = [])) by done. by rewrite <- H.
Qed.

Lemma words_join ws : Forall word ws -> words (join_words ws) [] = ws.
Proof.
  intros H. destruct (words_with_blanks ws H) as [Hw _]. destruct ws as [|w ws]; [done|]. exact Hw.
Qed.

Lemma tolower_isspace c : isspace (tolower c) = isspace c.
Proof. unfold tolower, isupper, isspace. case_match; lia. Qed.

Lemma words_word s : forall cur, Forall (fun c => isspace c = false) cur -> Forall word (words s cur).
Proof.
  induction s as [|c s IH]; intros cur Hc; cbn.
  - destruct (bool_decide (cur = [])) eqn:E; [done|]. apply bool_decide_eq_false in E. by repeat constructor.
  - destruct (isspace c) eqn:Es.
    + destruct (bool_decide (cur = [])) eqn:E; [by apply IH|]. apply bool_decide_eq_false in E. constructor; [by split|by apply IH].
    + apply IH. apply Forall_app. by repeat constructor.
Qed.

Lemma lower_word ws : Forall word ws -> Forall word (lower ws).
Proof.
  intros H. apply Forall_map. eapply Forall_impl; [exact H|]. intros w [Hw Hs]. split; [by destruct w|].
  apply Forall_map. eapply Forall_impl; [exact Hs|]. intros c. cbn. by rewrite tolower_isspace.
Qed.

Lemma words_normalized s : words (normalized s) [] = lower (words s []).
Proof.
  destruct (normalized_from s) as (_ & _ & H). unfold normalized. rewrite H. apply words_join, lower_word, words_word. constructor.
Qed.

(** ** Links *)

Definition link_at (s : list Z) : bool := starts_with (CS "http://") (map tolower s) || starts_with (CS "https://") (map tolower s).
Fixpoint link_positions (s : list Z) : Z := match s with [] => 0 | _ :: r => (if link_at s then 1 else 0) + link_positions r end.

Lemma starts_with_cons a p b s : starts_with (a :: p) (b :: s) = (a =? b) && starts_with p s.
Proof. done. Qed.

Lemma no_link_at c s : tolower c <> 104 -> link_at (c :: s) = false.
Proof. intros H. unfold link_at. cbn [map starts_with]. by rewrite (proj2 (Z.eqb_neq 104 (tolower c))) by congruence. Qed.

Lemma links_skipped k : forall s, links_from k s = links_from 0 (drop k s).
Proof. induction k as [|k IH]; [by intros; rewrite drop_0|]. intros [|c s]; [done|]. cbn [links_from drop]. apply IH. Qed.

(** The characters after the first of a link begin no other one. *)
Lemma inside_link p s : starts_with p (map tolower s) = true -> Forall (fun c => c <> 104) p ->
  link_positions s = link_positions (drop (length p) s).
Proof.
  revert s. induction p as [|a p IH]; intros s H Hp; [by rewrite drop_0|]. apply Forall_cons in Hp as [Ha Hp].
  destruct s as [|c s]; [done|]. cbn [map starts_with] in H. apply andb_true_iff in H as [E%Z.eqb_eq H]. cbn [length drop].
  rewrite <- IH by done. cbn [link_positions]. rewrite no_link_at by congruence. done.
Qed.

Lemma links_from_positions n : forall s, (length s <= n)%nat -> links_from 0 s = link_positions s.
Proof.
  induction n as [|n IH]; intros s Hn; [by destruct s; [|cbn in Hn; lia]|]. destruct s as [|c s]; [done|]. cbn [links_from link_positions].
  assert (Hk : forall k, links_from k s = link_positions (drop k s)).
  { intros k. rewrite links_skipped. apply IH. rewrite length_drop. cbn in Hn. lia. }
  unfold link_at. destruct (starts_with (CS "http://") (map tolower (c :: s))) eqn:E1.
  - cbn [map] in E1. rewrite starts_with_cons in E1. apply andb_true_iff in E1 as [_ E1]. rewrite (inside_link _ _ E1) by (by repeat constructor). by rewrite Hk.
  - destruct (starts_with (CS "https://") (map tolower (c :: s))) eqn:E2; [|by rewrite Hk, drop_0].
    cbn [map] in E2. rewrite starts_with_cons in E2. apply andb_true_iff in E2 as [_ E2]. rewrite (inside_link _ _ E2) by (by repeat constructor). by rewrite Hk.
Qed.

(** Two texts count as duplicates exactly when they have the same words up to the case of their
    letters, so normalising twice changes nothing; and every place where a link begins is counted,
    and counted once. *)
Theorem moderation_texts_exact a b :
  (normalized a = normalized b <-> lower (words a []) = lower (words b [])) /\ normalized (normalized a) = normalized a /\
  link_count a = link_positions a.
Proof.
  assert (Hj : forall s, normalized s = join_words (lower (words s []))) by (intros s; by destruct (normalized_from s) as (_ & _ & H)).
  split_and!.
  - split; [intros H; by rewrite <- !words_normalized, H|]. intros H. by rewrite !Hj, H.
  - rewrite (Hj (normalized a)), words_normalized, (Hj a). f_equal. unfold lower. rewrite map_map. apply map_ext. intros w.
    rewrite map_map. apply map_ext. intros c. unfold tolower, isupper. repeat case_match; lia.
  - unfold link_count. by apply (links_from_positions (length a)).
Qed.

(** ** Limits of new accounts *)

Lemma zlen_filter_perm {A} (P : A -> bool) l k : l ≡ₚ k -> zlen (List.filter P l) = zlen (List.filter P k).
Proof.
  induction 1 as [|x l k _ IH|x y l|l k m _ IH1 _ IH2]; cbn; [done| | |congruence].
  - destruct (P x); [by rewrite !zlen_cons, IH|done].
  - destruct (P x), (P y); by rewrite ?zlen_cons.
Qed.

Lemma filter_filter {A} (P Q : A -> bool) l : List.filter P (List.filter Q l) = List.filter (fun x => Q x && P x) l.
Proof. induction l as [|x l IH]; [done|]. cbn. destruct (Q x); cbn; [|done]. destruct (P x); by rewrite IH. Qed.

Lemma filter_map_comm {A B} (f : A -> B) (P : B -> bool) l : List.filter P (map f l) = map f (List.filter (fun x => P (f x)) l).
Proof. induction l as [|x l IH]; [done|]. cbn. destruct (P (f x)); cbn; by rewrite IH. Qed.

Lemma zlen_map {A B} (f : A -> B) l : zlen (map f l) = zlen l.
Proof. unfold zlen. by rewrite length_map. Qed.

(** The rows of a table that satisfy a condition. *)
Definition rows_where `{Countable K} {V} (P : K * V -> bool) (t : gmap K V) : Z := zlen (List.filter P (map_to_list t)).

Lemma rows_insert `{Countable K} {V} (P : K * V -> bool) (t : gmap K V) k v : t !! k = None ->
  rows_where P (<[k := v]> t) = (if P (k, v) then 1 else 0) + rows_where P t.
Proof.
  intros Hk. unfold rows_where. rewrite (zlen_filter_perm P _ _ (map_to_list_insert t k v Hk)). cbn [List.filter].
  destruct (P (k, v)); [by rewrite zlen_cons|lia].
Qed.

Definition recent_comment (now uid : Z) (kv : Z * comment_row) : bool := (co_user (snd kv) =? uid) && (now - 24 * 3600 <=? co_created (snd kv)).
Definition recent_item (now uid : Z) (kv : (list Z * Z) * moderation_item) : bool :=
  streq (fst (fst kv)) MODERATION_COMMENT && (mi_user (snd kv) =? uid) && streq (mi_status (snd kv)) (CS "pending") && (now - 24 * 3600 <=? mi_created (snd kv)).

Lemma recent_count_rows now db uid : recent_count now db uid MODERATION_COMMENT =
  rows_where (recent_comment now uid) (db_comments db) + rows_where (recent_item now uid) (db_items db).
Proof.
  unfold recent_count. change (streq MODERATION_COMMENT MODERATION_POST) with false. unfold comments_of, items_of, rows_where. f_equal.
  - by rewrite filter_filter, filter_map_comm, zlen_map.
  - by rewrite filter_map_comm, zlen_map, filter_filter.
Qed.

Lemma submit_rows now kind target uid author parent content reason db : queue_wf db -> 0 < db_next_comment db ->
  let '(id, db1) := db_moderation_create_pending_comment (fun _ => true) now kind target uid author parent content reason db in
  queue_wf db1 /\ 0 < db_next_comment db1 /\ db_members db1 = db_members db /\
  forall now', recent_count now' db1 uid MODERATION_COMMENT = (if now' - 24 * 3600 <=? now then 2 else 0) + recent_count now' db uid MODERATION_COMMENT.
Proof.
  intros Hwf Hpos. pose proof (submit_spec _ (fun _ => true) now kind target uid author parent content reason db Hwf Hpos) as Hs.
  assert (Hnone : db_items db !! (MODERATION_COMMENT, db_next_comment db) = None).
  { apply eq_None_not_Some. intros H%(qw_items _ _ Hwf). lia. }
  assert (Hfresh : db_comments db !! db_next_comment db = None).
  { apply eq_None_not_Some. intros H%(qw_comments _ _ Hwf). lia. }
  unfold db_moderation_create_pending_comment, db_comment_create in *. cbn [negb] in *. rewrite (proj2 (Z.leb_gt _ 0)) in * by lia.
  set (id := db_next_comment db) in *. unfold db_comment_delete_admin, update_comment in *. cbn [negb db_comments] in *. rewrite lookup_insert_eq in *. cbn [negb co_deleted] in *.
  unfold queue_row in *. cbn [db_items set_comments] in *. rewrite Hnone in *. cbn [snd] in *. destruct Hs as [Hs _].
  split_and!; [done|cbn; lia|done|]. intros now'. rewrite !recent_count_rows. cbn [db_comments db_items set_items set_comments].
  rewrite insert_insert_eq, !rows_insert by done. unfold recent_comment at 1, recent_item at 1. cbn [fst snd with_content co_user co_created mi_user mi_status mi_created].
  rewrite Z.eqb_refl, !streq_refl. cbn [andb]. destruct (_ <=? now); lia.
Qed.

(** A comment that waits counts twice against the limit of a new account, as the hidden comment and
    as the item: after two comments that were queued the third is refused, though three are allowed. *)
Theorem pending_comments_count_twice c s m now kind target uid author parent one two three reason role db :
  queue_wf db -> 0 < db_next_comment db -> account_is_new now db uid = true ->
  cc_new_user_limits c = true -> cc_trust c = false -> mf_enabled (sf_policy s) = false -> moderation_can_review c role = false ->
  let '(_, db1) := db_moderation_create_pending_comment (fun _ => true) now kind target uid author parent one reason db in
  let '(_, db2) := db_moderation_create_pending_comment (fun _ => true) now kind target uid author parent two reason db1 in
  recent_count now db2 uid MODERATION_COMMENT = 4 + recent_count now db uid MODERATION_COMMENT /\
  fst (moderation_check_submission c s m now db2 uid role (Some MODERATION_COMMENT) three) = Decision MODERATION_REJECT (CS "new_user_comment_limit").
Proof.
  intros Hwf Hpos Hnew Hlim Htrust Hfilter Hrev.
  pose proof (submit_rows now kind target uid author parent one reason db Hwf Hpos) as H1.
  destruct (db_moderation_create_pending_comment _ _ _ _ _ _ _ one reason db) as [id1 db1]. destruct H1 as (Hwf1 & Hpos1 & Hm1 & H1).
  pose proof (submit_rows now kind target uid author parent two reason db1 Hwf1 Hpos1) as H2.
  destruct (db_moderation_create_pending_comment _ _ _ _ _ _ _ two reason db1) as [id2 db2]. destruct H2 as (_ & _ & Hm2 & H2).
  assert (Hc : recent_count now db2 uid MODERATION_COMMENT = 4 + recent_count now db uid MODERATION_COMMENT).
  { rewrite H2, H1, (proj2 (Z.leb_le _ now)) by lia. lia. }
  split; [done|]. unfold moderation_check_submission. change (streq MODERATION_COMMENT MODERATION_POST) with false. rewrite streq_refl, Hrev, Hfilter, Hlim, Htrust.
  cbn [negb andb]. assert (Hnew2 : account_is_new now db2 uid = true) by (unfold account_is_new in *; by rewrite Hm2, Hm1).
  rewrite Hnew2, Hc, (proj2 (Z.leb_le _ _)); [done|]. rewrite recent_count_rows. unfold rows_where, MODERATION_NEW_COMMENT_LIMIT.
  pose proof (zlen_nonneg (List.filter (recent_comment now uid) (map_to_list (db_comments db)))).
  pose proof (zlen_nonneg (List.filter (recent_item now uid) (map_to_list (db_items db)))). lia.
Qed.

Lemma pending_comments_count_twice_witness :
  let c := Community false true false false true false in
  let s := SharedFilter 1 (FilterPolicy false MODERATION_FILTER_PENDING false 64 []) in
  let '(_, db1) := db_moderation_create_pending_comment (fun _ => true) 1000 (CS "post") 3 7 (CS "eve") 0 (CS "one") (CS "approval_queue") no_content in
  let '(_, db2) := db_moderation_create_pending_comment (fun _ => true) 1000 (CS "post") 3 7 (CS "eve") 0 (CS "two") (CS "approval_queue") db1 in
  recent_count 1000 db2 7 MODERATION_COMMENT = 4 + recent_count 1000 no_content 7 MODERATION_COMMENT /\
  fst (moderation_check_submission c s no_matcher 1000 db2 7 (CS "user") (Some MODERATION_COMMENT) (CS "three")) =
    Decision MODERATION_REJECT (CS "new_user_comment_limit").
Proof. apply pending_comments_count_twice; try done. exact no_content_wf. Defined.
