(* ===== verification/ModerationWire.v ===== *)
(** * Messages of an external reviewer (src/src/nats/moderation.c)

    A decision is a JSON envelope: its fields, and a signature over the compact text of seven of them
    in a fixed order.  cJSON's parser and printer are parameters; the signatures are an interface that
    SigningKeys implements, and the queue is Moderation's.  Numbers are integers; [None] as an outcome is a NULL pointer given to
    [strcmp]. *)
From stdpp Require Import gmap.
From S2P Require Import Prelude CStr Auth SigningKeys Aho ModerationFilter Community Moderation Flywire.

Definition MODERATION_PROTOCOL_VERSION : Z := 1.
Definition MODERATION_DECISION_MAX_BYTES : Z := 65536.
Definition MODERATION_CONTENT_MAX_BYTES : Z := 1024 * 1024.
Definition FLY_MODERATION_CORRELATION_LEN : nat := 32.

Definition cJSON_GetObjectItemCaseSensitive (fields : list (list Z * json)) (name : cstr) : option json :=
  snd <$> List.find (fun kv => streq (fst kv) name) fields.

Definition json_string (fields : list (list Z * json)) (key : cstr) : option cstr :=
  match cJSON_GetObjectItemCaseSensitive fields key with Some (JString s) => Some s | _ => None end.

Definition json_integer (fields : list (list Z * json)) (key : cstr) : option Z :=
  match cJSON_GetObjectItemCaseSensitive fields key with
  | Some (JNumber n) => if (n <? 0) || (253402300799 <? n) then None else Some n
  | _ => None
  end.

Definition valid_correlation (id : option cstr) : bool :=
  match id with
  | None => false
  | Some id => (length id =? FLY_MODERATION_CORRELATION_LEN)%nat && forallb (fun c => isdigit c || ((97 <=? c) && (c <=? 102))) id
  end.

Definition valid_decision_id (id : option cstr) : bool :=
  match id with
  | None => false
  | Some id => negb (length id =? 0)%nat && (length id <=? 64)%nat &&
               forallb (fun c => isdigit c || isupper c || islower c || (c =? CH "-") || (c =? CH "_")) id
  end.

Definition valid_envelope (obj : option json) (type : cstr) (n : nat) : option (list (list Z * json)) :=
  match obj with
  | Some (JObject fields) =>
      if (length fields =? n)%nat &&
         match cJSON_GetObjectItemCaseSensitive fields (CS "version") with Some (JNumber v) => valueint (JNumber v) =? MODERATION_PROTOCOL_VERSION | _ => false end &&
         match json_string fields (CS "type") with Some kind => streq kind type | None => false end &&
         match json_string fields (CS "sig_alg") with Some a => streq a (CS "ML-DSA-65") | None => false end &&
         bool_decide (is_Some (json_string fields (CS "sig_b64"))) && bool_decide (is_Some (json_string fields (CS "pubkey_b64")))
      then Some fields else None
  | _ => None
  end.

(** Sixteen random bytes in hexadecimal. *)
Definition fly_moderation_correlation_id (random : option (list Z)) : option cstr :=
  match random with Some r => Some (concat (map hex_byte (take 16 r))) | None => None end.

(** The fields that are signed. *)
Definition request_body (correlation_id target_type content reason : cstr) (issued_at expires_at : Z) : list (list Z * json) :=
  [(CS "version", JNumber MODERATION_PROTOCOL_VERSION); (CS "type", JString (CS "moderation.review")); (CS "correlation_id", JString correlation_id);
   (CS "target_type", JString target_type); (CS "content", JString content); (CS "reason", JString reason);
   (CS "issued_at", JNumber issued_at); (CS "expires_at", JNumber expires_at)].
Definition decision_body (correlation_id decision_id action : cstr) (issued_at : Z) (reason : cstr) : list (list Z * json) :=
  [(CS "version", JNumber MODERATION_PROTOCOL_VERSION); (CS "type", JString (CS "moderation.decision")); (CS "correlation_id", JString correlation_id);
   (CS "decision_id", JString decision_id); (CS "action", JString action); (CS "issued_at", JNumber issued_at); (CS "reason", JString reason)].
Definition signature_fields (sig pubkey : cstr) : list (list Z * json) :=
  [(CS "sig_alg", JString (CS "ML-DSA-65")); (CS "sig_b64", JString sig); (CS "pubkey_b64", JString pubkey)].

Definition action_of (action : cstr) : option moderation_action :=
  if streq action (CS "allow") then Some MODERATION_ALLOW else if streq action (CS "pending") then Some MODERATION_PENDING
  else if streq action (CS "reject") then Some MODERATION_REJECT else None.

(** What the protocol needs of the keys: signing requests, the public key that is sent along, and
    checking a decision against a public key. *)
Class Signatures := {
  sign_request : list Z -> option (list Z);
  pubkey_export : option (list Z);
  verify_decision : list Z -> list Z -> list Z -> bool;
}.

(** The keys of a process. *)
Definition process_signatures {private_key public_key} (SIG PUB : nat) parse_encoded MLDSA65_sign MLDSA65_verify SHA256 EVP_EncodeBlock EVP_DecodeBlock
    (st : @key_state private_key public_key) : Signatures := {|
  sign_request msg := fly_crypto_sign_moderation_request MLDSA65_sign EVP_EncodeBlock msg st;
  pubkey_export := fly_crypto_pubkey_export EVP_EncodeBlock st;
  verify_decision pk msg sig := fly_crypto_verify_moderation_decision SIG PUB parse_encoded MLDSA65_verify SHA256 EVP_DecodeBlock pk msg (Some sig) st;
|}.

Section wire.
Context (cJSON_PrintUnformatted : json -> list Z) (cJSON_Parse : list Z -> option json) `{keys : Signatures}.

Definition fly_moderation_build_request (correlation_id target_type : cstr) (content reason : option cstr) (issued_at expires_at : Z) : option (list Z) :=
  match content, reason with
  | Some content, Some reason =>
      if negb (valid_correlation (Some correlation_id)) || (MODERATION_CONTENT_MAX_BYTES <? zlen content) || (128 <? length reason)%nat ||
         (expires_at <=? issued_at) || negb (streq target_type MODERATION_POST || streq target_type MODERATION_COMMENT) then None
      else
        let canonical := cJSON_PrintUnformatted (JObject (request_body correlation_id target_type content reason issued_at expires_at)) in
        match sign_request canonical, pubkey_export, cJSON_Parse canonical with
        | Some signature, Some pubkey, Some (JObject fields) => Some (cJSON_PrintUnformatted (JObject (fields ++ signature_fields signature pubkey)))
        | _, _, _ => None
        end
  | _, _ => None
  end.

(** The order of the checks is the source's: the action is compared before it is known to be a text,
    and before the signature is verified. *)
Definition fly_moderation_process_decision (ok : nat -> bool) (data reviewer_pubkey : list Z) (now : Z) (db : content_db) :
    option (moderation_external_result * content_db) :=
  if (zlen data =? 0) || (MODERATION_DECISION_MAX_BYTES <? zlen data) then Some (MODERATION_EXTERNAL_REJECTED, db)
  else match valid_envelope (cJSON_Parse data) (CS "moderation.decision") 10 with
  | None => Some (MODERATION_EXTERNAL_REJECTED, db)
  | Some fields =>
      let correlation_id := json_string fields (CS "correlation_id") in
      let decision_id := json_string fields (CS "decision_id") in
      let pubkey := default [] (json_string fields (CS "pubkey_b64")) in
      let signature := default [] (json_string fields (CS "sig_b64")) in
      match valid_correlation correlation_id, valid_decision_id decision_id, json_string fields (CS "reason"), json_integer fields (CS "issued_at") with
      | true, true, Some reason, Some issued_at =>
          if (256 <? length reason)%nat || negb (streq pubkey reviewer_pubkey) then Some (MODERATION_EXTERNAL_REJECTED, db)
          else match json_string fields (CS "action") with
               | None => None
               | Some action =>
                   match action_of action with
                   | None => Some (MODERATION_EXTERNAL_REJECTED, db)
                   | Some decision =>
                       let correlation_id := default [] correlation_id in
                       let decision_id := default [] decision_id in
                       let canonical := cJSON_PrintUnformatted (JObject (decision_body correlation_id decision_id action issued_at reason)) in
                       if negb (verify_decision pubkey canonical signature) then Some (MODERATION_EXTERNAL_REJECTED, db)
                       else Some (db_moderation_external_apply ok correlation_id decision_id decision issued_at reason now db)
                   end
               end
      | _, _, _, _ => Some (MODERATION_EXTERNAL_REJECTED, db)
      end
  end.

(** ** Only what the reviewer signed is done *)

Lemma action_of_name action a : action_of action = Some a <-> action = external_action_name a.
Proof.
  unfold action_of. destruct (streq action (CS "allow")) eqn:E1; [apply streq_eq in E1 as ->; split; [by intros [= <-]|by destruct a]|].
  destruct (streq action (CS "pending")) eqn:E2; [apply streq_eq in E2 as ->; split; [by intros [= <-]|by destruct a]|].
  destruct (streq action (CS "reject")) eqn:E3; [apply streq_eq in E3 as ->; split; [by intros [= <-]|by destruct a]|].
  apply streq_neq in E1, E2, E3. split; [done|]. intros ->. by destruct a.
Qed.

(** An envelope as a reviewer prints it. *)
Definition envelope (c d : list Z) (action : moderation_action) (issued : Z) (reason sig pubkey : list Z) : json :=
  JObject (decision_body c d (external_action_name action) issued reason ++ signature_fields sig pubkey).

Lemma integer_read fields key n : cJSON_GetObjectItemCaseSensitive fields key = Some (JNumber n) -> 0 <= n <= 253402300799 -> json_integer fields key = Some n.
Proof. intros E Hn. unfold json_integer. rewrite E, (proj2 (Z.ltb_ge _ _)), (proj2 (Z.ltb_ge _ _)) by lia. done. Qed.

(** C26: Whatever arrives: the queue is only touched by what the pinned key signed, and by exactly the
    fields it signed; a message the reviewer signed is carried out; and a message that names the
    reviewer's public key, which is no secret, and has no action crashes the process before its
    signature is looked at. *)
Theorem decision_signed_or_crash ok data key now db :
  (forall r db', fly_moderation_process_decision ok data key now db = Some (r, db') -> r = MODERATION_EXTERNAL_REJECTED /\ db' = db \/
     exists c d action issued reason sig,
       verify_decision key (cJSON_PrintUnformatted (JObject (decision_body c d (external_action_name action) issued reason))) sig = true /\
       db_moderation_external_apply ok c d action issued reason now db = (r, db')) /\
  (forall c d action issued reason sig, let j := envelope c d action issued reason sig key in
     cJSON_Parse (cJSON_PrintUnformatted j) = Some j -> 0 < zlen (cJSON_PrintUnformatted j) <= MODERATION_DECISION_MAX_BYTES ->
     valid_correlation (Some c) = true -> valid_decision_id (Some d) = true -> (length reason <= 256)%nat -> 0 <= issued <= 253402300799 ->
     verify_decision key (cJSON_PrintUnformatted (JObject (decision_body c d (external_action_name action) issued reason))) sig = true ->
     fly_moderation_process_decision ok (cJSON_PrintUnformatted j) key now db = Some (db_moderation_external_apply ok c d action issued reason now db)) /\
  (forall c d issued reason sig, let j := JObject
      [(CS "version", JNumber 1); (CS "type", JString (CS "moderation.decision")); (CS "correlation_id", JString c); (CS "decision_id", JString d);
       (CS "action", JNull); (CS "issued_at", JNumber issued); (CS "reason", JString reason);
       (CS "sig_alg", JString (CS "ML-DSA-65")); (CS "sig_b64", JString sig); (CS "pubkey_b64", JString key)] in
     cJSON_Parse (cJSON_PrintUnformatted j) = Some j -> 0 < zlen (cJSON_PrintUnformatted j) <= MODERATION_DECISION_MAX_BYTES ->
     valid_correlation (Some c) = true -> valid_decision_id (Some d) = true -> (length reason <= 256)%nat -> 0 <= issued <= 253402300799 ->
     fly_moderation_process_decision ok (cJSON_PrintUnformatted j) key now db = None).
Proof.
  split_and!.
  - intros r db'. unfold fly_moderation_process_decision. destruct (_ || _); [intros [= <- <-]; by left|].
    destruct (valid_envelope _ _ _) as [fields|] eqn:Ev; [|intros [= <- <-]; by left].
    destruct (valid_correlation _); [|intros [= <- <-]; by left]. destruct (valid_decision_id _); [|intros [= <- <-]; by left].
    destruct (json_string fields (CS "reason")) as [reason|]; [|intros [= <- <-]; by left].
    destruct (json_integer fields (CS "issued_at")) as [issued|]; [|intros [= <- <-]; by left].
    destruct ((256 <? length reason)%nat || _) eqn:Ek; [intros [= <- <-]; by left|]. apply orb_false_iff in Ek as [_ Ek%negb_false_iff%streq_eq]. rewrite Ek.
    destruct (json_string fields (CS "action")) as [action|]; [|done]. destruct (action_of action) as [a|] eqn:Ea; [|intros [= <- <-]; by left].
    destruct (verify_decision _ _ _) eqn:Evf; [|intros [= <- <-]; by left]. cbn [negb]. intros [= Happ]. right. apply action_of_name in Ea as ->.
    eexists _, _, a, issued, reason, _. split; [exact Evf|done].
  - intros c d action issued reason sig j Hparse [Hpos Hmax] Hc Hd Hr Hi Hv. unfold fly_moderation_process_decision.
    rewrite (proj2 (Z.eqb_neq _ 0)), (proj2 (Z.ltb_ge _ _)) by lia. cbn [orb]. rewrite Hparse.
    set (fields := decision_body c d (external_action_name action) issued reason ++ signature_fields sig key).
    change (valid_envelope (Some j) (CS "moderation.decision") 10) with (Some fields). cbv iota.
    change (json_string fields (CS "correlation_id")) with (Some c). change (json_string fields (CS "decision_id")) with (Some d).
    change (json_string fields (CS "pubkey_b64")) with (Some key). change (json_string fields (CS "sig_b64")) with (Some sig).
    change (json_string fields (CS "reason")) with (Some reason). change (json_string fields (CS "action")) with (Some (external_action_name action)).
    rewrite (integer_read fields (CS "issued_at") issued eq_refl Hi). cbv zeta. rewrite Hc, Hd, (proj2 (Nat.ltb_ge _ _)) by lia. cbn [default]. unfold id.
    rewrite streq_refl. cbn [negb orb]. rewrite (proj2 (action_of_name _ action) eq_refl). by rewrite Hv.
  - intros c d issued reason sig j Hparse [Hpos Hmax] Hc Hd Hr Hi. unfold fly_moderation_process_decision.
    rewrite (proj2 (Z.eqb_neq _ 0)), (proj2 (Z.ltb_ge _ _)) by lia. cbn [orb]. rewrite Hparse. unfold j at 1.
    set (fields := _ :: _). change (valid_envelope (Some (JObject fields)) (CS "moderation.decision") 10) with (Some fields). cbv iota.
    change (json_string fields (CS "correlation_id")) with (Some c). change (json_string fields (CS "decision_id")) with (Some d).
    change (json_string fields (CS "pubkey_b64")) with (Some key).
    change (json_string fields (CS "reason")) with (Some reason). change (json_string fields (CS "action")) with (@None (list Z)).
    rewrite (integer_read fields (CS "issued_at") issued eq_refl Hi). cbv zeta. rewrite Hc, Hd, (proj2 (Nat.ltb_ge _ _)) by lia. cbn [default]. unfold id.
    by rewrite streq_refl.
Qed.
End wire.

(** ** A concrete reviewer *)

(** The reviewer's site has the key 9 and this one the key 7; one message is known. *)
Module WireDemo.
Definition correlation : list Z := concat (replicate 16 (CS "c0")).
Definition asked : content_db :=
  queue_run [Queue_post true 1000 3 7 (CS "approval_queue"); Ask true MODERATION_POST 3 correlation 1000 1300]
    (ContentDb {[3 := PostRow 0 7 (CS "hello") (CS "pending") 1000 false]} ∅ 1 ∅ ∅ ∅ ∅).
Definition reviewer : @key_state (list Z) (list Z) := start [9].
Definition reviewer_key : list Z := default [] (fly_crypto_pubkey_export SigningKeys.Demo.encode reviewer).
Definition print (j : json) : list Z := match j with JObject fields => [zlen fields] | _ => [0] end.
Definition signature : list Z :=
  default [] (fly_crypto_sign_moderation_decision SigningKeys.Demo.sign SigningKeys.Demo.encode
    (print (JObject (decision_body correlation (CS "d1") (CS "allow") 1010 (CS "fine")))) reviewer).
Definition message : json := envelope correlation (CS "d1") MODERATION_ALLOW 1010 (CS "fine") signature reviewer_key.
Definition parse (text : list Z) : option json := if streq text [10] then Some message else None.
Definition keys : Signatures :=
  process_signatures 1 1 (@Some (list Z)) SigningKeys.Demo.sign SigningKeys.Demo.verify (demo_out 32) SigningKeys.Demo.encode SigningKeys.Demo.decode (start [7]).
End WireDemo.

Lemma decision_signed_or_crash_witness :
  fly_moderation_process_decision (keys := WireDemo.keys) WireDemo.print WireDemo.parse (fun _ => true) (WireDemo.print WireDemo.message) WireDemo.reviewer_key 1020 WireDemo.asked =
    Some (db_moderation_external_apply (fun _ => true) WireDemo.correlation (CS "d1") MODERATION_ALLOW 1010 (CS "fine") 1020 WireDemo.asked) /\
  fst (db_moderation_external_apply (fun _ => true) WireDemo.correlation (CS "d1") MODERATION_ALLOW 1010 (CS "fine") 1020 WireDemo.asked) = MODERATION_EXTERNAL_APPLIED.
Proof.
  split; [|by vm_compute].
  apply (proj1 (proj2 (decision_signed_or_crash (keys := WireDemo.keys) WireDemo.print WireDemo.parse (fun _ => true) [] WireDemo.reviewer_key 1020 WireDemo.asked))
    WireDemo.correlation (CS "d1") MODERATION_ALLOW 1010 (CS "fine") WireDemo.signature);
    [by vm_compute|by vm_compute|by vm_compute|by vm_compute|by vm_compute; lia|lia|by vm_compute].
Defined.
