(* ===== verification/Timestamps.v ===== *)
(** * Publication times (src/src/handlers/post.c, src/src/db/post.c)

    Times are stored as texts [YYYY-MM-DD HH:MM:SS] in UTC and compared as texts.  The editor sends ISO
    8601; what [sscanf] accepts besides it (blanks and signs before numbers) is modelled too. *)
From S2P Require Import Prelude CStr.

Record utc := Utc { ut_year : Z; ut_month : Z; ut_day : Z; ut_hour : Z; ut_minute : Z; ut_second : Z }.

Definition dec2 (n : Z) : cstr := [48 + n / 10; 48 + n `mod` 10].
Definition dec4 (n : Z) : cstr := [48 + n / 1000; 48 + (n / 100) `mod` 10; 48 + (n / 10) `mod` 10; 48 + n `mod` 10].

(** [%Y-%m-%d %H:%M:%S] of a date up to the year 9999. *)
Definition post_time_text (t : utc) : cstr :=
  dec4 (ut_year t) ++ CS "-" ++ dec2 (ut_month t) ++ CS "-" ++ dec2 (ut_day t) ++ CS " " ++
  dec2 (ut_hour t) ++ CS ":" ++ dec2 (ut_minute t) ++ CS ":" ++ dec2 (ut_second t).

Definition leap_year (y : Z) : bool := ((y `mod` 4 =? 0) && negb (y `mod` 100 =? 0)) || (y `mod` 400 =? 0).
Definition days_in_month (y m : Z) : Z := if (m =? 2) && leap_year y then 29 else nth (Z.to_nat (m - 1)) [31; 28; 31; 30; 31; 30; 31; 31; 30; 31; 30; 31] 0.

(** One [%Nd]: blanks, then at most [width] characters, a sign and digits, at least one digit. *)
Fixpoint scan_digits (width : nat) (s : cstr) (acc : option Z) : option (Z * cstr) :=
  match width, s with
  | S width, c :: r => if isdigit c then scan_digits width r (Some (10 * default 0 acc + (c - 48))) else (fun n => (n, s)) <$> acc
  | _, _ => (fun n => (n, s)) <$> acc
  end.
Definition scan_int (width : nat) (s : cstr) : option (Z * cstr) :=
  match skip_spaces s with
  | (c :: r) as s =>
      if c =? CH "-" then (fun nr => (- fst nr, snd nr)) <$> scan_digits (width - 1) r None
      else if c =? CH "+" then scan_digits (width - 1) r None
      else scan_digits width s None
  | [] => None
  end.

(** A character of the format that is no blank. *)
Definition scan_char (c : Z) (s : cstr) : option cstr := match s with a :: r => if a =? c then Some r else None | [] => None end.

(** ["%4d-%2d-%2dT%2d:%2d%n"]: the numbers and the rest of the text. *)
Definition scan_date (s : cstr) : option (Z * Z * Z * Z * Z * cstr) :=
  match scan_int 4 s with None => None | Some (y, s) =>
  match scan_char (CH "-") s with None => None | Some s =>
  match scan_int 2 s with None => None | Some (mo, s) =>
  match scan_char (CH "-") s with None => None | Some s =>
  match scan_int 2 s with None => None | Some (d, s) =>
  match scan_char (CH "T") s with None => None | Some s =>
  match scan_int 2 s with None => None | Some (h, s) =>
  match scan_char (CH ":") s with None => None | Some s =>
  match scan_int 2 s with None => None | Some (mi, s) => Some (y, mo, d, h, mi, s)
  end end end end end end end end end.

Definition valid_utc (t : utc) : bool :=
  negb ((ut_year t <? 1970) || (9999 <? ut_year t) || (ut_month t <? 1) || (12 <? ut_month t) || (ut_day t <? 1) ||
        (days_in_month (ut_year t) (ut_month t) <? ut_day t) || (ut_hour t <? 0) || (23 <? ut_hour t) || (ut_minute t <? 0) || (59 <? ut_minute t) ||
        (ut_second t <? 0) || (59 <? ut_second t)).

(** The seconds and what follows them, where they are given. *)
Definition scan_seconds (s : cstr) : option (Z * cstr) :=
  match s with
  | c :: r => if c =? CH ":" then scan_int 2 r else Some (0, s)
  | [] => Some (0, s)
  end.

(** A fraction, and the letter of UTC. *)
Definition skip_fraction (s : cstr) : cstr :=
  let s := match s with c :: r => if c =? CH "." then skip isdigit r else s | [] => s end in
  match s with c :: r => if c =? CH "Z" then r else s | [] => s end.

Definition parse_publish_at (input : option cstr) : option utc :=
  match input with
  | None => None
  | Some s =>
      match scan_date s with
      | None => None
      | Some (y, mo, d, h, mi, rest) =>
          match scan_seconds rest with
          | None => None
          | Some (sec, rest) =>
              match skip_fraction rest with
              | [] => let t := Utc y mo d h mi sec in if valid_utc t then Some t else None
              | _ :: _ => None
              end
          end
      end
  end.

(** [strcmp]. *)
Fixpoint strcmp (a b : cstr) : comparison :=
  match a, b with
  | [], [] => Eq
  | [], _ => Lt
  | _, [] => Gt
  | x :: a, y :: b => match x ?= y with Eq => strcmp a b | c => c end
  end.

(** ** Reading back what was printed *)

Definition iso_text (t : utc) (fraction : list Z) : cstr :=
  dec4 (ut_year t) ++ CS "-" ++ dec2 (ut_month t) ++ CS "-" ++ dec2 (ut_day t) ++ CS "T" ++
  dec2 (ut_hour t) ++ CS ":" ++ dec2 (ut_minute t) ++ CS ":" ++ dec2 (ut_second t) ++ CS "." ++ fraction ++ CS "Z".

Lemma isdigit_dec n : 0 <= n < 10 -> isdigit (48 + n) = true /\ isspace (48 + n) = false /\ 48 + n <> 45 /\ 48 + n <> 43.
Proof. unfold isdigit, isspace. lia. Qed.

Lemma scan_digits_one width c s acc : isdigit c = true -> scan_digits (S width) (c :: s) acc = scan_digits width s (Some (10 * default 0 acc + (c - 48))).
Proof. intros H. cbn. by rewrite H. Qed.

Lemma scan_int_first width n s : 0 <= n < 10 -> scan_int width ((48 + n) :: s) = scan_digits width ((48 + n) :: s) None.
Proof.
  intros Hn. destruct (isdigit_dec n Hn) as (_ & Hs & H1 & H2). unfold scan_int. cbn [skip_spaces]. rewrite Hs.
  rewrite (proj2 (Z.eqb_neq _ _) H1), (proj2 (Z.eqb_neq _ _) H2). reflexivity.
Qed.

Lemma scan_dec2 n s : 0 <= n < 100 -> scan_int 2 (dec2 n ++ s) = Some (n, s).
Proof.
  intros Hn. unfold dec2. cbn [app]. rewrite scan_int_first by (Z.to_euclidean_division_equations; lia).
  rewrite !scan_digits_one by (apply isdigit_dec; Z.to_euclidean_division_equations; lia). cbn [scan_digits fmap option_fmap option_map default].
  do 2 f_equal. unfold id. Z.to_euclidean_division_equations; lia.
Qed.

Lemma scan_dec4 n s : 0 <= n < 10000 -> scan_int 4 (dec4 n ++ s) = Some (n, s).
Proof.
  intros Hn. unfold dec4. cbn [app]. rewrite scan_int_first by (Z.to_euclidean_division_equations; lia).
  rewrite !scan_digits_one by (apply isdigit_dec; Z.to_euclidean_division_equations; lia). cbn [scan_digits fmap option_fmap option_map default].
  do 2 f_equal. unfold id. Z.to_euclidean_division_equations; lia.
Qed.

Lemma valid_utc_bounds t : valid_utc t = true -> 1970 <= ut_year t <= 9999 /\ 1 <= ut_month t <= 12 /\
  1 <= ut_day t <= days_in_month (ut_year t) (ut_month t) /\ 0 <= ut_hour t <= 23 /\ 0 <= ut_minute t <= 59 /\ 0 <= ut_second t <= 59.
Proof. unfold valid_utc. lia. Qed.

Lemma month_cases m : 1 <= m <= 12 -> m = 1 \/ m = 2 \/ m = 3 \/ m = 4 \/ m = 5 \/ m = 6 \/ m = 7 \/ m = 8 \/ m = 9 \/ m = 10 \/ m = 11 \/ m = 12.
Proof. lia. Qed.

(** The twelve cases of a month. *)
Ltac months m := let H := fresh in pose proof (month_cases m ltac:(lia)) as H;
  destruct H as [->|[->|[->|[->|[->|[->|[->|[->|[->|[->|[->| ->]]]]]]]]]]].

(** Indexes of literal months. *)
Ltac index_eval := repeat match goal with |- context [Z.to_nat ?k] => let v := eval vm_compute in (Z.to_nat k) in change (Z.to_nat k) with v end; cbn [nth].

Lemma days_in_month_bounds y m : 1 <= m <= 12 -> 28 <= days_in_month y m <= 31.
Proof.
  intros Hm. unfold days_in_month. destruct ((m =? 2) && leap_year y); [lia|].
  months m; index_eval; lia.
Qed.

Lemma skip_digits l r : forallb isdigit l = true -> (forall c r', r = c :: r' -> isdigit c = false) -> skip isdigit (l ++ r) = r.
Proof.
  intros Hl Hr. unfold skip. induction l as [|c l IH]; cbn.
  - destruct r as [|c r]; [done|]. cbn. by rewrite (Hr c r eq_refl).
  - apply andb_true_iff in Hl as [Hc Hl]. rewrite Hc. specialize (IH Hl). destruct (span isdigit (l ++ r)) as [a b]. exact IH.
Qed.

Lemma parse_iso t fraction : valid_utc t = true -> forallb isdigit fraction = true -> parse_publish_at (Some (iso_text t fraction)) = Some t.
Proof.
  intros Hv Hf. pose proof (valid_utc_bounds t Hv) as (Hy & Hmo & Hd & Hh & Hmi & Hs). pose proof (days_in_month_bounds (ut_year t) _ Hmo).
  unfold parse_publish_at, iso_text, scan_date. rewrite scan_dec4 by lia. cbn [app scan_char Z.eqb Pos.eqb].
  rewrite scan_dec2 by lia. cbn [app scan_char Z.eqb Pos.eqb]. rewrite scan_dec2 by lia. cbn [app scan_char Z.eqb Pos.eqb].
  rewrite scan_dec2 by lia. cbn [app scan_char Z.eqb Pos.eqb]. rewrite scan_dec2 by lia. cbn [app scan_seconds Z.eqb Pos.eqb].
  rewrite scan_dec2 by lia. unfold skip_fraction. cbn [app Z.eqb Pos.eqb]. rewrite skip_digits by (done || by intros ? ? [= <- _]).
  cbn [Z.eqb Pos.eqb]. destruct t. cbn [ut_year ut_month ut_day ut_hour ut_minute ut_second] in *. by rewrite Hv.
Qed.

(** ** Texts in the order of time *)

(** Days of the years before, and of the months of the year before. *)
Definition year_days (y : Z) : Z := 365 * y + (y + 3) / 4 - (y + 99) / 100 + (y + 399) / 400.
Definition year_length (y : Z) : Z := if leap_year y then 366 else 365.
Definition month_days (y : Z) (m : Z) : Z := foldr (fun k acc => days_in_month y (Z.of_nat k) + acc) 0 (seq 1 (Z.to_nat (m - 1))).
Definition utc_seconds (t : utc) : Z :=
  (((year_days (ut_year t) + month_days (ut_year t) (ut_month t) + ut_day t) * 24 + ut_hour t) * 60 + ut_minute t) * 60 + ut_second t.

Lemma year_days_step y : year_days (y + 1) = year_days y + year_length y.
Proof.
  unfold year_days, year_length, leap_year.
  destruct (Z.eqb_spec (y `mod` 4) 0), (Z.eqb_spec (y `mod` 100) 0), (Z.eqb_spec (y `mod` 400) 0); cbn [andb orb negb]; Z.to_euclidean_division_equations; lia.
Qed.

Lemma year_days_mono y y' : y <= y' -> year_days y <= year_days y'.
Proof.
  intros H. replace y' with (y + Z.of_nat (Z.to_nat (y' - y))) by lia. generalize (Z.to_nat (y' - y)). intros n. induction n as [|n IH]; [by rewrite Z.add_0_r|].
  replace (y + Z.of_nat (S n)) with (y + Z.of_nat n + 1) by lia. rewrite year_days_step. unfold year_length. destruct (leap_year _); lia.
Qed.

(** The days before a month of a common year, and one more after February of a leap year. *)
Lemma month_days_table y m : 1 <= m <= 12 -> month_days y m =
  nth (Z.to_nat (m - 1)) [0; 31; 59; 90; 120; 151; 181; 212; 243; 273; 304; 334] 0 + (if leap_year y && (2 <? m) then 1 else 0).
Proof.
  intros Hm. unfold month_days, days_in_month. months m; by destruct (leap_year y).
Qed.

Lemma month_days_step y m m' : 1 <= m -> m < m' -> m' <= 12 -> month_days y m + days_in_month y m <= month_days y m'.
Proof.
  intros H1 H2 H3. rewrite !month_days_table by lia. unfold days_in_month. destruct (leap_year y); months m; months m'; index_eval; cbn [Z.eqb Pos.eqb Z.ltb Z.compare Pos.compare Pos.compare_cont andb]; lia.
Qed.

Lemma month_days_year y m : 1 <= m <= 12 -> 0 <= month_days y m /\ month_days y m + days_in_month y m <= year_length y.
Proof.
  intros Hm. rewrite month_days_table by done. unfold days_in_month, year_length. destruct (leap_year y); months m; index_eval; cbn [Z.eqb Pos.eqb Z.ltb Z.compare Pos.compare Pos.compare_cont andb]; lia.
Qed.

(** The first comparison that tells two apart. *)
Definition lex (c d : comparison) : comparison := match c with Eq => d | _ => c end.

Lemma lex_assoc a b c : lex (lex a b) c = lex a (lex b c).
Proof. destruct a; reflexivity. Qed.

Lemma strcmp_app a a' b b' : length a = length a' -> strcmp (a ++ b) (a' ++ b') = lex (strcmp a a') (strcmp b b').
Proof.
  revert a'. induction a as [|x a IH]; intros [|x' a'] H; [done..|]. cbn. destruct (x ?= x'); [|done..]. apply IH. cbn in H. lia.
Qed.

Lemma compare_sum k a a' b b' : 0 <= b < k -> 0 <= b' < k -> (a * k + b ?= a' * k + b') = lex (a ?= a') (b ?= b').
Proof.
  intros Hb Hb'. destruct (Z.compare_spec a a') as [->|H|H]; cbn [lex].
  - destruct (Z.compare_spec b b') as [->|H|H]; [apply Z.compare_refl|apply Z.compare_lt_iff; lia|apply Z.compare_gt_iff; lia].
  - apply Z.compare_lt_iff. nia.
  - apply Z.compare_gt_iff. nia.
Qed.

Lemma compare_digit a b : (48 + a ?= 48 + b) = (a ?= b).
Proof. destruct (Z.compare_spec a b) as [->|H|H]; [apply Z.compare_refl|apply Z.compare_lt_iff; lia|apply Z.compare_gt_iff; lia]. Qed.

Lemma strcmp_cons x y a b : strcmp (x :: a) (y :: b) = lex (x ?= y) (strcmp a b).
Proof. cbn. by destruct (x ?= y). Qed.

Lemma strcmp_dec2 n m : 0 <= n < 100 -> 0 <= m < 100 -> strcmp (dec2 n) (dec2 m) = (n ?= m).
Proof.
  intros Hn Hm. unfold dec2. rewrite !strcmp_cons, !compare_digit. change (strcmp [] []) with Eq.
  rewrite (Z.div_mod n 10) at 3 by lia. rewrite (Z.div_mod m 10) at 3 by lia. rewrite !(Z.mul_comm 10).
  rewrite (compare_sum 10) by (Z.to_euclidean_division_equations; lia). by destruct (n / 10 ?= m / 10), (n `mod` 10 ?= m `mod` 10).
Qed.

Lemma strcmp_dec4 n m : 0 <= n < 10000 -> 0 <= m < 10000 -> strcmp (dec4 n) (dec4 m) = (n ?= m).
Proof.
  intros Hn Hm. unfold dec4. rewrite !strcmp_cons, !compare_digit. change (strcmp [] []) with Eq.
  assert (Hs : forall x, x = ((x / 1000 * 10 + (x / 100) `mod` 10) * 10 + (x / 10) `mod` 10) * 10 + x `mod` 10) by (intros; Z.to_euclidean_division_equations; lia).
  rewrite (Hs n) at 5. rewrite (Hs m) at 5. rewrite !(compare_sum 10) by (apply Z.mod_pos_bound; lia). rewrite !lex_assoc.
  by destruct (n `mod` 10 ?= m `mod` 10).
Qed.

Lemma utc_day_order t t' : valid_utc t = true -> valid_utc t' = true ->
  (year_days (ut_year t) + month_days (ut_year t) (ut_month t) + ut_day t ?= year_days (ut_year t') + month_days (ut_year t') (ut_month t') + ut_day t') =
  lex (ut_year t ?= ut_year t') (lex (ut_month t ?= ut_month t') (ut_day t ?= ut_day t')).
Proof.
  intros Hv Hv'. pose proof (valid_utc_bounds t Hv) as (_ & Hm & Hd & _). pose proof (valid_utc_bounds t' Hv') as (_ & Hm' & Hd' & _).
  assert (Hyear : forall y y' m m' d d', y < y' -> 1 <= m <= 12 -> 1 <= m' <= 12 -> d <= days_in_month y m -> 1 <= d' ->
            year_days y + month_days y m + d < year_days y' + month_days y' m' + d').
  { intros y y' m m' d d' Hy H1 H2 H3 H4. pose proof (year_days_mono (y + 1) y' ltac:(lia)). rewrite year_days_step in *.
    pose proof (month_days_year y m H1). pose proof (month_days_year y' m' H2). lia. }
  destruct (Z.compare_spec (ut_year t) (ut_year t')) as [Ey|Hy|Hy]; cbn [lex].
  - rewrite <- Ey in *. destruct (Z.compare_spec (ut_month t) (ut_month t')) as [Em|Hlt|Hlt]; cbn [lex].
    + rewrite Em. destruct (Z.compare_spec (ut_day t) (ut_day t')) as [->|H|H]; [apply Z.compare_refl|apply Z.compare_lt_iff; lia|apply Z.compare_gt_iff; lia].
    + apply Z.compare_lt_iff. pose proof (month_days_step (ut_year t) _ _ (proj1 Hm) Hlt (proj2 Hm')). lia.
    + apply Z.compare_gt_iff. pose proof (month_days_step (ut_year t) _ _ (proj1 Hm') Hlt (proj2 Hm)). lia.
  - apply Z.compare_lt_iff. apply Hyear; lia.
  - apply Z.compare_gt_iff. apply Hyear; lia.
Qed.

(** C31: Times are compared as texts, and the texts of dates come in the order of time; a date the browser
    sends, with whatever fraction of a second, is the date that is stored; and what is stored is a
    date of the calendar. *)
Theorem publish_times_chronological t t' fraction : valid_utc t = true -> valid_utc t' = true -> forallb isdigit fraction = true ->
  strcmp (post_time_text t) (post_time_text t') = (utc_seconds t ?= utc_seconds t') /\
  parse_publish_at (Some (iso_text t fraction)) = Some t /\
  forall input u, parse_publish_at input = Some u -> valid_utc u = true.
Proof.
  intros Hv Hv' Hf. split; [|split; [by apply parse_iso|]].
  - pose proof (valid_utc_bounds t Hv) as (Hy & Hmo & Hd & Hh & Hmi & Hs). pose proof (days_in_month_bounds (ut_year t) _ Hmo).
    pose proof (valid_utc_bounds t' Hv') as (Hy' & Hmo' & Hd' & Hh' & Hmi' & Hs'). pose proof (days_in_month_bounds (ut_year t') _ Hmo').
    unfold post_time_text, utc_seconds. rewrite !(compare_sum 60), !(compare_sum 24) by lia. rewrite utc_day_order by done.
    rewrite !strcmp_app by done. rewrite strcmp_dec4, !strcmp_dec2 by lia. rewrite !lex_assoc. reflexivity.
  - intros input u. unfold parse_publish_at. destruct input as [s|]; [|done]. destruct (scan_date s) as [[[[[[y mo] d] h] mi] rest]|]; [|done].
    destruct (scan_seconds rest) as [[sec rest']|]; [|done]. destruct (skip_fraction rest'); [|done]. destruct (valid_utc (Utc y mo d h mi sec)) eqn:E; [|done]. intros Hu. by simplify_eq.
Qed.

Lemma publish_times_chronological_witness :
  let t := Utc 2026 10 5 9 30 0 in let leap := Utc 2024 2 29 23 59 59 in
  strcmp (post_time_text t) (post_time_text leap) = (utc_seconds t ?= utc_seconds leap) /\
  parse_publish_at (Some (CS "2026-10-05T09:30:00.000Z")) = Some t.
Proof.
  destruct (publish_times_chronological (Utc 2026 10 5 9 30 0) (Utc 2024 2 29 23 59 59) (CS "000") eq_refl eq_refl eq_refl) as (H1 & H2 & _).
  split; [exact H1|exact H2].
Defined.
