(* ===== verification/Posts.v ===== *)
(** * Boards, slugs and the publication of posts (src/src/db/board.c, src/src/db/post.c,
    src/src/handlers/post.c)

    Who may write, moderate and put notices on a board; the slug a new post gets; and the handlers that
    create and edit a post, from the parsed form to the rows.  Times are seconds; the texts they are
    stored as come in the same order (Timestamps).  Contents are as they are after the rewriting of old
    addresses; tags, series, media, revisions, the journal, the request to an external reviewer and the
    PIN of guests are not modelled. *)
From stdpp Require Import gmap.
From S2P Require Import Prelude CStr Strutil Timestamps Aho ModerationFilter SiteSettings WritePolicy SpamGuard Community Moderation.

Definition POST_STATUS_DRAFT : cstr := CS "draft".
Definition POST_STATUS_PUBLISHED : cstr := CS "published".
Definition MAX_POST_TITLE_LEN : Z := 200.
Definition MAX_POST_SUMMARY_LEN : Z := 1000.
Definition MAX_POST_CONTENT_LEN : Z := 1024 * 1024.
Definition BOARD_ERROR_REQUIRED : cstr := CS "Choose a board for this post".
Definition BOARD_ERROR_DENIED : cstr := CS "You cannot post to this board".

(** ** Boards *)

Record board_delegation := Delegation { dg_board : Z; dg_user : Z; dg_moderate : bool; dg_notice : bool; dg_expires : option Z }.
(** The boards with their [admin_only] flag. *)
Record board_tables := BoardTables { bt_boards : gmap Z bool; bt_permissions : list (Z * Z); bt_delegations : list board_delegation }.

Definition db_board_can_user_access (t : board_tables) (board_id user_id : Z) (is_admin : bool) : bool :=
  match bt_boards t !! board_id with
  | None => false
  | Some admin_only =>
      if negb admin_only then true else if is_admin then true
      else existsb (fun p => (fst p =? board_id) && (snd p =? user_id)) (bt_permissions t)
  end.

Definition board_delegation_allowed (c : community_config) (now : Z) (t : board_tables) (board_id user_id : Z) (column : board_delegation -> bool) : bool :=
  if negb (cc_board_delegations c) || (board_id <=? 0) || (user_id <=? 0) then false
  else existsb (fun d => (dg_board d =? board_id) && (dg_user d =? user_id) && column d &&
                         match dg_expires d with None => true | Some e => now <? e end) (bt_delegations t).

Definition db_board_user_can_moderate (c : community_config) (now : Z) (t : board_tables) (board_id user_id : Z) (role : cstr) : bool :=
  community_role_can_moderate c role || board_delegation_allowed c now t board_id user_id dg_moderate.
Definition db_board_user_can_notice (c : community_config) (now : Z) (t : board_tables) (board_id user_id : Z) (role : cstr) : bool :=
  community_role_can_moderate c role || board_delegation_allowed c now t board_id user_id dg_notice.

Definition post_board_error (policy : write_policy) (t : board_tables) (board_id uid : Z) (role : cstr) : option cstr :=
  if board_id <=? 0 then (if wp_require_board policy then Some BOARD_ERROR_REQUIRED else None)
  else if negb (db_board_can_user_access t board_id uid (streq role (CS "admin"))) then Some BOARD_ERROR_DENIED
  else None.

(** ** What is public *)

Definition post_is_draft (p : post_row) : bool := streq (po_status p) POST_STATUS_DRAFT.
Definition post_is_scheduled (now : Z) (p : post_row) : bool := negb (post_is_draft p) && (now <? po_created p).
Definition post_is_public (now : Z) (p : post_row) : bool := negb (post_is_draft p) && negb (post_is_scheduled now p).
(** The condition of the listings. *)
Definition POST_PUBLIC_SQL (now : Z) (p : post_row) : bool := streq (po_status p) POST_STATUS_PUBLISHED && (po_created p <=? now).

Definition is_author_or_admin (p : post_row) (uid : Z) (role : cstr) : bool :=
  streq role (CS "admin") || ((0 <? po_user p) && (po_user p =? uid)).

(** The status and the time an editor's button asks for. *)
Definition choose_publish (now uid : Z) (action publish_at_in : option cstr) (was_public : bool) : cstr * option Z :=
  if uid <=? 0 then (POST_STATUS_PUBLISHED, None)
  else if match action with Some a => streq a (CS "draft") | None => false end then (POST_STATUS_DRAFT, None)
  else match parse_publish_at publish_at_in with
       | Some t => (POST_STATUS_PUBLISHED, Some (utc_seconds t))
       | None => (POST_STATUS_PUBLISHED, if was_public then None else Some now)
       end.

(** ** Slugs *)

Record posts_db := PostsDb { pd_content : content_db; pd_slugs : gmap Z (list Z); pd_next : Z }.

(** [CAST(text AS INTEGER)] of digits. *)
Definition cast_integer (digits : cstr) : Z := fst (strtol10 digits).

(** The number a slug uses of a base: 0 for the base itself, [n] for the base followed by the decimal
    of [n > 0] without leading zeros. *)
Definition used_number (base slug : cstr) : option Z :=
  if streq slug base then Some 0
  else
    let tail := drop (length base) slug in
    if starts_with base slug && negb (length tail =? 0)%nat && forallb isdigit tail && (0 <? cast_integer tail) && streq tail (print_int (cast_integer tail))
    then Some (cast_integer tail) else None.

(** The smallest number that is 0 or follows a used one and is not used. *)
Definition next_suffix (base : cstr) (slugs : list (list Z)) : Z :=
  let used := omap (used_number base) slugs in
  let free := List.filter (fun n => negb (existsb (Z.eqb n) used)) (0 :: map (Z.add 1) used) in
  match free with [] => 0 | n :: l => i32 (foldr Z.min n l) end.

(** The slug with the number [n]. *)
Definition numbered (base : cstr) (n : Z) : cstr := base ++ if 0 <? n then print_int n else [].

Definition auto_slug (base : cstr) (slugs : list (list Z)) : option cstr :=
  let n := next_suffix base slugs in
  if n <? 0 then None else Some (numbered base n).

(** One transaction: [ok] tells whether it commits. *)
Definition db_post_create_with_auto_slug (ok : bool) (now board_id user_id : Z) (slug_base content status : cstr) (publish_at : option Z) (db : posts_db) :
    Z * option cstr * posts_db :=
  if (length slug_base =? 0)%nat then (0, None, db)
  else match auto_slug slug_base (map snd (map_to_list (pd_slugs db))) with
       | None => (0, None, db)
       | Some slug =>
           if negb ok then (0, None, db)
           else
             let row := PostRow (Z.max 0 board_id) (Z.max 0 user_id) content status (default now publish_at) false in
             (pd_next db, Some slug,
              PostsDb (set_posts (<[pd_next db := row]> (db_posts (pd_content db))) (pd_content db)) (<[pd_next db := slug]> (pd_slugs db)) (pd_next db + 1))
       end.

(** [UPDATE posts SET ...]: the status and the time where they are given; then the flag of the
    announcement, by a statement of its own. *)
Definition db_post_update (ok : nat -> bool) (now id board_id : Z) (content status : cstr) (publish_at : option Z) (db : content_db) : bool * content_db :=
  if negb (ok 0%nat) then (false, db)
  else
    let update p := PostRow (Z.max 0 board_id) (po_user p) content status (default (po_created p) publish_at) (po_announced p) in
    let hide p := if POST_PUBLIC_SQL now p then p else PostRow (po_board p) (po_user p) (po_content p) (po_status p) (po_created p) false in
    let db := set_posts (alter update id (db_posts db)) db in
    if negb (ok 1%nat) then (false, db) else (true, set_posts (alter hide id (db_posts db)) db).

(** ** The handlers *)

Record post_form := PostForm {
  pf_title : list Z; pf_content : list Z; pf_summary : option (list Z); pf_board : Z; pf_action : option (list Z); pf_publish_at : option (list Z);
  pf_autosave_draft : Z; pf_notice : bool; pf_trap : option (list Z); pf_token : option (list Z) }.

Inductive post_reply :=
| Login_page | Post_forbidden (body : list Z) | Post_spam (v : spam_verdict) | Editor_error (message : list Z) | Post_failed (body : list Z)
| Post_redirect (location : list Z).

Definition too_long (f : post_form) : bool :=
  (MAX_POST_TITLE_LEN <? zlen (pf_title f)) || match pf_summary f with Some s => MAX_POST_SUMMARY_LEN <? zlen s | None => false end ||
  (MAX_POST_CONTENT_LEN <? zlen (pf_content f)).

Section handlers.
Context (hmac_sha256 : list Z -> list Z -> list Z) (auth_jwt_secret : option (list Z)).
Context (policy : write_policy) (c : community_config) (filter : shared_filter) (boards : board_tables).

(** Where a new post leads; the post of a guest whose PIN was stored is shown with it. *)
Definition after_new_post (uid : Z) (public_now awaiting : bool) (slug : cstr) (pin : option cstr) : post_reply :=
  if negb public_now then Post_redirect (if awaiting && (uid <=? 0) then CS "/" else CS "/account/drafts")
  else match pin with
       | Some pin => if uid =? 0 then Post_redirect (CS "/post/" ++ slug ++ CS "?delete_pin=" ++ pin) else Post_redirect (CS "/")
       | None => Post_redirect (CS "/")
       end.

(** A draft the editor saved meanwhile, when it is the writer's own. *)
Definition drop_autosaved (ok : bool) (id uid : Z) (role : cstr) (db : posts_db) : posts_db :=
  if (0 <? id) && (0 <? uid) then
    match db_posts (pd_content db) !! id with
    | Some ad =>
        if is_author_or_admin ad uid role && streq (po_status ad) POST_STATUS_DRAFT && ok
        then PostsDb (set_posts (delete id (db_posts (pd_content db))) (pd_content db)) (delete id (pd_slugs db)) (pd_next db) else db
    | None => db
    end
  else db.

(** The part of the handler from the board on. *)
Definition create_post (ok : nat -> bool) (m : process_matcher) (now uid : Z) (role : cstr) (f : post_form) (pin : option cstr) (db : posts_db) :
    post_reply * posts_db * process_matcher :=
  match post_board_error policy boards (pf_board f) uid role with
  | Some error => (Editor_error error, db, m)
  | None =>
      if pf_notice f && negb (db_board_user_can_notice c now boards (pf_board f) uid role) then (Editor_error (CS "You cannot create notices on this board"), db, m)
      else
        let '(status, publish_at) := choose_publish now uid (pf_action f) (pf_publish_at f) false in
        let '(moderation, m) :=
          if negb (streq status POST_STATUS_DRAFT) && negb (db_board_user_can_moderate c now boards (pf_board f) uid role)
          then moderation_check_submission c filter m now (pd_content db) uid role (Some MODERATION_POST) (pf_content f)
          else (Decision MODERATION_ALLOW [], m) in
        match de_action moderation with
        | MODERATION_REJECT => (Editor_error (CS "New accounts may publish one post in their first 24 hours"), db, m)
        | _ =>
            let awaiting := bool_decide (de_action moderation = MODERATION_PENDING) in
            let status := if awaiting then CS "pending" else status in
            let public_now := streq status POST_STATUS_PUBLISHED && match publish_at with None => true | Some t => t <=? now end in
            let db := drop_autosaved (ok 0%nat) (pf_autosave_draft f) uid role db in
            let '(id, slug, db) := db_post_create_with_auto_slug (ok 1%nat) now (pf_board f) uid (fb_generate_slug (pf_title f)) (pf_content f) status publish_at db in
            match slug with
            | None => (Post_failed (CS "Post creation failed"), db, m)
            | Some slug =>
                let '(queued, content) := if awaiting then db_moderation_queue_post (ok 2%nat) now id uid (de_reason moderation) (pd_content db) else (true, pd_content db) in
                if negb queued then
                  (Post_failed (CS "Post creation failed"),
                   if ok 3%nat then PostsDb (set_posts (delete id (db_posts content)) content) (delete id (pd_slugs db)) (pd_next db) else PostsDb content (pd_slugs db) (pd_next db), m)
                else (after_new_post uid public_now awaiting slug pin, PostsDb content (pd_slugs db) (pd_next db), m)
            end
        end
  end.

Definition handler_post_new_post (ok : nat -> bool) (shared : shared_policy) (m : process_matcher) (rates : option rate_table) (p : peer)
    (logged_in session_cookie : bool) (now uid : Z) (role : cstr) (f : post_form) (pin : option cstr) (db : posts_db) :
    post_reply * posts_db * process_matcher * option rate_table :=
  if negb logged_in && session_cookie then (Login_page, db, m, rates)
  else if negb (write_policy_can_post role shared) then
    ((if (length role =? 0)%nat then Login_page else Post_forbidden (CS "Forbidden: only admins may write posts")), db, m, rates)
  else
    let '(verdict, rates) := spam_guard_check hmac_sha256 auth_jwt_secret policy now p uid (Some role) (pf_trap f) (pf_token f) rates in
    match verdict with
    | SPAM_OK =>
        if (length (pf_title f) =? 0)%nat || (length (pf_content f) =? 0)%nat then (Editor_error (CS "Title and content required"), db, m, rates)
        else if too_long f then (Editor_error (CS "Title, summary, or content is too long"), db, m, rates)
        else let '(reply, db, m) := create_post ok m now uid role f pin db in (reply, db, m, rates)
    | v => (Post_spam v, db, m, rates)
    end.

(** An edit, by a writer who is logged in; the second click on the button is Reqshare's. *)
Definition handler_post_edit_post (ok : nat -> bool) (now uid : Z) (role : cstr) (id : Z) (f : post_form) (notice_field_present was_notice : bool) (db : posts_db) :
    post_reply * posts_db :=
  if (length (pf_title f) =? 0)%nat || (length (pf_content f) =? 0)%nat then (Post_redirect (CS "/"), db)
  else if too_long f then (Post_redirect (CS "/"), db)
  else match db_posts (pd_content db) !! id with
  | None => (Post_redirect (CS "/"), db)
  | Some post =>
      if negb (is_author_or_admin post uid role) then (Post_forbidden (CS "Forbidden"), db)
      else match post_board_error policy boards (pf_board f) uid role with
      | Some error =>
          (Post_redirect (snprintf_s 96 (CS "/post/" ++ print_int id ++ CS "/edit?error=" ++ if streq error BOARD_ERROR_DENIED then CS "board_denied" else CS "board")), db)
      | None =>
          let was_pending := streq (po_status post) (CS "pending") in
          let was_public := post_is_public now post && negb was_pending in
          let notice := if notice_field_present then pf_notice f else was_notice in
          if negb (eqb notice was_notice) && negb (db_board_user_can_notice c now boards (pf_board f) uid role)
          then (Post_forbidden (CS "Forbidden: notice permission required"), db)
          else
            let '(status, publish_at) := choose_publish now uid (pf_action f) (pf_publish_at f) was_public in
            let '(status, publish_at) := if was_pending then (CS "pending", None) else (status, publish_at) in
            let '(saved, content) := db_post_update ok now id (pf_board f) (pf_content f) status publish_at (pd_content db) in
            let slug := default [] (pd_slugs db !! id) in
            let broken_slug := (length slug =? 0)%nat || starts_with (CS "autosave") slug || starts_with (CS "untitled") slug in
            let others := map snd (List.filter (fun kv => negb (fst kv =? id)) (map_to_list (pd_slugs db))) in
            let fresh := if saved && (negb was_public || broken_slug) && negb (length (fb_generate_slug (pf_title f)) =? 0)%nat && ok 2%nat
                         then auto_slug (fb_generate_slug (pf_title f)) others else None in
            let slug := default slug fresh in
            let slugs := match fresh with Some s => <[id := s]> (pd_slugs db) | None => pd_slugs db end in
            let public_now := match db_posts content !! id with Some p => post_is_public now p | None => false end in
            (Post_redirect (snprintf_s 128 (if negb public_now then CS "/account/drafts" else CS "/post/" ++ (if (length slug =? 0)%nat then print_int id else slug))),
             PostsDb content slugs (pd_next db))
      end
  end.
End handlers.

(** ** A new slug is free *)

Lemma all_digits_print_aux fuel n acc : forallb isdigit acc = true -> forallb isdigit (print_dec_aux fuel n acc) = true.
Proof.
  revert n acc. induction fuel as [|f IH]; intros n acc Ha; [done|]. cbn [print_dec_aux]. cbv zeta.
  assert (Hd : forallb isdigit ((48 + n `mod` 10) :: acc) = true) by (cbn [forallb]; by rewrite isdigit_digit, Ha).
  destruct (n <? 10); [done|by apply IH].
Qed.

Lemma all_digits_print_int n : 0 <= n -> forallb isdigit (print_int n) = true.
Proof. intros Hn. unfold print_int, print_dec. replace (n <? 0) with false by lia. by apply all_digits_print_aux. Qed.

Lemma print_int_nonempty n : print_int n <> [].
Proof.
  unfold print_int. destruct (n <? 0); [done|]. unfold print_dec.
  destruct (print_dec_aux_head 20 n [] ltac:(left; lia)) as (c & r & -> & _). done.
Qed.

Lemma used_number_spec base slug n : used_number base slug = Some n -> 0 <= n /\ slug = numbered base n.
Proof.
  unfold used_number, numbered. destruct (streq slug base) eqn:E; [apply streq_eq in E as ->; intros [= <-]; split; [lia|by rewrite app_nil_r]|].
  destruct (_ && _) eqn:E2; [|done]. intros [= <-]. apply andb_true_iff in E2 as [[[[H1 H2]%andb_true_iff H3]%andb_true_iff H4]%andb_true_iff H5].
  apply starts_with_spec in H1 as [tail ->]. rewrite drop_app_length in *. rewrite H4. split; [lia|]. f_equal. by apply streq_eq in H5.
Qed.

Lemma used_number_numbered base n : 0 <= n <= long_max -> used_number base (numbered base n) = Some n.
Proof.
  intros Hn. unfold used_number, numbered. destruct (Z.ltb_spec 0 n) as [Hp|Hp].
  - pose proof (print_int_nonempty n) as Hne.
    assert (Hs : streq (base ++ print_int n) base = false).
    { apply not_true_iff_false. intros E%streq_eq. apply (f_equal length) in E. rewrite length_app in E. destruct (print_int n); [done|cbn in E; lia]. }
    rewrite Hs, starts_with_app, drop_app_length. unfold cast_integer. rewrite strtol10_print_int by done. cbn [fst].
    rewrite all_digits_print_int by lia. rewrite (proj2 (Z.ltb_lt 0 n)) by done. rewrite streq_refl. by destruct (print_int n).
  - assert (n = 0) as -> by lia. by rewrite app_nil_r, streq_refl.
Qed.

(** The least number missing from a list. *)
Lemma least_missing (used : list Z) :
  exists n, 0 <= n <= zlen used /\ (n ∉ used) /\ forall m, 0 <= m < n -> m ∈ used.
Proof.
  assert (H : forall k, (forall m, 0 <= m < Z.of_nat k -> m ∈ used) \/ exists n, 0 <= n < Z.of_nat k /\ (n ∉ used) /\ forall m, 0 <= m < n -> m ∈ used).
  { induction k as [|k [IH|(n & Hn & H)]]; [left; lia| |right; exists n; split; [lia|done]].
    destruct (decide (Z.of_nat k ∈ used)) as [Hk|Hk]; [left|right; exists (Z.of_nat k); split; [lia|done]].
    intros m Hm. destruct (decide (m = Z.of_nat k)) as [->|]; [done|apply IH; lia]. }
  destruct (H (S (length used))) as [Hall|(n & Hn & Hrest)]; [|exists n; unfold zlen; split; [lia|done]].
  exfalso. pose proof (NoDup_incl_length (l := map Z.of_nat (seq 0 (S (length used)))) (l' := used)) as Hincl.
  rewrite length_map, length_seq in Hincl. enough (S (length used) <= length used)%nat by lia. apply Hincl.
  - apply Finite.Injective_map_NoDup; [intros a b; lia|apply seq_NoDup].
  - intros m Hm. apply in_map_iff in Hm as (i & <- & Hi%in_seq). apply list_elem_of_In. apply Hall. lia.
Qed.

Lemma foldr_min_least (n x : Z) l : n ∈ x :: l -> (forall m, m ∈ x :: l -> n <= m) -> foldr Z.min x l = n.
Proof.
  revert x. induction l as [|y l IH]; intros x Hn Hmin; cbn [foldr]; [by apply list_elem_of_singleton in Hn|].
  destruct (decide (n = y)) as [->|Hne].
  - enough (y <= foldr Z.min x l) by lia. assert (Hx : y <= x) by (apply Hmin; left).
    assert (Hl : forall m, m ∈ l -> y <= m) by (intros m Hm; apply Hmin; by do 2 right). clear - Hx Hl.
    induction l as [|z l IH]; cbn [foldr]; [done|]. pose proof (Hl z ltac:(left)). enough (y <= foldr Z.min x l) by lia. apply IH. intros m Hm. apply Hl. by right.
  - rewrite (IH x).
    + pose proof (Hmin y ltac:(right; left)). lia.
    + apply elem_of_cons in Hn as [->|[->|Hn]%elem_of_cons]; [left|done|by right].
    + intros m [->|Hm]%elem_of_cons; apply Hmin; [left|by do 2 right].
Qed.

Lemma next_suffix_least base slugs : zlen slugs < 2 ^ 31 ->
  let used := omap (used_number base) slugs in
  0 <= next_suffix base slugs <= zlen slugs /\ (next_suffix base slugs ∉ used) /\ forall m, 0 <= m < next_suffix base slugs -> m ∈ used.
Proof.
  intros Hl used. destruct (least_missing used) as (n & Hn & Hfree & Hbelow).
  assert (Hlen : zlen used <= zlen slugs).
  { unfold used, zlen. clear. induction slugs as [|s l IH]; [done|]. cbn [omap list_omap length]. destruct (used_number base s); cbn [length]; lia. }
  enough (next_suffix base slugs = n) as -> by (split; [lia|done]).
  unfold next_suffix. cbv zeta. fold used.
  set (F := List.filter _ _). assert (HF : forall m, m ∈ F <-> (m = 0 \/ exists k, k ∈ used /\ m = 1 + k) /\ m ∉ used).
  { intros m. unfold F. rewrite list_elem_of_In, filter_In, <- list_elem_of_In, elem_of_cons, list_elem_of_In, in_map_iff, negb_true_iff.
    assert (Hex : existsb (Z.eqb m) used = false <-> m ∉ used).
    { rewrite <- not_true_iff_false, existsb_exists. setoid_rewrite <- list_elem_of_In. split; [intros H Hm; apply H; exists m; by rewrite Z.eqb_refl|].
      intros H (x & Hx & ->%Z.eqb_eq). done. }
    rewrite Hex. setoid_rewrite <- list_elem_of_In. naive_solver. }
  assert (Hin : n ∈ F).
  { apply HF. split; [|done]. destruct (decide (n = 0)); [by left|right]. exists (n - 1). split; [apply Hbelow; lia|lia]. }
  assert (Hpos : forall k, k ∈ used -> 0 <= k).
  { intros k (s & _ & Hs)%list_elem_of_omap. by apply used_number_spec in Hs as [? _]. }
  assert (Hmin : forall m, m ∈ F -> n <= m).
  { intros m [[->|(k & Hk & ->)] Hm]%HF; [destruct (decide (n = 0)); [lia|destruct Hm; apply Hbelow; lia]|].
    pose proof (Hpos k Hk). destruct (decide (n <= 1 + k)); [done|]. destruct Hm. apply Hbelow. lia. }
  destruct F as [|x l]; [by apply elem_of_nil in Hin|]. rewrite (foldr_min_least n) by done. apply i32_small. lia.
Qed.

(** C30: The name a new post gets is the title's slug with the smallest number that is not taken: no other
    post has it, every smaller number is taken, and as long as the site has fewer than 2^31 posts there
    is one, never larger than the number of posts; so a title always finds a name, and deleted names
    are used again. *)
Theorem auto_slug_free base slugs : zlen slugs < 2 ^ 31 ->
  exists n, auto_slug base slugs = Some (numbered base n) /\ 0 <= n <= zlen slugs /\ (numbered base n ∉ slugs) /\
            forall m, 0 <= m < n -> numbered base m ∈ slugs.
Proof.
  intros Hl. destruct (next_suffix_least base slugs Hl) as (Hn & Hfree & Hbelow). exists (next_suffix base slugs).
  assert (Hno : forall m, m ∈ omap (used_number base) slugs -> numbered base m ∈ slugs).
  { intros m (s & Hs & Hu)%list_elem_of_omap. by apply used_number_spec in Hu as [_ ->]. }
  split_and!; [|lia|lia| |intros m Hm; by apply Hno, Hbelow].
  - unfold auto_slug. cbv zeta. by replace (_ <? 0) with false by lia.
  - intros Hs. apply Hfree. apply list_elem_of_omap. eexists. split; [done|]. apply used_number_numbered. unfold long_max. lia.
Qed.

Lemma auto_slug_free_witness :
  auto_slug (CS "news") [CS "news"; CS "other"; CS "news2"; CS "news1"; CS "news07"; CS "newspaper"; CS "news4"] = Some (CS "news3") /\
  exists n, auto_slug (CS "news") [CS "news"; CS "news1"] = Some (numbered (CS "news") n) /\ 0 <= n <= 2 /\
            (numbered (CS "news") n ∉ [CS "news"; CS "news1"]) /\ forall m, 0 <= m < n -> numbered (CS "news") m ∈ [CS "news"; CS "news1"].
Proof. split; [by vm_compute|]. apply (auto_slug_free (CS "news") [CS "news"; CS "news1"]). by vm_compute. Defined.

(** ** What becomes public, and who has looked at it *)

Section review.
Context (policy : write_policy) (c : community_config) (filter : shared_filter) (boards : board_tables).

Lemma drop_autosaved_posts ok id uid role db i p :
  db_posts (pd_content (drop_autosaved ok id uid role db)) !! i = Some p -> db_posts (pd_content db) !! i = Some p.
Proof.
  unfold drop_autosaved. destruct (_ && _); [|done]. destruct (db_posts (pd_content db) !! id) as [ad|]; [|done].
  destruct (_ && ok); [|done]. cbn. by intros [_ ?]%lookup_delete_Some.
Qed.

Lemma drop_autosaved_next ok id uid role db : pd_next (drop_autosaved ok id uid role db) = pd_next db.
Proof. unfold drop_autosaved. repeat case_match; done. Qed.

Lemma create_with_slug_posts ok now board uid base content status publish db i p :
  let '(_, _, db') := db_post_create_with_auto_slug ok now board uid base content status publish db in
  db_posts (pd_content db') !! i = Some p ->
  db_posts (pd_content db) !! i = Some p \/ (i = pd_next db /\ po_content p = content /\ po_status p = status).
Proof.
  unfold db_post_create_with_auto_slug. destruct (_ =? 0)%nat; [by left|]. destruct (auto_slug _ _); [|by left].
  destruct ok; [|by left]. cbn. intros [[-> <-]|[_ H]]%lookup_insert_Some; [by right|by left].
Qed.

Lemma queue_post_posts ok now id uid reason db : db_posts (snd (db_moderation_queue_post ok now id uid reason db)) = db_posts db.
Proof. unfold db_moderation_queue_post, queue_row. by repeat case_match. Qed.

(** The status of a new post. *)
Definition new_status (m : process_matcher) (now uid : Z) (role : cstr) (f : post_form) (db : posts_db) (status : cstr) : Prop :=
  status = POST_STATUS_DRAFT \/ status = CS "pending" \/
  db_board_user_can_moderate c now boards (pf_board f) uid role = true \/
  de_action (fst (moderation_check_submission c filter m now (pd_content db) uid role (Some MODERATION_POST) (pf_content f))) = MODERATION_ALLOW.

Lemma create_post_rows ok m now uid role f pin db :
  let '(_, db', _) := create_post policy c filter boards ok m now uid role f pin db in
  forall i p, db_posts (pd_content db') !! i = Some p ->
    db_posts (pd_content db) !! i = Some p \/ (i = pd_next db /\ po_content p = pf_content f /\ new_status m now uid role f db (po_status p)).
Proof.
  unfold create_post. destruct (post_board_error _ _ _ _ _); [by left|]. destruct (_ && negb _); [by left|].
  destruct (choose_publish _ _ _ _ _) as [status publish_at].
  set (checked := negb (streq status POST_STATUS_DRAFT) && _).
  destruct (if checked then _ else _) as [d m'] eqn:Ed.
  assert (Hd : de_action d = MODERATION_ALLOW -> new_status m now uid role f db status).
  { intros Ha. unfold new_status. destruct (streq status POST_STATUS_DRAFT) eqn:Es; [left; by apply streq_eq|].
    subst checked. cbn [negb andb] in Ed. destruct (db_board_user_can_moderate _ _ _ _ _ _); [by do 2 right; left|].
    do 3 right. cbn [negb] in Ed. by rewrite Ed. }
  destruct (de_action d) eqn:Ea; [| |by left].
  all: cbv zeta; match goal with |- context [db_post_create_with_auto_slug ?o ?n ?b ?u ?sb ?ct ?st ?pa ?d0] =>
    pose proof (create_with_slug_posts o n b u sb ct st pa d0) as Hc; destruct (db_post_create_with_auto_slug o n b u sb ct st pa d0) as [[id slug] db'] end.
  all: rewrite drop_autosaved_next in Hc.
  all: assert (Hrow : forall i p, db_posts (pd_content db') !! i = Some p ->
    db_posts (pd_content db) !! i = Some p \/ (i = pd_next db /\ po_content p = pf_content f /\ new_status m now uid role f db (po_status p))).
  all: [> intros i p [Hp|(-> & -> & ->)]%Hc; [left; by eapply drop_autosaved_posts|right; split_and!; [done|done|]] | | intros i p [Hp|(-> & -> & ->)]%Hc; [left; by eapply drop_autosaved_posts|right; split_and!; [done|done|]] | ].
  1: by apply Hd. 2: by right; left.
  all: destruct slug as [slug|]; [|exact Hrow].
  - rewrite bool_decide_false by done. cbn. exact Hrow.
  - rewrite bool_decide_true by done. pose proof (queue_post_posts (ok 2%nat) now id uid (de_reason d) (pd_content db')) as Hq.
    destruct (db_moderation_queue_post _ _ _ _ _ _) as [queued content]. cbn [snd] in Hq. destruct queued; cbn; [by rewrite Hq|].
    destruct (ok 3%nat); cbn; rewrite Hq; [|exact Hrow]. intros i p [_ Hp]%lookup_delete_Some. by apply Hrow.
Qed.

End review.

Lemma post_update_row ok now id board content status publish db post :
  db_posts db !! id = Some post -> ok 0%nat = true -> ok 1%nat = true ->
  let '(saved, db') := db_post_update ok now id board content status publish db in
  saved = true /\ db_items db' = db_items db /\
  exists p, db_posts db' !! id = Some p /\ po_content p = content /\ po_status p = status /\ po_created p = default (po_created post) publish.
Proof.
  intros Hp H0 H1. unfold db_post_update. rewrite H0, H1. cbn. split_and!; [done|done|].
  rewrite !lookup_alter_eq, Hp. cbn. eexists. split; [done|]. by destruct (POST_PUBLIC_SQL _ _).
Qed.

(** An edit of one's own post that the form, the board and the database let through. *)
Definition edit_goes_through (policy : write_policy) (boards : board_tables) (ok : nat -> bool) (uid : Z) (role : cstr) (id : Z) (f : post_form)
    (notice_field_present was_notice : bool) (db : posts_db) (post : post_row) : Prop :=
  db_posts (pd_content db) !! id = Some post /\ po_user post = uid /\ 0 < uid /\ pf_title f <> [] /\ pf_content f <> [] /\ too_long f = false /\
  post_board_error policy boards (pf_board f) uid role = None /\ (notice_field_present = true -> pf_notice f = was_notice) /\ ok 0%nat = true /\ ok 1%nat = true.

Lemma edit_row policy c boards ok now uid role id f shown was_notice db post :
  edit_goes_through policy boards ok uid role id f shown was_notice db post ->
  let was_pending := streq (po_status post) (CS "pending") in
  let choice := if was_pending then (CS "pending", None)
                else choose_publish now uid (pf_action f) (pf_publish_at f) (post_is_public now post && negb was_pending) in
  let '(_, db') := handler_post_edit_post policy c boards ok now uid role id f shown was_notice db in
  db_items (pd_content db') = db_items (pd_content db) /\
  exists p, db_posts (pd_content db') !! id = Some p /\ po_content p = pf_content f /\ po_status p = fst choice /\
            po_created p = default (po_created post) (snd choice).
Proof.
  intros (Hp & Hu & Hpos & Ht & Hc & Hl & Hb & Hn & H0 & H1). cbv zeta. unfold handler_post_edit_post.
  destruct (pf_title f); [done|]. destruct (pf_content f) as [|b r] eqn:Ec; [done|]. cbn [length Nat.eqb orb]. rewrite Hl, Hp.
  assert (Ha : is_author_or_admin post uid role = true) by (unfold is_author_or_admin; rewrite Hu; apply orb_true_iff; right; lia).
  rewrite Ha, Hb. cbn [negb]. cbv zeta.
  assert (Hnotice : eqb (if shown then pf_notice f else was_notice) was_notice = true) by (apply eqb_true_iff; destruct shown; auto).
  rewrite Hnotice. cbn [negb andb].
  destruct (choose_publish _ _ _ _ _) as [status publish]. destruct (streq (po_status post) (CS "pending")).
  all: match goal with |- context [db_post_update ?o ?n ?i ?bo ?ct ?st ?pu ?d] =>
    pose proof (post_update_row o n i bo ct st pu d post Hp H0 H1) as Hr; destruct (db_post_update o n i bo ct st pu d) as [saved content] end.
  all: by destruct Hr as (-> & Hi & Hr); cbn.
Qed.

(** C13: A post that is written and published at once is shown without review only to a writer who moderates
    the board, or when the check of the submission allows it; what the check holds back is stored as
    pending, and stays pending however often its writer edits it.  But an edit is never checked: the
    writer's own draft, edited with the button that publishes, is at once in the listings with the
    new text, whatever words, links and limits the site forbids, and nothing is queued. *)
Theorem draft_publishes_unreviewed policy c filter boards :
  (forall ok m now uid role f pin db,
    let '(_, db', _) := create_post policy c filter boards ok m now uid role f pin db in
    forall i p, db_posts (pd_content db') !! i = Some p ->
      db_posts (pd_content db) !! i = Some p \/
      (i = pd_next db /\ po_content p = pf_content f /\ new_status c filter boards m now uid role f db (po_status p))) /\
  (forall ok now uid role id f shown was_notice db post,
    edit_goes_through policy boards ok uid role id f shown was_notice db post ->
    let '(_, db') := handler_post_edit_post policy c boards ok now uid role id f shown was_notice db in
    db_items (pd_content db') = db_items (pd_content db) /\
    exists p, db_posts (pd_content db') !! id = Some p /\ po_content p = pf_content f /\
      (po_status post = CS "pending" -> po_status p = CS "pending" /\ POST_PUBLIC_SQL now p = false) /\
      (po_status post = POST_STATUS_DRAFT -> pf_action f <> Some (CS "draft") -> parse_publish_at (pf_publish_at f) = None -> POST_PUBLIC_SQL now p = true)).
Proof.
  split; [intros; apply create_post_rows|]. intros ok now uid role id f shown was_notice db post He.
  pose proof (edit_row policy c boards ok now uid role id f shown was_notice db post He) as H. cbv zeta in H.
  destruct (handler_post_edit_post _ _ _ _ _ _ _ _ _ _ _ _) as [reply db']. destruct H as (Hi & p & Hp & Hc & Hs & Hd).
  split; [done|]. exists p. split_and!; [done|done| |].
  - intros E. rewrite E in Hs. cbn in Hs. split; [done|]. unfold POST_PUBLIC_SQL. by rewrite Hs.
  - intros E Ha Ht. rewrite E in Hs, Hd. replace (streq POST_STATUS_DRAFT (CS "pending")) with false in Hs, Hd by done.
    unfold post_is_public, post_is_draft in Hs, Hd. rewrite E, streq_refl in Hs, Hd. cbn [negb andb] in Hs, Hd.
    destruct He as (_ & _ & Hpos & _). unfold choose_publish in Hs, Hd. rewrite Ht in Hs, Hd. rewrite (proj2 (Z.leb_gt uid 0)) in Hs, Hd by done.
    assert (Hn : match pf_action f with Some a => streq a (CS "draft") | None => false end = false)
      by (destruct (pf_action f) as [a|]; [apply streq_neq; congruence|done]).
    rewrite Hn in Hs, Hd. cbn in Hs, Hd. unfold POST_PUBLIC_SQL. rewrite Hs, Hd, streq_refl. lia.
Qed.

Module Desk.
Definition boards : board_tables := BoardTables ∅ [] [].
Definition policy : write_policy := WritePolicy WRITE_SCOPE_MEMBER WRITE_SCOPE_MEMBER false false 0.
Definition all_on : community_config := Community true true true true true true.
Definition words : shared_filter := SharedFilter 1 (FilterPolicy true MODERATION_FILTER_REJECT true 16 (CS "spam")).
Definition form (action text : list Z) : post_form := PostForm (CS "Title") text None 0 (Some action) None 0 false None None.
Definition empty : posts_db := PostsDb (ContentDb ∅ ∅ 1 ∅ ∅ ∅ {[7 := 1000]}) ∅ 1.
Definition write (action text : list Z) (db : posts_db) : post_reply * posts_db * process_matcher :=
  create_post policy all_on words boards (fun _ => true) no_matcher 2000 7 (CS "user") (form action text) None db.
Definition edited (db : posts_db) : post_reply * posts_db :=
  handler_post_edit_post policy all_on boards (fun _ => true) 2001 7 (CS "user") 1 (form (CS "publish") (CS "buy spam")) false false db.
End Desk.

Lemma draft_publishes_unreviewed_witness :
  let '(_, asked, _) := Desk.write (CS "publish") (CS "buy spam") Desk.empty in
  let '(_, db, _) := Desk.write (CS "draft") (CS "a thought") Desk.empty in
  let '(reply, db') := Desk.edited db in
  map fst (map_to_list (db_posts (pd_content asked))) = [] /\
  (po_status <$> db_posts (pd_content db) !! 1) = Some POST_STATUS_DRAFT /\
  reply = Post_redirect (CS "/post/title") /\
  db_items (pd_content db') = ∅ /\
  exists p, db_posts (pd_content db') !! 1 = Some p /\ po_content p = CS "buy spam" /\ POST_PUBLIC_SQL 2001 p = true.
Proof.
  destruct (Desk.write (CS "publish") (CS "buy spam") Desk.empty) as [[reply0 asked] m0] eqn:E0.
  destruct (Desk.write (CS "draft") (CS "a thought") Desk.empty) as [[reply1 db] m1] eqn:E1.
  destruct (Desk.edited db) as [reply db'] eqn:E2.
  assert (Hd : db_posts (pd_content db) !! 1 = Some (PostRow 0 7 (CS "a thought") POST_STATUS_DRAFT 2000 false))
    by (change db with (snd (fst (reply1, db, m1))); rewrite <- E1; by vm_compute).
  pose proof (proj2 (draft_publishes_unreviewed Desk.policy Desk.all_on Desk.words Desk.boards) (fun _ => true) 2001 7 (CS "user") 1
    (Desk.form (CS "publish") (CS "buy spam")) false false db _ ltac:(by split_and!)) as H.
  unfold Desk.edited in E2. rewrite E2 in H. destruct H as (Hi & p & Hp & Hc & _ & Hs).
  split_and!.
  - change asked with (snd (fst (reply0, asked, m0))). rewrite <- E0. by vm_compute.
  - by rewrite Hd.
  - change reply with (fst (reply, db')). rewrite <- E2. change db with (snd (fst (reply1, db, m1))). rewrite <- E1. by vm_compute.
  - rewrite Hi. change db with (snd (fst (reply1, db, m1))). rewrite <- E1. by vm_compute.
  - exists p. split_and!; [done|done|]. by apply Hs.
Defined.
